(* ===== verification/_CoqProject ===== *)
-Q . S2P
Prelude.v
Links.v
Task.v
WaitQueue.v
Mutex.v
Semaphore.v
Condition.v
Guarded.v
Monitor.v
RwLock.v
Mlfq.v
RtSched.v
Ipc.v
Pipe.v
MsgQueue.v
Mem.v
Malloc.v
Pra.v
MmAlloc.v
Bytes.v
FsCore.v
FsFile.v
Storage.v
Transaction.v
SkipList.v
CString.v
WsFrame.v
Mmu.v
MmuConfig.v
Mqtt.v
RbTree.v
RbSearch.v
Fair.v
Epoll.v
Json.v
Interrupt.v
Stdio.v
Server.v
Protect.v
SharedMem.v
Sched.v
Text.v
Http.v
Handshake.v
ClientThread.v
SysArch.v
SslServer.v
Ethernet.v
Ble.v
HttpServer.v
Config.v
MqttNet.v
Fat.v
FileManager.v
Transport.v
SecureClient.v
Platform.v
Startup.v
NetworkApp.v
Speech.v
Download.v
