(* ===== verification/Prelude.v ===== *)
(** * A verification of the kernel and its libraries

    ** The program

    The repository is a small operating system for a 32-bit little-endian ARM
    Cortex-A7: tasks and schedulers, synchronisation, inter-process communication,
    memory management, a file system, a C library, a key-value store and network
    protocols.  Its parts meet at few places.  Everything that blocks goes through
    the task table (src/src/task.c) and the wait queues threaded through it; the
    synchronisation objects disable interrupts around short critical sections and
    hand the processor over with [task_schedule]; the table modules (pipes,
    message queues, page replacement, the kernel allocator) do their work between
    [mutex_lock] and [mutex_unlock]; the file system and the key-value store are
    sequential code over a device or a file.

    ** How C is modelled

    Integers are [Z], with the conversion ([u8], [u16], [u32], [i32]) written where
    the source can leave the range of the type.  A function is a [Cmd S A], from a
    state to a [prog S A]: it returns ([Ret]), gives the processor to other tasks
    and goes on in the state it finds later ([Yield]), or stops ([Stop]) because of
    an invalid access ([Fault]), an endless loop ([Hang]) or a loop bound of the
    model that is used up ([NoFuel]).  What happens during a [Yield] is left open:
    [run] fixes an environment, [always] quantifies over all of them under a
    rely-guarantee pair.  Pointers are indices into the table or heap they point
    into ([ptr], [None] being NULL), or addresses of a byte memory (Mem.v) where
    the source does address arithmetic.  What the sources call and do not define is
    a parameter: a record of operations ([fs_ops], [io_ops], [kv_ops], ...), with its
    documented behaviour in a record of laws or a class, each inhabited by a
    concrete instance in a witness.

    ** The files

    - Prelude: integers, programs, lenses, tactics, list lemmas.
    - Links: chains of array cells, the linked lists of the kernel.
    - Task: src/src/task.c, the table of 32 tasks; creation, deletion, the scheduler's
      scan.  WaitQueue: the queues through [next_wait] and the interrupt mask.
    - Mutex, Semaphore, Condition, RwLock: src/src/mutex.c, semaphore.c,
      condition.c, rwlock.c.  Monitor: a mutex with two conditions, the pattern of
      the lock and of the pipe.  Guarded: lock, work, unlock.
    - Mlfq, RtSched: src/src/scheduler_mlfq.c, scheduler_rt.c.  Sched: the dispatch of
      src/src/scheduler.c over them and Fair, one task table seen by each.
    - Ipc, Pipe, MsgQueue: src/src/ipc_init.c, pipe.c, msg_queue.c.
    - Mem: byte memory.  Malloc, MmAlloc: src/src/malloc.c, mm_alloc.c.  Pra:
      src/src/mm_pra.c.  Protect: src/src/mm_protect.c, page faults and rights, over Pra.
      SharedMem: src/src/shared_mem.c.
    - Bytes: words and bits of byte buffers.  FsCore, FsFile: src/src/fs_core.c,
      fs_file.c.
    - Storage, Transaction, SkipList: src/src/storage.c, transaction.c, index.c, the
      key-value store of src/include/kvdb.h.
    - CString: src/src/string.c.  Stdio: src/src/stdio.c over FsFile.  WsFrame:
      src/src/frame.c.  Server: src/src/server.c over WsFrame.
    - Text: the standard library on strings.  Http: src/src/http.c, mcurl.c.  Handshake:
      src/src/handshake.c.  ClientThread: [client_thread] of server.c, the handshake and
      the message loop of Server on one buffer.
    - SslServer: src/src/ssl_server.c over mbedTLS.  SysArch: src/src/sys_arch.c over the
      calls of "os.h", whose queues are the class [OsQueues].  Ethernet:
      src/src/ethernetif.c.  Ble: src/src/ble_stack.c, gatt_service.c and the start of
      advertising of ble_netconfig.c.
    - Mmu, MmuConfig: src/src/mmu.c, mmu_config.c.  Mqtt: src/src/mqtt_protocol.c.
    - RbTree: src/src/rbtree.c over any node that implements [RbNode], the interface
      that src/include/epoll.h and scheduler_fair.c instantiate; RbSearch: the walks of
      its clients.  Fair: src/src/scheduler_fair.c.  Epoll: src/src/epoll.c.
    - Json: the strings and arrays of src/src/cjson.c and cjson_print.c.  Interrupt:
      src/src/interrupt.c.
    - Startup: src/src/system_init.c, main.c, uart.c, led.c and timer.c, on a board whose
      registers are reached through Mmu, over Interrupt, Task and Sched.
    - MqttNet: src/src/mqtt_network.c.  Transport: src/src/network.c, the connections of the
      client of Http, over the class [Channel].  SecureClient: src/src/secure_comm.c over
      the session of SslServer.  Platform: src/src/platform_alt.c.  NetworkApp:
      src/src/network_app.c.
    - Fat: src/src/ff.c and diskio.c over the class [FatDirectory].  Speech: src/src/vad.c,
      audio.c and recognition.c over the class [Float].
    - HttpServer, Config, FileManager, Download: the applications http_server.c (over Epoll
      through the class [Poller]), config_manager.c (over the class [Cjson]),
      file_manager.c (over Fat) and download_manager.c of src/examples.

    ** What the theorems show

    - Synchronisation.  Over every interleaving of any number of tasks: mutual
      exclusion and FIFO hand-over of the mutex, conservation of semaphore permits,
      exclusion of readers and writers, no lost wake-up between [condition_wait] and
      a signal, broadcasts that end and wake everybody.
    - Tasks and scheduling.  The table invariant under every operation, the exact
      result of [task_create], the MLFQ queues as lists with no starvation after a
      boost, alone and through the dispatch, the choice of the earliest deadline and
      of the shortest period, what each policy of the dispatch switches to.
    - Communication.  A pipe is a byte queue and a message queue a list searched by
      type, alone and under interference.
    - Memory.  Both allocators are characterised on every well-formed heap (first
      fit, best fit), as are the four page replacement policies.  A page fault in an
      area maps a page of its own and faults elsewhere are refused; the segments of
      shared memory are a list whose pages attached regions map.
    - Files.  The block cache is transparent; block allocation and its undoing;
      what [fs_write] writes [fs_read] reads, and the streams of stdio pass it on.
    - Key-value store.  Records survive and damage is detected as far as the
      checksum reaches; a transaction reads its own writes and isolates the store;
      the skip list is a sorted association list for every outcome of [rand].
    - Libraries.  The memory functions are block operations, string comparison is
      the first difference, frames survive being written and parsed, an MQTT CONNECT
      packet states its own length, the JSON parser reads back every string the
      printer writes.  The server thread answers exactly the whole frames of each
      chunk it receives, in order; a client's thread as a whole gives the handshake's
      answer, serves what follows an accepted one and always cleans up.  HTTP: what a
      URL is split into, when a request fits its buffer, and that a response is read
      back.  TLS: a session ends and answers every message, and the device obeys signed
      messages only.  The mailboxes under lwIP are bounded queues, and frames pass the
      Ethernet driver whole.  Advertising data are well formed while the name is short.
    - Interrupts.  Each operation on the controller touches one interrupt, and
      [irq_handler] calls the handler registered for it.
    - Red-black trees.  Insertion and removal rebalance, on pointers: the heap
      represents the same nodes in the same order, and the tree is a red-black tree
      again.  The run queue of the fair scheduler is sorted by virtual run time, and
      the set of interest of epoll is a finite map.
    - Translation.  What every address translates to after each of the two [mmu_init],
      and after [mmu_map_section], with no stale translation.
    - Start-up.  What the system prints and sets up from reset on, with every register still
      reached after the MMU is on, and where it stops.
    - Connections.  A connection of the HTTP client or to a broker is set up completely or
      given back completely; what is sent is a prefix of the data and the whole on success;
      the secure client sends data only after a signed answer; the network threads answer
      each visitor by itself and neither leak nor reuse what they hold.
    - Applications.  The server over epoll keeps its connections and their contexts together
      and answers a request however it is cut; a saved configuration is read back;
      downloads stay consistent under any interleaving; what each mode opens on a volume,
      and what each command line does.
    - Speech.  The window of energies, the ownership of the objects, the Mel filters.

    The same theorems show where the code does not do what it means to: [task_init]
    never returns, [free] faults on what [malloc] returned, [strncpy] writes one byte
    too many, [strncmp] looks at one byte too many, a commit applies the writes in
    reverse, a corrupt key passes the checksum, a real-time release breaks a mutex,
    a table of sections that nobody may access, a queued task that is queued again
    hangs the timer interrupt, the policy that start-up selects never runs a task, long
    headers or a long method overflow the buffers of the HTTP code, a length from the
    network is used before its signature is checked, a message of the wrong type is
    success, resampled audio overruns its block.

    ** Bounds and fuel

    Loops over an array or a list are structural.  Loops whose end depends on data
    take a fuel, and every theorem about such a function assumes a lower bound on it
    that the data gives (the length of the queue, string or heap; 2^20 for the
    eviction loop of the block cache, which runs at most once): with it the result
    is a [Ret], so that the theorem includes termination.

    ** Not modelled

    Inline assembly, the assembly of start-up and of the context switch, the link script;
    what lies behind the calls into lwIP, mbedTLS, OpenSSL, json-c, ALSA and the BLE
    controller, none of which is in the sources: what they answer is a parameter.  Of
    src/examples: session_store.c, chat_server.c, smart_device.c, smart_home.c and
    transcription_system.c, whose state is in libraries or in floating point, and the main
    functions.  Of the modelled files: the examples at their ends, the sockets and threads that
    [ws_server_start], [ws_server_create] and [ble_nc_init] set up and the event thread of
    ble_netconfig.c, whose handlers are defined nowhere, what only frees memory
    ([mcurl_cleanup]), and functions that are called and defined nowhere, which are
    parameters.  The value tree of JSON: its numbers are floating point, and [print_value]
    and [parse_value] are called and defined nowhere. *)
From Stdlib Require Export ZArith Lia.
From stdpp Require Export base option numbers list gmap.
#[global] Open Scope Z_scope.
#[global] Set Default Proof Using "Type".

(** ** Machine integers

    C's fixed-width integers are [Z]; every arithmetic operation of the source
    that can leave the range is followed by one of these conversions. *)
Definition wrap (w z : Z) : Z := z mod 2 ^ w.
Definition u8 (z : Z) : Z := wrap 8 z.
Definition u16 (z : Z) : Z := wrap 16 z.
Definition u32 (z : Z) : Z := wrap 32 z.
Definition u64 (z : Z) : Z := wrap 64 z.
(** Conversion to a signed 32-bit integer (two's complement). *)
Definition i32 (z : Z) : Z := (z + 2 ^ 31) mod 2 ^ 32 - 2 ^ 31.
Definition UINT32_MAX : Z := 4294967295.

Lemma wrap_range w z : 0 <= w -> 0 <= wrap w z < 2 ^ w.
Proof. intros. unfold wrap. apply Z.mod_pos_bound. lia. Qed.

Lemma wrap_small w z : 0 <= z < 2 ^ w -> wrap w z = z.
Proof. intros. unfold wrap. by apply Z.mod_small. Qed.

Lemma u32_range z : 0 <= u32 z < 4294967296.
Proof. apply (wrap_range 32). lia. Qed.

Lemma u32_small z : 0 <= z < 4294967296 -> u32 z = z.
Proof. apply (wrap_small 32). Qed.

Lemma u16_small z : 0 <= z < 65536 -> u16 z = z.
Proof. apply (wrap_small 16). Qed.

Lemma u8_small z : 0 <= z < 256 -> u8 z = z.
Proof. apply (wrap_small 8). Qed.

Lemma u8_range z : 0 <= u8 z < 256.
Proof. apply (wrap_range 8). lia. Qed.

Lemma u64_small z : 0 <= z < 18446744073709551616 -> u64 z = z.
Proof. apply (wrap_small 64). Qed.

Lemma i32_small z : -2147483648 <= z < 2147483648 -> i32 z = z.
Proof. intros. unfold i32. rewrite Z.mod_small; lia. Qed.

(** ** Programs

    A C function acts on a state [S] and either returns, reaches a point where
    it gives the processor to other tasks ([Yield], with what it does when it
    runs again), or stops for one of three reasons: it accesses memory it must
    not ([Fault]), it enters a loop that never ends ([Hang]), or the bound
    given to a loop of the model is used up ([NoFuel]). *)
Inductive stop : Type := Fault | Hang | NoFuel.

Inductive prog (S A : Type) : Type :=
| Ret (a : A) (s : S)
| Yield (s : S) (k : S -> prog S A)
| Stop (e : stop).
Arguments Ret {S A} a s.
Arguments Yield {S A} s k.
Arguments Stop {S A} e.

Definition Cmd (S A : Type) : Type := S -> prog S A.

Fixpoint pbind {S A B} (p : prog S A) (f : A -> Cmd S B) : prog S B :=
  match p with
  | Ret a s => f a s
  | Yield s k => Yield s (fun s' => pbind (k s') f)
  | Stop e => Stop e
  end.

Definition ret {S A} (a : A) : Cmd S A := fun s => Ret a s.
Definition bind {S A B} (c : Cmd S A) (f : A -> Cmd S B) : Cmd S B := fun s => pbind (c s) f.
Definition fail {S A} (e : stop) : Cmd S A := fun _ => Stop e.
Definition get {S} : Cmd S S := fun s => Ret s s.
Definition put {S} (s : S) : Cmd S unit := fun _ => Ret tt s.
Definition modify {S} (f : S -> S) : Cmd S unit := fun s => Ret tt (f s).
Definition gets {S A} (f : S -> A) : Cmd S A := fun s => Ret (f s) s.
(** Give the processor away; continue with the state found on return. *)
Definition yield_cpu {S} : Cmd S unit := fun s => Yield s (fun s' => Ret tt s').
(** A pointer dereference: the null pointer and a dangling index are faults. *)
Definition deref {S A} (o : option A) : Cmd S A :=
  match o with Some a => ret a | None => fail Fault end.

(** A [for] loop over known values. *)
Fixpoint for_each {S A} (l : list A) (f : A -> Cmd S unit) : Cmd S unit :=
  match l with
  | [] => ret tt
  | a :: l' => bind (f a) (fun _ => for_each l' f)
  end.

Declare Scope c_scope.
Delimit Scope c_scope with c.
Notation "'let*' x ':=' c 'in' k" := (bind c (fun x => k))
  (at level 10, x binder, c at level 100, k at level 200) : c_scope.
Notation "c ';;;' k" := (bind c (fun _ => k))
  (at level 110, k at level 200, right associativity) : c_scope.
#[global] Open Scope c_scope.

(** *** Laws of the monad, and how known results propagate through [bind]. *)
Lemma bind_Ret {S A B} (c : Cmd S A) (f : A -> Cmd S B) s a s' :
  c s = Ret a s' -> bind c f s = f a s'.
Proof. intros H. unfold bind. by rewrite H. Qed.

Lemma bind_Stop {S A B} (c : Cmd S A) (f : A -> Cmd S B) s e :
  c s = Stop e -> bind c f s = Stop e.
Proof. intros H. unfold bind. by rewrite H. Qed.

Lemma bind_Yield {S A B} (c : Cmd S A) (f : A -> Cmd S B) s s' k :
  c s = Yield s' k -> bind c f s = Yield s' (fun s2 => pbind (k s2) f).
Proof. intros H. unfold bind. by rewrite H. Qed.

Lemma bind_inv_Ret {S A B} (c : Cmd S A) (f : A -> Cmd S B) s b s' :
  bind c f s = Ret b s' -> exists a s1, c s = Ret a s1 /\ f a s1 = Ret b s'.
Proof. unfold bind. destruct (c s); naive_solver. Qed.

(** ** Running a program that yields

    [run env p] resumes [p] after each yield in the state the environment
    produces: [env n] is what the other tasks do during the [n]-th yield. *)
Fixpoint run_from {S A} (env : nat -> S -> S) (n : nat) (p : prog S A) : prog S A :=
  match p with
  | Ret a s => Ret a s
  | Yield s k => run_from env (Datatypes.S n) (k (env n s))
  | Stop e => Stop e
  end.
Definition run {S A} (env : nat -> S -> S) (p : prog S A) : prog S A := run_from env 0 p.

(** Number of yields along that run. *)
Fixpoint yields_from {S A} (env : nat -> S -> S) (n : nat) (p : prog S A) : nat :=
  match p with
  | Yield s k => Datatypes.S (yields_from env (Datatypes.S n) (k (env n s)))
  | _ => 0
  end.

Lemma run_from_bind {S A B} (env : nat -> S -> S) (p : prog S A) (f : A -> Cmd S B) n :
  run_from env n (pbind p f)
  = match run_from env n p with
    | Ret a s => run_from env (n + yields_from env n p)%nat (f a s)
    | Yield s k => Yield s (fun s' => pbind (k s') f)
    | Stop e => Stop e
    end.
Proof.
  revert n. induction p as [a s|s k IH|e]; intros n; simpl.
  - by rewrite Nat.add_0_r.
  - rewrite IH. destruct (run_from env _ _); auto. f_equal. lia.
  - done.
Qed.

Lemma run_from_not_Yield {S A} (env : nat -> S -> S) (p : prog S A) n s k :
  run_from env n p <> Yield s k.
Proof. revert n. induction p; intros n; simpl; naive_solver. Qed.

(** ** Postconditions over every environment

    [always G R Q p]: the program keeps [G] wherever it yields, as long as the
    environment hands back a state with [R]; it never stops for a fault or in an
    endless loop, and [Q] holds if it returns. *)
Section always.
Context {S : Type} (G R : S -> Prop).

Fixpoint always {A} (Q : A -> S -> Prop) (p : prog S A) : Prop :=
  match p with
  | Ret a s => Q a s
  | Yield s k => G s /\ forall s', R s' -> always Q (k s')
  | Stop e => e = NoFuel
  end.

Lemma always_bind {A B} (c : Cmd S A) (f : A -> Cmd S B) s Q P :
  always Q (c s) -> (forall a s', Q a s' -> always P (f a s')) ->
  always P (bind c f s).
Proof.
  unfold bind. generalize (c s). intros p. clear s.
  induction p as [a s|s k IH|e]; simpl; intros HQ HP; auto.
  destruct HQ as [HG Hk]. split; auto.
Qed.

Lemma always_mono {A} (P Q : A -> S -> Prop) (p : prog S A) :
  (forall a s, P a s -> Q a s) -> always P p -> always Q p.
Proof.
  intros HPQ. induction p as [a s|s k IH|e]; simpl; auto.
  intros [HG Hk]. split; auto.
Qed.

Lemma always_run {A} (Q : A -> S -> Prop) (p : prog S A) env n :
  always Q p -> (forall j s, G s -> R (env j s)) ->
  match run_from env n p with
  | Ret a s => Q a s
  | Yield _ _ => False
  | Stop e => e = NoFuel
  end.
Proof.
  intros Hp Henv. revert n. induction p as [a s|s k IH|e]; intros n; simpl in *; auto.
  destruct Hp as [HG Hk]. apply IH, Hk, Henv, HG.
Qed.
End always.

(** ** Lenses: running a component inside a larger state *)
Record lens (S T : Type) : Type := Lens {
  view : S -> T;
  upd : T -> S -> S;
  view_upd : forall t s, view (upd t s) = t;
  upd_view : forall s, upd (view s) s = s;
  upd_upd : forall t1 t2 s, upd t1 (upd t2 s) = upd t1 s
}.
Arguments Lens {S T} view upd view_upd upd_view upd_upd.
Arguments view {S T} l s.
Arguments upd {S T} l t s.
Arguments view_upd {S T} l t s.
Arguments upd_view {S T} l s.
Arguments upd_upd {S T} l t1 t2 s.

Fixpoint pzoom {S T A} (l : lens S T) (s : S) (p : prog T A) : prog S A :=
  match p with
  | Ret a t => Ret a (upd l t s)
  | Yield t k => Yield (upd l t s) (fun s' => pzoom l s' (k (view l s')))
  | Stop e => Stop e
  end.
Definition zoom {S T A} (l : lens S T) (c : Cmd T A) : Cmd S A :=
  fun s => pzoom l s (c (view l s)).

Lemma zoom_Ret {S T A} (l : lens S T) (c : Cmd T A) s a t :
  c (view l s) = Ret a t -> zoom l c s = Ret a (upd l t s).
Proof. intros H. unfold zoom. by rewrite H. Qed.

Lemma pzoom_upd {S T A} (l : lens S T) s t (p : prog T A) : pzoom l (upd l t s) p = pzoom l s p.
Proof. destruct p; simpl; by rewrite ?upd_upd. Qed.

Lemma zoom_bind_Ret {S T A B} (l : lens S T) (c : Cmd T A) (f : A -> Cmd T B) s a t :
  c (view l s) = Ret a t -> zoom l (bind c f) s = zoom l (f a) (upd l t s).
Proof. intros H. unfold zoom. erewrite bind_Ret by exact H. by rewrite view_upd, pzoom_upd. Qed.

Lemma always_zoom_bind {S T A B} G R (l : lens S T) (c : Cmd T A) (f : A -> Cmd T B) s P Q :
  always G R P (zoom l c s) -> (forall a s', P a s' -> always G R Q (zoom l (f a) s')) ->
  always G R Q (zoom l (bind c f) s).
Proof.
  unfold zoom, bind. generalize (c (view l s)). intros p. revert s.
  induction p as [a t|t k IH|e]; simpl; intros s HP HQ; auto.
  - specialize (HQ a _ HP). by rewrite view_upd, pzoom_upd in HQ.
  - destruct HP as [HG Hk]. split; [done|]. intros s' HR. by apply IH; [apply Hk|].
Qed.

(** Pairing a lens on the second component with the first component. *)
Definition lift {K S T} (l : lens S T) : lens (K * S) (K * T).
Proof.
  refine (Lens (fun s => (fst s, view l (snd s))) (fun p s => (fst p, upd l (snd p) (snd s))) _ _ _);
    [by intros [] []; simpl; rewrite view_upd|by intros []; simpl; rewrite upd_view|
     by intros [] [] []; simpl; rewrite upd_upd].
Defined.

(** Pointers to elements of an array, or to cells of a typed heap. *)
Abbreviation ptr := (option nat).

(** ** Tactics *)
(** Evaluate the monadic plumbing of a goal. *)
Ltac cstep :=
  unfold deref; unfold bind, ret, get, put, modify, gets, fail, yield_cpu; cbn [pbind].
Ltac crun :=
  repeat (cstep; simpl).
(** Case analysis on the scrutinee of a match in the goal, keeping the equation. *)
Ltac case_goal H :=
  match goal with
  | |- context [match ?x with _ => _ end] => destruct x eqn:H
  end.

(** ** List facts the components share *)
Lemma list_insert_lookup_ne_dec {A} (l : list A) i j x :
  (<[i:=x]> l) !! j = if decide (i = j /\ (i < length l)%nat) then Some x else l !! j.
Proof.
  destruct (decide _) as [[-> Hl]|Hn].
  - by apply list_lookup_insert_eq.
  - destruct (decide (i = j)) as [->|Hne].
    + rewrite list_insert_ge; [done|]. destruct (decide (length l <= j)%nat); naive_solver lia.
    + by apply list_lookup_insert_ne.
Qed.

Lemma lookup_replicate_lt {A} (x : A) n i :
  (i < n)%nat -> replicate n x !! i = Some x.
Proof. intros. by apply lookup_replicate. Qed.

Create HintDb kernel.
#[export] Hint Resolve u32_range u8_range wrap_small : kernel.
Create Rewrite HintDb kernel_len.
#[export] Hint Rewrite @length_insert @length_replicate @length_app : kernel_len.
