(* ===== verification/Links.v ===== *)
(** * Links

    Intrusive singly linked lists over an array of structures: the tasks of
    [task_list] are chained through [next] (ready queues, real-time list) and
    through [next_wait] (wait queues).  [Link] names the field; the chain
    predicates relate a head pointer to the list of the indices it reaches.
    The list operations of src/src/mutex.c and src/src/scheduler_mlfq.c are
    proved against them. *)
From S2P Require Import Prelude.

(** The pointer field a list is threaded through. *)
Record Link (T : Type) : Type := {
  lget : T -> ptr;
  lset : ptr -> T -> T;
  lget_lset : forall p x, lget (lset p x) = p;
}.
Arguments lget {T} l x.
Arguments lset {T} l p x.
Arguments lget_lset {T} l p x.

Section Links.
Context {T : Type} (L : Link T).
Implicit Types (tbl : list T) (p q : ptr) (l : list nat) (i j : nat).

(** [chain tbl p l q]: following the links from [p] visits exactly the
    elements [l] and then reaches [q]. *)
Fixpoint chain tbl p l q : Prop :=
  match l with
  | [] => p = q
  | i :: l' => p = Some i /\ exists x, tbl !! i = Some x /\ chain tbl (lget L x) l' q
  end.

(** A null-terminated list. *)
Definition linked tbl p l : Prop := chain tbl p l None.

Lemma chain_app tbl p l1 l2 q :
  chain tbl p (l1 ++ l2) q <-> exists r, chain tbl p l1 r /\ chain tbl r l2 q.
Proof.
  revert p. induction l1 as [|i l1 IH]; intros p; simpl.
  - naive_solver.
  - setoid_rewrite IH. naive_solver.
Qed.

(** Writing a link outside the chain leaves the chain alone. *)
Lemma chain_frame tbl p l q j y :
  j ∉ l -> chain tbl p l q -> chain (<[j:=y]> tbl) p l q.
Proof.
  revert p. induction l as [|i l IH]; intros p Hj; simpl; [done|].
  intros (-> & x & Hx & Hc). split; [done|].
  apply not_elem_of_cons in Hj as [Hne Hj].
  exists x. split; [by rewrite list_lookup_insert_ne|]. auto.
Qed.

(** Arrays that agree on the elements of a chain have it both. *)
Lemma chain_agree tbl tbl' p l q :
  (forall j, j ∈ l -> tbl' !! j = tbl !! j) -> chain tbl p l q -> chain tbl' p l q.
Proof.
  revert p. induction l as [|i l IH]; intros p Hag; simpl; [done|].
  intros (-> & x & Hx & Hc). split; [done|]. exists x.
  split; [rewrite Hag; [done|set_solver]|]. apply IH; [|done]. intros j Hj. apply Hag. set_solver.
Qed.

(** A write that keeps the link field keeps every chain. *)
Lemma chain_field tbl p l q j x y :
  tbl !! j = Some x -> lget L y = lget L x ->
  chain tbl p l q -> chain (<[j:=y]> tbl) p l q.
Proof.
  intros Hx Hy. revert p. induction l as [|i l IH]; intros p; simpl; [done|].
  intros (-> & z & Hz & Hc). split; [done|].
  destruct (decide (i = j)) as [->|Hne].
  - exists y. simplify_eq. rewrite Hy. split; [|auto].
    apply list_lookup_insert_eq. by eapply lookup_lt_Some.
  - exists z. rewrite list_lookup_insert_ne by done. auto.
Qed.

Lemma chain_lookup tbl p l q i :
  chain tbl p l q -> i ∈ l -> exists x, tbl !! i = Some x.
Proof.
  revert p. induction l as [|j l IH]; intros p; simpl.
  - intros _ ?%not_elem_of_nil. done.
  - intros (_ & x & Hx & Hc) [->|Hi]%elem_of_cons; eauto.
Qed.

(** From one pointer there is one null-terminated list. *)
Lemma linked_det tbl p l1 l2 : linked tbl p l1 -> linked tbl p l2 -> l1 = l2.
Proof.
  unfold linked. revert p l2. induction l1 as [|i l1 IH]; intros p [|j l2]; simpl; try naive_solver.
Qed.

(** A null-terminated list visits no element twice. *)
Lemma linked_NoDup tbl p l : linked tbl p l -> NoDup l.
Proof.
  unfold linked. revert p. induction l as [|i l IH]; intros p; [constructor|].
  intros Hc. pose proof Hc as (-> & x & Hx & Hl). constructor; [|by eapply IH].
  intros (l1 & l2 & ->)%list_elem_of_split.
  apply chain_app in Hl as (r & H1 & H2).
  pose proof H2 as (-> & _).
  assert (Heq : i :: l2 = i :: l1 ++ i :: l2).
  { eapply linked_det; [|exact Hc]. exact H2. }
  apply (f_equal length) in Heq. simpl in Heq. rewrite length_app in Heq. simpl in Heq. lia.
Qed.

Lemma linked_length tbl p l : linked tbl p l -> (length l <= length tbl)%nat.
Proof.
  intros Hl. assert (length l <= length (seq 0 (length tbl)))%nat as Hle; [|by rewrite length_seq in Hle].
  apply submseteq_length, NoDup_submseteq; [by eapply linked_NoDup|].
  intros i Hi. destruct (chain_lookup _ _ _ _ _ Hl Hi) as [x Hx].
  apply elem_of_seq. apply lookup_lt_Some in Hx. lia.
Qed.

(** Linking a fresh element behind the last one appends it. *)
Lemma linked_snoc tbl p l i j x y y' :
  linked tbl p (l ++ [i]) -> tbl !! i = Some x ->
  j ∉ l ++ [i] -> tbl !! j = Some y -> lget L y = None ->
  y' = lset L (Some j) x ->
  linked (<[i:=y']> tbl) p (l ++ [i; j]).
Proof.
  unfold linked. intros Hl Hx Hj Hy Hn ->.
  pose proof (linked_NoDup _ _ _ Hl) as Hnd.
  apply NoDup_app in Hnd as (_ & Hdisj & _).
  assert (Hil : i ∉ l). { intros Hi. apply (Hdisj i Hi). set_solver. }
  assert (Hij : i <> j) by set_solver.
  apply chain_app in Hl as (r & H1 & H2). destruct H2 as (-> & x' & Hx' & Hlast).
  apply chain_app. exists (Some i). split; [by apply chain_frame|].
  simpl. split; [done|]. eexists. split.
  { apply list_lookup_insert_eq. by eapply lookup_lt_Some. }
  rewrite lget_lset. split; [done|]. exists y.
  split; [by rewrite list_lookup_insert_ne|done].
Qed.

(** The loop both files use to find the last element: follow the links from
    [i] while the next one is not null. *)
Fixpoint last_of (fuel : nat) tbl i : option nat :=
  match fuel with
  | O => None
  | Datatypes.S fuel' =>
      match tbl !! i with
      | None => None
      | Some x => match lget L x with
                  | None => Some i
                  | Some j => last_of fuel' tbl j
                  end
      end
  end.

Lemma last_of_linked tbl i l fuel :
  linked tbl (Some i) (i :: l) -> (length l < fuel)%nat ->
  last_of fuel tbl i = last (i :: l).
Proof.
  unfold linked. revert i l. induction fuel as [|fuel IH]; intros i l Hc Hf; [lia|].
  destruct Hc as (_ & x & Hx & Hc). simpl. rewrite Hx.
  destruct l as [|j l].
  - simpl in Hc. by rewrite Hc.
  - pose proof Hc as (Hp & _). rewrite Hp in Hc |- *.
    rewrite (IH j l); [done|exact Hc|simpl in Hf; lia].
Qed.
End Links.
