(* ===== verification/Task.v ===== *)
(** * Task

    The task table of src/include/task.h and src/src/task.c: task control
    blocks, creation, deletion, suspension, sleeping, and the switch to the
    task the scheduler picked. *)
From S2P Require Import Prelude Links.

(** ** Data *)

(** [task_state_t]; the enumerators have the codes 0 to 4. *)
Inductive task_state_t : Type :=
| TASK_READY | TASK_RUNNING | TASK_BLOCKED | TASK_SUSPENDED | TASK_TERMINATED.
#[export] Instance task_state_eq_dec : EqDecision task_state_t.
Proof. solve_decision. Defined.

Definition task_state_code (s : task_state_t) : Z :=
  match s with
  | TASK_READY => 0 | TASK_RUNNING => 1 | TASK_BLOCKED => 2
  | TASK_SUSPENDED => 3 | TASK_TERMINATED => 4
  end.

Definition TASK_PRIORITY_IDLE : Z := 0.
Definition TASK_PRIORITY_LOW : Z := 1.
Definition TASK_PRIORITY_NORMAL : Z := 2.
Definition TASK_PRIORITY_HIGH : Z := 3.
Definition TASK_PRIORITY_REALTIME : Z := 4.
Definition MAX_TASKS : nat := 32.
Definition IDLE_TASK_STACK_SIZE : Z := 1024.
Definition DEFAULT_STACK_SIZE : Z := 4096.

(** [task_context_t]: r0-r12 as a list, then lr, pc and cpsr.  [sp] is the
    field src/src/task.c writes although the structure does not declare it. *)
Record task_context_t : Type := Context {
  regs : list Z; lr : Z; pc : Z; cpsr : Z; sp : Z
}.

(** [task_t].  [next_wait], [wake_time] and [scheduler_data] are used by the
    synchronisation and scheduling files and missing from the declaration.  A
    [task_t *] is an index into the table; [scheduler_data] points into the
    heap of scheduler structures. *)
Record task_t : Type := Task {
  context : task_context_t;
  stack : Z;
  stack_size : Z;
  priority : Z;
  state : task_state_t;
  time_slice : Z;
  ticks_remaining : Z;
  total_ticks : Z;
  name : list Z;
  next : ptr;
  next_wait : ptr;
  wake_time : Z;
  scheduler_data : ptr
}.

Definition set_priority (v : Z) (x : task_t) : task_t := {|
  context := context x; stack := stack x; stack_size := stack_size x;
  priority := v; state := state x; time_slice := time_slice x;
  ticks_remaining := ticks_remaining x; total_ticks := total_ticks x; name := name x;
  next := next x; next_wait := next_wait x; wake_time := wake_time x;
  scheduler_data := scheduler_data x |}.
Definition set_state (v : task_state_t) (x : task_t) : task_t := {|
  context := context x; stack := stack x; stack_size := stack_size x;
  priority := priority x; state := v; time_slice := time_slice x;
  ticks_remaining := ticks_remaining x; total_ticks := total_ticks x; name := name x;
  next := next x; next_wait := next_wait x; wake_time := wake_time x;
  scheduler_data := scheduler_data x |}.
Definition set_ticks_remaining (v : Z) (x : task_t) : task_t := {|
  context := context x; stack := stack x; stack_size := stack_size x;
  priority := priority x; state := state x; time_slice := time_slice x;
  ticks_remaining := v; total_ticks := total_ticks x; name := name x;
  next := next x; next_wait := next_wait x; wake_time := wake_time x;
  scheduler_data := scheduler_data x |}.
Definition set_next (v : ptr) (x : task_t) : task_t := {|
  context := context x; stack := stack x; stack_size := stack_size x;
  priority := priority x; state := state x; time_slice := time_slice x;
  ticks_remaining := ticks_remaining x; total_ticks := total_ticks x; name := name x;
  next := v; next_wait := next_wait x; wake_time := wake_time x;
  scheduler_data := scheduler_data x |}.
Definition set_next_wait (v : ptr) (x : task_t) : task_t := {|
  context := context x; stack := stack x; stack_size := stack_size x;
  priority := priority x; state := state x; time_slice := time_slice x;
  ticks_remaining := ticks_remaining x; total_ticks := total_ticks x; name := name x;
  next := next x; next_wait := v; wake_time := wake_time x;
  scheduler_data := scheduler_data x |}.
Definition set_wake_time (v : Z) (x : task_t) : task_t := {|
  context := context x; stack := stack x; stack_size := stack_size x;
  priority := priority x; state := state x; time_slice := time_slice x;
  ticks_remaining := ticks_remaining x; total_ticks := total_ticks x; name := name x;
  next := next x; next_wait := next_wait x; wake_time := v;
  scheduler_data := scheduler_data x |}.
Definition set_scheduler_data (v : ptr) (x : task_t) : task_t := {|
  context := context x; stack := stack x; stack_size := stack_size x;
  priority := priority x; state := state x; time_slice := time_slice x;
  ticks_remaining := ticks_remaining x; total_ticks := total_ticks x; name := name x;
  next := next x; next_wait := next_wait x; wake_time := wake_time x;
  scheduler_data := v |}.

(** A control block after [memset(task, 0, sizeof(task_t))]: the zero code of
    [state] is [TASK_READY]. *)
Definition zero_task : task_t := {|
  context := {| regs := replicate 13 0; lr := 0; pc := 0; cpsr := 0; sp := 0 |};
  stack := 0; stack_size := 0; priority := 0; state := TASK_READY;
  time_slice := 0; ticks_remaining := 0; total_ticks := 0; name := replicate 32 0;
  next := None; next_wait := None; wake_time := 0; scheduler_data := None |}.

(** The two lists threaded through the table. *)
Definition link_next : Link task_t :=
  {| lget := next; lset := set_next; lget_lset _ _ := eq_refl |}.
Definition link_wait : Link task_t :=
  {| lget := next_wait; lset := set_next_wait; lget_lset _ _ := eq_refl |}.

(** The file's static variables; [freed] lists the addresses given to [free],
    the latest first. *)
Record tasks : Type := Tasks {
  task_list : list task_t;
  current_task : ptr;
  idle_task : ptr;
  task_count : Z;
  freed : list Z
}.

Definition set_task_list (v : list task_t) (x : tasks) : tasks := {|
  task_list := v; current_task := current_task x; idle_task := idle_task x;
  task_count := task_count x; freed := freed x |}.
Definition set_current_task (v : ptr) (x : tasks) : tasks := {|
  task_list := task_list x; current_task := v; idle_task := idle_task x;
  task_count := task_count x; freed := freed x |}.
Definition set_idle_task (v : ptr) (x : tasks) : tasks := {|
  task_list := task_list x; current_task := current_task x; idle_task := v;
  task_count := task_count x; freed := freed x |}.
Definition set_task_count (v : Z) (x : tasks) : tasks := {|
  task_list := task_list x; current_task := current_task x; idle_task := idle_task x;
  task_count := v; freed := freed x |}.

(** ** Operations *)

(** [task_list[i]] written through a pointer. *)
Definition get_task (i : nat) : Cmd tasks task_t :=
  fun s => match task_list s !! i with Some t => Ret t s | None => Stop Fault end.
Definition put_task (i : nat) (t : task_t) : Cmd tasks unit :=
  modify (fun s => set_task_list (<[i:=t]> (task_list s)) s).

(** The first slot with [state == TASK_TERMINATED], from slot [i] on. *)
Fixpoint find_terminated (l : list task_t) (i : nat) : ptr :=
  match l with
  | [] => None
  | t :: l' => if decide (state t = TASK_TERMINATED) then Some i
               else find_terminated l' (S i)
  end.

(** [strncpy(task->name, name, 31); task->name[31] = 0] on a name without its
    terminator. *)
Definition copy_name (nm : list Z) : list Z :=
  take 31 (nm ++ replicate 31 0) ++ [0].

(** The control block [task_create] fills in; [task_exit_addr] is the address
    of [task_exit].  [stack + stack_size/4 - 1] counts 32-bit words. *)
Definition new_task (task_exit_addr stk : Z) (nm : list Z) (entry prio size : Z) : task_t := {|
  context := {| regs := replicate 13 0; lr := u32 task_exit_addr; pc := u32 entry;
                cpsr := 19; sp := u32 (stk + 4 * (size / 4 - 1)) |};
  stack := stk; stack_size := size; priority := prio; state := TASK_READY;
  time_slice := 100; ticks_remaining := 100; total_ticks := 0; name := copy_name nm;
  next := None; next_wait := None; wake_time := 0; scheduler_data := None |}.

(** [task_create]; [stk] is the address [malloc(stack_size)] returns, 0 for
    NULL. *)
Definition task_create (task_exit_addr stk : Z) (nm : list Z) (entry prio size : Z) : Cmd tasks ptr :=
  let* s := get in
  if Z.of_nat MAX_TASKS <=? task_count s then ret None else
  match find_terminated (take MAX_TASKS (task_list s)) 0 with
  | None => ret None
  | Some i =>
      if stk =? 0 then ret None else
      put_task i (new_task task_exit_addr stk nm entry prio size) ;;;
      modify (fun s => set_task_count (u32 (task_count s + 1)) s) ;;;
      ret (Some i)
  end.

(** [task_init].  When the idle task cannot be created the function enters
    [while(1)]. *)
Definition task_init (task_exit_addr idle_entry stk : Z) : Cmd tasks unit :=
  modify (fun s => set_task_list (replicate MAX_TASKS zero_task) s) ;;;
  modify (set_task_count 0) ;;;
  modify (set_current_task None) ;;;
  let* idle := task_create task_exit_addr stk [105; 100; 108; 101]
                 idle_entry TASK_PRIORITY_IDLE IDLE_TASK_STACK_SIZE in
  modify (set_idle_task idle) ;;;
  match idle with
  | None => fail Hang
  | Some _ => ret tt
  end.

(** [task_yield] calls [scheduler_yield], which is declared and not defined in
    the sources: the processor is given away. *)
Definition task_yield : Cmd tasks unit := yield_cpu.

Definition free_stack (a : Z) : Cmd tasks unit :=
  modify (fun s => {| task_list := task_list s; current_task := current_task s;
                      idle_task := idle_task s; task_count := task_count s;
                      freed := a :: freed s |}).

Definition task_delete (task : ptr) : Cmd tasks unit :=
  let* s := get in
  match task with
  | None => ret tt
  | Some i =>
      if decide (task = idle_task s) then ret tt else
      let* t := get_task i in
      put_task i (set_state TASK_TERMINATED t) ;;;
      free_stack (stack t) ;;;
      modify (fun s => set_task_count (u32 (task_count s - 1)) s) ;;;
      if decide (task = current_task s) then task_yield else ret tt
  end.

Definition task_suspend (task : ptr) : Cmd tasks unit :=
  let* s := get in
  match task with
  | None => ret tt
  | Some i =>
      if decide (task = idle_task s) then ret tt else
      let* t := get_task i in
      put_task i (set_state TASK_SUSPENDED t) ;;;
      if decide (task = current_task s) then task_yield else ret tt
  end.

Definition task_resume (task : ptr) : Cmd tasks unit :=
  match task with
  | None => ret tt
  | Some i =>
      let* t := get_task i in
      if decide (state t = TASK_SUSPENDED)
      then put_task i (set_state TASK_READY t) else ret tt
  end.

Definition task_sleep (ms : Z) : Cmd tasks unit :=
  let* s := get in
  match current_task s with
  | None => ret tt
  | Some i =>
      let* t := get_task i in
      put_task i (set_ticks_remaining ms (set_state TASK_BLOCKED t)) ;;;
      task_yield
  end.

Definition task_set_priority (task : ptr) (prio : Z) : Cmd tasks unit :=
  let* s := get in
  match task with
  | None => ret tt
  | Some i => if decide (task = idle_task s) then ret tt else
              let* t := get_task i in put_task i (set_priority prio t)
  end.

Definition task_get_current : Cmd tasks ptr := gets current_task.

(** [task_exit]: the current task deletes itself. *)
Definition task_exit : Cmd tasks unit :=
  let* c := task_get_current in task_delete c.

(** [task_schedule], given what [scheduler_next_task] returned.  Switching the
    registers ([context_switch]) is a point where another task runs; switching
    to a null task dereferences it. *)
Definition task_schedule (nxt : ptr) : Cmd tasks unit :=
  let* s := get in
  if decide (nxt = current_task s) then ret tt else
  modify (set_current_task nxt) ;;;
  match nxt with
  | None => fail Fault
  | Some _ => yield_cpu
  end.

(** ** Facts *)

Lemma find_terminated_None l k :
  find_terminated l k = None <-> Forall (fun t => state t <> TASK_TERMINATED) l.
Proof.
  revert k. induction l as [|t l IH]; intros k; simpl; [by split|].
  rewrite Forall_cons. case_decide; naive_solver.
Qed.

Lemma find_terminated_Some l k i :
  find_terminated l k = Some i <->
  exists j t, i = (k + j)%nat /\ l !! j = Some t /\ state t = TASK_TERMINATED /\
              Forall (fun t' => state t' <> TASK_TERMINATED) (take j l).
Proof.
  revert k. induction l as [|t l IH]; intros k; simpl.
  { split; [done|]. intros (j & t & _ & H & _). by rewrite lookup_nil in H. }
  case_decide as Ht.
  - split.
    + intros [= <-]. exists 0%nat, t. rewrite Nat.add_0_r. repeat split; auto.
    + intros ([|j] & t' & -> & Hj & Hs & HF); [by rewrite Nat.add_0_r|].
      simpl in HF. apply Forall_cons in HF as [HF _]. done.
  - rewrite IH. split.
    + intros (j & t' & -> & Hj & Hs & HF). exists (S j), t'. simpl.
      repeat split; auto with lia.
    + intros ([|j] & t' & -> & Hj & Hs & HF); simpl in *; [naive_solver|].
      apply Forall_cons in HF as [_ HF]. exists j, t'. repeat split; auto with lia.
Qed.

(** Number of slots a new task can take. *)
Definition is_terminated (t : task_t) : bool := bool_decide (state t = TASK_TERMINATED).
Definition free_slots (s : tasks) : nat :=
  length (filter (fun t => is_terminated t = true) (task_list s)).

Lemma filter_insert_length (P : task_t -> bool) l i t t' :
  l !! i = Some t ->
  (length (filter (fun x => P x = true) (<[i:=t']> l)) + (if P t then 1 else 0)
   = length (filter (fun x => P x = true) l) + (if P t' then 1 else 0))%nat.
Proof.
  revert i. induction l as [|x l IH]; intros [|i] H; simplify_eq/=.
  - rewrite !filter_cons. destruct (P t), (P t'); simpl; lia.
  - rewrite !filter_cons. specialize (IH i H). case_decide; simpl; lia.
Qed.

Lemma take_full {A} (l : list A) n : length l = n -> take n l = l.
Proof. intros <-. by rewrite firstn_all. Qed.

Lemma free_slots_insert s i t t' :
  task_list s !! i = Some t ->
  (free_slots (set_task_list (<[i:=t']> (task_list s)) s) + (if is_terminated t then 1 else 0)
   = free_slots s + (if is_terminated t' then 1 else 0))%nat.
Proof. intros. by apply filter_insert_length. Qed.

Lemma is_terminated_true t : is_terminated t = true <-> state t = TASK_TERMINATED.
Proof. apply bool_decide_eq_true. Qed.
Lemma is_terminated_false t : is_terminated t = false <-> state t <> TASK_TERMINATED.
Proof. apply bool_decide_eq_false. Qed.

Lemma no_free_slots s :
  Forall (fun t => state t <> TASK_TERMINATED) (task_list s) <-> free_slots s = 0%nat.
Proof.
  unfold free_slots. induction (task_list s) as [|t l IH].
  - rewrite filter_nil. by split.
  - rewrite Forall_cons, filter_cons. case_decide as Ht; rewrite is_terminated_true in Ht.
    + simpl. split; [naive_solver|lia].
    + naive_solver.
Qed.

(** What [task_create] does when it succeeds. *)
Lemma task_create_Some te stk nm entry prio size s i :
  length (task_list s) = MAX_TASKS -> task_count s < 32 -> stk <> 0 ->
  find_terminated (task_list s) 0 = Some i ->
  task_create te stk nm entry prio size s =
  Ret (Some i) (set_task_count (u32 (task_count s + 1))
                 (set_task_list (<[i:=new_task te stk nm entry prio size]> (task_list s)) s)).
Proof.
  intros Hlen Hc Hs Hf. unfold task_create. cstep.
  rewrite (proj2 (Z.leb_gt _ _)) by (unfold MAX_TASKS; lia).
  rewrite take_full, Hf by done.
  rewrite (proj2 (Z.eqb_neq _ _)) by done. done.
Qed.

(** The states a program can be in when it first gives the processor away or
    returns. *)
Definition reaches {A} (p : prog tasks A) (s' : tasks) : Prop :=
  match p with
  | Ret _ s => s' = s
  | Yield s _ => s' = s
  | Stop _ => False
  end.

(** A task a caller may name: a slot in use. *)
Definition live_task (s : tasks) (i : nat) : Prop :=
  exists t, task_list s !! i = Some t /\ state t <> TASK_TERMINATED.

(** The calls the rest of the kernel makes on live tasks. *)
Inductive task_step (s s' : tasks) : Prop :=
| step_create te stk nm entry prio size :
    reaches (task_create te stk nm entry prio size s) s' -> task_step s s'
| step_delete i : live_task s i -> reaches (task_delete (Some i) s) s' -> task_step s s'
| step_suspend i : live_task s i -> reaches (task_suspend (Some i) s) s' -> task_step s s'
| step_resume i : live_task s i -> reaches (task_resume (Some i) s) s' -> task_step s s'
| step_priority i p : live_task s i -> reaches (task_set_priority (Some i) p s) s' -> task_step s s'
| step_sleep i ms : current_task s = Some i -> live_task s i ->
    reaches (task_sleep ms s) s' -> task_step s s'
| step_schedule i : live_task s i -> reaches (task_schedule (Some i) s) s' -> task_step s s'.

(** Well-formed table: 32 slots, and [task_count] counts those in use. *)
Definition tasks_ok (s : tasks) : Prop :=
  length (task_list s) = MAX_TASKS /\
  task_count s = Z.of_nat MAX_TASKS - Z.of_nat (free_slots s).

Lemma free_slots_le s : (free_slots s <= length (task_list s))%nat.
Proof. apply length_filter. Qed.

Lemma tasks_ok_same s s' i t t' :
  tasks_ok s -> task_list s !! i = Some t -> is_terminated t' = is_terminated t ->
  task_list s' = <[i:=t']> (task_list s) -> task_count s' = task_count s -> tasks_ok s'.
Proof.
  intros [Hl Hc] Ht Hs Hls Hct. split; [by rewrite Hls, length_insert|].
  pose proof (filter_insert_length is_terminated _ i t t' Ht) as Hf.
  unfold tasks_ok, free_slots in *. rewrite Hls, Hct, Hc. rewrite Hs in Hf. lia.
Qed.

Lemma tasks_ok_create te stk nm entry prio size s s' :
  tasks_ok s -> reaches (task_create te stk nm entry prio size s) s' -> tasks_ok s'.
Proof.
  intros Hok. pose proof Hok as [Hl Hc]. unfold task_create. cstep.
  destruct (Z.of_nat MAX_TASKS <=? task_count s) eqn:Hfull; [by intros ->|].
  rewrite take_full by done.
  destruct (find_terminated _ _) as [i|] eqn:Hf; [|by intros ->].
  destruct (stk =? 0); simpl; intros ->; [done|].
  apply find_terminated_Some in Hf as (j & t & -> & Ht & Hst & _). simpl in *.
  pose proof (free_slots_insert s j t (new_task te stk nm entry prio size) Ht) as Hfs.
  rewrite (proj2 (is_terminated_true t) Hst) in Hfs. simpl in Hfs.
  apply Z.leb_gt in Hfull. pose proof (free_slots_le s).
  split; simpl; [by rewrite length_insert|]. unfold MAX_TASKS in *.
  rewrite u32_small by lia. unfold free_slots in *. simpl in *. lia.
Qed.

Lemma tasks_ok_delete i s s' :
  tasks_ok s -> live_task s i -> reaches (task_delete (Some i) s) s' -> tasks_ok s'.
Proof.
  intros Hok (t & Ht & Hst). pose proof Hok as [Hl Hc]. unfold task_delete, get_task. cstep.
  case_decide; [by intros ->|]. rewrite Ht. cbn [pbind].
  intros Hr.
  assert (s' = {| task_list := <[i:=set_state TASK_TERMINATED t]> (task_list s);
                  current_task := current_task s; idle_task := idle_task s;
                  task_count := u32 (task_count s - 1); freed := stack t :: freed s |}) as ->.
  { unfold put_task, free_stack, task_yield, modify, yield_cpu, ret in Hr.
    simpl in Hr. case_decide; done. }
  pose proof (free_slots_insert s i t (set_state TASK_TERMINATED t) Ht) as Hfs.
  rewrite (proj2 (is_terminated_false t) Hst) in Hfs. simpl in Hfs.
  pose proof (free_slots_le (set_task_list (<[i:=set_state TASK_TERMINATED t]> (task_list s)) s)) as Hle.
  simpl in Hle. rewrite length_insert in Hle.
  split; simpl; [by rewrite length_insert|]. unfold MAX_TASKS in *.
  rewrite u32_small by lia. unfold free_slots in *. simpl in *. lia.
Qed.

Lemma tasks_ok_step s s' : tasks_ok s -> task_step s s' -> tasks_ok s'.
Proof.
  intros Hok Hstep. pose proof Hok as [Hl Hc].
  destruct Hstep as [|i Hlv Hr|i (t & Ht & Hst) Hr|i (t & Ht & Hst) Hr|i p (t & Ht & Hst) Hr
                    |i ms Hcur (t & Ht & Hst) Hr|i Hlv Hr].
  - by eapply tasks_ok_create.
  - by eapply tasks_ok_delete.
  - revert Hr. unfold task_suspend, get_task. cstep. case_decide; [by intros ->|].
    rewrite Ht. cstep. intros Hr.
    eapply (tasks_ok_same s s' i t (set_state TASK_SUSPENDED t)); auto;
      [by rewrite (proj2 (is_terminated_false t))|..];
      revert Hr; case_decide; simpl; by intros ->.
  - revert Hr. unfold task_resume, get_task. cstep. rewrite Ht. cstep.
    case_decide as Hsus; [|by intros ->]. intros Hr.
    simpl in Hr. subst s'.
    eapply (tasks_ok_same s _ i t (set_state TASK_READY t)); auto.
    by rewrite (proj2 (is_terminated_false t)).
  - revert Hr. unfold task_set_priority, get_task. cstep. case_decide; [by intros ->|].
    rewrite Ht. cstep. intros Hr.
    simpl in Hr. subst s'.
    by eapply (tasks_ok_same s _ i t (set_priority p t)).
  - revert Hr. unfold task_sleep, get_task. cstep. rewrite Hcur, Ht. cstep. intros Hr.
    simpl in Hr. subst s'.
    eapply (tasks_ok_same s _ i t); [done|done| |done|done].
    by rewrite (proj2 (is_terminated_false t)).
  - revert Hr. unfold task_schedule. cstep. case_decide; [by intros ->|].
    by intros ->.
Qed.

(** Deleting a task that is neither idle nor current. *)
Lemma task_delete_other i t s :
  task_list s !! i = Some t -> idle_task s <> Some i -> current_task s <> Some i ->
  task_delete (Some i) s =
  Ret tt {| task_list := <[i:=set_state TASK_TERMINATED t]> (task_list s);
            current_task := current_task s; idle_task := idle_task s;
            task_count := u32 (task_count s - 1); freed := stack t :: freed s |}.
Proof.
  intros Ht Hi Hc. unfold task_delete, get_task. cstep. rewrite decide_False, Ht by done.
  cbn. by rewrite decide_False.
Qed.

Lemma task_init_stops (te idle_entry stk : Z) (s : tasks) : task_init te idle_entry stk s = Stop Hang.
Proof. destruct s. reflexivity. Qed.

(** ** Properties *)

(** [task_init] never returns: it clears the table with [memset], which
    leaves every slot in state READY (code 0), and [task_create] only takes
    slots in state TERMINATED (code 4).  The idle task cannot be created,
    whatever [malloc] returns, and the function stays in [while(1)]. *)
Theorem task_init_hangs (te idle_entry stk : Z) (s : tasks) :
  task_init te idle_entry stk s = Stop Hang.
Proof. apply task_init_stops. Qed.

(** [task_create] on a 32-slot table is total and decides exactly by its
    three conditions.  It returns NULL, with nothing changed, when 32 tasks
    exist, when no slot is TERMINATED or when [malloc] failed.  Otherwise it
    takes the first TERMINATED slot, fills in that slot alone, counts the task
    and returns the slot; the new task is READY with a full time slice and its
    name is at most 31 characters and terminated. *)
Theorem task_create_spec (te stk : Z) (nm : list Z) (entry prio size : Z) (s : tasks)
    (Hlen : length (task_list s) = MAX_TASKS) (Hcount : 0 <= task_count s) :
  exists r s', task_create te stk nm entry prio size s = Ret r s' /\
  match r with
  | None => s' = s /\ (32 <= task_count s \/ free_slots s = 0%nat \/ stk = 0)
  | Some i =>
      task_count s < 32 /\ stk <> 0 /\
      (exists t, task_list s !! i = Some t /\ state t = TASK_TERMINATED) /\
      (forall j t, (j < i)%nat -> task_list s !! j = Some t -> state t <> TASK_TERMINATED) /\
      (exists t, task_list s' !! i = Some t /\ state t = TASK_READY /\ stack t = stk /\
                 priority t = prio /\ ticks_remaining t = time_slice t /\
                 length (name t) = 32%nat /\ last (name t) = Some 0) /\
      (forall j, j <> i -> task_list s' !! j = task_list s !! j) /\
      task_count s' = task_count s + 1 /\ current_task s' = current_task s
  end.
Proof.
  destruct (decide (32 <= task_count s)) as [Hfull|Hroom].
  { exists None, s. split; [|by auto]. unfold task_create. cstep.
    by rewrite (proj2 (Z.leb_le _ _)) by (unfold MAX_TASKS; lia). }
  destruct (find_terminated (task_list s) 0) as [i|] eqn:Hf.
  2: { exists None, s. split.
       - unfold task_create. cstep. by rewrite (proj2 (Z.leb_gt _ _)), take_full, Hf by first [done | unfold MAX_TASKS; lia].
       - split; [done|]. right; left. by apply find_terminated_None, no_free_slots in Hf. }
  destruct (decide (stk = 0)) as [->|Hstk].
  { exists None, s. split; [|by auto]. unfold task_create. cstep.
    by rewrite (proj2 (Z.leb_gt _ _)), take_full, Hf by first [done | unfold MAX_TASKS; lia]. }
  eexists (Some i), _. split; [by apply task_create_Some; auto with lia|].
  apply find_terminated_Some in Hf as (j & t & -> & Ht & Hst & HF). simpl.
  pose proof (lookup_lt_Some _ _ _ Ht) as Hlt.
  split; [lia|]. split; [done|]. split; [by eauto|]. split.
  { intros k t' Hk Ht'. rewrite Forall_lookup in HF. apply (HF k). by rewrite lookup_take_lt. }
  split.
  { eexists. split; [by apply list_lookup_insert_eq|]. simpl. repeat split; auto.
    - unfold copy_name. rewrite length_app, length_take, length_app, length_replicate. cbn [length]. lia.
    - unfold copy_name. by rewrite last_snoc. }
  split; [intros k Hk; by apply list_lookup_insert_ne|].
  split; [|done]. apply u32_small. lia.
Qed.

(** C5. The task count is exact: whatever sequence of creations, deletions,
    suspensions, resumptions, priority changes, sleeps and switches the kernel
    performs on live tasks, a well-formed table stays well-formed, [task_count]
    being the number of slots that are not TERMINATED.  In particular the two
    guards of [task_create] never disagree. *)
Theorem task_table_invariant (s s' : tasks)
    (Hok : tasks_ok s) (Hsteps : rtc task_step s s') :
  tasks_ok s' /\ (32 <= task_count s' <-> find_terminated (task_list s') 0 = None).
Proof.
  assert (Hok' : tasks_ok s') by (induction Hsteps; eauto using tasks_ok_step).
  split; [done|]. pose proof Hok' as [Hl Hc]. rewrite find_terminated_None.
  rewrite no_free_slots. unfold MAX_TASKS in *. lia.
Qed.

(** A table in which every slot can be taken. *)
Definition empty_tasks : tasks := {|
  task_list := replicate MAX_TASKS (set_state TASK_TERMINATED zero_task);
  current_task := None; idle_task := None; task_count := 0; freed := [] |}.

Example task_create_first :
  task_create 1024 4096 [97; 98] 512 TASK_PRIORITY_NORMAL 256 empty_tasks =
  Ret (Some 0%nat) (set_task_count 1
    (set_task_list (<[0%nat:=new_task 1024 4096 [97; 98] 512 TASK_PRIORITY_NORMAL 256]>
       (task_list empty_tasks)) empty_tasks)).
Proof. vm_compute. reflexivity. Qed.

Lemma task_create_spec_witness :
  length (task_list empty_tasks) = MAX_TASKS /\
  exists r s', task_create 1024 4096 [97; 98] 512 2 256 empty_tasks = Ret r s'.
Proof.
  split; [reflexivity|].
  destruct (task_create_spec 1024 4096 [97; 98] 512 2 256 empty_tasks eq_refl ltac:(done))
    as (r & s' & H & _). exists r, s'. exact H.
Defined.

Lemma task_table_invariant_witness :
  exists s', task_step empty_tasks s' /\ tasks_ok s' /\ task_count s' = 1.
Proof.
  eexists. split; [|split].
  - apply (step_create _ _ 1024 4096 [97; 98] 512 2 256). vm_compute. reflexivity.
  - eapply (task_table_invariant empty_tasks).
    + split; reflexivity.
    + eapply rtc_once, (step_create _ _ 1024 4096 [97; 98] 512 2 256). vm_compute. reflexivity.
  - reflexivity.
Defined.

(** [task_delete] does not look at the state of the task it is given:
    deleting the same task twice frees its stack twice and takes two off
    [task_count], which is then no longer the number of tasks (from one task it
    wraps to 2^32 - 1, after which [task_create] always refuses). *)
Theorem task_delete_twice (i : nat) (t : task_t) (s : tasks)
    (Ht : task_list s !! i = Some t)
    (Hidle : idle_task s <> Some i) (Hcur : current_task s <> Some i)
    (Hcount : task_count s = 1) :
  exists s', (task_delete (Some i) ;;; task_delete (Some i)) s = Ret tt s' /\
             freed s' = stack t :: stack t :: freed s /\
             task_count s' = 4294967295 /\
             forall te stk nm entry prio size,
               task_create te stk nm entry prio size s' = Ret None s'.
Proof.
  eexists. split; [|split; [|split]].
  - erewrite bind_Ret by (by apply task_delete_other).
    apply (task_delete_other _ (set_state TASK_TERMINATED t)); [|done..].
    apply list_lookup_insert_eq. by eapply lookup_lt_Some.
  - reflexivity.
  - simpl. by rewrite Hcount.
  - intros. unfold task_create. cstep. simpl. by rewrite Hcount.
Qed.

Definition one_task : tasks := {|
  task_list := set_state TASK_READY zero_task :: replicate 31 (set_state TASK_TERMINATED zero_task);
  current_task := None; idle_task := None; task_count := 1; freed := [] |}.

Lemma task_delete_twice_witness :
  exists s', (task_delete (Some 0%nat) ;;; task_delete (Some 0%nat)) one_task = Ret tt s' /\
             task_count s' = 4294967295.
Proof.
  destruct (task_delete_twice 0 (set_state TASK_READY zero_task) one_task
              eq_refl ltac:(done) ltac:(done) eq_refl) as (s' & H & _ & Hc & _).
  exists s'. split; [exact H|exact Hc].
Defined.
