(* ===== verification/WaitQueue.v ===== *)
(** * WaitQueue

    What the synchronisation primitives share: the kernel state they act on,
    the interrupt mask, the contention counters of src/include/sync.h and the
    wait queues of src/src/mutex.c ([add_to_wait_queue],
    [remove_from_wait_queue]), threaded through [next_wait]. *)
From S2P Require Import Prelude Links Task.

(** [sync_stats_t]. *)
Record sync_stats_t : Type := SyncStats {
  mutex_contentions : Z;
  sem_contentions : Z;
  cond_contentions : Z;
  rwlock_contentions : Z;
  spin_contentions : Z
}.

Definition set_mutex_contentions (v : Z) (x : sync_stats_t) : sync_stats_t := {|
  mutex_contentions := v; sem_contentions := sem_contentions x; cond_contentions := cond_contentions x;
  rwlock_contentions := rwlock_contentions x; spin_contentions := spin_contentions x |}.
Definition set_sem_contentions (v : Z) (x : sync_stats_t) : sync_stats_t := {|
  mutex_contentions := mutex_contentions x; sem_contentions := v; cond_contentions := cond_contentions x;
  rwlock_contentions := rwlock_contentions x; spin_contentions := spin_contentions x |}.
Definition set_cond_contentions (v : Z) (x : sync_stats_t) : sync_stats_t := {|
  mutex_contentions := mutex_contentions x; sem_contentions := sem_contentions x; cond_contentions := v;
  rwlock_contentions := rwlock_contentions x; spin_contentions := spin_contentions x |}.
Definition set_rwlock_contentions (v : Z) (x : sync_stats_t) : sync_stats_t := {|
  mutex_contentions := mutex_contentions x; sem_contentions := sem_contentions x; cond_contentions := cond_contentions x;
  rwlock_contentions := v; spin_contentions := spin_contentions x |}.
Definition set_spin_contentions (v : Z) (x : sync_stats_t) : sync_stats_t := {|
  mutex_contentions := mutex_contentions x; sem_contentions := sem_contentions x; cond_contentions := cond_contentions x;
  rwlock_contentions := rwlock_contentions x; spin_contentions := v |}.

(** The kernel as a synchronisation primitive sees it.  [irq_on] is what the
    calls [interrupt_disable()] and [interrupt_enable()] without an argument
    are there for; the functions of that name in src/src/interrupt.c take the
    number of one interrupt. *)
Record kern : Type := Kern {
  k_tasks : tasks;
  irq_on : bool;
  sync_stats : sync_stats_t
}.

Definition set_k_tasks (v : tasks) (x : kern) : kern := {|
  k_tasks := v; irq_on := irq_on x; sync_stats := sync_stats x |}.
Definition set_irq_on (v : bool) (x : kern) : kern := {|
  k_tasks := k_tasks x; irq_on := v; sync_stats := sync_stats x |}.
Definition set_sync_stats (v : sync_stats_t) (x : kern) : kern := {|
  k_tasks := k_tasks x; irq_on := irq_on x; sync_stats := v |}.

Definition tbl (k : kern) : list task_t := task_list (k_tasks k).
Definition set_tbl (l : list task_t) (k : kern) : kern :=
  set_k_tasks (set_task_list l (k_tasks k)) k.
Definition current (k : kern) : ptr := current_task (k_tasks k).

Definition interrupt_disable : Cmd kern unit := modify (set_irq_on false).
Definition interrupt_enable : Cmd kern unit := modify (set_irq_on true).
Definition get_current : Cmd kern ptr := gets current.
Definition read_task (i : nat) : Cmd kern task_t :=
  fun k => match tbl k !! i with Some t => Ret t k | None => Stop Fault end.
Definition write_task (i : nat) (t : task_t) : Cmd kern unit :=
  modify (fun k => set_tbl (<[i:=t]> (tbl k)) k).
(** [p->field = v] on a task pointer. *)
Definition update_task (p : ptr) (f : task_t -> task_t) : Cmd kern unit :=
  let* i := deref p in let* t := read_task i in write_task i (f t).
Definition count_stat (f : sync_stats_t -> sync_stats_t) : Cmd kern unit :=
  modify (fun k => set_sync_stats (f (sync_stats k)) k).
Definition bump_mutex (s : sync_stats_t) := set_mutex_contentions (u32 (mutex_contentions s + 1)) s.
Definition bump_sem (s : sync_stats_t) := set_sem_contentions (u32 (sem_contentions s + 1)) s.
Definition bump_cond (s : sync_stats_t) := set_cond_contentions (u32 (cond_contentions s + 1)) s.
Definition bump_rwlock (s : sync_stats_t) := set_rwlock_contentions (u32 (rwlock_contentions s + 1)) s.

(** [task_resume] of src/src/task.c, run on the kernel's task table. *)
Definition tasks_lens : lens kern tasks.
Proof. refine (Lens k_tasks set_k_tasks _ _ _); [done|by intros []|done]. Defined.
Definition k_task_resume (p : ptr) : Cmd kern unit := zoom tasks_lens (task_resume p).

(** [add_to_wait_queue(&queue, task)]: returns the new value of [queue].  The
    walk to the last element is bounded by the size of the table, which a
    terminated queue cannot exceed. *)
Definition add_to_wait_queue (queue : ptr) (task : ptr) : Cmd kern ptr :=
  update_task task (set_next_wait None) ;;;
  match queue with
  | None => ret task
  | Some h =>
      let* k := get in
      match last_of link_wait (length (tbl k)) (tbl k) h with
      | None => fail NoFuel
      | Some c => update_task (Some c) (set_next_wait task) ;;; ret queue
      end
  end.

(** [remove_from_wait_queue(&queue)]: the task removed and the new value of
    [queue]. *)
Definition remove_from_wait_queue (queue : ptr) : Cmd kern (ptr * ptr) :=
  match queue with
  | None => ret (None, None)
  | Some i =>
      let* t := read_task i in
      write_task i (set_next_wait None t) ;;;
      ret (Some i, next_wait t)
  end.

(** ** Specifications *)

(** Everything but the [next_wait] links is the same. *)
Definition same_but_wait (l l' : list task_t) : Prop :=
  forall j, set_next_wait None <$> l !! j = set_next_wait None <$> l' !! j.

#[export] Instance same_but_wait_equiv : Equivalence same_but_wait.
Proof. split; [by intros l j|by intros l l' H j|intros l1 l2 l3 H1 H2 j; by rewrite H1]. Qed.

Lemma set_next_wait_twice p q t : set_next_wait p (set_next_wait q t) = set_next_wait p t.
Proof. by destruct t. Qed.

Lemma same_but_wait_insert l i t p :
  l !! i = Some t -> same_but_wait l (<[i:=set_next_wait p t]> l).
Proof.
  intros Hi j. destruct (decide (i = j)) as [<-|Hne].
  - rewrite Hi, list_lookup_insert_eq by (by eapply lookup_lt_Some). simpl.
    by rewrite set_next_wait_twice.
  - by rewrite list_lookup_insert_ne.
Qed.

Lemma same_but_wait_state l l' i t :
  same_but_wait l l' -> l !! i = Some t -> exists t', l' !! i = Some t' /\ state t' = state t.
Proof.
  intros H Hi. specialize (H i). rewrite Hi in H. simpl in H.
  destruct (l' !! i) as [t'|] eqn:E; [|done]. exists t'. split; [done|].
  injection H. by intros.
Qed.

Lemma same_but_wait_length l l' : same_but_wait l l' -> length l = length l'.
Proof.
  intros H. apply dec_stable. intros Hne.
  destruct (decide (length l < length l')%nat) as [Hlt|Hge].
  - specialize (H (length l)). rewrite (lookup_ge_None_2 l) in H by lia. simpl in H.
    destruct (lookup_lt_is_Some_2 l' (length l) Hlt) as [x Hx]. by rewrite Hx in H.
  - specialize (H (length l')). rewrite (lookup_ge_None_2 l') in H by lia. simpl in H.
    destruct (lookup_lt_is_Some_2 l (length l')) as [x Hx]; [lia|]. by rewrite Hx in H.
Qed.

Lemma set_tbl_twice l1 l2 k : set_tbl l1 (set_tbl l2 k) = set_tbl l1 k.
Proof. by destruct k as [[] ? ?]. Qed.
Lemma tbl_set_tbl l k : tbl (set_tbl l k) = l.
Proof. done. Qed.

Lemma update_task_Ret i t f k :
  tbl k !! i = Some t -> update_task (Some i) f k = Ret tt (set_tbl (<[i:=f t]> (tbl k)) k).
Proof. intros H. unfold update_task, read_task. cstep. by rewrite H. Qed.

(** Every other queue, one without the tasks [l], is still the same queue. *)
Definition frames (l : list nat) (tb tb' : list task_t) : Prop :=
  forall p lo, linked link_wait tb p lo -> (forall j, j ∈ lo -> j ∉ l) -> linked link_wait tb' p lo.

Lemma frames_insert tb i t l : i ∈ l -> frames l tb (<[i:=t]> tb).
Proof. intros Hi p lo Hlo Hd. apply chain_frame; [|done]. intros H. by apply (Hd i). Qed.

Lemma frames_trans l tb1 tb2 tb3 : frames l tb1 tb2 -> frames l tb2 tb3 -> frames l tb1 tb3.
Proof. intros H1 H2 p lo Hlo Hd. by apply H2, Hd; auto; apply H1. Qed.

(** [add_to_wait_queue] appends a task that is not in the queue. *)
Lemma add_to_wait_queue_spec k queue l i t :
  linked link_wait (tbl k) queue l -> tbl k !! i = Some t -> i ∉ l ->
  exists queue' l', add_to_wait_queue queue (Some i) k = Ret queue' (set_tbl l' k) /\
    linked link_wait l' queue' (l ++ [i]) /\ same_but_wait (tbl k) l' /\
    frames (l ++ [i]) (tbl k) l'.
Proof.
  intros Hl Hi Hni. unfold add_to_wait_queue.
  erewrite bind_Ret by (by apply update_task_Ret).
  set (l1 := <[i:=set_next_wait None t]> (tbl k)).
  assert (Hl1i : l1 !! i = Some (set_next_wait None t)).
  { apply list_lookup_insert_eq. by eapply lookup_lt_Some. }
  assert (Hs1 : same_but_wait (tbl k) l1) by (by apply same_but_wait_insert).
  assert (Hl' : linked link_wait l1 queue l) by (by apply chain_frame).
  destruct queue as [h|].
  2: { destruct l as [|j l]; [|by destruct Hl as [? _]].
       exists (Some i), l1. split; [done|]. split.
       - split; [done|]. by exists (set_next_wait None t).
       - split; [done|]. apply frames_insert. set_solver. }
  destruct l as [|h' l]; [by destruct Hl|].
  assert (h' = h) as -> by (destruct Hl as [[=] _]; done).
  cstep. rewrite tbl_set_tbl.
  assert (Hlen : (length l < length l1)%nat) by (apply linked_length in Hl'; simpl in Hl'; lia).
  rewrite (last_of_linked _ _ _ _ _ Hl' Hlen).
  destruct (exists_last (l := h :: l)) as (l0 & c & Hc); [done|]. rewrite Hc in *. rewrite last_snoc.
  destruct (chain_lookup _ _ _ _ _ c Hl') as [x Hx]; [set_solver|].
  fold (update_task (Some c) (set_next_wait (Some i))).
  rewrite (update_task_Ret c x) by done. cbn [pbind]. rewrite set_tbl_twice, tbl_set_tbl.
  eexists _, _. split; [reflexivity|]. split.
  - rewrite <- app_assoc. by eapply (linked_snoc link_wait l1 (Some h) l0 c i x).
  - split; [etrans; [exact Hs1|]; by apply same_but_wait_insert|].
    eapply frames_trans; apply frames_insert; set_solver.
Qed.

(** [remove_from_wait_queue] takes the first task off. *)
Lemma remove_from_wait_queue_spec k queue i l :
  linked link_wait (tbl k) queue (i :: l) ->
  exists queue' l', remove_from_wait_queue queue k = Ret (Some i, queue') (set_tbl l' k) /\
    linked link_wait l' queue' l /\ same_but_wait (tbl k) l' /\ frames [i] (tbl k) l'.
Proof.
  intros Hl. pose proof (linked_NoDup _ _ _ _ Hl) as Hnd. apply NoDup_cons in Hnd as [Hni _].
  destruct Hl as (-> & t & Hi & Hl). unfold remove_from_wait_queue, read_task. cstep. rewrite Hi.
  eexists _, _. split; [reflexivity|]. split.
  - by apply chain_frame.
  - split; [by apply same_but_wait_insert|]. apply frames_insert. set_solver.
Qed.

Lemma remove_from_wait_queue_nil k queue :
  linked link_wait (tbl k) queue [] -> remove_from_wait_queue queue k = Ret (None, None) k.
Proof. by intros ->. Qed.

(** The part of waking a task up that follows its removal from a queue: the
    state is set to READY, after which [task_resume] has nothing to do. *)
Definition wake (p : ptr) : Cmd kern unit :=
  update_task p (set_state TASK_READY) ;;; k_task_resume p.

Lemma wake_Ret i t k :
  tbl k !! i = Some t ->
  wake (Some i) k = Ret tt (set_tbl (<[i:=set_state TASK_READY t]> (tbl k)) k).
Proof.
  intros Hi. unfold wake. erewrite bind_Ret by (by apply update_task_Ret).
  unfold k_task_resume, zoom. simpl. unfold task_resume, get_task. cstep. simpl.
  assert ((<[i:=set_state TASK_READY t]> (tbl k)) !! i = Some (set_state TASK_READY t)) as ->
    by (apply list_lookup_insert_eq; by eapply lookup_lt_Some).
  simpl. by destruct k as [[] ? ?].
Qed.

(** Waking a task that is outside a queue leaves the queue. *)
Lemma linked_wake tb queue l i t :
  linked link_wait tb queue l -> tb !! i = Some t ->
  forall s, linked link_wait (<[i:=set_state s t]> tb) queue l.
Proof. intros Hl Hi s. by eapply chain_field. Qed.
