(* ===== verification/Mutex.v ===== *)
(** * Mutex

    src/src/mutex.c: mutexes with direct hand-off to the first waiting task,
    and the recursive variant.  A program on a mutex acts on the kernel state
    and that mutex. *)
From stdpp Require Import strings.
From S2P Require Import Prelude Links Task WaitQueue.

(** [mutex_t]. *)
Record mutex_t : Type := Mutex {
  locked : Z;
  owner : ptr;
  waiting_tasks : ptr;
  recursive_count : Z;
  mutex_name : string
}.

Definition set_locked (v : Z) (x : mutex_t) : mutex_t := {|
  locked := v; owner := owner x; waiting_tasks := waiting_tasks x;
  recursive_count := recursive_count x; mutex_name := mutex_name x |}.
Definition set_owner (v : ptr) (x : mutex_t) : mutex_t := {|
  locked := locked x; owner := v; waiting_tasks := waiting_tasks x;
  recursive_count := recursive_count x; mutex_name := mutex_name x |}.
Definition set_waiting_tasks (v : ptr) (x : mutex_t) : mutex_t := {|
  locked := locked x; owner := owner x; waiting_tasks := v;
  recursive_count := recursive_count x; mutex_name := mutex_name x |}.
Definition set_recursive_count (v : Z) (x : mutex_t) : mutex_t := {|
  locked := locked x; owner := owner x; waiting_tasks := waiting_tasks x;
  recursive_count := v; mutex_name := mutex_name x |}.

(** The kernel inside a pair. *)
Definition fst_lens {X : Type} : lens (kern * X) kern.
Proof.
  refine (Lens fst (fun k p => (k, snd p)) _ _ _); [done|by intros []|done].
Defined.
Definition in_kern {X A : Type} (c : Cmd kern A) : Cmd (kern * X) A := zoom fst_lens c.
(** Reading and writing the object a primitive acts on. *)
Definition read_obj {X Y : Type} (f : X -> Y) : Cmd (kern * X) Y := gets (fun p => f (snd p)).
Definition write_obj {X : Type} (f : X -> X) : Cmd (kern * X) unit :=
  modify (fun p => (fst p, f (snd p))).

Lemma in_kern_Ret {X A} (c : Cmd kern A) (k k' : kern) (x : X) a :
  c k = Ret a k' -> in_kern c (k, x) = Ret a (k', x).
Proof. intros H. unfold in_kern. by apply (zoom_Ret fst_lens). Qed.

Definition mutex_init (nm : string) : mutex_t :=
  {| locked := 0; owner := None; waiting_tasks := None; recursive_count := 0; mutex_name := nm |}.

(** The end of the two lock functions: count the contention, block the current
    task at the tail of the queue and give the processor away. *)
Definition mutex_block (cur : ptr) : Cmd (kern * mutex_t) unit :=
  in_kern (count_stat bump_mutex) ;;;
  in_kern (update_task cur (set_state TASK_BLOCKED)) ;;;
  let* q := read_obj waiting_tasks in
  let* q' := in_kern (add_to_wait_queue q cur) in
  write_obj (set_waiting_tasks q') ;;;
  in_kern interrupt_enable ;;;
  yield_cpu.

Definition mutex_lock : Cmd (kern * mutex_t) unit :=
  in_kern interrupt_disable ;;;
  let* cur := in_kern get_current in
  let* l := read_obj locked in
  if l =? 0 then
    write_obj (set_locked 1) ;;;
    write_obj (set_owner cur) ;;;
    in_kern interrupt_enable
  else mutex_block cur.

Definition mutex_trylock : Cmd (kern * mutex_t) bool :=
  in_kern interrupt_disable ;;;
  let* l := read_obj locked in
  if l =? 0 then
    write_obj (set_locked 1) ;;;
    let* cur := in_kern get_current in
    write_obj (set_owner cur) ;;;
    in_kern interrupt_enable ;;;
    ret true
  else
    in_kern interrupt_enable ;;;
    ret false.

(** Take the first task off the queue and store the new head. *)
Definition mutex_pop : Cmd (kern * mutex_t) ptr :=
  let* q := read_obj waiting_tasks in
  let* r := in_kern (remove_from_wait_queue q) in
  write_obj (set_waiting_tasks (snd r)) ;;;
  ret (fst r).

Definition mutex_unlock : Cmd (kern * mutex_t) unit :=
  in_kern interrupt_disable ;;;
  let* cur := in_kern get_current in
  let* o := read_obj owner in
  if decide (o = cur) then
    let* waiting := mutex_pop in
    match waiting with
    | Some w =>
        write_obj (set_owner (Some w)) ;;;
        in_kern (wake (Some w)) ;;;
        in_kern interrupt_enable
    | None =>
        write_obj (set_locked 0) ;;;
        write_obj (set_owner None) ;;;
        in_kern interrupt_enable
    end
  else in_kern interrupt_enable.

Definition recursive_mutex_init : string -> mutex_t := mutex_init.

Definition recursive_mutex_lock : Cmd (kern * mutex_t) unit :=
  in_kern interrupt_disable ;;;
  let* cur := in_kern get_current in
  let* m := read_obj id in
  if decide (owner m = cur) then
    write_obj (set_recursive_count (u32 (recursive_count m + 1))) ;;;
    in_kern interrupt_enable
  else if locked m =? 0 then
    write_obj (set_locked 1) ;;;
    write_obj (set_owner cur) ;;;
    write_obj (set_recursive_count 1) ;;;
    in_kern interrupt_enable
  else mutex_block cur.

Definition recursive_mutex_unlock : Cmd (kern * mutex_t) unit :=
  in_kern interrupt_disable ;;;
  let* cur := in_kern get_current in
  let* m := read_obj id in
  if decide (owner m = cur) then
    write_obj (set_recursive_count (u32 (recursive_count m - 1))) ;;;
    let* n := read_obj recursive_count in
    if 0 <? n then in_kern interrupt_enable
    else
      let* waiting := mutex_pop in
      match waiting with
      | Some w =>
          write_obj (set_owner (Some w)) ;;;
          write_obj (set_recursive_count 1) ;;;
          in_kern (wake (Some w)) ;;;
          in_kern interrupt_enable
      | None =>
          write_obj (set_locked 0) ;;;
          write_obj (set_owner None) ;;;
          write_obj (set_recursive_count 0) ;;;
          in_kern interrupt_enable
      end
  else in_kern interrupt_enable.

(** ** What each function does, branch by branch *)

(** The queue of a mutex as a list of tasks. *)
Definition waiters (tb : list task_t) (m : mutex_t) (l : list nat) : Prop :=
  linked link_wait tb (waiting_tasks m) l.

Definition irq_enabled (k : kern) : kern := set_irq_on true k.

Lemma irq_cycle k : set_irq_on true (set_irq_on false k) = irq_enabled k.
Proof. by destruct k. Qed.
Lemma tbl_irq b k : tbl (set_irq_on b k) = tbl k.
Proof. done. Qed.
Lemma set_tbl_irq b l k : set_tbl l (set_irq_on b k) = set_irq_on b (set_tbl l k).
Proof. by destruct k as [[] ? ?]. Qed.

(** Blocking puts the current task, BLOCKED, behind the waiting tasks. *)
Lemma mutex_block_spec k m i t l :
  tbl k !! i = Some t -> waiters (tbl k) m l -> i ∉ l ->
  exists k' q', mutex_block (Some i) (k, m) = Yield (k', set_waiting_tasks q' m) (fun s => Ret tt s) /\
    waiters (tbl k') (set_waiting_tasks q' m) (l ++ [i]) /\
    same_but_wait (<[i:=set_state TASK_BLOCKED t]> (tbl k)) (tbl k') /\
    irq_on k' = true /\ current k' = current k /\ frames (l ++ [i]) (tbl k) (tbl k').
Proof.
  intros Hi Hw Hni. unfold mutex_block.
  erewrite bind_Ret by (by apply in_kern_Ret).
  set (k1 := set_sync_stats _ _).
  assert (tbl k1 = tbl k) as Hk1 by done.
  erewrite bind_Ret by (apply in_kern_Ret, update_task_Ret; by rewrite Hk1).
  erewrite bind_Ret by reflexivity. simpl. rewrite Hk1.
  set (k2 := set_tbl _ _).
  destruct (add_to_wait_queue_spec k2 (waiting_tasks m) l i (set_state TASK_BLOCKED t))
    as (q' & l' & Hadd & Hl' & Hsame & Hfr); [|by apply list_lookup_insert_eq; eapply lookup_lt_Some|done|].
  { by apply linked_wake. }
  erewrite bind_Ret by (by apply in_kern_Ret).
  eexists _, q'. split; [reflexivity|]. split; [done|]. split; [done|]. split; [done|].
  split; [done|]. intros p lo Hlo Hd. apply Hfr; [by apply linked_wake|done].
Qed.

Lemma mutex_lock_free k m :
  locked m = 0 ->
  mutex_lock (k, m) = Ret tt (irq_enabled k, set_owner (current k) (set_locked 1 m)).
Proof. intros H. unfold mutex_lock, in_kern, zoom, read_obj, write_obj. crun. rewrite H. by destruct k. Qed.

Lemma mutex_lock_busy k m i t l :
  locked m <> 0 -> current k = Some i -> tbl k !! i = Some t -> waiters (tbl k) m l -> i ∉ l ->
  exists k' q', mutex_lock (k, m) = Yield (k', set_waiting_tasks q' m) (fun s => Ret tt s) /\
    waiters (tbl k') (set_waiting_tasks q' m) (l ++ [i]) /\
    same_but_wait (<[i:=set_state TASK_BLOCKED t]> (tbl k)) (tbl k') /\
    irq_on k' = true /\ current k' = current k /\ frames (l ++ [i]) (tbl k) (tbl k').
Proof.
  intros Hb Hc Hi Hw Hni. unfold mutex_lock.
  erewrite bind_Ret by (by apply in_kern_Ret).
  erewrite bind_Ret by (by apply in_kern_Ret).
  erewrite bind_Ret by reflexivity. simpl.
  rewrite (proj2 (Z.eqb_neq _ _)) by done.
  assert (current (set_irq_on false k) = Some i) as -> by done.
  by apply (mutex_block_spec (set_irq_on false k)).
Qed.

Lemma mutex_pop_nil k m :
  waiters (tbl k) m [] -> mutex_pop (k, m) = Ret None (k, set_waiting_tasks None m).
Proof.
  intros Hw. unfold mutex_pop. erewrite bind_Ret by reflexivity. simpl.
  erewrite bind_Ret by (by apply in_kern_Ret, remove_from_wait_queue_nil). done.
Qed.

Lemma mutex_pop_cons k m w l :
  waiters (tbl k) m (w :: l) ->
  exists q' l', mutex_pop (k, m) = Ret (Some w) (set_tbl l' k, set_waiting_tasks q' m) /\
    linked link_wait l' q' l /\ same_but_wait (tbl k) l' /\ frames [w] (tbl k) l'.
Proof.
  intros Hw. destruct (remove_from_wait_queue_spec k _ _ _ Hw) as (q' & l' & Hr & Hl & Hs & Hfr).
  exists q', l'. split; [|done]. unfold mutex_pop. erewrite bind_Ret by reflexivity. simpl.
  by erewrite bind_Ret by (by apply in_kern_Ret).
Qed.

Lemma mutex_unlock_foreign k m :
  owner m <> current k -> mutex_unlock (k, m) = Ret tt (irq_enabled k, m).
Proof.
  intros H. unfold mutex_unlock, in_kern, zoom, read_obj. crun.
  rewrite decide_False by done. by destruct k.
Qed.

Lemma mutex_unlock_last k m :
  owner m = current k -> waiters (tbl k) m [] ->
  mutex_unlock (k, m) = Ret tt (irq_enabled k, set_owner None (set_locked 0 (set_waiting_tasks None m))).
Proof.
  intros Ho Hw. unfold mutex_unlock.
  erewrite bind_Ret by (by apply in_kern_Ret).
  erewrite bind_Ret by (by apply in_kern_Ret).
  erewrite bind_Ret by reflexivity. simpl. rewrite decide_True by done.
  erewrite bind_Ret by (by apply mutex_pop_nil). by destruct k.
Qed.

(** Unlocking with waiters hands the mutex to the first of them, which is
    woken; the mutex is never free in between. *)
Lemma mutex_unlock_handoff k m w l :
  owner m = current k -> waiters (tbl k) m (w :: l) ->
  exists tb' q' tw, mutex_unlock (k, m)
      = Ret tt (irq_enabled (set_tbl (<[w:=set_state TASK_READY tw]> tb') k),
                set_owner (Some w) (set_waiting_tasks q' m)) /\
    linked link_wait (<[w:=set_state TASK_READY tw]> tb') q' l /\
    same_but_wait (tbl k) tb' /\ tb' !! w = Some tw /\
    frames [w] (tbl k) (<[w:=set_state TASK_READY tw]> tb').
Proof.
  intros Ho Hw. unfold mutex_unlock.
  erewrite bind_Ret by (by apply in_kern_Ret).
  erewrite bind_Ret by (by apply in_kern_Ret).
  erewrite bind_Ret by reflexivity. simpl. rewrite decide_True by done.
  destruct (mutex_pop_cons (set_irq_on false k) m w l Hw) as (q' & tb' & Hp & Hl & Hs & Hfr).
  erewrite bind_Ret by exact Hp.
  destruct (chain_lookup _ _ _ _ _ w Hw) as [t Ht]; [set_solver|].
  destruct (same_but_wait_state _ _ _ _ Hs Ht) as (tw & Htw & _).
  erewrite bind_Ret by reflexivity. simpl.
  erewrite bind_Ret by (by apply in_kern_Ret, wake_Ret).
  exists tb', q', tw. split; [by destruct k as [[] ? ?]|].
  split; [by apply linked_wake|]. split; [done|]. split; [done|].
  eapply frames_trans; [exact Hfr|]. apply frames_insert. set_solver.
Qed.

(** ** A system of tasks sharing a mutex

    Every task is outside, inside a call of [mutex_lock] that gave the
    processor away, or holding the mutex (a call of [mutex_lock] returned, or
    [mutex_trylock] returned true, and it has not unlocked since).  The
    processor runs any task that is not BLOCKED. *)
Inductive phase : Type := Outside | Locking | Holding.

Record msys : Type := MSys { m_kern : kern; m_mutex : mutex_t; m_phase : nat -> phase }.

Definition set_phase (ph : nat -> phase) (i : nat) (p : phase) : nat -> phase :=
  fun j => if decide (j = i) then p else ph j.

(** Task [i] runs: it is the current task and is not BLOCKED. *)
Definition runs (k : kern) (i : nat) : Prop :=
  current k = Some i /\ exists t, tbl k !! i = Some t /\ state t <> TASK_BLOCKED.

(** What the rest of the kernel may do to the table: anything that keeps the
    wait links and the set of BLOCKED tasks. *)
Definition benign (k k' : kern) : Prop :=
  forall i, match tbl k !! i with
            | None => tbl k' !! i = None
            | Some t => exists t', tbl k' !! i = Some t' /\ next_wait t' = next_wait t /\
                                   (state t' = TASK_BLOCKED <-> state t = TASK_BLOCKED)
            end.

Inductive mstep : msys -> msys -> Prop :=
| ms_lock k m ph i k' m' :
    runs k i -> ph i = Outside -> mutex_lock (k, m) = Ret tt (k', m') ->
    mstep (MSys k m ph) (MSys k' m' (set_phase ph i Holding))
| ms_lock_wait k m ph i k' m' c :
    runs k i -> ph i = Outside -> mutex_lock (k, m) = Yield (k', m') c ->
    mstep (MSys k m ph) (MSys k' m' (set_phase ph i Locking))
| ms_lock_resume k m ph i :
    runs k i -> ph i = Locking ->
    mstep (MSys k m ph) (MSys k m (set_phase ph i Holding))
| ms_trylock k m ph i k' m' b :
    runs k i -> ph i = Outside -> mutex_trylock (k, m) = Ret b (k', m') ->
    mstep (MSys k m ph) (MSys k' m' (match b with true => set_phase ph i Holding | false => ph end))
| ms_unlock k m ph i k' m' :
    runs k i -> ph i <> Locking -> mutex_unlock (k, m) = Ret tt (k', m') ->
    mstep (MSys k m ph) (MSys k' m' (set_phase ph i Outside))
| ms_kernel k m ph k' :
    benign k k' -> mstep (MSys k m ph) (MSys k' m ph).

(** Start: the mutex as [mutex_init] leaves it, every task outside. *)
Definition msys_init (k : kern) (nm : string) : msys :=
  MSys k (mutex_init nm) (fun _ => Outside).

Definition blocked_in (tb : list task_t) (i : nat) : Prop :=
  exists t, tb !! i = Some t /\ state t = TASK_BLOCKED.

(** The invariant. *)
Definition minv (s : msys) : Prop :=
  exists l, waiters (tbl (m_kern s)) (m_mutex s) l /\
    (forall i, i ∈ l -> m_phase s i = Locking /\ blocked_in (tbl (m_kern s)) i) /\
    match owner (m_mutex s) with
    | None => locked (m_mutex s) = 0 /\ l = [] /\ forall i, m_phase s i = Outside
    | Some o => locked (m_mutex s) = 1 /\ (o ∉ l) /\
                (m_phase s o = Holding \/ m_phase s o = Locking) /\
                forall i, i <> o -> m_phase s i = Outside \/ (m_phase s i = Locking /\ i ∈ l)
    end.

Lemma set_phase_eq ph i p : set_phase ph i p i = p.
Proof. unfold set_phase. by case_decide. Qed.
Lemma set_phase_ne ph i j p : j <> i -> set_phase ph i p j = ph j.
Proof. intros. unfold set_phase. by case_decide. Qed.

Lemma same_but_wait_blocked l l' i : same_but_wait l l' -> blocked_in l i -> blocked_in l' i.
Proof.
  intros Hs (t & Ht & Hb). destruct (same_but_wait_state _ _ _ _ Hs Ht) as (t' & Ht' & Hst).
  exists t'. by rewrite Hst.
Qed.

Lemma blocked_in_insert tb i j s t :
  blocked_in tb j -> i <> j -> blocked_in (<[i:=set_state s t]> tb) j.
Proof. intros (x & Hx & Hb) Hne. exists x. by rewrite list_lookup_insert_ne. Qed.

Lemma benign_linked k k' q l :
  benign k k' -> linked link_wait (tbl k) q l -> linked link_wait (tbl k') q l.
Proof.
  intros Hb. unfold linked. revert q. induction l as [|i l IH]; intros q; [done|].
  intros (-> & x & Hx & Hl). split; [done|]. specialize (Hb i) as Hbi. rewrite Hx in Hbi.
  destruct Hbi as (x' & Hx' & Hn & _). exists x'. split; [done|]. simpl. rewrite Hn. by apply IH.
Qed.

Lemma benign_blocked k k' i : benign k k' -> blocked_in (tbl k) i -> blocked_in (tbl k') i.
Proof.
  intros Hb (t & Ht & Hst). specialize (Hb i). rewrite Ht in Hb.
  destruct Hb as (t' & Ht' & _ & Hst'). exists t'. naive_solver.
Qed.

(** A task that runs is not in the queue. *)
Lemma runs_not_waiting k i (l : list nat) :
  runs k i -> (forall j, j ∈ l -> blocked_in (tbl k) j) -> i ∉ l.
Proof. intros (_ & t & Ht & Hst) Hl Hi. destruct (Hl i Hi) as (t' & Ht' & Hb). by simplify_eq. Qed.

Lemma mutex_trylock_eq k m :
  mutex_trylock (k, m) =
  if locked m =? 0 then Ret true (irq_enabled k, set_owner (current k) (set_locked 1 m))
  else Ret false (irq_enabled k, m).
Proof.
  unfold mutex_trylock, in_kern, zoom, read_obj, write_obj. crun.
  destruct (locked m =? 0); by destruct k.
Qed.

Lemma minv_lock_free k m ph i :
  minv (MSys k m ph) -> runs k i -> ph i = Outside -> locked m = 0 ->
  minv (MSys (irq_enabled k) (set_owner (current k) (set_locked 1 m)) (set_phase ph i Holding)).
Proof.
  intros (l & Hw & Hq & Ho) [Hc Hr] Hph Hl0. simpl in *.
  destruct (owner m) as [o|]; [lia|]. destruct Ho as (_ & -> & Hout).
  exists []. simpl. rewrite Hc. split; [done|]. split; [by intros j ?%not_elem_of_nil|].
  split; [done|]. split; [by apply not_elem_of_nil|]. split; [left; by apply set_phase_eq|].
  intros j Hj. left. by rewrite set_phase_ne.
Qed.

Lemma minv_lock_busy k m ph i k' m' c :
  minv (MSys k m ph) -> runs k i -> ph i = Outside -> locked m <> 0 ->
  mutex_lock (k, m) = Yield (k', m') c ->
  minv (MSys k' m' (set_phase ph i Locking)).
Proof.
  intros (l & Hw & Hq & Ho) Hrun Hph Hl Heq. simpl in *.
  assert (Hni : i ∉ l) by (eapply runs_not_waiting; [done|]; intros j Hj; by apply Hq).
  destruct Hrun as (Hc & t & Ht & Hst).
  destruct (mutex_lock_busy k m i t l) as (k2 & q' & Heq' & Hw' & Hsame & _); try done.
  rewrite Heq' in Heq. injection Heq as <- <- _.
  exists (l ++ [i]). simpl. split; [done|]. split.
  - intros j [Hj| ->%list_elem_of_singleton]%elem_of_app.
    + assert (j <> i) by (by intros ->). rewrite set_phase_ne by done.
      destruct (Hq j Hj) as [? ?]. split; [done|].
      eapply same_but_wait_blocked; [done|]. by apply blocked_in_insert.
    + rewrite set_phase_eq. split; [done|]. eapply same_but_wait_blocked; [done|].
      exists (set_state TASK_BLOCKED t). split; [|done].
      apply list_lookup_insert_eq. by eapply lookup_lt_Some.
  - destruct (owner m) as [o|]; [|lia]. destruct Ho as (? & Hol & Hoph & Hoth).
    assert (o <> i) by (intros ->; destruct Hoph; congruence).
    split; [done|]. split; [set_solver|]. rewrite set_phase_ne by done. split; [done|].
    intros j Hj. destruct (decide (j = i)) as [->|Hji].
    + right. rewrite set_phase_eq. set_solver.
    + rewrite set_phase_ne by done. destruct (Hoth j Hj) as [?|[? ?]]; [by left|right; set_solver].
Qed.

Lemma minv_resume k m ph i :
  minv (MSys k m ph) -> runs k i -> ph i = Locking ->
  minv (MSys k m (set_phase ph i Holding)).
Proof.
  intros (l & Hw & Hq & Ho) Hrun Hph. simpl in *.
  assert (Hni : i ∉ l) by (eapply runs_not_waiting; [done|]; intros j Hj; by apply Hq).
  exists l. simpl. split; [done|]. split.
  - intros j Hj. rewrite set_phase_ne by (by intros ->). by apply Hq.
  - destruct (owner m) as [o|].
    + destruct Ho as (? & Hol & Hoph & Hoth).
      destruct (decide (i = o)) as [->|Hio].
      * split; [done|]. split; [done|]. rewrite set_phase_eq. split; [by left|].
        intros j Hj. rewrite set_phase_ne by done. auto.
      * destruct (Hoth i Hio) as [?|[_ ?]]; [congruence|done].
    + destruct Ho as (_ & _ & Hout). rewrite Hout in Hph. done.
Qed.

Lemma minv_unlock k m ph i k' m' :
  minv (MSys k m ph) -> runs k i -> ph i <> Locking ->
  mutex_unlock (k, m) = Ret tt (k', m') ->
  minv (MSys k' m' (set_phase ph i Outside)).
Proof.
  intros (l & Hw & Hq & Ho) Hrun Hph Heq. simpl in *.
  assert (Hni : i ∉ l) by (eapply runs_not_waiting; [done|]; intros j Hj; by apply Hq).
  destruct Hrun as (Hc & t & Ht & Hst).
  destruct (decide (owner m = current k)) as [Hown|Hown].
  2: { rewrite mutex_unlock_foreign in Heq by done. injection Heq as <- <-.
       assert (Hpi : ph i = Outside).
       { destruct (owner m) as [o|].
         - destruct Ho as (_ & _ & _ & Hoth). destruct (Hoth i) as [?|[? ?]]; congruence.
         - by destruct Ho as (_ & _ & ->). }
       assert (Hsame : forall j, set_phase ph i Outside j = ph j).
       { intros j. unfold set_phase. case_decide; congruence. }
       exists l. simpl. split; [exact Hw|]. split; [by setoid_rewrite Hsame|].
       destruct (owner m) as [o|]; by repeat setoid_rewrite Hsame. }
  rewrite Hown, Hc in Ho. destruct Ho as (Hl1 & _ & Hoph & Hoth).
  destruct l as [|w l].
  - rewrite mutex_unlock_last in Heq by done. injection Heq as <- <-.
    exists []. simpl. split; [done|]. split; [by intros j ?%not_elem_of_nil|].
    split; [done|]. split; [done|]. intros j. destruct (decide (j = i)) as [->|Hji].
    + by rewrite set_phase_eq.
    + rewrite set_phase_ne by done. destruct (Hoth j Hji) as [?|[_ ?%not_elem_of_nil]]; done.
  - pose proof (linked_NoDup _ _ _ _ Hw) as Hnd. apply NoDup_cons in Hnd as [Hwl _].
    destruct (mutex_unlock_handoff k m w l Hown Hw) as (tb' & q' & tw & Heq' & Hl' & Hsame & Htw & _).
    rewrite Heq' in Heq. injection Heq as <- <-.
    exists l. simpl. assert (Hwi : w <> i) by set_solver. split; [done|]. split.
    + intros j Hj. rewrite set_phase_ne by set_solver. split; [apply Hq; set_solver|].
      apply blocked_in_insert; [|set_solver]. eapply same_but_wait_blocked; [done|].
      apply Hq. set_solver.
    + split; [done|]. split; [done|]. rewrite set_phase_ne by done.
      split; [right; apply Hq; set_solver|]. intros j Hj.
      destruct (decide (j = i)) as [->|Hji]; [left; by rewrite set_phase_eq|].
      rewrite set_phase_ne by done. destruct (Hoth j Hji) as [?|[? ?]]; [by left|right; set_solver].
Qed.

Lemma minv_step s s' : minv s -> mstep s s' -> minv s'.
Proof.
  intros Hi Hs. destruct Hs as [k m ph i k' m' Hr Hp Heq|k m ph i k' m' c Hr Hp Heq|k m ph i Hr Hp
    |k m ph i k' m' b Hr Hp Heq|k m ph i k' m' Hr Hp Heq|k m ph k' Hb].
  - destruct (decide (locked m = 0)) as [Hl|Hl].
    + rewrite mutex_lock_free in Heq by done. injection Heq as <- <-. by apply minv_lock_free.
    + destruct Hi as (l & Hw & Hq & _). simpl in *.
      assert (Hni : i ∉ l) by (eapply runs_not_waiting; [done|]; intros j Hj; by apply Hq).
      destruct Hr as (Hc & t & Ht & Hst).
      destruct (mutex_lock_busy k m i t l) as (k2 & q' & Heq' & _); try done. congruence.
  - destruct (decide (locked m = 0)) as [Hl|Hl].
    + by rewrite mutex_lock_free in Heq.
    + by eapply minv_lock_busy.
  - by apply minv_resume.
  - rewrite mutex_trylock_eq in Heq. destruct (locked m =? 0) eqn:Hl; injection Heq as <- <- <-.
    + apply minv_lock_free; auto. by apply Z.eqb_eq.
    + done.
  - by eapply minv_unlock.
  - destruct Hi as (l & Hw & Hq & Ho). exists l. simpl in *.
    split; [by eapply benign_linked|]. split; [|done].
    intros i Hi. destruct (Hq i Hi). split; [done|]. by eapply benign_blocked.
Qed.

(** ** Properties *)


(** Two READY tasks, task 0 current. *)
Definition two_tasks (c : nat) : kern := {|
  k_tasks := {| task_list := replicate 2 zero_task; current_task := Some c;
                idle_task := None; task_count := 2; freed := [] |};
  irq_on := true;
  sync_stats := {| mutex_contentions := 0; sem_contentions := 0; cond_contentions := 0;
                   rwlock_contentions := 0; spin_contentions := 0 |} |}.


(** The owner runs and unlocks, [n] times: each time the task that owns the
    mutex at that moment. *)
Fixpoint hand_over (n : nat) : Cmd (kern * mutex_t) unit :=
  match n with
  | O => ret tt
  | S n' =>
      let* o := read_obj owner in
      in_kern (modify (fun k => set_k_tasks (set_current_task o (k_tasks k)) k)) ;;;
      mutex_unlock ;;;
      hand_over n'
  end.

(** C12. Waiting tasks get the mutex in the order of their calls and none is
    overtaken: if the queue is [l], the task at position [n] owns the mutex
    after exactly [n + 1] unlocks, is no longer BLOCKED, and the tasks behind it
    still wait in the same order. *)
Theorem mutex_fifo (n : nat) (k : kern) (m : mutex_t) (l : list nat) (i : nat)
    (Hw : waiters (tbl k) m l) (Hn : l !! n = Some i) :
  exists k' m', hand_over (S n) (k, m) = Ret tt (k', m') /\
    owner m' = Some i /\ locked m' = locked m /\
    (exists t, tbl k' !! i = Some t /\ state t = TASK_READY) /\
    waiters (tbl k') m' (drop (S n) l).
Proof.
  revert k m l Hw Hn. induction n as [|n IH]; intros k m [|w l] Hw Hn; try done.
  - injection Hn as ->. simpl.
    erewrite bind_Ret by reflexivity. simpl. erewrite bind_Ret by (by apply in_kern_Ret).
    destruct (mutex_unlock_handoff (set_k_tasks (set_current_task (owner m) (k_tasks k)) k) m i l)
      as (tb & q & tw & Heq & Hl & Hs & Htw & _); [done|done|].
    erewrite bind_Ret by exact Heq. eexists _, _. split; [reflexivity|].
    split; [done|]. split; [done|]. split; [|done].
    exists (set_state TASK_READY tw). split; [|done].
    apply list_lookup_insert_eq. by eapply lookup_lt_Some.
  - change (hand_over (S (S n)) (k, m)) with
      ((let* o := read_obj owner in
        in_kern (modify (fun k => set_k_tasks (set_current_task o (k_tasks k)) k)) ;;;
        mutex_unlock ;;; hand_over (S n)) (k, m)).
    erewrite bind_Ret by reflexivity. cbn [snd]. erewrite bind_Ret by (by apply in_kern_Ret).
    destruct (mutex_unlock_handoff (set_k_tasks (set_current_task (owner m) (k_tasks k)) k) m w l)
      as (tb & q & tw & Heq & Hl & Hs & Htw & _); [done|done|].
    erewrite bind_Ret by exact Heq.
    exact (IH (irq_enabled (set_tbl _ _)) (set_owner (Some w) (set_waiting_tasks q m)) l Hl Hn).
Qed.

(** Four tasks: 0 owns the mutex, 1 and 2 wait in this order. *)
Definition queued_kern : kern := {|
  k_tasks := {| task_list :=
                  [zero_task;
                   set_next_wait (Some 2%nat) (set_state TASK_BLOCKED zero_task);
                   set_state TASK_BLOCKED zero_task; zero_task];
                current_task := Some 0%nat; idle_task := None; task_count := 4; freed := [] |};
  irq_on := true;
  sync_stats := {| mutex_contentions := 0; sem_contentions := 0; cond_contentions := 0;
                   rwlock_contentions := 0; spin_contentions := 0 |} |}.
Definition queued_mutex : mutex_t :=
  {| locked := 1; owner := Some 0%nat; waiting_tasks := Some 1%nat; recursive_count := 0;
     mutex_name := "m" |}.

Lemma queued_waiters : waiters (tbl queued_kern) queued_mutex [1%nat; 2%nat].
Proof. split; [done|]. eexists. split; [done|]. split; [done|]. by eexists. Defined.

Lemma mutex_fifo_witness :
  exists k' m', hand_over 2 (queued_kern, queued_mutex) = Ret tt (k', m') /\ owner m' = Some 2%nat.
Proof.
  destruct (mutex_fifo 1 queued_kern queued_mutex [1%nat; 2%nat] 2 queued_waiters eq_refl)
    as (k' & m' & H & Ho & _).
  exists k', m'. split; [exact H|exact Ho].
Defined.

(** [n] calls in a row. *)
Fixpoint repeat_call {S : Type} (n : nat) (c : Cmd S unit) : Cmd S unit :=
  match n with O => ret tt | Datatypes.S n' => c ;;; repeat_call n' c end.

Lemma recursive_lock_own k m :
  owner m = current k ->
  recursive_mutex_lock (k, m) = Ret tt (irq_enabled k, set_recursive_count (u32 (recursive_count m + 1)) m).
Proof.
  intros H. unfold recursive_mutex_lock, in_kern, zoom, read_obj, write_obj. crun.
  rewrite decide_True by done. by destruct k.
Qed.

Lemma recursive_unlock_own k m :
  owner m = current k -> 0 < u32 (recursive_count m - 1) ->
  recursive_mutex_unlock (k, m) = Ret tt (irq_enabled k, set_recursive_count (u32 (recursive_count m - 1)) m).
Proof.
  intros H Hc. unfold recursive_mutex_unlock, in_kern, zoom, read_obj, write_obj. crun.
  rewrite decide_True by done. simpl. rewrite (proj2 (Z.ltb_lt _ _)) by done. by destruct k.
Qed.

Lemma irq_enabled_idem k : irq_enabled (irq_enabled k) = irq_enabled k.
Proof. by destruct k. Qed.

Lemma repeat_recursive_lock n k m :
  owner m = current k -> 0 <= recursive_count m -> recursive_count m + Z.of_nat n < 4294967296 ->
  (0 < n)%nat ->
  repeat_call n recursive_mutex_lock (k, m)
  = Ret tt (irq_enabled k, set_recursive_count (recursive_count m + Z.of_nat n) m).
Proof.
  revert k m. induction n as [|n IH]; intros k m Ho H0 Hn Hpos; [lia|]. simpl.
  erewrite bind_Ret by (by apply recursive_lock_own). rewrite u32_small by lia.
  destruct n as [|n].
  - simpl. unfold ret. by rewrite Z.add_1_r.
  - rewrite IH by (cbn [recursive_count set_recursive_count owner]; lia || done).
    rewrite irq_enabled_idem. cbn [recursive_count set_recursive_count].
    by replace (recursive_count m + 1 + Z.of_nat (S n))
      with (recursive_count m + Z.of_nat (S (S n))) by lia.
Qed.

Lemma repeat_recursive_unlock n k m :
  owner m = current k -> Z.of_nat n < recursive_count m < 4294967296 -> (0 < n)%nat ->
  repeat_call n recursive_mutex_unlock (k, m)
  = Ret tt (irq_enabled k, set_recursive_count (recursive_count m - Z.of_nat n) m).
Proof.
  revert k m. induction n as [|n IH]; intros k m Ho Hn Hpos; [lia|]. simpl.
  erewrite bind_Ret by (apply recursive_unlock_own; [done|]; rewrite u32_small; lia).
  rewrite u32_small by lia. destruct n as [|n].
  - simpl. unfold ret. done.
  - rewrite IH by (cbn [recursive_count set_recursive_count owner]; lia || done).
    rewrite irq_enabled_idem. cbn [recursive_count set_recursive_count].
    by replace (recursive_count m - 1 - Z.of_nat (S n))
      with (recursive_count m - Z.of_nat (S (S n))) by lia.
Qed.

Lemma recursive_unlock_last k m :
  owner m = current k -> recursive_count m = 1 -> waiters (tbl k) m [] ->
  recursive_mutex_unlock (k, m) = Ret tt (irq_enabled k,
    set_recursive_count 0 (set_owner None (set_locked 0
      (set_waiting_tasks None (set_recursive_count 0 m))))).
Proof.
  intros Ho Hc Hw. unfold recursive_mutex_unlock.
  erewrite bind_Ret by (by apply in_kern_Ret). erewrite bind_Ret by (by apply in_kern_Ret).
  erewrite bind_Ret by reflexivity. simpl. rewrite decide_True by done.
  erewrite bind_Ret by reflexivity. erewrite bind_Ret by reflexivity. simpl. rewrite Hc. simpl.
  erewrite bind_Ret by (by apply mutex_pop_nil). by destruct k.
Qed.

Lemma repeat_call_add {S : Type} a b (c : Cmd S unit) s s1 :
  repeat_call a c s = Ret tt s1 -> repeat_call (a + b) c s = repeat_call b c s1.
Proof.
  revert s. induction a as [|a IH]; intros s H; [by injection H as ->|].
  simpl in *. apply bind_inv_Ret in H as ([] & s2 & H1 & H2).
  erewrite bind_Ret by exact H1. by apply IH.
Qed.

(** The recursive mutex counts nesting exactly.  After [n] nested
    [recursive_mutex_lock] calls on a free mutex ([n] below 2^32), the task owns
    it until it has made exactly [n] [recursive_mutex_unlock] calls: after fewer
    it is still the owner with the difference as the count, after [n] the mutex
    is free. *)
Theorem recursive_mutex_nesting (n j : nat) (k : kern) (m : mutex_t) (i : nat)
    (Hn : (0 < n)%nat /\ Z.of_nat n < 4294967296) (Hj : (0 < j <= n)%nat)
    (Hfree : locked m = 0 /\ owner m = None) (Hq : waiters (tbl k) m [])
    (Hcur : current k = Some i) :
  exists m', (repeat_call n recursive_mutex_lock ;;; repeat_call j recursive_mutex_unlock) (k, m)
             = Ret tt (irq_enabled k, m') /\
    (if decide (j = n) then owner m' = None /\ locked m' = 0 /\ recursive_count m' = 0
     else owner m' = Some i /\ locked m' = 1 /\ recursive_count m' = Z.of_nat (n - j)).
Proof.
  destruct Hn as [Hn Hbig], Hfree as [Hl Ho].
  set (m1 := set_recursive_count 1 (set_owner (Some i) (set_locked 1 m))).
  assert (Hfirst : recursive_mutex_lock (k, m) = Ret tt (irq_enabled k, m1)).
  { unfold recursive_mutex_lock, in_kern, zoom, read_obj, write_obj. crun.
    rewrite decide_False by (change (owner m <> current k); congruence).
    simpl. rewrite Hl. simpl.
    change (current (set_irq_on false k)) with (current k). rewrite Hcur. by destruct k. }
  set (mn := set_recursive_count (Z.of_nat n) m1).
  assert (Hlocks : repeat_call n recursive_mutex_lock (k, m) = Ret tt (irq_enabled k, mn)).
  { destruct n as [|n]; [lia|]. simpl. erewrite bind_Ret by exact Hfirst.
    destruct n as [|n]; [done|].
    rewrite repeat_recursive_lock by (simpl; done || lia). rewrite irq_enabled_idem.
    unfold mn. by replace (recursive_count m1 + Z.of_nat (S n)) with (Z.of_nat (S (S n))) by (simpl; lia). }
  rewrite (bind_Ret _ _ _ _ _ Hlocks).
  assert (Hmn : owner mn = current (irq_enabled k)) by (simpl; symmetry; exact Hcur).
  destruct (decide (j = n)) as [->|Hne].
  2: { eexists. rewrite repeat_recursive_unlock by (simpl; done || lia).
       rewrite irq_enabled_idem. split; [done|]. simpl. repeat split; auto. lia. }
  destruct n as [|n]; [lia|]. replace (S n) with (n + 1)%nat by lia.
  destruct n as [|n].
  - simpl. erewrite bind_Ret by (apply recursive_unlock_last; [exact Hmn|done|exact Hq]). eexists.
    split; [unfold ret; by rewrite irq_enabled_idem|done].
  - erewrite repeat_call_add by (apply repeat_recursive_unlock; simpl; done || lia). simpl.
    erewrite bind_Ret by (apply recursive_unlock_last; [exact Hmn|simpl; lia|exact Hq]). eexists.
    split; [unfold ret; by rewrite !irq_enabled_idem|done].
Qed.

Lemma recursive_mutex_nesting_witness :
  exists m', (repeat_call 3 recursive_mutex_lock ;;; repeat_call 2 recursive_mutex_unlock)
               (two_tasks 0, mutex_init "m") = Ret tt (two_tasks 0, m') /\
             recursive_count m' = 1.
Proof.
  destruct (recursive_mutex_nesting 3 2 (two_tasks 0) (mutex_init "m") 0
              ltac:(lia) ltac:(lia) ltac:(done) eq_refl eq_refl) as (m' & H & Hc).
  exists m'. split; [exact H|]. apply Hc.
Defined.

(** With no current task (before the scheduler starts) the owner test of
    [recursive_mutex_lock] succeeds on a free mutex, NULL being equal to NULL:
    the call counts a nesting level and leaves the mutex unlocked. *)
Lemma recursive_lock_without_task (k : kern) (nm : string) :
  current k = None ->
  recursive_mutex_lock (k, mutex_init nm)
  = Ret tt (irq_enabled k, set_recursive_count 1 (mutex_init nm)).
Proof. intros H. rewrite recursive_lock_own by done. done. Qed.
