(* ===== verification/Semaphore.v ===== *)
(** * Semaphore

    src/src/semaphore.c: counting semaphores whose [semaphore_post] hands the
    permit straight to the first waiting task. *)
From stdpp Require Import strings.
From S2P Require Import Prelude Links Task WaitQueue Mutex.

(** [semaphore_t]; [count] is an [int32_t]. *)
Record semaphore_t : Type := Semaphore {
  count : Z;
  sem_waiting : ptr;
  sem_name : string
}.

Definition set_count (v : Z) (x : semaphore_t) : semaphore_t := {|
  count := v; sem_waiting := sem_waiting x; sem_name := sem_name x |}.
Definition set_sem_waiting (v : ptr) (x : semaphore_t) : semaphore_t := {|
  count := count x; sem_waiting := v; sem_name := sem_name x |}.

Definition semaphore_init (initial_count : Z) (nm : string) : semaphore_t :=
  {| count := initial_count; sem_waiting := None; sem_name := nm |}.

Definition semaphore_wait : Cmd (kern * semaphore_t) unit :=
  in_kern interrupt_disable ;;;
  let* c := read_obj count in
  if 0 <? c then
    write_obj (set_count (i32 (c - 1))) ;;;
    in_kern interrupt_enable
  else
    in_kern (count_stat bump_sem) ;;;
    let* cur := in_kern get_current in
    in_kern (update_task cur (set_state TASK_BLOCKED)) ;;;
    let* q := read_obj sem_waiting in
    let* q' := in_kern (add_to_wait_queue q cur) in
    write_obj (set_sem_waiting q') ;;;
    in_kern interrupt_enable ;;;
    yield_cpu.

Definition semaphore_trywait : Cmd (kern * semaphore_t) bool :=
  in_kern interrupt_disable ;;;
  let* c := read_obj count in
  if 0 <? c then
    write_obj (set_count (i32 (c - 1))) ;;;
    in_kern interrupt_enable ;;;
    ret true
  else
    in_kern interrupt_enable ;;;
    ret false.

Definition semaphore_post : Cmd (kern * semaphore_t) unit :=
  in_kern interrupt_disable ;;;
  let* q := read_obj sem_waiting in
  let* r := in_kern (remove_from_wait_queue q) in
  write_obj (set_sem_waiting (snd r)) ;;;
  match fst r with
  | Some w => in_kern (wake (Some w)) ;;; in_kern interrupt_enable
  | None =>
      let* c := read_obj count in
      write_obj (set_count (i32 (c + 1))) ;;;
      in_kern interrupt_enable
  end.

Definition semaphore_get_count : Cmd (kern * semaphore_t) Z := read_obj count.

(** ** Branch by branch *)
Definition sem_waiters (tb : list task_t) (m : semaphore_t) (l : list nat) : Prop :=
  linked link_wait tb (sem_waiting m) l.

Lemma semaphore_wait_fast k m :
  0 < count m < 2147483648 ->
  semaphore_wait (k, m) = Ret tt (irq_enabled k, set_count (count m - 1) m).
Proof.
  intros H. unfold semaphore_wait, in_kern, zoom, read_obj, write_obj. crun.
  rewrite (proj2 (Z.ltb_lt _ _)) by lia. rewrite i32_small by lia. by destruct k.
Qed.

Lemma semaphore_wait_slow k m i t l :
  count m <= 0 -> current k = Some i -> tbl k !! i = Some t ->
  sem_waiters (tbl k) m l -> i ∉ l ->
  exists k' q', semaphore_wait (k, m) = Yield (k', set_sem_waiting q' m) (fun s => Ret tt s) /\
    sem_waiters (tbl k') (set_sem_waiting q' m) (l ++ [i]) /\
    same_but_wait (<[i:=set_state TASK_BLOCKED t]> (tbl k)) (tbl k').
Proof.
  intros H Hc Hi Hw Hni. unfold semaphore_wait.
  erewrite bind_Ret by (by apply in_kern_Ret).
  erewrite bind_Ret by reflexivity. simpl. rewrite (proj2 (Z.ltb_ge _ _)) by lia.
  erewrite bind_Ret by (by apply in_kern_Ret).
  erewrite bind_Ret by (by apply in_kern_Ret).
  set (k1 := set_sync_stats _ _).
  assert (current k1 = Some i) as -> by done.
  assert (Hk1 : tbl k1 = tbl k) by done.
  erewrite bind_Ret by (apply in_kern_Ret, update_task_Ret; by rewrite Hk1).
  erewrite bind_Ret by reflexivity. simpl. rewrite Hk1.
  set (k2 := set_tbl _ _).
  destruct (add_to_wait_queue_spec k2 (sem_waiting m) l i (set_state TASK_BLOCKED t))
    as (q' & l' & Hadd & Hl' & Hsame & _); [|by apply list_lookup_insert_eq; eapply lookup_lt_Some|done|].
  { by apply linked_wake. }
  erewrite bind_Ret by (by apply in_kern_Ret).
  eexists _, q'. split; [reflexivity|]. done.
Qed.

Lemma semaphore_post_free k m :
  sem_waiters (tbl k) m [] -> -2147483648 <= count m + 1 < 2147483648 ->
  semaphore_post (k, m) = Ret tt (irq_enabled k, set_count (count m + 1) (set_sem_waiting None m)).
Proof.
  intros Hw Hc. unfold semaphore_post.
  erewrite bind_Ret by (by apply in_kern_Ret).
  erewrite bind_Ret by reflexivity. simpl.
  erewrite bind_Ret by (by apply in_kern_Ret, remove_from_wait_queue_nil).
  erewrite bind_Ret by reflexivity. simpl. erewrite bind_Ret by reflexivity. simpl.
  rewrite i32_small by lia. by destruct k.
Qed.

Lemma semaphore_post_wake k m w l :
  sem_waiters (tbl k) m (w :: l) ->
  exists tb' q' tw, semaphore_post (k, m)
      = Ret tt (irq_enabled (set_tbl (<[w:=set_state TASK_READY tw]> tb') k), set_sem_waiting q' m) /\
    linked link_wait (<[w:=set_state TASK_READY tw]> tb') q' l /\
    same_but_wait (tbl k) tb' /\ tb' !! w = Some tw.
Proof.
  intros Hw. unfold semaphore_post.
  erewrite bind_Ret by (by apply in_kern_Ret).
  erewrite bind_Ret by reflexivity. simpl.
  destruct (remove_from_wait_queue_spec (set_irq_on false k) _ _ _ Hw) as (q' & tb' & Hr & Hl & Hs & _).
  erewrite bind_Ret by (by apply in_kern_Ret).
  destruct (chain_lookup _ _ _ _ _ w Hw) as [t Ht]; [set_solver|].
  destruct (same_but_wait_state _ _ _ _ Hs Ht) as (tw & Htw & _).
  erewrite bind_Ret by reflexivity. simpl.
  erewrite bind_Ret by (by apply in_kern_Ret, wake_Ret).
  exists tb', q', tw. split; [by destruct k as [[] ? ?]|].
  split; [by apply linked_wake|done].
Qed.

(** ** A system of tasks sharing a semaphore

    [granted] counts the waits that were given a permit (at once, or by a
    post that woke the task), [posts] the calls of [semaphore_post]. *)
Record ssys : Type := SSys {
  s_kern : kern; s_sem : semaphore_t; granted : Z; posts : Z
}.

Inductive sstep : ssys -> ssys -> Prop :=
| ss_wait k m g p i k' m' :
    runs k i -> semaphore_wait (k, m) = Ret tt (k', m') ->
    sstep (SSys k m g p) (SSys k' m' (g + 1) p)
| ss_wait_block k m g p i k' m' c :
    runs k i -> semaphore_wait (k, m) = Yield (k', m') c ->
    sstep (SSys k m g p) (SSys k' m' g p)
| ss_trywait k m g p i k' m' b :
    runs k i -> semaphore_trywait (k, m) = Ret b (k', m') ->
    sstep (SSys k m g p) (SSys k' m' (match b with true => g + 1 | false => g end) p)
| ss_post k m g p k' m' :
    semaphore_post (k, m) = Ret tt (k', m') ->
    sstep (SSys k m g p) (SSys k' m' (match sem_waiting m with Some _ => g + 1 | None => g end) (p + 1))
| ss_kernel k m g p k' :
    benign k k' -> sstep (SSys k m g p) (SSys k' m g p).

(** The invariant, as long as no [int32_t] overflow is possible. *)
Definition sinv (init : Z) (s : ssys) : Prop :=
  0 <= granted s /\ 0 <= posts s /\
  (init + posts s < 2147483648 ->
   exists l, sem_waiters (tbl (s_kern s)) (s_sem s) l /\
     (forall i, i ∈ l -> blocked_in (tbl (s_kern s)) i) /\
     0 <= count (s_sem s) /\ (l <> [] -> count (s_sem s) = 0) /\
     count (s_sem s) + granted s = init + posts s).

Lemma semaphore_trywait_eq k m :
  0 <= count m < 2147483648 ->
  semaphore_trywait (k, m) =
  if 0 <? count m then Ret true (irq_enabled k, set_count (count m - 1) m)
  else Ret false (irq_enabled k, m).
Proof.
  intros H. unfold semaphore_trywait, in_kern, zoom, read_obj, write_obj. crun.
  destruct (Z.ltb_spec 0 (count m)); [rewrite i32_small by lia|]; by destruct k.
Qed.

Lemma sinv_wait init k m g p i k' m' r :
  sinv init (SSys k m g p) -> runs k i ->
  (r = Ret tt (k', m') \/ exists c, r = Yield (k', m') c) -> semaphore_wait (k, m) = r ->
  sinv init (SSys k' m' (match r with Ret _ _ => g + 1 | _ => g end) p).
Proof.
  intros (Hg & Hp & Hi) Hr Hres Heq. simpl in *.
  split; [destruct r; simpl; lia|]. split; [done|]. simpl. intros Hb.
  destruct (Hi Hb) as (l & Hw & Hq & H0 & Hz & Hsum).
  destruct (decide (0 < count m)) as [Hpos|Hneg].
  - rewrite semaphore_wait_fast in Heq by lia. subst r.
    destruct Hres as [[= <- <-]|[c [=]]].
    exists l. simpl. split; [done|]. split; [done|]. split; [lia|]. split; [|lia].
    intros Hl. specialize (Hz Hl). lia.
  - assert (Hni : i ∉ l) by (by eapply runs_not_waiting).
    destruct Hr as (Hc & t & Ht & Hst).
    destruct (semaphore_wait_slow k m i t l) as (k2 & q' & Heq' & Hw' & Hsame); try done; [lia|].
    rewrite Heq' in Heq. subst r. destruct Hres as [[=]|[c [= <- <- _]]].
    exists (l ++ [i]). simpl. split; [done|]. split.
    + intros j [Hj| ->%list_elem_of_singleton]%elem_of_app;
        (eapply same_but_wait_blocked; [exact Hsame|]).
      * apply blocked_in_insert; [auto|]. by intros ->.
      * exists (set_state TASK_BLOCKED t). split; [|done].
        apply list_lookup_insert_eq. by eapply lookup_lt_Some.
    + split; [done|]. split; [lia|done].
Qed.

Lemma sinv_post init k m g p k' m' :
  sinv init (SSys k m g p) -> semaphore_post (k, m) = Ret tt (k', m') ->
  sinv init (SSys k' m' (match sem_waiting m with Some _ => g + 1 | None => g end) (p + 1)).
Proof.
  intros (Hg & Hp & Hi) Heq. simpl in *.
  split; [simpl; case_match; lia|]. split; [simpl; lia|]. simpl. intros Hb.
  destruct Hi as (l & Hw & Hq & H0 & Hz & Hsum); [lia|].
  destruct l as [|w l].
  - rewrite semaphore_post_free in Heq by (done || lia). injection Heq as <- <-.
    exists []. simpl. pose proof Hw as Hn. unfold sem_waiters, linked in Hn. simpl in Hn. rewrite Hn.
    split; [done|]. split; [by intros i ?%not_elem_of_nil|]. split; [lia|]. split; [done|lia].
  - pose proof (linked_NoDup _ _ _ _ Hw) as Hnd. apply NoDup_cons in Hnd as [Hwl _].
    destruct (semaphore_post_wake k m w l Hw) as (tb' & q' & tw & Heq' & Hl' & Hsame & Htw).
    rewrite Heq' in Heq. injection Heq as <- <-.
    destruct Hw as (-> & _). specialize (Hz ltac:(done)).
    exists l. simpl. split; [exact Hl'|]. split.
    + intros j Hj. assert (w <> j) by (by intros ->). apply blocked_in_insert; [|done].
      eapply same_but_wait_blocked; [exact Hsame|]. apply Hq. set_solver.
    + split; [lia|]. split; [done|lia].
Qed.

Lemma sinv_step init s s' : sinv init s -> sstep s s' -> sinv init s'.
Proof.
  intros Hi Hs. destruct Hs as [k m g p i k' m' Hr Heq|k m g p i k' m' c Hr Heq
    |k m g p i k' m' b Hr Heq|k m g p k' m' Heq|k m g p k' Hb].
  - by apply (sinv_wait init k m g p i k' m' (Ret tt (k', m'))); [..|left|].
  - apply (sinv_wait init k m g p i k' m' (Yield (k', m') c)); eauto.
  - destruct Hi as (Hg & Hp & Hi). simpl in *.
    split; [simpl; case_match; lia|]. split; [done|]. simpl. intros Hb.
    destruct (Hi Hb) as (l & Hw & Hq & H0 & Hz & Hsum).
    rewrite semaphore_trywait_eq in Heq by lia.
    destruct (Z.ltb_spec 0 (count m)); injection Heq as <- <- <-; exists l; simpl;
      (split; [done|]); (split; [done|]); (split; [lia|]); (split; [|lia]); auto.
    intros Hl. specialize (Hz Hl). lia.
  - by eapply sinv_post.
  - destruct Hi as (Hg & Hp & Hi). simpl in *. split; [done|]. split; [done|]. simpl.
    intros Hlt. destruct (Hi Hlt) as (l & Hw & Hq & H0 & Hz & Hsum).
    exists l. simpl. split; [by eapply benign_linked|]. split; [|done].
    intros i Hin. eapply benign_blocked; eauto.
Qed.

(** ** Properties *)


