(* ===== verification/Condition.v ===== *)
(** * Condition

    src/src/condition.c: condition variables.  The wait functions act on the
    kernel state, the condition and the mutex it releases. *)
From stdpp Require Import strings.
From S2P Require Import Prelude Links Task WaitQueue Mutex.

(** [condition_t]. *)
Record condition_t : Type := Condition {
  cond_waiting : ptr;
  cond_name : string
}.

Definition set_cond_waiting (v : ptr) (x : condition_t) : condition_t := {|
  cond_waiting := v; cond_name := cond_name x |}.

Definition condition_init (nm : string) : condition_t := {| cond_waiting := None; cond_name := nm |}.

(** The kernel with the mutex, and the kernel with the condition, inside the
    state of a wait. *)
Definition mutex_part : lens (kern * (condition_t * mutex_t)) (kern * mutex_t).
Proof.
  refine (Lens (fun s => (fst s, snd (snd s))) (fun p s => (fst p, (fst (snd s), snd p))) _ _ _);
    [by intros []|by intros [? []]|done].
Defined.
Definition cond_part : lens (kern * (condition_t * mutex_t)) (kern * condition_t).
Proof.
  refine (Lens (fun s => (fst s, fst (snd s))) (fun p s => (fst p, (snd p, snd (snd s)))) _ _ _);
    [by intros []|by intros [? []]|done].
Defined.

(** The calling task, BLOCKED, goes to the tail of the condition's queue. *)
Definition condition_enqueue (prep : task_t -> task_t) : Cmd (kern * condition_t) unit :=
  in_kern (count_stat bump_cond) ;;;
  let* cur := in_kern get_current in
  in_kern (update_task cur prep) ;;;
  let* q := read_obj cond_waiting in
  let* q' := in_kern (add_to_wait_queue q cur) in
  write_obj (set_cond_waiting q').

(** What [condition_wait] and [condition_timedwait] do between reading the clock
    and looking at it again: wait, and take the mutex back.  [mutex_unlock]
    enables interrupts before the function does. *)
Definition wait_core (prep : task_t -> task_t) : Cmd (kern * (condition_t * mutex_t)) unit :=
  zoom cond_part (condition_enqueue prep) ;;;
  zoom mutex_part mutex_unlock ;;;
  in_kern interrupt_enable ;;;
  yield_cpu ;;;
  zoom mutex_part mutex_lock.

Definition condition_wait : Cmd (kern * (condition_t * mutex_t)) unit :=
  in_kern interrupt_disable ;;;
  wait_core (set_state TASK_BLOCKED).

(** [condition_timedwait]; [timer_get_ticks] is declared in
    src/include/timer.h and not defined in the sources. *)
Definition condition_timedwait (timer_get_ticks : kern -> Z) (timeout_ms : Z)
  : Cmd (kern * (condition_t * mutex_t)) bool :=
  in_kern interrupt_disable ;;;
  let* start := in_kern (gets timer_get_ticks) in
  wait_core (fun t => set_wake_time (u32 (start + timeout_ms)) (set_state TASK_BLOCKED t)) ;;;
  let* now := in_kern (gets timer_get_ticks) in
  ret (u32 (now - start) <? timeout_ms).

Definition condition_signal : Cmd (kern * condition_t) unit :=
  in_kern interrupt_disable ;;;
  let* q := read_obj cond_waiting in
  let* r := in_kern (remove_from_wait_queue q) in
  write_obj (set_cond_waiting (snd r)) ;;;
  match fst r with
  | Some w => in_kern (wake (Some w)) ;;; in_kern interrupt_enable
  | None => in_kern interrupt_enable
  end.

(** The loop of [condition_broadcast]. *)
Fixpoint broadcast_loop (fuel : nat) : Cmd (kern * condition_t) unit :=
  match fuel with
  | O => fail NoFuel
  | S fuel' =>
      let* q := read_obj cond_waiting in
      let* r := in_kern (remove_from_wait_queue q) in
      write_obj (set_cond_waiting (snd r)) ;;;
      match fst r with
      | Some w => in_kern (wake (Some w)) ;;; broadcast_loop fuel'
      | None => ret tt
      end
  end.

Definition condition_broadcast : Cmd (kern * condition_t) unit :=
  in_kern interrupt_disable ;;;
  let* n := in_kern (gets (fun k => length (tbl k))) in
  broadcast_loop (S n) ;;;
  in_kern interrupt_enable.

(** ** Lemmas *)
Definition cond_waiters (tb : list task_t) (c : condition_t) (l : list nat) : Prop :=
  linked link_wait tb (cond_waiting c) l.

Lemma condition_enqueue_spec prep k c i t l :
  (forall t, next_wait (prep t) = next_wait t) ->
  current k = Some i -> tbl k !! i = Some t -> cond_waiters (tbl k) c l -> i ∉ l ->
  exists k' q', condition_enqueue prep (k, c) = Ret tt (k', set_cond_waiting q' c) /\
    cond_waiters (tbl k') (set_cond_waiting q' c) (l ++ [i]) /\
    same_but_wait (<[i:=prep t]> (tbl k)) (tbl k') /\
    current k' = Some i /\ irq_on k' = irq_on k /\
    frames (l ++ [i]) (tbl k) (tbl k').
Proof.
  intros Hp Hc Hi Hw Hni. unfold condition_enqueue.
  erewrite bind_Ret by (by apply in_kern_Ret).
  erewrite bind_Ret by (by apply in_kern_Ret).
  set (k1 := set_sync_stats _ _).
  assert (current k1 = Some i) as -> by done.
  assert (Hk1 : tbl k1 = tbl k) by done.
  erewrite bind_Ret by (apply in_kern_Ret, update_task_Ret; by rewrite Hk1).
  erewrite bind_Ret by reflexivity. simpl. rewrite Hk1.
  set (k2 := set_tbl _ _).
  assert (Hwake : forall q l0, linked link_wait (tbl k) q l0 -> linked link_wait (tbl k2) q l0).
  { intros q l0 Hl0. eapply chain_field; [exact Hi| |exact Hl0]. apply Hp. }
  destruct (add_to_wait_queue_spec k2 (cond_waiting c) l i (prep t))
    as (q' & l' & Hadd & Hl' & Hsame & Hfr); [by apply Hwake|by apply list_lookup_insert_eq; eapply lookup_lt_Some|done|].
  erewrite bind_Ret by (by apply in_kern_Ret).
  eexists _, q'. split; [reflexivity|]. split; [done|]. split; [done|]. split; [done|].
  split; [done|]. intros p lo Hlo Hd. apply Hfr; [by apply Hwake|done].
Qed.

(** The first task of the queue, woken. *)
Lemma condition_signal_wake k c w l :
  cond_waiters (tbl k) c (w :: l) ->
  exists tb' q' tw, condition_signal (k, c)
      = Ret tt (irq_enabled (set_tbl (<[w:=set_state TASK_READY tw]> tb') k), set_cond_waiting q' c) /\
    linked link_wait (<[w:=set_state TASK_READY tw]> tb') q' l /\
    same_but_wait (tbl k) tb' /\ tb' !! w = Some tw /\
    frames [w] (tbl k) (<[w:=set_state TASK_READY tw]> tb').
Proof.
  intros Hw. unfold condition_signal.
  erewrite bind_Ret by (by apply in_kern_Ret).
  erewrite bind_Ret by reflexivity. simpl.
  destruct (remove_from_wait_queue_spec (set_irq_on false k) _ _ _ Hw) as (q' & tb' & Hr & Hl & Hs & Hfr).
  erewrite bind_Ret by (by apply in_kern_Ret).
  destruct (chain_lookup _ _ _ _ _ w Hw) as [t Ht]; [set_solver|].
  destruct (same_but_wait_state _ _ _ _ Hs Ht) as (tw & Htw & _).
  erewrite bind_Ret by reflexivity. simpl.
  erewrite bind_Ret by (by apply in_kern_Ret, wake_Ret).
  exists tb', q', tw. split; [by destruct k as [[] ? ?]|].
  split; [by apply linked_wake|]. split; [done|]. split; [done|].
  eapply frames_trans; [exact Hfr|]. apply frames_insert. set_solver.
Qed.

Lemma condition_signal_empty k c :
  cond_waiters (tbl k) c [] ->
  condition_signal (k, c) = Ret tt (irq_enabled k, set_cond_waiting None c).
Proof.
  intros Hw. unfold condition_signal.
  erewrite bind_Ret by (by apply in_kern_Ret).
  erewrite bind_Ret by reflexivity. simpl.
  erewrite bind_Ret by (by apply in_kern_Ret, remove_from_wait_queue_nil).
  erewrite bind_Ret by reflexivity. simpl. by destruct k.
Qed.

(** [ready l tb tb']: the tasks of [l] are READY in [tb'], and the state of
    every other task is the one it has in [tb]. *)
Definition ready (l : list nat) (tb tb' : list task_t) : Prop :=
  forall j, state <$> tb' !! j = if decide (j ∈ l) then (fun _ => TASK_READY) <$> tb !! j else state <$> tb !! j.

Lemma same_but_wait_states tb tb' j : same_but_wait tb tb' -> state <$> tb !! j = state <$> tb' !! j.
Proof.
  intros H. specialize (H j). destruct (tb !! j), (tb' !! j); simplify_eq/=; try done.
  congruence.
Qed.

Lemma broadcast_loop_spec fuel k c l :
  cond_waiters (tbl k) c l -> (length l < fuel)%nat ->
  exists tb', broadcast_loop fuel (k, c) = Ret tt (set_tbl tb' k, set_cond_waiting None c) /\
              ready l (tbl k) tb' /\ frames l (tbl k) tb'.
Proof.
  revert k c l. induction fuel as [|fuel IH]; intros k c l Hw Hf; [lia|]. simpl.
  erewrite bind_Ret by reflexivity. simpl. destruct l as [|w l].
  - erewrite bind_Ret by (by apply in_kern_Ret, remove_from_wait_queue_nil).
    erewrite bind_Ret by reflexivity. simpl. exists (tbl k). split; [by destruct k as [[] ? ?]|].
    split; [|by intros p lo Hlo _]. intros j. by rewrite decide_False by (by apply not_elem_of_nil).
  - destruct (remove_from_wait_queue_spec k _ _ _ Hw) as (q' & tb' & Hr & Hl & Hs & Hfr).
    erewrite bind_Ret by (by apply in_kern_Ret).
    destruct (chain_lookup _ _ _ _ _ w Hw) as [t Ht]; [set_solver|].
    destruct (same_but_wait_state _ _ _ _ Hs Ht) as (tw & Htw & _).
    erewrite bind_Ret by reflexivity. simpl.
    erewrite bind_Ret by (by apply in_kern_Ret, wake_Ret).
    rewrite set_tbl_twice, tbl_set_tbl.
    destruct (IH (set_tbl (<[w:=set_state TASK_READY tw]> tb') k) (set_cond_waiting q' c) l)
      as (tb2 & Heq & Hready & Hfr2); [by apply linked_wake|simpl in Hf; lia|].
    rewrite Heq, set_tbl_twice. exists tb2. split; [done|]. split.
    2: { intros p lo Hlo Hd. apply Hfr2; [|intros j Hj; specialize (Hd j Hj); set_solver].
         apply linked_wake; [|done]. apply Hfr; [done|]. intros j Hj. specialize (Hd j Hj). set_solver. }
    intros j. rewrite Hready, tbl_set_tbl. rewrite (same_but_wait_states _ _ j Hs).
    assert (Hdom : (fun _ => TASK_READY) <$> tbl k !! j = (fun _ => TASK_READY) <$> tb' !! j).
    { pose proof (same_but_wait_states _ _ j Hs) as E. by destruct (tbl k !! j), (tb' !! j). }
    rewrite Hdom. destruct (decide (j = w)) as [->|Hne].
    + rewrite list_lookup_insert_eq by (by eapply lookup_lt_Some).
      rewrite (decide_True (P := w ∈ w :: l)) by set_solver. rewrite Htw. by case_decide.
    + rewrite list_lookup_insert_ne by done. repeat case_decide; set_solver.
Qed.

Lemma wait_core_unfold prep k c m k1 c1 k2 m2 :
  condition_enqueue prep (k, c) = Ret tt (k1, c1) ->
  mutex_unlock (k1, m) = Ret tt (k2, m2) ->
  wait_core prep (k, (c, m)) = Yield (irq_enabled k2, (c1, m2)) (fun s => zoom mutex_part mutex_lock s).
Proof.
  intros He Hu. unfold wait_core.
  erewrite bind_Ret by (apply (zoom_Ret cond_part); exact He). simpl.
  erewrite bind_Ret by (apply (zoom_Ret mutex_part); exact Hu). simpl.
  by erewrite bind_Ret by (by apply in_kern_Ret).
Qed.

Lemma condition_wait_unfold k c m k1 c1 k2 m2 :
  condition_enqueue (set_state TASK_BLOCKED) (set_irq_on false k, c) = Ret tt (k1, c1) ->
  mutex_unlock (k1, m) = Ret tt (k2, m2) ->
  condition_wait (k, (c, m)) =
  Yield (irq_enabled k2, (c1, m2)) (fun s => zoom mutex_part mutex_lock s).
Proof.
  intros He Hu. unfold condition_wait.
  erewrite bind_Ret by (by apply in_kern_Ret).
  by eapply wait_core_unfold.
Qed.

Lemma states_blocked tb i : state <$> tb !! i = Some TASK_BLOCKED -> blocked_in tb i.
Proof. destruct (tb !! i) as [t|] eqn:E; [|done]. intros [= H]. by exists t. Qed.

Lemma condition_broadcast_spec k c l :
  cond_waiters (tbl k) c l ->
  exists tb', condition_broadcast (k, c) = Ret tt (irq_enabled (set_tbl tb' k), set_cond_waiting None c) /\
    ready l (tbl k) tb' /\ frames l (tbl k) tb'.
Proof.
  intros Hw. unfold condition_broadcast.
  erewrite bind_Ret by (by apply in_kern_Ret).
  erewrite bind_Ret by (by apply in_kern_Ret).
  destruct (broadcast_loop_spec (S (length (tbl (set_irq_on false k)))) (set_irq_on false k) c l)
    as (tb' & Heq & Hr & Hfr); [done|apply linked_length in Hw; simpl; unfold tbl in *; simpl; lia|].
  erewrite bind_Ret by exact Heq. exists tb'. split; [by destruct k as [[] ? ?]|]. by split.
Qed.

(** ** Properties *)

(** [condition_broadcast] always ends, whatever the length of the queue:
    it leaves the condition without waiting tasks, every task that waited is
    READY and no other task's state changes. *)
Theorem condition_broadcast_wakes_all (k : kern) (c : condition_t) (l : list nat)
    (Hw : cond_waiters (tbl k) c l) :
  exists k', condition_broadcast (k, c) = Ret tt (k', set_cond_waiting None c) /\
    irq_on k' = true /\ ready l (tbl k) (tbl k').
Proof.
  destruct (condition_broadcast_spec k c l Hw) as (tb' & Heq & Hr & _).
  eexists. split; [exact Heq|]. split; [done|exact Hr].
Qed.


Lemma condition_broadcast_wakes_all_witness :
  exists k', condition_broadcast (queued_kern, {| cond_waiting := Some 1%nat; cond_name := "c" |})
             = Ret tt (k', {| cond_waiting := None; cond_name := "c" |}) /\
             state <$> tbl k' !! 2%nat = Some TASK_READY.
Proof.
  destruct (condition_broadcast_wakes_all queued_kern
              {| cond_waiting := Some 1%nat; cond_name := "c" |} [1%nat; 2%nat])
    as (k' & Heq & _ & Hr).
  - exact queued_waiters.
  - exists k'. split; [exact Heq|]. specialize (Hr 2%nat).
    rewrite decide_True in Hr by set_solver. exact Hr.
Defined.

