(* ===== verification/Guarded.v ===== *)
(** * Guarded

    The pattern of the modules that keep a table behind one mutex
    (src/src/mm_pra.c, shared_mem.c, fs_core.c, storage.c and others): lock, work
    on the data, unlock on every way out.  [guarded body] is such an operation on
    a state of the kernel, the mutex and the data. *)
From stdpp Require Import strings.
From S2P Require Import Prelude Links Task WaitQueue Mutex.

Section Guarded.
Context {D : Type}.

Definition g_mutex : lens (kern * (mutex_t * D)) (kern * mutex_t).
Proof.
  refine (Lens (fun s => (fst s, fst (snd s))) (fun p s => (fst p, (snd p, snd (snd s)))) _ _ _);
    [by intros [] []|by intros [? []]|done].
Defined.
Definition g_data : lens (kern * (mutex_t * D)) D.
Proof.
  refine (Lens (fun s => snd (snd s)) (fun d s => (fst s, (fst (snd s), d))) _ _ _);
    [done|by intros [? []]|done].
Defined.

Definition guarded {A : Type} (body : Cmd D A) : Cmd (kern * (mutex_t * D)) A :=
  zoom g_mutex mutex_lock ;;;
  let* r := zoom g_data body in
  zoom g_mutex mutex_unlock ;;;
  ret r.

(** The mutex after an uncontended operation. *)
Definition released (m : mutex_t) : mutex_t :=
  set_owner None (set_locked 0 (set_waiting_tasks None m)).

Lemma guarded_free {A} (body : Cmd D A) k m d a d' :
  locked m = 0 -> waiting_tasks m = None -> body d = Ret a d' ->
  guarded body (k, (m, d)) = Ret a (irq_enabled k, (released m, d')).
Proof.
  intros Hl Hw Hb. unfold guarded.
  rewrite (bind_Ret _ _ _ _ _ (zoom_Ret g_mutex _ (k, (m, d)) _ _ (mutex_lock_free k m Hl))).
  erewrite bind_Ret by (apply (zoom_Ret g_data); exact Hb).
  erewrite bind_Ret.
  2: { apply (zoom_Ret g_mutex). apply mutex_unlock_last; [done|]. unfold waiters. simpl. by rewrite Hw. }
  destruct m. unfold released, ret. simpl. by destruct k.
Qed.

Lemma guarded_stop {A} (body : Cmd D A) k m d e :
  locked m = 0 -> body d = Stop e -> guarded body (k, (m, d)) = Stop e.
Proof.
  intros Hl Hb. unfold guarded.
  rewrite (bind_Ret _ _ _ _ _ (zoom_Ret g_mutex _ (k, (m, d)) _ _ (mutex_lock_free k m Hl))).
  apply bind_Stop. unfold zoom. simpl. by rewrite Hb.
Qed.

(** ** Under every schedule

    [ready i]: task [i] runs, is in the table, and is not in the mutex's queue. *)
Definition ready (i : nat) (s : kern * (mutex_t * D)) : Prop :=
  current (fst s) = Some i /\ (exists t, tbl (fst s) !! i = Some t) /\
  exists l, waiters (tbl (fst s)) (fst (snd s)) l /\ i ∉ l.

Definition data_ok (Inv : D -> Prop) (s : kern * (mutex_t * D)) : Prop := Inv (snd (snd s)).

(** As long as the other tasks keep [Inv], a guarded operation whose body returns
    from every state with [Inv] is atomic: its result and the data it leaves are
    the body's, run on one state with [Inv]. *)
Lemma guarded_always {A} i (Inv : D -> Prop) (body : Cmd D A) s :
  ready i s -> data_ok Inv s ->
  (forall d, Inv d -> exists a d', body d = Ret a d') ->
  always (data_ok Inv) (fun s => ready i s /\ data_ok Inv s)
    (fun a s => exists d, Inv d /\ body d = Ret a (snd (snd s))) (guarded body s).
Proof.
  destruct s as [k [m d]]. intros Hr Hd Hbody. unfold guarded.
  apply (always_bind _ _ _ _ _ (fun _ s => ready i s /\ data_ok Inv s)).
  - destruct Hr as (Hc & (t & Ht) & l & Hw & Hi). unfold zoom. simpl in *.
    destruct (decide (locked m = 0)) as [H0|H0].
    + rewrite mutex_lock_free by done. simpl. split; [|done]. split; [done|]. split; [by exists t|].
      by exists l.
    + destruct (mutex_lock_busy k m i t l) as (k' & q' & Heq & _); try done.
      rewrite Heq. simpl. split; [done|]. intros [k2 [m2 d2]] H2. exact H2.
  - clear k m d Hr Hd. intros [] [k [m d]] [(Hc & (t & Ht) & l & Hw & Hi) Hd].
    destruct (Hbody d Hd) as (a & d' & Hb).
    erewrite bind_Ret by (apply (zoom_Ret g_data); exact Hb). simpl in *.
    assert (exists k' m', mutex_unlock (k, m) = Ret tt (k', m')) as (k' & m' & Hu).
    { destruct (decide (owner m = current k)) as [Ho|Ho].
      - destruct l as [|w l]; [rewrite mutex_unlock_last by done; eauto|].
        destruct (mutex_unlock_handoff k m w l Ho Hw) as (tb & q & tw & -> & _). eauto.
      - rewrite mutex_unlock_foreign by done. eauto. }
    erewrite bind_Ret by (apply (zoom_Ret g_mutex); exact Hu). simpl. eauto.
Qed.
End Guarded.

(** Task 0 of [two_tasks] is ready. *)
Lemma ready_two {D} (nm : string) (d : D) : ready 0 (two_tasks 0, (mutex_init nm, d)).
Proof.
  split; [done|]. split; [by exists zero_task|]. exists []. split; [done|]. apply not_elem_of_nil.
Qed.
