(* ===== verification/Monitor.v ===== *)
(** * Monitor

    The pattern src/src/rwlock.c, src/src/msg_queue.c and src/src/pipe.c share: an
    object protected by a mutex, with two condition variables to wait for its
    state to change.  A [lens] says where the three sit in the object; the
    lemmas say what locking, waiting, signalling and unlocking do to the object's
    data and to the wait queues, whatever the other tasks do at the points where
    the calling task gives the processor away. *)
From S2P Require Import Prelude Links Task WaitQueue Mutex Condition.

Section Monitor.
Context {X : Type} (mon : lens X (mutex_t * (condition_t * condition_t))).

(** The first ([false]) and the second ([true]) condition variable. *)
Definition pair_get (w : bool) (p : condition_t * condition_t) : condition_t :=
  if w then snd p else fst p.
Definition pair_set (w : bool) (c : condition_t) (p : condition_t * condition_t) : condition_t * condition_t :=
  if w then (fst p, c) else (c, snd p).

Definition mon_mutex (x : X) : mutex_t := fst (view mon x).
Definition mon_cond (w : bool) (x : X) : condition_t := pair_get w (snd (view mon x)).

Definition mutex_lens : lens X mutex_t.
Proof using mon.
  refine (Lens mon_mutex (fun m x => upd mon (m, snd (view mon x)) x) _ _ _); unfold mon_mutex.
  - intros. by rewrite view_upd.
  - intros. by rewrite <- surjective_pairing, upd_view.
  - intros. by rewrite view_upd, upd_upd.
Defined.
Definition cond_lens (w : bool) : lens X condition_t.
Proof using mon.
  refine (Lens (mon_cond w) (fun c x => upd mon (mon_mutex x, pair_set w c (snd (view mon x))) x) _ _ _);
    unfold mon_cond, mon_mutex; intros; rewrite ?view_upd, ?upd_upd; simpl.
  - by destruct w.
  - rewrite <- (upd_view mon s) at 5. f_equal. by destruct w, (view mon s) as [? []].
  - by destruct w.
Defined.
Definition wait_lens (w : bool) : lens X (condition_t * mutex_t).
Proof using mon.
  refine (Lens (fun x => (mon_cond w x, mon_mutex x))
               (fun p x => upd mon (snd p, pair_set w (fst p) (snd (view mon x))) x) _ _ _);
    unfold mon_cond, mon_mutex; intros; rewrite ?view_upd, ?upd_upd; simpl.
  - by destruct w, t.
  - rewrite <- (upd_view mon s) at 5. f_equal. by destruct w, (view mon s) as [? []].
  - by destruct w.
Defined.

(** The calls of the primitives on the object's parts. *)
Definition mon_lock : Cmd (kern * X) unit := zoom (lift mutex_lens) mutex_lock.
Definition mon_trylock : Cmd (kern * X) bool := zoom (lift mutex_lens) mutex_trylock.
Definition mon_unlock : Cmd (kern * X) unit := zoom (lift mutex_lens) mutex_unlock.
Definition mon_wait (w : bool) : Cmd (kern * X) unit := zoom (lift (wait_lens w)) condition_wait.
Definition mon_timedwait (w : bool) (timer_get_ticks : kern -> Z) (timeout : Z) : Cmd (kern * X) bool :=
  zoom (lift (wait_lens w)) (condition_timedwait timer_get_ticks timeout).
Definition mon_signal (w : bool) : Cmd (kern * X) unit := zoom (lift (cond_lens w)) condition_signal.
Definition mon_broadcast (w : bool) : Cmd (kern * X) unit := zoom (lift (cond_lens w)) condition_broadcast.

(** ** Assumptions on the wait queues

    The calls are made by task [i].  [queues_ok i]: [i] is the current task, is
    in the table and waits nowhere; the three wait queues of the object are
    well-formed and disjoint. *)
Definition queues_ok (i : nat) (s : kern * X) : Prop :=
  current (fst s) = Some i /\ (exists t, tbl (fst s) !! i = Some t) /\
  exists (lm : list nat) (lc : bool -> list nat),
    waiters (tbl (fst s)) (mon_mutex (snd s)) lm /\
    (forall w, cond_waiters (tbl (fst s)) (mon_cond w (snd s)) (lc w)) /\
    NoDup (i :: lm ++ lc false ++ lc true).

(** [D] says something of the object's data only. *)
Definition on_data (D : X -> Prop) : Prop := forall v x, D x -> D (upd mon v x).
Definition between (i : nat) (D : X -> Prop) (s : kern * X) : Prop := queues_ok i s /\ D (snd s).
Definition data_is (D : X -> Prop) (s : kern * X) : Prop := D (snd s).

Lemma NoDup_queues (i : nat) (lm : list nat) (lc : bool -> list nat) w :
  NoDup (i :: lm ++ lc false ++ lc true) ->
  (i ∉ lm) /\ (i ∉ lc w) /\ (forall j, j ∈ lm -> j ∉ lc w ++ [i]) /\
  (forall j, j ∈ lc (negb w) -> j ∉ lc w ++ [i]) /\ NoDup lm /\ (forall v, NoDup (lc v)).
Proof.
  intros [Hi Hnd]%NoDup_cons. apply NoDup_app in Hnd as (H1 & Hd & Hnd).
  apply NoDup_app in Hnd as (H2 & Hd2 & H3).
  assert ((i ∉ lm) /\ (i ∉ lc false) /\ (i ∉ lc true)) as (Ha & Hb & Hc) by set_solver.
  split; [done|]. split; [by destruct w|]. split; [|split; [|split; [done|by intros []]]].
  - intros j Hj. specialize (Hd j Hj). destruct w; set_solver.
  - intros j Hj. destruct w; simpl in *; [specialize (Hd2 j Hj); set_solver|].
    intros [Hj2|Hj2]%elem_of_app; [by apply (Hd2 j Hj2)|set_solver].
Qed.

Lemma mutex_unlock_total k m lm :
  waiters (tbl k) m lm -> exists k' m', mutex_unlock (k, m) = Ret tt (k', m').
Proof.
  intros Hw. destruct (decide (owner m = current k)) as [Ho|Ho].
  - destruct lm as [|w lm]; [rewrite mutex_unlock_last by done; eauto|].
    destruct (mutex_unlock_handoff k m w lm Ho Hw) as (tb & q & tw & -> & _). eauto.
  - rewrite mutex_unlock_foreign by done. eauto.
Qed.

Lemma mon_unlock_spec i s :
  queues_ok i s -> exists k' v, mon_unlock s = Ret tt (k', upd mon v (snd s)).
Proof.
  destruct s as [k x]. intros (_ & _ & lm & lc & Hm & _).
  destruct (mutex_unlock_total _ _ _ Hm) as (k' & m' & Heq).
  eexists k', _. unfold mon_unlock. by rewrite (zoom_Ret (lift mutex_lens) _ _ tt (k', m')).
Qed.

(** The object's data may be written while the mutex is held. *)
Lemma queues_ok_write i k x x' : view mon x' = view mon x -> queues_ok i (k, x) -> queues_ok i (k, x').
Proof. intros Hv. unfold queues_ok, mon_mutex, mon_cond. simpl. by rewrite Hv. Qed.

Lemma mon_lock_free i s :
  queues_ok i s -> locked (mon_mutex (snd s)) = 0 ->
  exists k' v, mon_lock s = Ret tt (k', upd mon v (snd s)) /\ queues_ok i (k', upd mon v (snd s)).
Proof.
  destruct s as [k x]. intros (Hc & Ht & lm & lc & Hm & Hcw & Hnd) H0. simpl in *. eexists _, _. split.
  { unfold mon_lock. by rewrite (zoom_Ret (lift mutex_lens) _ (k, x) _ _ (mutex_lock_free k (mon_mutex x) H0)). }
  split; [done|]. split; [exact Ht|]. exists lm, lc. simpl. unfold mon_mutex, mon_cond. rewrite view_upd.
  split; [exact Hm|]. split; [exact Hcw|exact Hnd].
Qed.

Lemma mutex_lock_always i D k x :
  on_data D -> between i D (k, x) ->
  always (fun s => D (snd s)) (between i D) (fun _ => between i D) (mon_lock (k, x)).
Proof.
  intros HD [Hq Hx]. pose proof Hq as (Hc & (t & Ht) & lm & lc & Hm & Hcw & Hnd).
  destruct (NoDup_queues _ _ _ true Hnd) as (Him & _). simpl in *.
  unfold mon_lock, zoom. simpl. destruct (decide (locked (mon_mutex x) = 0)) as [H0|H0].
  - rewrite mutex_lock_free by done. simpl. split; [|by apply HD].
    split; [done|]. split; [by exists t|]. exists lm, lc. simpl. unfold mon_mutex, mon_cond. rewrite view_upd.
    split; [done|]. split; [|done]. intros w. by apply Hcw.
  - destruct (mutex_lock_busy k (mon_mutex x) i t lm) as (k' & q' & Heq & _); try done.
    rewrite Heq. simpl. split; [by apply HD|]. intros [k2 x2] H2. simpl.
    unfold mon_mutex. by rewrite <- surjective_pairing, upd_view.
Qed.

Lemma mon_lock_always i D s :
  on_data D -> between i D s ->
  always (data_is D) (between i D) (fun _ => between i D) (mon_lock s).
Proof. destruct s. apply mutex_lock_always. Qed.

Lemma wait_core_always w i D prep s :
  on_data D -> (forall t, next_wait (prep t) = next_wait t) -> between i D s ->
  always (data_is D) (between i D) (fun _ => between i D) (zoom (lift (wait_lens w)) (wait_core prep) s).
Proof.
  intros HD Hprep. destruct s as [k x]. intros [Hq Hx].
  pose proof Hq as (Hc & (t & Ht) & lm & lc & Hm & Hcw & Hnd). simpl in *.
  destruct (NoDup_queues _ _ _ w Hnd) as (Him & Hiw & Hmw & _).
  destruct (condition_enqueue_spec prep k (mon_cond w x) i t (lc w))
    as (k1 & q' & He & _ & _ & _ & _ & Hfr); [done|done|done|by apply Hcw|done|].
  assert (Hm1 : waiters (tbl k1) (mon_mutex x) lm) by (by apply Hfr).
  destruct (mutex_unlock_total _ _ _ Hm1) as (k2 & m2 & Hu).
  unfold zoom at 1. simpl. rewrite (wait_core_unfold _ _ _ _ _ _ _ _ He Hu). simpl.
  split; [by apply HD|]. intros [k3 x3] [Hq3 Hx3]. simpl.
  pose proof (mutex_lock_always i D k3 x3 HD (conj Hq3 Hx3)) as Hlock.
  unfold mon_lock, zoom in Hlock. simpl in Hlock. unfold zoom. simpl.
  destruct (decide (locked (mon_mutex x3) = 0)) as [H0|H0].
  - rewrite mutex_lock_free in * by done. simpl in *.
    replace (pair_set w (mon_cond w x3) (snd (view mon x3))) with (snd (view mon x3)); [done|].
    unfold mon_cond. by destruct w, (snd (view mon x3)).
  - destruct Hq3 as (Hc3 & (t3 & Ht3) & lm3 & lc3 & Hm3 & _ & Hnd3).
    destruct (NoDup_queues _ _ _ w Hnd3) as (Him3 & _).
    destruct (mutex_lock_busy k3 (mon_mutex x3) i t3 lm3) as (k4 & q4 & Heq & _); try done.
    rewrite Heq. simpl. split; [by apply HD|]. intros [k5 x5] [Hq5 Hx5]. simpl.
    replace (pair_set w (mon_cond w x5) (snd (view mon x5))) with (snd (view mon x5))
      by (unfold mon_cond; by destruct w, (snd (view mon x5))).
    unfold mon_mutex. by rewrite <- surjective_pairing, upd_view.
Qed.

Lemma wait_lens_id w x : upd (wait_lens w) (view (wait_lens w) x) x = x.
Proof. apply upd_view. Qed.

Lemma lift_wait_id w (k k' : kern) x :
  upd (lift (wait_lens w)) (k', view (wait_lens w) x) (k, x) = (k', x).
Proof.
  change (upd (lift (wait_lens w)) (k', view (wait_lens w) x) (k, x))
    with (k', upd (wait_lens w) (view (wait_lens w) x) x). by rewrite wait_lens_id.
Qed.

(** A kernel step that touches neither the tasks nor who runs, inside a wait. *)
Lemma zoom_in_kern_between w i D (c : Cmd kern unit) k x k' :
  c k = Ret tt k' -> k_tasks k' = k_tasks k -> between i D (k, x) ->
  exists s', zoom (lift (wait_lens w)) (in_kern c) (k, x) = Ret tt s' /\ between i D s'.
Proof.
  intros Hc Hk Hb. exists (k', x). split.
  - rewrite (zoom_Ret (lift (wait_lens w)) _ _ tt (k', view (wait_lens w) x)) by (by apply in_kern_Ret).
    by rewrite lift_wait_id.
  - unfold between, queues_ok, current, tbl in *. simpl in *. by rewrite Hk.
Qed.

Lemma mon_wait_always w i D s :
  on_data D -> between i D s ->
  always (data_is D) (between i D) (fun _ => between i D) (mon_wait w s).
Proof.
  intros HD Hs. unfold mon_wait, condition_wait.
  apply (always_zoom_bind _ _ _ _ _ _ (fun _ => between i D)).
  - destruct s as [k x]. destruct (zoom_in_kern_between w i D interrupt_disable k x _ eq_refl eq_refl Hs)
      as (s' & -> & Hb). exact Hb.
  - intros [] s' Hb. by apply (wait_core_always w i D (set_state TASK_BLOCKED)).
Qed.

Lemma mon_timedwait_always w i D clock timeout s :
  on_data D -> between i D s ->
  always (data_is D) (between i D) (fun _ => between i D) (mon_timedwait w clock timeout s).
Proof.
  intros HD Hs. unfold mon_timedwait, condition_timedwait.
  apply (always_zoom_bind _ _ _ _ _ _ (fun _ => between i D)).
  { destruct s as [k x]. destruct (zoom_in_kern_between w i D interrupt_disable k x _ eq_refl eq_refl Hs)
      as (s' & -> & Hb). exact Hb. }
  intros [] [k x] Hb.
  rewrite (zoom_bind_Ret _ _ _ _ (clock k) (k, view (wait_lens w) x)) by (by apply in_kern_Ret).
  rewrite lift_wait_id.
  apply (always_zoom_bind _ _ _ _ _ _ (fun _ => between i D)).
  - by apply wait_core_always.
  - intros [] [k2 x2] Hb2.
    rewrite (zoom_bind_Ret _ _ _ _ (clock k2) (k2, view (wait_lens w) x2)) by (by apply in_kern_Ret).
    rewrite lift_wait_id. unfold zoom, ret. cbn [pzoom].
    change (view (lift (wait_lens w)) (k2, x2)) with (k2, view (wait_lens w) x2).
    by rewrite lift_wait_id.
Qed.

(** Signalling takes the first waiting task, if any, off its queue. *)
Lemma mon_signal_spec w i s :
  queues_ok i s ->
  exists k' v, mon_signal w s = Ret tt (k', upd mon v (snd s)) /\ queues_ok i (k', upd mon v (snd s)).
Proof.
  destruct s as [k x]. intros (Hc & (t & Ht) & lm & lc & Hm & Hcw & Hnd). simpl in *.
  destruct (NoDup_queues _ _ _ w Hnd) as (_ & Hiw & Hmw & Hother & _).
  pose proof (Hcw w) as Hw.
  assert (Hset : forall c v, mon_cond v (upd mon (mon_mutex x, pair_set w c (snd (view mon x))) x)
                 = if decide (v = w) then c else mon_cond v x).
  { intros c v. unfold mon_cond. rewrite view_upd. by destruct v, w. }
  destruct (lc w) as [|h l] eqn:El.
  - eexists _, _. split; [apply (zoom_Ret (lift (cond_lens w))); by apply condition_signal_empty|].
    split; [done|]. split; [by exists t|]. exists lm, lc. simpl. unfold mon_mutex at 1. rewrite view_upd.
    split; [done|]. split; [|done]. intros v. rewrite Hset. case_decide as Hv; [|apply Hcw].
    subst v. rewrite El. done.
  - destruct (condition_signal_wake k (mon_cond w x) h l Hw) as (tb & q & tw & Heq & Hl & Hs & Htw & Hfr).
    eexists _, _. split; [apply (zoom_Ret (lift (cond_lens w))); exact Heq|].
    split; [done|]. split.
    { unfold tbl. simpl. rewrite list_lookup_insert_ne by set_solver.
      destruct (same_but_wait_state _ _ _ _ Hs Ht) as (ti & Hti & _). by exists ti. }
    exists lm, (fun v => if decide (v = w) then l else lc v). simpl.
    unfold mon_mutex at 1. rewrite view_upd. split; [|split].
    + apply Hfr; [exact Hm|]. intros j Hj. specialize (Hmw j Hj). set_solver.
    + intros v. rewrite Hset. case_decide as Hv; [exact Hl|]. apply Hfr; [apply Hcw|].
      assert (v = negb w) as -> by (by destruct v, w). intros j Hj. specialize (Hother j Hj). set_solver.
    + eapply sublist_NoDup; [exact Hnd|]. constructor. apply sublist_app; [done|].
      destruct w; simpl in *; rewrite El.
      * apply sublist_app; [done|]. by constructor.
      * apply sublist_app; [by constructor|done].
Qed.

(** Broadcasting empties one queue. *)
Lemma mon_broadcast_spec w i s :
  queues_ok i s ->
  exists k' v, mon_broadcast w s = Ret tt (k', upd mon v (snd s)) /\ queues_ok i (k', upd mon v (snd s)).
Proof.
  destruct s as [k x]. intros (Hc & (t & Ht) & lm & lc & Hm & Hcw & Hnd). simpl in *.
  destruct (NoDup_queues _ _ _ w Hnd) as (_ & Hiw & Hmw & Hother & _).
  destruct (condition_broadcast_spec k (mon_cond w x) (lc w) (Hcw w)) as (tb & Heq & Hr & Hfr).
  eexists _, _. split; [apply (zoom_Ret (lift (cond_lens w))); exact Heq|].
  split; [done|]. split.
  { specialize (Hr i). unfold tbl at 1. simpl. rewrite decide_False in Hr by done.
    rewrite Ht in Hr. destruct (tb !! i) as [t'|]; [by exists t'|done]. }
  exists lm, (fun v => if decide (v = w) then [] else lc v). simpl.
  unfold mon_mutex at 1. rewrite view_upd. split; [|split].
  - apply Hfr; [exact Hm|]. intros j Hj. specialize (Hmw j Hj). set_solver.
  - intros v. unfold mon_cond. rewrite view_upd.
    assert (pair_get v (pair_set w (set_cond_waiting None (pair_get w (snd (view mon x)))) (snd (view mon x)))
            = if decide (v = w) then set_cond_waiting None (mon_cond w x) else mon_cond v x) as Hget
      by (by destruct v, w).
    simpl. rewrite Hget. case_decide as Hv; [done|]. apply Hfr; [apply Hcw|].
    assert (v = negb w) as -> by (by destruct v, w). intros j Hj. specialize (Hother j Hj). set_solver.
  - eapply sublist_NoDup; [exact Hnd|]. constructor. apply sublist_app; [done|].
    destruct w; simpl; [rewrite app_nil_r; by apply sublist_inserts_r|by apply sublist_inserts_l].
Qed.
End Monitor.
