(* ===== verification/RwLock.v ===== *)
(** * RwLock

    src/src/rwlock.c: readers-writer locks built from a mutex and two condition
    variables.  The loops that wait are bounded by a fuel argument, the number of
    times the caller is woken before it gives up in the model; the properties
    hold for every fuel and every behaviour of the other tasks. *)
From stdpp Require Import strings.
From S2P Require Import Prelude Links Task WaitQueue Mutex Condition Monitor.

(** [rwlock_t]; [readers_count] is an [int32_t]. *)
Record rwlock_t : Type := RwLock {
  rw_mutex : mutex_t;
  readers : condition_t;
  writers : condition_t;
  readers_count : Z;
  writer_active : bool;
  writer_owner : ptr;
  rw_name : string
}.

Definition set_rw_mutex (v : mutex_t) (x : rwlock_t) : rwlock_t := {|
  rw_mutex := v; readers := readers x; writers := writers x;
  readers_count := readers_count x; writer_active := writer_active x; writer_owner := writer_owner x;
  rw_name := rw_name x |}.
Definition set_readers (v : condition_t) (x : rwlock_t) : rwlock_t := {|
  rw_mutex := rw_mutex x; readers := v; writers := writers x;
  readers_count := readers_count x; writer_active := writer_active x; writer_owner := writer_owner x;
  rw_name := rw_name x |}.
Definition set_writers (v : condition_t) (x : rwlock_t) : rwlock_t := {|
  rw_mutex := rw_mutex x; readers := readers x; writers := v;
  readers_count := readers_count x; writer_active := writer_active x; writer_owner := writer_owner x;
  rw_name := rw_name x |}.
Definition set_readers_count (v : Z) (x : rwlock_t) : rwlock_t := {|
  rw_mutex := rw_mutex x; readers := readers x; writers := writers x;
  readers_count := v; writer_active := writer_active x; writer_owner := writer_owner x;
  rw_name := rw_name x |}.
Definition set_writer_active (v : bool) (x : rwlock_t) : rwlock_t := {|
  rw_mutex := rw_mutex x; readers := readers x; writers := writers x;
  readers_count := readers_count x; writer_active := v; writer_owner := writer_owner x;
  rw_name := rw_name x |}.
Definition set_writer_owner (v : ptr) (x : rwlock_t) : rwlock_t := {|
  rw_mutex := rw_mutex x; readers := readers x; writers := writers x;
  readers_count := readers_count x; writer_active := writer_active x; writer_owner := v;
  rw_name := rw_name x |}.

Definition rwlock_init (nm : string) : rwlock_t := {|
  rw_mutex := mutex_init "rwlock_mutex"; readers := condition_init "rwlock_readers";
  writers := condition_init "rwlock_writers"; readers_count := 0; writer_active := false;
  writer_owner := None; rw_name := nm |}.

(** A lock is a monitor: its mutex, the readers' condition ([false]) and the
    writers' ([true]). *)
Definition rw_mon : lens rwlock_t (mutex_t * (condition_t * condition_t)).
Proof.
  refine (Lens (fun l => (rw_mutex l, (readers l, writers l)))
               (fun p l => set_rw_mutex (fst p) (set_readers (fst (snd p)) (set_writers (snd (snd p)) l)))
               _ _ _); [by intros [? []]|by intros []|done].
Defined.

Definition rw_lock : Cmd (kern * rwlock_t) unit := mon_lock rw_mon.
Definition rw_unlock : Cmd (kern * rwlock_t) unit := mon_unlock rw_mon.

(** [while (rwlock->writer_active) condition_wait(&rwlock->readers, ...)]. *)
Fixpoint read_wait (fuel : nat) : Cmd (kern * rwlock_t) unit :=
  let* active := read_obj writer_active in
  if active then
    match fuel with
    | O => fail NoFuel
    | S fuel' =>
        in_kern (count_stat bump_rwlock) ;;;
        mon_wait rw_mon false ;;;
        read_wait fuel'
    end
  else ret tt.

Definition incr_readers : Cmd (kern * rwlock_t) unit :=
  write_obj (fun l => set_readers_count (i32 (readers_count l + 1)) l).

Definition rwlock_read_lock (fuel : nat) : Cmd (kern * rwlock_t) unit :=
  rw_lock ;;;
  read_wait fuel ;;;
  incr_readers ;;;
  rw_unlock.

Definition rwlock_read_trylock : Cmd (kern * rwlock_t) bool :=
  let* got := mon_trylock rw_mon in
  if got : bool then
    let* active := read_obj writer_active in
    if active then rw_unlock ;;; ret false
    else incr_readers ;;; rw_unlock ;;; ret true
  else ret false.

Definition rwlock_read_unlock : Cmd (kern * rwlock_t) unit :=
  rw_lock ;;;
  write_obj (fun l => set_readers_count (i32 (readers_count l - 1)) l) ;;;
  let* n := read_obj readers_count in
  if n =? 0 then mon_signal rw_mon true ;;; rw_unlock
  else rw_unlock.

Definition write_blocked (l : rwlock_t) : bool := (0 <? readers_count l) || writer_active l.

Fixpoint write_wait (fuel : nat) : Cmd (kern * rwlock_t) unit :=
  let* blocked := read_obj write_blocked in
  if blocked then
    match fuel with
    | O => fail NoFuel
    | S fuel' =>
        in_kern (count_stat bump_rwlock) ;;;
        mon_wait rw_mon true ;;;
        write_wait fuel'
    end
  else ret tt.

Definition take_write : Cmd (kern * rwlock_t) unit :=
  write_obj (set_writer_active true) ;;;
  let* cur := in_kern get_current in
  write_obj (set_writer_owner cur).

Definition rwlock_write_lock (fuel : nat) : Cmd (kern * rwlock_t) unit :=
  rw_lock ;;;
  write_wait fuel ;;;
  take_write ;;;
  rw_unlock.

Definition rwlock_write_trylock : Cmd (kern * rwlock_t) bool :=
  let* got := mon_trylock rw_mon in
  if got : bool then
    let* blocked := read_obj write_blocked in
    if blocked then rw_unlock ;;; ret false
    else take_write ;;; rw_unlock ;;; ret true
  else ret false.

Definition rwlock_write_unlock : Cmd (kern * rwlock_t) unit :=
  rw_lock ;;;
  let* o := read_obj writer_owner in
  let* cur := in_kern get_current in
  if decide (o = cur) then
    write_obj (set_writer_active false) ;;;
    write_obj (set_writer_owner None) ;;;
    mon_signal rw_mon true ;;;
    mon_broadcast rw_mon false ;;;
    rw_unlock
  else rw_unlock.

(** ** Reasoning *)

(** The data the lock protects its clients with. *)
Definition rw_data (l : rwlock_t) : Z * bool * ptr :=
  (readers_count l, writer_active l, writer_owner l).

(** The state between two steps of task [i], as far as the data is [D]. *)
Definition between (i : nat) (D : Z * bool * ptr -> Prop) : kern * rwlock_t -> Prop :=
  Monitor.between rw_mon i (fun l => D (rw_data l)).
Definition data_is (D : Z * bool * ptr -> Prop) : kern * rwlock_t -> Prop :=
  Monitor.data_is (fun l => D (rw_data l)).

Lemma rw_on_data D : on_data rw_mon (fun l => D (rw_data l)).
Proof. by intros [? []] []. Qed.

Lemma stat_between i D s :
  between i D s -> exists s', in_kern (count_stat bump_rwlock) s = Ret tt s' /\ between i D s' /\
    snd s' = snd s /\ tbl (fst s') = tbl (fst s).
Proof.
  destruct s as [k l]. intros [Hq HD].
  eexists. split; [by apply in_kern_Ret|]. split; [|done]. split; [exact Hq|exact HD].
Qed.

Lemma read_wait_always i D fuel s :
  between i D s ->
  always (data_is D) (between i D) (fun _ s' => between i D s' /\ writer_active (snd s') = false)
    (read_wait fuel s).
Proof.
  revert s. induction fuel as [|fuel IH]; intros s Hs; simpl; unfold bind at 1; simpl;
    destruct (writer_active (snd s)) eqn:Ha; simpl; try done; try by split.
  destruct (stat_between i D s Hs) as (s1 & Heq & Hs1 & _). erewrite bind_Ret by exact Heq.
  apply (always_bind _ _ _ _ _ (fun _ => between i D)); [|intros ? s2 Hs2; by apply IH].
  apply mon_wait_always; [apply rw_on_data|exact Hs1].
Qed.

Lemma write_wait_always i D fuel s :
  between i D s ->
  always (data_is D) (between i D) (fun _ s' => between i D s' /\ write_blocked (snd s') = false)
    (write_wait fuel s).
Proof.
  revert s. induction fuel as [|fuel IH]; intros s Hs; simpl; unfold bind at 1; simpl;
    destruct (write_blocked (snd s)) eqn:Ha; simpl; try done; try by split.
  destruct (stat_between i D s Hs) as (s1 & Heq & Hs1 & _). erewrite bind_Ret by exact Heq.
  apply (always_bind _ _ _ _ _ (fun _ => between i D)); [|intros ? s2 Hs2; by apply IH].
  apply mon_wait_always; [apply rw_on_data|exact Hs1].
Qed.

Lemma rw_lock_always i D s :
  between i D s -> always (data_is D) (between i D) (fun _ => between i D) (rw_lock s).
Proof. apply mon_lock_always, rw_on_data. Qed.

Lemma rw_unlock_data i s (D : Z * bool * ptr -> Prop) :
  queues_ok rw_mon i s -> D (rw_data (snd s)) ->
  exists s', rw_unlock s = Ret tt s' /\ D (rw_data (snd s')).
Proof.
  intros Hq HD. destruct (mon_unlock_spec rw_mon i s Hq) as (k' & v & Heq).
  eexists. split; [exact Heq|]. by apply (rw_on_data D).
Qed.

(** The lock's own invariant: never readers and a writer at once. *)
Definition rw_ok (d : Z * bool * ptr) : Prop :=
  let '(n, w, _) := d in 0 <= n <= 2147483647 /\ (w = true -> n = 0).

(** What may be assumed of the data at a call of each function: room for one
    more reader; the caller is one of the readers; nothing more. *)
Definition can_add (d : Z * bool * ptr) : Prop := rw_ok d /\ fst (fst d) < 2147483647.
Definition some_reader (d : Z * bool * ptr) : Prop := rw_ok d /\ 0 < fst (fst d).

Lemma finish i D s (Q : Z * bool * ptr -> Prop) (f : rwlock_t -> rwlock_t) G R :
  between i D s -> view rw_mon (f (snd s)) = view rw_mon (snd s) -> Q (rw_data (f (snd s))) ->
  always G R (fun _ s' => Q (rw_data (snd s'))) ((write_obj f ;;; rw_unlock) s).
Proof.
  intros [Hq _] Hv HQ. destruct s as [k l]. simpl in *.
  erewrite bind_Ret by reflexivity. simpl.
  destruct (rw_unlock_data i (k, f l) Q) as (s' & -> & HQ'); [|done|exact HQ'].
  eapply (queues_ok_write rw_mon i k l (f l)); [exact Hv|exact Hq].
Qed.

Lemma read_lock_always i fuel s :
  between i can_add s ->
  always (data_is can_add) (between i can_add)
    (fun _ s' => let '(n, w, _) := rw_data (snd s') in rw_ok (rw_data (snd s')) /\ w = false /\ 0 < n)
    (rwlock_read_lock fuel s).
Proof.
  intros Hs. unfold rwlock_read_lock.
  apply (always_bind _ _ _ _ _ (fun _ => between i can_add)); [by apply rw_lock_always|].
  intros [] s1 Hs1.
  apply (always_bind _ _ _ _ _ (fun _ s' => between i can_add s' /\ writer_active (snd s') = false));
    [by apply read_wait_always|].
  intros [] s2 [Hs2 Hw].
  apply (finish i can_add s2 (fun d => let '(n, w, _) := d in rw_ok d /\ w = false /\ 0 < n)
           (fun l => set_readers_count (i32 (readers_count l + 1)) l)); try done.
  destruct Hs2 as [_ [[Hn Hwn] Hlt]]. simpl in *. rewrite Hw.
  rewrite i32_small by lia. repeat split; lia || done.
Qed.

Lemma write_lock_always i fuel s :
  between i rw_ok s ->
  always (data_is rw_ok) (between i rw_ok)
    (fun _ s' => rw_data (snd s') = (0, true, Some i))
    (rwlock_write_lock fuel s).
Proof.
  intros Hs. unfold rwlock_write_lock.
  apply (always_bind _ _ _ _ _ (fun _ => between i rw_ok)); [by apply rw_lock_always|].
  intros [] s1 Hs1.
  apply (always_bind _ _ _ _ _ (fun _ s' => between i rw_ok s' /\ write_blocked (snd s') = false));
    [by apply write_wait_always|].
  intros [] [k l] [Hs2 Hb]. pose proof Hs2 as [(Hc & _) [Hn _]]. simpl in *.
  unfold take_write. unfold bind at 1. simpl. cstep. rewrite Hc.
  pose proof (finish i rw_ok (k, l) (fun d => d = (0, true, Some i))
    (fun l => set_writer_owner (Some i) (set_writer_active true l))
    (data_is rw_ok) (between i rw_ok) Hs2) as Hf.
  apply Hf; try done. simpl. unfold rw_data. simpl.
  unfold write_blocked in Hb. apply orb_false_iff in Hb as [Hb _]. apply Z.ltb_ge in Hb.
  by replace (readers_count l) with 0 by lia.
Qed.

Lemma read_unlock_always i s :
  between i some_reader s ->
  always (data_is some_reader) (between i some_reader)
    (fun _ s' => rw_ok (rw_data (snd s'))) (rwlock_read_unlock s).
Proof.
  intros Hs. unfold rwlock_read_unlock.
  apply (always_bind _ _ _ _ _ (fun _ => between i some_reader)); [by apply rw_lock_always|].
  intros [] [k l] [Hq [[Hn Hw] Hpos]]. simpl in *.
  erewrite bind_Ret by reflexivity. erewrite bind_Ret by reflexivity. simpl.
  set (l1 := set_readers_count (i32 (readers_count l - 1)) l).
  assert (Hok : rw_ok (rw_data l1)).
  { simpl. rewrite i32_small by lia. split; [lia|]. intros H. specialize (Hw H). lia. }
  assert (Hq1 : queues_ok rw_mon i (k, l1)) by exact Hq.
  destruct (_ =? 0).
  - destruct (mon_signal_spec rw_mon true i (k, l1) Hq1) as (k' & v & Heq & Hq2).
    erewrite bind_Ret by exact Heq.
    destruct (rw_unlock_data i _ rw_ok Hq2) as (s' & -> & HQ); [|exact HQ]. by apply (rw_on_data rw_ok).
  - destruct (rw_unlock_data i (k, l1) rw_ok Hq1 Hok) as (s' & -> & HQ). exact HQ.
Qed.

(** Releasing the write lock: the writers are signalled before the readers are
    woken. *)

Lemma write_unlock_always i s :
  between i rw_ok s ->
  always (data_is rw_ok) (between i rw_ok)
    (fun _ s' => rw_ok (rw_data (snd s')) /\ writer_owner (snd s') <> Some i)
    (rwlock_write_unlock s).
Proof.
  intros Hs. unfold rwlock_write_unlock.
  apply (always_bind _ _ _ _ _ (fun _ => between i rw_ok)); [by apply rw_lock_always|].
  intros [] [k l] [Hq Hok]. pose proof Hq as (Hc & _). simpl in *.
  erewrite bind_Ret by reflexivity. erewrite bind_Ret by (by apply in_kern_Ret). simpl.
  rewrite Hc. set (Q := fun d : Z * bool * ptr => rw_ok d /\ snd d <> Some i). case_decide as Ho.
  - erewrite bind_Ret by reflexivity. erewrite bind_Ret by reflexivity. simpl.
    set (l1 := set_writer_owner None (set_writer_active false l)).
    assert (HQ1 : Q (rw_data l1)) by (destruct Hok as [Hn _]; by split).
    assert (Hq1 : queues_ok rw_mon i (k, l1)) by exact Hq.
    destruct (mon_signal_spec rw_mon true i (k, l1) Hq1) as (k2 & v2 & H2 & Hq2).
    erewrite bind_Ret by exact H2.
    destruct (mon_broadcast_spec rw_mon false i _ Hq2) as (k3 & v3 & H3 & Hq3).
    erewrite bind_Ret by exact H3.
    destruct (rw_unlock_data i _ Q Hq3) as (s' & -> & HQ); [|exact HQ].
    apply (rw_on_data Q), (rw_on_data Q), HQ1.
  - destruct (rw_unlock_data i (k, l) Q Hq) as (s' & -> & HQ); [by split|exact HQ].
Qed.

(** ** Releasing the write lock in detail *)

(** The calls of the primitives, on the lock's own fields. *)
Lemma rw_lock_free k l :
  locked (rw_mutex l) = 0 ->
  rw_lock (k, l) = Ret tt (irq_enabled k, set_rw_mutex (set_owner (current k) (set_locked 1 (rw_mutex l))) l).
Proof.
  intros H. unfold rw_lock, mon_lock.
  by rewrite (zoom_Ret (lift (mutex_lens rw_mon)) _ (k, l) _ _ (mutex_lock_free k (rw_mutex l) H)).
Qed.

Lemma rw_unlock_last k l :
  owner (rw_mutex l) = current k -> waiters (tbl k) (rw_mutex l) [] ->
  exists m, rw_unlock (k, l) = Ret tt (irq_enabled k, set_rw_mutex m l) /\ locked m = 0 /\
            waiters (tbl k) m [].
Proof.
  intros Ho Hw. eexists. split.
  { unfold rw_unlock, mon_unlock.
    by rewrite (zoom_Ret (lift (mutex_lens rw_mon)) _ (k, l) _ _ (mutex_unlock_last k (rw_mutex l) Ho Hw)). }
  by split.
Qed.

Lemma rw_broadcast k l c k' :
  condition_broadcast (k, readers l) = Ret tt (k', c) ->
  mon_broadcast rw_mon false (k, l) = Ret tt (k', set_readers c l).
Proof.
  intros H. unfold mon_broadcast.
  by rewrite (zoom_Ret (lift (cond_lens rw_mon false)) _ (k, l) _ _ H).
Qed.

Lemma queues_disjoint i (lm lr lw : list nat) :
  NoDup (i :: lm ++ lr ++ lw) ->
  (forall j, j ∈ lm -> j ∉ lr ++ [i]) /\ (forall j, j ∈ lm -> j ∉ lw ++ [i]).
Proof.
  intros [Hi Hnd]%NoDup_cons. apply NoDup_app in Hnd as (_ & Hd & _).
  split; intros j Hj; specialize (Hd j Hj); set_solver.
Qed.

(** Signalling the writers keeps the mutex queue usable. *)
Lemma signal_writers_queues k l lm lw :
  waiters (tbl k) (rw_mutex l) lm -> cond_waiters (tbl k) (writers l) lw ->
  (forall j, j ∈ lm -> j ∉ lw) ->
  exists k' c', mon_signal rw_mon true (k, l) = Ret tt (k', set_writers c' l) /\
    waiters (tbl k') (rw_mutex l) lm /\
    (forall p lo, linked link_wait (tbl k) p lo -> (forall j, j ∈ lo -> j ∉ lw) ->
                  linked link_wait (tbl k') p lo) /\
    current k' = current k /\ length (tbl k') = length (tbl k).
Proof.
  intros Hm Hw Hd. destruct lw as [|w lw].
  - eexists _, _. split; [apply (zoom_Ret (lift (cond_lens rw_mon true))); by apply condition_signal_empty|].
    by split.
  - destruct (condition_signal_wake k (writers l) w lw Hw) as (tb & q & tw & Heq & _ & Hs & _ & Hfr).
    eexists _, _. split; [by apply (zoom_Ret (lift (cond_lens rw_mon true)))|].
    assert (Hall : forall p lo, linked link_wait (tbl k) p lo -> (forall j, j ∈ lo -> j ∉ w :: lw) ->
              linked link_wait (<[w:=set_state TASK_READY tw]> tb) p lo).
    { intros p lo Hlo Hdd. apply Hfr; [done|]. intros j Hj. specialize (Hdd j Hj). set_solver. }
    split; [by apply Hall|]. split; [exact Hall|]. split; [done|].
    unfold tbl. simpl. rewrite length_insert. symmetry. by apply same_but_wait_length.
Qed.

(** Releasing the write lock: writers are signalled before the readers are
    woken, and everything the function does after [rw_lock] is one step. *)
Lemma write_unlock_owner i k l lm lr lw :
  current k = Some i -> writer_owner l = Some i ->
  waiters (tbl k) (rw_mutex l) lm -> cond_waiters (tbl k) (readers l) lr ->
  cond_waiters (tbl k) (writers l) lw -> NoDup (i :: lm ++ lr ++ lw) ->
  exists k1 c1 tb2,
    mon_signal rw_mon true (k, set_writer_owner None (set_writer_active false l))
      = Ret tt (k1, set_writers c1 (set_writer_owner None (set_writer_active false l))) /\
    condition_broadcast (k1, readers l) = Ret tt (irq_enabled (set_tbl tb2 k1), set_cond_waiting None (readers l)) /\
    ready lr (tbl k1) tb2 /\ linked link_wait tb2 (waiting_tasks (rw_mutex l)) lm /\
    current k1 = Some i /\ length (tbl k1) = length (tbl k).
Proof.
  intros Hc Ho Hm Hr Hw Hnd.
  destruct (queues_disjoint _ _ _ _ Hnd) as [Hmr Hmw].
  destruct (signal_writers_queues k (set_writer_owner None (set_writer_active false l)) lm lw Hm Hw)
    as (k1 & c1 & Heq & Hm1 & Hfr1 & Hc1 & Hlen).
  { intros j Hj Hjw. apply (Hmw j Hj). set_solver. }
  assert (Hr1 : cond_waiters (tbl k1) (readers l) lr).
  { apply Hfr1; [done|]. apply NoDup_cons in Hnd as [_ Hnd].
    apply NoDup_app in Hnd as (_ & _ & Hnd). apply NoDup_app in Hnd as (_ & Hd & _). exact Hd. }
  destruct (condition_broadcast_spec k1 (readers l) lr Hr1) as (tb2 & Hb & Hready & Hfr2).
  exists k1, c1, tb2. split; [exact Heq|]. split; [exact Hb|]. split; [done|].
  split; [|split; [congruence|done]]. apply Hfr2; [exact Hm1|]. intros j Hj. specialize (Hmr j Hj). set_solver.
Qed.

(** ** Properties *)


(** Releasing the write lock lets everyone in who waits: when the writer
    unlocks and nobody is inside the lock's functions, the call returns at once
    with no writer active, every waiting reader and the first waiting writer are
    READY, and a [rwlock_read_lock] by any task of the table then returns
    without waiting. *)
Theorem rwlock_write_unlock_wakes (i : nat) (k : kern) (l : rwlock_t) (lr lw : list nat)
    (Hcur : current k = Some i) (Howner : writer_owner l = Some i)
    (Hfree : locked (rw_mutex l) = 0)
    (Hm : waiters (tbl k) (rw_mutex l) []) (Hr : cond_waiters (tbl k) (readers l) lr)
    (Hw : cond_waiters (tbl k) (writers l) lw) (Hnd : NoDup (i :: lr ++ lw)) :
  exists k' l', rwlock_write_unlock (k, l) = Ret tt (k', l') /\
    rw_data l' = (readers_count l, false, None) /\
    (forall j, j ∈ lr -> state <$> tbl k' !! j = Some TASK_READY) /\
    cond_waiters (tbl k') (readers l') [] /\
    (forall t, exists s', rwlock_read_lock 0 (set_k_tasks (set_current_task t (k_tasks k')) k', l') = Ret tt s').
Proof.
  unfold rwlock_write_unlock. rewrite (bind_Ret _ _ _ _ _ (rw_lock_free k l Hfree)), Hcur.
  set (l1 := set_rw_mutex _ l). erewrite bind_Ret by reflexivity.
  erewrite bind_Ret by (by apply in_kern_Ret). simpl.
  rewrite decide_True by (rewrite Howner; symmetry; exact Hcur).
  erewrite bind_Ret by reflexivity. erewrite bind_Ret by reflexivity. simpl.
  destruct (write_unlock_owner i (irq_enabled k) l1 [] lr lw)
    as (k1 & c1 & tb2 & H1 & H2 & Hready & Hm2 & Hc1 & Hlen); try done.
  rewrite (bind_Ret _ _ _ _ _ H1). set (l2 := set_writers c1 _) in *.
  rewrite (bind_Ret _ _ _ _ _ (rw_broadcast k1 l2 _ _ H2)).
  destruct (rw_unlock_last (irq_enabled (set_tbl tb2 k1)) (set_readers (set_cond_waiting None (readers l1)) l2))
    as (m3 & H3 & Hm3 & Hw3); [symmetry; exact Hc1|exact Hm2|].
  eexists _, _. split; [exact H3|]. split; [done|]. split; [|split; [done|]].
  { intros j Hj. specialize (Hready j). rewrite decide_True in Hready by done.
    unfold tbl at 1. simpl. rewrite Hready.
    destruct (chain_lookup _ _ _ _ _ j Hr Hj) as [t Ht]. apply lookup_lt_Some in Ht.
    destruct (lookup_lt_is_Some_2 (tbl k1) j) as [t1 ->]; [rewrite Hlen; exact Ht|done]. }
  intros t. unfold rwlock_read_lock.
  rewrite (bind_Ret _ _ _ _ _ (rw_lock_free _ (set_rw_mutex m3 (set_readers (set_cond_waiting None (readers l1)) l2)) Hm3)).
  erewrite bind_Ret by reflexivity. erewrite bind_Ret by reflexivity. simpl.
  match goal with |- exists s', rw_unlock (?k4, ?l4) = _ => destruct (rw_unlock_last k4 l4) as (m4 & H4 & _) end;
    [done|exact Hw3|]. by eexists.
Qed.

(** A reader called while a writer is active waits once and gets in when the
    writer has gone meanwhile. *)
Definition held_rwlock : rwlock_t :=
  set_writer_owner (Some 1%nat) (set_writer_active true (rwlock_init "l")).

Lemma held_between : between 0 can_add (two_tasks 0, held_rwlock).
Proof.
  split; [|by split]. split; [done|]. split; [by exists zero_task|].
  exists [], (fun _ => []). split; [done|]. split; [by intros []|]. by apply (NoDup_singleton 0%nat).
Qed.


(** Task 0 holds the write lock of which 1 waits to be a reader. *)
Definition reader_waiting_kern : kern :=
  set_tbl [zero_task; set_state TASK_BLOCKED zero_task] (two_tasks 0).
Definition reader_waiting : rwlock_t :=
  set_readers (set_cond_waiting (Some 1%nat) (condition_init "rwlock_readers"))
    (set_writer_owner (Some 0%nat) (set_writer_active true (rwlock_init "l"))).

Lemma rwlock_write_unlock_wakes_witness :
  exists k' l', rwlock_write_unlock (reader_waiting_kern, reader_waiting) = Ret tt (k', l') /\
    rw_data l' = (0, false, None) /\ state <$> tbl k' !! 1%nat = Some TASK_READY.
Proof.
  destruct (rwlock_write_unlock_wakes 0 reader_waiting_kern reader_waiting [1%nat] [])
    as (k' & l' & Heq & Hd & Hr & _).
  - reflexivity.
  - reflexivity.
  - reflexivity.
  - reflexivity.
  - split; [reflexivity|]. exists (set_state TASK_BLOCKED zero_task). by split.
  - reflexivity.
  - apply (bool_decide_unpack (NoDup (0%nat :: [1%nat] ++ []))). exact I.
  - exists k', l'. split; [exact Heq|]. split; [exact Hd|]. apply Hr. set_solver.
Defined.
