(* ===== verification/Mlfq.v ===== *)
(** * Mlfq

    src/src/scheduler_mlfq.c: the multi-level feedback queue scheduler.  Eight
    queues of tasks are threaded through [next]; a task that used its quantum
    moves one queue down, and every [boost_period] ticks all tasks move back to
    queue 0.  The representation predicate relates the pointers to one list of
    tasks per queue, on which the abstract operations are stated. *)
From S2P Require Import Prelude Links Task.

(** ** Data *)
Definition MLFQ_QUEUE_COUNT : nat := 8.

Record mlfq_queue_t : Type := MlfqQueue {
  head : ptr;
  tail : ptr;
  time_quantum : Z;
  q_count : Z
}.

Definition set_head (v : ptr) (x : mlfq_queue_t) : mlfq_queue_t := {|
  head := v; tail := tail x; time_quantum := time_quantum x;
  q_count := q_count x |}.
Definition set_tail (v : ptr) (x : mlfq_queue_t) : mlfq_queue_t := {|
  head := head x; tail := v; time_quantum := time_quantum x;
  q_count := q_count x |}.
Definition set_q_count (v : Z) (x : mlfq_queue_t) : mlfq_queue_t := {|
  head := head x; tail := tail x; time_quantum := time_quantum x;
  q_count := v |}.

Record mlfq_params_t : Type := MlfqParams {
  current_queue : Z;
  mq_time_slice : Z;
  boost_ticks : Z
}.

Definition set_current_queue (v : Z) (x : mlfq_params_t) : mlfq_params_t := {|
  current_queue := v; mq_time_slice := mq_time_slice x; boost_ticks := boost_ticks x |}.
Definition set_mq_time_slice (v : Z) (x : mlfq_params_t) : mlfq_params_t := {|
  current_queue := current_queue x; mq_time_slice := v; boost_ticks := boost_ticks x |}.

(** The static variables of the file, with the task table and the heap of
    [mlfq_params_t] the tasks' [scheduler_data] points into. *)
Record mlfq : Type := Mlfq {
  mq_tasks : tasks;
  queues : list mlfq_queue_t;
  params : list mlfq_params_t;
  boost_period : Z;
  boost_counter : Z
}.

Definition set_mq_tasks (v : tasks) (x : mlfq) : mlfq := {|
  mq_tasks := v; queues := queues x; params := params x;
  boost_period := boost_period x; boost_counter := boost_counter x |}.
Definition set_queues (v : list mlfq_queue_t) (x : mlfq) : mlfq := {|
  mq_tasks := mq_tasks x; queues := v; params := params x;
  boost_period := boost_period x; boost_counter := boost_counter x |}.
Definition set_params (v : list mlfq_params_t) (x : mlfq) : mlfq := {|
  mq_tasks := mq_tasks x; queues := queues x; params := v;
  boost_period := boost_period x; boost_counter := boost_counter x |}.
Definition set_boost_counter (v : Z) (x : mlfq) : mlfq := {|
  mq_tasks := mq_tasks x; queues := queues x; params := params x;
  boost_period := boost_period x; boost_counter := v |}.

Definition mtbl (s : mlfq) : list task_t := task_list (mq_tasks s).
Definition set_mtbl (l : list task_t) (s : mlfq) : mlfq :=
  set_mq_tasks (set_task_list l (mq_tasks s)) s.

(** ** Operations *)

(** Accesses through pointers: tasks, queues and parameters. *)
Definition rd_task (i : nat) : Cmd mlfq task_t :=
  fun s => match mtbl s !! i with Some t => Ret t s | None => Stop Fault end.
Definition wr_task (i : nat) (t : task_t) : Cmd mlfq unit :=
  modify (fun s => set_mtbl (<[i:=t]> (mtbl s)) s).
Definition rd_queue (i : nat) : Cmd mlfq mlfq_queue_t :=
  fun s => match queues s !! i with Some q => Ret q s | None => Stop Fault end.
Definition wr_queue (i : nat) (q : mlfq_queue_t) : Cmd mlfq unit :=
  modify (fun s => set_queues (<[i:=q]> (queues s)) s).
Definition rd_params (p : ptr) : Cmd mlfq mlfq_params_t :=
  fun s => match p with
           | Some i => match params s !! i with Some x => Ret x s | None => Stop Fault end
           | None => Stop Fault
           end.
Definition wr_params (p : ptr) (x : mlfq_params_t) : Cmd mlfq unit :=
  match p with Some i => modify (fun s => set_params (<[i:=x]> (params s)) s) | None => fail Fault end.

(** [queues[i].time_quantum = (1 << i) * BASE_QUANTUM]; the header does not
    define [BASE_QUANTUM]. *)
Definition quantum (BASE_QUANTUM : Z) (i : nat) : Z := u32 (Z.shiftl 1 (Z.of_nat i) * BASE_QUANTUM).

Definition empty_queues (BASE_QUANTUM : Z) : list mlfq_queue_t :=
  (fun i => {| head := None; tail := None; time_quantum := quantum BASE_QUANTUM i; q_count := 0 |})
  <$> seq 0 MLFQ_QUEUE_COUNT.
Definition scheduler_mlfq_init (BASE_QUANTUM : Z) : Cmd mlfq unit :=
  modify (set_queues (empty_queues BASE_QUANTUM)).

Definition mlfq_enqueue (queue_index : Z) (task : ptr) : Cmd mlfq unit :=
  match task with
  | None => ret tt
  | Some t =>
    if Z.of_nat MLFQ_QUEUE_COUNT <=? queue_index then ret tt else
    let qi := Z.to_nat queue_index in
    let* x := rd_task t in
    wr_task t (set_next None x) ;;;
    let* q := rd_queue qi in
    match head q with
    | None => wr_queue qi (set_q_count (u32 (q_count q + 1)) (set_tail (Some t) (set_head (Some t) q)))
    | Some _ =>
        let* b := deref (tail q) in
        let* y := rd_task b in
        wr_task b (set_next (Some t) y) ;;;
        wr_queue qi (set_q_count (u32 (q_count q + 1)) (set_tail (Some t) q))
    end
  end.

Definition mlfq_dequeue (queue_index : Z) : Cmd mlfq ptr :=
  if Z.of_nat MLFQ_QUEUE_COUNT <=? queue_index then ret None else
  let qi := Z.to_nat queue_index in
  let* q := rd_queue qi in
  match head q with
  | None => ret None
  | Some t =>
      let* x := rd_task t in
      let q1 := set_head (next x) q in
      let q2 := match next x with None => set_tail None q1 | Some _ => q1 end in
      wr_task t (set_next None x) ;;;
      wr_queue qi (set_q_count (u32 (q_count q - 1)) q2) ;;;
      ret (Some t)
  end.

(** [malloc_ok]: whether [malloc] finds room for the parameters; a new cell is
    the next one of the heap. *)
Definition scheduler_mlfq_init_task (malloc_ok : bool) (task : nat) : Cmd mlfq unit :=
  if malloc_ok then
    let* q0 := rd_queue 0 in
    let* s := get in
    let p := length (params s) in
    modify (set_params (params s ++ [{| current_queue := 0; mq_time_slice := time_quantum q0; boost_ticks := 0 |}])) ;;;
    let* x := rd_task task in
    wr_task task (set_scheduler_data (Some p) x) ;;;
    mlfq_enqueue 0 (Some task)
  else ret tt.

(** The body of the [while] loop of [scheduler_mlfq_boost], and the loop. *)
Definition boost_one (i : nat) : Cmd mlfq unit :=
  let* task := mlfq_dequeue (Z.of_nat i) in
  let* t := deref task in
  let* x := rd_task t in
  let* pr := rd_params (scheduler_data x) in
  let* q0 := rd_queue 0 in
  wr_params (scheduler_data x) (set_mq_time_slice (time_quantum q0) (set_current_queue 0 pr)) ;;;
  mlfq_enqueue 0 task.

Fixpoint boost_queue (fuel : nat) (i : nat) : Cmd mlfq unit :=
  let* q := rd_queue i in
  match head q with
  | None => ret tt
  | Some _ =>
      match fuel with
      | O => fail NoFuel
      | S fuel' => boost_one i ;;; boost_queue fuel' i
      end
  end.

(** The loop's bound is the number of tasks: a queue holds each at most once. *)
Definition scheduler_mlfq_boost : Cmd mlfq unit :=
  let* s := get in
  for_each (seq 1 (MLFQ_QUEUE_COUNT - 1)) (boost_queue (length (mtbl s))) ;;;
  modify (set_boost_counter 0).

(** [while (curr && curr != task)]: the task and its predecessor. *)
Fixpoint find_in_queue (fuel : nat) (prev curr : ptr) (task : nat) : Cmd mlfq (ptr * ptr) :=
  match curr with
  | None => ret (prev, None)
  | Some c =>
      if decide (c = task) then ret (prev, Some c) else
      match fuel with
      | O => fail NoFuel
      | S fuel' => let* x := rd_task c in find_in_queue fuel' (Some c) (next x) task
      end
  end.

(** Unlinking [curr] from queue [qi], [prev] being its predecessor. *)
Definition unlink_queue (qi : nat) (prev : ptr) (c : nat) : Cmd mlfq unit :=
  let* x := rd_task c in
  let* q := rd_queue qi in
  let* q1 := match prev with
             | Some p => let* y := rd_task p in wr_task p (set_next (next x) y) ;;; ret q
             | None => ret (set_head (next x) q)
             end in
  let q2 := if decide (tail q1 = Some c) then set_tail prev q1 else q1 in
  wr_queue qi (set_q_count (u32 (q_count q2 - 1)) q2).

Definition scheduler_mlfq_update_queue (task : ptr) : Cmd mlfq unit :=
  match task with
  | None => ret tt
  | Some t =>
    let* x := rd_task t in
    match scheduler_data x with
    | None => ret tt
    | Some p =>
      let* pr := rd_params (Some p) in
      if mq_time_slice pr =? 0 then
        let up := u32 (current_queue pr + 1) in
        let next_queue := if Z.of_nat MLFQ_QUEUE_COUNT <=? up
                          then Z.of_nat MLFQ_QUEUE_COUNT - 1 else up in
        let cq := Z.to_nat (current_queue pr) in
        let* q := rd_queue cq in
        let* s := get in
        let* pc := find_in_queue (length (mtbl s)) None (head q) t in
        (match snd pc with Some c => unlink_queue cq (fst pc) c | None => ret tt end) ;;;
        let* nq := rd_queue (Z.to_nat next_queue) in
        wr_params (Some p) (set_mq_time_slice (time_quantum nq) (set_current_queue next_queue pr)) ;;;
        mlfq_enqueue next_queue (Some t)
      else ret tt
    end
  end.

Definition scheduler_mlfq_tick : Cmd mlfq unit :=
  let* s := get in
  match current_task (mq_tasks s) with
  | None => ret tt
  | Some c =>
    let* x := rd_task c in
    match scheduler_data x with
    | None => ret tt
    | Some p =>
      let* pr := rd_params (Some p) in
      (if 0 <? mq_time_slice pr
       then wr_params (Some p) (set_mq_time_slice (mq_time_slice pr - 1) pr) else ret tt) ;;;
      modify (fun s => set_boost_counter (u32 (boost_counter s + 1)) s) ;;;
      let* s := get in
      if boost_period s <=? boost_counter s then scheduler_mlfq_boost else ret tt
    end
  end.

(** The inner loop of [scheduler_mlfq_next]: the first READY task of a chain. *)
Fixpoint first_ready (fuel : nat) (task : ptr) : Cmd mlfq ptr :=
  match task with
  | None => ret None
  | Some t =>
      let* x := rd_task t in
      if decide (state x = TASK_READY) then ret (Some t) else
      match fuel with
      | O => fail NoFuel
      | S fuel' => first_ready fuel' (next x)
      end
  end.

Fixpoint next_from (fuel : nat) (l : list nat) : Cmd mlfq ptr :=
  match l with
  | [] => ret None
  | i :: l' =>
      let* q := rd_queue i in
      let* t := first_ready fuel (head q) in
      match t with Some _ => ret t | None => next_from fuel l' end
  end.

Definition scheduler_mlfq_next : Cmd mlfq ptr :=
  let* s := get in next_from (length (mtbl s)) (seq 0 MLFQ_QUEUE_COUNT).

(** ** Representation by one list of tasks per queue *)
Definition qrep (tb : list task_t) (q : mlfq_queue_t) (l : list nat) : Prop :=
  linked link_next tb (head q) l /\ tail q = last l /\ q_count q = Z.of_nat (length l).

(** No task is in two queues. *)
Definition apart (L : list (list nat)) : Prop :=
  forall i j l l' t, L !! i = Some l -> L !! j = Some l' -> t ∈ l -> t ∈ l' -> i = j.
Definition queued (L : list (list nat)) (t : nat) : Prop := exists i l, L !! i = Some l /\ t ∈ l.

Record rep (B : Z) (s : mlfq) (L : list (list nat)) : Prop := {
  rep_len : length L = MLFQ_QUEUE_COUNT;
  rep_qlen : length (queues s) = MLFQ_QUEUE_COUNT;
  rep_tbl : length (mtbl s) = MAX_TASKS;
  rep_queue : forall i q l, queues s !! i = Some q -> L !! i = Some l -> qrep (mtbl s) q l;
  rep_apart : apart L;
  rep_quantum : forall i q, queues s !! i = Some q -> time_quantum q = quantum B i
}.

(** The parameters of the tasks: every task with parameters has its own, and
    those of a queued task name its queue. *)
Definition params_own (s : mlfq) : Prop :=
  forall t x p, mtbl s !! t = Some x -> scheduler_data x = Some p ->
    (p < length (params s))%nat /\
    forall t' x', mtbl s !! t' = Some x' -> scheduler_data x' = Some p -> t' = t.
Definition in_queue (s : mlfq) (t i : nat) : Prop :=
  exists x p pr, mtbl s !! t = Some x /\ scheduler_data x = Some p /\ params s !! p = Some pr /\
                 current_queue pr = Z.of_nat i.
Definition params_name (s : mlfq) (L : list (list nat)) : Prop :=
  forall i l t, L !! i = Some l -> t ∈ l -> in_queue s t i.

Definition mlfq_ok (B : Z) (s : mlfq) (L : list (list nat)) : Prop :=
  rep B s L /\ params_own s /\ params_name s L.

(** What the queue operations leave alone: everything but the [next] fields
    and the queues. *)
Definition same_but_next (l l' : list task_t) : Prop :=
  forall i, set_next None <$> l !! i = set_next None <$> l' !! i.
Record keeps (s s' : mlfq) : Prop := {
  keeps_tbl : same_but_next (mtbl s) (mtbl s');
  keeps_params : params s' = params s;
  keeps_period : boost_period s' = boost_period s;
  keeps_counter : boost_counter s' = boost_counter s;
  keeps_current : current_task (mq_tasks s') = current_task (mq_tasks s)
}.

#[export] Instance same_but_next_equiv : Equivalence same_but_next.
Proof.
  split; [by intros ??|by intros ?? H ?; rewrite H|by intros ??? H1 H2 ?; rewrite H1, H2].
Qed.
#[export] Instance keeps_preorder : PreOrder keeps.
Proof.
  split; [by split|]. intros s1 s2 s3 [] []. split; [by etrans|congruence..].
Qed.

Lemma set_next_twice p q t : set_next p (set_next q t) = set_next p t.
Proof. done. Qed.

Lemma same_but_next_insert l i t p :
  l !! i = Some t -> same_but_next l (<[i:=set_next p t]> l).
Proof.
  intros Hi j. rewrite list_insert_lookup_ne_dec. case_decide as Hd; [|done].
  destruct Hd as [<- _]. by rewrite Hi.
Qed.

Lemma same_but_next_lookup l l' i x :
  same_but_next l l' -> l !! i = Some x ->
  exists x', l' !! i = Some x' /\ scheduler_data x' = scheduler_data x /\ state x' = state x.
Proof.
  intros H Hi. specialize (H i). rewrite Hi in H. simpl in H.
  destruct (l' !! i) as [x'|]; [|done]. simpl in H. injection H. intros.
  exists x'. split; [done|]. destruct x, x'. simpl in *. split; congruence.
Qed.

Lemma in_queue_keeps s s' t i : keeps s s' -> in_queue s t i -> in_queue s' t i.
Proof.
  intros [Ht Hp _ _ _] (x & p & pr & Hx & Hsd & Hpr & Hc).
  destruct (same_but_next_lookup _ _ _ _ Ht Hx) as (x' & Hx' & Hsd' & _).
  exists x', p, pr. rewrite Hp. split; [done|]. split; [congruence|done].
Qed.

Lemma params_own_keeps s s' : keeps s s' -> params_own s -> params_own s'.
Proof.
  intros [Ht Hp _ _ _] Hown t x p Hx Hsd. symmetry in Ht.
  destruct (same_but_next_lookup _ _ _ _ Ht Hx) as (y & Hy & Hsdy & _).
  destruct (Hown t y p) as [Hlt Hu]; [done|congruence|]. rewrite Hp. split; [done|].
  intros t' x' Hx' Hsd'. destruct (same_but_next_lookup _ _ _ _ Ht Hx') as (y' & Hy' & Hsdy' & _).
  apply (Hu t' y'); [done|congruence].
Qed.

(** Replacing one queue and the links of its tasks. *)
Lemma rep_update B s L i q q' l l' tb' :
  rep B s L -> queues s !! i = Some q -> L !! i = Some l -> time_quantum q' = time_quantum q ->
  qrep tb' q' l' -> length tb' = length (mtbl s) ->
  (forall j, j ∉ l ++ l' -> tb' !! j = mtbl s !! j) ->
  (forall x, x ∈ l' -> x ∈ l \/ ~ queued L x) ->
  rep B (set_queues (<[i:=q']> (queues s)) (set_mtbl tb' s)) (<[i:=l']> L).
Proof.
  intros [H1 H2 H3 H4 H5 H6] Hq Hl Hqu Hrep Hlen Hag Hsub.
  assert (Hother : forall j lj, j <> i -> L !! j = Some lj -> forall x, x ∈ lj -> x ∉ l ++ l').
  { intros j lj Hne Hj x Hx [Hxl|Hxl]%elem_of_app.
    - apply Hne. by eapply H5.
    - destruct (Hsub x Hxl) as [Hxl2|Hn]; [apply Hne; by eapply H5|]. apply Hn. by exists j, lj. }
  split; simpl.
  - by rewrite length_insert.
  - by rewrite length_insert.
  - unfold mtbl at 1. simpl. by rewrite Hlen.
  - intros j qj lj Hj Hlj. unfold mtbl. simpl. destruct (decide (i = j)) as [->|Hne].
    + rewrite list_lookup_insert_eq in Hj by (by eapply lookup_lt_Some).
      rewrite list_lookup_insert_eq in Hlj by (by eapply lookup_lt_Some). by simplify_eq.
    + rewrite list_lookup_insert_ne in Hj by done. rewrite list_lookup_insert_ne in Hlj by done.
      destruct (H4 j qj lj Hj Hlj) as (Hc & Ht & Hn). split; [|done].
      eapply chain_agree; [|exact Hc]. intros x Hx. apply Hag. by eapply (Hother j).
  - assert (Hw : forall j lj x, <[i:=l']> L !! j = Some lj -> x ∈ lj ->
                   (j = i /\ x ∈ l') \/ (j <> i /\ L !! j = Some lj)).
    { intros j lj x Hj Hx. destruct (decide (i = j)) as [->|Hne].
      - rewrite list_lookup_insert_eq in Hj by (by eapply lookup_lt_Some). simplify_eq. by left.
      - rewrite list_lookup_insert_ne in Hj by done. right. by split. }
    intros j k lj lk x Hj Hk Hxj Hxk.
    destruct (Hw _ _ _ Hj Hxj) as [[-> Hj1]|[Hnj Hj1]]; destruct (Hw _ _ _ Hk Hxk) as [[-> Hk1]|[Hnk Hk1]].
    + done.
    + destruct (Hother k lk Hnk Hk1 x Hxk). set_solver.
    + destruct (Hother j lj Hnj Hj1 x Hxj). set_solver.
    + by eapply H5.
  - intros j qj Hj. destruct (decide (i = j)) as [->|Hne].
    + rewrite list_lookup_insert_eq in Hj by (by eapply lookup_lt_Some). simplify_eq.
      rewrite Hqu. by apply H6.
    + rewrite list_lookup_insert_ne in Hj by done. by apply H6.
Qed.

(** ** The queue operations on the representation *)
Lemma rep_lookup B s L i :
  rep B s L -> (i < MLFQ_QUEUE_COUNT)%nat ->
  exists q l, queues s !! i = Some q /\ L !! i = Some l /\ qrep (mtbl s) q l.
Proof.
  intros Hr Hi. destruct (lookup_lt_is_Some_2 (queues s) i) as [q Hq]; [by rewrite (rep_qlen B s L)|].
  destruct (lookup_lt_is_Some_2 L i) as [l Hl]; [by rewrite (rep_len B s L)|].
  exists q, l. split; [done|]. split; [done|]. by eapply rep_queue.
Qed.

Lemma qrep_bound B s L q l : rep B s L -> qrep (mtbl s) q l -> (length l <= 32)%nat.
Proof. intros Hr [Hc _]. apply linked_length in Hc. by rewrite (rep_tbl B s L) in Hc. Qed.

Lemma rd_queue_Ret i q s : queues s !! i = Some q -> rd_queue i s = Ret q s.
Proof. unfold rd_queue. by intros ->. Qed.
Lemma rd_task_Ret i x s : mtbl s !! i = Some x -> rd_task i s = Ret x s.
Proof. unfold rd_task. by intros ->. Qed.

Lemma keeps_make s tb' qs :
  same_but_next (mtbl s) tb' -> keeps s (set_queues qs (set_mtbl tb' s)).
Proof. by split. Qed.

Lemma mlfq_enqueue_spec B s L i t x l :
  rep B s L -> L !! i = Some l -> ~ queued L t -> mtbl s !! t = Some x ->
  exists s', mlfq_enqueue (Z.of_nat i) (Some t) s = Ret tt s' /\
             rep B s' (<[i:=l ++ [t]]> L) /\ keeps s s'.
Proof.
  intros Hr Hl Hnt Hx. assert (Hi : (i < MLFQ_QUEUE_COUNT)%nat).
  { rewrite <- (rep_len B s L Hr). by eapply lookup_lt_Some. }
  destruct (rep_lookup B s L i Hr Hi) as (q & l0 & Hq & Hl0 & Hqr). simplify_eq.
  assert (Htl : t ∉ l) by (intros H; apply Hnt; by exists i, l).
  pose proof (qrep_bound B s L q l Hr Hqr) as Hlen. destruct Hqr as (Hc & Ht & Hn).
  unfold mlfq_enqueue. rewrite (proj2 (Z.leb_gt _ _)) by (unfold MLFQ_QUEUE_COUNT in *; lia).
  rewrite Nat2Z.id. erewrite bind_Ret by (by apply rd_task_Ret).
  erewrite bind_Ret by reflexivity. erewrite bind_Ret by (by apply rd_queue_Ret).
  set (tb1 := <[t:=set_next None x]> (mtbl s)).
  assert (Ht1 : tb1 !! t = Some (set_next None x)) by (apply list_lookup_insert_eq; by eapply lookup_lt_Some).
  assert (Hc1 : linked link_next tb1 (head q) l) by (by apply chain_frame).
  assert (Hk1 : same_but_next (mtbl s) tb1) by (by apply same_but_next_insert).
  destruct l as [|b l _] using rev_ind.
  - rewrite Hc. eexists. split; [reflexivity|]. split; [|by apply keeps_make].
    eapply (rep_update B s L i q _ [] [t] tb1); try done.
    + split; [|by simpl; rewrite Hn]. simpl. split; [done|]. eexists. by split.
    + by unfold tb1; rewrite length_insert.
    + intros j Hj. apply list_lookup_insert_ne. set_solver.
    + intros j ->%list_elem_of_singleton. by right.
  - assert (exists h, head q = Some h) as [h Hh]. { destruct l; destruct Hc as (-> & _); eauto. }
    rewrite Hh. rewrite last_snoc in Ht. rewrite Ht. simpl.
    destruct (chain_lookup _ _ _ _ _ b Hc1 ltac:(set_solver)) as [y Hy].
    erewrite bind_Ret by reflexivity. erewrite bind_Ret by (by apply rd_task_Ret).
    exists (set_queues (<[i:=set_q_count (u32 (q_count q + 1)) (set_tail (Some t) q)]> (queues s))
             (set_mtbl (<[b:=set_next (Some t) y]> tb1) s)). split; [reflexivity|].
    assert (Hk2 : same_but_next (mtbl s) (<[b:=set_next (Some t) y]> tb1)).
    { etrans; [exact Hk1|]. by apply same_but_next_insert. }
    split; [|by apply keeps_make].
    eapply (rep_update B s L i q _ (l ++ [b]) ((l ++ [b]) ++ [t]) (<[b:=set_next (Some t) y]> tb1)); try done.
    + split; [|split]; simpl.
      * rewrite <- app_assoc. eapply (linked_snoc link_next tb1 (head q) l b t y); try done; set_solver.
      * by rewrite last_snoc.
      * rewrite Hn, !length_app in *. simpl in *. rewrite u32_small by lia. lia.
    + unfold tb1. by rewrite !length_insert.
    + intros j Hj. unfold tb1. rewrite !list_lookup_insert_ne; [done|set_solver..].
    + intros j [Hj| ->%list_elem_of_singleton]%elem_of_app; [by left|by right].
Qed.

Lemma mlfq_dequeue_spec B s L i t l :
  rep B s L -> L !! i = Some (t :: l) ->
  exists s', mlfq_dequeue (Z.of_nat i) s = Ret (Some t) s' /\ rep B s' (<[i:=l]> L) /\ keeps s s' /\
             (exists x, mtbl s' !! t = Some x).
Proof.
  intros Hr Hl. assert (Hi : (i < MLFQ_QUEUE_COUNT)%nat).
  { rewrite <- (rep_len B s L Hr). by eapply lookup_lt_Some. }
  destruct (rep_lookup B s L i Hr Hi) as (q & l0 & Hq & Hl0 & Hqr). simplify_eq.
  pose proof (qrep_bound B s L q _ Hr Hqr) as Hlen. destruct Hqr as (Hc & Ht & Hn).
  pose proof (linked_NoDup _ _ _ _ Hc) as [Htl _]%NoDup_cons.
  pose proof Hc as (Hh & x & Hx & Hc').
  unfold mlfq_dequeue. rewrite (proj2 (Z.leb_gt _ _)) by (unfold MLFQ_QUEUE_COUNT in *; lia).
  rewrite Nat2Z.id. erewrite bind_Ret by (by apply rd_queue_Ret). rewrite Hh.
  erewrite bind_Ret by (by apply rd_task_Ret).
  set (tb1 := <[t:=set_next None x]> (mtbl s)).
  eexists. split; [reflexivity|]. split; [|split].
  - eapply (rep_update B s L i q _ (t :: l) l tb1); try done.
    + by destruct (next x).
    + split; [|split]; simpl.
      * assert (linked link_next tb1 (next x) l) by (by apply chain_frame). by destruct (next x) eqn:E.
      * simpl in Hc'. destruct l as [|t2 l2].
        -- simpl in Hc'. by rewrite Hc'.
        -- destruct Hc' as (-> & _). exact Ht.
      * match goal with |- u32 (q_count ?c - 1) = _ => replace (q_count c) with (q_count q) by (by destruct (next x)) end.
        rewrite Hn. simpl in *. rewrite u32_small by lia. lia.
    + by unfold tb1; rewrite length_insert.
    + intros j Hj. apply list_lookup_insert_ne. set_solver.
    + intros j Hj. left. set_solver.
  - apply keeps_make. by apply same_but_next_insert.
  - exists (set_next None x). apply list_lookup_insert_eq. by eapply lookup_lt_Some.
Qed.

(** The search of [scheduler_mlfq_update_queue]. *)
Lemma find_in_queue_spec s prev p l1 t l2 fuel :
  linked link_next (mtbl s) p (l1 ++ t :: l2) -> t ∉ l1 -> (length l1 <= fuel)%nat ->
  find_in_queue fuel prev p t s = Ret (match last l1 with Some y => Some y | None => prev end, Some t) s.
Proof.
  unfold linked. revert prev p fuel. induction l1 as [|a l1 IH]; intros prev p fuel Hc Ht Hf; destruct Hc as (-> & x & Hx & Hc).
  - by destruct fuel; simpl; rewrite decide_True.
  - simpl in Hf. destruct fuel as [|fuel]; [lia|]. simpl. rewrite decide_False by set_solver.
    erewrite bind_Ret by (by apply rd_task_Ret). rewrite (IH (Some a)); [|exact Hc|set_solver|lia].
    f_equal. f_equal. simpl. destruct l1; [done|]. simpl. destruct (last (n :: l1)) eqn:E; [done|].
    by apply last_None in E.
Qed.

Lemma unlink_queue_spec B s L i t l1 l2 :
  rep B s L -> L !! i = Some (l1 ++ t :: l2) ->
  exists s', unlink_queue i (last l1) t s = Ret tt s' /\ rep B s' (<[i:=l1 ++ l2]> L) /\ keeps s s'.
Proof.
  intros Hr Hl. assert (Hi : (i < MLFQ_QUEUE_COUNT)%nat).
  { rewrite <- (rep_len B s L Hr). by eapply lookup_lt_Some. }
  destruct (rep_lookup B s L i Hr Hi) as (q & l0 & Hq & Hl0 & Hqr). simplify_eq.
  pose proof (qrep_bound B s L q _ Hr Hqr) as Hlen. destruct Hqr as (Hc & Ht & Hn).
  pose proof (linked_NoDup _ _ _ _ Hc) as Hnd.
  apply chain_app in Hc as (r & Hc1 & Hc2). pose proof Hc2 as (-> & x & Hx & Hc3).
  rewrite last_app in Ht.
  unfold unlink_queue. erewrite bind_Ret by (by apply rd_task_Ret).
  erewrite bind_Ret by (by apply rd_queue_Ret).
  assert (Hcount : u32 (q_count q - 1) = Z.of_nat (length (l1 ++ l2))).
  { rewrite Hn, !length_app in *. simpl in *. rewrite u32_small by lia. lia. }
  assert (Hlast : (if decide (tail q = Some t) then last l1 else tail q) = last (l1 ++ l2)).
  { rewrite last_app, Ht. destruct l2 as [|b l2]; [by rewrite decide_True; destruct (last l1)|].
    change (last (t :: b :: l2)) with (last (b :: l2)).
    destruct (last (b :: l2)) as [z|] eqn:Ez; [|by apply last_None in Ez].
    rewrite decide_False; [done|]. intros [= ->].
    apply NoDup_app in Hnd as (_ & _ & [H _]%NoDup_cons). apply H.
    apply last_Some in Ez as [l' ->]. set_solver. }
  assert (Hsubset : forall y, y ∈ l1 ++ l2 -> y ∈ l1 ++ t :: l2 \/ ~ queued L y) by (left; set_solver).
  destruct l1 as [|b l1 _] using rev_ind.
  - erewrite bind_Ret by reflexivity. eexists. split; [reflexivity|]. split; [|by split].
    assert (Hid : set_mtbl (mtbl s) s = s) by (by destruct s as [[] ? ? ? ?]).
    rewrite <- Hid at 2.
    eapply (rep_update B s L i q _ _ ([] ++ l2) (mtbl s)); try done.
    + by destruct (decide _).
    + split; [|split]; simpl.
      * by destruct (decide _).
      * simpl in Hlast. by destruct (decide _).
      * by destruct (decide _).
  - rewrite last_snoc in *. apply chain_app in Hc1 as (r' & Hc1 & Hb). destruct Hb as (-> & y & Hy & Hb).
    assert ((b ∉ l1) /\ (b ∉ t :: l2)) as [Hb1 Hb2].
    { apply NoDup_app in Hnd as (Hn1 & Hd & _). split; [|apply Hd; set_solver].
      apply NoDup_app in Hn1 as (_ & Hd1 & _). intros Hin. apply (Hd1 b Hin). set_solver. }
    erewrite bind_Ret; [|erewrite bind_Ret by (by apply rd_task_Ret); reflexivity].
    eexists. split; [reflexivity|].
    split; [|apply keeps_make; by apply same_but_next_insert].
    eapply (rep_update B s L i q _ _ ((l1 ++ [b]) ++ l2) (<[b:=set_next (next x) y]> (mtbl s))); try done.
    + by destruct (decide _).
    + split; [|split]; simpl.
      * assert (linked link_next (<[b:=set_next (next x) y]> (mtbl s)) (head q) ((l1 ++ [b]) ++ l2)).
        { rewrite <- app_assoc. apply chain_app. exists (Some b). split; [by apply chain_frame|].
          split; [done|]. eexists. split; [apply list_lookup_insert_eq; by eapply lookup_lt_Some|].
          apply chain_frame; [set_solver|exact Hc3]. }
        by destruct (decide _).
      * by destruct (decide _).
      * by destruct (decide _).
    + by rewrite length_insert.
    + intros j Hj. apply list_lookup_insert_ne. set_solver.
Qed.

(** ** Parameters *)
Lemma rd_params_Ret p pr s : params s !! p = Some pr -> rd_params (Some p) s = Ret pr s.
Proof. unfold rd_params. by intros ->. Qed.

Lemma rep_params B s L ps : rep B s L -> rep B (set_params ps s) L.
Proof. intros []. by split. Qed.

Lemma reparam s t x p pr pr' j :
  params_own s -> mtbl s !! t = Some x -> scheduler_data x = Some p -> params s !! p = Some pr ->
  current_queue pr' = Z.of_nat j ->
  let s' := set_params (<[p:=pr']> (params s)) s in
  params_own s' /\ in_queue s' t j /\
  forall t' i, t' <> t -> in_queue s t' i -> in_queue s' t' i.
Proof.
  intros Hown Hx Hsd Hpr Hc s'. split; [|split].
  - intros t1 x1 p1 H1 H2. destruct (Hown t1 x1 p1 H1 H2) as [Hlt Hu].
    simpl. rewrite length_insert. by split.
  - exists x, p, pr'. split; [done|]. split; [done|]. split; [|done].
    simpl. apply list_lookup_insert_eq. by eapply lookup_lt_Some.
  - intros t' i Hne (x' & p' & pr1 & Hx' & Hsd' & Hpr1 & Hc1).
    exists x', p', pr1. split; [done|]. split; [done|]. split; [|done].
    simpl. rewrite list_lookup_insert_ne; [done|]. intros <-. apply Hne.
    by eapply (proj2 (Hown t x p Hx Hsd)).
Qed.

Lemma not_queued_removed B s L i l l' t :
  rep B s L -> L !! i = Some l -> t ∈ l -> t ∉ l' -> ~ queued (<[i:=l']> L) t.
Proof.
  intros Hr Hl Ht Hn (j & lj & Hj & Htj). destruct (decide (i = j)) as [->|Hne].
  - rewrite list_lookup_insert_eq in Hj by (by eapply lookup_lt_Some). by simplify_eq.
  - rewrite list_lookup_insert_ne in Hj by done. apply Hne. by eapply (rep_apart B s L Hr).
Qed.

(** What no operation but a tick changes: the tasks' states, who runs, and the
    boost period. *)
Record stays (s s' : mlfq) : Prop := {
  stays_state : forall t, state <$> mtbl s' !! t = state <$> mtbl s !! t;
  stays_sd : forall t, scheduler_data <$> mtbl s' !! t = scheduler_data <$> mtbl s !! t;
  stays_current : current_task (mq_tasks s') = current_task (mq_tasks s);
  stays_period : boost_period s' = boost_period s
}.
#[export] Instance stays_preorder : PreOrder stays.
Proof. split; [by split|]. intros s1 s2 s3 [] []. split; intros; congruence. Qed.

Lemma keeps_stays s s' : keeps s s' -> stays s s'.
Proof.
  intros [Ht _ Hp _ Hc]. split; [| |done|done]; intros t; specialize (Ht t);
    destruct (mtbl s !! t) as [x|] eqn:E1, (mtbl s' !! t) as [y|] eqn:E2; try done;
    simpl in *; injection Ht; intros; by f_equal.
Qed.

Lemma stays_params s ps : stays s (set_params ps s).
Proof. by split. Qed.

(** A task taken out of queue [i] (leaving [l']) and given new parameters goes
    to the end of queue [j]. *)
Lemma requeue B s s1 L i l l' t j lj pr' x p pr :
  mlfq_ok B s L -> keeps s s1 -> rep B s1 (<[i:=l']> L) -> L !! i = Some l -> t ∈ l -> t ∉ l' ->
  (forall y, y ∈ l' -> y ∈ l) ->
  mtbl s1 !! t = Some x -> scheduler_data x = Some p -> params s1 !! p = Some pr ->
  current_queue pr' = Z.of_nat j -> <[i:=l']> L !! j = Some lj ->
  exists s', mlfq_enqueue (Z.of_nat j) (Some t) (set_params (<[p:=pr']> (params s1)) s1) = Ret tt s' /\
    mlfq_ok B s' (<[j:=lj ++ [t]]> (<[i:=l']> L)) /\ stays s s' /\ boost_counter s' = boost_counter s1.
Proof.
  intros (Hr & Hown & Hname) Hk Hr1 Hl Htl Htl' Hsub Hx Hsd Hpr Hcq Hlj.
  destruct (reparam s1 t x p pr pr' j) as (Hown' & Hint & Hothers); try done.
  { by eapply params_own_keeps. }
  set (s2 := set_params (<[p:=pr']> (params s1)) s1) in *.
  destruct (mlfq_enqueue_spec B s2 (<[i:=l']> L) j t x lj) as (s' & Heq & Hr' & Hk'); try done.
  { by apply rep_params. }
  { by eapply not_queued_removed. }
  exists s'. split; [exact Heq|]. split; [split; [done|split]|split].
  - by eapply params_own_keeps.
  - intros k lk y Hlk Hy. apply (in_queue_keeps s2 s' y k Hk').
    destruct (decide (y = t)) as [->|Hyt].
    + destruct (decide (j = k)) as [->|Hjk]; [exact Hint|].
      rewrite list_lookup_insert_ne in Hlk by done.
      destruct (not_queued_removed B s L i l l' t Hr Hl Htl Htl'). by exists k, lk.
    + apply Hothers; [done|]. apply (in_queue_keeps s s1 y k Hk).
      assert (exists lk', <[i:=l']> L !! k = Some lk' /\ y ∈ lk') as (lk' & Hlk' & Hy').
      { destruct (decide (j = k)) as [->|Hjk].
        - rewrite list_lookup_insert_eq in Hlk by (by eapply lookup_lt_Some). simplify_eq.
          exists lj. split; [done|]. set_solver.
        - rewrite list_lookup_insert_ne in Hlk by done. eauto. }
      destruct (decide (i = k)) as [->|Hik].
      * rewrite list_lookup_insert_eq in Hlk' by (by eapply lookup_lt_Some). simplify_eq.
        apply (Hname k l); [done|]. by apply Hsub.
      * rewrite list_lookup_insert_ne in Hlk' by done. by apply (Hname k lk').
  - etrans; [apply keeps_stays, Hk|]. etrans; [|apply keeps_stays, Hk']. apply stays_params.
  - by rewrite (keeps_counter _ _ Hk').
Qed.

(** ** Boosting *)
Lemma boost_one_spec B s L i t l l0 :
  mlfq_ok B s L -> i <> 0%nat -> L !! i = Some (t :: l) -> L !! 0%nat = Some l0 ->
  exists s', boost_one i s = Ret tt s' /\ mlfq_ok B s' (<[0%nat:=l0 ++ [t]]> (<[i:=l]> L)) /\
             stays s s' /\ boost_counter s' = boost_counter s.
Proof.
  intros Hok Hi Hl H0. pose proof Hok as (Hr & Hown & Hname).
  destruct (mlfq_dequeue_spec B s L i t l Hr Hl) as (s1 & Heq & Hr1 & Hk1 & x & Hx).
  destruct (in_queue_keeps s s1 t i Hk1) as (x' & p & pr & Hx' & Hsd & Hpr & _);
    [eapply Hname; [done|set_solver]|]. simplify_eq.
  destruct (rep_lookup B s1 _ 0%nat Hr1) as (q0 & lq & Hq0 & _); [unfold MLFQ_QUEUE_COUNT; lia|].
  assert (Htl : t ∉ l).
  { destruct (rep_lookup B s L i Hr) as (q & l1 & _ & Hl1 & Hc & _).
    - rewrite <- (rep_len B s L Hr). by eapply lookup_lt_Some.
    - simplify_eq. by apply linked_NoDup, NoDup_cons in Hc as []. }
  unfold boost_one. erewrite bind_Ret by exact Heq. simpl.
  erewrite bind_Ret by reflexivity. erewrite bind_Ret by (by apply rd_task_Ret).
  rewrite Hsd. erewrite bind_Ret by (by apply rd_params_Ret).
  erewrite bind_Ret by (by apply rd_queue_Ret). erewrite bind_Ret by reflexivity.
  destruct (requeue B s s1 L i (t :: l) l t 0%nat l0
              (set_mq_time_slice (time_quantum q0) (set_current_queue 0 pr)) x p pr)
    as (s' & He & Hok' & Hst & Hcnt); try done.
  - set_solver.
  - set_solver.
  - by rewrite list_lookup_insert_ne.
  - exists s'. split; [exact He|]. split; [done|]. split; [done|]. by rewrite Hcnt, (keeps_counter _ _ Hk1).
Qed.

Lemma boost_queue_spec B i l fuel s L l0 :
  mlfq_ok B s L -> i <> 0%nat -> L !! i = Some l -> L !! 0%nat = Some l0 -> (length l <= fuel)%nat ->
  exists s', boost_queue fuel i s = Ret tt s' /\ mlfq_ok B s' (<[0%nat:=l0 ++ l]> (<[i:=[]]> L)) /\
             stays s s' /\ boost_counter s' = boost_counter s.
Proof.
  revert fuel s L l0. induction l as [|t l IH]; intros fuel s L l0 Hok Hi Hl H0 Hf;
    pose proof Hok as (Hr & _ & _);
    destruct (rep_lookup B s L i Hr) as (q & l1 & Hq & Hl1 & Hc & _);
    try (rewrite <- (rep_len B s L Hr); by eapply lookup_lt_Some); simplify_eq;
    (destruct fuel as [|fuel]; [try (simpl in Hf; lia)|]); simpl;
    erewrite bind_Ret by (by apply rd_queue_Ret).
  1,2: rewrite Hc; exists s; (split; [done|]); (split; [|done]);
    rewrite (list_insert_id L i []) by done; rewrite app_nil_r, list_insert_id by done; done.
  destruct Hc as (-> & _).
  destruct (boost_one_spec B s L i t l l0 Hok Hi Hl H0) as (s1 & Heq & Hok1 & Hst1 & Hc1).
  erewrite bind_Ret by exact Heq.
  destruct (IH fuel s1 _ (l0 ++ [t]) Hok1 Hi) as (s' & He & Hok' & Hst & Hcnt).
  - rewrite list_lookup_insert_ne by done. apply list_lookup_insert_eq. by eapply lookup_lt_Some.
  - apply list_lookup_insert_eq. rewrite length_insert. by eapply lookup_lt_Some.
  - simpl in Hf. lia.
  - exists s'. split; [exact He|]. split; [|split; [by etrans|congruence]].
    rewrite (list_insert_insert_ne _ i 0%nat), !list_insert_insert_eq in Hok' by done.
    rewrite <- app_assoc in Hok'. exact Hok'.
Qed.

(** The queues after queues 1 to [k] were moved into queue 0. *)
Definition boosted (L : list (list nat)) (k : nat) : list (list nat) :=
  concat (take (S k) L) :: replicate k [] ++ drop (S k) L.

Lemma boosted_step L k l :
  L !! S k = Some l ->
  <[0%nat:=concat (take (S k) L) ++ l]> (<[S k:=[]]> (boosted L k)) = boosted L (S k).
Proof.
  intros Hl. unfold boosted. simpl.
  rewrite (take_S_r L (S k) l Hl), concat_app. simpl. rewrite app_nil_r. f_equal.
  rewrite (drop_S L l (S k) Hl).
  rewrite <- (length_replicate k (@nil nat)) at 1.
  rewrite <- (Nat.add_0_r (length _)), insert_app_r. simpl.
  rewrite app_comm_cons, replicate_cons_app, <- app_assoc. done.
Qed.

Lemma boost_queues_spec B L n k s :
  mlfq_ok B s (boosted L k) -> length L = MLFQ_QUEUE_COUNT -> (k + n < MLFQ_QUEUE_COUNT)%nat ->
  exists s', for_each (seq (S k) n) (boost_queue MAX_TASKS) s = Ret tt s' /\
             mlfq_ok B s' (boosted L (k + n)) /\ stays s s' /\ boost_counter s' = boost_counter s.
Proof.
  revert k s. induction n as [|n IH]; intros k s Hok Hlen Hk.
  - exists s. rewrite Nat.add_0_r. by split.
  - destruct (lookup_lt_is_Some_2 L (S k)) as [l Hl]; [lia|].
    assert (Hbl : boosted L k !! S k = Some l).
    { unfold boosted. simpl. rewrite lookup_app_r by (rewrite length_replicate; lia).
      rewrite length_replicate, Nat.sub_diag, lookup_drop, Nat.add_0_r. exact Hl. }
    pose proof Hok as (Hr & _). destruct (rep_lookup B s _ (S k) Hr) as (q & l1 & Hq & Hl1 & Hqr); [lia|].
    simplify_eq. pose proof (qrep_bound _ _ _ _ _ Hr Hqr).
    destruct (boost_queue_spec B (S k) l MAX_TASKS s (boosted L k) (concat (take (S k) L)))
      as (s1 & Heq & Hok1 & Hst1 & Hc1); try done.
    rewrite boosted_step in Hok1 by done. simpl. erewrite bind_Ret by exact Heq.
    destruct (IH (S k) s1 Hok1) as (s' & He & Hok' & Hst' & Hc'); [done|lia|].
    exists s'. split; [exact He|]. replace (k + S n)%nat with (S k + n)%nat by lia.
    split; [done|]. split; [by etrans|congruence].
Qed.

Definition all_in_first (L : list (list nat)) : list (list nat) := concat L :: replicate 7 [].

Lemma scheduler_mlfq_boost_spec B s L :
  mlfq_ok B s L ->
  exists s', scheduler_mlfq_boost s = Ret tt s' /\ mlfq_ok B s' (all_in_first L) /\
             stays s s' /\ boost_counter s' = 0.
Proof.
  intros Hok. pose proof Hok as (Hr & _). pose proof (rep_len B s L Hr) as Hlen.
  assert (Hb0 : boosted L 0 = L).
  { unfold boosted. destruct L as [|l0 L]; [done|]. simpl. by rewrite app_nil_r. }
  assert (Hb7 : boosted L 7 = all_in_first L).
  { unfold boosted, all_in_first. rewrite take_ge, drop_ge by (rewrite Hlen; done). by rewrite app_nil_r. }
  destruct (boost_queues_spec B L 7 0 s) as (s1 & Heq & Hok1 & Hst & Hc); try done.
  { by rewrite Hb0. }
  { unfold MLFQ_QUEUE_COUNT. lia. }
  unfold scheduler_mlfq_boost. erewrite bind_Ret by reflexivity. rewrite (rep_tbl B s L Hr).
  erewrite bind_Ret by exact Heq. eexists. split; [reflexivity|].
  simpl in Hok1. rewrite Hb7 in Hok1. destruct Hok1 as (Hr1 & Hown & Hname).
  split; [|split; [|done]].
  - split; [|by split]. by destruct Hr1; split.
  - by destruct Hst; split.
Qed.

(** ** Demotion, new tasks, ticks and the choice of the next task *)

(** The queue after [i]; the last one keeps its tasks. *)
Definition demoted (i : nat) : nat := Nat.min (S i) 7.

Lemma scheduler_mlfq_update_queue_spec B s L i l1 t l2 x p pr l' :
  mlfq_ok B s L -> L !! i = Some (l1 ++ t :: l2) ->
  mtbl s !! t = Some x -> scheduler_data x = Some p -> params s !! p = Some pr ->
  mq_time_slice pr = 0 -> <[i:=l1 ++ l2]> L !! demoted i = Some l' ->
  exists s', scheduler_mlfq_update_queue (Some t) s = Ret tt s' /\
             mlfq_ok B s' (<[demoted i:=l' ++ [t]]> (<[i:=l1 ++ l2]> L)) /\
             stays s s' /\ boost_counter s' = boost_counter s.
Proof.
  intros Hok Hl Hx Hsd Hpr Hts Hl'. pose proof Hok as (Hr & Hown & Hname).
  assert (Hi : (i < MLFQ_QUEUE_COUNT)%nat) by (rewrite <- (rep_len B s L Hr); by eapply lookup_lt_Some).
  destruct (Hname i _ t Hl ltac:(set_solver)) as (x' & p' & pr1 & Hx' & Hsd' & Hpr1 & Hcq). simplify_eq.
  unfold scheduler_mlfq_update_queue. erewrite bind_Ret by (by apply rd_task_Ret). rewrite Hsd.
  erewrite bind_Ret by (by apply rd_params_Ret). rewrite Hts. change (0 =? 0) with true. cbv beta iota zeta.
  rewrite Hcq, Nat2Z.id.
  destruct (rep_lookup B s L i Hr Hi) as (q & l0 & Hq & Hl0 & Hqr). simplify_eq.
  pose proof (qrep_bound B s L q _ Hr Hqr) as Hlen. destruct Hqr as (Hc & _).
  erewrite bind_Ret by (by apply rd_queue_Ret). erewrite bind_Ret by reflexivity.
  pose proof (linked_NoDup _ _ _ _ Hc) as Hnd.
  assert (Ht1 : (t ∉ l1) /\ (t ∉ l2)).
  { apply NoDup_app in Hnd as (_ & Hd & [? _]%NoDup_cons). split; [|done].
    intros Hin. apply (Hd t Hin). set_solver. }
  destruct Ht1 as [Ht1 Ht2].
  erewrite bind_Ret.
  2: { apply (find_in_queue_spec s None (head q) l1 t l2); [done|done|].
       rewrite (rep_tbl B s L Hr). rewrite length_app in Hlen. unfold MAX_TASKS. simpl in *. lia. }
  assert (match last l1 with Some y => Some y | None => None end = last l1) as -> by (by destruct (last l1)).
  destruct (unlink_queue_spec B s L i t l1 l2 Hr Hl) as (s1 & Heq & Hr1 & Hk1).
  cbn [fst snd]. erewrite bind_Ret by exact Heq.
  assert (Hnext : (if Z.of_nat MLFQ_QUEUE_COUNT <=? u32 (Z.of_nat i + 1)
                   then Z.of_nat MLFQ_QUEUE_COUNT - 1 else u32 (Z.of_nat i + 1)) = Z.of_nat (demoted i)).
  { unfold MLFQ_QUEUE_COUNT, demoted in *. rewrite u32_small by lia.
    destruct (Z.leb_spec (Z.of_nat 8) (Z.of_nat i + 1)); lia. }
  rewrite Hnext, Nat2Z.id.
  destruct (rep_lookup B s1 _ (demoted i) Hr1) as (nq & l3 & Hnq & _);
    [unfold demoted, MLFQ_QUEUE_COUNT; lia|].
  erewrite bind_Ret by (by apply rd_queue_Ret). erewrite bind_Ret by reflexivity.
  assert (Hqt : in_queue s t i) by (by exists x, p, pr).
  destruct (in_queue_keeps s s1 t i Hk1 Hqt) as (x1 & p1 & pr1 & Hx1 & Hsd1 & Hpr1 & _).
  destruct (same_but_next_lookup _ _ _ _ (keeps_tbl _ _ Hk1) Hx) as (x2 & Hx2 & Hsd2 & _). simplify_eq.
  assert (p1 = p) as -> by congruence.
  destruct (requeue B s s1 L i (l1 ++ t :: l2) (l1 ++ l2) t (demoted i) l'
              (set_mq_time_slice (time_quantum nq) (set_current_queue (Z.of_nat (demoted i)) pr)) x1 p pr1)
    as (s' & He & Hok' & Hst & Hcnt); try done.
  - set_solver.
  - set_solver.
  - set_solver.
  - exists s'. rewrite (keeps_counter _ _ Hk1) in Hcnt. split; [|done].
    rewrite (keeps_params _ _ Hk1) in He |- *. exact He.
Qed.

(** [scheduler_mlfq_tick] when no boost is due: time passes, the queues stay. *)
Lemma scheduler_mlfq_tick_spec B s L c x p :
  mlfq_ok B s L -> current_task (mq_tasks s) = Some c -> mtbl s !! c = Some x ->
  scheduler_data x = Some p -> 0 <= boost_counter s < 4294967295 ->
  exists s', scheduler_mlfq_tick s = Ret tt s' /\ stays s s' /\
    if boost_period s <=? boost_counter s + 1
    then mlfq_ok B s' (all_in_first L) /\ boost_counter s' = 0
    else mlfq_ok B s' L /\ boost_counter s' = boost_counter s + 1.
Proof.
  intros (Hr & Hown & Hname) Hc Hx Hsd Hcnt.
  destruct (Hown c x p Hx Hsd) as [Hlt _]. destruct (lookup_lt_is_Some_2 _ _ Hlt) as [pr Hpr].
  unfold scheduler_mlfq_tick. erewrite bind_Ret by reflexivity. rewrite Hc.
  erewrite bind_Ret by (by apply rd_task_Ret). rewrite Hsd.
  erewrite bind_Ret by (by apply rd_params_Ret).
  set (pr' := if 0 <? mq_time_slice pr then set_mq_time_slice (mq_time_slice pr - 1) pr else pr).
  set (s1 := set_params (<[p:=pr']> (params s)) s).
  assert (Hstep : (if 0 <? mq_time_slice pr
                   then wr_params (Some p) (set_mq_time_slice (mq_time_slice pr - 1) pr) else ret tt) s
                  = Ret tt s1).
  { unfold s1, pr'. destruct (0 <? mq_time_slice pr); [done|].
    rewrite list_insert_id by done. by destruct s. }
  assert (Hok1 : mlfq_ok B s1 L).
  { split; [by apply rep_params|].
    assert (Hcq : current_queue pr' = current_queue pr) by (unfold pr'; by destruct (0 <? _)).
    split.
    - intros t1 x1 p1 H1 H2. destruct (Hown t1 x1 p1 H1 H2) as [H3 Hu].
      simpl. rewrite length_insert. by split.
    - intros i l t Hl Ht. destruct (Hname i l t Hl Ht) as (x' & p' & pr1 & Hx' & Hsd' & Hpr1 & Hcq1).
      destruct (decide (p = p')) as [<-|Hne].
      + exists x', p, pr'. simplify_eq. split; [done|]. split; [done|]. split; [|congruence].
        simpl. by apply list_lookup_insert_eq.
      + exists x', p', pr1. split; [done|]. split; [done|]. split; [|done].
        simpl. by rewrite list_lookup_insert_ne. }
  erewrite bind_Ret by exact Hstep. erewrite bind_Ret by reflexivity. erewrite bind_Ret by reflexivity.
  simpl. rewrite u32_small by lia.
  set (s2 := set_boost_counter (boost_counter s + 1) s1).
  assert (Hok2 : mlfq_ok B s2 L).
  { destruct Hok1 as ([] & Ho & Hn). split; [by split|]. by split. }
  destruct (_ <=? _).
  - destruct (scheduler_mlfq_boost_spec B s2 L Hok2) as (s' & He & Hok' & Hst & Hz).
    exists s'. split; [exact He|]. split; [|done]. destruct Hst. by split.
  - exists s2. split; [done|]. split; [by split|]. by split.
Qed.

(** The first READY task of a list. *)
Definition ready_in (tb : list task_t) (t : nat) : bool :=
  match tb !! t with Some x => bool_decide (state x = TASK_READY) | None => false end.
Definition find_ready (tb : list task_t) (l : list nat) : ptr := list.head (filter (ready_in tb) l).

Lemma first_ready_spec s l p fuel :
  linked link_next (mtbl s) p l -> (length l <= fuel)%nat ->
  first_ready fuel p s = Ret (find_ready (mtbl s) l) s.
Proof.
  unfold linked. revert p fuel. induction l as [|t l IH]; intros p fuel Hc Hf.
  - simpl in Hc. subst. by destruct fuel.
  - destruct Hc as (-> & x & Hx & Hc). simpl in Hf. destruct fuel as [|fuel]; [lia|]. simpl.
    erewrite bind_Ret by (by apply rd_task_Ret). unfold find_ready. rewrite filter_cons.
    assert (Hrt : ready_in (mtbl s) t = bool_decide (state x = TASK_READY)) by (unfold ready_in; by rewrite Hx).
    destruct (decide (state x = TASK_READY)) as [Hs|Hs].
    + rewrite decide_True by (by rewrite Hrt, bool_decide_eq_true_2). done.
    + rewrite decide_False by (rewrite Hrt, bool_decide_eq_false_2 by done; by intros []). apply IH; [exact Hc|lia].
Qed.

Lemma find_ready_app tb l1 l2 :
  find_ready tb (l1 ++ l2) = match find_ready tb l1 with Some t => Some t | None => find_ready tb l2 end.
Proof. unfold find_ready. rewrite filter_app. by destruct (filter (ready_in tb) l1). Qed.

Lemma next_from_spec B s L fuel k n :
  rep B s L -> (MAX_TASKS <= fuel)%nat -> (k + n = MLFQ_QUEUE_COUNT)%nat ->
  next_from fuel (seq k n) s = Ret (find_ready (mtbl s) (concat (drop k L))) s.
Proof.
  intros Hr Hfuel. revert k. induction n as [|n IH]; intros k Hk.
  - simpl. rewrite drop_ge by (rewrite (rep_len B s L Hr); lia). done.
  - simpl. destruct (rep_lookup B s L k Hr) as (q & l & Hq & Hl & Hqr); [lia|].
    pose proof (qrep_bound B s L q l Hr Hqr). destruct Hqr as (Hc & _).
    erewrite bind_Ret by (by apply rd_queue_Ret).
    erewrite bind_Ret by (apply first_ready_spec; [done|unfold MAX_TASKS in *; lia]).
    rewrite (drop_S L l k Hl). simpl. rewrite find_ready_app.
    destruct (find_ready (mtbl s) l); [done|]. apply IH. lia.
Qed.

Lemma scheduler_mlfq_next_spec B s L :
  rep B s L -> scheduler_mlfq_next s = Ret (find_ready (mtbl s) (concat L)) s.
Proof.
  intros Hr. unfold scheduler_mlfq_next. erewrite bind_Ret by reflexivity.
  rewrite (rep_tbl B s L Hr). by rewrite (next_from_spec B s L _ 0 8).
Qed.

Lemma empty_queues_lookup B i q :
  empty_queues B !! i = Some q ->
  q = {| head := None; tail := None; time_quantum := quantum B i; q_count := 0 |}.
Proof. intros (j & -> & [-> _]%lookup_seq)%list_lookup_fmap_Some. done. Qed.

Lemma scheduler_mlfq_init_spec B s :
  length (mtbl s) = MAX_TASKS -> params_own s ->
  exists s', scheduler_mlfq_init B s = Ret tt s' /\ mlfq_ok B s' (replicate MLFQ_QUEUE_COUNT []).
Proof.
  intros Hlen Hown. exists (set_queues (empty_queues B) s).
  split; [reflexivity|]. split; [|split; [done|]].
  - split; try done.
    + intros i q l Hq [-> _]%lookup_replicate. simpl in Hq. by apply empty_queues_lookup in Hq as ->.
    + intros i j l l' t [-> _]%lookup_replicate _ Ht. by apply not_elem_of_nil in Ht.
    + intros i q Hq. by apply empty_queues_lookup in Hq as ->.
  - intros i l t [-> _]%lookup_replicate Ht. by apply not_elem_of_nil in Ht.
Qed.

Lemma scheduler_mlfq_init_task_spec B s L t x l0 :
  mlfq_ok B s L -> ~ queued L t -> mtbl s !! t = Some x -> L !! 0%nat = Some l0 ->
  exists s', scheduler_mlfq_init_task true t s = Ret tt s' /\ mlfq_ok B s' (<[0%nat:=l0 ++ [t]]> L).
Proof.
  intros (Hr & Hown & Hname) Hnq Hx Hl0.
  destruct (rep_lookup B s L 0%nat Hr) as (q0 & l & Hq0 & Hl & _); [unfold MLFQ_QUEUE_COUNT; lia|].
  unfold scheduler_mlfq_init_task. erewrite bind_Ret by (by apply rd_queue_Ret).
  erewrite bind_Ret by reflexivity. erewrite bind_Ret by reflexivity.
  erewrite bind_Ret by (by apply rd_task_Ret). erewrite bind_Ret by reflexivity.
  set (p := length (params s)). set (pr := {| current_queue := 0; mq_time_slice := time_quantum q0; boost_ticks := 0 |}).
  set (x1 := set_scheduler_data (Some p) x).
  set (s1 := set_mtbl (<[t:=x1]> (mtbl s)) (set_params (params s ++ [pr]) s)).
  assert (Hx1 : mtbl s1 !! t = Some x1) by (apply list_lookup_insert_eq; by eapply lookup_lt_Some).
  assert (Hold : forall t' x', t' <> t -> mtbl s1 !! t' = Some x' -> mtbl s !! t' = Some x').
  { intros t' x' Hne. unfold s1, mtbl. simpl. by rewrite list_lookup_insert_ne. }
  assert (Hr1 : rep B s1 L).
  { destruct Hr as [H1 H2 H3 H4 H5 H6]. split; try done.
    - unfold s1, mtbl. simpl. by rewrite length_insert.
    - intros i q l1 Hq Hl1. destruct (H4 i q l1 Hq Hl1) as (Hc & Hrest). split; [|done].
      by eapply chain_field. }
  assert (Hown1 : params_own s1).
  { intros t1 y p1 Hy Hsd. simpl. rewrite length_app. simpl. destruct (decide (t1 = t)) as [->|Hne].
    - rewrite Hx1 in Hy. injection Hy as <-. injection Hsd as <-. split; [unfold p; lia|]. intros t' x' Hx' Hsd'.
      destruct (decide (t' = t)); [done|]. destruct (Hown t' x' p) as [Hlt _]; [by apply Hold|done|unfold p in *; lia].
    - destruct (Hown t1 y p1) as [Hlt Hu]; [by apply Hold|done|]. split; [lia|]. intros t' x' Hx' Hsd'.
      destruct (decide (t' = t)) as [->|Hne']; [|by apply (Hu t' x'); [apply Hold|]].
      rewrite Hx1 in Hx'. injection Hx' as <-. injection Hsd' as <-. unfold p in Hlt. lia. }
  destruct (mlfq_enqueue_spec B s1 L 0%nat t x1 l0 Hr1 Hl0 Hnq Hx1) as (s' & He & Hr' & Hk').
  exists s'. split; [exact He|]. split; [done|]. split; [by eapply params_own_keeps|].
  intros i li y Hli Hy. apply (in_queue_keeps s1 s' y i Hk').
  destruct (decide (y = t)) as [->|Hyt].
  - assert (i = 0%nat) as ->.
    { destruct (decide (i = 0%nat)) as [|Hne]; [done|]. rewrite list_lookup_insert_ne in Hli by done.
      destruct Hnq. by exists i, li. }
    exists x1, p, pr. split; [done|]. split; [done|]. split; [|done].
    simpl. unfold p. by rewrite lookup_app_r, Nat.sub_diag by lia.
  - assert (exists l1, L !! i = Some l1 /\ y ∈ l1) as (l1 & Hl1 & Hy1).
    { destruct (decide (0%nat = i)) as [<-|Hne].
      - rewrite list_lookup_insert_eq in Hli by (by eapply lookup_lt_Some). simplify_eq.
        exists l0. split; [done|]. set_solver.
      - rewrite list_lookup_insert_ne in Hli by done. eauto. }
    destruct (Hname i l1 y Hl1 Hy1) as (x' & p' & pr' & Hx' & Hsd' & Hpr' & Hcq').
    exists x', p', pr'. split; [unfold s1, mtbl; simpl; by rewrite list_lookup_insert_ne|].
    split; [done|]. split; [|done]. simpl. by apply lookup_app_l_Some.
Qed.

(** A number of clock ticks in a row. *)
Definition mlfq_ticks (n : nat) : Cmd mlfq unit := for_each (seq 0 n) (fun _ => scheduler_mlfq_tick).

Lemma mlfq_ticks_spec B n k s L c x p :
  mlfq_ok B s L -> current_task (mq_tasks s) = Some c -> mtbl s !! c = Some x ->
  scheduler_data x = Some p -> 0 <= boost_counter s -> boost_period s <= 4294967295 ->
  boost_period s = boost_counter s + Z.of_nat (S n) ->
  exists s', for_each (seq k (S n)) (fun _ => scheduler_mlfq_tick) s = Ret tt s' /\
             mlfq_ok B s' (all_in_first L) /\ boost_counter s' = 0 /\ stays s s'.
Proof.
  revert k s x. induction n as [|n IH]; intros k s x Hok Hc Hx Hsd H0 Hb Hn;
    destruct (scheduler_mlfq_tick_spec B s L c x p) as (s1 & Heq & Hst & Hres); try done; try lia;
    simpl; erewrite bind_Ret by exact Heq.
  - rewrite (proj2 (Z.leb_le _ _)) in Hres by lia. exists s1. by destruct Hres.
  - rewrite (proj2 (Z.leb_gt _ _)) in Hres by lia. destruct Hres as [Hok1 Hc1].
    pose proof (stays_sd _ _ Hst c) as Hsd1. rewrite Hx in Hsd1.
    destruct (mtbl s1 !! c) as [x1|] eqn:Hx1; [|done]. simpl in Hsd1. injection Hsd1. intros Hsd2.
    destruct (IH (S k) s1 x1) as (s' & He & Hok' & Hz & Hst'); try done.
    + by rewrite (stays_current _ _ Hst).
    + congruence.
    + lia.
    + by rewrite (stays_period _ _ Hst).
    + rewrite (stays_period _ _ Hst). lia.
    + exists s'. split; [exact He|]. split; [done|]. split; [done|]. by etrans.
Qed.

Lemma find_ready_stays s s' l : stays s s' -> find_ready (mtbl s') l = find_ready (mtbl s) l.
Proof.
  intros Hst. unfold find_ready. f_equal. apply list_filter_iff. intros t.
  pose proof (stays_state _ _ Hst t) as Ht. unfold ready_in.
  destruct (mtbl s !! t), (mtbl s' !! t); simplify_eq/=; try done. by rewrite Ht.
Qed.

Lemma concat_all_in_first L : concat (all_in_first L) = concat L.
Proof. unfold all_in_first. simpl. by rewrite !app_nil_r. Qed.

(** ** Properties *)


(** No task starves in a low queue: while a task with parameters runs, the
    ticks left until the boost period are over put every queued task back into
    queue 0, highest queue first and in the order of each queue, whatever the
    queues hold; the counter starts again and the next task chosen is the first
    READY one in that order. *)
Theorem mlfq_no_starvation (B : Z) (s : mlfq) (L : list (list nat)) (c : nat) (x : task_t) (p : nat)
    (Hok : mlfq_ok B s L) (Hcur : current_task (mq_tasks s) = Some c) (Hx : mtbl s !! c = Some x)
    (Hsd : scheduler_data x = Some p) (Hcnt : 0 <= boost_counter s < boost_period s)
    (Hper : boost_period s <= UINT32_MAX) :
  exists s', mlfq_ticks (Z.to_nat (boost_period s - boost_counter s)) s = Ret tt s' /\
             mlfq_ok B s' (all_in_first L) /\ boost_counter s' = 0 /\
             scheduler_mlfq_next s' = Ret (find_ready (mtbl s) (concat L)) s'.
Proof.
  destruct (Z.to_nat (boost_period s - boost_counter s)) as [|n] eqn:En; [lia|].
  destruct (mlfq_ticks_spec B n 0 s L c x p) as (s' & He & Hok' & Hz & Hst); try done; try lia.
  exists s'. split; [exact He|]. split; [done|]. split; [done|].
  rewrite (scheduler_mlfq_next_spec B s' _ (proj1 Hok')), concat_all_in_first.
  by rewrite (find_ready_stays _ _ _ Hst).
Qed.

(** Two READY tasks, the second running, just after initialisation. *)
Definition mlfq_start : mlfq := {|
  mq_tasks := {| task_list := replicate MAX_TASKS zero_task; current_task := Some 1%nat;
                 idle_task := None; task_count := 2; freed := [] |};
  queues := []; params := []; boost_period := 100; boost_counter := 98 |}.
Definition mlfq_setup : Cmd mlfq unit :=
  scheduler_mlfq_init 10 ;;; scheduler_mlfq_init_task true 0 ;;; scheduler_mlfq_init_task true 1.

Lemma mlfq_setup_ok :
  exists s, mlfq_setup mlfq_start = Ret tt s /\ mlfq_ok 10 s ([0; 1]%nat :: replicate 7 []).
Proof.
  destruct (scheduler_mlfq_init_spec 10 mlfq_start) as (s1 & H1 & Hok1); [done| |].
  { intros t x p [-> _]%lookup_replicate. done. }
  assert (Hm1 : mtbl s1 = replicate MAX_TASKS zero_task) by (injection H1 as <-; done).
  destruct (scheduler_mlfq_init_task_spec 10 s1 _ 0 zero_task [] Hok1) as (s2 & H2 & Hok2).
  { intros (i & l & [-> _]%lookup_replicate & Ht). by apply not_elem_of_nil in Ht. }
  { by rewrite Hm1. }
  { done. }
  assert (exists y, mtbl s2 !! 1%nat = Some y) as [y Hy].
  { apply lookup_lt_is_Some_2. rewrite (rep_tbl _ _ _ (proj1 Hok2)). unfold MAX_TASKS. lia. }
  destruct (scheduler_mlfq_init_task_spec 10 s2 _ 1 y [0%nat] Hok2) as (s3 & H3 & Hok3); try done.
  { intros (i & l & Hi & Ht). destruct i as [|i]; [simpl in Hi; simplify_eq; set_solver|].
    change (replicate 7 [] !! i = Some l) in Hi. apply lookup_replicate in Hi as [-> _]. set_solver. }
  exists s3. split; [|exact Hok3].
  unfold mlfq_setup. erewrite bind_Ret by exact H1. erewrite bind_Ret by exact H2. exact H3.
Qed.


Lemma mlfq_no_starvation_witness :
  exists s s', mlfq_setup mlfq_start = Ret tt s /\ mlfq_ticks 2 s = Ret tt s' /\ boost_counter s' = 0.
Proof.
  destruct mlfq_setup_ok as (s & Hs & Hok). pose proof Hs as Hs'. injection Hs' as Hs'.
  destruct (mlfq_no_starvation 10 s _ 1 (set_next None (set_scheduler_data (Some 1%nat) zero_task)) 1 Hok)
    as (s' & Ht & _ & Hz & _).
  - rewrite <- Hs'. reflexivity.
  - rewrite <- Hs'. vm_compute. reflexivity.
  - reflexivity.
  - rewrite <- Hs'. vm_compute. split; [discriminate|reflexivity].
  - rewrite <- Hs'. vm_compute. discriminate.
  - exists s, s'. split; [exact Hs|]. split; [|exact Hz]. rewrite <- Ht, <- Hs'. vm_compute. reflexivity.
Defined.
