(* ===== verification/RtSched.v ===== *)
(** * RtSched

    src/src/scheduler_rt.c: earliest-deadline-first and rate-monotonic choice of
    the next task over the list of real-time tasks, release of periodic tasks
    and the tick handler.  The list is threaded through [next]; each task's
    [scheduler_data] points to its parameters. *)
From stdpp Require Import strings.
From S2P Require Import Prelude Links Task WaitQueue Mutex.

(** ** Data *)

(** [realtime_params_t]; [execution_time] is a field the tick handler uses and
    the header does not declare. *)
Record realtime_params_t : Type := RtParams {
  period : Z;
  deadline : Z;
  execution : Z;
  next_release : Z;
  execution_time : Z
}.

Definition set_deadline (v : Z) (x : realtime_params_t) : realtime_params_t := {|
  period := period x; deadline := v; execution := execution x;
  next_release := next_release x; execution_time := execution_time x |}.
Definition set_next_release (v : Z) (x : realtime_params_t) : realtime_params_t := {|
  period := period x; deadline := deadline x; execution := execution x;
  next_release := v; execution_time := execution_time x |}.
Definition set_execution_time (v : Z) (x : realtime_params_t) : realtime_params_t := {|
  period := period x; deadline := deadline x; execution := execution x;
  next_release := next_release x; execution_time := v |}.

(** The file's static variables, the heap of parameters, the clock read by
    [timer_get_ticks] and the counter of missed deadlines. *)
Record rts : Type := Rts {
  r_kern : kern;
  rt_tasks : ptr;
  rt_task_count : Z;
  rt_params : list realtime_params_t;
  ticks : Z;
  missed_deadlines : Z
}.

Definition set_r_kern (v : kern) (x : rts) : rts := {|
  r_kern := v; rt_tasks := rt_tasks x; rt_task_count := rt_task_count x;
  rt_params := rt_params x; ticks := ticks x; missed_deadlines := missed_deadlines x |}.
Definition set_rt_tasks (v : ptr) (x : rts) : rts := {|
  r_kern := r_kern x; rt_tasks := v; rt_task_count := rt_task_count x;
  rt_params := rt_params x; ticks := ticks x; missed_deadlines := missed_deadlines x |}.
Definition set_rt_task_count (v : Z) (x : rts) : rts := {|
  r_kern := r_kern x; rt_tasks := rt_tasks x; rt_task_count := v;
  rt_params := rt_params x; ticks := ticks x; missed_deadlines := missed_deadlines x |}.
Definition set_rt_params (v : list realtime_params_t) (x : rts) : rts := {|
  r_kern := r_kern x; rt_tasks := rt_tasks x; rt_task_count := rt_task_count x;
  rt_params := v; ticks := ticks x; missed_deadlines := missed_deadlines x |}.
Definition set_missed_deadlines (v : Z) (x : rts) : rts := {|
  r_kern := r_kern x; rt_tasks := rt_tasks x; rt_task_count := rt_task_count x;
  rt_params := rt_params x; ticks := ticks x; missed_deadlines := v |}.

Definition rt_tbl (s : rts) : list task_t := tbl (r_kern s).

(** ** Operations *)
Definition rt_task (i : nat) : Cmd rts task_t :=
  fun s => match rt_tbl s !! i with Some t => Ret t s | None => Stop Fault end.
Definition rt_set_task (i : nat) (t : task_t) : Cmd rts unit :=
  modify (fun s => set_r_kern (set_tbl (<[i:=t]> (rt_tbl s)) (r_kern s)) s).
Definition rt_get_params (p : ptr) : Cmd rts realtime_params_t :=
  fun s => match p with
           | Some i => match rt_params s !! i with Some x => Ret x s | None => Stop Fault end
           | None => Stop Fault
           end.
Definition rt_put_params (p : ptr) (x : realtime_params_t) : Cmd rts unit :=
  match p with
  | Some i => modify (fun s => set_rt_params (<[i:=x]> (rt_params s)) s)
  | None => fail Fault
  end.

(** The loop [edf_schedule] and [rm_schedule] share: the first task of least
    [key] among the READY ones. *)
Fixpoint min_loop (key : realtime_params_t -> Z) (fuel : nat) (task best : ptr) (least : Z) : Cmd rts ptr :=
  match task with
  | None => ret best
  | Some t =>
      match fuel with
      | O => fail NoFuel
      | S fuel' =>
          let* x := rt_task t in
          if decide (state x = TASK_READY) then
            let* pr := rt_get_params (scheduler_data x) in
            if key pr <? least then min_loop key fuel' (next x) (Some t) (key pr)
            else min_loop key fuel' (next x) best least
          else min_loop key fuel' (next x) best least
      end
  end.

Definition edf_schedule : Cmd rts ptr :=
  let* s := get in min_loop deadline (length (rt_tbl s)) (rt_tasks s) None UINT32_MAX.
Definition rm_schedule : Cmd rts ptr :=
  let* s := get in min_loop period (length (rt_tbl s)) (rt_tasks s) None UINT32_MAX.

(** [pr] is what [params] points to; [malloc_ok] is whether memory is found. *)
Definition scheduler_set_realtime_params (malloc_ok : bool) (task : ptr) (pr : option realtime_params_t)
    : Cmd rts unit :=
  match task, pr with
  | Some t, Some pr =>
      if malloc_ok then
        let* s := get in
        let p := length (rt_params s) in
        modify (set_rt_params (rt_params s ++ [set_next_release (u32 (ticks s + period pr)) pr])) ;;;
        let* x := rt_task t in
        rt_set_task t (set_next (rt_tasks s) (set_scheduler_data (Some p) x)) ;;;
        modify (set_rt_tasks (Some t)) ;;;
        modify (fun s => set_rt_task_count (u32 (rt_task_count s + 1)) s)
      else ret tt
  | _, _ => ret tt
  end.

(** The utilisation test, over any representation of C's [float] and its
    operations. *)
Section schedulability.
Context {F : Type} (of_uint : Z -> F) (fadd fsub fmul fdiv fpow : F -> F -> F) (fle : F -> F -> bool).

Fixpoint utilization (fuel : nat) (task : ptr) (total : F) : Cmd rts F :=
  match task with
  | None => ret total
  | Some t =>
      match fuel with
      | O => fail NoFuel
      | S fuel' =>
          let* x := rt_task t in
          let* pr := rt_get_params (scheduler_data x) in
          utilization fuel' (next x) (fadd total (fdiv (of_uint (execution pr)) (of_uint (period pr))))
      end
  end.

Definition scheduler_check_schedulability : Cmd rts bool :=
  let* s := get in
  let* total := utilization (length (rt_tbl s)) (rt_tasks s) (of_uint 0) in
  let n := of_uint (rt_task_count s) in
  let bound := fmul n (fsub (fpow (of_uint 2) (fdiv (of_uint 1) n)) (of_uint 1)) in
  ret (fle total bound).
End schedulability.

(** The body of the loop of [scheduler_update_deadlines]. *)
Definition release (now : Z) (t : nat) : Cmd rts unit :=
  let* x := rt_task t in
  let* pr := rt_get_params (scheduler_data x) in
  if next_release pr <=? now then
    rt_put_params (scheduler_data x)
      (set_deadline (u32 (now + period pr)) (set_next_release (u32 (next_release pr + period pr)) pr)) ;;;
    if decide (state x = TASK_BLOCKED) then rt_set_task t (set_state TASK_READY x) else ret tt
  else ret tt.

Fixpoint release_loop (now : Z) (fuel : nat) (task : ptr) : Cmd rts unit :=
  match task with
  | None => ret tt
  | Some t =>
      match fuel with
      | O => fail NoFuel
      | S fuel' =>
          release now t ;;;
          let* x := rt_task t in
          release_loop now fuel' (next x)
      end
  end.

Definition scheduler_update_deadlines : Cmd rts unit :=
  let* s := get in release_loop (ticks s) (length (rt_tbl s)) (rt_tasks s).

Definition scheduler_rt_tick : Cmd rts unit :=
  let* s := get in
  let cur := current (r_kern s) in
  scheduler_update_deadlines ;;;
  match cur with
  | None => ret tt
  | Some c =>
      let* x := rt_task c in
      match scheduler_data x with
      | None => ret tt
      | Some p =>
          let* pr := rt_get_params (Some p) in
          let pr1 := set_execution_time (u32 (execution_time pr + 1)) pr in
          rt_put_params (Some p) pr1 ;;;
          (if execution pr1 <=? execution_time pr1 then
             let* y := rt_task c in
             rt_set_task c (set_state TASK_BLOCKED y) ;;;
             yield_cpu
           else ret tt) ;;;
          let* pr2 := rt_get_params (Some p) in
          let* s := get in
          if deadline pr2 <? ticks s
          then modify (fun s => set_missed_deadlines (u32 (missed_deadlines s + 1)) s)
          else ret tt
      end
  end.

(** ** Choice of the next task *)

(** The parameters of a task, and whether it is a candidate. *)
Definition params_of (s : rts) (t : nat) : option realtime_params_t :=
  match rt_tbl s !! t with
  | Some x => match scheduler_data x with Some p => rt_params s !! p | None => None end
  | None => None
  end.
Definition is_ready (s : rts) (t : nat) : Prop := state <$> rt_tbl s !! t = Some TASK_READY.

(** The real-time list holds [l], every task of it having parameters. *)
Definition rt_list (s : rts) (l : list nat) : Prop :=
  linked link_next (rt_tbl s) (rt_tasks s) l /\ forall t, t ∈ l -> is_Some (params_of s t).

(** [t] is the first task of least key in [l], at most [bound]. *)
Definition first_least (key : realtime_params_t -> Z) (s : rts) (l : list nat) (bound : Z) (t : nat) : Prop :=
  exists l1 l2 pr, l = l1 ++ t :: l2 /\ is_ready s t /\ params_of s t = Some pr /\ key pr < bound /\
    (forall u q, u ∈ l1 -> is_ready s u -> params_of s u = Some q -> key pr < key q) /\
    (forall u q, u ∈ l2 -> is_ready s u -> params_of s u = Some q -> key pr <= key q).

Lemma rt_task_Ret s t x : rt_tbl s !! t = Some x -> rt_task t s = Ret x s.
Proof. unfold rt_task. by intros ->. Qed.

Lemma params_of_get s t x pr :
  rt_tbl s !! t = Some x -> params_of s t = Some pr -> rt_get_params (scheduler_data x) s = Ret pr s.
Proof.
  unfold params_of, rt_get_params. intros ->. destruct (scheduler_data x) as [p|]; [|done]. by intros ->.
Qed.

Lemma min_loop_spec key s fuel p l best least :
  linked link_next (rt_tbl s) p l -> (forall t, t ∈ l -> is_Some (params_of s t)) ->
  (length l <= fuel)%nat ->
  (exists t, min_loop key fuel p best least s = Ret (Some t) s /\ first_least key s l least t) \/
  (min_loop key fuel p best least s = Ret best s /\
   forall u q, u ∈ l -> is_ready s u -> params_of s u = Some q -> least <= key q).
Proof.
  unfold linked. revert p fuel best least. induction l as [|t l IH]; intros p fuel best least Hc Hp Hf.
  - simpl in Hc. subst. right. split; [by destruct fuel|]. intros u q Hu. by apply not_elem_of_nil in Hu.
  - destruct Hc as (-> & x & Hx & Hc). simpl in Hf. destruct fuel as [|fuel]; [lia|]. simpl.
    erewrite bind_Ret by (by apply rt_task_Ret).
    assert (Hp' : forall u, u ∈ l -> is_Some (params_of s u)) by (intros; apply Hp; set_solver).
    destruct (Hp t (list_elem_of_here _ _)) as [pr Hpr].
    assert (Hrt : is_ready s t <-> state x = TASK_READY).
    { unfold is_ready. rewrite Hx. simpl. split; [by intros [= H]|by intros ->]. }
    assert (Hskip : forall m, m = least -> (is_ready s t -> least <= key pr) ->
      (exists u, min_loop key fuel (next x) best m s = Ret (Some u) s /\ first_least key s (t :: l) least u) \/
      (min_loop key fuel (next x) best m s = Ret best s /\
       forall u q, u ∈ t :: l -> is_ready s u -> params_of s u = Some q -> least <= key q)).
    { intros m -> Hge. destruct (IH (next x) fuel best least Hc Hp' ltac:(lia)) as
        [(u & He & l1 & l2 & q & -> & H1 & H2 & H3 & H4 & H5)|[He Hall]].
      - left. exists u. split; [done|]. exists (t :: l1), l2, q. split; [done|]. split; [done|].
        split; [done|]. split; [done|]. split; [|done].
        intros v q' [->|Hv]%elem_of_cons Hr Hq; [|by eapply H4]. simplify_eq. specialize (Hge Hr). lia.
      - right. split; [done|]. intros v q' [->|Hv]%elem_of_cons Hr Hq; [|by eapply Hall]. simplify_eq. by apply Hge. }
    case_decide as Hs; [|apply Hskip; [done|]; by intros ?%Hrt].
    erewrite bind_Ret by (by eapply params_of_get).
    destruct (Z.ltb_spec (key pr) least) as [Hlt|Hge]; [|by apply Hskip].
    left. destruct (IH (next x) fuel (Some t) (key pr) Hc Hp' ltac:(lia)) as
        [(u & He & l1 & l2 & q & -> & H1 & H2 & H3 & H4 & H5)|[He Hall]].
    + exists u. split; [done|]. exists (t :: l1), l2, q. repeat (split; [done || lia|]). split; [|done].
      intros v q' [->|Hv]%elem_of_cons Hr Hq; [by simplify_eq|by eapply H4].
    + exists t. split; [done|]. exists [], l, pr. split; [done|]. split; [by apply Hrt|].
      split; [done|]. split; [done|]. split; [intros v q' Hv; by apply not_elem_of_nil in Hv|exact Hall].
Qed.

(** ** Releases *)

(** What a release makes of a task and its parameters. *)
Definition released (now : Z) (pr : realtime_params_t) : bool := next_release pr <=? now.
Definition next_job (now : Z) (pr : realtime_params_t) : realtime_params_t :=
  set_deadline (u32 (now + period pr)) (set_next_release (u32 (next_release pr + period pr)) pr).
Definition unblock (x : task_t) : task_t :=
  if decide (state x = TASK_BLOCKED) then set_state TASK_READY x else x.

(** No two tasks of the list share their parameters. *)
Definition own_params (s : rts) (l : list nat) : Prop :=
  forall t u x y p, t ∈ l -> u ∈ l -> rt_tbl s !! t = Some x -> rt_tbl s !! u = Some y ->
    scheduler_data x = Some p -> scheduler_data y = Some p -> t = u.

Definition release_state (now : Z) (t : nat) (s : rts) : rts :=
  match rt_tbl s !! t with
  | Some x =>
      match scheduler_data x with
      | Some p =>
          match rt_params s !! p with
          | Some pr =>
              if released now pr then
                set_r_kern (set_tbl (<[t:=unblock x]> (rt_tbl s)) (r_kern s))
                  (set_rt_params (<[p:=next_job now pr]> (rt_params s)) s)
              else s
          | None => s
          end
      | None => s
      end
  | None => s
  end.

Lemma set_tbl_id k : set_tbl (tbl k) k = k.
Proof. by destruct k as [[] ? ?]. Qed.

Lemma release_Ret now t s x pr :
  rt_tbl s !! t = Some x -> params_of s t = Some pr ->
  release now t s = Ret tt (release_state now t s).
Proof.
  intros Hx Hpr. unfold release. erewrite bind_Ret by (by apply rt_task_Ret).
  erewrite bind_Ret by (by eapply params_of_get). unfold release_state. rewrite Hx.
  unfold params_of in Hpr. rewrite Hx in Hpr. destruct (scheduler_data x) as [p|] eqn:Hsd; [|done].
  rewrite Hpr. unfold released. destruct (_ <=? _); [|done].
  erewrite bind_Ret by reflexivity. unfold unblock. case_decide as Hs; [done|].
  rewrite (list_insert_id (rt_tbl s) t x) by done. unfold rt_tbl. rewrite set_tbl_id. by destruct s.
Qed.

(** The task and the parameters of one task after a release at [now]. *)
Definition after_release (now : Z) (v : task_t * realtime_params_t) : task_t * realtime_params_t :=
  let '(x, pr) := v in if released now pr then (unblock x, next_job now pr) else (x, pr).
Definition view_of (s : rts) (t : nat) : option (task_t * realtime_params_t) :=
  match rt_tbl s !! t, params_of s t with Some x, Some pr => Some (x, pr) | _, _ => None end.

Lemma unblock_links x :
  next (unblock x) = next x /\ next_wait (unblock x) = next_wait x /\
  scheduler_data (unblock x) = scheduler_data x.
Proof. unfold unblock. by case_decide. Qed.

Lemma release_state_eq now t s x p pr :
  rt_tbl s !! t = Some x -> scheduler_data x = Some p -> rt_params s !! p = Some pr ->
  release_state now t s =
  if released now pr then
    set_r_kern (set_tbl (<[t:=unblock x]> (rt_tbl s)) (r_kern s))
               (set_rt_params (<[p:=next_job now pr]> (rt_params s)) s)
  else s.
Proof. unfold release_state. intros -> -> ->. done. Qed.

(** One release changes the view of its task only. *)
Lemma release_state_view now s L t :
  own_params s L -> t ∈ L -> is_Some (params_of s t) ->
  view_of (release_state now t s) t = after_release now <$> view_of s t /\
  (forall u, u <> t -> rt_tbl (release_state now t s) !! u = rt_tbl s !! u) /\
  (forall u, u <> t -> u ∈ L -> view_of (release_state now t s) u = view_of s u) /\
  own_params (release_state now t s) L /\
  (forall (Lk : Link task_t) q l r, (forall x, lget Lk (unblock x) = lget Lk x) ->
     chain Lk (rt_tbl s) q l r -> chain Lk (rt_tbl (release_state now t s)) q l r) /\
  current (r_kern (release_state now t s)) = current (r_kern s).
Proof.
  intros Hown Ht [pr Hpr]. pose proof Hpr as Hpr'. unfold params_of in Hpr'.
  destruct (rt_tbl s !! t) as [x|] eqn:Hx; [|done].
  destruct (scheduler_data x) as [p|] eqn:Hsd; [|done].
  rewrite (release_state_eq now t s x p pr Hx Hsd Hpr').
  assert (Hv : view_of s t = Some (x, pr)) by (unfold view_of; by rewrite Hx, Hpr).
  rewrite Hv. simpl. destruct (released now pr); [|by rewrite Hv].
  set (s1 := set_r_kern _ _).
  assert (Htb : rt_tbl s1 = <[t:=unblock x]> (rt_tbl s)) by done.
  assert (Hps : rt_params s1 = <[p:=next_job now pr]> (rt_params s)) by done.
  destruct (unblock_links x) as (_ & _ & Hsd1).
  assert (Htx : rt_tbl s1 !! t = Some (unblock x))
    by (rewrite Htb; apply list_lookup_insert_eq; by eapply lookup_lt_Some).
  assert (Hother : forall u, u <> t -> rt_tbl s1 !! u = rt_tbl s !! u)
    by (intros u Hu; rewrite Htb; by apply list_lookup_insert_ne).
  split; [|split; [done|split; [|split; [|split; [|done]]]]].
  - unfold view_of, params_of. rewrite Htx, Hsd1, Hsd, Hps, list_lookup_insert_eq;
      [done|by eapply lookup_lt_Some].
  - intros u Hu HuL. unfold view_of, params_of. rewrite Hother by done.
    destruct (rt_tbl s !! u) as [y|] eqn:Hy; [|done].
    destruct (scheduler_data y) as [q|] eqn:Hq; [|done].
    rewrite Hps, list_lookup_insert_ne; [done|]. intros <-. apply Hu. by eapply (Hown u t).
  - intros u v y z q Hu Hv1 Hy Hz Hqy Hqz. rewrite Htb, list_insert_lookup_ne_dec in Hy, Hz.
    assert (forall w y', (if decide (t = w /\ (t < length (rt_tbl s))%nat) then Some (unblock x) else rt_tbl s !! w) = Some y' ->
              exists y0, rt_tbl s !! w = Some y0 /\ scheduler_data y0 = scheduler_data y') as Hback.
    { intros w y' Hw. case_decide as Hd; [destruct Hd as [<- _]|by eauto]. simplify_eq. by exists x. }
    destruct (Hback _ _ Hy) as (y0 & Hy0 & Hs0). destruct (Hback _ _ Hz) as (z0 & Hz0 & Hs1).
    apply (Hown u v y0 z0 q); congruence || done.
  - intros Lk q l r Hl Hc. rewrite Htb. by eapply chain_field.
Qed.

Lemma release_loop_spec now L l s q fuel :
  linked link_next (rt_tbl s) q l -> (forall t, t ∈ l -> t ∈ L) -> own_params s L ->
  (forall t, t ∈ l -> is_Some (params_of s t)) -> (length l <= fuel)%nat ->
  exists s', release_loop now fuel q s = Ret tt s' /\
    (forall t, t ∈ l -> view_of s' t = after_release now <$> view_of s t) /\
    (forall t, t ∉ l -> rt_tbl s' !! t = rt_tbl s !! t) /\
    (forall t, t ∉ l -> t ∈ L -> view_of s' t = view_of s t) /\
    (forall (Lk : Link task_t) q l r, (forall x, lget Lk (unblock x) = lget Lk x) ->
       chain Lk (rt_tbl s) q l r -> chain Lk (rt_tbl s') q l r) /\
    current (r_kern s') = current (r_kern s).
Proof.
  revert s q fuel. induction l as [|t l IH]; intros s q fuel Hc HL Hown Hps Hf.
  - unfold linked in Hc. simpl in Hc. subst. exists s. split; [by destruct fuel|].
    split; [intros t Ht; by apply not_elem_of_nil in Ht|done].
  - pose proof (linked_NoDup _ _ _ _ Hc) as [Htl _]%NoDup_cons.
    simpl in Hf. destruct fuel as [|fuel]; [lia|]. pose proof Hc as (-> & x & Hx & _).
    destruct (Hps t (list_elem_of_here _ _)) as [pr Hpr]. simpl.
    erewrite bind_Ret by (by eapply release_Ret).
    destruct (release_state_view now s L t Hown) as (H1 & H2 & H3 & H4 & H5 & H6);
      [set_solver|by eexists|].
    set (s1 := release_state now t s) in *.
    assert (Hc1 : linked link_next (rt_tbl s1) (Some t) (t :: l))
      by (apply (H5 link_next); [apply unblock_links|exact Hc]).
    destruct Hc1 as (_ & x1 & Hx1 & Hc1). erewrite bind_Ret by (by apply rt_task_Ret).
    assert (Hview : forall u, u ∈ l -> view_of s1 u = view_of s u)
      by (intros u Hu; apply H3; [intros ->; done|set_solver]).
    destruct (IH s1 (next x1) fuel Hc1) as (s' & He & G1 & G2 & G3 & G4 & G5); try done.
    + set_solver.
    + intros u Hu. destruct (Hps u) as [pu Hpu]; [set_solver|]. specialize (Hview u Hu).
      assert (exists y, rt_tbl s !! u = Some y) as [y Hy].
      { unfold params_of in Hpu. destruct (rt_tbl s !! u); [by eexists|done]. }
      unfold view_of in Hview. rewrite Hy, Hpu in Hview.
      destruct (rt_tbl s1 !! u); [|done]. destruct (params_of s1 u); [by eexists|done].
    + lia.
    + exists s'. split; [exact He|]. split; [|split; [|split; [|split]]].
      * intros u [->|Hu]%elem_of_cons; [by rewrite G3 by set_solver|]. by rewrite G1, Hview.
      * intros u Hu. rewrite G2 by set_solver. apply H2. set_solver.
      * intros u Hu HuL. rewrite G3 by set_solver. apply H3; [set_solver|done].
      * intros. apply G4; [done|]. by apply H5.
      * congruence.
Qed.

Lemma scheduler_update_deadlines_spec s l :
  rt_list s l -> own_params s l ->
  exists s', scheduler_update_deadlines s = Ret tt s' /\
    (forall t, t ∈ l -> view_of s' t = after_release (ticks s) <$> view_of s t) /\
    (forall t, t ∉ l -> rt_tbl s' !! t = rt_tbl s !! t) /\
    (forall (Lk : Link task_t) q l r, (forall x, lget Lk (unblock x) = lget Lk x) ->
       chain Lk (rt_tbl s) q l r -> chain Lk (rt_tbl s') q l r).
Proof.
  intros [Hc Hps] Hown. unfold scheduler_update_deadlines. erewrite bind_Ret by reflexivity.
  destruct (release_loop_spec (ticks s) l l s (rt_tasks s) (length (rt_tbl s)))
    as (s' & He & H1 & H2 & _ & H3 & _); try done.
  - by eapply linked_length.
  - by exists s'.
Qed.

(** ** Properties *)

(** C29. The real-time choice is optimal.  Whatever the list of real-time tasks,
    [edf_schedule] returns the first READY task of earliest deadline and
    [rm_schedule] the first READY task of shortest period, changing nothing;
    they return NULL exactly when no READY task has a key below UINT32_MAX. *)
Theorem rt_schedule_optimal (s : rts) (l : list nat) (Hl : rt_list s l) :
  ((exists t, edf_schedule s = Ret (Some t) s /\ first_least deadline s l UINT32_MAX t) \/
   (edf_schedule s = Ret None s /\
    forall t pr, t ∈ l -> is_ready s t -> params_of s t = Some pr -> UINT32_MAX <= deadline pr)) /\
  ((exists t, rm_schedule s = Ret (Some t) s /\ first_least period s l UINT32_MAX t) \/
   (rm_schedule s = Ret None s /\
    forall t pr, t ∈ l -> is_ready s t -> params_of s t = Some pr -> UINT32_MAX <= period pr)).
Proof.
  destruct Hl as [Hc Hp]. pose proof (linked_length _ _ _ _ Hc).
  split; apply (min_loop_spec _ s (length (rt_tbl s)) (rt_tasks s) l None UINT32_MAX); done.
Qed.

(** A release lets a task into a mutex another task holds.  A real-time
    task [w] calls [mutex_lock] on a mutex held by somebody else and blocks; as
    soon as its next release time has come, [scheduler_update_deadlines] makes it
    READY although it is still in the mutex's queue and not its owner, and when
    it is scheduled the call to [mutex_lock] returns. *)
Theorem rt_release_enters_locked_mutex (k : kern) (m : mutex_t) (w : nat) (x : task_t) (lw l : list nat)
    (s : rts) (pr : realtime_params_t)
    (Hlocked : locked m <> 0) (Howner : owner m <> Some w) (Hcur : current k = Some w)
    (Hw : tbl k !! w = Some x) (Hq : waiters (tbl k) m lw) (Hni : w ∉ lw)
    (Hs : exists q, mutex_lock (k, m) = Yield (r_kern s, set_waiting_tasks q m) (fun s => Ret tt s))
    (Hl : rt_list s l) (Hown : own_params s l) (Hin : w ∈ l) (Hpr : params_of s w = Some pr)
    (Hrel : next_release pr <= ticks s) :
  exists s' m' resume, mutex_lock (k, m) = Yield (r_kern s, m') resume /\
    state <$> rt_tbl s !! w = Some TASK_BLOCKED /\
    scheduler_update_deadlines s = Ret tt s' /\
    state <$> rt_tbl s' !! w = Some TASK_READY /\
    waiters (rt_tbl s') m' (lw ++ [w]) /\ locked m' <> 0 /\ owner m' <> Some w /\
    resume (r_kern s', m') = Ret tt (r_kern s', m').
Proof.
  destruct (mutex_lock_busy k m w x lw Hlocked Hcur Hw Hq Hni) as (k' & q' & Heq & Hq' & Hsame & _).
  destruct Hs as [q Hs]. rewrite Heq in Hs. injection Hs as Hk Hqq. subst k'.
  destruct (scheduler_update_deadlines_spec s l Hl Hown) as (s' & He & Hv & _ & Hch).
  exists s', (set_waiting_tasks q' m), (fun s => Ret tt s). split; [exact Heq|].
  assert (Hst : state <$> rt_tbl s !! w = Some TASK_BLOCKED).
  { specialize (Hsame w). rewrite list_lookup_insert_eq in Hsame by (by eapply lookup_lt_Some).
    unfold rt_tbl. destruct (tbl (r_kern s) !! w) as [y|]; [|done]. simpl in Hsame |- *.
    injection Hsame. intros. by f_equal. }
  split; [exact Hst|]. split; [exact He|]. split; [|split; [|done]].
  - specialize (Hv w Hin). unfold view_of in Hv. rewrite Hpr in Hv.
    destruct (rt_tbl s !! w) as [y|]; [|done]. simpl in Hst, Hv. unfold released in Hv.
    rewrite (proj2 (Z.leb_le _ _)) in Hv by done.
    destruct (rt_tbl s' !! w) as [y'|]; [|done]. destruct (params_of s' w); [|done].
    injection Hv as -> _. unfold unblock. injection Hst as Hst. by rewrite decide_True.
  - apply Hch; [apply unblock_links|exact Hq'].
Qed.

(** Task 0 holds the mutex; tasks 1 and 2 are real-time tasks, 1 running. *)
Definition rt_kern : kern :=
  set_tbl [zero_task; set_next (Some 2%nat) (set_scheduler_data (Some 0%nat) zero_task);
           set_scheduler_data (Some 1%nat) zero_task] (two_tasks 1).
Definition held_mutex : mutex_t := set_owner (Some 0%nat) (set_locked 1 (mutex_init "m")).
Definition rt_example (k : kern) : rts := {|
  r_kern := k; rt_tasks := Some 1%nat; rt_task_count := 2;
  rt_params := [{| period := 10; deadline := 30; execution := 2; next_release := 20; execution_time := 0 |};
                {| period := 20; deadline := 25; execution := 2; next_release := 40; execution_time := 0 |}];
  ticks := 20; missed_deadlines := 0 |}.

Lemma rt_schedule_optimal_witness :
  edf_schedule (rt_example rt_kern) = Ret (Some 2%nat) (rt_example rt_kern) /\
  exists t, rm_schedule (rt_example rt_kern) = Ret (Some t) (rt_example rt_kern) /\ t = 1%nat.
Proof.
  assert (Hl : rt_list (rt_example rt_kern) [1; 2]%nat).
  { split.
    - split; [done|]. eexists. split; [reflexivity|]. split; [done|]. by eexists.
    - intros t [->|[->|Ht]%elem_of_cons]%elem_of_cons; [by eexists..|]. by apply not_elem_of_nil in Ht. }
  split; [vm_compute; reflexivity|].
  destruct (proj2 (rt_schedule_optimal _ _ Hl)) as [(t & He & _)|[He _]];
    [|vm_compute in He; discriminate].
  exists t. split; [exact He|]. vm_compute in He. by injection He.
Defined.

(** Task 1 after its call to [mutex_lock]: blocked in the mutex's queue. *)
Definition rt_blocked_kern : kern :=
  set_tbl [zero_task;
           set_state TASK_BLOCKED (set_next (Some 2%nat) (set_scheduler_data (Some 0%nat) zero_task));
           set_scheduler_data (Some 1%nat) zero_task]
    (set_sync_stats (bump_mutex (sync_stats (two_tasks 1))) (two_tasks 1)).

Lemma rt_release_enters_locked_mutex_witness :
  exists s', scheduler_update_deadlines (rt_example rt_blocked_kern) = Ret tt s' /\
             state <$> rt_tbl s' !! 1%nat = Some TASK_READY.
Proof.
  destruct (rt_release_enters_locked_mutex rt_kern held_mutex 1
              (set_next (Some 2%nat) (set_scheduler_data (Some 0%nat) zero_task)) [] [1; 2]%nat
              (rt_example rt_blocked_kern)
              {| period := 10; deadline := 30; execution := 2; next_release := 20; execution_time := 0 |})
    as (s' & m' & r & _ & _ & He & Hr & _); try done.
  - intros H. by apply not_elem_of_nil in H.
  - exists (Some 1%nat). vm_compute. reflexivity.
  - split.
    + split; [done|]. eexists. split; [reflexivity|]. split; [done|]. by eexists.
    + intros t [->|[->|Ht]%elem_of_cons]%elem_of_cons; [by eexists..|]. by apply not_elem_of_nil in Ht.
  - intros t u x y p [->|[->|Ht]%elem_of_cons]%elem_of_cons [->|[->|Hu]%elem_of_cons]%elem_of_cons H1 H2 H3 H4;
      try (by apply not_elem_of_nil in Ht); try (by apply not_elem_of_nil in Hu); try done;
      vm_compute in H1, H2; injection H1 as <-; injection H2 as <-; simpl in *; congruence.
  - set_solver.
  - exists s'. split; [exact He|exact Hr].
Defined.
