(* ===== verification/Ipc.v ===== *)
(** * Ipc

    What src/src/msg_queue.c, src/src/pipe.c and src/src/shared_mem.c share: the
    statistics of src/include/ipc.h, [memcpy] into and out of a buffer, and the
    arithmetic of ring buffers. *)
From S2P Require Import Prelude.

(** [ipc_stats_t]. *)
Record ipc_stats_t : Type := IpcStats {
  msg_queues : Z;
  shm_segments_n : Z;
  pipes_n : Z;
  msg_sends : Z;
  msg_receives : Z;
  shm_attaches : Z;
  pipe_writes : Z;
  pipe_reads : Z
}.

Definition set_msg_queues (v : Z) (x : ipc_stats_t) : ipc_stats_t := {|
  msg_queues := v; shm_segments_n := shm_segments_n x; pipes_n := pipes_n x;
  msg_sends := msg_sends x; msg_receives := msg_receives x; shm_attaches := shm_attaches x;
  pipe_writes := pipe_writes x; pipe_reads := pipe_reads x |}.
Definition set_shm_segments_n (v : Z) (x : ipc_stats_t) : ipc_stats_t := {|
  msg_queues := msg_queues x; shm_segments_n := v; pipes_n := pipes_n x;
  msg_sends := msg_sends x; msg_receives := msg_receives x; shm_attaches := shm_attaches x;
  pipe_writes := pipe_writes x; pipe_reads := pipe_reads x |}.
Definition set_pipes_n (v : Z) (x : ipc_stats_t) : ipc_stats_t := {|
  msg_queues := msg_queues x; shm_segments_n := shm_segments_n x; pipes_n := v;
  msg_sends := msg_sends x; msg_receives := msg_receives x; shm_attaches := shm_attaches x;
  pipe_writes := pipe_writes x; pipe_reads := pipe_reads x |}.
Definition set_msg_sends (v : Z) (x : ipc_stats_t) : ipc_stats_t := {|
  msg_queues := msg_queues x; shm_segments_n := shm_segments_n x; pipes_n := pipes_n x;
  msg_sends := v; msg_receives := msg_receives x; shm_attaches := shm_attaches x;
  pipe_writes := pipe_writes x; pipe_reads := pipe_reads x |}.
Definition set_msg_receives (v : Z) (x : ipc_stats_t) : ipc_stats_t := {|
  msg_queues := msg_queues x; shm_segments_n := shm_segments_n x; pipes_n := pipes_n x;
  msg_sends := msg_sends x; msg_receives := v; shm_attaches := shm_attaches x;
  pipe_writes := pipe_writes x; pipe_reads := pipe_reads x |}.
Definition set_shm_attaches (v : Z) (x : ipc_stats_t) : ipc_stats_t := {|
  msg_queues := msg_queues x; shm_segments_n := shm_segments_n x; pipes_n := pipes_n x;
  msg_sends := msg_sends x; msg_receives := msg_receives x; shm_attaches := v;
  pipe_writes := pipe_writes x; pipe_reads := pipe_reads x |}.
Definition set_pipe_writes (v : Z) (x : ipc_stats_t) : ipc_stats_t := {|
  msg_queues := msg_queues x; shm_segments_n := shm_segments_n x; pipes_n := pipes_n x;
  msg_sends := msg_sends x; msg_receives := msg_receives x; shm_attaches := shm_attaches x;
  pipe_writes := v; pipe_reads := pipe_reads x |}.
Definition set_pipe_reads (v : Z) (x : ipc_stats_t) : ipc_stats_t := {|
  msg_queues := msg_queues x; shm_segments_n := shm_segments_n x; pipes_n := pipes_n x;
  msg_sends := msg_sends x; msg_receives := msg_receives x; shm_attaches := shm_attaches x;
  pipe_writes := pipe_writes x; pipe_reads := v |}.

Definition zero_stats : ipc_stats_t := IpcStats 0 0 0 0 0 0 0 0.

(** src/src/ipc_init.c. [ipc_get_stats] copies the counters out, [None] being a
    null pointer; [ipc_reset_stats] clears them. *)
Definition ipc_get_stats (ptr_ok : bool) (st : ipc_stats_t) : option ipc_stats_t :=
  if ptr_ok then Some st else None.
Definition ipc_reset_stats (st : ipc_stats_t) : ipc_stats_t := zero_stats.

(** ** Buffers *)
Section Buffers.
Context {A : Type}.
Implicit Types (buf d q : list A).

(** [memcpy(buf + off, d, length d)] inside the buffer. *)
Definition splice (off : nat) d buf : list A := take off buf ++ d ++ drop (off + length d) buf.
(** [n] bytes from [buf + off]. *)
Definition slice (off n : nat) buf : list A := take n (drop off buf).

Lemma splice_length off d buf : (off + length d <= length buf)%nat -> length (splice off d buf) = length buf.
Proof. intros. unfold splice. rewrite !length_app, length_take, length_drop. lia. Qed.

Lemma splice_lookup off d buf i :
  (off + length d <= length buf)%nat ->
  splice off d buf !! i = if decide (off <= i < off + length d)%nat then d !! (i - off)%nat else buf !! i.
Proof.
  intros Hl. unfold splice. case_decide as Hd.
  - rewrite lookup_app_r by (rewrite length_take; lia). rewrite length_take, Nat.min_l by lia.
    by rewrite lookup_app_l by lia.
  - destruct (decide (i < off)%nat) as [Hi|Hi].
    + rewrite lookup_app_l by (rewrite length_take; lia). by apply lookup_take_lt.
    + rewrite lookup_app_r by (rewrite length_take; lia). rewrite length_take, Nat.min_l by lia.
      rewrite lookup_app_r by lia. rewrite lookup_drop. f_equal. lia.
Qed.

Lemma slice_lookup off n buf i : slice off n buf !! i = if decide (i < n)%nat then buf !! (off + i)%nat else None.
Proof.
  unfold slice. case_decide as Hd.
  - rewrite lookup_take_lt by done. apply lookup_drop.
  - apply lookup_ge_None. rewrite length_take. lia.
Qed.

Lemma slice_length off n buf : (off + n <= length buf)%nat -> length (slice off n buf) = n.
Proof. intros. unfold slice. rewrite length_take, length_drop. lia. Qed.

(** ** Rings

    [wrap_at size (r + i)]: the position [i] places after [r], for [r] and [i]
    at most [size]. *)
Definition wrap_at (size i : nat) : nat := if decide (i < size)%nat then i else (i - size)%nat.

(** The buffer holds the queue [q], whose first element is at position [r]. *)
Definition ring (buf : list A) (r : nat) q : Prop :=
  (r < length buf)%nat /\ (length q <= length buf)%nat /\
  forall i, (i < length q)%nat -> buf !! wrap_at (length buf) (r + i) = q !! i.

(** The two copies that append [d]: up to the end of the buffer and then from
    its beginning. *)
Definition ring_put (w : nat) d buf : list A :=
  let first := (length buf - w)%nat in
  if decide (length d <= first)%nat then splice w d buf
  else splice 0 (drop first d) (splice w (take first d) buf).
Definition ring_get (r n : nat) buf : list A :=
  let first := (length buf - r)%nat in
  if decide (n <= first)%nat then slice r n buf
  else slice r first buf ++ slice 0 (n - first) buf.

Lemma ring_put_length w d buf :
  (w < length buf)%nat -> (length d <= length buf)%nat -> length (ring_put w d buf) = length buf.
Proof.
  intros Hw Hd. unfold ring_put. case_decide as H; [apply splice_length; lia|].
  rewrite splice_length; rewrite splice_length; rewrite ?length_take, ?length_drop; lia.
Qed.

Lemma ring_put_lookup w d buf i :
  (w < length buf)%nat -> (length d <= length buf)%nat -> (i < length d)%nat ->
  ring_put w d buf !! wrap_at (length buf) (w + i) = d !! i.
Proof.
  intros Hw Hd Hi. unfold ring_put, wrap_at. destruct (decide (length d <= length buf - w)%nat) as [H|H].
  - rewrite splice_lookup by lia. rewrite (decide_True (P := (w + i < length buf)%nat)) by lia.
    rewrite decide_True by lia. f_equal. lia.
  - assert (Hlt : length (take (length buf - w) d) = (length buf - w)%nat) by (rewrite length_take; lia).
    assert (Hld : length (drop (length buf - w) d) = (length d - (length buf - w))%nat) by apply length_drop.
    rewrite splice_lookup by (rewrite splice_length, ?Hlt, ?Hld; lia).
    destruct (decide (w + i < length buf)%nat) as [Hwi|Hwi].
    + rewrite decide_False by lia. rewrite splice_lookup by lia. rewrite decide_True by lia.
      rewrite lookup_take_lt by lia. f_equal. lia.
    + rewrite decide_True by lia. rewrite lookup_drop. f_equal. lia.
Qed.

Lemma ring_put_other w d buf i :
  (w < length buf)%nat -> (length d <= length buf)%nat -> (length d <= i < length buf)%nat ->
  ring_put w d buf !! wrap_at (length buf) (w + i) = buf !! wrap_at (length buf) (w + i).
Proof.
  intros Hw Hd Hi. unfold ring_put, wrap_at. destruct (decide (length d <= length buf - w)%nat) as [H|H].
  - rewrite splice_lookup by lia. destruct (decide (w + i < length buf)%nat); by rewrite decide_False by lia.
  - assert (Hlt : length (take (length buf - w) d) = (length buf - w)%nat) by (rewrite length_take; lia).
    assert (Hld : length (drop (length buf - w) d) = (length d - (length buf - w))%nat) by apply length_drop.
    rewrite splice_lookup by (rewrite splice_length, ?Hlt, ?Hld; lia).
    destruct (decide (w + i < length buf)%nat); rewrite decide_False by lia; rewrite splice_lookup by lia;
      by rewrite decide_False by lia.
Qed.

(** Appending to a ring. *)
Lemma ring_append buf r q d :
  ring buf r q -> (length q + length d <= length buf)%nat ->
  ring (ring_put (wrap_at (length buf) (r + length q)) d buf) r (q ++ d).
Proof.
  intros (Hr & Hq & Hl) Hd. set (w := wrap_at (length buf) (r + length q)).
  destruct d as [|a d].
  { assert (ring_put w [] buf = buf) as ->.
    { unfold ring_put, splice. rewrite decide_True by (simpl; lia). simpl. rewrite Nat.add_0_r. apply take_drop. }
    by rewrite app_nil_r. }
  simpl length in Hd.
  assert (Hw : (w < length buf)%nat) by (unfold w, wrap_at; case_decide; lia).
  assert (Hlen : length (ring_put w (a :: d) buf) = length buf) by (apply ring_put_length; simpl length; lia).
  split; [|split]; rewrite Hlen; [done|rewrite length_app; simpl length; lia|].
  intros i Hi. rewrite length_app in Hi. simpl length in Hi.
  destruct (decide (i < length q)%nat) as [Hiq|Hiq].
  - rewrite lookup_app_l by done. rewrite <- Hl by done.
    assert (exists j, (length (a :: d) <= j < length buf)%nat /\
              wrap_at (length buf) (r + i) = wrap_at (length buf) (w + j)) as (j & Hj & ->).
    { simpl length. exists (length buf - length q + i)%nat. split; [lia|]. unfold w, wrap_at.
      repeat case_decide; lia. }
    apply ring_put_other; [done|simpl length; lia|done].
  - rewrite lookup_app_r by lia.
    assert (wrap_at (length buf) (r + i) = wrap_at (length buf) (w + (i - length q))) as ->.
    { unfold w, wrap_at. repeat case_decide; lia. }
    apply ring_put_lookup; [done|simpl length; lia|simpl length in *; lia].
Qed.

(** Taking the first elements off a ring. *)
Lemma ring_get_first buf r q n :
  ring buf r q -> (n <= length q)%nat -> ring_get r n buf = take n q.
Proof.
  intros (Hr & Hq & Hl) Hn. apply list_eq. intros i. unfold ring_get, wrap_at in *. destruct (decide (n <= length buf - r)%nat) as [H|H].
  - rewrite slice_lookup. case_decide as Hi.
    + rewrite lookup_take_lt by done. rewrite <- Hl by lia. by rewrite decide_True by lia.
    + symmetry. apply lookup_ge_None. rewrite length_take. lia.
  - assert (Hsl : length (slice r (length buf - r) buf) = (length buf - r)%nat) by (apply slice_length; lia).
    destruct (decide (i < length buf - r)%nat) as [Hi|Hi].
    + rewrite lookup_app_l by lia. rewrite slice_lookup, decide_True, lookup_take_lt by lia.
      rewrite <- Hl by lia. by rewrite decide_True by lia.
    + rewrite lookup_app_r by lia. rewrite slice_lookup, Hsl. case_decide as Hi2.
      * rewrite lookup_take_lt by lia. rewrite <- Hl by lia. rewrite decide_False by lia. f_equal. lia.
      * symmetry. apply lookup_ge_None. rewrite length_take. lia.
Qed.

Lemma ring_drop buf r q n :
  ring buf r q -> (n <= length q)%nat -> ring buf (wrap_at (length buf) (r + n)) (drop n q).
Proof.
  intros (Hr & Hq & Hl) Hn. split; [unfold wrap_at; case_decide; lia|].
  rewrite length_drop. split; [lia|]. intros i Hi. rewrite lookup_drop, <- Hl by lia. f_equal.
  unfold wrap_at. repeat case_decide; lia.
Qed.
End Buffers.
