(* ===== verification/Pipe.v ===== *)
(** * Pipe

    src/src/pipe.c: a byte ring protected by a mutex, with a condition for
    writers to wait until it is not full and one for readers to wait until it is
    not empty.  The loops are bounded by two fuel arguments: the passes of the
    outer loop (one more than the bytes to move is always enough) and the times
    the caller is woken in one wait. *)
From stdpp Require Import strings.
From S2P Require Import Prelude Links Task WaitQueue Mutex Condition Monitor Ipc.

(** ** Data *)
Definition PIPE_BUF_SIZE : Z := 4096.

Record pipe_t : Type := Pipe {
  p_buffer : list Z;
  p_size : Z;
  read_pos : Z;
  write_pos : Z;
  p_count : Z;
  p_lock : mutex_t;
  p_not_full : condition_t;
  p_not_empty : condition_t;
  reader_closed : bool;
  writer_closed : bool
}.

Definition set_p_buffer (v : list Z) (x : pipe_t) : pipe_t := {|
  p_buffer := v; p_size := p_size x; read_pos := read_pos x;
  write_pos := write_pos x; p_count := p_count x; p_lock := p_lock x;
  p_not_full := p_not_full x; p_not_empty := p_not_empty x; reader_closed := reader_closed x;
  writer_closed := writer_closed x |}.
Definition set_read_pos (v : Z) (x : pipe_t) : pipe_t := {|
  p_buffer := p_buffer x; p_size := p_size x; read_pos := v;
  write_pos := write_pos x; p_count := p_count x; p_lock := p_lock x;
  p_not_full := p_not_full x; p_not_empty := p_not_empty x; reader_closed := reader_closed x;
  writer_closed := writer_closed x |}.
Definition set_write_pos (v : Z) (x : pipe_t) : pipe_t := {|
  p_buffer := p_buffer x; p_size := p_size x; read_pos := read_pos x;
  write_pos := v; p_count := p_count x; p_lock := p_lock x;
  p_not_full := p_not_full x; p_not_empty := p_not_empty x; reader_closed := reader_closed x;
  writer_closed := writer_closed x |}.
Definition set_p_count (v : Z) (x : pipe_t) : pipe_t := {|
  p_buffer := p_buffer x; p_size := p_size x; read_pos := read_pos x;
  write_pos := write_pos x; p_count := v; p_lock := p_lock x;
  p_not_full := p_not_full x; p_not_empty := p_not_empty x; reader_closed := reader_closed x;
  writer_closed := writer_closed x |}.
Definition set_p_lock (v : mutex_t) (x : pipe_t) : pipe_t := {|
  p_buffer := p_buffer x; p_size := p_size x; read_pos := read_pos x;
  write_pos := write_pos x; p_count := p_count x; p_lock := v;
  p_not_full := p_not_full x; p_not_empty := p_not_empty x; reader_closed := reader_closed x;
  writer_closed := writer_closed x |}.
Definition set_p_not_full (v : condition_t) (x : pipe_t) : pipe_t := {|
  p_buffer := p_buffer x; p_size := p_size x; read_pos := read_pos x;
  write_pos := write_pos x; p_count := p_count x; p_lock := p_lock x;
  p_not_full := v; p_not_empty := p_not_empty x; reader_closed := reader_closed x;
  writer_closed := writer_closed x |}.
Definition set_p_not_empty (v : condition_t) (x : pipe_t) : pipe_t := {|
  p_buffer := p_buffer x; p_size := p_size x; read_pos := read_pos x;
  write_pos := write_pos x; p_count := p_count x; p_lock := p_lock x;
  p_not_full := p_not_full x; p_not_empty := v; reader_closed := reader_closed x;
  writer_closed := writer_closed x |}.

(** What a call works on: the pipe and the statistics. *)
Record pst : Type := Pst {
  the_pipe : pipe_t;
  p_stats : ipc_stats_t
}.

Definition set_the_pipe (v : pipe_t) (x : pst) : pst := {|
  the_pipe := v; p_stats := p_stats x |}.
Definition set_p_stats (v : ipc_stats_t) (x : pst) : pst := {|
  the_pipe := the_pipe x; p_stats := v |}.

(** The list of pipes, the latest first, with its lock. *)
Record pipe_sys : Type := PipeSys {
  pipes : list pipe_t;
  pipes_lock : mutex_t;
  g_stats : ipc_stats_t
}.

Definition set_pipes (v : list pipe_t) (x : pipe_sys) : pipe_sys := {|
  pipes := v; pipes_lock := pipes_lock x; g_stats := g_stats x |}.
Definition set_pipes_lock (v : mutex_t) (x : pipe_sys) : pipe_sys := {|
  pipes := pipes x; pipes_lock := v; g_stats := g_stats x |}.
Definition set_g_stats (v : ipc_stats_t) (x : pipe_sys) : pipe_sys := {|
  pipes := pipes x; pipes_lock := pipes_lock x; g_stats := v |}.

Definition pipe_mon : lens pst (mutex_t * (condition_t * condition_t)).
Proof.
  refine (Lens (fun s => (p_lock (the_pipe s), (p_not_full (the_pipe s), p_not_empty (the_pipe s))))
    (fun v s => set_the_pipe (set_p_lock (fst v) (set_p_not_full (fst (snd v))
                  (set_p_not_empty (snd (snd v)) (the_pipe s)))) s) _ _ _);
    [by intros [? []]|by intros [[] ?]|done].
Defined.

(** ** Operations *)
Definition pipes_lock_part : lens (kern * pipe_sys) (kern * mutex_t).
Proof.
  refine (Lens (fun s => (fst s, pipes_lock (snd s)))
               (fun p s => (fst p, set_pipes_lock (snd p) (snd s))) _ _ _);
    [by intros []|by intros [? []]|done].
Defined.

Definition pipe_init : Cmd (kern * pipe_sys) unit :=
  write_obj (set_pipes_lock (mutex_init "pipes_lock")).

Definition new_pipe (buf : list Z) : pipe_t := {|
  p_buffer := buf; p_size := PIPE_BUF_SIZE; read_pos := 0; write_pos := 0; p_count := 0;
  p_lock := mutex_init "pipe_lock"; p_not_full := condition_init "pipe_not_full";
  p_not_empty := condition_init "pipe_not_empty"; reader_closed := false; writer_closed := false |}.

(** [pipe_ok], [buf]: whether the two calls of [malloc] succeed, and the memory
    the second returns; [read_fd], [write_fd]: the results of [fd_alloc], which
    the sources do not define.  Returns the result and [pipefd]. *)
Definition pipe_create (pipe_ok : bool) (buf : option (list Z)) (read_fd write_fd : Z)
    : Cmd (kern * pipe_sys) (Z * option (Z * Z)) :=
  zoom pipes_lock_part mutex_lock ;;;
  let err := zoom pipes_lock_part mutex_unlock ;;; ret (-1, None) in
  if pipe_ok then
    match buf with
    | None => err
    | Some b =>
        if (read_fd <? 0) || (write_fd <? 0) then err else
        write_obj (fun g => set_pipes (new_pipe b :: pipes g) g) ;;;
        write_obj (fun g => set_g_stats (set_pipes_n (u32 (pipes_n (g_stats g) + 1)) (g_stats g)) g) ;;;
        zoom pipes_lock_part mutex_unlock ;;;
        ret (0, Some (read_fd, write_fd))
    end
  else err.

Definition get_pipe : Cmd (kern * pst) pipe_t := read_obj the_pipe.
Definition put_pipe (f : pipe_t -> pipe_t) : Cmd (kern * pst) unit :=
  write_obj (fun s => set_the_pipe (f (the_pipe s)) s).

(** [memcpy] into and out of the buffer; beyond its end it is a fault. *)
Definition buf_write (off : Z) (d : list Z) : Cmd (kern * pst) unit :=
  let* p := get_pipe in
  if off + Z.of_nat (length d) <=? Z.of_nat (length (p_buffer p))
  then put_pipe (set_p_buffer (splice (Z.to_nat off) d (p_buffer p)))
  else fail Fault.
Definition buf_read (off n : Z) : Cmd (kern * pst) (list Z) :=
  let* p := get_pipe in
  if off + n <=? Z.of_nat (length (p_buffer p))
  then ret (slice (Z.to_nat off) (Z.to_nat n) (p_buffer p))
  else fail Fault.

Definition bump_writes (s : pst) : pst :=
  set_p_stats (set_pipe_writes (u32 (pipe_writes (p_stats s) + 1)) (p_stats s)) s.
Definition bump_reads (s : pst) : pst :=
  set_p_stats (set_pipe_reads (u32 (pipe_reads (p_stats s) + 1)) (p_stats s)) s.

(** [while (pipe->count == pipe->size)]: whether there is space. *)
Fixpoint wait_space (fuel : nat) : Cmd (kern * pst) bool :=
  let* p := get_pipe in
  if p_count p =? p_size p then
    if reader_closed p then ret false else
    match fuel with
    | O => fail NoFuel
    | S fuel' => mon_wait pipe_mon false ;;; wait_space fuel'
    end
  else ret true.

(** The copies of [d] into the buffer and the move of [write_pos]. *)
Definition write_bytes (d : list Z) : Cmd (kern * pst) unit :=
  let* p := get_pipe in
  let to_write := Z.of_nat (length d) in
  let first_part := u32 (p_size p - write_pos p) in
  if to_write <=? first_part then
    buf_write (write_pos p) d ;;;
    let w := u32 (write_pos p + to_write) in
    put_pipe (set_write_pos (if w =? p_size p then 0 else w))
  else
    buf_write (write_pos p) (take (Z.to_nat first_part) d) ;;;
    buf_write 0 (drop (Z.to_nat first_part) d) ;;;
    put_pipe (set_write_pos (u32 (to_write - first_part))).

(** One pass of the outer loop, [rest] being the bytes still to write. *)
Definition write_chunk (rest : list Z) : Cmd (kern * pst) Z :=
  let* p := get_pipe in
  let space := u32 (p_size p - p_count p) in
  let to_write := if space <? Z.of_nat (length rest) then space else Z.of_nat (length rest) in
  write_bytes (take (Z.to_nat to_write) rest) ;;;
  put_pipe (fun p => set_p_count (u32 (p_count p + to_write)) p) ;;;
  write_obj bump_writes ;;;
  mon_signal pipe_mon true ;;;
  ret to_write.

Fixpoint write_loop (fuel wfuel : nat) (written : Z) (rest : list Z) : Cmd (kern * pst) Z :=
  match rest with
  | [] => mon_unlock pipe_mon ;;; ret (i32 written)
  | _ :: _ =>
      match fuel with
      | O => fail NoFuel
      | S fuel' =>
          let* ok := wait_space wfuel in
          if ok : bool then
            let* n := write_chunk rest in
            write_loop fuel' wfuel (u32 (written + n)) (drop (Z.to_nat n) rest)
          else mon_unlock pipe_mon ;;; ret (-1)
      end
  end.

(** [found] is whether [find_pipe_by_fd] (not defined in the sources) finds the
    pipe. *)
Definition pipe_write (fuel wfuel : nat) (found : bool) (src : list Z) : Cmd (kern * pst) Z :=
  if found then
    let* p := get_pipe in
    if writer_closed p then ret (-1) else
    mon_lock pipe_mon ;;; write_loop fuel wfuel 0 src
  else ret (-1).

(** [while (pipe->count == 0)]: whether there is data. *)
Fixpoint wait_data (fuel : nat) : Cmd (kern * pst) bool :=
  let* p := get_pipe in
  if p_count p =? 0 then
    if writer_closed p then ret false else
    match fuel with
    | O => fail NoFuel
    | S fuel' => mon_wait pipe_mon true ;;; wait_data fuel'
    end
  else ret true.

(** The copies out of the buffer and the move of [read_pos]. *)
Definition read_bytes (to_read : Z) : Cmd (kern * pst) (list Z) :=
  let* p := get_pipe in
  let first_part := u32 (p_size p - read_pos p) in
  if to_read <=? first_part then
    let* d := buf_read (read_pos p) to_read in
    let r := u32 (read_pos p + to_read) in
    put_pipe (set_read_pos (if r =? p_size p then 0 else r)) ;;;
    ret d
  else
    let* d1 := buf_read (read_pos p) first_part in
    let* d2 := buf_read 0 (to_read - first_part) in
    put_pipe (set_read_pos (u32 (to_read - first_part))) ;;;
    ret (d1 ++ d2).

Definition read_chunk (left_ : Z) : Cmd (kern * pst) (list Z) :=
  let* p := get_pipe in
  let to_read := if p_count p <? left_ then p_count p else left_ in
  let* d := read_bytes to_read in
  put_pipe (fun p => set_p_count (u32 (p_count p - to_read)) p) ;;;
  write_obj bump_reads ;;;
  mon_signal pipe_mon false ;;;
  ret d.

(** [dst]: the bytes read so far. *)
Fixpoint read_loop (fuel wfuel : nat) (count : Z) (dst : list Z) : Cmd (kern * pst) (Z * list Z) :=
  let read := Z.of_nat (length dst) in
  if read <? count then
    match fuel with
    | O => fail NoFuel
    | S fuel' =>
        let* ok := wait_data wfuel in
        if ok : bool then
          let* d := read_chunk (count - read) in
          read_loop fuel' wfuel count (dst ++ d)
        else mon_unlock pipe_mon ;;; ret (if 0 <? read then i32 read else 0, dst)
    end
  else mon_unlock pipe_mon ;;; ret (i32 read, dst).

Definition pipe_read (fuel wfuel : nat) (found : bool) (count : Z) : Cmd (kern * pst) (Z * list Z) :=
  if found then
    let* p := get_pipe in
    if reader_closed p then ret (-1, []) else
    mon_lock pipe_mon ;;; read_loop fuel wfuel count []
  else ret (-1, []).

(** ** The byte queue a pipe implements *)
Record pipe_holds (p : pipe_t) (q : list Z) : Prop := {
  ph_size : Z.of_nat (length (p_buffer p)) = p_size p;
  ph_bound : 0 < p_size p <= 2147483647;
  ph_read : 0 <= read_pos p < p_size p;
  ph_count : p_count p = Z.of_nat (length q);
  ph_write : write_pos p = Z.of_nat (wrap_at (length (p_buffer p)) (Z.to_nat (read_pos p) + length q));
  ph_ring : ring (p_buffer p) (Z.to_nat (read_pos p)) q
}.
Definition pipe_wf (s : pst) : Prop := exists q, pipe_holds (the_pipe s) q.

Lemma pipe_on_data q : on_data pipe_mon (fun s => pipe_holds (the_pipe s) q).
Proof. intros v x []. by split. Qed.
Lemma pipe_on_data_wf : on_data pipe_mon pipe_wf.
Proof. intros v x [q H]. exists q. by apply pipe_on_data. Qed.

Lemma buf_write_Ret k s off d :
  0 <= off -> off + Z.of_nat (length d) <= Z.of_nat (length (p_buffer (the_pipe s))) ->
  buf_write off d (k, s)
  = Ret tt (k, set_the_pipe (set_p_buffer (splice (Z.to_nat off) d (p_buffer (the_pipe s))) (the_pipe s)) s).
Proof.
  intros H0 H. unfold buf_write. erewrite bind_Ret by reflexivity. simpl.
  by rewrite (proj2 (Z.leb_le _ _)) by done.
Qed.

Lemma buf_read_Ret k s off n :
  off + n <= Z.of_nat (length (p_buffer (the_pipe s))) ->
  buf_read off n (k, s) = Ret (slice (Z.to_nat off) (Z.to_nat n) (p_buffer (the_pipe s))) (k, s).
Proof.
  intros H. unfold buf_read. erewrite bind_Ret by reflexivity. simpl.
  by rewrite (proj2 (Z.leb_le _ _)) by done.
Qed.

Lemma write_bytes_Ret k s q d :
  pipe_holds (the_pipe s) q -> (length q + length d <= length (p_buffer (the_pipe s)))%nat ->
  let p := the_pipe s in
  write_bytes d (k, s)
  = Ret tt (k, set_the_pipe
      (set_write_pos (Z.of_nat (wrap_at (length (p_buffer p)) (Z.to_nat (read_pos p) + (length q + length d))))
         (set_p_buffer (ring_put (Z.to_nat (write_pos p)) d (p_buffer p)) p)) s).
Proof.
  intros [Hs Hb Hr Hc Hw (Hr1 & Hr2 & _)] Hd p.
  fold p in Hs, Hb, Hr, Hw, Hr1, Hr2, Hd.
  assert (Hwb : 0 <= write_pos p < p_size p) by (rewrite Hw; unfold wrap_at; case_decide; lia).
  unfold write_bytes. erewrite bind_Ret by reflexivity. simpl. fold p.
  rewrite u32_small by lia. unfold ring_put. case_decide as Hf; case_match eqn:E;
    try (apply Z.leb_le in E; lia); try (apply Z.leb_gt in E; lia).
  - erewrite bind_Ret by (apply buf_write_Ret; fold p; lia). fold p.
    rewrite u32_small by lia. unfold put_pipe, write_obj, modify. simpl. f_equal. f_equal.
    apply (f_equal (fun w => set_the_pipe (set_write_pos w _) s)).
    unfold wrap_at in *. destruct (Z.eqb_spec (write_pos p + Z.of_nat (length d)) (p_size p));
      repeat case_decide; lia.
  - erewrite bind_Ret by (apply buf_write_Ret; fold p; rewrite ?length_take; lia). fold p.
    erewrite bind_Ret.
    2: { apply buf_write_Ret; [lia|]. simpl. rewrite splice_length by (rewrite length_take; lia).
         rewrite length_drop. lia. }
    rewrite u32_small by lia. unfold put_pipe, write_obj, modify. simpl. f_equal. f_equal.
    replace (Z.to_nat (p_size p - write_pos p)) with (length (p_buffer p) - Z.to_nat (write_pos p))%nat by lia.
    apply (f_equal (fun w => set_the_pipe (set_write_pos w _) s)).
    unfold wrap_at in *. repeat case_decide; lia.
Qed.

Lemma read_bytes_Ret k s q n :
  pipe_holds (the_pipe s) q -> (n <= length q)%nat ->
  let p := the_pipe s in
  read_bytes (Z.of_nat n) (k, s)
  = Ret (take n q) (k, set_the_pipe
      (set_read_pos (Z.of_nat (wrap_at (length (p_buffer p)) (Z.to_nat (read_pos p) + n))) p) s).
Proof.
  intros [Hs Hb Hr Hc Hw Hring] Hn p. fold p in Hs, Hb, Hr, Hw, Hring.
  pose proof Hring as (_ & Hr2 & _). rewrite <- (ring_get_first _ _ _ n Hring Hn).
  unfold read_bytes. erewrite bind_Ret by reflexivity. simpl. fold p.
  rewrite u32_small by lia. unfold ring_get. case_decide as Hf; case_match eqn:E;
    try (apply Z.leb_le in E; lia); try (apply Z.leb_gt in E; lia).
  - erewrite bind_Ret by (apply buf_read_Ret; fold p; lia). fold p.
    rewrite u32_small, Nat2Z.id by lia. erewrite bind_Ret by reflexivity. unfold ret. simpl.
    do 2 f_equal. apply (f_equal (fun w => set_the_pipe (set_read_pos w p) s)).
    unfold wrap_at. destruct (Z.eqb_spec (read_pos p + Z.of_nat n) (p_size p)); case_decide; lia.
  - erewrite bind_Ret by (apply buf_read_Ret; fold p; lia). fold p.
    erewrite bind_Ret by (apply buf_read_Ret; fold p; lia). fold p.
    rewrite u32_small by lia. erewrite bind_Ret by reflexivity. unfold ret. simpl.
    f_equal; [f_equal; f_equal; lia|]. f_equal.
    apply (f_equal (fun w => set_the_pipe (set_read_pos w p) s)). unfold wrap_at. case_decide; lia.
Qed.

(** What neither reading nor writing changes. *)
Definition same_ends (s s' : pst) : Prop :=
  reader_closed (the_pipe s') = reader_closed (the_pipe s) /\
  writer_closed (the_pipe s') = writer_closed (the_pipe s) /\
  p_size (the_pipe s') = p_size (the_pipe s).

Lemma holds_bytes p q : pipe_holds p q -> (length q <= length (p_buffer p))%nat.
Proof. by intros [_ _ _ _ _ (_ & ? & _)]. Qed.

Lemma write_chunk_spec i k s q rest :
  queues_ok pipe_mon i (k, s) -> pipe_holds (the_pipe s) q -> Z.of_nat (length rest) <= UINT32_MAX ->
  let n := Nat.min (length rest) (Z.to_nat (p_size (the_pipe s)) - length q) in
  exists k' s', write_chunk rest (k, s) = Ret (Z.of_nat n) (k', s') /\ queues_ok pipe_mon i (k', s') /\
                pipe_holds (the_pipe s') (q ++ take n rest) /\ same_ends s s'.
Proof.
  intros Hq Hp Hrest n. pose proof (holds_bytes _ _ Hp) as Hlen. pose proof Hp as [Hs Hb Hr Hc Hw Hring].
  unfold write_chunk. erewrite bind_Ret by reflexivity. simpl.
  assert (Hn : (if u32 (p_size (the_pipe s) - p_count (the_pipe s)) <? Z.of_nat (length rest)
                then u32 (p_size (the_pipe s) - p_count (the_pipe s)) else Z.of_nat (length rest)) = Z.of_nat n).
  { rewrite Hc, u32_small by lia. unfold n. case_match eqn:E; [apply Z.ltb_lt in E|apply Z.ltb_ge in E]; lia. }
  rewrite Hn, Nat2Z.id.
  assert (Hnl : length (take n rest) = n) by (rewrite length_take; unfold n; lia).
  erewrite bind_Ret by (apply write_bytes_Ret; [exact Hp|rewrite Hnl; unfold n; lia]).
  erewrite bind_Ret by reflexivity. erewrite bind_Ret by reflexivity. simpl.
  match goal with |- context [bind _ _ (_, ?x)] => set (s1 := x) end.
  assert (Hq1 : queues_ok pipe_mon i (k, s1)) by (eapply (queues_ok_write pipe_mon i k s s1); [reflexivity|exact Hq]).
  assert (Hp1 : pipe_holds (the_pipe s1) (q ++ take n rest)).
  { pose proof (ring_append (p_buffer (the_pipe s)) _ q (take n rest) Hring ltac:(rewrite Hnl; unfold n; lia)) as Hra.
    assert (Hwp : (Z.to_nat (write_pos (the_pipe s)) < length (p_buffer (the_pipe s)))%nat)
      by (rewrite Hw; unfold wrap_at; case_decide; lia).
    assert (Hlen1 : length (p_buffer (the_pipe s1)) = length (p_buffer (the_pipe s)))
      by (simpl; apply ring_put_length; [exact Hwp|rewrite Hnl; unfold n; lia]).
    split; rewrite ?Hlen1; simpl; try done.
    - rewrite Hc, length_app, Hnl, u32_small by (unfold n; lia). lia.
    - by rewrite length_app.
    - rewrite Hw, Nat2Z.id. exact Hra. }
  destruct (mon_signal_spec pipe_mon true i _ Hq1) as (k' & v & Hsig & Hq2).
  erewrite bind_Ret by exact Hsig. eexists _, _. split; [reflexivity|]. split; [exact Hq2|].
  split; [by apply pipe_on_data|done].
Qed.

Lemma read_chunk_spec i k s q left_ :
  queues_ok pipe_mon i (k, s) -> pipe_holds (the_pipe s) q -> 0 <= left_ ->
  let n := Nat.min (Z.to_nat left_) (length q) in
  exists k' s', read_chunk left_ (k, s) = Ret (take n q) (k', s') /\ queues_ok pipe_mon i (k', s') /\
                pipe_holds (the_pipe s') (drop n q) /\ same_ends s s'.
Proof.
  intros Hq Hp Hleft n. pose proof (holds_bytes _ _ Hp) as Hlen. pose proof Hp as [Hs Hb Hr Hc Hw Hring].
  unfold read_chunk. erewrite bind_Ret by reflexivity. simpl.
  assert (Hn : (if p_count (the_pipe s) <? left_ then p_count (the_pipe s) else left_) = Z.of_nat n).
  { rewrite Hc. unfold n. case_match eqn:E; [apply Z.ltb_lt in E|apply Z.ltb_ge in E]; lia. }
  rewrite Hn.
  erewrite bind_Ret by (apply read_bytes_Ret; [exact Hp|unfold n; lia]).
  erewrite bind_Ret by reflexivity. erewrite bind_Ret by reflexivity. simpl.
  match goal with |- context [bind _ _ (_, ?x)] => set (s1 := x) end.
  assert (Hq1 : queues_ok pipe_mon i (k, s1)) by (eapply (queues_ok_write pipe_mon i k s s1); [reflexivity|exact Hq]).
  assert (Hp1 : pipe_holds (the_pipe s1) (drop n q)).
  { pose proof (ring_drop _ _ _ n Hring ltac:(unfold n; lia)) as (Hd1 & Hd2 & Hd3).
    split; simpl; rewrite ?Nat2Z.id; try done.
    - lia.
    - rewrite length_drop, Hc, u32_small by (unfold n; lia). unfold n. lia.
    - rewrite Hw, length_drop. f_equal. unfold wrap_at, n in *. repeat case_decide; lia. }
  destruct (mon_signal_spec pipe_mon false i _ Hq1) as (k' & v & Hsig & Hq2).
  erewrite bind_Ret by exact Hsig. eexists _, _. split; [reflexivity|]. split; [exact Hq2|].
  split; [by apply pipe_on_data|done].
Qed.

(** ** The loops, uncontended *)
Lemma same_ends_trans s1 s2 s3 : same_ends s1 s2 -> same_ends s2 s3 -> same_ends s1 s3.
Proof. intros (? & ? & ?) (? & ? & ?). repeat split; congruence. Qed.
Lemma same_ends_upd v s : same_ends s (upd pipe_mon v s).
Proof. done. Qed.

Lemma wait_space_now wfuel k s q :
  pipe_holds (the_pipe s) q -> Z.of_nat (length q) < p_size (the_pipe s) ->
  wait_space wfuel (k, s) = Ret true (k, s).
Proof.
  intros Hp Hlt. destruct wfuel; simpl; (erewrite bind_Ret by reflexivity); simpl;
    by rewrite (ph_count _ _ Hp), (proj2 (Z.eqb_neq _ _)) by lia.
Qed.

Lemma wait_data_now wfuel k s q :
  pipe_holds (the_pipe s) q -> q <> [] -> wait_data wfuel (k, s) = Ret true (k, s).
Proof.
  intros Hp Hne. assert (length q <> 0%nat) by (by destruct q).
  destruct wfuel; simpl; (erewrite bind_Ret by reflexivity); simpl;
    by rewrite (ph_count _ _ Hp), (proj2 (Z.eqb_neq _ _)) by lia.
Qed.

Lemma write_end i k s q r (H : queues_ok pipe_mon i (k, s)) :
  pipe_holds (the_pipe s) q ->
  exists k' s', (mon_unlock pipe_mon ;;; ret r) (k, s) = Ret (r : Z) (k', s') /\
                pipe_holds (the_pipe s') q /\ same_ends s s'.
Proof.
  intros Hp. destruct (mon_unlock_spec pipe_mon i _ H) as (k' & v & Hu).
  erewrite bind_Ret by exact Hu. eexists _, _. split; [reflexivity|]. split; [by apply pipe_on_data|done].
Qed.

Lemma pipe_write_fits i fuel wfuel k s q src :
  queues_ok pipe_mon i (k, s) -> locked (p_lock (the_pipe s)) = 0 -> pipe_holds (the_pipe s) q ->
  writer_closed (the_pipe s) = false -> Z.of_nat (length q + length src) <= p_size (the_pipe s) ->
  exists k' s', pipe_write (S fuel) wfuel true src (k, s) = Ret (Z.of_nat (length src)) (k', s') /\
                pipe_holds (the_pipe s') (q ++ src) /\ same_ends s s'.
Proof.
  intros Hq H0 Hp Hwc Hfit. pose proof (ph_bound _ _ Hp) as Hb.
  unfold pipe_write. erewrite bind_Ret by reflexivity. simpl. rewrite Hwc.
  destruct (mon_lock_free pipe_mon i _ Hq H0) as (k1 & v & Hl & Hq1).
  erewrite bind_Ret by exact Hl. simpl in Hq1. simpl snd. set (s1 := upd pipe_mon v s) in *.
  assert (Hp1 : pipe_holds (the_pipe s1) q) by (by apply pipe_on_data).
  destruct src as [|a src]; simpl write_loop.
  - destruct (write_end i k1 s1 q (i32 0) Hq1 Hp1) as (k' & s' & He & Hp' & Hse).
    exists k', s'. rewrite app_nil_r. by split.
  - erewrite bind_Ret by (apply (wait_space_now wfuel k1 s1 q Hp1); simpl in *; lia).
    destruct (write_chunk_spec i k1 s1 q (a :: src) Hq1 Hp1) as (k2 & s2 & Hc & Hq2 & Hp2 & Hse2).
    { unfold UINT32_MAX. simpl in *. lia. }
    erewrite bind_Ret by exact Hc. rewrite Nat2Z.id.
    rewrite Nat.min_l by (simpl in *; lia). rewrite Nat.min_l in Hp2 by (simpl in *; lia).
    rewrite drop_all. rewrite take_ge in Hp2 by done.
    rewrite u32_small by (simpl in *; lia). rewrite Z.add_0_l.
    assert (Hi : i32 (Z.of_nat (length (a :: src))) = Z.of_nat (length (a :: src)))
      by (apply i32_small; simpl in *; lia).
    destruct (write_end i k2 s2 _ (i32 (Z.of_nat (length (a :: src)))) Hq2 Hp2) as (k' & s' & He & Hp' & Hse).
    exists k', s'. rewrite Hi in He. split; [|split; [done|]].
    + rewrite <- He. destruct fuel; cbn [write_loop]; by rewrite Hi.
    + eapply same_ends_trans; [|exact Hse]. exact Hse2.
Qed.

Lemma pipe_read_fits i fuel wfuel k s q n :
  queues_ok pipe_mon i (k, s) -> locked (p_lock (the_pipe s)) = 0 -> pipe_holds (the_pipe s) q ->
  reader_closed (the_pipe s) = false -> (n <= length q)%nat ->
  exists k' s', pipe_read (S fuel) wfuel true (Z.of_nat n) (k, s) = Ret (Z.of_nat n, take n q) (k', s') /\
                pipe_holds (the_pipe s') (drop n q) /\ same_ends s s'.
Proof.
  intros Hq H0 Hp Hrc Hn. pose proof (ph_bound _ _ Hp) as Hb. pose proof (holds_bytes _ _ Hp) as Hlen.
  pose proof (ph_size _ _ Hp) as Hsz.
  unfold pipe_read. erewrite bind_Ret by reflexivity. simpl. rewrite Hrc.
  destruct (mon_lock_free pipe_mon i _ Hq H0) as (k1 & v & Hl & Hq1).
  erewrite bind_Ret by exact Hl. simpl in Hq1. simpl snd. set (s1 := upd pipe_mon v s) in *.
  assert (Hp1 : pipe_holds (the_pipe s1) q) by (by apply pipe_on_data).
  assert (Hend : forall f k2 s2 d q', queues_ok pipe_mon i (k2, s2) -> pipe_holds (the_pipe s2) q' ->
            length d = n -> exists k' s', read_loop f wfuel (Z.of_nat n) d (k2, s2)
              = Ret (Z.of_nat n, d) (k', s') /\ pipe_holds (the_pipe s') q' /\ same_ends s2 s').
  { intros f k2 s2 d q' Hq2 Hp2 Hd. destruct (mon_unlock_spec pipe_mon i _ Hq2) as (k' & v' & Hu).
    exists k', (upd pipe_mon v' s2). split; [|split; [by apply pipe_on_data|done]].
    destruct f; simpl read_loop; rewrite Hd, (proj2 (Z.ltb_ge _ _)) by lia;
      (erewrite bind_Ret by exact Hu); by rewrite i32_small by lia. }
  destruct n as [|n].
  - destruct (Hend (S fuel) k1 s1 [] q Hq1 Hp1 eq_refl) as (k' & s' & He & Hp' & Hse).
    exists k', s'. rewrite drop_0. by split.
  - simpl read_loop. rewrite (proj2 (Z.ltb_lt _ _)) by (simpl; lia).
    erewrite bind_Ret by (apply (wait_data_now wfuel k1 s1 q Hp1); intros ->; simpl in Hn; lia).
    destruct (read_chunk_spec i k1 s1 q (Z.of_nat (S n) - 0) Hq1 Hp1) as (k2 & s2 & Hc & Hq2 & Hp2 & Hse2); [lia|].
    erewrite bind_Ret by exact Hc. rewrite Z.sub_0_r, Nat2Z.id, Nat.min_l in * by lia. change ([] ++ take (S n) q) with (take (S n) q).
    destruct (Hend fuel k2 s2 (take (S n) q) (drop (S n) q) Hq2 Hp2) as (k' & s' & He & Hp' & Hse).
    { rewrite length_take. lia. }
    exists k', s'. split; [exact He|]. split; [done|]. eapply same_ends_trans; [|exact Hse]. exact Hse2.
Qed.

(** ** The loops, whatever the other tasks do *)
Lemma wait_space_always wfuel i s :
  between pipe_mon i pipe_wf s ->
  always (Monitor.data_is pipe_wf) (between pipe_mon i pipe_wf)
    (fun b s' => between pipe_mon i pipe_wf s' /\
                 (b = true -> p_count (the_pipe (snd s')) <> p_size (the_pipe (snd s'))) /\
                 (b = false -> reader_closed (the_pipe (snd s')) = true)) (wait_space wfuel s).
Proof.
  revert s. induction wfuel as [|wfuel IH]; intros s Hs; simpl; (erewrite bind_Ret by reflexivity); simpl;
    destruct (Z.eqb_spec (p_count (the_pipe (snd s))) (p_size (the_pipe (snd s)))); try by split.
  - by destruct (reader_closed _) eqn:E.
  - destruct (reader_closed _) eqn:E; [by split|].
    apply (always_bind _ _ _ _ _ (fun _ => between pipe_mon i pipe_wf)); [|intros _ s' Hs'; by apply IH].
    apply mon_wait_always; [apply pipe_on_data_wf|exact Hs].
Qed.

Lemma wait_data_always wfuel i s :
  between pipe_mon i pipe_wf s ->
  always (Monitor.data_is pipe_wf) (between pipe_mon i pipe_wf)
    (fun b s' => between pipe_mon i pipe_wf s' /\ (b = true -> p_count (the_pipe (snd s')) <> 0) /\
                 (b = false -> writer_closed (the_pipe (snd s')) = true)) (wait_data wfuel s).
Proof.
  revert s. induction wfuel as [|wfuel IH]; intros s Hs; simpl; (erewrite bind_Ret by reflexivity); simpl;
    destruct (Z.eqb_spec (p_count (the_pipe (snd s))) 0); try by split.
  - by destruct (writer_closed _) eqn:E.
  - destruct (writer_closed _) eqn:E; [by split|].
    apply (always_bind _ _ _ _ _ (fun _ => between pipe_mon i pipe_wf)); [|intros _ s' Hs'; by apply IH].
    apply mon_wait_always; [apply pipe_on_data_wf|exact Hs].
Qed.

Lemma pipe_unlock_always {A} i s (r : A) (Q : A -> kern * pst -> Prop) G R :
  between pipe_mon i pipe_wf s -> (forall k' v, Q r (k', upd pipe_mon v (snd s))) ->
  always G R Q ((mon_unlock pipe_mon ;;; ret r) s).
Proof.
  intros [Hq _] HQ. destruct (mon_unlock_spec pipe_mon i _ Hq) as (k' & v & Hu).
  erewrite bind_Ret by exact Hu. apply HQ.
Qed.

Lemma write_loop_always i wfuel total fuel rest written s :
  between pipe_mon i pipe_wf s -> 0 <= written -> written + Z.of_nat (length rest) = total -> total <= 2147483647 ->
  always (Monitor.data_is pipe_wf) (between pipe_mon i pipe_wf)
    (fun r s' => pipe_wf (snd s') /\
                 (r = total \/ r = -1 /\ reader_closed (the_pipe (snd s')) = true))
    (write_loop fuel wfuel written rest s).
Proof.
  revert rest written s. induction fuel as [|fuel IH]; intros [|a rest] written s Hs H0 Ht Hb; try done.
  - apply (pipe_unlock_always i); [done|]. intros k' v. split; [apply pipe_on_data_wf, Hs|].
    left. simpl in Ht. rewrite i32_small; lia.
  - apply (pipe_unlock_always i); [done|]. intros k' v. split; [apply pipe_on_data_wf, Hs|].
    left. simpl in Ht. rewrite i32_small; lia.
  - simpl write_loop.
    refine (always_bind _ _ _ _ _ _ _ (wait_space_always wfuel i s Hs) _).
    intros [] [k s1] (Hs1 & Hne & Hcl).
    + pose proof Hs1 as [Hq1 [q Hp1]]. simpl in *.
      destruct (write_chunk_spec i k s1 q (a :: rest) Hq1 Hp1) as (k2 & s2 & Hc & Hq2 & Hp2 & _).
      { unfold UINT32_MAX. simpl in *. lia. }
      erewrite bind_Ret by exact Hc. rewrite Nat2Z.id. set (n := Nat.min _ _).
      assert (n <= length (a :: rest))%nat by (unfold n; lia).
      rewrite u32_small by (simpl in *; lia). apply IH.
      * split; [done|]. by eexists.
      * lia.
      * rewrite length_drop. simpl length in *. lia.
      * done.
    + apply (pipe_unlock_always i); [done|]. intros k' v. split; [apply pipe_on_data_wf, Hs1|].
      right. split; [done|]. by apply Hcl.
Qed.

Lemma read_loop_always i wfuel count fuel dst s :
  between pipe_mon i pipe_wf s -> Z.of_nat (length dst) <= count -> count <= 2147483647 ->
  always (Monitor.data_is pipe_wf) (between pipe_mon i pipe_wf)
    (fun r s' => pipe_wf (snd s') /\ fst r = Z.of_nat (length (snd r)) /\
                 (fst r = count \/ fst r < count /\ writer_closed (the_pipe (snd s')) = true))
    (read_loop fuel wfuel count dst s).
Proof.
  revert dst s. induction fuel as [|fuel IH]; intros dst s Hs Hd Hb; simpl read_loop;
    destruct (Z.ltb_spec (Z.of_nat (length dst)) count) as [Hlt|Hge]; try done.
  1,3: apply (pipe_unlock_always i); [done|]; intros k' v; (split; [apply pipe_on_data_wf, Hs|]);
       simpl; rewrite i32_small by lia; lia.
  refine (always_bind _ _ _ _ _ _ _ (wait_data_always wfuel i s Hs) _).
  intros [] [k s1] (Hs1 & Hne & Hcl).
  - pose proof Hs1 as [Hq1 [q Hp1]]. simpl in *.
    destruct (read_chunk_spec i k s1 q (count - Z.of_nat (length dst)) Hq1 Hp1) as (k2 & s2 & Hc & Hq2 & Hp2 & _); [lia|].
    erewrite bind_Ret by exact Hc. apply IH; [|rewrite length_app, length_take; lia|done].
    split; [done|]. by eexists.
  - apply (pipe_unlock_always i); [done|]. intros k' v. split; [apply pipe_on_data_wf, Hs1|]. simpl.
    specialize (Hcl eq_refl). simpl in Hcl. destruct (Z.ltb_spec 0 (Z.of_nat (length dst)));
      [rewrite i32_small by lia|]; (split; [lia|]; right; split; [lia|exact Hcl]).
Qed.

(** ** Properties *)

(** C30. A pipe is a byte queue.  When nobody is inside, a write that fits in the
    free space appends its bytes and returns their number, and a read of no more
    bytes than the pipe holds takes exactly the first ones, in order, whatever
    the positions in the ring and however the copy wraps around its end; neither
    call gives the processor away, and one pass of its loop is enough. *)
Theorem pipe_fifo (i fuel wfuel : nat) (k : kern) (s : pst) (q : list Z)
    (Hq : queues_ok pipe_mon i (k, s)) (Hfree : locked (p_lock (the_pipe s)) = 0)
    (Hp : pipe_holds (the_pipe s) q)
    (Hw : writer_closed (the_pipe s) = false) (Hr : reader_closed (the_pipe s) = false) :
  (forall src, Z.of_nat (length q + length src) <= p_size (the_pipe s) ->
     exists k' s', pipe_write (S fuel) wfuel true src (k, s) = Ret (Z.of_nat (length src)) (k', s') /\
                   pipe_holds (the_pipe s') (q ++ src) /\ same_ends s s') /\
  (forall n, (n <= length q)%nat ->
     exists k' s', pipe_read (S fuel) wfuel true (Z.of_nat n) (k, s) = Ret (Z.of_nat n, take n q) (k', s') /\
                   pipe_holds (the_pipe s') (drop n q) /\ same_ends s s').
Proof.
  split; intros; [by eapply pipe_write_fits|by eapply pipe_read_fits].
Qed.

(** Under every behaviour of the other tasks between its waits, as long as
    they keep the pipe a well-formed ring, a call to [pipe_write] or [pipe_read]
    touches no byte outside the buffer and keeps the ring well-formed at each
    point where it gives the processor away and when it returns.  A write
    returns the full count, or -1 with an end of the pipe closed; a read returns
    the number of bytes it delivers, which is the count asked for unless the
    writing end is closed. *)
Theorem pipe_any_schedule (i fuel wfuel : nat) (s : kern * pst) (src : list Z) (count : Z)
    (Hs : between pipe_mon i pipe_wf s) (Hsrc : Z.of_nat (length src) <= 2147483647)
    (Hcount : 0 <= count <= 2147483647) :
  always (Monitor.data_is pipe_wf) (between pipe_mon i pipe_wf)
    (fun r s' => pipe_wf (snd s') /\
       (r = Z.of_nat (length src) \/
        r = -1 /\ (writer_closed (the_pipe (snd s)) = true \/ reader_closed (the_pipe (snd s')) = true)))
    (pipe_write fuel wfuel true src s) /\
  (reader_closed (the_pipe (snd s)) = false ->
   always (Monitor.data_is pipe_wf) (between pipe_mon i pipe_wf)
    (fun r s' => pipe_wf (snd s') /\ fst r = Z.of_nat (length (snd r)) /\
                 (fst r = count \/ fst r < count /\ writer_closed (the_pipe (snd s')) = true))
    (pipe_read fuel wfuel true count s)).
Proof.
  split.
  - unfold pipe_write. erewrite bind_Ret by reflexivity. simpl.
    destruct (writer_closed _) eqn:E; simpl.
    { split; [apply Hs|]. right. split; [done|]. by left. }
    apply (always_bind _ _ _ _ _ (fun _ => between pipe_mon i pipe_wf)).
    { apply mon_lock_always; [apply pipe_on_data_wf|exact Hs]. }
    intros _ s1 Hs1. eapply always_mono; [|apply (write_loop_always i wfuel (Z.of_nat (length src))); done || lia].
    intros r s' (Hwf & Hr). split; [done|]. destruct Hr as [->|[-> Hr]]; [by left|right]. split; [done|]. by right.
  - intros E. unfold pipe_read. erewrite bind_Ret by reflexivity. simpl. rewrite E.
    apply (always_bind _ _ _ _ _ (fun _ => between pipe_mon i pipe_wf)).
    { apply mon_lock_always; [apply pipe_on_data_wf|exact Hs]. }
    intros _ s1 Hs1. by apply read_loop_always; [|simpl; lia|lia].
Qed.

(** An empty pipe whose positions are near the end of its buffer. *)
Definition small_pipe : pipe_t :=
  set_read_pos 3 (set_write_pos 3 {|
    p_buffer := [0; 0; 0; 0]; p_size := 4; read_pos := 0; write_pos := 0; p_count := 0;
    p_lock := mutex_init "pipe_lock"; p_not_full := condition_init "pipe_not_full";
    p_not_empty := condition_init "pipe_not_empty"; reader_closed := false; writer_closed := false |}).
Definition small_state : kern * pst := (two_tasks 0, {| the_pipe := small_pipe; p_stats := zero_stats |}).

Lemma small_holds : pipe_holds small_pipe [].
Proof. split; simpl; try done; try lia. split; [simpl; lia|]. split; [simpl; lia|]. intros i Hi. simpl in Hi. lia. Qed.
Lemma small_queues : queues_ok pipe_mon 0 small_state.
Proof.
  split; [done|]. split; [by exists zero_task|]. exists [], (fun _ => []).
  split; [done|]. split; [by intros []|]. by apply (NoDup_singleton 0%nat).
Qed.

Lemma pipe_fifo_witness :
  exists k' s', pipe_write 1 0 true [7; 8; 9] small_state = Ret 3 (k', s') /\
                pipe_holds (the_pipe s') [7; 8; 9] /\ p_buffer (the_pipe s') = [8; 9; 0; 7].
Proof.
  destruct (proj1 (pipe_fifo 0 0 0 _ _ [] small_queues eq_refl small_holds eq_refl eq_refl) [7; 8; 9])
    as (k' & s' & He & Hp & _); [simpl; lia|].
  exists k', s'. split; [exact He|]. split; [exact Hp|].
  assert (Hc : pipe_write 1 0 true [7; 8; 9] small_state = Ret 3 (k', s')) by exact He.
  vm_compute in Hc. injection Hc as _ <-. reflexivity.
Defined.

Lemma pipe_any_schedule_witness :
  always (Monitor.data_is pipe_wf) (between pipe_mon 0 pipe_wf)
    (fun r s' => pipe_wf (snd s') /\ fst r = Z.of_nat (length (snd r)) /\
                 (fst r = 2 \/ fst r < 2 /\ writer_closed (the_pipe (snd s')) = true))
    (pipe_read 2 1 true 2 small_state).
Proof.
  apply (proj2 (pipe_any_schedule 0 2 1 small_state [] 2
    (conj small_queues (ex_intro _ [] small_holds)) ltac:(simpl; lia) ltac:(lia))). reflexivity.
Defined.
