(* ===== verification/MsgQueue.v ===== *)
(** * MsgQueue

    src/src/msg_queue.c: bounded queues of fixed-size message slots in a byte
    buffer, protected by a mutex and two conditions.  A receiver may ask for a
    type of message: the first one of that type is taken out and the messages
    before it are moved up by one slot. *)
From stdpp Require Import strings.
From S2P Require Import Prelude Links Task WaitQueue Mutex Condition Monitor Ipc.

(** ** Data

    [msg_queue_t], with the field [key] the code uses and the header does not
    declare; its permissions are read by no code. *)
Record msg_queue_t : Type := MsgQueue {
  mq_key : Z;
  msg_count : Z;
  max_msgs : Z;
  max_size : Z;
  mq_buffer : list Z;
  mq_head : Z;
  mq_tail : Z;
  mq_lock : mutex_t;
  mq_not_full : condition_t;
  mq_not_empty : condition_t
}.

Definition set_msg_count (v : Z) (x : msg_queue_t) : msg_queue_t := {|
  mq_key := mq_key x; msg_count := v; max_msgs := max_msgs x;
  max_size := max_size x; mq_buffer := mq_buffer x; mq_head := mq_head x;
  mq_tail := mq_tail x; mq_lock := mq_lock x; mq_not_full := mq_not_full x;
  mq_not_empty := mq_not_empty x |}.
Definition set_mq_buffer (v : list Z) (x : msg_queue_t) : msg_queue_t := {|
  mq_key := mq_key x; msg_count := msg_count x; max_msgs := max_msgs x;
  max_size := max_size x; mq_buffer := v; mq_head := mq_head x;
  mq_tail := mq_tail x; mq_lock := mq_lock x; mq_not_full := mq_not_full x;
  mq_not_empty := mq_not_empty x |}.
Definition set_mq_head (v : Z) (x : msg_queue_t) : msg_queue_t := {|
  mq_key := mq_key x; msg_count := msg_count x; max_msgs := max_msgs x;
  max_size := max_size x; mq_buffer := mq_buffer x; mq_head := v;
  mq_tail := mq_tail x; mq_lock := mq_lock x; mq_not_full := mq_not_full x;
  mq_not_empty := mq_not_empty x |}.
Definition set_mq_tail (v : Z) (x : msg_queue_t) : msg_queue_t := {|
  mq_key := mq_key x; msg_count := msg_count x; max_msgs := max_msgs x;
  max_size := max_size x; mq_buffer := mq_buffer x; mq_head := mq_head x;
  mq_tail := v; mq_lock := mq_lock x; mq_not_full := mq_not_full x;
  mq_not_empty := mq_not_empty x |}.
Definition set_mq_lock (v : mutex_t) (x : msg_queue_t) : msg_queue_t := {|
  mq_key := mq_key x; msg_count := msg_count x; max_msgs := max_msgs x;
  max_size := max_size x; mq_buffer := mq_buffer x; mq_head := mq_head x;
  mq_tail := mq_tail x; mq_lock := v; mq_not_full := mq_not_full x;
  mq_not_empty := mq_not_empty x |}.
Definition set_mq_not_full (v : condition_t) (x : msg_queue_t) : msg_queue_t := {|
  mq_key := mq_key x; msg_count := msg_count x; max_msgs := max_msgs x;
  max_size := max_size x; mq_buffer := mq_buffer x; mq_head := mq_head x;
  mq_tail := mq_tail x; mq_lock := mq_lock x; mq_not_full := v;
  mq_not_empty := mq_not_empty x |}.
Definition set_mq_not_empty (v : condition_t) (x : msg_queue_t) : msg_queue_t := {|
  mq_key := mq_key x; msg_count := msg_count x; max_msgs := max_msgs x;
  max_size := max_size x; mq_buffer := mq_buffer x; mq_head := mq_head x;
  mq_tail := mq_tail x; mq_lock := mq_lock x; mq_not_full := mq_not_full x;
  mq_not_empty := v |}.

Record mqst : Type := Mqst {
  the_mq : msg_queue_t;
  mq_stats : ipc_stats_t
}.

Definition set_the_mq (v : msg_queue_t) (x : mqst) : mqst := {|
  the_mq := v; mq_stats := mq_stats x |}.
Definition set_mq_stats (v : ipc_stats_t) (x : mqst) : mqst := {|
  the_mq := the_mq x; mq_stats := v |}.

(** The list of queues, the latest first, with its lock. *)
Record mq_sys : Type := MqSys {
  msg_queues_list : list msg_queue_t;
  msg_queues_lock : mutex_t;
  mq_gstats : ipc_stats_t
}.

Definition set_msg_queues_list (v : list msg_queue_t) (x : mq_sys) : mq_sys := {|
  msg_queues_list := v; msg_queues_lock := msg_queues_lock x; mq_gstats := mq_gstats x |}.
Definition set_msg_queues_lock (v : mutex_t) (x : mq_sys) : mq_sys := {|
  msg_queues_list := msg_queues_list x; msg_queues_lock := v; mq_gstats := mq_gstats x |}.
Definition set_mq_gstats (v : ipc_stats_t) (x : mq_sys) : mq_sys := {|
  msg_queues_list := msg_queues_list x; msg_queues_lock := msg_queues_lock x; mq_gstats := v |}.

Definition mq_mon : lens mqst (mutex_t * (condition_t * condition_t)).
Proof.
  refine (Lens (fun s => (mq_lock (the_mq s), (mq_not_full (the_mq s), mq_not_empty (the_mq s))))
    (fun v s => set_the_mq (set_mq_lock (fst v) (set_mq_not_full (fst (snd v))
                  (set_mq_not_empty (snd (snd v)) (the_mq s)))) s) _ _ _);
    [by intros [? []]|by intros [[] ?]|done].
Defined.
Definition mq_sys_lock : lens (kern * mq_sys) (kern * mutex_t).
Proof.
  refine (Lens (fun s => (fst s, msg_queues_lock (snd s)))
               (fun p s => (fst p, set_msg_queues_lock (snd p) (snd s))) _ _ _);
    [by intros []|by intros [? []]|done].
Defined.

(** ** Operations *)
Definition msgq_init : Cmd (kern * mq_sys) unit :=
  write_obj (set_msg_queues_lock (mutex_init "msg_queues_lock")) ;;;
  write_obj (set_mq_gstats zero_stats).

Fixpoint find_msg_queue (l : list msg_queue_t) (key : Z) : option msg_queue_t :=
  match l with
  | [] => None
  | mq :: l' => if mq_key mq =? key then Some mq else find_msg_queue l' key
  end.

Definition new_msg_queue (key max_msgs max_size : Z) (buf : list Z) : msg_queue_t := {|
  mq_key := key; msg_count := 0; max_msgs := max_msgs; max_size := max_size; mq_buffer := buf;
  mq_head := 0; mq_tail := 0; mq_lock := mutex_init "msgq_lock";
  mq_not_full := condition_init "msgq_not_full"; mq_not_empty := condition_init "msgq_not_empty" |}.

(** [mq_ok]: whether [malloc] finds room for the structure; [buf n]: the memory
    [malloc(n)] returns for the messages, [n] being the product in 32 bits. *)
Definition msgq_create (mq_ok : bool) (buf : Z -> option (list Z)) (key max_msgs max_size : Z)
    : Cmd (kern * mq_sys) Z :=
  zoom mq_sys_lock mutex_lock ;;;
  let* qs := read_obj msg_queues_list in
  let err := zoom mq_sys_lock mutex_unlock ;;; ret (-1) in
  match find_msg_queue qs key with
  | Some _ => err
  | None =>
      if mq_ok then
        match buf (u32 (max_msgs * max_size)) with
        | None => err
        | Some b =>
            write_obj (fun g => set_msg_queues_list (new_msg_queue key max_msgs max_size b :: msg_queues_list g) g) ;;;
            write_obj (fun g => set_mq_gstats (set_msg_queues (u32 (msg_queues (mq_gstats g) + 1)) (mq_gstats g)) g) ;;;
            zoom mq_sys_lock mutex_unlock ;;;
            ret 0
        end
      else err
  end.

Definition get_mq : Cmd (kern * mqst) msg_queue_t := read_obj the_mq.
Definition put_mq (f : msg_queue_t -> msg_queue_t) : Cmd (kern * mqst) unit :=
  write_obj (fun s => set_the_mq (f (the_mq s)) s).

(** [memcpy] into and out of the buffer; beyond its end it is a fault. *)
Definition mq_write (off : Z) (d : list Z) : Cmd (kern * mqst) unit :=
  let* m := get_mq in
  if off + Z.of_nat (length d) <=? Z.of_nat (length (mq_buffer m))
  then put_mq (set_mq_buffer (splice (Z.to_nat off) d (mq_buffer m)))
  else fail Fault.
Definition mq_read (off n : Z) : Cmd (kern * mqst) (list Z) :=
  let* m := get_mq in
  if off + n <=? Z.of_nat (length (mq_buffer m))
  then ret (slice (Z.to_nat off) (Z.to_nat n) (mq_buffer m))
  else fail Fault.

(** [while (mq->msg_count >= mq->max_msgs)] and [while (mq->msg_count == 0)];
    the result is false when the call gives up. *)
Fixpoint mq_await (full : bool) (fuel : nat) (clock : kern -> Z) (timeout : Z) : Cmd (kern * mqst) bool :=
  let* m := get_mq in
  if (if full then max_msgs m <=? msg_count m else msg_count m =? 0) then
    if timeout =? 0 then ret false else
    match fuel with
    | O => fail NoFuel
    | S fuel' =>
        let* ok := mon_timedwait mq_mon (negb full) clock timeout in
        if ok : bool then mq_await full fuel' clock timeout else ret false
    end
  else ret true.

(** [(i + 1) % max_msgs]: a division by zero is a fault. *)
Definition next_slot (i : Z) : Cmd (kern * mqst) Z :=
  let* m := get_mq in
  if max_msgs m =? 0 then fail Fault else ret (u32 (i + 1) mod max_msgs m).

Definition bump_sends (s : mqst) : mqst :=
  set_mq_stats (set_msg_sends (u32 (msg_sends (mq_stats s) + 1)) (mq_stats s)) s.
Definition bump_receives (s : mqst) : mqst :=
  set_mq_stats (set_msg_receives (u32 (msg_receives (mq_stats s) + 1)) (mq_stats s)) s.

(** [found] is the result of [find_msg_queue]; [msg] holds the [size] bytes the
    caller passes. *)
Definition msgq_send (fuel : nat) (clock : kern -> Z) (found : bool) (msg : list Z) (timeout : Z)
    : Cmd (kern * mqst) Z :=
  if found then
    mon_lock mq_mon ;;;
    let* ok := mq_await true fuel clock timeout in
    if ok : bool then
      let* m := get_mq in
      mq_write (u32 (mq_tail m * max_size m)) msg ;;;
      let* t := next_slot (mq_tail m) in
      put_mq (set_mq_tail t) ;;;
      put_mq (fun m => set_msg_count (u32 (msg_count m + 1)) m) ;;;
      write_obj bump_sends ;;;
      mon_signal mq_mon true ;;;
      mon_unlock mq_mon ;;;
      ret 0
    else mon_unlock mq_mon ;;; ret (-1)
  else ret (-1).

(** [current_msg->type]: a 32-bit little-endian [long] at the slot's start. *)
Definition le32 (b : list Z) : Z :=
  match b with
  | [b0; b1; b2; b3] => i32 (b0 + 256 * b1 + 65536 * b2 + 16777216 * b3)
  | _ => 0
  end.

(** The search: [count] messages left, from slot [current]. *)
Fixpoint mq_find (count : nat) (type current : Z) : Cmd (kern * mqst) (option Z) :=
  match count with
  | O => ret None
  | S count' =>
      let* m := get_mq in
      let* found := (if type =? 0 then ret true else
                     let* t := mq_read (u32 (current * max_size m)) 4 in
                     ret (le32 t =? type)) in
      if found : bool then ret (Some current) else
      let* c := next_slot current in mq_find count' type c
  end.

(** Moving the messages before [move_start] up by one slot. *)
Fixpoint mq_shift (fuel : nat) (move_start move_end : Z) : Cmd (kern * mqst) unit :=
  if move_start =? move_end then ret tt else
  match fuel with
  | O => fail NoFuel
  | S fuel' =>
      let* m := get_mq in
      if max_msgs m =? 0 then fail Fault else
      let prev := u32 (u32 (move_start - 1) + max_msgs m) mod max_msgs m in
      let* d := mq_read (u32 (prev * max_size m)) (max_size m) in
      mq_write (u32 (move_start * max_size m)) d ;;;
      mq_shift fuel' prev move_end
  end.

(** Returns the result and the [size] bytes copied to [msg]. *)
Definition msgq_receive (fuel : nat) (clock : kern -> Z) (found : bool) (size type timeout : Z)
    : Cmd (kern * mqst) (Z * list Z) :=
  if found then
    mon_lock mq_mon ;;;
    let* ok := mq_await false fuel clock timeout in
    if ok : bool then
      let* m := get_mq in
      let* c := mq_find (Z.to_nat (msg_count m)) type (mq_head m) in
      match c with
      | None => mon_unlock mq_mon ;;; ret (-1, [])
      | Some current =>
          let* d := mq_read (u32 (current * max_size m)) size in
          (if current =? mq_head m then ret tt
           else mq_shift (Z.to_nat (msg_count m)) current (mq_head m)) ;;;
          let* h := next_slot (mq_head m) in
          put_mq (set_mq_head h) ;;;
          put_mq (fun m => set_msg_count (u32 (msg_count m - 1)) m) ;;;
          write_obj bump_receives ;;;
          mon_signal mq_mon false ;;;
          mon_unlock mq_mon ;;;
          ret (0, d)
      end
    else mon_unlock mq_mon ;;; ret (-1, [])
  else ret (-1, []).

(** ** Slots of the buffer *)
Definition slot (ms j : nat) (b : list Z) : list Z := slice (j * ms) ms b.

Lemma slot_length N ms j b : length b = (N * ms)%nat -> (j < N)%nat -> length (slot ms j b) = ms.
Proof. intros Hb Hj. apply slice_length. nia. Qed.

Lemma slot_write_same N ms j d b :
  length b = (N * ms)%nat -> (j < N)%nat -> (length d <= ms)%nat ->
  slot ms j (splice (j * ms) d b) = d ++ drop (length d) (slot ms j b).
Proof.
  intros Hb Hj Hd. assert (j * ms + ms <= length b)%nat by nia.
  apply list_eq. intros i. unfold slot. rewrite slice_lookup. case_decide as Hi.
  - rewrite splice_lookup by lia. case_decide as Hs.
    + rewrite lookup_app_l by lia. f_equal. lia.
    + rewrite lookup_app_r by lia. rewrite lookup_drop, slice_lookup, decide_True by lia. f_equal. lia.
  - symmetry. apply lookup_ge_None. rewrite length_app, length_drop, slice_length by lia. lia.
Qed.

Lemma slot_write_other N ms j j' d b :
  length b = (N * ms)%nat -> (j < N)%nat -> (length d <= ms)%nat -> j' <> j ->
  slot ms j' (splice (j * ms) d b) = slot ms j' b.
Proof.
  intros Hb Hj Hd Hne. assert (j * ms + ms <= length b)%nat by nia.
  apply list_eq. intros i. unfold slot. rewrite !slice_lookup. case_decide as Hi; [|done].
  rewrite splice_lookup by lia. rewrite decide_False; [done|]. intros Hin. apply Hne. nia.
Qed.

(** The queue of [N] slots of [ms] bytes holds the messages [q]. *)
Record mq_holds (N ms : nat) (m : msg_queue_t) (q : list (list Z)) : Prop := {
  mh_max : max_msgs m = Z.of_nat N;
  mh_size : max_size m = Z.of_nat ms;
  mh_buf : length (mq_buffer m) = (N * ms)%nat;
  mh_bound : (4 <= ms)%nat /\ Z.of_nat N * Z.of_nat ms <= UINT32_MAX;
  mh_head : 0 <= mq_head m < Z.of_nat N;
  mh_count : msg_count m = Z.of_nat (length q) /\ (length q <= N)%nat;
  mh_tail : mq_tail m = Z.of_nat (wrap_at N (Z.to_nat (mq_head m) + length q));
  mh_slots : forall i x, q !! i = Some x -> slot ms (wrap_at N (Z.to_nat (mq_head m) + i)) (mq_buffer m) = x
}.

Lemma mq_on_data N ms q : on_data mq_mon (fun s => mq_holds N ms (the_mq s) q).
Proof. intros v x []. by split. Qed.

Lemma mq_write_Ret k s off d :
  (off + length d <= length (mq_buffer (the_mq s)))%nat ->
  mq_write (Z.of_nat off) d (k, s)
  = Ret tt (k, set_the_mq (set_mq_buffer (splice off d (mq_buffer (the_mq s))) (the_mq s)) s).
Proof.
  intros H. unfold mq_write. erewrite bind_Ret by reflexivity. simpl.
  by rewrite (proj2 (Z.leb_le _ _)), Nat2Z.id by lia.
Qed.

Lemma mq_read_Ret k s off n :
  (off + n <= length (mq_buffer (the_mq s)))%nat ->
  mq_read (Z.of_nat off) (Z.of_nat n) (k, s) = Ret (slice off n (mq_buffer (the_mq s))) (k, s).
Proof.
  intros H. unfold mq_read. erewrite bind_Ret by reflexivity. simpl.
  by rewrite (proj2 (Z.leb_le _ _)), !Nat2Z.id by lia.
Qed.

(** The offset of a slot does not wrap. *)
Lemma slot_offset N ms j :
  (j < N)%nat -> Z.of_nat N * Z.of_nat ms <= UINT32_MAX -> u32 (Z.of_nat j * Z.of_nat ms) = Z.of_nat (j * ms).
Proof. intros Hj Hb. unfold UINT32_MAX in Hb. rewrite Nat2Z.inj_mul. apply u32_small. nia. Qed.

Lemma next_slot_Ret N k s j :
  max_msgs (the_mq s) = Z.of_nat N -> (j < N)%nat -> Z.of_nat N <= UINT32_MAX ->
  next_slot (Z.of_nat j) (k, s) = Ret (Z.of_nat (wrap_at N (j + 1))) (k, s).
Proof.
  intros Hm Hj Hb. unfold UINT32_MAX in Hb. unfold next_slot. erewrite bind_Ret by reflexivity. simpl.
  rewrite Hm, (proj2 (Z.eqb_neq _ _)) by lia. rewrite u32_small by lia. unfold ret. f_equal.
  unfold wrap_at. case_decide; [rewrite Z.mod_small by lia; lia|].
  assert (j + 1 = N)%nat as Hjn by lia. replace (Z.of_nat j + 1) with (Z.of_nat N) by lia.
  rewrite Z.mod_same by lia. lia.
Qed.

Lemma wrap_at_step N h i : (h < N)%nat -> (i < N)%nat -> wrap_at N (wrap_at N (h + i) + 1) = wrap_at N (h + (i + 1)).
Proof. intros. unfold wrap_at. repeat case_decide; lia. Qed.
Lemma wrap_at_inj N h i j :
  (h < N)%nat -> (i < N)%nat -> (j < N)%nat -> wrap_at N (h + i) = wrap_at N (h + j) -> i = j.
Proof. intros. unfold wrap_at in *. repeat case_decide; lia. Qed.
Lemma wrap_at_lt N h i : (h < N)%nat -> (i <= N)%nat -> (wrap_at N (h + i) < N)%nat.
Proof. intros. unfold wrap_at. repeat case_decide; lia. Qed.

(** ** Searching and moving messages *)
Definition matches (type : Z) (x : list Z) : bool := (type =? 0) || (le32 (take 4 x) =? type).

Lemma slice_prefix off n m (b : list Z) : (n <= m)%nat -> slice off n b = take n (slice off m b).
Proof. intros H. unfold slice. rewrite take_take. by rewrite Nat.min_l by lia. Qed.

Lemma mq_find_spec N ms k s type l i :
  (4 <= ms)%nat -> max_msgs (the_mq s) = Z.of_nat N -> max_size (the_mq s) = Z.of_nat ms ->
  length (mq_buffer (the_mq s)) = (N * ms)%nat -> Z.of_nat N * Z.of_nat ms <= UINT32_MAX ->
  forall h, (h < N)%nat -> (i + length l <= N)%nat ->
  (forall j x, l !! j = Some x -> slot ms (wrap_at N (h + (i + j))) (mq_buffer (the_mq s)) = x) ->
  mq_find (length l) type (Z.of_nat (wrap_at N (h + i))) (k, s)
  = Ret ((fun '(j, _) => Z.of_nat (wrap_at N (h + (i + j)))) <$> list_find (matches type) l) (k, s).
Proof.
  intros H4 Hm Hsz Hb Hbd h Hh. revert i. induction l as [|x l IH]; intros i Hi Hl; [done|].
  simpl in Hi. simpl mq_find. erewrite bind_Ret by reflexivity.
  assert (Hw : (wrap_at N (h + i) < N)%nat) by (apply wrap_at_lt; lia).
  assert (Hx : slot ms (wrap_at N (h + i)) (mq_buffer (the_mq s)) = x).
  { specialize (Hl 0%nat x eq_refl). by rewrite Nat.add_0_r in Hl. }
  assert (Hfound : (if type =? 0 then ret true else
                     let* t := mq_read (u32 (Z.of_nat (wrap_at N (h + i)) * max_size (the_mq s))) 4 in
                     ret (le32 t =? type)) (k, s) = Ret (matches type x) (k, s)).
  { unfold matches. destruct (type =? 0); [done|]. simpl orb. rewrite Hsz, (slot_offset N) by done.
    change 4 with (Z.of_nat 4). erewrite bind_Ret by (apply mq_read_Ret; rewrite Hb; nia).
    rewrite (slice_prefix _ 4 ms) by done. unfold slot in Hx. by rewrite Hx. }
  erewrite bind_Ret by exact Hfound. simpl list_find.
  destruct (matches type x) eqn:Em.
  - rewrite decide_True by done. simpl. by rewrite Nat.add_0_r.
  - rewrite decide_False by (intros H; apply Is_true_eq_true in H; congruence).
    erewrite bind_Ret by (apply (next_slot_Ret N); [done|done|]; unfold UINT32_MAX in *; nia).
    rewrite wrap_at_step by lia. rewrite (IH (i + 1)%nat).
    + f_equal. destruct (list_find _ l) as [[j y]|]; [|done]. simpl. do 3 f_equal. lia.
    + lia.
    + intros j y Hj. specialize (Hl (S j) y Hj). rewrite <- Hl. f_equal. f_equal. lia.
Qed.

(** After moving the [n] messages before position [h + n]. *)
Lemma mq_shift_spec N ms k s h n fuel :
  max_msgs (the_mq s) = Z.of_nat N -> max_size (the_mq s) = Z.of_nat ms ->
  length (mq_buffer (the_mq s)) = (N * ms)%nat -> Z.of_nat N * Z.of_nat ms <= UINT32_MAX -> (4 <= ms)%nat ->
  (h < N)%nat -> (n < N)%nat -> (n <= fuel)%nat ->
  exists b, mq_shift fuel (Z.of_nat (wrap_at N (h + n))) (Z.of_nat h) (k, s)
            = Ret tt (k, set_the_mq (set_mq_buffer b (the_mq s)) s) /\ length b = (N * ms)%nat /\
    forall i, (i < N)%nat -> slot ms (wrap_at N (h + i)) b =
      if decide (1 <= i <= n)%nat then slot ms (wrap_at N (h + (i - 1))) (mq_buffer (the_mq s))
      else slot ms (wrap_at N (h + i)) (mq_buffer (the_mq s)).
Proof.
  intros Hm Hsz Hb Hbd Hms Hh. revert s fuel Hm Hsz Hb. induction n as [|n IH]; intros s fuel Hm Hsz Hb Hn Hf.
  - exists (mq_buffer (the_mq s)). split; [|split; [done|]].
    + assert (wrap_at N (h + 0) = h) as -> by (unfold wrap_at; case_decide; lia).
      destruct fuel; simpl; rewrite Z.eqb_refl; by destruct s as [[] ?].
    + intros i Hi. by rewrite decide_False by lia.
  - destruct fuel as [|fuel]; [lia|].
    assert (Hw : (wrap_at N (h + S n) < N)%nat) by (apply wrap_at_lt; lia).
    assert (Hw' : (wrap_at N (h + n) < N)%nat) by (apply wrap_at_lt; lia).
    simpl mq_shift. rewrite (proj2 (Z.eqb_neq _ _)).
    2: { intros Heq. assert (S n = 0)%nat; [|done]. apply (wrap_at_inj N h); [done|lia|lia|].
         unfold wrap_at in *. repeat case_decide; lia. }
    erewrite bind_Ret by reflexivity. change (snd (k, s)) with s. rewrite Hm, (proj2 (Z.eqb_neq _ _)) by lia.
    assert (Hprev : u32 (u32 (Z.of_nat (wrap_at N (h + S n)) - 1) + Z.of_nat N) mod Z.of_nat N
                    = Z.of_nat (wrap_at N (h + n))).
    { assert (Z.of_nat N <= UINT32_MAX) by nia. unfold UINT32_MAX in *.
      destruct (decide (wrap_at N (h + S n) = 0)%nat) as [E|E].
      - rewrite E. change (u32 (Z.of_nat 0 - 1)) with 4294967295.
        replace (u32 (4294967295 + Z.of_nat N)) with (Z.of_nat N - 1).
        + rewrite Z.mod_small by lia. unfold wrap_at in *. repeat case_decide; lia.
        + unfold u32, wrap. replace (4294967295 + Z.of_nat N) with (Z.of_nat N - 1 + 1 * 2 ^ 32) by lia.
          rewrite Z.mod_add by lia. rewrite Z.mod_small; lia.
      - rewrite (u32_small (_ - 1)) by lia.
        assert (Hsum : u32 (Z.of_nat (wrap_at N (h + S n)) - 1 + Z.of_nat N) mod Z.of_nat N
                       = Z.of_nat (wrap_at N (h + S n)) - 1).
        { destruct (Z_lt_ge_dec (Z.of_nat (wrap_at N (h + S n)) - 1 + Z.of_nat N) 4294967296).
          - rewrite u32_small by lia.
            replace (Z.of_nat (wrap_at N (h + S n)) - 1 + Z.of_nat N)
              with (Z.of_nat (wrap_at N (h + S n)) - 1 + 1 * Z.of_nat N) by lia.
            rewrite Z.mod_add by lia. apply Z.mod_small. lia.
          - unfold UINT32_MAX in *. nia. }
        rewrite Hsum. unfold wrap_at in *. repeat case_decide; lia. }
    rewrite Hprev, Hsz, !(slot_offset N) by done.
    erewrite bind_Ret by (apply mq_read_Ret; rewrite Hb; nia).
    fold (slot ms (wrap_at N (h + n)) (mq_buffer (the_mq s))).
    set (d := slot ms (wrap_at N (h + n)) (mq_buffer (the_mq s))).
    assert (Hd : length d = ms) by (by apply (slot_length N)).
    erewrite bind_Ret by (apply mq_write_Ret; rewrite Hb, Hd; nia).
    set (s1 := set_the_mq _ s).
    assert (Hb1 : length (mq_buffer (the_mq s1)) = (N * ms)%nat) by (simpl; rewrite splice_length; nia).
    destruct (IH s1 fuel) as (b & He & Hlen & Hslots); try done; try lia.
    exists b. split; [exact He|]. split; [done|]. intros i Hi. rewrite Hslots by done. simpl.
    assert (Hsame : forall j, (j < N)%nat -> j <> S n ->
              slot ms (wrap_at N (h + j)) (splice (wrap_at N (h + S n) * ms) d (mq_buffer (the_mq s)))
              = slot ms (wrap_at N (h + j)) (mq_buffer (the_mq s))).
    { intros j Hj Hne. apply (slot_write_other N); try done; [lia|].
      intros E. apply Hne. by apply (wrap_at_inj N h); [| |lia|]. }
    destruct (decide (i = S n)) as [->|Hne].
    + rewrite decide_False, decide_True by lia. rewrite (slot_write_same N) by (done || lia).
      rewrite drop_ge by (rewrite (slot_length N) by done; lia). rewrite app_nil_r. unfold d. do 3 f_equal. lia.
    + destruct (decide (1 <= i <= n)%nat).
      * rewrite decide_True by lia. apply Hsame; lia.
      * rewrite decide_False by lia. by apply Hsame.
Qed.

(** ** Sending and receiving, uncontended *)
Lemma mq_await_go (full : bool) fuel clock timeout k s N ms q :
  mq_holds N ms (the_mq s) q -> (if full then (length q < N)%nat else q <> []) ->
  mq_await full fuel clock timeout (k, s) = Ret true (k, s).
Proof.
  intros [Hm _ _ _ _ [Hc _] _ _] Hgo.
  destruct fuel; simpl; (erewrite bind_Ret by reflexivity); simpl; rewrite Hm, Hc; destruct full.
  1,3: by rewrite (proj2 (Z.leb_gt _ _)) by lia.
  all: rewrite (proj2 (Z.eqb_neq (Z.of_nat (length q)) 0)); [done|]; destruct q; [done|simpl; lia].
Qed.

Lemma mq_await_stop (full : bool) fuel clock k s N ms q :
  mq_holds N ms (the_mq s) q -> (if full then length q = N else q = []) ->
  mq_await full fuel clock 0 (k, s) = Ret false (k, s).
Proof.
  intros [Hm _ _ _ _ [Hc _] _ _] Hstop.
  destruct fuel; simpl; (erewrite bind_Ret by reflexivity); simpl; rewrite Hm, Hc; destruct full; rewrite Hstop.
  1,3: by rewrite (proj2 (Z.leb_le _ _)) by lia.
  all: done.
Qed.

Lemma mq_unlock {A} i k s N ms q (r : A) :
  queues_ok mq_mon i (k, s) -> mq_holds N ms (the_mq s) q ->
  exists k' s', (mon_unlock mq_mon ;;; ret r) (k, s) = Ret r (k', s') /\ mq_holds N ms (the_mq s') q.
Proof.
  intros Hq Hp. destruct (mon_unlock_spec mq_mon i _ Hq) as (k' & v & Hu).
  erewrite bind_Ret by exact Hu. eexists _, _. split; [reflexivity|]. by apply mq_on_data.
Qed.

(** The end of both calls: the statistics, the signal and the unlocking. *)
Lemma mq_finish {A} i k s N ms q (r : A) w (bump : mqst -> mqst) :
  queues_ok mq_mon i (k, s) -> mq_holds N ms (the_mq s) q ->
  (forall s, the_mq (bump s) = the_mq s) ->
  exists k' s', (write_obj bump ;;; mon_signal mq_mon w ;;; mon_unlock mq_mon ;;; ret r) (k, s)
                = Ret r (k', s') /\ mq_holds N ms (the_mq s') q.
Proof.
  intros Hq Hp Hb. erewrite bind_Ret by reflexivity. simpl.
  assert (Hq1 : queues_ok mq_mon i (k, bump s)).
  { eapply (queues_ok_write mq_mon i k s (bump s)); [|exact Hq]. simpl. by rewrite Hb. }
  destruct (mon_signal_spec mq_mon w i _ Hq1) as (k1 & v & Hs & Hq2).
  erewrite bind_Ret by exact Hs. apply (mq_unlock i k1 _ N ms q r Hq2).
  apply mq_on_data. simpl. by rewrite Hb.
Qed.

Lemma msgq_send_fits i fuel clock timeout k s N ms q msg :
  queues_ok mq_mon i (k, s) -> locked (mq_lock (the_mq s)) = 0 -> mq_holds N ms (the_mq s) q ->
  (length q < N)%nat -> (length msg <= ms)%nat ->
  exists k' s' pad, msgq_send fuel clock true msg timeout (k, s) = Ret 0 (k', s') /\
                    mq_holds N ms (the_mq s') (q ++ [msg ++ pad]).
Proof.
  intros Hq H0 Hp Hlt Hmsg. unfold msgq_send.
  destruct (mon_lock_free mq_mon i _ Hq H0) as (k1 & v & Hl & Hq1).
  erewrite bind_Ret by exact Hl. cbn [snd] in Hq1 |- *. set (s1 := upd mq_mon v s) in *.
  assert (Hp1 : mq_holds N ms (the_mq s1) q) by (by apply mq_on_data). clearbody s1.
  erewrite bind_Ret by (by eapply mq_await_go). cbn [negb].
  pose proof Hp1 as [Hm Hsz Hb [H4 Hbd] Hh [Hc HcN] Ht Hsl].
  assert (Hh' : (Z.to_nat (mq_head (the_mq s1)) < N)%nat) by lia.
  set (t := wrap_at N (Z.to_nat (mq_head (the_mq s1)) + length q)) in *.
  assert (Htl : (t < N)%nat) by (unfold t; apply wrap_at_lt; lia).
  erewrite bind_Ret by reflexivity. change (snd (k1, s1)) with s1.
  rewrite Ht, Hsz, (slot_offset N) by done.
  erewrite bind_Ret by (apply mq_write_Ret; rewrite Hb; nia).
  erewrite bind_Ret by (apply (next_slot_Ret N); [exact Hm|exact Htl|unfold UINT32_MAX in *; nia]).
  erewrite bind_Ret by reflexivity. erewrite bind_Ret by reflexivity.
  match goal with |- context [bind (write_obj bump_sends) _ (_, ?x)] => set (s2 := x) end.
  set (old := slot ms t (mq_buffer (the_mq s1))).
  assert (Hp2 : mq_holds N ms (the_mq s2) (q ++ [msg ++ drop (length msg) old])).
  { split; simpl; try done.
    - rewrite splice_length; [done|]. rewrite Hb. nia.
    - rewrite length_app, Hc. simpl. unfold UINT32_MAX in *. rewrite u32_small by nia. lia.
    - rewrite length_app. simpl. f_equal. unfold t. by rewrite wrap_at_step.
    - intros j x Hj. apply lookup_app_Some in Hj as [Hj|[Hge Hj]].
      + pose proof (lookup_lt_Some _ _ _ Hj) as Hjq.
        rewrite (slot_write_other N); [by apply Hsl|done|done|done|]. intros E.
        assert (j = length q); [|lia]. by apply (wrap_at_inj N (Z.to_nat (mq_head (the_mq s1)))); try lia.
      + apply list_lookup_singleton_Some in Hj as [Hj <-]. assert (j = length q) as -> by lia.
        fold t. rewrite (slot_write_same N) by done. done. }
  assert (Hq2 : queues_ok mq_mon i (k1, s2)) by (eapply (queues_ok_write mq_mon i k1 s1 s2); [reflexivity|exact Hq1]).
  destruct (mq_finish i k1 s2 N ms _ 0 true bump_sends Hq2 Hp2) as (k' & s' & He & Hp'); [done|].
  exists k', s', (drop (length msg) old). split; [exact He|exact Hp'].
Qed.

(** Taking the message at position [n] of the queue. *)
Lemma mq_take_out N ms s k q1 x q2 :
  mq_holds N ms (the_mq s) (q1 ++ x :: q2) ->
  let h := Z.to_nat (mq_head (the_mq s)) in
  exists b, (if Z.of_nat (wrap_at N (h + length q1)) =? mq_head (the_mq s) then ret tt
             else mq_shift (Z.to_nat (msg_count (the_mq s))) (Z.of_nat (wrap_at N (h + length q1)))
                    (mq_head (the_mq s))) (k, s)
            = Ret tt (k, set_the_mq (set_mq_buffer b (the_mq s)) s) /\ length b = (N * ms)%nat /\
    forall j y, (q1 ++ q2) !! j = Some y -> slot ms (wrap_at N (h + (j + 1))) b = y.
Proof.
  intros [Hm Hsz Hb [H4 Hbd] Hh [Hc HcN] Ht Hsl] h. fold h in Ht, Hsl.
  rewrite length_app in HcN. simpl in HcN.
  assert (Hh' : (h < N)%nat) by lia. assert (Hhz : mq_head (the_mq s) = Z.of_nat h) by lia. rewrite Hhz.
  destruct (mq_shift_spec N ms k s h (length q1) (Z.to_nat (msg_count (the_mq s))))
    as (b & He & Hlen & Hslots); try done; try lia.
  { rewrite Hc, Nat2Z.id, length_app. lia. }
  exists b. split; [|split; [done|]].
  - destruct (Z.eqb_spec (Z.of_nat (wrap_at N (h + length q1))) (Z.of_nat h)) as [E|E]; [|exact He].
    assert (length q1 = 0)%nat as E0.
    { apply (wrap_at_inj N h); try lia. unfold wrap_at in *. repeat case_decide; lia. }
    rewrite E0 in He. rewrite <- He. symmetry.
    assert (wrap_at N (h + 0) = h) as -> by (unfold wrap_at; case_decide; lia).
    destruct (Z.to_nat (msg_count (the_mq s))); simpl; by rewrite Z.eqb_refl.
  - intros j y Hj. apply lookup_app_Some in Hj as [Hj|[Hge Hj]]; pose proof (lookup_lt_Some _ _ _ Hj).
    + rewrite Hslots by lia. rewrite decide_True by lia.
      replace (j + 1 - 1)%nat with j by lia. apply Hsl. by apply lookup_app_l_Some.
    + rewrite Hslots by lia. rewrite decide_False by lia. apply Hsl.
      rewrite lookup_app_r by lia. replace (j + 1 - length q1)%nat with (S (j - length q1)) by lia. done.
Qed.

Lemma msgq_receive_first i fuel clock timeout type size k s N ms q1 x q2 :
  queues_ok mq_mon i (k, s) -> locked (mq_lock (the_mq s)) = 0 ->
  mq_holds N ms (the_mq s) (q1 ++ x :: q2) -> (size <= ms)%nat ->
  Forall (fun y => matches type y = false) q1 -> matches type x = true ->
  exists k' s', msgq_receive fuel clock true (Z.of_nat size) type timeout (k, s)
                = Ret (0, take size x) (k', s') /\ mq_holds N ms (the_mq s') (q1 ++ q2).
Proof.
  intros Hq H0 Hp Hsize Hno Hyes. unfold msgq_receive.
  destruct (mon_lock_free mq_mon i _ Hq H0) as (k1 & v & Hl & Hq1).
  erewrite bind_Ret by exact Hl. cbn [snd] in Hq1 |- *. set (s1 := upd mq_mon v s) in *.
  assert (Hp1 : mq_holds N ms (the_mq s1) (q1 ++ x :: q2)) by (by apply mq_on_data). clearbody s1.
  erewrite bind_Ret by (eapply mq_await_go; [exact Hp1|by destruct q1]).
  pose proof Hp1 as [Hm Hsz Hb [H4 Hbd] Hh [Hc HcN] Ht Hsl].
  set (h := Z.to_nat (mq_head (the_mq s1))) in *.
  assert (Hh' : (h < N)%nat) by (unfold h; lia).
  assert (Hw0 : mq_head (the_mq s1) = Z.of_nat (wrap_at N (h + 0))).
  { unfold wrap_at, h. case_decide; lia. }
  erewrite bind_Ret by reflexivity. change (snd (k1, s1)) with s1.
  assert (Hfind : list_find (matches type) (q1 ++ x :: q2) = Some (length q1, x)).
  { apply list_find_Some. split; [by apply list_lookup_middle|]. split; [by rewrite Hyes|].
    intros j y Hj Hlt Hmy. rewrite lookup_app_l in Hj by done.
    rewrite Forall_lookup in Hno. by rewrite (Hno j y Hj) in Hmy. }
  assert (HF : mq_find (Z.to_nat (msg_count (the_mq s1))) type (mq_head (the_mq s1)) (k1, s1)
               = Ret (Some (Z.of_nat (wrap_at N (h + length q1)))) (k1, s1)).
  { rewrite Hc, Nat2Z.id, Hw0. rewrite (mq_find_spec N ms k1 s1 type _ 0) by (done || (simpl; lia) || exact Hsl).
    by rewrite Hfind. }
  erewrite bind_Ret by exact HF.
  assert (Hlt : (length q1 < N)%nat) by (rewrite length_app in HcN; simpl in HcN; lia).
  assert (Hw : (wrap_at N (h + length q1) < N)%nat) by (apply wrap_at_lt; lia).
  rewrite Hsz, (slot_offset N) by done.
  erewrite bind_Ret by (apply mq_read_Ret; rewrite Hb; nia).
  rewrite (slice_prefix _ size ms) by done.
  assert (Hx : slice (wrap_at N (h + length q1) * ms) ms (mq_buffer (the_mq s1)) = x)
    by (apply Hsl; by apply list_lookup_middle).
  rewrite Hx. destruct (mq_take_out N ms s1 k1 q1 x q2 Hp1) as (b & He & Hlen & Hslots).
  erewrite bind_Ret by exact He.
  set (s2 := set_the_mq (set_mq_buffer b (the_mq s1)) s1).
  erewrite bind_Ret.
  2: { rewrite Hw0. apply (next_slot_Ret N k1 s2); [exact Hm|apply wrap_at_lt; lia|unfold UINT32_MAX in *; nia]. }
  erewrite bind_Ret by reflexivity. erewrite bind_Ret by reflexivity.
  match goal with |- context [bind (write_obj bump_receives) _ (_, ?y)] => set (s3 := y) end.
  assert (Hh1 : (wrap_at N (wrap_at N (h + 0) + 1) = wrap_at N (h + 1))) by (rewrite wrap_at_step by lia; f_equal; lia).
  assert (Hp3 : mq_holds N ms (the_mq s3) (q1 ++ q2)).
  { assert (Hl1 : (wrap_at N (h + 1) < N)%nat) by (apply wrap_at_lt; lia).
    rewrite length_app in *. simpl in *.
    split; simpl; rewrite ?Hh1, ?Nat2Z.id; try done.
    - lia.
    - rewrite Hc, length_app. unfold UINT32_MAX in *. rewrite u32_small by (simpl; nia). lia.
    - rewrite Ht, length_app. f_equal. unfold wrap_at in *. repeat case_decide; lia.
    - intros j y Hj. rewrite <- (Hslots j y Hj). f_equal. fold h.
      apply lookup_lt_Some in Hj. rewrite length_app in Hj. unfold wrap_at in *. repeat case_decide; lia. }
  assert (Hq3 : queues_ok mq_mon i (k1, s3)) by (eapply (queues_ok_write mq_mon i k1 s1 s3); [reflexivity|exact Hq1]).
  destruct (mq_finish i k1 s3 N ms _ (0, take size x) false bump_receives Hq3 Hp3) as (k' & s' & Hf & Hp'); [done|].
  exists k', s'. split; [exact Hf|exact Hp'].
Qed.

Lemma msgq_receive_none i fuel clock timeout type size k s N ms q :
  queues_ok mq_mon i (k, s) -> locked (mq_lock (the_mq s)) = 0 -> mq_holds N ms (the_mq s) q ->
  q <> [] -> Forall (fun y => matches type y = false) q ->
  exists k' s', msgq_receive fuel clock true size type timeout (k, s) = Ret (-1, []) (k', s') /\
                mq_holds N ms (the_mq s') q.
Proof.
  intros Hq H0 Hp Hne Hno. unfold msgq_receive.
  destruct (mon_lock_free mq_mon i _ Hq H0) as (k1 & v & Hl & Hq1).
  erewrite bind_Ret by exact Hl. cbn [snd] in Hq1 |- *. set (s1 := upd mq_mon v s) in *.
  assert (Hp1 : mq_holds N ms (the_mq s1) q) by (by apply mq_on_data). clearbody s1.
  erewrite bind_Ret by (by eapply mq_await_go).
  pose proof Hp1 as [Hm Hsz Hb [H4 Hbd] Hh [Hc HcN] Ht Hsl].
  erewrite bind_Ret by reflexivity. change (snd (k1, s1)) with s1.
  assert (HF : mq_find (Z.to_nat (msg_count (the_mq s1))) type (mq_head (the_mq s1)) (k1, s1) = Ret None (k1, s1)).
  { assert (Hw0 : mq_head (the_mq s1) = Z.of_nat (wrap_at N (Z.to_nat (mq_head (the_mq s1)) + 0)))
      by (unfold wrap_at; case_decide; lia).
    rewrite Hc, Nat2Z.id, Hw0.
    rewrite (mq_find_spec N ms k1 s1 type q 0) by (done || lia || exact Hsl).
    assert (list_find (matches type) q = None) as ->; [|done].
    apply list_find_None. eapply Forall_impl; [exact Hno|]. intros y Hy. simpl. rewrite Hy. by intros []. }
  erewrite bind_Ret by exact HF. by eapply mq_unlock.
Qed.

Lemma msgq_send_full i fuel clock k s N ms q msg :
  queues_ok mq_mon i (k, s) -> locked (mq_lock (the_mq s)) = 0 -> mq_holds N ms (the_mq s) q ->
  length q = N ->
  exists k' s', msgq_send fuel clock true msg 0 (k, s) = Ret (-1) (k', s') /\ mq_holds N ms (the_mq s') q.
Proof.
  intros Hq H0 Hp Hstop. destruct (mon_lock_free mq_mon i _ Hq H0) as (k1 & v & Hl & Hq1).
  unfold msgq_send. erewrite bind_Ret by exact Hl.
  assert (Hp1 : mq_holds N ms (the_mq (upd mq_mon v s)) q) by (by apply mq_on_data).
  erewrite bind_Ret by (by eapply mq_await_stop). by eapply mq_unlock.
Qed.

Lemma msgq_receive_empty i fuel clock k s N ms size type :
  queues_ok mq_mon i (k, s) -> locked (mq_lock (the_mq s)) = 0 -> mq_holds N ms (the_mq s) [] ->
  exists k' s', msgq_receive fuel clock true size type 0 (k, s) = Ret (-1, []) (k', s') /\
                mq_holds N ms (the_mq s') [].
Proof.
  intros Hq H0 Hp. destruct (mon_lock_free mq_mon i _ Hq H0) as (k1 & v & Hl & Hq1).
  unfold msgq_receive. erewrite bind_Ret by exact Hl.
  assert (Hp1 : mq_holds N ms (the_mq (upd mq_mon v s)) []) by (by apply mq_on_data).
  erewrite bind_Ret by (by eapply (mq_await_stop false)). by eapply mq_unlock.
Qed.

(** ** Property *)

(** A message queue is a list of messages that receivers search by type.
    When nobody is inside and the messages fit in their slots:
    - a send to a queue that is not full returns 0 and appends the message;
    - a receive takes out the first message of the type asked for (type 0: the
      first message), delivers its first bytes, and keeps all others in their
      order, although the ring moves the earlier messages by one slot;
    - with no message of the type it returns -1 and changes nothing; so do, with
      timeout 0, a receive from an empty queue and a send to a full one. *)
Theorem msgq_refinement (i fuel N ms : nat) (clock : kern -> Z) (k : kern) (s : mqst) (q : list (list Z))
    (Hq : queues_ok mq_mon i (k, s)) (Hfree : locked (mq_lock (the_mq s)) = 0)
    (Hp : mq_holds N ms (the_mq s) q) :
  (forall msg timeout, (length q < N)%nat -> (length msg <= ms)%nat ->
     exists k' s' pad, msgq_send fuel clock true msg timeout (k, s) = Ret 0 (k', s') /\
                       mq_holds N ms (the_mq s') (q ++ [msg ++ pad])) /\
  (forall q1 x q2 type size timeout, q = q1 ++ x :: q2 -> (size <= ms)%nat ->
     Forall (fun y => matches type y = false) q1 -> matches type x = true ->
     exists k' s', msgq_receive fuel clock true (Z.of_nat size) type timeout (k, s)
                   = Ret (0, take size x) (k', s') /\ mq_holds N ms (the_mq s') (q1 ++ q2)) /\
  (forall type size timeout, q <> [] \/ timeout = 0 -> Forall (fun y => matches type y = false) q ->
     exists k' s', msgq_receive fuel clock true size type timeout (k, s) = Ret (-1, []) (k', s') /\
                   mq_holds N ms (the_mq s') q) /\
  (forall msg, length q = N ->
     exists k' s', msgq_send fuel clock true msg 0 (k, s) = Ret (-1) (k', s') /\ mq_holds N ms (the_mq s') q).
Proof.
  split; [intros; by eapply msgq_send_fits|]. split; [intros; subst; by eapply msgq_receive_first|]. split.
  - intros type size timeout Hor Hno. destruct (decide (q = [])) as [->|Hne]; [|by eapply msgq_receive_none].
    destruct Hor as [?| ->]; [done|].
    by eapply msgq_receive_empty.
  - intros msg Hfull. by eapply msgq_send_full.
Qed.

(** A queue of two 8-byte slots holding a message of type 1 and one of type 2. *)
Definition two_messages : mqst := {|
  the_mq := {| mq_key := 1234; msg_count := 2; max_msgs := 2; max_size := 8;
               mq_buffer := [2; 0; 0; 0; 20; 21; 22; 23; 1; 0; 0; 0; 10; 11; 12; 13];
               mq_head := 1; mq_tail := 1; mq_lock := mutex_init "msgq_lock";
               mq_not_full := condition_init "msgq_not_full"; mq_not_empty := condition_init "msgq_not_empty" |};
  mq_stats := zero_stats |}.

Lemma two_messages_hold :
  mq_holds 2 8 (the_mq two_messages) [[1; 0; 0; 0; 10; 11; 12; 13]; [2; 0; 0; 0; 20; 21; 22; 23]].
Proof.
  split; simpl; try done; try lia; try (split; [lia|done || lia]).
  intros [|[|i]] x Hx; simpl in Hx; simplify_eq; reflexivity.
Qed.

Lemma msgq_refinement_witness :
  exists k' s', msgq_receive 0 (fun _ => 0) true 8 2 0 (two_tasks 0, two_messages)
                = Ret (0, [2; 0; 0; 0; 20; 21; 22; 23]) (k', s') /\
                mq_holds 2 8 (the_mq s') [[1; 0; 0; 0; 10; 11; 12; 13]].
Proof.
  assert (Hq : queues_ok mq_mon 0 (two_tasks 0, two_messages)).
  { split; [done|]. split; [by exists zero_task|]. exists [], (fun _ => []).
    split; [done|]. split; [by intros []|]. by apply (NoDup_singleton 0%nat). }
  destruct (msgq_refinement 0 0 2 8 (fun _ => 0) _ _ _ Hq eq_refl two_messages_hold) as (_ & Hrec & _).
  destruct (Hrec [[1; 0; 0; 0; 10; 11; 12; 13]] [2; 0; 0; 0; 20; 21; 22; 23] [] 2 8%nat 0)
    as (k' & s' & He & Hp); [reflexivity|lia|repeat constructor|reflexivity|].
  exists k', s'. split; [exact He|exact Hp].
Defined.
