(* ===== verification/Mem.v ===== *)
(** * Mem

    Byte-addressed memory of a 32-bit little-endian machine: 32-bit loads and
    stores, copies and fills, on which the allocators of src/src/malloc.c and
    src/src/mm_alloc.c, the page tables and the string routines are modelled. *)
From S2P Require Import Prelude.

Definition bytes : Type := Z -> Z.

(** Byte [i] of the 32-bit word [v]. *)
Definition byte_of (v i : Z) : Z := Z.shiftr v (8 * i) mod 256.
Definition load32 (m : bytes) (a : Z) : Z :=
  m a + 256 * m (a + 1) + 65536 * m (a + 2) + 16777216 * m (a + 3).
Definition store8 (m : bytes) (a v : Z) : bytes := fun x => if x =? a then u8 v else m x.
Definition store32 (m : bytes) (a v : Z) : bytes :=
  fun x => if (a <=? x) && (x <? a + 4) then byte_of v (x - a) else m x.
(** [memset] and [memcpy]. *)
Definition fill (m : bytes) (a n v : Z) : bytes :=
  fun x => if (a <=? x) && (x <? a + n) then u8 v else m x.
Definition copy (m : bytes) (dst src n : Z) : bytes :=
  fun x => if (dst <=? x) && (x <? dst + n) then m (src + (x - dst)) else m x.

Lemma store32_in m a v x : a <= x < a + 4 -> store32 m a v x = byte_of v (x - a).
Proof.
  intros H. unfold store32. rewrite (proj2 (Z.leb_le _ _)), (proj2 (Z.ltb_lt _ _)) by lia. done.
Qed.

Lemma store32_out m a v x : x < a \/ a + 4 <= x -> store32 m a v x = m x.
Proof.
  intros H. unfold store32. destruct (Z.leb_spec a x), (Z.ltb_spec x (a + 4)); simpl; done || lia.
Qed.

Lemma word_bytes v :
  0 <= v < 4294967296 ->
  byte_of v 0 + 256 * byte_of v 1 + 65536 * byte_of v 2 + 16777216 * byte_of v 3 = v.
Proof.
  intros H. unfold byte_of. rewrite !Z.shiftr_div_pow2 by lia.
  change (2 ^ (8 * 0)) with 1. change (2 ^ (8 * 1)) with 256.
  change (2 ^ (8 * 2)) with (256 * 256). change (2 ^ (8 * 3)) with (256 * 256 * 256).
  rewrite <- !Z.div_div by lia. rewrite Z.div_1_r.
  pose proof (Z.div_mod v 256 ltac:(lia)). pose proof (Z.div_mod (v / 256) 256 ltac:(lia)).
  pose proof (Z.div_mod (v / 256 / 256) 256 ltac:(lia)).
  assert (v / 256 / 256 / 256 < 256) by (rewrite !Z.div_div by lia; apply Z.div_lt_upper_bound; lia).
  assert (0 <= v / 256 / 256 / 256) by (repeat (apply Z.div_pos; [|lia]); lia).
  rewrite (Z.mod_small (v / 256 / 256 / 256)) by lia. lia.
Qed.

Lemma load32_store32 m a v : 0 <= v < 4294967296 -> load32 (store32 m a v) a = v.
Proof.
  intros H. unfold load32. rewrite !store32_in by lia.
  replace (a - a) with 0 by lia. replace (a + 1 - a) with 1 by lia.
  replace (a + 2 - a) with 2 by lia. replace (a + 3 - a) with 3 by lia. by apply word_bytes.
Qed.

Lemma load32_store32_other m a b v : b + 4 <= a \/ a + 4 <= b -> load32 (store32 m a v) b = load32 m b.
Proof. intros H. unfold load32. rewrite !store32_out by lia. done. Qed.

(** Memories that agree on a range of addresses. *)
Definition agree (lo hi : Z) (m m' : bytes) : Prop := forall x, lo <= x < hi -> m' x = m x.

Lemma agree_load32 lo hi m m' a : agree lo hi m m' -> lo <= a -> a + 4 <= hi -> load32 m' a = load32 m a.
Proof. intros H H1 H2. unfold load32. rewrite !H by lia. done. Qed.

Lemma agree_store32 lo hi m a v : a + 4 <= lo \/ hi <= a -> agree lo hi m (store32 m a v).
Proof. intros H x Hx. apply store32_out. lia. Qed.

Lemma agree_trans lo hi m1 m2 m3 : agree lo hi m1 m2 -> agree lo hi m2 m3 -> agree lo hi m1 m3.
Proof. intros H1 H2 x Hx. rewrite H2, H1 by done. done. Qed.

Lemma agree_sub lo hi lo' hi' m m' : lo <= lo' -> hi' <= hi -> agree lo hi m m' -> agree lo' hi' m m'.
Proof. intros Hl Hh H x Hx. apply H. lia. Qed.

Lemma agree_refl lo hi m : agree lo hi m m.
Proof. by intros x _. Qed.
#[export] Hint Resolve agree_refl : kernel.

(** Every cell of a memory is a byte. *)
Definition byte_mem (m : bytes) : Prop := forall x, 0 <= m x < 256.

Lemma byte_mem_store32 m a v : byte_mem m -> byte_mem (store32 m a v).
Proof.
  intros H x. unfold store32. destruct (_ && _); [|apply H]. apply Z.mod_pos_bound. lia.
Qed.

Lemma load32_range m a : byte_mem m -> 0 <= load32 m a < 4294967296.
Proof.
  intros H. unfold load32. pose proof (H a). pose proof (H (a + 1)). pose proof (H (a + 2)).
  pose proof (H (a + 3)). lia.
Qed.

Lemma store8_in m a v : store8 m a v a = u8 v.
Proof. unfold store8. by rewrite Z.eqb_refl. Qed.
Lemma store8_out m a v x : x <> a -> store8 m a v x = m x.
Proof. intros H. unfold store8. by rewrite (proj2 (Z.eqb_neq _ _)). Qed.
Lemma load32_store8_other m a b v : a < b \/ b + 4 <= a -> load32 (store8 m a v) b = load32 m b.
Proof. intros H. unfold load32. rewrite !store8_out by lia. done. Qed.

(** Reads after writes whose addresses [lia] tells apart. *)
Ltac mem_step :=
  match goal with
  | |- context [load32 (store32 _ ?a _) ?b] =>
      first [ rewrite (load32_store32_other _ a b) by lia
            | replace b with a by lia; rewrite load32_store32 by lia ]
  | |- context [load32 (store8 _ ?a _) ?b] => rewrite (load32_store8_other _ a b) by lia
  | |- context [store32 _ ?a _ ?x] => rewrite (store32_out _ a _ x) by lia
  | |- context [store8 _ ?a _ ?x] =>
      first [ rewrite (store8_out _ a _ x) by lia | replace x with a by lia; rewrite store8_in ]
  end.
Ltac mem := repeat mem_step.
