(* ===== verification/Malloc.v ===== *)
(** * Malloc

    src/src/malloc.c: the first-fit allocator of the C library, on a
    byte-addressed memory.  The heap is the region from its base to the break;
    a block is a 20-byte header ([sizeof(block_t)]) followed by its data, but the
    data pointer given out is the address of the field [data], 16 bytes after the
    header's start. *)
From S2P Require Import Prelude Mem.

(** ** Data: the memory and the static variables; 0 is the null pointer. *)
Record heap : Type := Heap {
  h_mem : bytes;
  h_brk : Z;
  heap_start : Z;
  heap_end : Z
}.
Definition set_h_mem (v : bytes) (x : heap) : heap := {|
  h_mem := v; h_brk := h_brk x; heap_start := heap_start x; heap_end := heap_end x |}.
Definition set_h_brk (v : Z) (x : heap) : heap := {|
  h_mem := h_mem x; h_brk := v; heap_start := heap_start x; heap_end := heap_end x |}.
Definition set_heap_start (v : Z) (x : heap) : heap := {|
  h_mem := h_mem x; h_brk := h_brk x; heap_start := v; heap_end := heap_end x |}.
Definition set_heap_end (v : Z) (x : heap) : heap := {|
  h_mem := h_mem x; h_brk := h_brk x; heap_start := heap_start x; heap_end := v |}.

(** [ALIGN]; [sizeof(size_t)] is 4. *)
Definition ALIGN (x : Z) : Z := Z.land (u32 (x + 3)) 4294967292.
Definition BLOCK_SIZE : Z := 20.
(** The offsets of [block_t]'s fields; [size] has offset 0. *)
Definition NEXT : Z := 4.
Definition PREV : Z := 8.
Definition FREE : Z := 12.
Definition DATA : Z := 16.

Section Malloc.
(** The addresses between which the break moves: [sys_brk] is a system call. *)
Context (base limit : Z).

(** ** Operations *)

(** Word accesses; outside the heap they are faults. *)
Definition rd (a : Z) : Cmd heap Z :=
  fun s => if (base <=? a) && (a + 4 <=? h_brk s) then Ret (load32 (h_mem s) a) s else Stop Fault.
Definition wr (a v : Z) : Cmd heap unit :=
  fun s => if (base <=? a) && (a + 4 <=? h_brk s) then Ret tt (set_h_mem (store32 (h_mem s) a v) s)
           else Stop Fault.

(** [sys_brk(0)] and [sys_brk(p)]: whether the break could be moved. *)
Definition sys_brk_get : Cmd heap Z := gets h_brk.
Definition sys_brk (p : Z) : Cmd heap bool :=
  fun s => if p <=? limit then Ret true (set_h_brk p s) else Ret false s.

Fixpoint find_free (fuel : nat) (block size : Z) : Cmd heap Z :=
  if block =? 0 then ret 0 else
  match fuel with
  | O => fail NoFuel
  | S fuel' =>
      let* fr := rd (block + FREE) in
      let* sz := rd block in
      if negb (fr =? 0) && (size <=? sz) then ret block else
      let* n := rd (block + NEXT) in find_free fuel' n size
  end.
(** The bound: a block takes more than 20 bytes of the heap. *)
Definition find_free_block (size : Z) : Cmd heap Z :=
  let* s := get in find_free (Z.to_nat (h_brk s - base)) (heap_start s) size.

Definition split_block (block size : Z) : Cmd heap unit :=
  let* bsz := rd block in
  if BLOCK_SIZE + 4 <=? u32 (bsz - size) then
    let new_block := u32 (block + BLOCK_SIZE + size) in
    wr new_block (u32 (bsz - size - BLOCK_SIZE)) ;;;
    let* n := rd (block + NEXT) in
    wr (new_block + NEXT) n ;;;
    wr (new_block + PREV) block ;;;
    wr (new_block + FREE) 1 ;;;
    wr block size ;;;
    wr (block + NEXT) new_block ;;;
    if n =? 0 then modify (set_heap_end new_block) else wr (n + PREV) new_block
  else ret tt.

Definition extend_heap (size : Z) : Cmd heap Z :=
  let total_size := ALIGN (u32 (size + BLOCK_SIZE)) in
  let* block := sys_brk_get in
  let* ok := sys_brk (block + total_size) in
  if ok : bool then
    wr block size ;;;
    wr (block + NEXT) 0 ;;;
    let* he := gets heap_end in
    wr (block + PREV) he ;;;
    wr (block + FREE) 0 ;;;
    (if he =? 0 then modify (set_heap_start block) else wr (he + NEXT) block) ;;;
    modify (set_heap_end block) ;;;
    ret block
  else ret 0.

Definition merge_blocks (block : Z) : Cmd heap unit :=
  let* n := rd (block + NEXT) in
  let* nfree := (if n =? 0 then ret 0 else rd (n + FREE)) in
  (if nfree =? 0 then ret tt else
     let* sz := rd block in
     let* nsz := rd n in
     wr block (u32 (sz + (BLOCK_SIZE + nsz))) ;;;
     let* nn := rd (n + NEXT) in
     wr (block + NEXT) nn ;;;
     if nn =? 0 then modify (set_heap_end block) else wr (nn + PREV) block) ;;;
  let* p := rd (block + PREV) in
  let* pfree := (if p =? 0 then ret 0 else rd (p + FREE)) in
  if pfree =? 0 then ret tt else
  let* psz := rd p in
  let* sz := rd block in
  wr p (u32 (psz + (BLOCK_SIZE + sz))) ;;;
  let* n := rd (block + NEXT) in
  wr (p + NEXT) n ;;;
  if n =? 0 then modify (set_heap_end p) else wr (n + PREV) p.

Definition malloc (size : Z) : Cmd heap Z :=
  if size =? 0 then ret 0 else
  let size := ALIGN size in
  let* block := find_free_block size in
  if block =? 0 then
    let* block := extend_heap size in
    if block =? 0 then ret 0 else ret (block + DATA)
  else
    wr (block + FREE) 0 ;;;
    split_block block size ;;;
    ret (block + DATA).

Definition free (ptr : Z) : Cmd heap unit :=
  if ptr =? 0 then ret tt else
  let block := ptr - BLOCK_SIZE in
  wr (block + FREE) 1 ;;;
  merge_blocks block.

(** [memcpy] and [memset] inside the heap. *)
Definition mem_copy (dst src n : Z) : Cmd heap unit :=
  fun s => if (n =? 0) || ((base <=? dst) && (base <=? src) && (dst + n <=? h_brk s) && (src + n <=? h_brk s))
           then Ret tt (set_h_mem (copy (h_mem s) dst src n) s) else Stop Fault.
Definition mem_set (dst v n : Z) : Cmd heap unit :=
  fun s => if (n =? 0) || ((base <=? dst) && (dst + n <=? h_brk s))
           then Ret tt (set_h_mem (fill (h_mem s) dst n v) s) else Stop Fault.

Definition realloc (ptr size : Z) : Cmd heap Z :=
  if ptr =? 0 then malloc size else
  if size =? 0 then free ptr ;;; ret 0 else
  let block := ptr - BLOCK_SIZE in
  let* bsz := rd block in
  if size <=? bsz then split_block block size ;;; ret ptr else
  let* new_ptr := malloc size in
  if new_ptr =? 0 then ret 0 else
  let* bsz := rd block in
  mem_copy new_ptr ptr bsz ;;;
  free ptr ;;;
  ret new_ptr.

Definition calloc (nmemb size : Z) : Cmd heap Z :=
  let total_size := u32 (nmemb * size) in
  let* ptr := malloc total_size in
  (if ptr =? 0 then ret tt else mem_set ptr 0 total_size) ;;;
  ret ptr.
End Malloc.

(** ** The heap as a list of blocks: address, size, free or not *)
Definition block : Type := Z * Z * bool.

(** [seg m prev a bs b nx]: the blocks [bs] follow each other from [a] to [b],
    linked to [prev] before and to [nx] after. *)
Fixpoint seg (m : bytes) (prev a : Z) (bs : list block) (b nx : Z) : Prop :=
  match bs with
  | [] => a = b
  | (a', sz, fr) :: bs' =>
      a' = a /\ 0 < sz /\ sz mod 4 = 0 /\ load32 m a = sz /\
      load32 m (a + NEXT) = (match bs' with [] => nx | _ => a + 20 + sz end) /\
      load32 m (a + PREV) = prev /\ load32 m (a + FREE) = Z.b2z fr /\
      seg m a (a + 20 + sz) bs' b nx
  end.

Definition addr_of (x : block) : Z := fst (fst x).
Definition last_addr (prev : Z) (bs : list block) : Z :=
  match last bs with Some x => addr_of x | None => prev end.
(** The pointer to a list of blocks that starts at [a]. *)
Definition ptr_to (a : Z) (bs : list block) : Z := match bs with [] => 0 | _ => a end.

Record heap_ok (base limit : Z) (s : heap) (bs : list block) : Prop := {
  ok_seg : seg (h_mem s) 0 base bs (h_brk s) 0;
  ok_start : heap_start s = ptr_to base bs;
  ok_end : heap_end s = last_addr 0 bs;
  ok_base : 0 < base /\ base mod 4 = 0;
  ok_limit : h_brk s <= limit /\ limit < 4294967296
}.

Ltac offsets := unfold NEXT, PREV, FREE, DATA, BLOCK_SIZE in *.

Lemma seg_le m prev a bs b nx : seg m prev a bs b nx -> a + 21 * Z.of_nat (length bs) <= b.
Proof.
  revert prev a. induction bs as [|[[a' sz] fr] bs IH]; intros prev a; simpl; [lia|].
  intros (-> & Hsz & _ & _ & _ & _ & _ & Hs). specialize (IH _ _ Hs). lia.
Qed.

Lemma seg_mod4 m prev a bs b nx : seg m prev a bs b nx -> a mod 4 = 0 -> b mod 4 = 0.
Proof.
  revert prev a. induction bs as [|[[a' sz] fr] bs IH]; intros prev a; simpl; [by intros ->|].
  intros (-> & Hsz & Hm & _ & _ & _ & _ & Hs) Ha. apply (IH _ _ Hs).
  rewrite (Z.add_mod (a + 20)), Hm, (Z.add_mod a), Ha by lia. done.
Qed.

Lemma last_addr_cons prev x bs : last_addr prev (x :: bs) = last_addr (addr_of x) bs.
Proof.
  unfold last_addr. destruct bs as [|y bs]; [done|].
  change (last (x :: y :: bs)) with (last (y :: bs)). destruct (last (y :: bs)) eqn:E; [done|].
  by apply last_None in E.
Qed.

Lemma last_addr_snoc prev bs x : last_addr prev (bs ++ [x]) = addr_of x.
Proof. unfold last_addr. by rewrite last_snoc. Qed.

Lemma seg_app m prev a l1 l2 b nx :
  seg m prev a (l1 ++ l2) b nx <->
  exists c, seg m prev a l1 c (match l2 with [] => nx | _ => c end) /\ seg m (last_addr prev l1) c l2 b nx.
Proof.
  revert prev a. induction l1 as [|[[a' sz] fr] l1 IH]; intros prev a.
  - simpl. split; [intros H; exists a; by split|by intros (c & -> & H)].
  - rewrite last_addr_cons. simpl. split.
    + intros (-> & H1 & H2 & H3 & H4 & H5 & H6 & Hs). apply IH in Hs as (c & Hs1 & Hs2).
      exists c. split; [|exact Hs2]. repeat (split; [done|]). split; [|by repeat split].
      destruct l1; simpl in *; [|done]. subst c. by destruct l2.
    + intros (c & (-> & H1 & H2 & H3 & H4 & H5 & H6 & Hs1) & Hs2).
      repeat (split; [done|]). split; [|split; [done|split; [done|apply IH; eauto]]].
      destruct l1; simpl in *; [|done]. subst c. by destruct l2.
Qed.

Lemma seg_agree m m' prev a bs b nx : agree a b m m' -> seg m prev a bs b nx -> seg m' prev a bs b nx.
Proof.
  revert prev a. induction bs as [|[[a' sz] fr] bs IH]; intros prev a Hag; simpl; [done|].
  intros (-> & H1 & H2 & H3 & H4 & H5 & H6 & Hs). pose proof (seg_le _ _ _ _ _ _ Hs).
  rewrite !(agree_load32 a b m m') by (done || offsets; lia).
  repeat (split; [done|]). apply IH; [|done]. eapply agree_sub; [| |exact Hag]; lia.
Qed.

(** Changing the back link, or the forward link, of a list of blocks. *)
Lemma seg_set_prev m prev p a bs b nx :
  0 <= p < 4294967296 -> bs <> [] -> seg m prev a bs b nx -> seg (store32 m (a + PREV) p) p a bs b nx.
Proof.
  intros Hp. destruct bs as [|[[a' sz] fr] bs]; [done|]. intros _ (-> & H1 & H2 & H3 & H4 & H5 & H6 & Hs).
  offsets. split; [done|]. split; [done|]. split; [done|].
  rewrite load32_store32, !load32_store32_other by (done || offsets; lia).
  repeat (split; [done|]). eapply seg_agree; [|exact Hs]. apply agree_store32. lia.
Qed.

Lemma seg_set_next m prev a l x b nx nx' :
  0 <= nx' < 4294967296 -> seg m prev a (l ++ [x]) b nx ->
  seg (store32 m (addr_of x + NEXT) nx') prev a (l ++ [x]) b nx'.
Proof.
  intros Hn. rewrite !seg_app. destruct x as [[a' sz] fr]. unfold addr_of. simpl.
  intros (c & Hs & -> & H1 & H2 & H3 & H4 & H5 & H6 & H7). exists c. split.
  - eapply seg_agree; [|exact Hs]. apply agree_store32. offsets. lia.
  - simpl. offsets. rewrite load32_store32, !load32_store32_other by (done || lia). by repeat split.
Qed.

Section MallocProofs.
Context (base limit : Z).
Abbreviation rd := (rd base).
Abbreviation wr := (wr base).

Lemma rd_Ret s a : base <= a -> a + 4 <= h_brk s -> rd a s = Ret (load32 (h_mem s) a) s.
Proof. intros H1 H2. unfold Malloc.rd. by rewrite (proj2 (Z.leb_le _ _) H1), (proj2 (Z.leb_le _ _) H2). Qed.
Lemma wr_Ret s a v : base <= a -> a + 4 <= h_brk s -> wr a v s = Ret tt (set_h_mem (store32 (h_mem s) a v) s).
Proof. intros H1 H2. unfold Malloc.wr. by rewrite (proj2 (Z.leb_le _ _) H1), (proj2 (Z.leb_le _ _) H2). Qed.

(** ** First fit *)
Definition fits (size : Z) (x : block) : bool := let '(_, sz, fr) := x in fr && (size <=? sz).

Lemma find_free_spec size bs s prev a fuel :
  seg (h_mem s) prev a bs (h_brk s) 0 -> base <= a -> 0 < base -> (length bs <= fuel)%nat ->
  find_free base fuel (ptr_to a bs) size s
  = Ret (match list_find (fits size) bs with Some (_, x) => addr_of x | None => 0 end) s.
Proof.
  revert prev a fuel. induction bs as [|[[a' sz] fr] bs IH]; intros prev a fuel Hs Ha Hb Hf.
  - by destruct fuel.
  - pose proof (seg_le _ _ _ _ _ _ Hs) as Hle. simpl in Hs.
    destruct Hs as (-> & H1 & H2 & H3 & H4 & H5 & H6 & Hs). simpl in Hf, Hle.
    destruct fuel as [|fuel]; [lia|]. simpl. rewrite (proj2 (Z.eqb_neq _ _)) by lia.
    erewrite bind_Ret by (apply rd_Ret; offsets; lia). erewrite bind_Ret by (apply rd_Ret; lia).
    rewrite H6, H3.
    assert (negb (Z.b2z fr =? 0) = fr) as -> by (by destruct fr).
    destruct (fr && (size <=? sz)) eqn:E.
    + by rewrite decide_True by done.
    + rewrite decide_False by (by intros []).
      erewrite bind_Ret by (apply rd_Ret; offsets; lia). rewrite H4.
      assert (match bs with [] => 0 | _ => a + 20 + sz end = ptr_to (a + 20 + sz) bs) as -> by done.
      rewrite (IH a (a + 20 + sz)) by (done || lia).
      by destruct (list_find (fits size) bs) as [[j y]|].
Qed.

Lemma find_free_block_spec s bs size :
  heap_ok base limit s bs ->
  find_free_block base size s
  = Ret (match list_find (fits size) bs with Some (_, x) => addr_of x | None => 0 end) s.
Proof.
  intros [Hs Hst He [Hb _] _]. unfold find_free_block. erewrite bind_Ret by reflexivity. rewrite Hst.
  eapply find_free_spec; [exact Hs|lia|done|]. pose proof (seg_le _ _ _ _ _ _ Hs). lia.
Qed.

(** ** Splitting *)

(** A block in the middle of the heap. *)
Lemma seg_mid m l1 a bsz fr l2 b :
  seg m 0 base (l1 ++ (a, bsz, fr) :: l2) b 0 <->
  seg m 0 base l1 a a /\ 0 < bsz /\ bsz mod 4 = 0 /\ load32 m a = bsz /\
  load32 m (a + NEXT) = ptr_to (a + 20 + bsz) l2 /\ load32 m (a + PREV) = last_addr 0 l1 /\
  load32 m (a + FREE) = Z.b2z fr /\ seg m a (a + 20 + bsz) l2 b 0.
Proof.
  rewrite seg_app. simpl. unfold ptr_to. split.
  - intros (c & H1 & -> & H2). by split.
  - intros (H1 & H2). by exists a.
Qed.

Lemma split_block_spec s l1 a bsz l2 sz :
  seg (h_mem s) 0 base (l1 ++ (a, bsz, false) :: l2) (h_brk s) 0 -> 0 < base ->
  h_brk s < 4294967296 -> 0 < sz <= bsz -> sz mod 4 = 0 ->
  heap_end s = last_addr 0 (l1 ++ (a, bsz, false) :: l2) ->
  exists s', split_block base a sz s = Ret tt s' /\
    let rest := if 24 <=? bsz - sz then [(a, sz, false); (a + 20 + sz, bsz - sz - 20, true)]
                else [(a, bsz, false)] in
    seg (h_mem s') 0 base (l1 ++ rest ++ l2) (h_brk s') 0 /\
    heap_end s' = last_addr 0 (l1 ++ rest ++ l2) /\ heap_start s' = heap_start s /\ h_brk s' = h_brk s /\
    agree base a (h_mem s) (h_mem s') /\ agree (a + 20 + bsz + 12) (h_brk s) (h_mem s) (h_mem s') .
Proof.
  intros Hs Hb Hbrk Hsz Hm4 He. pose proof Hs as Hs0.
  apply seg_mid in Hs as (Hl1 & H1 & H2 & H3 & H4 & H5 & H6 & Hl2).
  pose proof (seg_le _ _ _ _ _ _ Hl1) as Hle1. pose proof (seg_le _ _ _ _ _ _ Hl2) as Hle2.
  unfold split_block. erewrite bind_Ret by (apply rd_Ret; lia). rewrite H3.
  rewrite (u32_small (bsz - sz)) by lia. change (BLOCK_SIZE + 4) with 24. cbv zeta.
  destruct (Z.leb_spec 24 (bsz - sz)) as [Hbig|Hsmall].
  2: { exists s. split; [done|]. split; [exact Hs0|]. split; [exact He|]. by repeat split; try apply agree_refl. }
  set (nb := a + 20 + sz). set (nsz := bsz - sz - 20).
  assert (u32 (a + BLOCK_SIZE + sz) = nb) as -> by (unfold nb; offsets; apply u32_small; lia).
  assert (u32 (bsz - sz - BLOCK_SIZE) = nsz) as -> by (unfold nsz; offsets; apply u32_small; lia).
  erewrite bind_Ret by (apply wr_Ret; simpl; unfold nb; offsets; lia).
  erewrite bind_Ret by (apply rd_Ret; simpl; offsets; lia). simpl h_mem.
  rewrite load32_store32_other by (unfold nb; offsets; lia). rewrite H4.
  set (n := ptr_to (a + 20 + bsz) l2).
  do 5 (erewrite bind_Ret by (apply wr_Ret; simpl; unfold nb; offsets; lia)). simpl.
  set (m5 := store32 _ (a + NEXT) nb).
  assert (Hag1 : agree base a (h_mem s) m5).
  { unfold m5, nb. offsets. repeat (eapply agree_trans; [|apply agree_store32; lia]). apply agree_refl. }
  assert (Hag2 : agree (a + 20 + bsz) (h_brk s) (h_mem s) m5).
  { unfold m5, nb. offsets. repeat (eapply agree_trans; [|apply agree_store32; lia]). apply agree_refl. }
  assert (Hmid : forall m', agree base (a + 20 + bsz) m5 m' -> seg m' nb (a + 20 + bsz) l2 (h_brk s) 0 ->
            seg m' 0 base (l1 ++ (a, sz, false) :: (nb, nsz, true) :: l2) (h_brk s) 0).
  { intros m' Hag Hl2'. apply seg_mid. split.
    { eapply seg_agree; [|exact Hl1]. eapply agree_trans; [exact Hag1|]. eapply agree_sub; [| |exact Hag]; lia. }
    assert (0 <= n < 4294967296) by (unfold n, ptr_to; destruct l2; lia).
    assert (Hw : forall x v, base <= x -> x + 4 <= a + 20 + bsz -> load32 m5 x = v -> load32 m' x = v).
    { intros x v Hx1 Hx2 <-. eapply agree_load32; [exact Hag|lia|lia]. }
    split; [lia|]. split; [done|]. simpl.
    split; [|split; [|split; [|split; [|split; [|split; [|split; [|split; [|split; [|split; [|split]]]]]]]]]].
    - apply Hw; [lia|offsets; lia|]. unfold m5. offsets. rewrite load32_store32_other, load32_store32 by lia. done.
    - apply Hw; [offsets; lia|offsets; lia|]. unfold m5. rewrite load32_store32 by (unfold nb; lia). done.
    - apply Hw; [offsets; lia|offsets; lia|]. unfold m5, nb. offsets. rewrite !load32_store32_other by lia. exact H5.
    - apply Hw; [offsets; lia|offsets; lia|]. unfold m5, nb. offsets. rewrite !load32_store32_other by lia. exact H6.
    - done.
    - unfold nsz. lia.
    - unfold nsz. rewrite (Zminus_mod _ 20), (Zminus_mod bsz sz), H2, Hm4. done.
    - apply Hw; [unfold nb; lia|unfold nb; offsets; lia|]. unfold m5, nb. offsets.
      rewrite !load32_store32_other, load32_store32 by (unfold nsz; lia). done.
    - apply Hw; [unfold nb; offsets; lia|unfold nb; offsets; lia|]. unfold m5, nb. offsets.
      do 4 rewrite load32_store32_other by lia. rewrite load32_store32 by done. unfold n, ptr_to.
      destruct l2; [done|]. unfold nsz. lia.
    - apply Hw; [unfold nb; offsets; lia|unfold nb; offsets; lia|]. unfold m5, nb. offsets.
      do 3 rewrite load32_store32_other by lia. by rewrite load32_store32 by lia.
    - apply Hw; [unfold nb; offsets; lia|unfold nb; offsets; lia|]. unfold m5, nb. offsets.
      do 2 rewrite load32_store32_other by lia. by rewrite load32_store32 by lia.
    - replace (a + 20 + sz + 20 + nsz) with (a + 20 + bsz) by (unfold nsz; lia). exact Hl2'. }
  assert (Hend : last_addr 0 (l1 ++ (a, sz, false) :: (nb, nsz, true) :: l2)
                 = match l2 with [] => nb | _ => last_addr 0 (l1 ++ (a, bsz, false) :: l2) end).
  { unfold last_addr. rewrite !last_app. destruct l2 as [|y l2]; [done|].
    change (last ((a, sz, false) :: (nb, nsz, true) :: y :: l2)) with (last (y :: l2)).
    change (last ((a, bsz, false) :: y :: l2)) with (last (y :: l2)).
    by destruct (last (y :: l2)) eqn:E; [|apply last_None in E]. }
  destruct l2 as [|y l2].
  - simpl in Hl2. unfold n. simpl ptr_to. simpl Z.eqb. cbv iota.
    eexists. split; [reflexivity|]. simpl. split; [by apply Hmid; [apply agree_refl|]|].
    split; [by rewrite Hend|]. split; [done|]. split; [done|]. split; [exact Hag1|].
    eapply agree_sub; [| |exact Hag2]; lia.
  - assert (Hn : n = a + 20 + bsz) by done. simpl in Hle2.
    rewrite Hn, (proj2 (Z.eqb_neq (a + 20 + bsz) 0)) by lia.
    rewrite wr_Ret by (simpl; offsets; lia). eexists. split; [reflexivity|]. simpl.
    split; [apply Hmid|].
    + apply agree_store32. offsets. lia.
    + apply (seg_set_prev m5 a); [unfold nb; lia|done|]. eapply seg_agree; [|exact Hl2]. exact Hag2.
    + split; [by rewrite Hend, He|]. split; [done|]. split; [done|]. split.
      * eapply agree_trans; [exact Hag1|]. apply agree_store32. offsets. lia.
      * eapply agree_trans; [eapply agree_sub; [| |exact Hag2]; lia|]. apply agree_store32. offsets. lia.
Qed.

(** ** Extending the heap *)
Lemma ALIGN_eq x : 0 <= x -> x + 3 < 4294967296 -> ALIGN x = 4 * ((x + 3) / 4).
Proof.
  intros H0 H1. unfold ALIGN. rewrite u32_small by lia. set (y := x + 3) in *.
  replace (4 * (y / 4)) with (Z.shiftl (Z.shiftr y 2) 2)
    by (rewrite Z.shiftl_mul_pow2, Z.shiftr_div_pow2 by lia; change (2 ^ 2) with 4; lia).
  change 4294967292 with (Z.shiftl (Z.ones 30) 2).
  apply Z.bits_inj'. intros n Hn. rewrite Z.land_spec, !Z.shiftl_spec by lia.
  destruct (Z.ltb_spec n 2) as [Hlt|Hge].
  - rewrite !(Z.testbit_neg_r _ (n - 2)) by lia. by rewrite andb_false_r.
  - rewrite (Z.shiftr_spec y 2) by lia. replace (n - 2 + 2) with n by lia.
    destruct (Z.ltb_spec n 32) as [Hlt|Hge2].
    + rewrite Z.ones_spec_low by lia. by rewrite andb_true_r.
    + rewrite Z.ones_spec_high by lia. rewrite andb_false_r. symmetry.
      destruct (Z.eq_dec y 0) as [->|Hy]; [by rewrite Z.bits_0|].
      apply Z.bits_above_log2; [lia|]. apply Z.log2_lt_pow2; [lia|].
      apply Z.lt_le_trans with (2 ^ 32); [lia|]. apply Z.pow_le_mono_r; lia.
Qed.

Lemma ALIGN_props x : 0 < x -> x + 3 < 4294967296 -> x <= ALIGN x <= x + 3 /\ ALIGN x mod 4 = 0.
Proof.
  intros H0 H1. rewrite ALIGN_eq by lia. split; [|by rewrite Z.mul_comm, Z.mod_mul by lia].
  pose proof (Z.div_mod (x + 3) 4 ltac:(lia)). pose proof (Z.mod_pos_bound (x + 3) 4 ltac:(lia)). lia.
Qed.

Lemma ALIGN_id x : 0 <= x -> x + 3 < 4294967296 -> x mod 4 = 0 -> ALIGN x = x.
Proof.
  intros H0 H1 Hm. rewrite ALIGN_eq by done. apply Z.mod_divide in Hm as [y ->]; [|lia].
  rewrite (Z.div_add_l y 4 3) by lia. change (3 / 4) with 0. lia.
Qed.

Lemma seg_snoc m bs b sz :
  seg m 0 base bs b b -> load32 m b = sz -> load32 m (b + NEXT) = 0 ->
  load32 m (b + PREV) = last_addr 0 bs -> load32 m (b + FREE) = 0 -> 0 < sz -> sz mod 4 = 0 ->
  seg m 0 base (bs ++ [(b, sz, false)]) (b + 20 + sz) 0.
Proof. intros. apply seg_mid. split; [done|]. by split_and!. Qed.

Lemma extend_heap_spec s bs sz :
  heap_ok base limit s bs -> 0 < sz -> sz mod 4 = 0 -> h_brk s + 20 + sz <= limit -> 3 + limit < 4294967296 ->
  exists s', extend_heap base limit sz s = Ret (h_brk s) s' /\
    heap_ok base limit s' (bs ++ [(h_brk s, sz, false)]) /\ h_brk s' = h_brk s + 20 + sz /\
    (forall a' sz' fr, (a', sz', fr) ∈ bs -> agree (a' + DATA) (a' + 20 + sz') (h_mem s) (h_mem s')).
Proof.
  intros [Hs Hst He [Hb Hb4] [Hl1 Hl2]] Hsz Hm4 Hlim H3.
  pose proof (seg_le _ _ _ _ _ _ Hs) as Hle. pose proof (seg_mod4 _ _ _ _ _ _ Hs Hb4) as Hbrk4.
  unfold extend_heap.
  assert (ALIGN (u32 (sz + BLOCK_SIZE)) = sz + 20) as ->.
  { offsets. rewrite u32_small by lia. apply ALIGN_id; [lia|lia|]. by rewrite Z.add_mod, Hm4 by lia. }
  erewrite bind_Ret by reflexivity.
  erewrite bind_Ret by (unfold sys_brk; rewrite (proj2 (Z.leb_le _ _)) by lia; reflexivity).
  set (b := h_brk s) in *. cbv beta iota.
  do 2 (erewrite bind_Ret by (apply wr_Ret; simpl; offsets; lia)).
  erewrite bind_Ret by reflexivity. simpl heap_end.
  do 2 (erewrite bind_Ret by (apply wr_Ret; simpl; offsets; lia)). simpl.
  match goal with |- context [set_h_mem ?m _] => set (m4 := m) end.
  assert (Hag4 : agree 0 b (h_mem s) m4).
  { unfold m4. offsets. repeat (eapply agree_trans; [|apply agree_store32; lia]). apply agree_refl. }
  assert (Hlast : 0 <= last_addr 0 bs < 4294967296 /\ (bs <> [] -> base <= last_addr 0 bs /\ last_addr 0 bs + 20 < b)).
  { destruct bs as [|x bs _] using rev_ind; [done|]. rewrite last_addr_snoc.
    apply seg_app in Hs as (c & Hc1 & Hc2). destruct x as [[xa xs] xf]. simpl in Hc2. unfold addr_of. simpl.
    destruct Hc2 as (-> & ? & _ & _ & _ & _ & _ & Heq). pose proof (seg_le _ _ _ _ _ _ Hc1).
    split; [|intros _]; lia. }
  destruct Hlast as [Hlast1 Hlast2].
  assert (Hnew : forall m', agree b (b + 20) m4 m' -> seg m' 0 base bs b b ->
            seg m' 0 base (bs ++ [(b, sz, false)]) (b + 20 + sz) 0).
  { intros m' Hag Hs'. apply seg_snoc; try done.
    - rewrite (agree_load32 _ _ _ _ _ Hag) by lia. unfold m4. offsets.
      rewrite !load32_store32_other, load32_store32 by lia. done.
    - rewrite (agree_load32 _ _ _ _ _ Hag) by (offsets; lia). unfold m4. offsets.
      do 2 rewrite load32_store32_other by lia. by rewrite load32_store32 by lia.
    - rewrite (agree_load32 _ _ _ _ _ Hag) by (offsets; lia). unfold m4. offsets.
      rewrite load32_store32_other by lia. rewrite load32_store32 by (rewrite He; lia). done.
    - rewrite (agree_load32 _ _ _ _ _ Hag) by (offsets; lia). unfold m4. offsets.
      by rewrite load32_store32 by lia. }
  rewrite He. destruct bs as [|x bs _] using rev_ind.
  - simpl in Hs. change (last_addr 0 []) with 0. simpl Z.eqb. cbv iota.
    erewrite bind_Ret by reflexivity. erewrite bind_Ret by reflexivity.
    eexists. split; [reflexivity|]. split.
    + split; simpl; [|by rewrite Hs|done|done|lia].
      replace (b + (sz + 20)) with (b + 20 + sz) by lia. apply (Hnew m4); [apply agree_refl|exact Hs].
    + simpl. split; [lia|]. intros a' sz' fr Hin. by apply not_elem_of_nil in Hin.
  - destruct Hlast2 as [Hl3 Hl4]; [by destruct bs|]. rewrite last_addr_snoc in *.
    rewrite (proj2 (Z.eqb_neq (addr_of x) 0)) by lia.
    erewrite bind_Ret by (apply wr_Ret; simpl; offsets; lia). erewrite bind_Ret by reflexivity.
    eexists. split; [reflexivity|].
    assert (Hs' : seg (store32 m4 (addr_of x + NEXT) b) 0 base (bs ++ [x]) b b).
    { apply (seg_set_next m4 0 base bs x b 0); [lia|]. eapply seg_agree; [|exact Hs].
      eapply agree_sub; [| |exact Hag4]; lia. }
    split.
    + split; simpl; [|rewrite Hst; by destruct bs|by rewrite last_addr_snoc|done|lia].
      replace (b + (sz + 20)) with (b + 20 + sz) by lia.
      apply Hnew; [apply agree_store32; offsets; lia|exact Hs'].
    + simpl. split; [lia|]. intros a' sz' fr Hin. eapply agree_trans.
      * eapply agree_sub; [| |exact Hag4].
        -- apply list_elem_of_split in Hin as (l1 & l2 & Heq). rewrite Heq in Hs.
           apply seg_app in Hs as (c & Hc1 & -> & _). pose proof (seg_le _ _ _ _ _ _ Hc1). offsets. lia.
        -- apply list_elem_of_split in Hin as (l1 & l2 & Heq). rewrite Heq in Hs.
           apply seg_app in Hs as (c & Hc1 & -> & H1 & _ & _ & _ & _ & _ & Hc2).
           pose proof (seg_le _ _ _ _ _ _ Hc2). lia.
      * apply agree_store32. apply elem_of_app in Hin as [Hin| <-%list_elem_of_singleton].
        -- right. apply list_elem_of_split in Hin as (l1 & l2 & ->). rewrite <- app_assoc in Hs.
           apply seg_app in Hs as (c & Hc1 & -> & H1 & _ & _ & _ & _ & _ & Hc2).
           apply (seg_app _ _ _ l2 [x]) in Hc2 as (c2 & Hc3 & Hc4).
           pose proof (seg_le _ _ _ _ _ _ Hc3). destruct x as [[xa xs] xf]. destruct Hc4 as (-> & _).
           unfold addr_of. simpl. offsets. lia.
        -- left. unfold addr_of. simpl. offsets. lia.
Qed.

(** ** Allocation *)

(** What [malloc] makes of a free block it takes. *)
Definition taken (sz : Z) (x : block) : list block :=
  let '(a, bsz, _) := x in
  if 24 <=? bsz - sz then [(a, sz, false); (a + 20 + sz, bsz - sz - 20, true)] else [(a, bsz, false)].

(** The data of the blocks in use is the same in both states. *)
Definition keeps_data (s s' : heap) (bs : list block) : Prop :=
  forall a sz, (a, sz, false) ∈ bs -> agree (a + DATA) (a + 20 + sz) (h_mem s) (h_mem s').

Lemma malloc_takes s l1 x l2 n :
  heap_ok base limit s (l1 ++ x :: l2) -> 0 < n -> n + 3 < 4294967296 ->
  list_find (fits (ALIGN n)) (l1 ++ x :: l2) = Some (length l1, x) ->
  exists s', malloc base limit n s = Ret (addr_of x + DATA) s' /\
    heap_ok base limit s' (l1 ++ taken (ALIGN n) x ++ l2) /\ keeps_data s s' (l1 ++ x :: l2).
Proof.
  intros Hok Hn Hn3 Hf. destruct (ALIGN_props n Hn Hn3) as [Hsz Hsz4]. set (sz := ALIGN n) in *.
  pose proof Hf as (_ & Hfit & _)%list_find_Some. destruct x as [[a bsz] fr].
  apply Is_true_eq_true in Hfit. simpl in Hfit. apply andb_true_iff in Hfit as [-> Hle%Z.leb_le].
  pose proof Hok as [Hs Hst He [Hb Hb4] [Hl1 Hl2]].
  unfold malloc. rewrite (proj2 (Z.eqb_neq n 0)) by lia. fold sz. cbv zeta.
  erewrite bind_Ret by (by apply find_free_block_spec). rewrite Hf. cbv beta iota. unfold addr_of. cbn [fst].
  pose proof Hs as Hs0. apply seg_mid in Hs0 as (Hseg1 & H1 & H2 & H3 & H4 & H5 & H6 & Hseg2).
  pose proof (seg_le _ _ _ _ _ _ Hseg1) as Hle1. pose proof (seg_le _ _ _ _ _ _ Hseg2) as Hle2.
  rewrite (proj2 (Z.eqb_neq a 0)) by lia.
  erewrite bind_Ret by (apply wr_Ret; offsets; lia). set (s1 := set_h_mem _ s).
  assert (Hs1 : seg (h_mem s1) 0 base (l1 ++ (a, bsz, false) :: l2) (h_brk s1) 0).
  { apply seg_mid. simpl. offsets.
    rewrite !load32_store32_other, load32_store32 by lia. split.
    { eapply seg_agree; [|exact Hseg1]. apply agree_store32. lia. }
    split_and!; try done. eapply seg_agree; [|exact Hseg2]. apply agree_store32. lia. }
  assert (Hlast : forall fr, last_addr 0 (l1 ++ (a, bsz, fr) :: l2) = last_addr 0 (l1 ++ (a, bsz, true) :: l2)).
  { intros fr. unfold last_addr. rewrite !last_app. destruct l2 as [|y l2]; [done|].
    change (last ((a, bsz, fr) :: y :: l2)) with (last (y :: l2)). done. }
  destruct (split_block_spec s1 l1 a bsz l2 sz Hs1 Hb) as (s' & Hsp & Hseg' & Hend & Hstart & Hbrk & Hag1 & Hag2).
  { simpl. lia. }
  { lia. }
  { done. }
  { simpl. by rewrite He, Hlast. }
  erewrite bind_Ret by exact Hsp. exists s'. split; [done|]. split.
  - split; [exact Hseg'| |exact Hend|done|by rewrite Hbrk].
    rewrite Hstart. simpl. rewrite Hst. unfold taken. by destruct l1; [case_match|].
  - intros a' sz' Hin.
    assert (Hdata : agree (a' + DATA) (a' + 20 + sz') (h_mem s) (h_mem s1)).
    { apply agree_store32. apply elem_of_app in Hin as [Hin|Hin].
      - right. apply list_elem_of_split in Hin as (k1 & k2 & ->).
        apply seg_app in Hseg1 as (c & _ & -> & _ & _ & _ & _ & _ & _ & Hc).
        pose proof (seg_le _ _ _ _ _ _ Hc). offsets. lia.
      - apply elem_of_cons in Hin as [[=]|Hin]. left. apply list_elem_of_split in Hin as (k1 & k2 & ->).
        apply seg_app in Hseg2 as (c & Hc & -> & _). pose proof (seg_le _ _ _ _ _ _ Hc). offsets. lia. }
    eapply agree_trans; [exact Hdata|]. apply elem_of_app in Hin as [Hin|Hin].
    + eapply agree_sub; [| |exact Hag1]; apply list_elem_of_split in Hin as (k1 & k2 & ->);
        apply seg_app in Hseg1 as (c & Hc0 & -> & ? & _ & _ & _ & _ & _ & Hc);
        pose proof (seg_le _ _ _ _ _ _ Hc); pose proof (seg_le _ _ _ _ _ _ Hc0); offsets; lia.
    + apply elem_of_cons in Hin as [[=]|Hin].
      eapply agree_sub; [| |exact Hag2]; apply list_elem_of_split in Hin as (k1 & k2 & ->);
        apply seg_app in Hseg2 as (c & Hc0 & -> & ? & _ & _ & _ & _ & _ & Hc);
        pose proof (seg_le _ _ _ _ _ _ Hc); pose proof (seg_le _ _ _ _ _ _ Hc0); offsets; simpl; lia.
Qed.
End MallocProofs.

(** ** Properties *)


(** [free] never works on what [malloc] returned.  It looks for the header 20
    bytes before the data, 4 bytes before where the header is: for every block of
    a well-formed heap it overwrites the block's back link with 1 and then takes
    the block's size for the address of the next block.  Unless that size plus 12
    happens to be an address inside the heap, the access is a fault. *)
Theorem malloc_free_faults (base limit : Z) (s : heap) (bs : list block) (a sz : Z) (fr : bool)
    (Hok : heap_ok base limit s bs) (Hin : (a, sz, fr) ∈ bs)
    (Hout : sz + FREE < base \/ h_brk s < sz + FREE + 4) :
  Malloc.free base (a + DATA) s = Stop Fault.
Proof.
  destruct Hok as [Hs _ _ [Hb _] _]. apply list_elem_of_split in Hin as (l1 & l2 & ->).
  apply seg_mid in Hs as (Hs1 & H1 & _ & H3 & _ & _ & _ & Hs2).
  pose proof (seg_le _ _ _ _ _ _ Hs1). pose proof (seg_le _ _ _ _ _ _ Hs2).
  unfold free. offsets. rewrite (proj2 (Z.eqb_neq (a + 16) 0)) by lia. cbv zeta.
  erewrite bind_Ret by (apply wr_Ret; lia).
  unfold merge_blocks. offsets. erewrite bind_Ret by (apply rd_Ret; simpl; lia). simpl h_mem.
  rewrite load32_store32_other by lia. replace (a + 16 - 20 + 4) with a by lia. rewrite H3.
  rewrite (proj2 (Z.eqb_neq sz 0)) by lia. apply bind_Stop. unfold rd. simpl h_brk.
  destruct (Z.leb_spec base (sz + 12)), (Z.leb_spec (sz + 12 + 4) (h_brk s)); simpl; done || lia.
Qed.

(** An empty heap of at most 64 KiB at 0x40000000. *)
Definition empty_heap : heap :=
  {| h_mem := fun _ => 0; h_brk := 1073741824; heap_start := 0; heap_end := 0 |}.
Lemma empty_heap_ok : heap_ok 1073741824 1073807360 empty_heap [].
Proof. split; simpl; done. Qed.


Lemma malloc_free_faults_witness :
  exists s', malloc 1073741824 1073807360 10 empty_heap = Ret 1073741840 s' /\
             Malloc.free 1073741824 1073741840 s' = Stop Fault.
Proof.
  assert (exists s', malloc 1073741824 1073807360 10 empty_heap = Ret 1073741840 s' /\
             heap_ok 1073741824 1073807360 s' [(1073741824, 12, false)]) as (s' & Hm & Hok).
  { pose proof (extend_heap_spec 1073741824 1073807360 empty_heap [] 12 empty_heap_ok) as He.
    destruct He as (s' & He & Hok & _); [lia|done|simpl; lia|lia|].
    exists s'. split; [|exact Hok].
    change (malloc 1073741824 1073807360 10 empty_heap) with
      (bind (extend_heap 1073741824 1073807360 12)
         (fun block => if block =? 0 then ret 0 else ret (block + DATA)) empty_heap).
    by rewrite (bind_Ret _ _ _ _ _ He). }
  exists s'. split; [exact Hm|].
  apply (malloc_free_faults 1073741824 1073807360 s' _ 1073741824 12 false Hok).
  - apply list_elem_of_here.
  - left. reflexivity.
Defined.
