(* ===== verification/Pra.v ===== *)
(** * Pra

    src/src/mm_pra.c: a table of page frames and the four algorithms that choose
    which page to replace when it is full.  The table is an array and a frame
    pointer an index into it.  The calls into the rest of the memory manager
    ([swap_out], [mmu_unmap_page], [mm_alloc_pages], [mm_free_pages], none of which
    the sources define) are the operations of a [page_ops] on a state of their
    own.  The search of the clock algorithm has a fuel argument; one more than the
    number of frames is enough. *)
From stdpp Require Import strings.
From S2P Require Import Prelude Links Task WaitQueue Mutex Guarded.

(** ** Data *)
Inductive pra_type_t : Type := PRA_FIFO | PRA_CLOCK | PRA_LRU | PRA_NFU.

Record page_frame_t : Type := PageFrame {
  vaddr : Z;
  accessed : Z;
  dirty : Z;
  reference : Z;
  pf_next : ptr
}.

Definition set_vaddr (v : Z) (x : page_frame_t) : page_frame_t := {|
  vaddr := v; accessed := accessed x; dirty := dirty x;
  reference := reference x; pf_next := pf_next x |}.
Definition set_accessed (v : Z) (x : page_frame_t) : page_frame_t := {|
  vaddr := vaddr x; accessed := v; dirty := dirty x;
  reference := reference x; pf_next := pf_next x |}.
Definition set_dirty (v : Z) (x : page_frame_t) : page_frame_t := {|
  vaddr := vaddr x; accessed := accessed x; dirty := v;
  reference := reference x; pf_next := pf_next x |}.
Definition set_reference (v : Z) (x : page_frame_t) : page_frame_t := {|
  vaddr := vaddr x; accessed := accessed x; dirty := dirty x;
  reference := v; pf_next := pf_next x |}.

Record pra_stats_t : Type := PraStats {
  page_faults : Z;
  page_ins : Z;
  page_outs : Z;
  replaced_pages : Z
}.

Definition set_page_faults (v : Z) (x : pra_stats_t) : pra_stats_t := {|
  page_faults := v; page_ins := page_ins x; page_outs := page_outs x;
  replaced_pages := replaced_pages x |}.
Definition set_page_ins (v : Z) (x : pra_stats_t) : pra_stats_t := {|
  page_faults := page_faults x; page_ins := v; page_outs := page_outs x;
  replaced_pages := replaced_pages x |}.
Definition set_page_outs (v : Z) (x : pra_stats_t) : pra_stats_t := {|
  page_faults := page_faults x; page_ins := page_ins x; page_outs := v;
  replaced_pages := replaced_pages x |}.
Definition set_replaced_pages (v : Z) (x : pra_stats_t) : pra_stats_t := {|
  page_faults := page_faults x; page_ins := page_ins x; page_outs := page_outs x;
  replaced_pages := v |}.

(** The context, less its lock, and the static variable of [fifo_select]. *)
Record pra_context_t : Type := PraContext {
  pra_type : pra_type_t;
  frames : list page_frame_t;
  frame_count : Z;
  clock_hand : Z;
  stats : pra_stats_t;
  fifo_head : ptr
}.

Definition set_frames (v : list page_frame_t) (x : pra_context_t) : pra_context_t := {|
  pra_type := pra_type x; frames := v; frame_count := frame_count x;
  clock_hand := clock_hand x; stats := stats x; fifo_head := fifo_head x |}.
Definition set_clock_hand (v : Z) (x : pra_context_t) : pra_context_t := {|
  pra_type := pra_type x; frames := frames x; frame_count := frame_count x;
  clock_hand := v; stats := stats x; fifo_head := fifo_head x |}.
Definition set_stats (v : pra_stats_t) (x : pra_context_t) : pra_context_t := {|
  pra_type := pra_type x; frames := frames x; frame_count := frame_count x;
  clock_hand := clock_hand x; stats := v; fifo_head := fifo_head x |}.
Definition set_fifo_head (v : ptr) (x : pra_context_t) : pra_context_t := {|
  pra_type := pra_type x; frames := frames x; frame_count := frame_count x;
  clock_hand := clock_hand x; stats := stats x; fifo_head := v |}.

(** What the module calls. *)
Record page_ops (Y : Type) : Type := PageOps {
  swap_out : Z -> Y -> Z * Y;
  mmu_unmap_page : Z -> Y -> Y;
  mm_alloc_pages : Z -> Y -> Z * Y;
  mm_free_pages : Z -> Z -> Y -> Y
}.
Arguments swap_out {Y} p va y.
Arguments mmu_unmap_page {Y} p va y.
Arguments mm_alloc_pages {Y} p n y.
Arguments mm_free_pages {Y} p va n y.

(** ** Operations *)
Definition zero_frame (next : ptr) : page_frame_t :=
  {| vaddr := 0; accessed := 0; dirty := 0; reference := 0; pf_next := next |}.
(** [memset], then the loop that links every frame but the last to the next. *)
Definition init_frames (n : nat) : list page_frame_t :=
  (fun i => zero_frame (if (i <? n - 1)%nat then Some (i + 1)%nat else None)) <$> seq 0 n.

(** [head] is what the static variable of [fifo_select] holds (NULL at boot; it is
    not reset), [allocated] whether [mm_alloc] returns memory for the frames. *)
Definition pra_init (head : ptr) (type : pra_type_t) (allocated : bool) : prog unit (mutex_t * pra_context_t) :=
  if allocated then
    Ret (mutex_init "pra_lock",
         {| pra_type := type; frames := init_frames 1024; frame_count := 1024; clock_hand := 0;
            stats := {| page_faults := 0; page_ins := 0; page_outs := 0; replaced_pages := 0 |};
            fifo_head := head |}) tt
  else Stop Fault.

Definition get_frame (i : nat) : Cmd pra_context_t page_frame_t :=
  let* c := get in deref (frames c !! i).
Definition put_frame (i : nat) (f : page_frame_t -> page_frame_t) : Cmd pra_context_t unit :=
  let* x := get_frame i in
  modify (fun c => set_frames (<[i := f x]> (frames c)) c).

Definition fifo_select : Cmd pra_context_t ptr :=
  let* h := gets fifo_head in
  modify (set_fifo_head (match h with None => Some 0%nat | Some _ => h end)) ;;;
  let* victim := gets fifo_head in
  let* v := deref victim in
  let* x := get_frame v in
  modify (set_fifo_head (pf_next x)) ;;;
  ret victim.

Fixpoint clock_select (fuel : nat) : Cmd pra_context_t ptr :=
  match fuel with
  | O => fail NoFuel
  | S fuel' =>
      let* c := get in
      let i := Z.to_nat (clock_hand c) in
      let* x := get_frame i in
      modify (set_clock_hand (u32 (clock_hand c + 1) mod frame_count c)) ;;;
      if accessed x =? 0 then ret (Some i)
      else put_frame i (set_accessed 0) ;;; clock_select fuel'
  end.

(** The scan of [lru_select] over the frames from index [i] on. *)
Fixpoint lru_scan (i : nat) (fs : list page_frame_t) (min_ref : Z) (victim : ptr) : ptr :=
  match fs with
  | [] => victim
  | x :: fs' =>
      if reference x <? min_ref then lru_scan (S i) fs' (reference x) (Some i)
      else lru_scan (S i) fs' min_ref victim
  end.
Definition lru_select : Cmd pra_context_t ptr :=
  let* c := get in ret (lru_scan 0 (frames c) UINT32_MAX None).

(** The scan of [nfu_select] also halves every count. *)
Definition age (x : page_frame_t) : page_frame_t := set_reference (Z.shiftr (reference x) 1) x.
Fixpoint nfu_scan (i : nat) (fs : list page_frame_t) (min_ref : Z) (victim : ptr) : list page_frame_t * ptr :=
  match fs with
  | [] => ([], victim)
  | x :: fs' =>
      let ref := Z.shiftr (reference x) 1 in
      let r := if ref <? min_ref then nfu_scan (S i) fs' ref (Some i) else nfu_scan (S i) fs' min_ref victim in
      (age x :: fst r, snd r)
  end.
Definition nfu_select : Cmd pra_context_t ptr :=
  let* c := get in
  let r := nfu_scan 0 (frames c) UINT32_MAX None in
  put (set_frames (fst r) c) ;;;
  ret (snd r).

Definition select_victim (fuel : nat) : Cmd pra_context_t ptr :=
  let* c := get in
  match pra_type c with
  | PRA_FIFO => fifo_select
  | PRA_CLOCK => clock_select fuel
  | PRA_LRU => lru_select
  | PRA_NFU => nfu_select
  end.

(** The loops that look a page up by address. *)
Definition find_vaddr (a : Z) (fs : list page_frame_t) : ptr :=
  fst <$> list_find (fun x => vaddr x = a) fs.

Definition bump (f : pra_stats_t -> pra_stats_t) : Cmd pra_context_t unit :=
  modify (fun c => set_stats (f (stats c)) c).
Definition bump_faults : Cmd pra_context_t unit := bump (fun x => set_page_faults (u32 (page_faults x + 1)) x).
Definition bump_ins : Cmd pra_context_t unit := bump (fun x => set_page_ins (u32 (page_ins x + 1)) x).
Definition bump_outs : Cmd pra_context_t unit := bump (fun x => set_page_outs (u32 (page_outs x + 1)) x).
Definition bump_replaced : Cmd pra_context_t unit := bump (fun x => set_replaced_pages (u32 (replaced_pages x + 1)) x).

(** The frame of a page just brought in. *)
Definition fresh_frame (page : Z) (x : page_frame_t) : page_frame_t :=
  set_reference 0 (set_dirty 0 (set_accessed 1 (set_vaddr (u32 page) x))).

Section Operations.
Context {Y : Type} (ops : page_ops Y).

Definition ctx_lens : lens (pra_context_t * Y) pra_context_t.
Proof using.
  refine (Lens fst (fun c p => (c, snd p)) _ _ _); [done|by intros []|done].
Defined.
Definition in_ctx {A : Type} (c : Cmd pra_context_t A) : Cmd (pra_context_t * Y) A := zoom ctx_lens c.
Definition call {A : Type} (f : Y -> A * Y) : Cmd (pra_context_t * Y) A :=
  fun s => let r := f (snd s) in Ret (fst r) (fst s, snd r).

(** The part of [pra_alloc_page] that replaces a page: the frame, or [None] where
    the function gives up. *)
Definition replace_page (fuel : nat) : Cmd (pra_context_t * Y) ptr :=
  in_ctx bump_faults ;;;
  let* frame := in_ctx (select_victim fuel) in
  let* i := deref frame in
  let* x := in_ctx (get_frame i) in
  let* ok := (if dirty x =? 0 then ret true else
                let* swap_addr := call (swap_out ops (vaddr x)) in
                if swap_addr =? 0 then ret false
                else in_ctx bump_outs ;;; ret true) in
  if ok : bool then
    call (fun y => (tt, mmu_unmap_page ops (vaddr x) y)) ;;;
    in_ctx bump_replaced ;;;
    ret (Some i)
  else ret None.

Definition pra_alloc_body (fuel : nat) : Cmd (pra_context_t * Y) Z :=
  let* fs := in_ctx (gets frames) in
  let* frame := (match find_vaddr 0 fs with
                 | Some i => ret (Some i)
                 | None => replace_page fuel
                 end) in
  match frame with
  | None => ret 0
  | Some i =>
      let* page := call (mm_alloc_pages ops 1) in
      if page =? 0 then ret 0 else
      in_ctx (put_frame i (fresh_frame page)) ;;;
      in_ctx bump_ins ;;;
      ret page
  end.
Definition pra_alloc_page (fuel : nat) : Cmd (kern * (mutex_t * (pra_context_t * Y))) Z :=
  guarded (pra_alloc_body fuel).

Definition pra_free_body (addr : Z) : Cmd (pra_context_t * Y) unit :=
  let* fs := in_ctx (gets frames) in
  match find_vaddr (u32 addr) fs with
  | None => ret tt
  | Some i =>
      in_ctx (put_frame i (fun x => set_reference 0 (set_dirty 0 (set_accessed 0 (set_vaddr 0 x))))) ;;;
      call (fun y => (tt, mm_free_pages ops addr 1 y))
  end.
Definition pra_free_page (addr : Z) : Cmd (kern * (mutex_t * (pra_context_t * Y))) unit :=
  guarded (pra_free_body addr).

Definition pra_access_body (addr : Z) : Cmd (pra_context_t * Y) unit :=
  let* c := in_ctx get in
  match find_vaddr (u32 addr) (frames c) with
  | None => ret tt
  | Some i =>
      in_ctx (put_frame i (fun x => set_reference (u32 (reference x + 1)) (set_accessed 1 x))) ;;;
      match pra_type c with
      | PRA_NFU => in_ctx (put_frame i (fun x => set_reference (Z.lor (reference x) 2147483648) x))
      | _ => ret tt
      end
  end.
Definition pra_access_page (addr : Z) : Cmd (kern * (mutex_t * (pra_context_t * Y))) unit :=
  guarded (pra_access_body addr).
End Operations.

(** ** What the algorithms choose *)
Record pra_wf (c : pra_context_t) : Prop := {
  pw_count : frame_count c = Z.of_nat (length (frames c));
  pw_range : 0 < frame_count c < 4294967296;
  pw_hand : 0 <= clock_hand c < frame_count c;
  pw_head : match fifo_head c with Some h => (h < length (frames c))%nat | None => True end;
  pw_next : forall i x, frames c !! i = Some x ->
              pf_next x = if decide (i + 1 < length (frames c))%nat then Some (i + 1)%nat else None
}.

(** How far frame [p] is ahead of the hand [h] of a clock of [n] frames. *)
Definition ahead (n h p : nat) : nat := if (h <=? p)%nat then (p - h)%nat else (p + n - h)%nat.

(** [k] is the first frame with the least count. *)
Definition first_min (fs : list page_frame_t) (k : nat) : Prop :=
  exists x, fs !! k = Some x /\ forall p y, fs !! p = Some y ->
    reference x <= reference y /\ ((p < k)%nat -> reference x < reference y).

(** The frames with the access mark cleared where [f] holds. *)
Definition clear_where (f : nat -> bool) (fs : list page_frame_t) : list page_frame_t :=
  imap (fun p x => if f p then set_accessed 0 x else x) fs.

(** What each policy means: the victim [v] and the context after the choice. *)
Definition chooses (c : pra_context_t) (v : nat) (c' : pra_context_t) : Prop :=
  let n := length (frames c) in
  match pra_type c with
  | PRA_FIFO =>
      v = default 0%nat (fifo_head c) /\
      c' = set_fifo_head (if decide (v + 1 < n)%nat then Some (v + 1)%nat else None) c
  | PRA_CLOCK =>
      let h := Z.to_nat (clock_hand c) in
      exists passed : nat -> bool,
      c' = set_clock_hand (Z.of_nat (v + 1) mod Z.of_nat n) (set_frames (clear_where passed (frames c)) c) /\
      (forall p x, frames c !! p = Some x -> passed p = true -> accessed x <> 0) /\
      ((forall p, (p < n)%nat -> passed p = (ahead n h p <? ahead n h v)%nat) /\
       (exists x, frames c !! v = Some x /\ accessed x = 0) \/
       (forall p, (p < n)%nat -> passed p = true) /\ v = h)
  | PRA_LRU => first_min (frames c) v /\ c' = c
  | PRA_NFU => first_min (age <$> frames c) v /\ c' = set_frames (age <$> frames c) c
  end.

Lemma get_frame_Ret c i x : frames c !! i = Some x -> get_frame i c = Ret x c.
Proof. intros H. unfold get_frame. erewrite bind_Ret by reflexivity. by rewrite H. Qed.

Lemma put_frame_Ret c i f x :
  frames c !! i = Some x -> put_frame i f c = Ret tt (set_frames (<[i:=f x]> (frames c)) c).
Proof. intros H. unfold put_frame. by erewrite bind_Ret by (by apply get_frame_Ret). Qed.

Lemma fifo_select_spec c :
  pra_wf c -> exists v c', fifo_select c = Ret (Some v) c' /\ v = default 0%nat (fifo_head c) /\
    c' = set_fifo_head (if decide (v + 1 < length (frames c))%nat then Some (v + 1)%nat else None) c.
Proof.
  intros [Hn Hr _ Hh Hx]. exists (default 0%nat (fifo_head c)).
  assert (exists x, frames c !! default 0%nat (fifo_head c) = Some x) as [x Hl].
  { apply lookup_lt_is_Some. destruct (fifo_head c); simpl; lia. }
  eexists. split; [|split; reflexivity]. unfold fifo_select.
  do 2 erewrite bind_Ret by reflexivity. erewrite bind_Ret by reflexivity. simpl fifo_head.
  assert (forall h : ptr, match h with Some _ => h | None => Some 0%nat end = Some (default 0%nat h)) as Hd
    by (by intros []).
  rewrite Hd. erewrite bind_Ret by reflexivity.
  erewrite bind_Ret by (by apply get_frame_Ret). by rewrite (Hx _ _ Hl).
Qed.

Lemma lookup_clear f fs p :
  clear_where f fs !! p = (fun x => if f p then set_accessed 0 x else x) <$> fs !! p.
Proof. unfold clear_where. by rewrite list_lookup_imap. Qed.

(** One step of the hand past an accessed frame. *)
Lemma clock_step c fuel x :
  pra_wf c -> frames c !! Z.to_nat (clock_hand c) = Some x -> accessed x <> 0 ->
  clock_select (S fuel) c =
  clock_select fuel (set_frames (<[Z.to_nat (clock_hand c):=set_accessed 0 x]> (frames c))
                       (set_clock_hand ((clock_hand c + 1) mod frame_count c) c)).
Proof.
  intros [Hn Hr Hh _ _] Hl Ha. simpl. erewrite bind_Ret by reflexivity.
  erewrite bind_Ret by (by apply get_frame_Ret). erewrite bind_Ret by reflexivity.
  rewrite (proj2 (Z.eqb_neq _ _)) by done. erewrite bind_Ret by (by apply put_frame_Ret).
  by rewrite u32_small by lia.
Qed.

Lemma clock_stop c fuel x :
  pra_wf c -> frames c !! Z.to_nat (clock_hand c) = Some x -> accessed x = 0 ->
  clock_select (S fuel) c =
  Ret (Some (Z.to_nat (clock_hand c))) (set_clock_hand ((clock_hand c + 1) mod frame_count c) c).
Proof.
  intros [Hn Hr Hh _ _] Hl Ha. simpl. erewrite bind_Ret by reflexivity.
  erewrite bind_Ret by (by apply get_frame_Ret). erewrite bind_Ret by reflexivity.
  rewrite Ha. simpl. by rewrite u32_small by lia.
Qed.

Lemma pra_wf_keep c c' :
  pra_wf c -> length (frames c') = length (frames c) ->
  (forall i x', frames c' !! i = Some x' -> exists x, frames c !! i = Some x /\ pf_next x' = pf_next x) ->
  frame_count c' = frame_count c -> 0 <= clock_hand c' < frame_count c -> fifo_head c' = fifo_head c ->
  pra_wf c'.
Proof.
  intros [Hn Hr Hh Hf Hx] Hl Hlx Hc Hh' Hf'. split; rewrite ?Hc, ?Hl, ?Hf'; try done.
  intros i x' Hi. destruct (Hlx i x' Hi) as (x & Hi' & ->). by apply Hx.
Qed.

Lemma insert_next (fs : list page_frame_t) (i : nat) f x (Hf : pf_next (f x) = pf_next x) :
  fs !! i = Some x -> forall (j : nat) y', <[i:=f x]> fs !! j = Some y' ->
  exists y : page_frame_t, fs !! j = Some y /\ pf_next y' = pf_next y.
Proof.
  intros Hi j y' Hj. apply list_lookup_insert_Some in Hj as [(-> & <- & _)|[_ Hj]]; eauto.
Qed.

Lemma next_hand n h : 0 <= h < n -> (h + 1) mod n = if decide (h + 1 < n) then h + 1 else 0.
Proof.
  intros H. case_decide; [by rewrite Z.mod_small by lia|].
  replace (h + 1) with n by lia. apply Z.mod_same. lia.
Qed.

Lemma clear_none f fs : (forall p, (p < length fs)%nat -> f p = false) -> clear_where f fs = fs.
Proof.
  intros H. apply list_eq. intros p. rewrite lookup_clear. destruct (fs !! p) eqn:E; [|done].
  simpl. by rewrite H by (by eapply lookup_lt_Some).
Qed.

Lemma clear_step f f' fs h x :
  fs !! h = Some x -> f h = true -> (forall p, (p < length fs)%nat -> p <> h -> f' p = f p) ->
  clear_where f' (<[h:=set_accessed 0 x]> fs) = clear_where f fs.
Proof.
  intros Hx Hh Hf. apply list_eq. intros p. rewrite !lookup_clear.
  destruct (decide (p = h)) as [->|Hp].
  - rewrite list_lookup_insert_eq by (by eapply lookup_lt_Some). rewrite Hx. simpl. rewrite Hh. by destruct (f' h).
  - rewrite list_lookup_insert_ne by done. destruct (fs !! p) eqn:E; [|done]. simpl.
    by rewrite Hf by (done || by eapply lookup_lt_Some).
Qed.

Lemma ahead_next n h h' p :
  (h < n)%nat -> (p < n)%nat -> p <> h -> h' = (if decide (h + 1 < n)%nat then h + 1 else 0)%nat ->
  ahead n h' p = (ahead n h p - 1)%nat /\ (0 < ahead n h p)%nat.
Proof. intros Hh Hp Hph ->. unfold ahead. case_decide; repeat case_match; rewrite ?Nat.leb_le, ?Nat.leb_gt in *; lia. Qed.

(** The victim is [j] frames ahead of the hand. *)
Lemma clock_near j : forall c fuel v x,
  pra_wf c -> let n := length (frames c) in let h := Z.to_nat (clock_hand c) in
  frames c !! v = Some x -> accessed x = 0 -> ahead n h v = j ->
  (forall p y, frames c !! p = Some y -> (ahead n h p < j)%nat -> accessed y <> 0) ->
  (j < fuel)%nat ->
  clock_select fuel c = Ret (Some v)
    (set_clock_hand (Z.of_nat (v + 1) mod Z.of_nat n)
       (set_frames (clear_where (fun p => ahead n h p <? j)%nat (frames c)) c)).
Proof.
  induction j as [|j IH]; intros c fuel v x Hwf n h Hv Hx Hj Hbefore Hfuel; (destruct fuel as [|fuel]; [lia|]);
    pose proof Hwf as [Hn Hr Hh _ _]; fold n in Hn; pose proof (lookup_lt_Some _ _ _ Hv) as Hvn; fold n in Hvn;
    assert (Z.of_nat h = clock_hand c) as Hzh by (unfold h; lia).
  - assert (v = h) as -> by (unfold ahead in Hj; destruct (Nat.leb_spec h v); lia).
    rewrite (clock_stop c fuel x) by done. fold h. rewrite clear_none by done.
    rewrite <- Hn. replace (Z.of_nat (h + 1)) with (clock_hand c + 1) by lia. by destruct c.
  - assert (h < n)%nat as Hhn by lia. destruct (lookup_lt_is_Some_2 _ _ Hhn) as [y Hy].
    assert (accessed y <> 0) as Hya
      by (apply (Hbefore h y); [done|unfold ahead; rewrite Nat.leb_refl; lia]).
    rewrite (clock_step c fuel y) by done. fold h. rewrite next_hand by done. set (c1 := set_frames _ _).
    assert (length (frames c1) = n) as Hn1 by (simpl; by rewrite length_insert).
    assert (Hahead : forall p, (p < n)%nat -> p <> h ->
              ahead n (Z.to_nat (clock_hand c1)) p = (ahead n h p - 1)%nat /\ (0 < ahead n h p)%nat).
    { intros p Hp Hph. apply ahead_next; try done. simpl. repeat case_decide; lia. }
    assert (v <> h) as Hvh by (intros ->; unfold ahead in Hj; rewrite Nat.leb_refl in Hj; lia).
    pose proof (IH c1 fuel v x) as IH'. cbv zeta in IH'. rewrite Hn1 in IH'. rewrite IH'; clear IH'.
    + assert (clear_where (fun p => ahead n (Z.to_nat (clock_hand c1)) p <? j)%nat (frames c1)
              = clear_where (fun p => ahead n h p <? S j)%nat (frames c)) as HF.
      { apply clear_step; [done|unfold ahead; by rewrite Nat.leb_refl, Nat.sub_diag|].
        intros p Hp Hph. destruct (Hahead p Hp Hph) as [-> Hp0].
        destruct (Nat.ltb_spec (ahead n h p - 1) j), (Nat.ltb_spec (ahead n h p) (S j)); lia. }
      by rewrite HF.
    + eapply (pra_wf_keep c); simpl; try done; [|case_decide; lia].
      by apply (insert_next _ _ (set_accessed 0)).
    + simpl. by rewrite list_lookup_insert_ne.
    + done.
    + destruct (Hahead v Hvn Hvh). lia.
    + intros p z Hz Hpj. simpl in Hz. apply list_lookup_insert_Some in Hz as [(<- & <- & _)|[Hph Hz]].
      * exfalso. revert Hpj. unfold ahead in *. simpl. case_decide; repeat case_match; rewrite ?Nat.leb_le, ?Nat.leb_gt in *; lia.
      * pose proof (lookup_lt_Some _ _ _ Hz) as Hpn. destruct (Hahead p Hpn (not_eq_sym Hph)).
        apply (Hbefore p z Hz). lia.
    + lia.
Qed.

Lemma clear_where_ext f g fs :
  (forall p, (p < length fs)%nat -> f p = g p) -> clear_where f fs = clear_where g fs.
Proof.
  intros H. apply list_eq. intros p. rewrite !lookup_clear. destruct (fs !! p) eqn:E; [|done].
  simpl. by rewrite H by (by eapply lookup_lt_Some).
Qed.

(** With more fuel than frames the clock always finds a victim. *)
Lemma clock_select_spec c fuel :
  pra_wf c -> (length (frames c) < fuel)%nat -> pra_type c = PRA_CLOCK ->
  exists v c', clock_select fuel c = Ret (Some v) c' /\ chooses c v c' /\ (v < length (frames c))%nat.
Proof.
  intros Hwf Hfuel Hty. unfold chooses. rewrite Hty. pose proof Hwf as [Hn Hr Hh _ _].
  set (n := length (frames c)) in *. set (h := Z.to_nat (clock_hand c)).
  assert (h < n)%nat as Hhn by (unfold h; lia).
  assert (Hex : forall j, (j <= n)%nat ->
            (forall p y, frames c !! p = Some y -> (ahead n h p < j)%nat -> accessed y <> 0) \/
            exists v x, frames c !! v = Some x /\ accessed x = 0 /\ (ahead n h v < j)%nat /\
              forall p y, frames c !! p = Some y -> (ahead n h p < ahead n h v)%nat -> accessed y <> 0).
  { induction j as [|j IH]; intros Hj; [left; lia|].
    destruct IH as [Hall|(v & x & ? & ? & ? & ?)]; [lia| |right; exists v, x; split_and!; done || lia].
    set (v := (if decide (h + j < n) then h + j else h + j - n)%nat).
    assert (v < n)%nat as Hv by (unfold v; case_decide; lia).
    assert (ahead n h v = j) as Hav
      by (unfold ahead, v; case_decide; case_match; rewrite ?Nat.leb_le, ?Nat.leb_gt in *; lia).
    destruct (lookup_lt_is_Some_2 _ _ Hv) as [x Hx]. destruct (decide (accessed x = 0)) as [H0|H0].
    - right. exists v, x. rewrite Hav. split_and!; done || lia.
    - left. intros p y Hy Hp. destruct (decide (ahead n h p < j)%nat) as [Hlt|Hge]; [by eapply Hall|].
      pose proof (lookup_lt_Some _ _ _ Hy) as Hpn. fold n in Hpn.
      assert (p = v) as ->; [|by simplify_eq].
      unfold ahead in *. repeat case_match; rewrite ?Nat.leb_le, ?Nat.leb_gt in *; lia. }
  destruct (Hex n) as [Hall|(v & x & Hv & Hx & Hav & Hbefore)]; [lia| |].
  - assert (forall p y, frames c !! p = Some y -> accessed y <> 0) as Hacc.
    { intros p y Hy. eapply Hall; [exact Hy|]. pose proof (lookup_lt_Some _ _ _ Hy) as Hp. fold n in Hp.
      unfold ahead. case_match; rewrite ?Nat.leb_le, ?Nat.leb_gt in *; lia. }
    destruct (lookup_lt_is_Some_2 _ _ Hhn) as [y Hy]. destruct fuel as [|fuel]; [lia|].
    rewrite (clock_step c fuel y) by (done || by eapply Hacc). fold h. rewrite next_hand by done.
    set (c1 := set_frames _ _).
    assert (Hn1 : length (frames c1) = n) by (simpl; by rewrite length_insert).
    pose proof (clock_near (n - 1) c1 fuel h (set_accessed 0 y)) as Hnear. cbv zeta in Hnear.
    rewrite Hn1 in Hnear. exists h. eexists. rewrite Hnear; clear Hnear.
    + split; [reflexivity|]. split; [|done]. exists (fun _ => true). split; [|split].
      * rewrite <- (clear_step (fun _ => true) (fun p => ahead n (Z.to_nat (clock_hand c1)) p <? n - 1)%nat _ h y);
          [done|done|done|].
        intros p Hp Hph. apply Nat.ltb_lt. fold n in Hp.
        destruct (ahead_next n h (Z.to_nat (clock_hand c1)) p Hhn Hp Hph);
          [simpl; repeat case_decide; lia|].
        assert (ahead n h p < n)%nat
          by (unfold ahead; case_match; rewrite ?Nat.leb_le, ?Nat.leb_gt in *; lia). lia.
      * intros p x Hx _. by eapply Hacc.
      * by right.
    + eapply (pra_wf_keep c); simpl; try done; [|case_decide; lia]. by apply (insert_next _ _ (set_accessed 0)).
    + simpl. by apply list_lookup_insert_eq.
    + done.
    + simpl. unfold ahead. case_decide; case_match; rewrite ?Nat.leb_le, ?Nat.leb_gt in *; lia.
    + intros p z Hz Hpj. simpl in Hz. apply list_lookup_insert_Some in Hz as [(<- & <- & _)|[Hph Hz]].
      * exfalso. revert Hpj. unfold ahead. simpl.
        case_decide; case_match; rewrite ?Nat.leb_le, ?Nat.leb_gt in *; lia.
      * by eapply Hacc.
    + lia.
  - exists v. eexists. split; [apply (clock_near (ahead n h v) c fuel v x); done || lia|].
    pose proof (lookup_lt_Some _ _ _ Hv) as Hvn. split; [|done].
    exists (fun p => ahead n h p <? ahead n h v)%nat. split; [done|]. split.
    + intros p y Hy Hp%Nat.ltb_lt. by eapply Hbefore.
    + left. split; [done|]. by exists x.
Qed.

(** ** The two scans *)
Lemma lru_scan_spec fs : forall i m v,
  (lru_scan i fs m v = v /\ forall y, y ∈ fs -> m <= reference y) \/
  exists k x, lru_scan i fs m v = Some (i + k)%nat /\ first_min fs k /\ fs !! k = Some x /\ reference x < m.
Proof.
  induction fs as [|x fs IH]; intros i m v; simpl.
  - left. split; [done|]. by intros y ?%not_elem_of_nil.
  - destruct (Z.ltb_spec (reference x) m) as [Hlt|Hge].
    + right. destruct (IH (S i) (reference x) (Some i)) as [[-> Hall]|(k & y & -> & (y' & Hy' & Hmin) & Hy & Hlt')].
      * exists 0%nat, x. rewrite Nat.add_0_r. split_and!; try done. exists x. split; [done|].
        intros [|p] y Hp; simpl in Hp; [simplify_eq; lia|]. split; [|lia]. apply Hall. by eapply list_elem_of_lookup_2.
      * exists (S k), y. simplify_eq. rewrite Nat.add_succ_r. split_and!; try done; [|lia]. exists y'. split; [done|].
        intros [|p] z Hp; simpl in Hp; [simplify_eq; lia|]. destruct (Hmin p z Hp). split; [done|]. intros. by apply H0; lia.
    + destruct (IH (S i) m v) as [[-> Hall]|(k & y & -> & (y' & Hy' & Hmin) & Hy & Hlt')].
      * left. split; [done|]. intros y [->|Hy]%elem_of_cons; [done|by apply Hall].
      * right. exists (S k), y. simplify_eq. rewrite Nat.add_succ_r. split_and!; try done. exists y'. split; [done|].
        intros [|p] z Hp; simpl in Hp; [simplify_eq; lia|]. destruct (Hmin p z Hp). split; [done|]. intros. by apply H0; lia.
Qed.

Lemma nfu_scan_lru fs : forall i m v,
  nfu_scan i fs m v = (age <$> fs, lru_scan i (age <$> fs) m v).
Proof.
  induction fs as [|x fs IH]; intros i m v; [done|]. simpl.
  destruct (Z.shiftr (reference x) 1 <? m); by rewrite IH.
Qed.

(** The counts are 32-bit, and for [PRA_LRU] some count is below the maximum. *)
Definition refs_ok (c : pra_context_t) : Prop :=
  (forall x, x ∈ frames c -> 0 <= reference x <= UINT32_MAX) /\
  (pra_type c = PRA_LRU -> exists x, x ∈ frames c /\ reference x < UINT32_MAX).

Lemma select_victim_spec c fuel :
  pra_wf c -> refs_ok c -> (length (frames c) < fuel)%nat ->
  exists v c', select_victim fuel c = Ret (Some v) c' /\ chooses c v c' /\ (v < length (frames c))%nat.
Proof.
  intros Hwf [Hrefs Hlru] Hfuel. unfold select_victim. erewrite bind_Ret by reflexivity.
  destruct (pra_type c) eqn:Ety.
  - destruct (fifo_select_spec c Hwf) as (v & c' & -> & Hv & Hc'). exists v, c'.
    unfold chooses. rewrite Ety. split_and!; try done. destruct Hwf as [Hn Hr _ Hh _].
    rewrite Hv. destruct (fifo_head c); simpl; lia.
  - by apply clock_select_spec.
  - unfold lru_select. erewrite bind_Ret by reflexivity.
    destruct (lru_scan_spec (frames c) 0 UINT32_MAX None) as [[_ Hall]|(k & x & -> & Hk & Hx & _)].
    + destruct Hlru as (x & Hx & Hlt); [done|]. specialize (Hall x Hx). lia.
    + exists k, c. unfold chooses. rewrite Ety. split_and!; try done. by eapply lookup_lt_Some.
  - unfold nfu_select. erewrite bind_Ret by reflexivity. cbv zeta. rewrite nfu_scan_lru.
    destruct (lru_scan_spec (age <$> frames c) 0 UINT32_MAX None) as [[_ Hall]|(k & x & Hs & Hk & Hx & _)].
    + destruct Hwf as [Hn Hr _ _ _]. destruct (frames c) as [|x fs] eqn:Ef; [simpl in Hn; lia|].
      specialize (Hrefs x (list_elem_of_here _ _)). specialize (Hall (age x) (list_elem_of_here _ _)). simpl in Hall.
      rewrite Z.shiftr_div_pow2 in Hall by lia. unfold UINT32_MAX in *. change (2 ^ 1) with 2 in Hall.
      pose proof (Z.div_lt_upper_bound (reference x) 2 4294967295). lia.
    + exists k. eexists. split; [|split].
      * erewrite bind_Ret by reflexivity. simpl. by rewrite Hs.
      * unfold chooses. rewrite Ety. by split.
      * apply lookup_lt_Some in Hx. by rewrite length_fmap in Hx.
Qed.

(** Choosing a victim touches neither the addresses nor the dirty marks. *)
Lemma chooses_frame c v c' i x :
  chooses c v c' -> frames c !! i = Some x ->
  exists x', frames c' !! i = Some x' /\ vaddr x' = vaddr x /\ dirty x' = dirty x /\ pf_next x' = pf_next x.
Proof.
  unfold chooses. intros H Hi. destruct (pra_type c).
  - destruct H as [_ ->]. by exists x.
  - destruct H as (passed & -> & _). simpl. rewrite lookup_clear, Hi. simpl. eexists. split; [done|].
    by destruct (passed i).
  - destruct H as [_ ->]. by exists x.
  - destruct H as [_ ->]. simpl. rewrite list_lookup_fmap, Hi. simpl. by eexists.
Qed.

Lemma chooses_length c v c' : chooses c v c' -> length (frames c') = length (frames c).
Proof.
  unfold chooses. destruct (pra_type c); [by intros [_ ->]| |by intros [_ ->]|].
  - intros (f & -> & _). apply length_imap.
  - intros [_ ->]. apply length_fmap.
Qed.

Lemma in_ctx_Ret {Y A} (c : Cmd pra_context_t A) s s' a (y : Y) :
  c s = Ret a s' -> in_ctx c (s, y) = Ret a (s', y).
Proof. intros H. unfold in_ctx. by apply (zoom_Ret ctx_lens). Qed.

Lemma find_vaddr_Some a fs i :
  find_vaddr a fs = Some i -> exists x, fs !! i = Some x /\ vaddr x = a.
Proof.
  unfold find_vaddr. destruct (list_find _ fs) as [[j x]|] eqn:E; [|done].
  intros [= <-]. apply list_find_Some in E as (? & ? & _). by exists x.
Qed.

Lemma find_vaddr_None a fs x : find_vaddr a fs = None -> x ∈ fs -> vaddr x <> a.
Proof.
  unfold find_vaddr. destruct (list_find _ fs) as [[j y]|] eqn:E; [done|].
  apply list_find_None in E. intros _ Hx. by eapply Forall_forall in E.
Qed.

(** Statistics after a fault, a page written back and a page replaced. *)
Definition faulted (c : pra_context_t) : pra_context_t :=
  set_stats (set_page_faults (u32 (page_faults (stats c) + 1)) (stats c)) c.
Definition replaced (out : bool) (c : pra_context_t) : pra_context_t :=
  let st := if out then set_page_outs (u32 (page_outs (stats c) + 1)) (stats c) else stats c in
  set_stats (set_replaced_pages (u32 (replaced_pages st + 1)) st) c.
(** The page [p] put in frame [v]. *)
Definition installed (v : nat) (p : Z) (c : pra_context_t) : pra_context_t :=
  set_stats (set_page_ins (u32 (page_ins (stats c) + 1)) (stats c))
    (set_frames (alter (fresh_frame p) v (frames c)) c).

Lemma install_spec {Y} (v : nat) (p : Z) c (y : Y) :
  (v < length (frames c))%nat ->
  (in_ctx (put_frame v (fresh_frame p)) ;;; in_ctx bump_ins ;;; ret p) (c, y) = Ret p (installed v p c, y).
Proof.
  intros Hv. destruct (lookup_lt_is_Some_2 _ _ Hv) as [x Hx].
  erewrite bind_Ret by (by apply in_ctx_Ret, put_frame_Ret). erewrite bind_Ret by (by apply in_ctx_Ret).
  unfold ret, installed. f_equal. f_equal. f_equal. f_equal. apply list_eq. intros j.
  destruct (decide (j = v)) as [->|Hj].
  - by rewrite list_lookup_insert_eq, list_lookup_alter_eq, Hx.
  - by rewrite list_lookup_insert_ne, list_lookup_alter_ne.
Qed.

Section Properties.
Context {Y : Type} (ops : page_ops Y).

(** What [pra_alloc_page] does once a frame is known: bring a page in. *)
Definition bring_in (v : nat) (s : pra_context_t * Y) : Z * (pra_context_t * Y) :=
  let '(p, y') := mm_alloc_pages ops 1 (snd s) in
  if p =? 0 then (0, (fst s, y')) else (p, (installed v p (fst s), y')).

(** The same when frame [v], holding [x], must be given up first. *)
Definition evict (v : nat) (x : page_frame_t) (s : pra_context_t * Y) : Z * (pra_context_t * Y) :=
  let '(sw, y1) := if dirty x =? 0 then (1, snd s) else swap_out ops (vaddr x) (snd s) in
  if sw =? 0 then (0, (fst s, y1))
  else bring_in v (replaced (negb (dirty x =? 0)) (fst s), mmu_unmap_page ops (vaddr x) y1).

Definition returns {S A} (r : A * S) : prog S A := Ret (fst r) (snd r).

Lemma bring_in_spec (v : nat) c y :
  (v < length (frames c))%nat ->
  (let* page := call (mm_alloc_pages ops 1) in
   if page =? 0 then ret 0 else
   in_ctx (put_frame v (fresh_frame page)) ;;; in_ctx bump_ins ;;; ret page) (c, y)
  = returns (bring_in v (c, y)).
Proof.
  intros Hv. unfold bring_in. simpl. destruct (mm_alloc_pages ops 1 y) as [p y'] eqn:E.
  erewrite bind_Ret by (unfold call; simpl; rewrite E; reflexivity). simpl.
  destruct (p =? 0); [done|]. by apply install_spec.
Qed.

Lemma replace_page_spec fuel c y :
  pra_wf c -> refs_ok c -> (length (frames c) < fuel)%nat ->
  exists v x c1, frames c !! v = Some x /\ chooses (faulted c) v c1 /\
    replace_page ops fuel (c, y) =
    let '(sw, y1) := if dirty x =? 0 then (1, y) else swap_out ops (vaddr x) y in
    if sw =? 0 then Ret None (c1, y1)
    else Ret (Some v) (replaced (negb (dirty x =? 0)) c1, mmu_unmap_page ops (vaddr x) y1).
Proof.
  intros Hwf Hrefs Hfuel.
  destruct (select_victim_spec (faulted c) fuel) as (v & c1 & Hs & Hch & Hv); [by destruct Hwf|done|done|].
  destruct (lookup_lt_is_Some_2 _ _ Hv) as [x Hx]. exists v, x, c1. split; [done|]. split; [done|].
  destruct (chooses_frame _ _ _ _ _ Hch Hx) as (x' & Hx' & <- & <- & _).
  unfold replace_page. erewrite bind_Ret by (by apply in_ctx_Ret).
  erewrite bind_Ret by (apply in_ctx_Ret; exact Hs). erewrite bind_Ret by reflexivity.
  erewrite bind_Ret by (by apply in_ctx_Ret, get_frame_Ret).
  destruct (dirty x' =? 0); [by erewrite bind_Ret by reflexivity|].
  destruct (swap_out ops (vaddr x') y) as [sw y1] eqn:E.
  assert (Hc : call (swap_out ops (vaddr x')) (c1, y) = Ret sw (c1, y1)) by (unfold call; simpl; by rewrite E).
  destruct (sw =? 0) eqn:Es; (erewrite bind_Ret; [|erewrite bind_Ret by exact Hc; rewrite Es; reflexivity]); done.
Qed.

Lemma pra_alloc_body_spec fuel c y :
  pra_wf c -> refs_ok c -> (length (frames c) < fuel)%nat ->
  match find_vaddr 0 (frames c) with
  | Some v => pra_alloc_body ops fuel (c, y) = returns (bring_in v (c, y))
  | None => exists v x c1, frames c !! v = Some x /\ chooses (faulted c) v c1 /\
      pra_alloc_body ops fuel (c, y) = returns (evict v x (c1, y))
  end.
Proof.
  intros Hwf Hrefs Hfuel. unfold pra_alloc_body. erewrite bind_Ret by (by apply in_ctx_Ret).
  destruct (find_vaddr 0 (frames c)) as [v|] eqn:Ef.
  - erewrite bind_Ret by reflexivity. apply bring_in_spec.
    apply find_vaddr_Some in Ef as (x & Hx & _). by eapply lookup_lt_Some.
  - destruct (replace_page_spec fuel c y Hwf Hrefs Hfuel) as (v & x & c1 & Hx & Hch & Hr).
    exists v, x, c1. split; [done|]. split; [done|]. unfold evict. cbn [fst snd].
    destruct (if dirty x =? 0 then _ else _) as [sw y1].
    destruct (sw =? 0); erewrite bind_Ret by exact Hr; [done|]. apply bring_in_spec.
    simpl. rewrite (chooses_length _ _ _ Hch). by eapply lookup_lt_Some.
Qed.
End Properties.

(** [pra_alloc_page] replaces the page its policy means.  On every
    well-formed table, with the lock free: while some frame is unused, the first
    such frame takes the new page; otherwise the frame [v] given up is
    - for [PRA_FIFO] the frames in turn;
    - for [PRA_CLOCK] the first frame not accessed since the hand passed it, the
      marks of the frames passed being cleared (after a full turn, the first);
    - for [PRA_LRU] the first frame with the least count, for [PRA_NFU] the same
      after all counts are halved.
    The page in it is written back when dirty, unmapped, and counted; the call
    returns NULL exactly when the page cannot be written back or there is no new
    page.  With more fuel than frames the choice always ends. *)
Theorem pra_alloc_policy {Y} (ops : page_ops Y) (fuel : nat) (k : kern) (m : mutex_t) (c : pra_context_t) (y : Y)
    (Hwf : pra_wf c) (Hrefs : refs_ok c) (Hfuel : (length (frames c) < fuel)%nat)
    (Hfree : locked m = 0 /\ waiting_tasks m = None) :
  match find_vaddr 0 (frames c) with
  | Some v => pra_alloc_page ops fuel (k, (m, (c, y)))
              = Ret (fst (bring_in ops v (c, y))) (irq_enabled k, (released m, snd (bring_in ops v (c, y))))
  | None => exists v x c1, frames c !! v = Some x /\ chooses (faulted c) v c1 /\
      pra_alloc_page ops fuel (k, (m, (c, y)))
      = Ret (fst (evict ops v x (c1, y))) (irq_enabled k, (released m, snd (evict ops v x (c1, y))))
  end.
Proof.
  destruct Hfree as [Hl Hw]. pose proof (pra_alloc_body_spec ops fuel c y Hwf Hrefs Hfuel) as H.
  destruct (find_vaddr 0 (frames c)).
  - by apply guarded_free.
  - destruct H as (v & x & c1 & Hx & Hch & H). exists v, x, c1. split; [done|]. split; [done|].
    by apply guarded_free.
Qed.

(** ** One page per frame *)

(** What the page allocator promises: [owns y] are the pages it has handed out. *)
Record page_laws {Y} (ops : page_ops Y) (owns : Y -> gset Z) : Prop := {
  pl_alloc : forall y, let r := mm_alloc_pages ops 1 y in
    0 <= fst r < 4294967296 /\
    if decide (fst r = 0) then owns (snd r) = owns y
    else (fst r ∉ owns y) /\ owns (snd r) = {[fst r]} ∪ owns y;
  pl_free : forall a y, owns (mm_free_pages ops a 1 y) = owns y ∖ {[a]};
  pl_swap : forall a y, owns (snd (swap_out ops a y)) = owns y;
  pl_unmap : forall a y, owns (mmu_unmap_page ops a y) = owns y
}.

(** Every used frame has a page the allocator handed out, and no other frame has
    it. *)
Definition pages_ok {Y} (owns : Y -> gset Z) (s : pra_context_t * Y) : Prop :=
  (forall x, x ∈ frames (fst s) -> vaddr x <> 0 -> vaddr x ∈ owns (snd s)) /\
  (forall i j x x', frames (fst s) !! i = Some x -> frames (fst s) !! j = Some x' ->
     vaddr x = vaddr x' -> vaddr x <> 0 -> i = j).

Section Distinct.
Context {Y : Type} (ops : page_ops Y) (owns : Y -> gset Z) (Hlaws : page_laws ops owns).

Lemma pages_ok_same c c' y y' :
  owns y' = owns y ->
  (forall i x', frames c' !! i = Some x' -> exists x, frames c !! i = Some x /\ vaddr x = vaddr x') ->
  pages_ok owns (c, y) -> pages_ok owns (c', y').
Proof.
  intros Ho Hf [H1 H2]. simpl in *. split; simpl.
  - intros x' Hx' Hv. apply list_elem_of_lookup in Hx' as [i Hi]. destruct (Hf i x' Hi) as (x & Hx & Heq).
    rewrite Ho, <- Heq. apply H1; [by eapply list_elem_of_lookup_2|by rewrite Heq].
  - intros i j x1 x2 Hi Hj Heq Hv. destruct (Hf i x1 Hi) as (y1 & Hy1 & E1), (Hf j x2 Hj) as (y2 & Hy2 & E2).
    apply (H2 i j y1 y2); try done; congruence.
Qed.

Lemma chooses_back c v c' i x' :
  chooses c v c' -> frames c' !! i = Some x' -> exists x, frames c !! i = Some x /\ vaddr x = vaddr x'.
Proof.
  intros Hch Hi. pose proof (lookup_lt_Some _ _ _ Hi) as Hl. rewrite (chooses_length _ _ _ Hch) in Hl.
  destruct (lookup_lt_is_Some_2 _ _ Hl) as [x Hx]. exists x. split; [done|].
  destruct (chooses_frame _ _ _ _ _ Hch Hx) as (x2 & Hx2 & Hv & _). by simplify_eq.
Qed.

Lemma bring_in_pages v c y :
  pages_ok owns (c, y) -> pages_ok owns (snd (bring_in ops v (c, y))).
Proof using Hlaws.
  intros [H1 H2]. simpl in *. unfold bring_in. simpl. destruct (pl_alloc _ _ Hlaws y) as [Hr Ho].
  destruct (mm_alloc_pages ops 1 y) as [p y']. simpl in *. destruct (Z.eqb_spec p 0) as [->|Hp].
  - apply (pages_ok_same c c y y'); [done|eauto|done].
  - rewrite decide_False in Ho by done. destruct Ho as [Hnew Ho].
    assert (Hlook : forall i x', alter (fresh_frame p) v (frames c) !! i = Some x' ->
              vaddr x' = p /\ i = v \/ i <> v /\ frames c !! i = Some x').
    { intros i x' Hi. destruct (decide (i = v)) as [->|Hiv].
      - rewrite list_lookup_alter_eq in Hi. apply fmap_Some in Hi as (x & _ & ->). left. simpl.
        by rewrite u32_small.
      - rewrite list_lookup_alter_ne in Hi by done. by right. }
    split; simpl.
    + intros x' Hx' Hv. apply list_elem_of_lookup in Hx' as [i Hi]. rewrite Ho.
      destruct (Hlook i x' Hi) as [[-> _]|[_ Hi']]; [set_solver|]. apply elem_of_union_r, H1; [|done].
      by eapply list_elem_of_lookup_2.
    + intros i j x1 x2 Hi Hj Heq Hv.
      destruct (Hlook i x1 Hi) as [[E1 ->]|[_ Hi']], (Hlook j x2 Hj) as [[E2 ->]|[_ Hj']]; [done| | |by eapply H2].
      * exfalso. apply Hnew. rewrite <- E1, Heq. apply H1; [by eapply list_elem_of_lookup_2|congruence].
      * exfalso. apply Hnew. rewrite <- E2, <- Heq. apply H1; [by eapply list_elem_of_lookup_2|congruence].
Qed.

Lemma evict_pages v x c y : pages_ok owns (c, y) -> pages_ok owns (snd (evict ops v x (c, y))).
Proof using Hlaws.
  intros H. unfold evict. cbn [fst snd].
  assert (Hs : forall sw y1, (if dirty x =? 0 then (1, y) else swap_out ops (vaddr x) y) = (sw, y1) -> owns y1 = owns y).
  { intros sw y1. destruct (dirty x =? 0); [by intros [= _ <-]|]. intros E.
    by rewrite <- (pl_swap _ _ Hlaws (vaddr x) y), E. }
  destruct (if dirty x =? 0 then _ else _) as [sw y1]. specialize (Hs sw y1 eq_refl).
  destruct (sw =? 0).
  - simpl. apply (pages_ok_same c c y y1); [done|eauto|done].
  - apply bring_in_pages. apply (pages_ok_same c _ y _); [by rewrite (pl_unmap _ _ Hlaws)| |done].
    simpl. eauto.
Qed.

Lemma pra_alloc_pages fuel c y :
  pra_wf c -> refs_ok c -> (length (frames c) < fuel)%nat -> pages_ok owns (c, y) ->
  exists p s', pra_alloc_body ops fuel (c, y) = Ret p s' /\ pages_ok owns s'.
Proof using Hlaws.
  intros Hwf Hr Hf Hp. pose proof (pra_alloc_body_spec ops fuel c y Hwf Hr Hf) as H.
  destruct (find_vaddr 0 (frames c)) as [v|].
  - rewrite H. eexists _, _. split; [reflexivity|]. by apply bring_in_pages.
  - destruct H as (v & x & c1 & Hx & Hch & ->). eexists _, _. split; [reflexivity|]. apply evict_pages.
    eapply pages_ok_same; [reflexivity| |exact Hp]. intros i x' Hi. exact (chooses_back _ _ _ _ _ Hch Hi).
Qed.

(** [find_vaddr] after the frame it found was cleared: no frame has the page. *)
Lemma pra_free_pages a c y :
  0 <= a < 4294967296 -> pages_ok owns (c, y) ->
  exists s', pra_free_body ops a (c, y) = Ret tt s' /\ pages_ok owns s'.
Proof using Hlaws.
  intros Ha [H1 H2]. unfold pra_free_body. rewrite u32_small by done.
  erewrite bind_Ret by (by apply in_ctx_Ret). destruct (find_vaddr a (frames c)) as [i|] eqn:Ef.
  2: { eexists. split; [reflexivity|]. by split. }
  apply find_vaddr_Some in Ef as (x & Hx & Hxa).
  erewrite bind_Ret by (by apply in_ctx_Ret, put_frame_Ret). eexists. split; [reflexivity|]. simpl in *.
  assert (Hlook : forall g j x', vaddr (g x) = 0 -> <[i := g x]> (frames c) !! j = Some x' -> vaddr x' <> 0 ->
            frames c !! j = Some x' /\ j <> i).
  { intros g j x' Hg Hj Hv. apply list_lookup_insert_Some in Hj as [(<- & <- & _)|[Hne Hj]]; [done|by split]. }
  split; simpl.
  - intros x' Hx' Hv. apply list_elem_of_lookup in Hx' as [j Hj].
    destruct (Hlook (fun x => set_reference 0 (set_dirty 0 (set_accessed 0 (set_vaddr 0 x)))) j x' eq_refl Hj Hv) as [Hj' Hne].
    rewrite (pl_free _ _ Hlaws). apply elem_of_difference. split; [apply H1; [by eapply list_elem_of_lookup_2|done]|].
    intros Heq%elem_of_singleton. apply Hne. apply (H2 j i x' x Hj' Hx); congruence.
  - intros j1 j2 x1 x2 Hj1 Hj2 Heq Hv.
    destruct (Hlook (fun x => set_reference 0 (set_dirty 0 (set_accessed 0 (set_vaddr 0 x)))) j1 x1 eq_refl Hj1 Hv) as [Hj1' _].
    destruct (Hlook (fun x => set_reference 0 (set_dirty 0 (set_accessed 0 (set_vaddr 0 x)))) j2 x2 eq_refl Hj2) as [Hj2' _]; [congruence|].
    by apply (H2 j1 j2 x1 x2).
Qed.

Lemma put_frame_same c i f x :
  frames c !! i = Some x -> vaddr (f x) = vaddr x ->
  forall j x', <[i := f x]> (frames c) !! j = Some x' -> exists x, frames c !! j = Some x /\ vaddr x = vaddr x'.
Proof.
  intros Hx Hf j x' Hj. apply list_lookup_insert_Some in Hj as [(<- & <- & _)|[Hne Hj]]; eauto.
Qed.

Lemma pra_access_pages a c y :
  pages_ok owns (c, y) -> exists s', pra_access_body a (c, y) = Ret tt s' /\ pages_ok owns s'.
Proof.
  intros Hp. unfold pra_access_body.
  erewrite bind_Ret by (by apply in_ctx_Ret). destruct (find_vaddr (u32 a) (frames c)) as [i|] eqn:Ef; [|by eexists].
  apply find_vaddr_Some in Ef as (x & Hx & _).
  erewrite bind_Ret by (by apply in_ctx_Ret, put_frame_Ret).
  set (c1 := set_frames _ c).
  assert (Hp1 : pages_ok owns (c1, y)).
  { eapply pages_ok_same; [reflexivity| |exact Hp]. by apply put_frame_same. }
  destruct (pra_type c); try by (eexists; split; [reflexivity|exact Hp1]).
  pose proof (list_lookup_insert_eq (frames c) i (set_reference (u32 (reference x + 1)) (set_accessed 1 x))
    (lookup_lt_Some _ _ _ Hx)) as Hx1.
  erewrite (in_ctx_Ret (put_frame i _) c1) by (by apply put_frame_Ret).
  eexists. split; [reflexivity|]. eapply pages_ok_same; [reflexivity| |exact Hp1].
  by apply put_frame_same.
Qed.
End Distinct.

(** No two frames ever hold the same page.  Whatever the other tasks do, as
    long as they keep the table well-formed with one page per frame, so does every
    call of [pra_alloc_page], [pra_free_page] and [pra_access_page]; the call ends,
    without a fault. *)
Theorem pra_pages_distinct {Y} (ops : page_ops Y) (owns : Y -> gset Z) (Hlaws : page_laws ops owns)
    (fuel i : nat) (a : Z) (Ha : 0 <= a < 4294967296) (s : kern * (mutex_t * (pra_context_t * Y)))
    (Inv := fun d => pra_wf (fst d) /\ refs_ok (fst d) /\ (length (frames (fst d)) < fuel)%nat /\ pages_ok owns d)
    (Hs : ready i s /\ data_ok Inv s) :
  let G := data_ok Inv in
  let R := fun s => ready i s /\ data_ok Inv s in
  always G R (fun _ => data_ok (pages_ok owns)) (pra_alloc_page ops fuel s) /\
  always G R (fun _ => data_ok (pages_ok owns)) (pra_free_page ops a s) /\
  always G R (fun _ => data_ok (pages_ok owns)) (pra_access_page a s).
Proof.
  destruct Hs as [Hr Hd]. cbv zeta.
  split; [|split]; (eapply always_mono; [|apply guarded_always; [done|done|]]).
  - intros p s' ([c y] & (Hwf & Href & Hf & Hp) & Hb).
    destruct (pra_alloc_pages ops owns Hlaws fuel c y Hwf Href Hf Hp) as (p' & d' & Hb' & Hp'). unfold data_ok. congruence.
  - intros [c y] (Hwf & Href & Hf & Hp).
    destruct (pra_alloc_pages ops owns Hlaws fuel c y Hwf Href Hf Hp) as (p' & d' & Hb' & _). eauto.
  - intros p s' ([c y] & (_ & _ & _ & Hp) & Hb).
    destruct (pra_free_pages ops owns Hlaws a c y Ha Hp) as (d' & Hb' & Hp'). unfold data_ok. congruence.
  - intros [c y] (_ & _ & _ & Hp). destruct (pra_free_pages ops owns Hlaws a c y Ha Hp) as (d' & Hb' & _). eauto.
  - intros p s' ([c y] & (_ & _ & _ & Hp) & Hb).
    destruct (pra_access_pages owns a c y Hp) as (d' & Hb' & Hp'). unfold data_ok. congruence.
  - intros [c y] (_ & _ & _ & Hp). destruct (pra_access_pages owns a c y Hp) as (d' & Hb' & _). eauto.
Qed.

(** ** Concrete runs *)

(** An allocator with one page. *)
Definition one_page : page_ops (gset Z) := {|
  swap_out := fun a y => (a, y);
  mmu_unmap_page := fun _ y => y;
  mm_alloc_pages := fun _ y => if decide (4096 ∈ y) then (0, y) else (4096, {[4096]} ∪ y);
  mm_free_pages := fun a _ y => y ∖ {[a]}
|}.

Lemma one_page_laws : page_laws one_page id.
Proof.
  split; try done. intros y. simpl. destruct (decide (4096 ∈ y)); simpl; (split; [lia|done]).
Qed.

(** A full table of two frames, the first accessed, with the hand on it. *)
Definition two_frames (t : pra_type_t) : pra_context_t := {|
  pra_type := t;
  frames := [{| vaddr := 8192; accessed := 1; dirty := 1; reference := 5; pf_next := Some 1%nat |};
             {| vaddr := 12288; accessed := 0; dirty := 0; reference := 9; pf_next := None |}];
  frame_count := 2; clock_hand := 0;
  stats := {| page_faults := 0; page_ins := 2; page_outs := 0; replaced_pages := 0 |}; fifo_head := None |}.

Lemma two_frames_wf t : pra_wf (two_frames t) /\ refs_ok (two_frames t).
Proof.
  split; split; simpl; try done.
  - by intros [|[|i]] x Hx; simplify_eq/=.
  - intros x Hx. unfold UINT32_MAX. apply elem_of_cons in Hx as [->|Hx]; [simpl; lia|].
    apply list_elem_of_singleton in Hx as ->. simpl. lia.
  - intros _. eexists. split; [apply list_elem_of_here|]. unfold UINT32_MAX. simpl. lia.
Qed.

Lemma two_frames_pages t : pages_ok id (two_frames t, {[8192; 12288]}).
Proof.
  split; simpl.
  - intros x [->|[->|[]%not_elem_of_nil]%elem_of_cons]%elem_of_cons _; set_solver.
  - by intros [|[|i]] [|[|j]] x x' ? ? ?; simplify_eq/=.
Qed.

(** The clock passes the accessed first frame and takes the second. *)
Lemma pra_alloc_policy_witness :
  exists s', pra_alloc_page one_page 3 (two_tasks 0, (mutex_init "pra_lock", (two_frames PRA_CLOCK, {[8192; 12288]})))
             = Ret 4096 s' /\ vaddr <$> frames (fst (snd (snd s'))) = [8192; 4096].
Proof.
  destruct (pra_alloc_policy one_page 3 (two_tasks 0) (mutex_init "pra_lock") (two_frames PRA_CLOCK) {[8192; 12288]}
    (proj1 (two_frames_wf PRA_CLOCK)) (proj2 (two_frames_wf PRA_CLOCK)) ltac:(simpl; lia) (conj eq_refl eq_refl))
    as (v & x & c1 & Hx & (passed & -> & Hpass & Hch) & Heq).
  assert (v = 1%nat) as ->.
  { destruct Hch as [[_ (y & Hy & Ha)]|[Hall _]].
    - destruct v as [|[|v]]; simpl in Hy; [|reflexivity|discriminate Hy]. injection Hy as <-. discriminate Ha.
    - exfalso. eapply (Hpass 1%nat); [reflexivity| |reflexivity]. apply Hall. simpl. lia. }
  simpl in Hx. injection Hx as <-. eexists. split; [exact Heq|]. vm_compute. by destruct (passed 0%nat).
Defined.

Lemma pra_pages_distinct_witness :
  let Inv := fun d => pra_wf (fst d) /\ refs_ok (fst d) /\ (length (frames (fst d)) < 3)%nat /\ pages_ok id d in
  always (data_ok Inv) (fun s => ready 0 s /\ data_ok Inv s) (fun _ => data_ok (pages_ok id))
    (pra_free_page one_page 8192 (two_tasks 0, (mutex_init "pra_lock", (two_frames PRA_NFU, {[8192; 12288]})))).
Proof.
  refine (proj1 (proj2 (pra_pages_distinct one_page id one_page_laws 3 0 8192 ltac:(lia) _ _))).
  split; [apply ready_two|]. split; [apply two_frames_wf|]. split; [apply two_frames_wf|].
  split; [simpl; lia|]. apply two_frames_pages.
Defined.
