(* ===== verification/MmAlloc.v ===== *)
(** * MmAlloc

    src/src/mm_alloc.c: the kernel's best-fit allocator, on byte-addressed memory.
    A block is a header (size, magic, is_free, next, prev: 20 bytes with the
    padding after the flag), the data and a 4-byte footer that points back to the
    header.  All blocks, free or not, are on one doubly linked list in the order
    of the splits.  [mm_alloc_pages] is not defined in the sources: it is an
    operation on a state of its own.  The walk of the list has a fuel argument;
    one more than the number of blocks is enough. *)
From stdpp Require Import strings.
From S2P Require Import Prelude Links Task WaitQueue Mutex Guarded Mem.

(** ** Data *)
Definition SIZE : Z := 0.
Definition MAGIC : Z := 4.
Definition IS_FREE : Z := 8.
Definition NEXT : Z := 12.
Definition PREV : Z := 16.
Definition HEADER : Z := 20.
Definition FOOTER : Z := 4.
Definition BLOCK_MAGIC : Z := 3735928559.
Definition MIN_BLOCK_SIZE : Z := HEADER + FOOTER + 16.
Definition PAGE_SIZE : Z := 4096.

Record mm_heap : Type := MmHeap { mm_mem : bytes; free_list : Z }.

Definition set_mm_mem (v : bytes) (x : mm_heap) : mm_heap := {| mm_mem := v; free_list := free_list x |}.
Definition set_free_list (v : Z) (x : mm_heap) : mm_heap := {| mm_mem := mm_mem x; free_list := v |}.

(** Reads and writes of fields. *)
Definition rd (a : Z) : Cmd mm_heap Z := gets (fun s => load32 (mm_mem s) a).
Definition wr (a v : Z) : Cmd mm_heap unit := modify (fun s => set_mm_mem (store32 (mm_mem s) a v) s).
Definition rd_flag (a : Z) : Cmd mm_heap bool := gets (fun s => negb (mm_mem s a =? 0)).
Definition wr_flag (a : Z) (b : bool) : Cmd mm_heap unit :=
  modify (fun s => set_mm_mem (store8 (mm_mem s) a (if b then 1 else 0)) s).

(** ** Operations *)
(** The first block, of 4 MiB, at [initial_heap]. *)
Definition init_block (initial_heap : Z) : Cmd mm_heap unit :=
  let size := 1024 * PAGE_SIZE - HEADER - FOOTER in
  wr (initial_heap + SIZE) size ;;;
  wr (initial_heap + MAGIC) BLOCK_MAGIC ;;;
  wr_flag (initial_heap + IS_FREE) true ;;;
  wr (initial_heap + NEXT) 0 ;;;
  wr (initial_heap + PREV) 0 ;;;
  wr (u32 (initial_heap + size + HEADER)) initial_heap ;;;
  modify (set_free_list initial_heap).

Definition split_block (block size : Z) : Cmd mm_heap unit :=
  let* bsize := rd (block + SIZE) in
  if MIN_BLOCK_SIZE <=? u32 (bsize - size) then
    let new_block := u32 (block + HEADER + size) in
    wr (new_block + SIZE) (u32 (bsize - size - HEADER - FOOTER)) ;;;
    wr (new_block + MAGIC) BLOCK_MAGIC ;;;
    wr_flag (new_block + IS_FREE) true ;;;
    let* nx := rd (block + NEXT) in
    wr (new_block + NEXT) nx ;;;
    wr (new_block + PREV) block ;;;
    let* nsize := rd (new_block + SIZE) in
    wr (u32 (new_block + nsize + HEADER)) new_block ;;;
    wr (block + SIZE) size ;;;
    wr (block + NEXT) new_block ;;;
    let* bsize' := rd (block + SIZE) in
    wr (u32 (block + bsize' + HEADER)) block ;;;
    let* nx' := rd (new_block + NEXT) in
    if nx' =? 0 then ret tt else wr (nx' + PREV) new_block
  else ret tt.

(** [coalesce] with the block after, and with the block before. *)
Definition coalesce_next (block : Z) : Cmd mm_heap unit :=
  let* nx := rd (block + NEXT) in
  if nx =? 0 then ret tt else
  let* fr := rd_flag (nx + IS_FREE) in
  if fr : bool then
    let* bsize := rd (block + SIZE) in
    let* nsize := rd (nx + SIZE) in
    wr (block + SIZE) (u32 (bsize + HEADER + FOOTER + nsize)) ;;;
    let* nn := rd (nx + NEXT) in
    wr (block + NEXT) nn ;;;
    (if nn =? 0 then ret tt else wr (nn + PREV) block) ;;;
    let* bsize' := rd (block + SIZE) in
    wr (u32 (block + bsize' + HEADER)) block
  else ret tt.

Definition coalesce_prev (block : Z) : Cmd mm_heap Z :=
  let* pv := rd (block + PREV) in
  if pv =? 0 then ret block else
  let* fr := rd_flag (pv + IS_FREE) in
  if fr : bool then
    let* psize := rd (pv + SIZE) in
    let* bsize := rd (block + SIZE) in
    wr (pv + SIZE) (u32 (psize + HEADER + FOOTER + bsize)) ;;;
    let* nx := rd (block + NEXT) in
    wr (pv + NEXT) nx ;;;
    (if nx =? 0 then ret tt else wr (nx + PREV) pv) ;;;
    let* psize' := rd (pv + SIZE) in
    wr (u32 (pv + psize' + HEADER)) pv ;;;
    ret pv
  else ret block.

Definition coalesce (block : Z) : Cmd mm_heap Z := coalesce_next block ;;; coalesce_prev block.

(** The loop of [mm_alloc] over the list; [best_fit] is 0 for NULL. *)
Fixpoint find_best (fuel : nat) (size block best_fit : Z) : Cmd mm_heap Z :=
  if block =? 0 then ret best_fit else
  match fuel with
  | O => fail NoFuel
  | S fuel' =>
      let* fr := rd_flag (block + IS_FREE) in
      let* bsize := rd (block + SIZE) in
      let* best := (if (fr : bool) && (size <=? bsize) then
                      if best_fit =? 0 then ret block else
                      let* fsize := rd (best_fit + SIZE) in
                      if bsize <? fsize then ret block else ret best_fit
                    else ret best_fit) in
      let* nx := rd (block + NEXT) in
      find_best fuel' size nx best
  end.

(** The header of new pages, put at the front of the list. *)
Definition add_pages (new_mem pages : Z) : Cmd mm_heap Z :=
  wr (new_mem + SIZE) (u32 (pages * PAGE_SIZE - HEADER - FOOTER)) ;;;
  wr (new_mem + MAGIC) BLOCK_MAGIC ;;;
  wr_flag (new_mem + IS_FREE) true ;;;
  let* head := gets free_list in
  wr (new_mem + NEXT) head ;;;
  wr (new_mem + PREV) 0 ;;;
  (if head =? 0 then ret tt else wr (head + PREV) new_mem) ;;;
  modify (set_free_list new_mem) ;;;
  ret new_mem.

Definition take_block (size best_fit : Z) : Cmd mm_heap unit :=
  split_block best_fit size ;;;
  wr_flag (best_fit + IS_FREE) false.

Definition mm_align (size : Z) : Z := Z.land (u32 (size + 7)) 4294967288.

Section Operations.
Context {Y : Type} (mm_alloc_pages : Z -> Y -> Z * Y).

Definition heap_lens : lens (mm_heap * Y) mm_heap.
Proof using.
  refine (Lens fst (fun c p => (c, snd p)) _ _ _); [done|by intros []|done].
Defined.
Definition in_heap {A : Type} (c : Cmd mm_heap A) : Cmd (mm_heap * Y) A := zoom heap_lens c.
Definition call_alloc_pages (n : Z) : Cmd (mm_heap * Y) Z :=
  fun s => let r := mm_alloc_pages n (snd s) in Ret (fst r) (fst s, snd r).

Definition pages_lens : lens (mutex_t * (mm_heap * Y)) (mm_heap * Y).
Proof using.
  refine (Lens snd (fun d p => (fst p, d)) _ _ _); [done|by intros []|done].
Defined.
Definition mm_alloc_init : Cmd (mutex_t * (mm_heap * Y)) unit :=
  modify (fun s => (mutex_init "mm_lock", snd s)) ;;;
  zoom pages_lens (let* initial_heap := call_alloc_pages 1024 in in_heap (init_block initial_heap)).

(** The critical section of [mm_alloc]: the block taken, or 0. *)
Definition mm_alloc_body (fuel : nat) (size : Z) : Cmd (mm_heap * Y) Z :=
  let* head := in_heap (gets free_list) in
  let* best_fit := in_heap (find_best fuel size head 0) in
  if best_fit =? 0 then
    let pages := u32 (size + HEADER + FOOTER + PAGE_SIZE - 1) / PAGE_SIZE in
    let* new_mem := call_alloc_pages pages in
    if new_mem =? 0 then ret 0 else
    let* block := in_heap (add_pages new_mem pages) in
    in_heap (take_block size block) ;;;
    ret block
  else
    in_heap (take_block size best_fit) ;;;
    ret best_fit.

Definition mm_alloc (fuel : nat) (size : Z) : Cmd (kern * (mutex_t * (mm_heap * Y))) Z :=
  if size =? 0 then ret 0 else
  let* block := guarded (mm_alloc_body fuel (mm_align size)) in
  if block =? 0 then ret 0 else ret (block + HEADER).

Definition mm_free_body (block : Z) : Cmd (mm_heap * Y) unit :=
  let* magic := in_heap (rd (block + MAGIC)) in
  if magic =? BLOCK_MAGIC then
    in_heap (wr_flag (block + IS_FREE) true) ;;;
    in_heap (coalesce block) ;;;
    ret tt
  else ret tt.

Definition mm_free (addr : Z) : Cmd (kern * (mutex_t * (mm_heap * Y))) unit :=
  if addr =? 0 then ret tt else guarded (mm_free_body (u32 (addr - HEADER))).
End Operations.

(** ** The list of blocks

    A block is its address, its recorded size and its flag.  [seg m p h l p' h']:
    the list from [h], with [p] before it, is [l], and goes on at [h'] with [p']
    before it. *)
Definition block : Type := (Z * Z * bool).
Definition addr_of (x : block) : Z := fst (fst x).
Definition size_of (x : block) : Z := snd (fst x).

Fixpoint seg (m : bytes) (p h : Z) (l : list block) (p' h' : Z) : Prop :=
  match l with
  | [] => p' = p /\ h' = h
  | (a, sz, fr) :: l' =>
      h = a /\ load32 m (a + SIZE) = sz /\ negb (m (a + IS_FREE) =? 0) = fr /\ load32 m (a + PREV) = p /\
      seg m a (load32 m (a + NEXT)) l' p' h'
  end.
Definition chain (s : mm_heap) (l : list block) : Prop := exists p', seg (mm_mem s) 0 (free_list s) l p' 0.

(** Blocks lie in the address space and do not overlap (headers and data). *)
Definition apart (x y : block) : Prop :=
  addr_of x + HEADER + size_of x <= addr_of y \/ addr_of y + HEADER + size_of y <= addr_of x.
Definition in_space (x : block) : Prop :=
  0 < addr_of x /\ 0 <= size_of x /\ addr_of x + HEADER + size_of x < 4294967296.
Definition placed (l : list block) : Prop :=
  (forall x, x ∈ l -> in_space x) /\
  (forall l1 x l2, l = l1 ++ x :: l2 -> forall y, y ∈ l1 ++ l2 -> apart x y).
Definition heap_ok (s : mm_heap) (l : list block) : Prop := chain s l /\ placed l.

Ltac offsets := unfold MIN_BLOCK_SIZE, SIZE, MAGIC, IS_FREE, NEXT, PREV, HEADER, FOOTER, PAGE_SIZE in *.

Lemma blocks_app m p h l1 l2 p' h' :
  seg m p h (l1 ++ l2) p' h' <-> exists q k, seg m p h l1 q k /\ seg m q k l2 p' h'.
Proof.
  revert p h. induction l1 as [|[[a sz] fr] l1 IH]; intros p h; simpl.
  - split; [eauto|]. by intros (q & k & [-> ->] & H).
  - rewrite IH. naive_solver.
Qed.

(** Memories that agree on the headers have the same lists. *)
Lemma blocks_agree m m' p h l p' h' :
  (forall x, x ∈ l -> agree (addr_of x) (addr_of x + HEADER) m m') ->
  seg m p h l p' h' -> seg m' p h l p' h'.
Proof.
  revert p h. induction l as [|[[a sz] fr] l IH]; intros p h Hag; [done|].
  intros (-> & H1 & H2 & H3 & H4). simpl.
  assert (Ha : agree a (a + HEADER) m m') by (apply (Hag (a, sz, fr)), list_elem_of_here).
  offsets. rewrite !(agree_load32 _ _ _ _ _ Ha), (Ha (a + 8)) by lia. split_and!; try done.
  apply IH; [|done]. intros x Hx. apply Hag. by apply list_elem_of_further.
Qed.

Lemma placed_mid l1 x l2 :
  placed (l1 ++ x :: l2) -> in_space x /\ forall y, y ∈ l1 ++ l2 -> apart x y /\ in_space y.
Proof.
  intros [Hs Ha]. split; [apply Hs; set_solver|]. intros y Hy. split; [by eapply Ha|].
  apply Hs. set_solver.
Qed.

(** ** The search *)
Definition fits (n : Z) (x : block) : Prop := snd x = true /\ n <= size_of x.

(** [x], after the blocks [l1] and before [l2], is the best fit: the first of the
    smallest free blocks large enough. *)
Definition is_best (n : Z) (l1 : list block) (x : block) (l2 : list block) : Prop :=
  fits n x /\ (forall y, y ∈ l1 -> fits n y -> size_of x < size_of y) /\
  (forall y, y ∈ l2 -> fits n y -> size_of x <= size_of y).

(** What the loop has found among the blocks [l] behind it. *)
Definition found (n r : Z) (l : list block) : Prop :=
  (r = 0 /\ forall y, y ∈ l -> ~ fits n y) \/
  exists l1 x l2, l = l1 ++ x :: l2 /\ r = addr_of x /\ is_best n l1 x l2.

Lemma found_skip n r l x : ~ fits n x -> found n r l -> found n r (l ++ [x]).
Proof.
  intros Hx [[-> H]|(l1 & y & l2 & -> & -> & Hf & H1 & H2)].
  - left. split; [done|]. intros y [Hy| ->%list_elem_of_singleton]%elem_of_app; [by apply H|done].
  - right. exists l1, y, (l2 ++ [x]). rewrite <- app_assoc. split; [done|]. split; [done|]. split; [done|].
    split; [done|]. intros z [Hz| ->%list_elem_of_singleton]%elem_of_app Hfz; [by apply H2|done].
Qed.

Lemma found_take n l x : fits n x -> (forall y, y ∈ l -> fits n y -> size_of x < size_of y) ->
  found n (addr_of x) (l ++ [x]).
Proof.
  intros Hx H. right. exists l, x, []. split; [done|]. split; [done|]. split; [done|]. split; [done|].
  by intros y ?%not_elem_of_nil.
Qed.

Lemma found_keep n l1 y l2 x :
  is_best n l1 y l2 -> size_of y <= size_of x -> found n (addr_of y) ((l1 ++ y :: l2) ++ [x]).
Proof.
  intros (Hf & H1 & H2) Hle. right. exists l1, y, (l2 ++ [x]). rewrite <- app_assoc.
  split; [done|]. split; [done|]. split; [done|]. split; [done|].
  intros z [Hz| ->%list_elem_of_singleton]%elem_of_app Hfz; [by apply H2|done].
Qed.

Lemma seg_size m p h l1 x l2 p' h' :
  seg m p h (l1 ++ x :: l2) p' h' -> load32 m (addr_of x + SIZE) = size_of x.
Proof. intros (q & k & _ & H)%blocks_app. destruct x as [[a sz] fr]. by destruct H as (-> & H & _). Qed.

Lemma find_best_spec s n : forall rest done r p h q fuel,
  (forall y, y ∈ done ++ rest -> addr_of y <> 0) ->
  seg (mm_mem s) 0 (free_list s) done p h -> seg (mm_mem s) p h rest q 0 ->
  found n r done -> (length rest < fuel)%nat ->
  exists r', find_best fuel n h r s = Ret r' s /\ found n r' (done ++ rest).
Proof.
  induction rest as [|[[a sz] fr] rest IH]; intros done r p h q fuel Hnz Hdone Hrest Hfound Hfuel;
    (destruct fuel as [|fuel]; [lia|]).
  - destruct Hrest as [_ <-]. exists r. rewrite app_nil_r. split; [done|done].
  - pose proof Hrest as (-> & H1 & H2 & H3 & H4).
    assert (a <> 0) as Ha by (apply (Hnz (a, sz, fr)); set_solver).
    simpl. rewrite (proj2 (Z.eqb_neq a 0)) by done.
    erewrite bind_Ret by reflexivity. erewrite bind_Ret by reflexivity. rewrite H1, H2.
    assert (exists r2, (if fr && (n <=? sz)
              then if r =? 0 then ret a else
                   let* fsize := rd (r + SIZE) in if sz <? fsize then ret a else ret r
              else ret r) s = Ret r2 s /\ found n r2 (done ++ [(a, sz, fr)])) as (r2 & Hr2 & Hf2).
    { destruct (fr && (n <=? sz)) eqn:Ef.
      - apply andb_true_iff in Ef as [-> Hle%Z.leb_le].
        assert (Hfit : fits n (a, sz, true)) by (by split).
        destruct Hfound as [[-> Hno]|(l1 & y & l2 & -> & -> & Hbest)].
        + exists a. split; [done|]. apply (found_take n done (a, sz, true)); [done|].
          intros y Hy Hfy. by destruct (Hno y Hy).
        + rewrite (proj2 (Z.eqb_neq (addr_of y) 0)) by (apply Hnz; set_solver).
          erewrite bind_Ret by reflexivity. rewrite (seg_size _ _ _ _ _ _ _ _ Hdone).
          destruct (Z.ltb_spec sz (size_of y)) as [Hlt|Hge]; eexists; (split; [done|]).
          * apply (found_take n (l1 ++ y :: l2) (a, sz, true)); [done|]. destruct Hbest as (_ & Hb1 & Hb2).
            intros z [Hz|[->|Hz]%elem_of_cons]%elem_of_app Hfz; unfold size_of at 1; simpl; [|lia|].
            -- specialize (Hb1 z Hz Hfz). lia.
            -- specialize (Hb2 z Hz Hfz). lia.
          * by apply found_keep.
      - exists r. split; [done|]. apply found_skip; [|done]. intros [Hx1 Hx2]. simpl in *. unfold size_of in Hx2. simpl in Hx2.
        rewrite Hx1 in Ef. simpl in Ef. apply Z.leb_gt in Ef. lia. }
    erewrite bind_Ret by exact Hr2. erewrite bind_Ret by reflexivity.
    destruct (IH (done ++ [(a, sz, fr)]) r2 a (load32 (mm_mem s) (a + NEXT)) q fuel) as (r' & Hr' & Hf'); try done.
    + intros y Hy. apply Hnz. set_solver.
    + apply blocks_app. exists p, a. split; [done|]. simpl. by split_and!.
    + simpl in Hfuel. lia.
    + exists r'. split; [done|]. by rewrite <- app_assoc in Hf'.
Qed.

(** ** Taking a block *)

(** What becomes of the block [x] when [n] bytes of it are taken: the rest is a
    block of its own when it has room for one.  Its recorded size is the address
    of the block in front. *)
Definition taken (n : Z) (x : block) : list block :=
  let '(a, sz, _) := x in
  if MIN_BLOCK_SIZE <=? sz - n then [(a, n, false); (a + HEADER + n, a, true)] else [(a, sz, false)].

Lemma split_small s a n sz :
  load32 (mm_mem s) (a + SIZE) = sz -> 0 <= n <= sz -> sz < 4294967296 -> sz - n < MIN_BLOCK_SIZE ->
  split_block a n s = Ret tt s.
Proof.
  intros H1 Hn Hsz Hsmall. unfold split_block. erewrite bind_Ret by reflexivity. rewrite H1, u32_small by lia.
  by rewrite (proj2 (Z.leb_gt _ _)).
Qed.

(** The memory after a split; [nx] is the block after. *)
Definition split_mem (m : bytes) (a n sz nx : Z) : bytes :=
  let b := a + HEADER + n in
  let m1 := store32 m (b + SIZE) (sz - n - HEADER - FOOTER) in
  let m2 := store8 (store32 m1 (b + MAGIC) BLOCK_MAGIC) (b + IS_FREE) 1 in
  let m3 := store32 (store32 m2 (b + NEXT) nx) (b + PREV) a in
  let m4 := store32 m3 (a + sz - FOOTER + HEADER) b in
  let m5 := store32 (store32 m4 (a + SIZE) n) (a + NEXT) b in
  let m6 := store32 m5 b a in
  if nx =? 0 then m6 else store32 m6 (nx + PREV) b.

Lemma split_big s a n sz nx :
  load32 (mm_mem s) (a + SIZE) = sz -> load32 (mm_mem s) (a + NEXT) = nx -> 0 <= nx < 4294967296 ->
  0 < a -> 0 <= n -> a + HEADER + sz < 4294967296 -> MIN_BLOCK_SIZE <= sz - n ->
  split_block a n s = Ret tt (set_mm_mem (split_mem (mm_mem s) a n sz nx) s).
Proof.
  intros H1 H2 Hnx Ha Hn Hsz Hbig. unfold split_block. erewrite bind_Ret by reflexivity.
  offsets. rewrite H1, !u32_small by lia. rewrite (proj2 (Z.leb_le _ _)) by lia. cbv zeta.
  do 3 (erewrite bind_Ret by reflexivity). erewrite bind_Ret by reflexivity. simpl.
  mem. rewrite H2. do 2 (erewrite bind_Ret by reflexivity). simpl.
  erewrite bind_Ret by reflexivity. simpl. mem. rewrite !u32_small by lia.
  do 3 (erewrite bind_Ret by reflexivity). simpl. erewrite bind_Ret by reflexivity. simpl. mem.
  rewrite !u32_small by lia.
  erewrite bind_Ret by reflexivity. erewrite bind_Ret by reflexivity. simpl. mem.
  unfold split_mem. offsets. replace (a + 20 + n + (sz - n - 20 - 4) + 20) with (a + sz - 4 + 20) by lia.
  replace (a + n + 20) with (a + 20 + n) by lia. by destruct (nx =? 0).
Qed.

Lemma split_mem_out m a n sz nx lo hi :
  0 < a -> 0 <= n -> MIN_BLOCK_SIZE <= sz - n ->
  (hi <= a \/ a + HEADER + sz <= lo) -> (nx = 0 \/ hi <= nx + PREV \/ nx + PREV + 4 <= lo) ->
  agree lo hi m (store8 (split_mem m a n sz nx) (a + IS_FREE) 0).
Proof.
  intros Ha Hn Hbig Hout Hnx x Hx. unfold split_mem. offsets. cbv zeta.
  destruct (Z.eqb_spec nx 0); mem; done.
Qed.

Lemma take_split s l1 a sz l2 n :
  heap_ok s (l1 ++ (a, sz, true) :: l2) -> 0 <= n -> MIN_BLOCK_SIZE <= sz - n ->
  exists s', take_block n a s = Ret tt s' /\ free_list s' = free_list s /\
             chain s' (l1 ++ taken n (a, sz, true) ++ l2).
Proof.
  intros [(q & Hs) Hp] Hn Hbig. pose proof Hs as (p & k & Hs1 & -> & H1 & H2 & H3 & Hs2)%blocks_app.
  destruct (placed_mid _ _ _ Hp) as [(Hx1 & Hx2 & Hx3) Hap]. unfold addr_of, size_of in Hx1, Hx2, Hx3. simpl in *.
  remember (load32 (mm_mem s) (a + NEXT)) as nx eqn:Enx.
  assert (Hnx : l2 = [] /\ nx = 0 \/ exists z l2', l2 = z :: l2' /\ nx = addr_of z).
  { destruct l2 as [|[[b bsz] bf] l2]; [left; by destruct Hs2|right; eexists _, _]. split; [done|]. by destruct Hs2. }
  assert (Hnxr : 0 <= nx < 4294967296).
  { destruct Hnx as [[_ ->]|(z & l2' & -> & ->)]; [lia|]. destruct (Hap z) as [_ (? & ? & ?)]; [set_solver|].
    offsets. lia. }
  eexists. split.
  { unfold take_block. erewrite bind_Ret by (by apply (split_big s a n sz nx)). reflexivity. }
  clear Enx.
  simpl. split; [done|]. rewrite (proj2 (Z.leb_le _ _)) by done.
  (* the blocks other than [a] and the one after it *)
  assert (Hout : forall y, y ∈ l1 \/ (exists z l2', l2 = z :: l2' /\ y ∈ l2') ->
            agree (addr_of y) (addr_of y + HEADER) (mm_mem s)
              (store8 (split_mem (mm_mem s) a n sz nx) (a + IS_FREE) 0)).
  { intros y Hy. assert (y ∈ l1 ++ l2) as Hyin by (destruct Hy as [?|(z & l2' & -> & ?)]; set_solver).
    destruct (Hap y Hyin) as [Hay (? & ? & ?)].
    apply split_mem_out; [done|done|done|unfold apart in Hay; unfold addr_of, size_of in *; simpl in *; offsets; lia|].
    destruct Hnx as [[_ ->]|(z & l2' & -> & ->)]; [by left|right].
    change (l1 ++ (a, sz, true) :: z :: l2') with (l1 ++ [(a, sz, true)] ++ z :: l2') in Hp. rewrite app_assoc in Hp.
    destruct (placed_mid _ _ _ Hp) as [(? & ? & ?) Hz]. destruct (Hz y) as [Hzy _].
    - destruct Hy as [?|(z2 & l3 & [= <- <-] & ?)]; set_solver.
    - unfold apart in Hzy. offsets. lia. }
  assert (Hfst : forall k l, seg (mm_mem s) 0 (free_list s) l1 k l ->
            seg (store8 (split_mem (mm_mem s) a n sz nx) (a + IS_FREE) 0) 0 (free_list s) l1 k l).
  { intros k l. apply blocks_agree. intros y Hy. apply Hout. by left. }
  remember (a + HEADER + n) as b eqn:Hb.
  assert (Hrest : exists q', seg (store8 (split_mem (mm_mem s) a n sz nx) (a + IS_FREE) 0) b nx l2 q' 0).
  { destruct Hnx as [[-> ->]|(z & l2' & -> & Hz)]; [by exists b|].
    exists q. destruct z as [[za zs] zf]. destruct Hs2 as (_ & G1 & G2 & G3 & G4).
    destruct (Hap (za, zs, zf)) as [Hay (? & ? & ?)]; [set_solver|].
    unfold apart in Hay. unfold addr_of, size_of in *. simpl in *. subst nx.
    assert (Hin : agree za (za + PREV) (mm_mem s) (store8 (split_mem (mm_mem s) a n sz za) (a + IS_FREE) 0)).
    { apply split_mem_out; try done; offsets; lia. }
    split; [done|]. offsets.
    rewrite (agree_load32 _ _ _ _ (za + 0) Hin), (agree_load32 _ _ _ _ (za + 12) Hin), (Hin (za + 8)) by lia.
    split; [done|]. split; [done|]. split.
    - unfold split_mem. cbv zeta. rewrite (proj2 (Z.eqb_neq za 0)) by lia. offsets. mem. done.
    - eapply blocks_agree; [|exact G4]. intros y Hy. apply Hout. right. eexists _, _. by split. }
  destruct Hrest as (q' & Hrest). exists q'. simpl. apply blocks_app. exists p, a. split; [by apply Hfst|].
  assert (Hnxout : nx = 0 \/ nx + PREV + 4 <= a \/ a + HEADER + sz <= nx + PREV).
  { destruct Hnx as [[_ ->]|(z & l2' & -> & ->)]; [by left|right].
    destruct (Hap z) as [Hay (? & ? & ?)]; [set_solver|]. unfold apart in Hay. unfold addr_of, size_of in *. simpl in *.
    offsets. lia. }
  unfold split_mem in *. cbv zeta in *. simpl. offsets.
  clear Hs Hp Hap Hout Hfst Hs1 Hs2.
  destruct (Z.eqb_spec nx 0); mem; split_and!; try done; try lia.
Qed.

Lemma take_whole s l1 a sz l2 n :
  heap_ok s (l1 ++ (a, sz, true) :: l2) -> 0 <= n <= sz -> sz - n < MIN_BLOCK_SIZE ->
  exists s', take_block n a s = Ret tt s' /\ free_list s' = free_list s /\
             chain s' (l1 ++ taken n (a, sz, true) ++ l2).
Proof.
  intros [(q & Hs) Hp] Hn Hsmall. pose proof Hs as (p & k & Hs1 & -> & H1 & H2 & H3 & Hs2)%blocks_app.
  destruct (placed_mid _ _ _ Hp) as [(Hx1 & Hx2 & Hx3) Hap]. unfold addr_of, size_of in Hx1, Hx2, Hx3. simpl in *.
  eexists. split.
  { unfold take_block. offsets. erewrite bind_Ret by (apply (split_small s a n sz); offsets; done || lia). reflexivity. }
  simpl. split; [done|]. rewrite (proj2 (Z.leb_gt _ _)) by done. exists q. simpl.
  assert (Hout : forall y, y ∈ l1 ++ l2 ->
            agree (addr_of y) (addr_of y + HEADER) (mm_mem s) (store8 (mm_mem s) (a + IS_FREE) 0)).
  { intros y Hy x Hx. destruct (Hap y Hy) as [Hay (? & ? & ?)]. unfold apart, addr_of, size_of in *. simpl in *.
    offsets. by mem. }
  apply blocks_app. exists p, a. split; [|split; [done|]].
  - eapply blocks_agree; [|exact Hs1]. intros y Hy. apply Hout. set_solver.
  - offsets. mem. split_and!; try done. eapply blocks_agree; [|exact Hs2]. intros y Hy. apply Hout. set_solver.
Qed.

Lemma take_block_spec s l1 x l2 n :
  heap_ok s (l1 ++ x :: l2) -> 0 <= n -> fits n x ->
  exists s', take_block n (addr_of x) s = Ret tt s' /\ free_list s' = free_list s /\
             chain s' (l1 ++ taken n x ++ l2).
Proof.
  intros Hok Hn [Hf Hsz]. destruct x as [[a sz] fr]. simpl in Hf. subst fr. unfold addr_of, size_of in *. simpl fst in *. simpl snd in *.
  destruct (decide (MIN_BLOCK_SIZE <= sz - n)) as [Hb|Hb]; [by apply take_split|]. by apply take_whole; [|lia|lia].
Qed.

(** ** New pages *)
Definition page_block (new_mem pages : Z) : block := (new_mem, pages * PAGE_SIZE - HEADER - FOOTER, true).

Lemma add_pages_spec s l new_mem pages :
  chain s l -> placed (page_block new_mem pages :: l) ->
  exists s', add_pages new_mem pages s = Ret new_mem s' /\ heap_ok s' (page_block new_mem pages :: l).
Proof.
  intros (q & Hs) Hp. destruct (placed_mid [] _ l Hp) as [(Hx1 & Hx2 & Hx3) Hap]. simpl in Hap.
  unfold page_block, addr_of, size_of in Hx1, Hx2, Hx3. simpl in Hx1, Hx2, Hx3.
  remember (free_list s) as hd eqn:Ehd. remember (pages * PAGE_SIZE - HEADER - FOOTER) as sz eqn:Esz.
  assert (Hszr : 0 <= sz < 4294967296) by (offsets; lia).
  set (m1 := store32 (store8 (store32 (store32 (mm_mem s) (new_mem + SIZE) sz) (new_mem + MAGIC) BLOCK_MAGIC)
                (new_mem + IS_FREE) 1) (new_mem + NEXT) hd).
  set (m2 := store32 m1 (new_mem + PREV) 0).
  set (m3 := if hd =? 0 then m2 else store32 m2 (hd + PREV) new_mem).
  exists {| mm_mem := m3; free_list := new_mem |}. split.
  { unfold add_pages. rewrite <- Esz. rewrite u32_small by exact Hszr.
    do 4 (erewrite bind_Ret by reflexivity). simpl. rewrite <- Ehd. do 2 (erewrite bind_Ret by reflexivity).
    unfold m3, m2, m1. destruct (hd =? 0); reflexivity. }
  split; [|done]. unfold page_block. rewrite <- Esz. simpl.
  assert (Hhd : l = [] /\ hd = 0 \/ exists z l', l = z :: l' /\ hd = addr_of z).
  { destruct l as [|[[b bsz] bf] l']; [left|right; eexists _, _; split; [done|]]; simpl in Hs; naive_solver. }
  assert (Hhd2 : hd = 0 \/ 0 < hd < 4294967296 /\ (hd + HEADER <= new_mem \/ new_mem + HEADER <= hd)).
  { destruct Hhd as [[_ ->]|(z & l' & -> & ->)]; [by left|right].
    destruct (Hap z) as [Hay (? & ? & ?)]; [set_solver|]. unfold apart, page_block, addr_of, size_of in *. simpl in *. offsets. lia. }
  assert (Hkeep : forall x, x < new_mem \/ new_mem + HEADER <= x -> x < hd + PREV \/ hd + PREV + 4 <= x -> m3 x = mm_mem s x).
  { intros x Hx Hx2'. unfold m3, m2, m1. offsets. destruct (hd =? 0); by mem. }
  exists (if decide (l = []) then new_mem else q).
  assert (Hrest : seg m3 new_mem hd l (if decide (l = []) then new_mem else q) 0).
  { destruct Hhd as [[-> ->]|(z & l' & -> & ->)]; [done|]. rewrite decide_False by done.
    destruct z as [[za zs] zf]. destruct Hs as (_ & G1 & G2 & G3 & G4).
    destruct (Hap (za, zs, zf)) as [Hay (? & ? & ?)]; [set_solver|].
    unfold apart, page_block, addr_of, size_of in *. simpl in *.
    assert (Hin : agree za (za + PREV) (mm_mem s) m3) by (intros x Hx; apply Hkeep; offsets; lia).
    split; [done|]. offsets.
    rewrite (agree_load32 _ _ _ _ (za + 0) Hin), (agree_load32 _ _ _ _ (za + 12) Hin), (Hin (za + 8)) by lia.
    split; [done|]. split; [done|]. split.
    - unfold m3. rewrite (proj2 (Z.eqb_neq za 0)) by lia. by mem.
    - eapply blocks_agree; [|exact G4]. intros y Hy x Hx. unfold addr_of in Hx.
      destruct (Hap y) as [Hay2 (? & ? & ?)]; [set_solver|]. unfold apart, addr_of, size_of in *. simpl in *.
      destruct (placed_mid [(new_mem, pages * 4096 - 20 - 4, true)] (za, zs, zf) l' Hp) as [_ Hz]. destruct (Hz y) as [Hzy _]; [set_solver|].
      unfold apart, addr_of, size_of in Hzy. simpl in Hzy. offsets. apply Hkeep; lia. }
  simpl. assert (load32 m3 (new_mem + NEXT) = hd) as ->.
  { unfold m3, m2, m1. offsets. destruct (Z.eqb_spec hd 0); mem; lia. }
  split; [done|]. unfold m3, m2, m1. offsets.
  split_and!; [| | |exact Hrest]; destruct (Z.eqb_spec hd 0); mem; done || lia.
Qed.

(** ** Properties *)
Lemma mm_align_props n : 0 < n <= 2147483648 -> n <= mm_align n <= n + 7 /\ mm_align n mod 8 = 0.
Proof.
  intros Hn. unfold mm_align. rewrite u32_small by lia.
  assert (Z.land (n + 7) 4294967288 = (n + 7) / 8 * 8) as ->.
  { change 4294967288 with (Z.shiftl (Z.ones 29) 3).
    rewrite <- (Z.shiftl_mul_pow2 _ 3), <- (Z.shiftr_div_pow2 _ 3) by lia.
    apply Z.bits_inj'. intros k Hk. rewrite Z.land_spec, !Z.shiftl_spec by lia.
    destruct (Z.ltb_spec k 3).
    - rewrite !(Z.testbit_neg_r _ (k - 3)) by lia. apply andb_false_r.
    - rewrite Z.shiftr_spec by lia. replace (k - 3 + 3) with k by lia.
      rewrite Z.testbit_ones by lia. rewrite (proj2 (Z.leb_le _ _)) by lia. simpl.
      destruct (Z.ltb_spec (k - 3) 29); [apply andb_true_r|].
      rewrite (Z.bits_above_log2 (n + 7)); [done|lia|].
      apply Z.log2_lt_pow2; [lia|]. apply Z.lt_le_trans with (2 ^ 32); [lia|]. apply Z.pow_le_mono_r; lia. }
  pose proof (Z.div_mod (n + 7) 8 ltac:(lia)). pose proof (Z.mod_pos_bound (n + 7) 8 ltac:(lia)).
  split; [lia|]. apply Z.mod_mul. lia.
Qed.

Lemma in_heap_Ret {Y A} (c : Cmd mm_heap A) s s' a (y : Y) :
  c s = Ret a s' -> in_heap c (s, y) = Ret a (s', y).
Proof. intros H. unfold in_heap. by apply (zoom_Ret heap_lens). Qed.

Section Properties.
Context {Y : Type} (mm_alloc_pages : Z -> Y -> Z * Y).

(** Pages needed for a request of [n] bytes. *)
Definition pages_for (n : Z) : Z := (n + HEADER + FOOTER + PAGE_SIZE - 1) / PAGE_SIZE.

Lemma alloc_body_hit s l n fuel (y : Y) r :
  heap_ok s l -> 0 <= n -> (length l < fuel)%nat -> r <> 0 ->
  find_best fuel n (free_list s) 0 s = Ret r s -> found n r l ->
  exists l1 x l2 s', l = l1 ++ x :: l2 /\ is_best n l1 x l2 /\ r = addr_of x /\
    mm_alloc_body mm_alloc_pages fuel n (s, y) = Ret r (s', y) /\ chain s' (l1 ++ taken n x ++ l2).
Proof.
  intros Hok Hn Hfuel Hr Hfind [[-> _]|(l1 & x & l2 & -> & -> & Hb)]; [done|].
  destruct (take_block_spec s l1 x l2 n Hok Hn (proj1 Hb)) as (s' & Ht & _ & Hch).
  exists l1, x, l2, s'. split_and!; try done. unfold mm_alloc_body.
  erewrite bind_Ret by (by apply in_heap_Ret). erewrite bind_Ret by (by apply in_heap_Ret).
  rewrite (proj2 (Z.eqb_neq _ _)) by done. by erewrite bind_Ret by (by apply in_heap_Ret).
Qed.

Lemma alloc_body_miss s l n fuel (y : Y) :
  chain s l -> 0 <= n <= 2147483655 ->
  find_best fuel n (free_list s) 0 s = Ret 0 s ->
  let p := fst (mm_alloc_pages (pages_for n) y) in
  let y' := snd (mm_alloc_pages (pages_for n) y) in
  (p <> 0 -> placed (page_block p (pages_for n) :: l)) ->
  if p =? 0 then mm_alloc_body mm_alloc_pages fuel n (s, y) = Ret 0 (s, y')
  else exists s', mm_alloc_body mm_alloc_pages fuel n (s, y) = Ret p (s', y') /\
                  chain s' (taken n (page_block p (pages_for n)) ++ l).
Proof.
  intros Hch Hn Hfind p y' Hnew. unfold mm_alloc_body.
  assert (Hbody : forall c : Z -> Cmd (mm_heap * Y) Z, (let* head := in_heap (gets free_list) in
            let* best_fit := in_heap (find_best fuel n head 0) in c best_fit) (s, y) = c 0 (s, y)).
  { intros c. erewrite bind_Ret by (by apply in_heap_Ret). by erewrite bind_Ret by (by apply in_heap_Ret). }
  rewrite Hbody. simpl. replace (u32 _ / _) with (pages_for n) by (unfold pages_for; offsets; by rewrite u32_small by lia).
  erewrite bind_Ret by reflexivity. simpl. fold p y'. destruct (Z.eqb_spec p 0) as [Hp|Hp]; [done|].
  destruct (add_pages_spec s l p (pages_for n) Hch (Hnew Hp)) as (s1 & Ha & Hok).
  destruct (take_block_spec s1 [] (page_block p (pages_for n)) l n Hok) as (s2 & Ht & _ & Hch2); [lia| |].
  { split; [done|]. unfold page_block, size_of, pages_for. simpl. offsets.
    pose proof (Z.div_mod (n + 20 + 4 + 4096 - 1) 4096 ltac:(lia)).
    pose proof (Z.mod_pos_bound (n + 20 + 4 + 4096 - 1) 4096 ltac:(lia)). lia. }
  exists s2. split; [|done]. erewrite bind_Ret by (by apply in_heap_Ret).
  by erewrite bind_Ret by (by apply in_heap_Ret).
Qed.
Lemma find_in s l n fuel :
  heap_ok s l -> (length l < fuel)%nat ->
  exists r, find_best fuel n (free_list s) 0 s = Ret r s /\ found n r l /\ forall x, x ∈ l -> addr_of x <> 0.
Proof.
  intros [[q Hs] Hp] Hfuel.
  assert (Hnz : forall x, x ∈ l -> addr_of x <> 0) by (intros x Hx; destruct (proj1 Hp x Hx) as (? & _); lia).
  destruct (find_best_spec s n l [] 0 0 (free_list s) q fuel) as (r & Hfind & Hfound); try done; [|by eauto].
  left. split; [done|]. by intros ? ?%not_elem_of_nil.
Qed.

Lemma mm_alloc_of_body size fuel k m s y r s' y' :
  0 < size -> locked m = 0 -> waiting_tasks m = None ->
  mm_alloc_body mm_alloc_pages fuel (mm_align size) (s, y) = Ret r (s', y') ->
  mm_alloc mm_alloc_pages fuel size (k, (m, (s, y)))
  = Ret (if r =? 0 then 0 else r + HEADER) (irq_enabled k, (released m, (s', y'))).
Proof.
  intros Hsize Hl Hw Hb. unfold mm_alloc. rewrite (proj2 (Z.eqb_neq size 0)) by lia.
  erewrite bind_Ret by (apply guarded_free; [exact Hl|exact Hw|exact Hb]). by destruct (r =? 0).
Qed.

(** With a free block large enough, the best one is taken. *)
Lemma mm_alloc_hit size fuel k m s l (y : Y) :
  heap_ok s l -> 0 < size <= 2147483648 -> (length l < fuel)%nat -> locked m = 0 -> waiting_tasks m = None ->
  (exists x, x ∈ l /\ fits (mm_align size) x) ->
  exists l1 x l2 s', l = l1 ++ x :: l2 /\ is_best (mm_align size) l1 x l2 /\
    mm_alloc mm_alloc_pages fuel size (k, (m, (s, y)))
    = Ret (addr_of x + HEADER) (irq_enabled k, (released m, (s', y))) /\
    chain s' (l1 ++ taken (mm_align size) x ++ l2).
Proof.
  intros Hok Hsize Hfuel Hl Hw (z & Hz & Hfz). destruct (mm_align_props size Hsize) as [Hn _].
  destruct (find_in s l (mm_align size) fuel Hok Hfuel) as (r & Hfind & Hfound & Hnz).
  assert (r <> 0) as Hr.
  { destruct Hfound as [[_ Hno]|(l1 & x & l2 & -> & -> & _)]; [by destruct (Hno z)|]. apply Hnz. set_solver. }
  destruct (alloc_body_hit s l (mm_align size) fuel y r Hok ltac:(lia) Hfuel Hr Hfind Hfound)
    as (l1 & x & l2 & s' & Heq & Hb & -> & Hbody & Hch).
  exists l1, x, l2, s'. split_and!; try done.
  by rewrite (mm_alloc_of_body _ _ _ _ _ _ _ _ _ (proj1 Hsize) Hl Hw Hbody), (proj2 (Z.eqb_neq _ 0)).
Qed.
End Properties.


(** ** The first heap *)
Definition first_heap (base : Z) : block := page_block base 1024.

Lemma init_block_spec base s :
  0 < base -> base + 4194304 < 4294967296 ->
  exists s', init_block base s = Ret tt s' /\ heap_ok s' [first_heap base].
Proof.
  intros Hb Hlim. eexists. split.
  { unfold init_block. offsets. simpl. rewrite u32_small by lia. reflexivity. }
  split.
  - exists base. simpl. offsets. mem. split_and!; try done; lia.
  - split.
    + intros x ->%list_elem_of_singleton. unfold first_heap, page_block, in_space, addr_of, size_of. simpl. offsets. lia.
    + intros [|x1 l1] x l2 Heq y Hy; simpl in *; [injection Heq as <- <-; by apply not_elem_of_nil in Hy|].
      injection Heq as _ Heq. by destruct l1.
Qed.

Lemma placed_pair x y : in_space x -> in_space y -> apart x y -> placed [x; y].
Proof.
  intros Hx Hy Ha. split.
  - intros z [->|[->|[]%not_elem_of_nil]%elem_of_cons]%elem_of_cons; done.
  - intros [|x1 [|x2 l1]] z l2 Heq w Hw; simplify_eq/=.
    + apply list_elem_of_singleton in Hw as ->. done.
    + apply list_elem_of_singleton in Hw as ->. unfold apart in *. lia.
    + by destruct l1.
Qed.

(** After one allocation the allocator hands out memory it does not have.
    From [mm_alloc_init], with the 4 MiB of the first heap at [base], once any small block has been taken, the
    rest is recorded as [base] bytes long: every request up to that size succeeds
    without new pages, although its data goes beyond the end of the heap. *)
Theorem mm_alloc_overrun {Y} (mm_alloc_pages : Z -> Y -> Z * Y) (k : kern) (m : mutex_t) (s : mm_heap)
    (base n1 n2 : Z) (y0 y : Y) (Hpages : mm_alloc_pages 1024 y0 = (base, y))
    (Hbase : base + 4194304 <= 2147483648) (Hn1 : 0 < n1 <= 4000000) (Hn2 : 4194304 <= n2 <= base - 8) :
  exists s1 s2 s3 m2 m3, mm_alloc_init mm_alloc_pages (m, (s, y0)) = Ret tt (mutex_init "mm_lock", (s1, y)) /\
    mm_alloc mm_alloc_pages 3 n1 (k, (mutex_init "mm_lock", (s1, y))) = Ret (base + 20) (irq_enabled k, (m2, (s2, y))) /\
    mm_alloc mm_alloc_pages 3 n2 (irq_enabled k, (m2, (s2, y)))
    = Ret (base + 20 + mm_align n1 + 20) (irq_enabled k, (m3, (s3, y))) /\
    base + 4194304 < base + 20 + mm_align n1 + 20 + n2.
Proof.
  destruct (mm_align_props n1) as [Ha1 _]; [lia|]. destruct (mm_align_props n2) as [Ha2 _]; [lia|].
  destruct (init_block_spec base s) as (s1 & Hinit & Hok1); [lia|lia|].
  destruct (mm_alloc_hit mm_alloc_pages n1 3 k (mutex_init "mm_lock") s1 _ y Hok1)
    as (l1 & x & l2 & s2 & Heq & _ & Hr1 & Hch); try done; [lia|simpl; lia| |].
  { eexists. split; [apply list_elem_of_here|]. unfold fits, first_heap, page_block, size_of. simpl. offsets. split; [done|lia]. }
  destruct l1 as [|? [|]]; simplify_eq/=. unfold taken, first_heap, page_block in Hch.
  rewrite (proj2 (Z.leb_le _ _)) in Hch by (offsets; lia). simpl in Hch.
  assert (placed [(base, mm_align n1, false); (base + HEADER + mm_align n1, base, true)]) as Hp.
  { apply placed_pair; unfold in_space, apart, addr_of, size_of; simpl; offsets; lia. }
  destruct (mm_alloc_hit mm_alloc_pages n2 3 (irq_enabled k) (released (mutex_init "mm_lock")) s2 _ y (conj Hch Hp))
    as (l1 & x & l2 & s3 & Heq & ([Hfr _] & _) & Hr2 & _); [lia|simpl; lia|done|done| |].
  { eexists. split; [apply list_elem_of_further, list_elem_of_here|]. unfold fits, size_of. simpl. split; [done|lia]. }
  destruct l1 as [|? [|? [|]]]; simplify_eq/=.
  exists s1, s2, s3. do 2 eexists. split; [|split; [exact Hr1|split; [|lia]]].
  - unfold mm_alloc_init. erewrite bind_Ret by reflexivity. simpl snd. change (mutex_init "mm_lock", (s1, y)) with (upd pages_lens (s1, y) (mutex_init "mm_lock", (s, y0))).
    apply (zoom_Ret pages_lens). simpl.
    erewrite bind_Ret by (unfold call_alloc_pages; simpl; rewrite Hpages; reflexivity).
    by apply in_heap_Ret.
  - unfold addr_of in Hr2. simpl in Hr2. offsets. exact Hr2.
Qed.


Lemma mm_alloc_overrun_witness :
  let pages := fun (_ : Z) (y : unit) => (1610612736, y) in
  exists s1 s2 s3, mm_alloc_init pages (mutex_init "mm_lock", ({| mm_mem := fun _ => 0; free_list := 0 |}, tt)) = Ret tt s1 /\
    mm_alloc pages 3 100 (two_tasks 0, s1) = Ret 1610612756 s2 /\
    mm_alloc pages 3 16777216 s2 = Ret 1610612880 s3.
Proof.
  intros pages.
  destruct (mm_alloc_overrun pages (two_tasks 0) (mutex_init "mm_lock")
    {| mm_mem := fun _ => 0; free_list := 0 |} 1610612736 100 16777216 tt tt) as (s1 & s2 & s3 & m2 & m3 & H1 & H2 & H3 & _);
    [done|lia|lia|lia|].
  exists (mutex_init "mm_lock", (s1, tt)), (irq_enabled (two_tasks 0), (m2, (s2, tt))), (irq_enabled (two_tasks 0), (m3, (s3, tt))).
  split; [exact H1|]. split; [exact H2|exact H3].
Defined.
