(* ===== verification/Bytes.v ===== *)
(** * Bytes

    Little-endian words in byte buffers, buffers in pieces, and the bits of
    bitmaps. *)
From S2P Require Import Prelude Ipc Mem.

Definition le16 (v : Z) : list Z := [byte_of v 0; byte_of v 1].
Definition le32 (v : Z) : list Z := [byte_of v 0; byte_of v 1; byte_of v 2; byte_of v 3].
Definition val16 (l : list Z) : Z := match l with [a; b] => a + 256 * b | _ => 0 end.
Definition val32 (l : list Z) : Z :=
  match l with [a; b; c; d] => a + 256 * b + 65536 * c + 16777216 * d | _ => 0 end.

Lemma val32_le32 v : 0 <= v < 4294967296 -> val32 (le32 v) = v.
Proof. apply word_bytes. Qed.

Lemma val16_le16 v : 0 <= v < 65536 -> val16 (le16 v) = v.
Proof.
  intros H. unfold val16, le16, byte_of. rewrite !Z.shiftr_div_pow2 by lia. change (2 ^ (8 * 0)) with 1.
  change (2 ^ (8 * 1)) with 256. rewrite Z.div_1_r.
  pose proof (Z.div_mod v 256 ltac:(lia)). rewrite (Z.mod_small (v / 256)); [lia|].
  split; [apply Z.div_pos; lia|apply Z.div_lt_upper_bound; lia].
Qed.

(** ** Buffers in pieces *)
Section Pieces.
Context {A : Type}.
Implicit Types (a b c d x : list A).

Lemma slice_mid a b c o n : (o + n <= length b)%nat -> slice (length a + o) n (a ++ b ++ c) = slice o n b.
Proof. intros H. unfold slice. rewrite drop_app_add, drop_app_le, take_app_le by (rewrite ?length_drop; lia). done. Qed.

Lemma splice_mid a b c o d :
  (o + length d <= length b)%nat -> splice (length a + o) d (a ++ b ++ c) = a ++ splice o d b ++ c.
Proof.
  intros H. unfold splice. rewrite take_app_add, take_app_le by lia.
  replace (length a + o + length d)%nat with (length a + (o + length d))%nat by lia.
  rewrite drop_app_add, drop_app_le by lia. by rewrite <- !app_assoc.
Qed.

Lemma slice_slice p n m x : slice p n x ++ slice (p + n) m x = slice p (n + m) x.
Proof. unfold slice. by rewrite <- drop_drop, take_take_drop. Qed.

Lemma splice_splice p d1 d2 x :
  (p + length d1 + length d2 <= length x)%nat ->
  splice (p + length d1) d2 (splice p d1 x) = splice p (d1 ++ d2) x.
Proof.
  intros H. assert (Hl : length (splice p d1 x) = length x) by (apply splice_length; lia).
  apply list_eq. intros i. rewrite splice_lookup by lia. rewrite !splice_lookup by (rewrite ?length_app; lia).
  rewrite length_app. destruct (decide (p + length d1 <= i < p + length d1 + length d2)%nat).
  - rewrite decide_True by lia. rewrite lookup_app_r by lia. f_equal. lia.
  - case_decide; case_decide; try lia; [by rewrite lookup_app_l by lia|done].
Qed.

Lemma slice_splice p d x : (p + length d <= length x)%nat -> slice p (length d) (splice p d x) = d.
Proof.
  intros H. apply list_eq. intros i. rewrite slice_lookup. case_decide.
  - rewrite splice_lookup by done. rewrite decide_True by lia. f_equal. lia.
  - symmetry. apply lookup_ge_None. lia.
Qed.

(** Writing at the end of what is already written. *)
Lemma splice_next (pre d rest : list A) o :
  o = length pre -> splice o d (pre ++ rest) = (pre ++ d) ++ drop (length d) rest.
Proof.
  intros ->. unfold splice. rewrite take_app_length. rewrite <- (drop_drop _ (length d)), drop_app_length.
  by rewrite app_assoc.
Qed.

Lemma splice_nil p x : splice p [] x = x.
Proof. unfold splice. simpl. rewrite Nat.add_0_r. apply take_drop. Qed.

Lemma splice_whole d x : length d = length x -> splice 0 d x = d.
Proof. intros H. unfold splice. simpl. rewrite H, drop_all. apply app_nil_r. Qed.
End Pieces.

(** ** Bits of a byte *)
Definition set_bit (b k : Z) : Z := u8 (Z.lor b (Z.shiftl 1 k)).
Definition clear_bit (b k : Z) : Z := u8 (Z.land b (Z.lnot (Z.shiftl 1 k))).

Lemma testbit_u8 z j : 0 <= j -> Z.testbit (u8 z) j = if decide (j < 8) then Z.testbit z j else false.
Proof.
  intros Hj. unfold u8, wrap. case_decide; [by rewrite Z.mod_pow2_bits_low|]. rewrite Z.mod_pow2_bits_high; [done|lia].
Qed.

Lemma testbit_one k j : 0 <= k -> 0 <= j -> Z.testbit (Z.shiftl 1 k) j = bool_decide (j = k).
Proof.
  intros Hk Hj. rewrite Z.shiftl_spec by done. case_bool_decide as H.
  - subst. by rewrite Z.sub_diag.
  - destruct (Z.ltb_spec j k); [by apply Z.testbit_neg_r; lia|]. apply Z.bits_above_log2; [lia|simpl; lia].
Qed.

(** The bits of a number below [2 ^ w]. *)
Lemma bits_high w x j : 0 <= x < 2 ^ w -> w <= j -> Z.testbit x j = false.
Proof.
  intros H Hj. destruct (decide (x = 0)) as [->|]; [apply Z.bits_0|]. apply Z.bits_above_log2; [lia|].
  apply Z.lt_le_trans with w; [|done]. apply Z.log2_lt_pow2; lia.
Qed.

Lemma lor_bound w a b : 0 <= w -> 0 <= a < 2 ^ w -> 0 <= b < 2 ^ w -> 0 <= Z.lor a b < 2 ^ w.
Proof.
  intros Hw Ha Hb. replace (Z.lor a b) with (Z.lor a b mod 2 ^ w); [apply Z.mod_pos_bound; lia|].
  apply Z.bits_inj'. intros j Hj. destruct (decide (j < w)); [by rewrite Z.mod_pow2_bits_low|].
  rewrite Z.mod_pow2_bits_high by lia. by rewrite Z.lor_spec, !(bits_high w) by lia.
Qed.

(** A number shifted above another one. *)
Lemma lor_add w i c : 0 <= w -> 0 <= c < 2 ^ w -> Z.lor (Z.shiftl i w) c = 2 ^ w * i + c.
Proof.
  intros Hw Hc. assert (Hno : Z.land (Z.shiftl i w) c = 0).
  { apply Z.bits_inj'. intros j Hj. rewrite Z.land_spec, Z.bits_0.
    destruct (decide (j < w)); [by rewrite Z.shiftl_spec_low by lia|]. rewrite (bits_high w c) by lia. apply andb_false_r. }
  rewrite <- Z.lxor_lor, <- Z.add_nocarry_lxor by done. rewrite Z.shiftl_mul_pow2 by done. lia.
Qed.

Lemma set_bit_spec b k j : 0 <= k < 8 -> 0 <= j < 8 -> Z.testbit (set_bit b k) j = bool_decide (j = k) || Z.testbit b j.
Proof.
  intros Hk Hj. unfold set_bit. rewrite testbit_u8, decide_True by lia.
  rewrite Z.lor_spec, testbit_one by lia. apply orb_comm.
Qed.

Lemma clear_bit_spec b k j :
  0 <= k < 8 -> 0 <= j < 8 -> Z.testbit (clear_bit b k) j = negb (bool_decide (j = k)) && Z.testbit b j.
Proof.
  intros Hk Hj. unfold clear_bit. rewrite testbit_u8, decide_True by lia.
  rewrite Z.land_spec, Z.lnot_spec, testbit_one by lia. apply andb_comm.
Qed.

(** Bytes with the same bits are equal. *)
Lemma byte_ext a b :
  0 <= a < 256 -> 0 <= b < 256 -> (forall j, 0 <= j < 8 -> Z.testbit a j = Z.testbit b j) -> a = b.
Proof.
  intros Ha Hb H. apply Z.bits_inj'. intros j Hj. destruct (decide (j < 8)); [by apply H|].
  by rewrite !(bits_high 8) by lia.
Qed.

Lemma clear_set_bit b k : 0 <= b < 256 -> 0 <= k < 8 -> Z.testbit b k = false -> clear_bit (set_bit b k) k = b.
Proof.
  intros Hb Hk H0. apply byte_ext; [apply u8_range|done|]. intros j Hj.
  rewrite clear_bit_spec, set_bit_spec by done. case_bool_decide as He; [by subst|done].
Qed.

(** Bit [i] of a bitmap. *)
Definition bit_of (bm : list Z) (i : Z) : bool := Z.testbit (default 0 (bm !! Z.to_nat (i / 8))) (i mod 8).

(** ** Words of any width *)

(** The [n] low bytes of [v], the lowest first, and back. *)
Fixpoint le_bytes (n : nat) (v : Z) : list Z :=
  match n with O => [] | S n' => v mod 256 :: le_bytes n' (v / 256) end.
Fixpoint le_value (l : list Z) : Z := match l with [] => 0 | b :: l' => b + 256 * le_value l' end.
(** The value whose bytes are in the opposite order. *)
Definition byte_swap (n : nat) (v : Z) : Z := le_value (rev (le_bytes n v)).

Lemma le_bytes_length n : forall v, length (le_bytes n v) = n.
Proof. induction n; intros v; simpl; auto. Qed.

Lemma le_bytes_range n : forall v, Forall (fun b => 0 <= b < 256) (le_bytes n v).
Proof. induction n; intros v; simpl; constructor; auto. apply Z.mod_pos_bound. lia. Qed.

Lemma le_value_bytes n : forall v, 0 <= v < 256 ^ Z.of_nat n -> le_value (le_bytes n v) = v.
Proof.
  induction n as [|n IH]; intros v H; [simpl in *; lia|]. rewrite Nat2Z.inj_succ, Z.pow_succ_r in H by lia.
  simpl. rewrite IH; [pose proof (Z.div_mod v 256 ltac:(lia)); lia|].
  split; [apply Z.div_pos; lia|apply Z.div_lt_upper_bound; lia].
Qed.

Lemma le_bytes_value l : Forall (fun b => 0 <= b < 256) l -> le_bytes (length l) (le_value l) = l.
Proof.
  induction 1 as [|b l Hb Hl IH]; [done|]. simpl. rewrite (Z.mul_comm 256), Z_mod_plus_full, Z.mod_small by done.
  rewrite Z.div_add, Z.div_small by lia. by rewrite Z.add_0_l, IH.
Qed.

Lemma byte_swap_bytes n v : le_bytes n (byte_swap n v) = rev (le_bytes n v).
Proof.
  unfold byte_swap. rewrite <- (le_bytes_length n v) at 1. rewrite <- length_rev. apply le_bytes_value.
  apply Forall_rev, le_bytes_range.
Qed.

(** Swapping twice: what [htons] and [ntohs] do to a value. *)
Lemma byte_swap_twice n v : 0 <= v < 256 ^ Z.of_nat n -> byte_swap n (byte_swap n v) = v.
Proof. intros H. unfold byte_swap at 1. rewrite byte_swap_bytes, rev_involutive. by apply le_value_bytes. Qed.

Lemma le_value_range l : Forall (fun b => 0 <= b < 256) l -> 0 <= le_value l < 256 ^ Z.of_nat (length l).
Proof.
  induction 1 as [|b l Hb Hl IH]; [simpl; lia|]. simpl length. rewrite Nat2Z.inj_succ, Z.pow_succ_r by lia. simpl. lia.
Qed.

Lemma byte_swap_range n v : 0 <= byte_swap n v < 256 ^ Z.of_nat n.
Proof.
  unfold byte_swap. rewrite <- (le_bytes_length n v) at 3. rewrite <- length_rev.
  apply le_value_range, Forall_rev, le_bytes_range.
Qed.
