(* ===== verification/FsCore.v ===== *)
(** * FsCore

    src/src/fs_core.c: the tables of the file system, the block cache, the block
    bitmap and the inode table.  The cache is a circular list; here it is the list
    from [cache_head] on, so that [cache_head->prev] is its last element.  What the
    module calls and the sources do not define ([device_read], [device_write],
    [cache_get_block], [malloc]) are the operations of an [fs_ops] on a state of
    their own. *)
From stdpp Require Import strings.
From S2P Require Import Prelude Ipc Mem Bytes.

(** ** Data *)
Definition BLOCK_SIZE : Z := 4096.
Definition MAX_OPEN_FILES : nat := 128.
Definition MAX_MOUNT_POINTS : nat := 16.
Definition MAX_CACHE_BLOCKS : Z := 1024.

Record superblock_t : Type := Superblock {
  sb_magic : Z;
  version : Z;
  block_size : Z;
  blocks_count : Z;
  free_blocks : Z;
  inodes_count : Z;
  free_inodes : Z;
  first_data_block : Z;
  first_inode : Z;
  inode_size : Z;
  block_group_nr : Z;
  blocks_per_group : Z;
  inodes_per_group : Z;
  sb_mtime : Z;
  wtime : Z;
  mount_count : Z;
  max_mount_count : Z;
  sb_state : Z;
  errors : Z;
  checksum : Z
}.

Definition set_free_blocks (v : Z) (x : superblock_t) : superblock_t := {|
  sb_magic := sb_magic x; version := version x; block_size := block_size x;
  blocks_count := blocks_count x; free_blocks := v; inodes_count := inodes_count x;
  free_inodes := free_inodes x; first_data_block := first_data_block x; first_inode := first_inode x;
  inode_size := inode_size x; block_group_nr := block_group_nr x; blocks_per_group := blocks_per_group x;
  inodes_per_group := inodes_per_group x; sb_mtime := sb_mtime x; wtime := wtime x;
  mount_count := mount_count x; max_mount_count := max_mount_count x; sb_state := sb_state x;
  errors := errors x; checksum := checksum x |}.

(** [padding]: the two bytes between [gid] and [size]. *)
Record inode_t : Type := Inode {
  i_mode : Z;
  uid : Z;
  gid : Z;
  padding : list Z;
  i_size : Z;
  atime : Z;
  i_mtime : Z;
  ctime : Z;
  blocks : Z;
  direct : list Z;
  indirect : Z;
  double_indirect : Z;
  triple_indirect : Z
}.

Definition set_i_size (v : Z) (x : inode_t) : inode_t := {|
  i_mode := i_mode x; uid := uid x; gid := gid x; padding := padding x;
  i_size := v; atime := atime x; i_mtime := i_mtime x;
  ctime := ctime x; blocks := blocks x; direct := direct x;
  indirect := indirect x; double_indirect := double_indirect x; triple_indirect := triple_indirect x |}.
Definition set_i_mtime (v : Z) (x : inode_t) : inode_t := {|
  i_mode := i_mode x; uid := uid x; gid := gid x; padding := padding x;
  i_size := i_size x; atime := atime x; i_mtime := v;
  ctime := ctime x; blocks := blocks x; direct := direct x;
  indirect := indirect x; double_indirect := double_indirect x; triple_indirect := triple_indirect x |}.
Definition set_direct (v : list Z) (x : inode_t) : inode_t := {|
  i_mode := i_mode x; uid := uid x; gid := gid x; padding := padding x;
  i_size := i_size x; atime := atime x; i_mtime := i_mtime x;
  ctime := ctime x; blocks := blocks x; direct := v;
  indirect := indirect x; double_indirect := double_indirect x; triple_indirect := triple_indirect x |}.
Definition set_indirect (v : Z) (x : inode_t) : inode_t := {|
  i_mode := i_mode x; uid := uid x; gid := gid x; padding := padding x;
  i_size := i_size x; atime := atime x; i_mtime := i_mtime x;
  ctime := ctime x; blocks := blocks x; direct := direct x;
  indirect := v; double_indirect := double_indirect x; triple_indirect := triple_indirect x |}.

Record file_desc_t : Type := FileDesc {
  fd_inode : Z;
  fd_pos : Z;
  fd_flags : Z;
  fd_count : Z
}.

Definition set_fd_inode (v : Z) (x : file_desc_t) : file_desc_t := {|
  fd_inode := v; fd_pos := fd_pos x; fd_flags := fd_flags x;
  fd_count := fd_count x |}.
Definition set_fd_pos (v : Z) (x : file_desc_t) : file_desc_t := {|
  fd_inode := fd_inode x; fd_pos := v; fd_flags := fd_flags x;
  fd_count := fd_count x |}.
Definition set_fd_flags (v : Z) (x : file_desc_t) : file_desc_t := {|
  fd_inode := fd_inode x; fd_pos := fd_pos x; fd_flags := v;
  fd_count := fd_count x |}.
Definition set_fd_count (v : Z) (x : file_desc_t) : file_desc_t := {|
  fd_inode := fd_inode x; fd_pos := fd_pos x; fd_flags := fd_flags x;
  fd_count := v |}.

Record mount_point_t : Type := MountPoint {
  mp_device : list Z;
  mp_point : list Z;
  mp_sb : superblock_t;
  mounted : bool
}.

Definition set_mp_sb (v : superblock_t) (x : mount_point_t) : mount_point_t := {|
  mp_device := mp_device x; mp_point := mp_point x; mp_sb := v;
  mounted := mounted x |}.

Record cache_block_t : Type := CacheBlock {
  block_no : Z;
  c_data : list Z;
  c_dirty : bool;
  ref_count : Z
}.

Definition set_c_data (v : list Z) (x : cache_block_t) : cache_block_t := {|
  block_no := block_no x; c_data := v; c_dirty := c_dirty x;
  ref_count := ref_count x |}.
Definition set_c_dirty (v : bool) (x : cache_block_t) : cache_block_t := {|
  block_no := block_no x; c_data := c_data x; c_dirty := v;
  ref_count := ref_count x |}.

(** The static variables of the module. *)
Record fs : Type := Fs {
  mount_points : list mount_point_t;
  file_descs : list file_desc_t;
  cache : list cache_block_t;
  cache_size : Z
}.

Definition set_mount_points (v : list mount_point_t) (x : fs) : fs := {|
  mount_points := v; file_descs := file_descs x; cache := cache x;
  cache_size := cache_size x |}.
Definition set_file_descs (v : list file_desc_t) (x : fs) : fs := {|
  mount_points := mount_points x; file_descs := v; cache := cache x;
  cache_size := cache_size x |}.
Definition set_cache (v : list cache_block_t) (x : fs) : fs := {|
  mount_points := mount_points x; file_descs := file_descs x; cache := v;
  cache_size := cache_size x |}.
Definition set_cache_size (v : Z) (x : fs) : fs := {|
  mount_points := mount_points x; file_descs := file_descs x; cache := cache x;
  cache_size := v |}.

(** What the module calls.  [device_read] gives the count and the buffer after the
    call. *)
Record fs_ops (Y : Type) : Type := FsOps {
  device_read : list Z -> Z -> Z -> Y -> Z * list Z * Y;
  device_write : list Z -> Z -> list Z -> Y -> Z * Y;
  cache_get_block : Z -> list cache_block_t -> ptr;
  fs_malloc : Z -> Y -> bool * Y
}.
Arguments device_read {Y} f dev off n y.
Arguments device_write {Y} f dev off d y.
Arguments cache_get_block {Y} f b c.
Arguments fs_malloc {Y} f n y.

(** ** Operations *)
Definition zero_superblock : superblock_t :=
  {| sb_magic := 0; version := 0; block_size := 0; blocks_count := 0; free_blocks := 0; inodes_count := 0;
     free_inodes := 0; first_data_block := 0; first_inode := 0; inode_size := 0; block_group_nr := 0;
     blocks_per_group := 0; inodes_per_group := 0; sb_mtime := 0; wtime := 0; mount_count := 0;
     max_mount_count := 0; sb_state := 0; errors := 0; checksum := 0 |}.
Definition zero_desc : file_desc_t := {| fd_inode := 0; fd_pos := 0; fd_flags := 0; fd_count := 0 |}.
(** A mount point not in use; its superblock pointer is NULL. *)
Definition zero_mount : mount_point_t :=
  {| mp_device := []; mp_point := []; mp_sb := zero_superblock; mounted := false |}.

Definition fs_init : Cmd fs Z :=
  put {| mount_points := replicate MAX_MOUNT_POINTS zero_mount;
         file_descs := replicate MAX_OPEN_FILES zero_desc; cache := []; cache_size := 0 |} ;;;
  ret 0.

Definition find_free_fd (s : fs) : Z :=
  match list_find (fun d => fd_count d = 0) (file_descs s) with
  | Some (i, _) => Z.of_nat i
  | None => -1
  end.

(** [strncmp(path, p, strlen(p)) == 0]. *)
Fixpoint starts_with (p path : list Z) : bool :=
  match p, path with
  | [], _ => true
  | a :: p', b :: path' => (a =? b) && starts_with p' path'
  | _ :: _, [] => false
  end.

Fixpoint find_mount_loop (i : nat) (ms : list mount_point_t) (path : list Z) (longest : nat) (found : ptr) : ptr :=
  match ms with
  | [] => found
  | m :: ms' =>
      let len := length (mp_point m) in
      if mounted m && starts_with (mp_point m) path && (longest <? len)%nat
      then find_mount_loop (S i) ms' path len (Some i)
      else find_mount_loop (S i) ms' path longest found
  end.
Definition find_mount_point (path : list Z) (s : fs) : ptr := find_mount_loop 0 (mount_points s) path 0 None.

Section Operations.
Context {Y : Type} (ops : fs_ops Y).

Definition fs_get : Cmd (fs * Y) fs := gets fst.
Definition fs_modify (f : fs -> fs) : Cmd (fs * Y) unit := modify (fun s => (f (fst s), snd s)).
Definition fs_call {A : Type} (f : Y -> A * Y) : Cmd (fs * Y) A :=
  fun s => let r := f (snd s) in Ret (fst r) (fst s, snd r).
Definition get_mount (mp : nat) : Cmd (fs * Y) mount_point_t :=
  let* s := fs_get in deref (mount_points s !! mp).
(** [malloc], used without a check of its result. *)
Definition need_malloc (n : Z) : Cmd (fs * Y) unit :=
  let* ok := fs_call (fs_malloc ops n) in
  if ok : bool then ret tt else fail Fault.

(** A new block of the cache, put before [cache_head]. *)
Definition cache_insert (b : Z) (data : list Z) (dirty : bool) : Cmd (fs * Y) unit :=
  need_malloc 28 ;;;
  need_malloc BLOCK_SIZE ;;;
  fs_modify (fun s => set_cache (cache s ++ [{| block_no := b; c_data := data; c_dirty := dirty; ref_count := 1 |}]) s) ;;;
  fs_modify (fun s => set_cache_size (u32 (cache_size s + 1)) s).

(** [while (cache_size > MAX_CACHE_BLOCKS)]: free [cache_head->prev]. *)
Fixpoint cache_shrink (fuel : nat) (mp : nat) : Cmd (fs * Y) unit :=
  let* s := fs_get in
  if MAX_CACHE_BLOCKS <? cache_size s then
    match fuel with
    | O => fail NoFuel
    | S fuel' =>
        let* oldest := deref (last (cache s)) in
        (if c_dirty oldest then
           let* m := get_mount mp in
           let* _ := fs_call (device_write ops (mp_device m) (u32 (block_no oldest * BLOCK_SIZE)) (c_data oldest)) in
           ret tt
         else ret tt) ;;;
        fs_modify (fun s => set_cache (removelast (cache s)) s) ;;;
        fs_modify (fun s => set_cache_size (u32 (cache_size s - 1)) s) ;;;
        cache_shrink fuel' mp
    end
  else ret tt.

(** The result and the buffer. *)
Definition read_block (fuel : nat) (mp : nat) (b : Z) : Cmd (fs * Y) (Z * list Z) :=
  let* s := fs_get in
  match cache_get_block ops b (cache s) with
  | Some i => let* c := deref (cache s !! i) in ret (0, c_data c)
  | None =>
      let* m := get_mount mp in
      let* r := fs_call (device_read ops (mp_device m) (u32 (b * BLOCK_SIZE)) BLOCK_SIZE) in
      if fst r =? BLOCK_SIZE then
        cache_insert b (snd r) false ;;;
        cache_shrink fuel mp ;;;
        ret (0, snd r)
      else ret (-1, snd r)
  end.

Definition write_block (b : Z) (buffer : list Z) : Cmd (fs * Y) Z :=
  let* s := fs_get in
  match cache_get_block ops b (cache s) with
  | Some i =>
      let* c := deref (cache s !! i) in
      fs_modify (fun s => set_cache (<[i := set_c_dirty true (set_c_data buffer c)]> (cache s)) s) ;;;
      ret 0
  | None => cache_insert b buffer true ;;; ret 0
  end.

(** The scan for a clear bit, from [bit] on, of the [n] bits left; a read beyond
    the buffer is a fault. *)
Fixpoint find_clear (n : nat) (bit : Z) (bitmap : list Z) : Cmd (fs * Y) (option Z) :=
  match n with
  | O => ret None
  | S n' =>
      let* b := deref (bitmap !! Z.to_nat (bit / 8)) in
      if Z.testbit b (bit mod 8) then find_clear n' (bit + 1) bitmap else ret (Some bit)
  end.

Definition put_sb (mp : nat) (f : superblock_t -> superblock_t) : Cmd (fs * Y) unit :=
  fs_modify (fun s => set_mount_points (alter (fun m => set_mp_sb (f (mp_sb m)) m) mp (mount_points s)) s).

(** [sb_block sb]: the 4096 bytes from the address of the superblock [sb] on. *)
Context (sb_block : superblock_t -> list Z).

(** The loop over the groups, [n] of them left. *)
Fixpoint alloc_groups (fuel : nat) (mp : nat) (bitmap_block : Z) (n : nat) (group : Z) : Cmd (fs * Y) Z :=
  match n with
  | O => ret 0
  | S n' =>
      let* r := read_block fuel mp (u32 (bitmap_block + group)) in
      let* m := get_mount mp in
      let bpg := blocks_per_group (mp_sb m) in
      let* found := find_clear (Z.to_nat bpg) 0 (snd r) in
      match found with
      | None => alloc_groups fuel mp bitmap_block n' (group + 1)
      | Some bit =>
          let bitmap := alter (fun b => set_bit b (bit mod 8)) (Z.to_nat (bit / 8)) (snd r) in
          let* _ := write_block (u32 (bitmap_block + group)) bitmap in
          put_sb mp (fun sb => set_free_blocks (u32 (free_blocks sb - 1)) sb) ;;;
          let* m' := get_mount mp in
          let* _ := write_block 0 (sb_block (mp_sb m')) in
          ret (u32 (u32 (group * bpg) + bit))
      end
  end.

Definition alloc_block (fuel : nat) (mp : nat) : Cmd (fs * Y) Z :=
  let* m := get_mount mp in
  let sb := mp_sb m in
  if free_blocks sb =? 0 then ret 0 else
  alloc_groups fuel mp (u32 (first_data_block sb + 1)) (Z.to_nat (block_group_nr sb)) 0.

Definition free_block (fuel : nat) (mp : nat) (b : Z) : Cmd (fs * Y) unit :=
  let* m := get_mount mp in
  let sb := mp_sb m in
  if blocks_per_group sb =? 0 then fail Fault else
  let group := b / blocks_per_group sb in
  let bit := b mod blocks_per_group sb in
  let bitmap_block := u32 (first_data_block sb + 1 + group) in
  let* r := read_block fuel mp bitmap_block in
  let* _ := deref (snd r !! Z.to_nat (bit / 8)) in
  let bitmap := alter (fun b => clear_bit b (bit mod 8)) (Z.to_nat (bit / 8)) (snd r) in
  let* _ := write_block bitmap_block bitmap in
  put_sb mp (fun sb => set_free_blocks (u32 (free_blocks sb + 1)) sb) ;;;
  let* m' := get_mount mp in
  let* _ := write_block 0 (sb_block (mp_sb m')) in
  ret tt.

(** ** Inodes *)
Definition inode_bytes (i : inode_t) : list Z :=
  le16 (i_mode i) ++ le16 (uid i) ++ le16 (gid i) ++ padding i ++ le32 (i_size i) ++ le32 (atime i) ++
  le32 (i_mtime i) ++ le32 (ctime i) ++ le32 (blocks i) ++ mjoin (le32 <$> direct i) ++
  le32 (indirect i) ++ le32 (double_indirect i) ++ le32 (triple_indirect i).
Definition SIZEOF_INODE : Z := 88.

Definition bytes_inode (d : list Z) : inode_t :=
  let w k := val32 (slice k 4 d) in
  {| i_mode := val16 (slice 0 2 d); uid := val16 (slice 2 2 d); gid := val16 (slice 4 2 d);
     padding := slice 6 2 d; i_size := w 8%nat; atime := w 12%nat; i_mtime := w 16%nat; ctime := w 20%nat;
     blocks := w 24%nat; direct := (fun k => w (28 + 4 * k)%nat) <$> seq 0 12;
     indirect := w 76%nat; double_indirect := w 80%nat; triple_indirect := w 84%nat |}.

(** Block and offset of an inode; [inodes_per_group = 0] is a division by zero. *)
Definition inode_place (sb : superblock_t) (inode_no : Z) : option (Z * Z) :=
  if inodes_per_group sb =? 0 then None else
  let group := u32 (inode_no - 1) / inodes_per_group sb in
  let index := u32 (inode_no - 1) mod inodes_per_group sb in
  let inode_table := u32 (first_inode sb + group * inodes_per_group sb) in
  Some (u32 (inode_table + u32 (index * inode_size sb) / BLOCK_SIZE), u32 (index * inode_size sb) mod BLOCK_SIZE).

(** [memcpy] of an inode out of and into a block; across its end it is a fault. *)
Definition read_inode (fuel : nat) (mp : nat) (inode_no : Z) : Cmd (fs * Y) (option inode_t) :=
  let* m := get_mount mp in
  let* p := deref (inode_place (mp_sb m) inode_no) in
  let* r := read_block fuel mp (fst p) in
  if fst r <? 0 then ret None else
  if BLOCK_SIZE <? snd p + SIZEOF_INODE then fail Fault else
  ret (Some (bytes_inode (slice (Z.to_nat (snd p)) 88 (snd r)))).

Definition write_inode (fuel : nat) (mp : nat) (inode_no : Z) (i : inode_t) : Cmd (fs * Y) Z :=
  let* m := get_mount mp in
  let* p := deref (inode_place (mp_sb m) inode_no) in
  let* r := read_block fuel mp (fst p) in
  if fst r <? 0 then ret (-1) else
  if BLOCK_SIZE <? snd p + SIZEOF_INODE then fail Fault else
  let* w := write_block (fst p) (splice (Z.to_nat (snd p)) (inode_bytes i) (snd r)) in
  if w <? 0 then ret (-1) else ret 0.
End Operations.

(** ** The array of blocks the cache implements

    [disk y dev off] is the block of the device [dev] at byte offset [off]. *)
Record fs_laws {Y} (ops : fs_ops Y) (disk : Y -> list Z -> Z -> list Z) : Prop := {
  fl_cache : forall b c, match cache_get_block ops b c with
                         | Some i => exists e, c !! i = Some e /\ block_no e = b
                         | None => forall e, e ∈ c -> block_no e <> b
                         end;
  fl_read : forall dev off y, let '(n, d, y') := device_read ops dev off BLOCK_SIZE y in
    n = BLOCK_SIZE /\ d = disk y dev off /\ disk y' = disk y;
  fl_write : forall dev off d y, length d = 4096%nat -> let y' := snd (device_write ops dev off d y) in
    forall dev' off', disk y' dev' off' = if decide (dev' = dev /\ off' = off) then d else disk y dev' off';
  fl_malloc : forall n y, fst (fs_malloc ops n y) = true /\ disk (snd (fs_malloc ops n y)) = disk y;
  fl_len : forall y dev off, length (disk y dev off) = 4096%nat
}.

Definition valid_block (b : Z) : Prop := 0 <= b < 1048576.

(** The block [b] as the cache in front of the device [dev] shows it. *)
Definition cached (b : Z) (c : list cache_block_t) : option cache_block_t :=
  snd <$> list_find (fun e => block_no e = b) c.
Definition shown (d : Z -> list Z) (c : list cache_block_t) (b : Z) : list Z :=
  match cached b c with Some e => c_data e | None => d (b * BLOCK_SIZE) end.

Record cache_ok (d : Z -> list Z) (c : list cache_block_t) : Prop := {
  co_nodup : NoDup (block_no <$> c);
  co_entry : forall e, e ∈ c -> valid_block (block_no e) /\ length (c_data e) = 4096%nat;
  co_clean : forall e, e ∈ c -> c_dirty e = false -> c_data e = d (block_no e * BLOCK_SIZE)
}.

Lemma cached_Some b c e : NoDup (block_no <$> c) -> e ∈ c -> block_no e = b -> cached b c = Some e.
Proof.
  intros Hnd He Hb. unfold cached. destruct (list_find _ c) as [[i x]|] eqn:E; simpl.
  - apply list_find_Some in E as (Hi & Hx & _). apply list_elem_of_lookup in He as [j Hj]. f_equal.
    assert (i = j) as ->; [|congruence]. apply (NoDup_lookup _ _ _ b Hnd); rewrite list_lookup_fmap.
    + by rewrite Hi; simpl; rewrite Hx.
    + by rewrite Hj; simpl; rewrite Hb.
  - exfalso. apply list_find_None in E. eapply Forall_forall in E; [|exact He]. by apply E.
Qed.

Lemma cached_None b c : (forall e, e ∈ c -> block_no e <> b) -> cached b c = None.
Proof.
  intros H. unfold cached. destruct (list_find _ c) as [[i x]|] eqn:E; [|done].
  apply list_find_Some in E as (Hi & Hx & _). exfalso. apply (H x); [by eapply list_elem_of_lookup_2|done].
Qed.

Lemma cached_elem b c e : cached b c = Some e -> e ∈ c /\ block_no e = b.
Proof.
  unfold cached. destruct (list_find _ c) as [[i x]|] eqn:E; [|done]. intros [= <-].
  apply list_find_Some in E as (Hi & Hx & _). split; [by eapply list_elem_of_lookup_2|done].
Qed.

(** Adding an entry for a block that has none. *)
Lemma cached_snoc b c e :
  cached b (c ++ [e]) = match cached b c with Some x => Some x
                        | None => if decide (block_no e = b) then Some e else None end.
Proof.
  unfold cached. destruct (list_find (fun e => block_no e = b) c) as [[i x]|] eqn:E; simpl.
  - by rewrite (list_find_app_l _ _ _ _ _ E).
  - rewrite list_find_app_r by done. simpl. by case_decide.
Qed.

Lemma cache_ok_snoc d c e :
  cache_ok d c -> (forall x, x ∈ c -> block_no x <> block_no e) ->
  valid_block (block_no e) -> length (c_data e) = 4096%nat ->
  (c_dirty e = false -> c_data e = d (block_no e * BLOCK_SIZE)) ->
  cache_ok d (c ++ [e]) /\ forall b, shown d (c ++ [e]) b = if decide (b = block_no e) then c_data e else shown d c b.
Proof.
  intros [H1 H2 H3] Hne Hv Hl Hc. split.
  - split.
    + rewrite fmap_app. apply NoDup_app. split; [done|]. split; [|simpl; apply NoDup_singleton].
      intros b Hb ->%list_elem_of_singleton. apply list_elem_of_fmap in Hb as (x & Hx & Hin). by apply (Hne x).
    + intros x [Hx| ->%list_elem_of_singleton]%elem_of_app; [by apply H2|done].
    + intros x [Hx| ->%list_elem_of_singleton]%elem_of_app; [by apply H3|done].
  - intros b. unfold shown. rewrite cached_snoc. destruct (decide (b = block_no e)) as [->|Hb].
    + rewrite (cached_None _ c) by done. by rewrite decide_True.
    + destruct (cached b c); [done|]. by rewrite decide_False by congruence.
Qed.

(** Dropping the last entry, written back when dirty. *)
Lemma cache_ok_drop d d' c e :
  cache_ok d (c ++ [e]) -> (forall off, d' off = if decide (c_dirty e = true /\ off = block_no e * BLOCK_SIZE) then c_data e else d off) ->
  cache_ok d' c /\ forall b, shown d' c b = shown d (c ++ [e]) b.
Proof.
  assert (forall x, x ∈ c -> x ∈ c ++ [e]) as Hl by (intros x Hx; apply elem_of_app; by left).
  assert (e ∈ c ++ [e]) as He by (apply elem_of_app; right; apply list_elem_of_here).
  intros [H1 H2 H3] Hd. rewrite fmap_app in H1. apply NoDup_app in H1 as (H1 & Hdis & _).
  assert (Hne : forall x, x ∈ c -> block_no x <> block_no e).
  { intros x Hx Heq. apply (Hdis (block_no e)); [rewrite <- Heq; by apply list_elem_of_fmap_2|apply list_elem_of_here]. }
  split.
  - split; [done|intros x Hx; by apply H2, Hl|]. intros x Hx Hcl. rewrite Hd, decide_False.
    + by apply H3; [apply Hl|].
    + intros [_ Heq]. apply (Hne x Hx). unfold BLOCK_SIZE in Heq. lia.
  - intros b. unfold shown. rewrite cached_snoc. destruct (cached b c) as [x|]; [done|]. rewrite Hd.
    destruct (decide (block_no e = b)) as [<-|Hb].
    + destruct (c_dirty e) eqn:Ed; [by rewrite decide_True|]. rewrite decide_False by (by intros []).
      symmetry. by apply H3.
    + rewrite decide_False; [done|]. intros [_ Heq]. unfold BLOCK_SIZE in Heq. lia.
Qed.

Section Spec.
Context {Y : Type} (ops : fs_ops Y) (disk : Y -> list Z -> Z -> list Z) (Hlaws : fs_laws ops disk).

(** Seen through the cache, the blocks of [dev] are [V]. *)
Record blocks_are (dev : list Z) (V : Z -> list Z) (s : fs * Y) : Prop := {
  ba_ok : cache_ok (disk (snd s) dev) (cache (fst s));
  ba_size : cache_size (fst s) = Z.of_nat (length (cache (fst s)));
  ba_shown : forall b, valid_block b -> shown (disk (snd s) dev) (cache (fst s)) b = V b
}.
Definition same_tables (s s' : fs * Y) : Prop :=
  mount_points (fst s') = mount_points (fst s) /\ file_descs (fst s') = file_descs (fst s).
Definition mounted_on (mp : nat) (dev : list Z) (s : fs * Y) : Prop :=
  exists m, mount_points (fst s) !! mp = Some m /\ mp_device m = dev.

Lemma cache_bound d c : cache_ok d c -> Z.of_nat (length c) <= 1048576.
Proof using.
  intros [Hnd Hv _]. rewrite <- (length_fmap block_no c).
  assert ((block_no <$> c) ⊆+ seqZ 0 1048576) as Hsub%submseteq_length.
  { apply NoDup_submseteq; [done|]. intros b (e & -> & He)%list_elem_of_fmap. apply elem_of_seqZ.
    destruct (Hv e He) as [Hb _]. unfold valid_block in Hb. lia. }
  rewrite length_seqZ in Hsub. lia.
Qed.

Lemma get_mount_Ret mp (s : fs * Y) m : mount_points (fst s) !! mp = Some m -> get_mount mp s = Ret m s.
Proof using. intros H. unfold get_mount. erewrite bind_Ret by reflexivity. by rewrite H. Qed.

Lemma need_malloc_spec dev n fs0 y :
  exists y', need_malloc ops n (fs0, y) = Ret tt (fs0, y') /\ disk y' dev = disk y dev.
Proof using Hlaws.
  destruct (fl_malloc _ _ Hlaws n y) as [H1 H2]. exists (snd (fs_malloc ops n y)). split; [|by rewrite H2].
  unfold need_malloc. erewrite bind_Ret by reflexivity. simpl. by rewrite H1.
Qed.

(** Room for the block [b] shows it in the cache. *)
Lemma cache_insert_spec dev V s b d dirty :
  blocks_are dev V s -> valid_block b -> (forall e, e ∈ cache (fst s) -> block_no e <> b) -> length d = 4096%nat ->
  (dirty = false -> d = V b) ->
  exists s', cache_insert ops b d dirty s = Ret tt s' /\ same_tables s s' /\
    blocks_are dev (fun b' => if decide (b' = b) then d else V b') s'.
Proof using Hlaws.
  intros [Hok Hsz Hsh] Hb Hno Hd Hcl. destruct s as [fs0 y]. simpl in *. unfold cache_insert.
  destruct (need_malloc_spec dev 28 fs0 y) as (y1 & H1 & E1). erewrite bind_Ret by exact H1.
  destruct (need_malloc_spec dev BLOCK_SIZE fs0 y1) as (y2 & H2 & E2). erewrite bind_Ret by exact H2.
  erewrite bind_Ret by reflexivity. eexists. split; [reflexivity|]. split; [done|].
  set (e := {| block_no := b; c_data := d; c_dirty := dirty; ref_count := 1 |}).
  destruct (cache_ok_snoc (disk y dev) (cache fs0) e Hok) as [Hok' Hsh']; try done.
  { simpl. intros ->. rewrite Hcl by done. rewrite <- Hsh by done. unfold shown. by rewrite cached_None. }
  pose proof (cache_bound _ _ Hok') as Hbound. rewrite length_app in Hbound. simpl in Hbound.
  split; simpl; rewrite ?E2, ?E1; [done|rewrite u32_small by lia; rewrite length_app; simpl; lia|].
  intros b' Hb'. rewrite Hsh'. simpl. case_decide; [done|by apply Hsh].
Qed.

Lemma cache_shrink_spec dev V mp n : forall s,
  blocks_are dev V s -> mounted_on mp dev s -> Z.of_nat (length (cache (fst s))) <= Z.of_nat n ->
  exists s', cache_shrink ops n mp s = Ret tt s' /\ same_tables s s' /\ blocks_are dev V s'.
Proof using Hlaws.
  induction n as [|n IH]; intros [fs0 y] Hba (m & Hm & Hdev) Hn; simpl; (erewrite bind_Ret by reflexivity);
    pose proof Hba as [Hok Hsz Hsh]; simpl in *; rewrite Hsz; unfold MAX_CACHE_BLOCKS.
  - destruct (Z.ltb_spec 1024 (Z.of_nat (length (cache fs0)))); [lia|]. eexists. split; [done|]. by split.
  - destruct (Z.ltb_spec 1024 (Z.of_nat (length (cache fs0)))) as [Hlt|Hge]; [|eexists; split; [done|by split]].
    destruct (cache fs0) as [|e c _] eqn:Ec using rev_ind; [simpl in Hlt; lia|].
    rewrite last_snoc. erewrite bind_Ret by reflexivity.
    assert (exists y', (if c_dirty e then
               let* m := get_mount mp in
               let* _ := fs_call (device_write ops (mp_device m) (u32 (block_no e * BLOCK_SIZE)) (c_data e)) in ret tt
             else ret tt) (fs0, y) = Ret tt (fs0, y') /\
             forall off, disk y' dev off = if decide (c_dirty e = true /\ off = block_no e * BLOCK_SIZE) then c_data e else disk y dev off)
      as (y' & Hw & Hdisk).
    { destruct (c_dirty e) eqn:Ed.
      - eexists. split.
        { erewrite bind_Ret by (by apply get_mount_Ret). erewrite bind_Ret by reflexivity. reflexivity. }
        intros off. simpl. destruct (co_entry _ _ Hok e) as [Hv Hlen]; [apply elem_of_app; right; apply list_elem_of_here|].
        rewrite (fl_write _ _ Hlaws), Hdev by exact Hlen. unfold valid_block in Hv. unfold BLOCK_SIZE.
        rewrite u32_small by lia. repeat case_decide; naive_solver.
      - exists y. split; [done|]. intros off. rewrite decide_False; [done|]. by intros []. }
    erewrite bind_Ret by exact Hw. do 2 (erewrite bind_Ret by reflexivity). simpl.
    rewrite Ec, removelast_last. rewrite length_app in *. simpl in *.
    destruct (cache_ok_drop _ (disk y' dev) _ _ Hok Hdisk) as [Hok' Hsh'].
    rewrite Hsz, u32_small by (pose proof (cache_bound _ _ Hok); rewrite length_app in *; simpl in *; lia).
    edestruct IH as (s' & Hr & [Ht1 Ht2] & Hba'); [| | |exists s'; split; [exact Hr|split; [by split|exact Hba']]].
    + split; simpl; [exact Hok'|lia|]. intros b Hb. rewrite Hsh'. by apply Hsh.
    + by exists m.
    + simpl. lia.
Qed.

Lemma read_block_spec fuel dev V mp b s :
  1048576 <= Z.of_nat fuel -> blocks_are dev V s -> mounted_on mp dev s -> valid_block b ->
  exists s', read_block ops fuel mp b s = Ret (0, V b) s' /\ same_tables s s' /\ blocks_are dev V s'.
Proof using Hlaws.
  intros Hfuel Hba Hmp Hb. destruct s as [fs0 y]. pose proof Hba as [Hok Hsz Hsh]. simpl in *. unfold read_block.
  erewrite bind_Ret by reflexivity. simpl. pose proof (fl_cache _ _ Hlaws b (cache fs0)) as Hc.
  destruct (cache_get_block ops b (cache fs0)) as [i|].
  - destruct Hc as (e & He & Heb). rewrite He. erewrite bind_Ret by reflexivity.
    exists (fs0, y). split; [|by split]. rewrite <- Hsh by done. unfold shown.
    by rewrite (cached_Some b _ e) by (done || apply Hok || by eapply list_elem_of_lookup_2).
  - destruct Hmp as (m & Hm & Hdev). erewrite bind_Ret by (by apply get_mount_Ret).
    pose proof (fl_read _ _ Hlaws dev (u32 (b * BLOCK_SIZE)) y) as Hr.
    destruct (device_read ops dev (u32 (b * BLOCK_SIZE)) BLOCK_SIZE y) as [[n d] y1] eqn:Er.
    destruct Hr as (-> & -> & Hy1).
    erewrite bind_Ret by (unfold fs_call; simpl; rewrite Hdev, Er; reflexivity). simpl.
    assert (HV : disk y dev (u32 (b * BLOCK_SIZE)) = V b).
    { rewrite <- Hsh by done. unfold shown. rewrite cached_None by done. unfold valid_block, BLOCK_SIZE in *.
      by rewrite u32_small by lia. }
    rewrite HV. assert (Hba1 : blocks_are dev V (fs0, y1)) by (split; simpl; rewrite ?Hy1; done).
    destruct (cache_insert_spec dev V (fs0, y1) b (V b) false Hba1 Hb Hc) as (s2 & H2 & [Ht1 Ht2] & Hba2);
      [rewrite <- HV; apply (fl_len _ _ Hlaws)|done|].
    erewrite bind_Ret by exact H2.
    assert (Hba3 : blocks_are dev V s2).
    { destruct Hba2 as [? ? Hs2]. split; [done|done|]. intros b' Hb'. rewrite Hs2 by done. by case_decide; [subst|]. }
    destruct (cache_shrink_spec dev V mp fuel s2 Hba3) as (s3 & H3 & [Ht3 Ht4] & Hba4).
    + exists m. by rewrite Ht1.
    + pose proof (cache_bound _ _ (ba_ok _ _ _ Hba3)). lia.
    + erewrite bind_Ret by exact H3. exists s3. split; [done|]. split; [|done]. simpl in *. split; simpl; congruence.
Qed.

Lemma write_block_spec dev V b d s :
  blocks_are dev V s -> valid_block b -> length d = 4096%nat ->
  exists s', write_block ops b d s = Ret 0 s' /\ same_tables s s' /\
    blocks_are dev (fun b' => if decide (b' = b) then d else V b') s'.
Proof using Hlaws.
  intros Hba Hb Hd. destruct s as [fs0 y]. pose proof Hba as [Hok Hsz Hsh]. simpl in *. unfold write_block.
  erewrite bind_Ret by reflexivity. simpl. pose proof (fl_cache _ _ Hlaws b (cache fs0)) as Hc.
  destruct (cache_get_block ops b (cache fs0)) as [i|].
  - destruct Hc as (e & He & Heb). rewrite He. do 2 (erewrite bind_Ret by reflexivity).
    eexists. split; [reflexivity|]. split; [done|].
    set (e' := set_c_dirty true (set_c_data d e)).
    assert (Hnos : block_no <$> <[i:=e']> (cache fs0) = block_no <$> cache fs0).
    { rewrite list_fmap_insert. apply list_insert_id. rewrite list_lookup_fmap, He. done. }
    assert (Hin : forall x, x ∈ <[i:=e']> (cache fs0) -> x = e' \/ x ∈ cache fs0).
    { intros x [j Hj]%list_elem_of_lookup. apply list_lookup_insert_Some in Hj as [(_ & -> & _)|[_ Hj]]; [by left|].
      right. by eapply list_elem_of_lookup_2. }
    destruct Hok as [H1 H2 H3]. split; simpl; [|by rewrite length_insert|].
    + split; [by rewrite Hnos| |].
      * intros x [->|Hx]%Hin; [|by apply H2]. simpl. rewrite Heb. done.
      * intros x [->|Hx]%Hin Hx2; [done|by apply H3].
    + intros b' Hb'. unfold shown. case_decide as Hbb.
      * subst b'. rewrite (cached_Some b _ e'); [done|by rewrite Hnos| |done].
        eapply list_elem_of_lookup_2, list_lookup_insert_eq. by eapply lookup_lt_Some.
      * rewrite <- Hsh by done. unfold shown. destruct (cached b' (cache fs0)) as [x|] eqn:Ex.
        -- apply cached_elem in Ex as [Hx Hxb]. rewrite (cached_Some b' _ x); [done|by rewrite Hnos| |done].
           apply list_elem_of_lookup in Hx as [j Hj]. apply (list_elem_of_lookup_2 _ j).
           rewrite list_lookup_insert_ne; [done|]. intros ->. by simplify_eq.
        -- rewrite cached_None; [done|]. intros x [->|Hx]%Hin; [simpl; congruence|].
           intros Hxb. rewrite (cached_Some b' _ x H1 Hx Hxb) in Ex. done.
  - destruct (cache_insert_spec dev V (fs0, y) b d true Hba Hb Hc Hd) as (s2 & H2 & Ht & Hba2); [done|].
    erewrite bind_Ret by exact H2. by exists s2.
Qed.

(** ** The bitmap *)
Context (sb_block : superblock_t -> list Z) (Hsb : forall sb, length (sb_block sb) = 4096%nat).

Lemma find_clear_spec bm (s : fs * Y) : forall n bit,
  length bm = 4096%nat -> 0 <= bit -> bit + Z.of_nat n <= 32768 ->
  exists r, find_clear n bit bm s = Ret r s /\
    match r with
    | None => forall k, bit <= k < bit + Z.of_nat n -> bit_of bm k = true
    | Some k => bit <= k < bit + Z.of_nat n /\ bit_of bm k = false /\
                forall j, bit <= j < k -> bit_of bm j = true
    end.
Proof using.
  induction n as [|n IH]; intros bit Hl H0 Hn; simpl.
  - exists None. split; [done|]. lia.
  - assert (Z.to_nat (bit / 8) < length bm)%nat as [b Hb]%lookup_lt_is_Some_2.
    { rewrite Hl. pose proof (Z.div_lt_upper_bound bit 8 4096). pose proof (Z.div_pos bit 8). lia. }
    rewrite Hb. erewrite bind_Ret by reflexivity.
    assert (bit_of bm bit = Z.testbit b (bit mod 8)) as Hbit by (unfold bit_of; by rewrite Hb).
    destruct (Z.testbit b (bit mod 8)).
    + destruct (IH (bit + 1)) as (r & Hr & Hspec); [done|lia|lia|]. exists r. split; [done|].
      assert (forall j, bit <= j -> j < bit + 1 \/ bit + 1 <= j) as Hcase by lia.
      destruct r as [k|].
      * destruct Hspec as (Hk & Hc & Hall). split; [lia|]. split; [done|]. intros j Hj.
        destruct (Hcase j) as [?|?]; [lia| |by apply Hall; lia]. by replace j with bit by lia.
      * intros j Hj. destruct (Hcase j) as [?|?]; [lia| |by apply Hspec; lia]. by replace j with bit by lia.
    + exists (Some bit). split; [done|]. split; [lia|]. split; [done|]. lia.
Qed.

(** The bitmap with bit [k] set, or cleared. *)
Definition bm_set (k : Z) (bm : list Z) : list Z := alter (fun b => set_bit b (k mod 8)) (Z.to_nat (k / 8)) bm.
Definition bm_clear (k : Z) (bm : list Z) : list Z := alter (fun b => clear_bit b (k mod 8)) (Z.to_nat (k / 8)) bm.

(** The array of blocks after a change of the bitmap block [b]. *)
Definition with_bitmap (V : Z -> list Z) (b : Z) (bm : list Z) (sb : superblock_t) (x : Z) : list Z :=
  if decide (x = 0) then sb_block sb else if decide (x = b) then bm else V x.

Definition used_block (sb : superblock_t) : superblock_t := set_free_blocks (u32 (free_blocks sb - 1)) sb.
Definition freed_block (sb : superblock_t) : superblock_t := set_free_blocks (u32 (free_blocks sb + 1)) sb.

Lemma blocks_are_ext dev V V' s : (forall b, V b = V' b) -> blocks_are dev V s -> blocks_are dev V' s.
Proof using. intros H [H1 H2 H3]. split; [done|done|]. intros b Hb. by rewrite <- H, H3. Qed.

(** The end of [alloc_block] and [free_block]: store the bitmap, count, store the
    superblock. *)
Lemma store_bitmap {A} (r : A) dev V s mp m b bm (f : superblock_t -> superblock_t) :
  blocks_are dev V s -> mount_points (fst s) !! mp = Some m -> valid_block b -> 0 < b -> length bm = 4096%nat ->
  exists s1 s', write_block ops b bm s = Ret 0 s1 /\
    (put_sb mp f ;;; let* m' := get_mount mp in let* _ := write_block ops 0 (sb_block (mp_sb m')) in ret r) s1 = Ret r s' /\
    mount_points (fst s') = <[mp := set_mp_sb (f (mp_sb m)) m]> (mount_points (fst s)) /\
    file_descs (fst s') = file_descs (fst s) /\
    blocks_are dev (with_bitmap V b bm (f (mp_sb m))) s'.
Proof using Hlaws Hsb.
  intros Hba Hm Hb Hb0 Hl. destruct (write_block_spec dev V b bm s Hba Hb Hl) as (s1 & H1 & [Ht1 Ht2] & Hba1).
  exists s1.
  set (s2 := (set_mount_points (alter (fun m => set_mp_sb (f (mp_sb m)) m) mp (mount_points (fst s1))) (fst s1), snd s1)).
  assert (Hba2 : blocks_are dev (fun b' => if decide (b' = b) then bm else V b') s2) by (by destruct Hba1).
  assert (Hm2 : mount_points (fst s2) !! mp = Some (set_mp_sb (f (mp_sb m)) m)).
  { simpl. by rewrite list_lookup_alter_eq, Ht1, Hm. }
  destruct (write_block_spec dev _ 0 (sb_block (f (mp_sb m))) s2 Hba2) as (s3 & H3 & [Ht3 Ht4] & Hba3);
    [unfold valid_block; lia|apply Hsb|].
  exists s3. split; [done|]. split; [|split; [|split]].
  - erewrite bind_Ret by reflexivity. fold s2. erewrite bind_Ret by (by apply get_mount_Ret).
    by erewrite bind_Ret by exact H3.
  - rewrite Ht3. simpl. rewrite Ht1. apply list_eq. intros i. destruct (decide (i = mp)) as [->|Hi].
    + rewrite list_lookup_alter_eq, Hm, list_lookup_insert_eq by (by eapply lookup_lt_Some). done.
    + by rewrite list_lookup_alter_ne, list_lookup_insert_ne.
  - rewrite Ht4. simpl. by rewrite Ht2.
  - exact Hba3.
Qed.

(** Number and place of a block of the data area. *)
Definition bitmap_of (sb : superblock_t) (n : Z) : Z := first_data_block sb + 1 + n / blocks_per_group sb.
Definition allocated (sb : superblock_t) (V : Z -> list Z) (n : Z) : bool :=
  bit_of (V (bitmap_of sb n)) (n mod blocks_per_group sb).
Definition sb_ok (sb : superblock_t) : Prop :=
  0 <= first_data_block sb /\ 0 < blocks_per_group sb <= 32768 /\ 0 <= block_group_nr sb /\
  first_data_block sb + 1 + block_group_nr sb <= 1048576 /\ block_group_nr sb * blocks_per_group sb < 4294967296.
Definition in_groups (sb : superblock_t) (n : Z) : Prop := 0 <= n < block_group_nr sb * blocks_per_group sb.

Lemma block_len dev V s b : blocks_are dev V s -> valid_block b -> length (V b) = 4096%nat.
Proof using Hlaws.
  intros [Hok _ Hsh] Hb. rewrite <- Hsh by done. unfold shown.
  destruct (cached b (cache (fst s))) as [e|] eqn:E; [|apply (fl_len _ _ Hlaws)].
  apply cached_elem in E as [He _]. by apply (co_entry _ _ Hok).
Qed.

Lemma group_place sb g k :
  0 < blocks_per_group sb -> 0 <= k < blocks_per_group sb ->
  (g * blocks_per_group sb + k) / blocks_per_group sb = g /\ (g * blocks_per_group sb + k) mod blocks_per_group sb = k.
Proof using.
  intros Hb Hk. split; [rewrite Z.div_add_l, Z.div_small by lia; lia|].
  by rewrite (Z.add_comm (g * _) k), Z_mod_plus_full, Z.mod_small by lia.
Qed.

Lemma alloc_groups_spec fuel dev V mp m : forall n g s,
  1048576 <= Z.of_nat fuel -> blocks_are dev V s -> mount_points (fst s) !! mp = Some m -> mp_device m = dev ->
  let sb := mp_sb m in
  sb_ok sb -> 0 <= g -> g + Z.of_nat n = block_group_nr sb ->
  (forall j, 0 <= j < g * blocks_per_group sb -> allocated sb V j = true) ->
  exists r s', alloc_groups ops sb_block fuel mp (first_data_block sb + 1) n g s = Ret r s' /\
    file_descs (fst s') = file_descs (fst s) /\
    ((r = 0 /\ (forall j, in_groups sb j -> allocated sb V j = true) /\
      mount_points (fst s') = mount_points (fst s) /\ blocks_are dev V s') \/
     (in_groups sb r /\ allocated sb V r = false /\ (forall j, 0 <= j < r -> allocated sb V j = true) /\
      mount_points (fst s') = <[mp := set_mp_sb (used_block sb) m]> (mount_points (fst s)) /\
      blocks_are dev (with_bitmap V (bitmap_of sb r) (bm_set (r mod blocks_per_group sb) (V (bitmap_of sb r))) (used_block sb)) s')).
Proof using Hlaws Hsb.
  induction n as [|n IH]; intros g s Hfuel Hba Hm Hdev sb Hok Hg Hn Hall; pose proof Hok as (O1 & O2 & O3 & O4 & O5).
  - exists 0, s. simpl. split; [done|]. split; [done|]. left. split; [done|]. split; [|done].
    intros j Hj. apply Hall. unfold in_groups in Hj. by replace g with (block_group_nr sb) by lia.
  - cbn [alloc_groups]. set (b := first_data_block sb + 1 + g).
    assert (Hb : valid_block b) by (unfold valid_block; lia). rewrite (u32_small b) by (unfold valid_block in Hb; lia).
    destruct (read_block_spec fuel dev V mp b s Hfuel Hba (ex_intro _ m (conj Hm Hdev)) Hb)
      as (s1 & H1 & [Ht1 Ht2] & Hba1).
    erewrite bind_Ret by exact H1. erewrite bind_Ret by (apply get_mount_Ret; by rewrite Ht1). fold sb. cbv zeta.
    pose proof (block_len _ _ _ _ Hba Hb) as Hlen. cbn [snd].
    destruct (find_clear_spec (V b) s1 (Z.to_nat (blocks_per_group sb)) 0 Hlen) as (r & Hr & Hspec); [lia|lia|].
    erewrite bind_Ret by exact Hr.
    assert (Hplace : forall k, 0 <= k < blocks_per_group sb ->
              allocated sb V (g * blocks_per_group sb + k) = bit_of (V b) k /\ bitmap_of sb (g * blocks_per_group sb + k) = b).
    { intros k Hk. unfold allocated, bitmap_of. destruct (group_place sb g k) as [-> ->]; [lia|done|done]. }
    assert (Hbelow : forall k, 0 <= k <= blocks_per_group sb -> (forall j, 0 <= j < k -> bit_of (V b) j = true) ->
              forall j, 0 <= j < g * blocks_per_group sb + k -> allocated sb V j = true).
    { intros k Hk Hj j Hjk. destruct (decide (j < g * blocks_per_group sb)); [apply Hall; lia|].
      replace j with (g * blocks_per_group sb + (j - g * blocks_per_group sb)) by lia.
      rewrite (proj1 (Hplace (j - g * blocks_per_group sb) ltac:(lia))). apply Hj. lia. }
    destruct r as [k|].
    + destruct Hspec as (Hk0 & Hclear & Hset).
      assert (0 <= k < blocks_per_group sb) as Hk by lia. assert (0 < blocks_per_group sb) as Hbpg by lia. clear Hk0.
      destruct (store_bitmap (u32 (u32 (g * blocks_per_group sb) + k)) dev V s1 mp m b (bm_set k (V b)) used_block Hba1)
        as (s2 & s3 & H2 & H3 & Hm3 & Ht3 & Hba3); [by rewrite Ht1|done|lia|by unfold bm_set; rewrite length_alter|].
      assert (g * blocks_per_group sb + k < block_group_nr sb * blocks_per_group sb) by nia.
      assert (0 <= g * blocks_per_group sb) by nia. rewrite !u32_small in H3 by (rewrite ?u32_small; lia).
      exists (g * blocks_per_group sb + k), s3. split.
      { erewrite bind_Ret by exact H2. rewrite !u32_small by (rewrite ?u32_small; lia). exact H3. }
      split; [by rewrite Ht3|]. right. destruct (Hplace k) as [Ha1 Ha2]; [lia|].
      split; [unfold in_groups; lia|]. split; [by rewrite Ha1|]. split; [intros j Hj; apply (Hbelow k); [lia|exact Hset|exact Hj]|].
      split; [by rewrite Hm3, Ht1|]. rewrite Ha2. destruct (group_place sb g k) as [_ ->]; [lia|lia|]. exact Hba3.
    + destruct (IH (g + 1) s1 Hfuel Hba1) as (r & s' & Hr' & Ht' & Hcases); [by rewrite Ht1|done|done|lia|fold sb; lia| |].
      { fold sb. intros j Hj. apply (Hbelow (blocks_per_group sb)); [lia| |lia]. intros i Hi. apply Hspec. lia. }
      fold sb in Hr', Hcases. exists r, s'. split; [exact Hr'|]. split; [by rewrite Ht', Ht2|]. by rewrite Ht1 in Hcases.
Qed.

Lemma alloc_block_spec fuel dev V mp m s :
  1048576 <= Z.of_nat fuel -> blocks_are dev V s -> mount_points (fst s) !! mp = Some m -> mp_device m = dev ->
  let sb := mp_sb m in
  sb_ok sb ->
  exists r s', alloc_block ops sb_block fuel mp s = Ret r s' /\ file_descs (fst s') = file_descs (fst s) /\
    ((r = 0 /\ (free_blocks sb = 0 \/ forall j, in_groups sb j -> allocated sb V j = true) /\
      mount_points (fst s') = mount_points (fst s) /\ blocks_are dev V s') \/
     (free_blocks sb <> 0 /\ in_groups sb r /\ allocated sb V r = false /\
      (forall j, 0 <= j < r -> allocated sb V j = true) /\
      mount_points (fst s') = <[mp := set_mp_sb (used_block sb) m]> (mount_points (fst s)) /\
      blocks_are dev (with_bitmap V (bitmap_of sb r) (bm_set (r mod blocks_per_group sb) (V (bitmap_of sb r))) (used_block sb)) s')).
Proof using Hlaws Hsb.
  intros Hfuel Hba Hm Hdev sb Hok. pose proof Hok as (O1 & O2 & O3 & O4 & O5). unfold alloc_block.
  erewrite bind_Ret by (by apply get_mount_Ret). fold sb. cbv zeta.
  destruct (Z.eqb_spec (free_blocks sb) 0) as [H0|H0].
  - exists 0, s. split; [done|]. split; [done|]. left. split; [done|]. split; [by left|done].
  - rewrite u32_small by lia.
    destruct (alloc_groups_spec fuel dev V mp m (Z.to_nat (block_group_nr sb)) 0 s Hfuel Hba Hm Hdev Hok)
      as (r & s' & Hr & Ht & Hcases); [lia|fold sb; lia|lia|].
    fold sb in Hr, Hcases. exists r, s'. split; [exact Hr|]. split; [done|].
    destruct Hcases as [Hc|Hc]; [left|right]; tauto.
Qed.

Lemma free_block_spec fuel dev V mp m s n :
  1048576 <= Z.of_nat fuel -> blocks_are dev V s -> mount_points (fst s) !! mp = Some m -> mp_device m = dev ->
  let sb := mp_sb m in
  sb_ok sb -> in_groups sb n ->
  exists s', free_block ops sb_block fuel mp n s = Ret tt s' /\ file_descs (fst s') = file_descs (fst s) /\
    mount_points (fst s') = <[mp := set_mp_sb (freed_block sb) m]> (mount_points (fst s)) /\
    blocks_are dev (with_bitmap V (bitmap_of sb n) (bm_clear (n mod blocks_per_group sb) (V (bitmap_of sb n))) (freed_block sb)) s'.
Proof using Hlaws Hsb.
  intros Hfuel Hba Hm Hdev sb Hok Hn. pose proof Hok as (O1 & O2 & O3 & O4 & O5). unfold free_block.
  erewrite bind_Ret by (by apply get_mount_Ret). fold sb. cbv zeta. rewrite (proj2 (Z.eqb_neq _ 0)) by lia.
  set (g := n / blocks_per_group sb). set (k := n mod blocks_per_group sb).
  assert (Hk : 0 <= k < blocks_per_group sb) by (apply Z.mod_pos_bound; lia).
  assert (Hg : 0 <= g < block_group_nr sb).
  { unfold in_groups in Hn. split; [apply Z.div_pos; lia|]. apply Z.div_lt_upper_bound; lia. }
  set (b := first_data_block sb + 1 + g). assert (Hb : valid_block b) by (unfold valid_block; lia).
  rewrite (u32_small b) by (unfold valid_block in Hb; lia).
  destruct (read_block_spec fuel dev V mp b s Hfuel Hba (ex_intro _ m (conj Hm Hdev)) Hb)
    as (s1 & H1 & [Ht1 Ht2] & Hba1).
  erewrite bind_Ret by exact H1. cbn [snd].
  pose proof (block_len _ _ _ _ Hba Hb) as Hlen.
  assert (Z.to_nat (k / 8) < length (V b))%nat as [x Hx]%lookup_lt_is_Some_2.
  { rewrite Hlen. pose proof (Z.div_lt_upper_bound k 8 4096). pose proof (Z.div_pos k 8). lia. }
  rewrite Hx. erewrite bind_Ret by reflexivity.
  destruct (store_bitmap tt dev V s1 mp m b (bm_clear k (V b)) freed_block Hba1)
    as (s2 & s3 & H2 & H3 & Hm3 & Ht3 & Hba3); [by rewrite Ht1|done|lia|by unfold bm_clear; rewrite length_alter|].
  exists s3. split; [erewrite bind_Ret by exact H2; exact H3|]. split; [by rewrite Ht3|]. split; [by rewrite Hm3, Ht1|done].
Qed.

(** Changing one bit changes what is allocated for one block only. *)
Lemma bit_of_alter (f : Z -> Z) bm k j :
  length bm = 4096%nat -> 0 <= k < 32768 -> 0 <= j ->
  bit_of (alter f (Z.to_nat (k / 8)) bm) j =
  if decide (j / 8 = k / 8) then Z.testbit (f (default 0 (bm !! Z.to_nat (k / 8)))) (j mod 8) else bit_of bm j.
Proof using.
  intros Hl Hk Hj. unfold bit_of. pose proof (Z.div_pos k 8). pose proof (Z.div_pos j 8).
  pose proof (Z.div_lt_upper_bound k 8 4096). case_decide as Hjk.
  - rewrite Hjk, list_lookup_alter_eq.
    assert (Z.to_nat (k / 8) < length bm)%nat as [x ->]%lookup_lt_is_Some_2 by lia. done.
  - rewrite list_lookup_alter_ne; [done|]. lia.
Qed.

Lemma bit_index j k : j / 8 = k / 8 -> j mod 8 = k mod 8 -> j = k.
Proof using. intros H1 H2. rewrite (Z.div_mod j 8), (Z.div_mod k 8) by lia. by rewrite H1, H2. Qed.

Lemma bm_set_bit bm k j :
  length bm = 4096%nat -> 0 <= k < 32768 -> 0 <= j -> bit_of (bm_set k bm) j = bool_decide (j = k) || bit_of bm j.
Proof using.
  intros Hl Hk Hj. unfold bm_set. rewrite bit_of_alter by done.
  pose proof (Z.mod_pos_bound k 8 ltac:(lia)). pose proof (Z.mod_pos_bound j 8 ltac:(lia)).
  case_decide as Hjk.
  - rewrite set_bit_spec by lia. unfold bit_of at 1. rewrite Hjk. f_equal.
    apply bool_decide_ext. split; [by apply bit_index|by intros ->].
  - by rewrite bool_decide_eq_false_2 by (by intros ->).
Qed.

Lemma bm_clear_bit bm k j :
  length bm = 4096%nat -> 0 <= k < 32768 -> 0 <= j -> bit_of (bm_clear k bm) j = negb (bool_decide (j = k)) && bit_of bm j.
Proof using.
  intros Hl Hk Hj. unfold bm_clear. rewrite bit_of_alter by done.
  pose proof (Z.mod_pos_bound k 8 ltac:(lia)). pose proof (Z.mod_pos_bound j 8 ltac:(lia)).
  case_decide as Hjk.
  - rewrite clear_bit_spec by lia. unfold bit_of at 1. rewrite Hjk. f_equal. f_equal.
    apply bool_decide_ext. split; [by apply bit_index|by intros ->].
  - by rewrite bool_decide_eq_false_2 by (by intros ->).
Qed.

Lemma with_bitmap_allocated dev V s sb sb' n (f : Z -> list Z -> list Z) (op : bool -> bool -> bool) j :
  blocks_are dev V s -> sb_ok sb -> in_groups sb n -> in_groups sb j ->
  blocks_per_group sb' = blocks_per_group sb -> first_data_block sb' = first_data_block sb ->
  (forall bm k i, length bm = 4096%nat -> 0 <= k < 32768 -> 0 <= i -> bit_of (f k bm) i = op (bool_decide (i = k)) (bit_of bm i)) ->
  (forall x, op false x = x) ->
  allocated sb' (with_bitmap V (bitmap_of sb n) (f (n mod blocks_per_group sb) (V (bitmap_of sb n))) sb') j
  = op (bool_decide (j = n)) (allocated sb V j).
Proof using Hlaws.
  intros Hba (O1 & O2 & O3 & O4 & O5) Hn Hj Hb Hf Hspec Hop. unfold allocated.
  assert (bitmap_of sb' j = bitmap_of sb j) as -> by (unfold bitmap_of; by rewrite Hb, Hf). rewrite Hb.
  assert (Hg : forall i, in_groups sb i -> valid_block (bitmap_of sb i) /\ 0 < bitmap_of sb i).
  { intros i Hi. unfold in_groups in Hi. unfold bitmap_of, valid_block.
    assert (0 <= i / blocks_per_group sb) by (apply Z.div_pos; lia).
    assert (i / blocks_per_group sb < block_group_nr sb) by (apply Z.div_lt_upper_bound; lia). lia. }
  destruct (Hg n Hn) as [Hvn Hpn], (Hg j Hj) as [Hvj Hpj].
  pose proof (Z.mod_pos_bound n (blocks_per_group sb) ltac:(lia)). pose proof (Z.mod_pos_bound j (blocks_per_group sb) ltac:(lia)).
  unfold with_bitmap. rewrite decide_False by lia. case_decide as He.
  - rewrite Hspec by (try lia; by apply (block_len dev V s)). rewrite He. f_equal.
    apply bool_decide_ext. split; [|by intros ->]. intros Hm. unfold bitmap_of in He.
    rewrite (Z.div_mod j (blocks_per_group sb)), (Z.div_mod n (blocks_per_group sb)) by lia. rewrite Hm. f_equal. f_equal. lia.
  - rewrite bool_decide_eq_false_2, Hop; [done|]. by intros ->.
Qed.
End Spec.

(** ** Properties *)

(** A run of block reads and writes, with the blocks read. *)
Inductive blk_op : Type := BlkRead (b : Z) | BlkWrite (b : Z) (d : list Z).
Definition blk_ok (o : blk_op) : Prop :=
  match o with
  | BlkRead b => valid_block b
  | BlkWrite b d => valid_block b /\ length d = 4096%nat
  end.
Fixpoint run_blocks {Y} (ops : fs_ops Y) (fuel mp : nat) (l : list blk_op) : Cmd (fs * Y) (list (list Z)) :=
  match l with
  | [] => ret []
  | BlkRead b :: l' =>
      let* r := read_block ops fuel mp b in
      let* rest := run_blocks ops fuel mp l' in
      ret (snd r :: rest)
  | BlkWrite b d :: l' =>
      let* _ := write_block ops b d in
      run_blocks ops fuel mp l'
  end.
(** The same run on an array. *)
Fixpoint run_array (V : Z -> list Z) (l : list blk_op) : list (list Z) :=
  match l with
  | [] => []
  | BlkRead b :: l' => V b :: run_array V l'
  | BlkWrite b d :: l' => run_array (fun b' => if decide (b' = b) then d else V b') l'
  end.

Lemma blocks_are_empty {Y} (disk : Y -> list Z -> Z -> list Z) dev (s : fs * Y) :
  cache (fst s) = [] -> cache_size (fst s) = 0 ->
  blocks_are disk dev (fun b => disk (snd s) dev (b * BLOCK_SIZE)) s.
Proof.
  intros H1 H2. split; rewrite ?H1, ?H2; [|done|done].
  split; [apply NoDup_nil_2|by intros e ?%not_elem_of_nil|by intros e ?%not_elem_of_nil].
Qed.


(** The block bitmap.  On a file system whose groups fit their bitmap blocks,
    [alloc_block] returns 0 and changes nothing when the count of free blocks is 0
    or no block is clear; otherwise it returns the first block that is not
    allocated, marks that block and no other, and counts it, and [free_block] on
    it makes the allocation and the count what they were.  (Block 0, when it is
    clear, is marked and returned like any other: its number is the error value.) *)
Theorem fs_alloc_free {Y} (ops : fs_ops Y) (disk : Y -> list Z -> Z -> list Z) (Hlaws : fs_laws ops disk)
    (sb_block : superblock_t -> list Z) (Hsb : forall sb, length (sb_block sb) = 4096%nat)
    (fuel mp : nat) (V : Z -> list Z) (m : mount_point_t) (s : fs * Y)
    (Hfuel : 1048576 <= Z.of_nat fuel) (Hs : blocks_are disk (mp_device m) V s)
    (Hm : mount_points (fst s) !! mp = Some m) (Hok : sb_ok (mp_sb m)) (Hfree : 0 <= free_blocks (mp_sb m) < 4294967296) :
  let sb := mp_sb m in
  exists r s', alloc_block ops sb_block fuel mp s = Ret r s' /\
    ((r = 0 /\ (free_blocks sb = 0 \/ forall j, in_groups sb j -> allocated sb V j = true) /\
      mount_points (fst s') = mount_points (fst s) /\ blocks_are disk (mp_device m) V s') \/
     exists V', blocks_are disk (mp_device m) V' s' /\
      mount_points (fst s') = <[mp := set_mp_sb (used_block sb) m]> (mount_points (fst s)) /\
      in_groups sb r /\ allocated sb V r = false /\ (forall j, 0 <= j < r -> allocated sb V j = true) /\
      (forall j, in_groups sb j -> allocated (used_block sb) V' j = bool_decide (j = r) || allocated sb V j) /\
      exists V'' s'', free_block ops sb_block fuel mp r s' = Ret tt s'' /\
        blocks_are disk (mp_device m) V'' s'' /\ mount_points (fst s'') = mount_points (fst s) /\
        forall j, in_groups sb j -> allocated sb V'' j = allocated sb V j).
Proof.
  intros sb. pose proof (alloc_block_spec ops disk Hlaws sb_block Hsb fuel _ V mp m s Hfuel Hs Hm eq_refl Hok) as H.
  cbv zeta in H. fold sb in H, Hok, Hfree.
  destruct H as (r & s' & Hr & _ & [Hc|(_ & Hin & Hclear & Hbelow & Hm' & Hs')]); exists r, s'; (split; [done|]); [left; tauto|].
  right. eexists. split; [exact Hs'|]. split; [done|]. split; [done|]. split; [done|]. split; [done|].
  split.
  { intros j Hj. exact (with_bitmap_allocated ops disk Hlaws sb_block (mp_device m) V s sb (used_block sb) r bm_set orb j
      Hs Hok Hin Hj eq_refl eq_refl bm_set_bit (fun x => eq_refl)). }
  assert (Hm2 : mount_points (fst s') !! mp = Some (set_mp_sb (used_block sb) m))
    by (rewrite Hm'; apply list_lookup_insert_eq; by eapply lookup_lt_Some).
  destruct (free_block_spec ops disk Hlaws sb_block Hsb fuel _ _ mp _ s' r Hfuel Hs' Hm2 eq_refl Hok Hin)
    as (s'' & Hf & _ & Hm3 & Hs''). simpl in Hf, Hm3, Hs''.
  eexists _, s''. split; [exact Hf|]. split; [exact Hs''|]. split.
  - rewrite Hm3, Hm', list_insert_insert_eq. apply list_insert_id. rewrite Hm. f_equal. unfold freed_block, used_block, sb in *.
    destruct m as [? ? [] ?]. simpl in *. unfold set_mp_sb, set_free_blocks. simpl. f_equal. f_equal.
    unfold u32, wrap. rewrite Zplus_mod_idemp_l. replace (_ - 1 + 1) with free_blocks0 by lia. by rewrite Z.mod_small.
  - intros j Hj.
    pose proof (with_bitmap_allocated ops disk Hlaws sb_block (mp_device m) _ s' (used_block sb) (freed_block (used_block sb)) r
      bm_clear (fun a b => negb a && b) j Hs' Hok Hin Hj eq_refl eq_refl bm_clear_bit (fun x => eq_refl)) as H2.
    change (allocated (freed_block (used_block sb))) with (allocated sb) in H2.
    change (bitmap_of (used_block sb)) with (bitmap_of sb) in H2.
    change (blocks_per_group (used_block sb)) with (blocks_per_group sb) in H2.
    change (allocated (used_block sb)) with (allocated sb) in H2.
    etransitivity; [exact H2|]. clear H2.
    pose proof (with_bitmap_allocated ops disk Hlaws sb_block (mp_device m) V s sb (used_block sb) r bm_set orb j
      Hs Hok Hin Hj eq_refl eq_refl bm_set_bit (fun x => eq_refl)) as H3.
    change (allocated (used_block sb)) with (allocated sb) in H3. rewrite H3.
    case_bool_decide as He; [subst j; by rewrite Hclear|done].
Qed.

(** ** Concrete runs *)

(** A device that always works; unwritten blocks are zero. *)
Definition pad_block (d : list Z) : list Z := take 4096 (d ++ replicate 4096 0).
Definition ram_disk (y : list Z -> Z -> list Z) (dev : list Z) (off : Z) : list Z := pad_block (y dev off).
Definition ram_ops : fs_ops (list Z -> Z -> list Z) := {|
  device_read := fun dev off n y => (n, ram_disk y dev off, y);
  device_write := fun dev off d y =>
    (4096, fun dev' off' => if decide (dev' = dev /\ off' = off) then d else y dev' off');
  cache_get_block := fun b c => fst <$> list_find (fun e => block_no e = b) c;
  fs_malloc := fun _ y => (true, y)
|}.

Lemma pad_length d : length (pad_block d) = 4096%nat.
Proof. unfold pad_block. rewrite length_take, length_app, length_replicate. lia. Qed.

Lemma ram_laws : fs_laws ram_ops ram_disk.
Proof.
  split; simpl; try done.
  - intros b c. destruct (list_find _ c) as [[i e]|] eqn:E; simpl.
    + apply list_find_Some in E as (? & ? & _). by exists e.
    + apply list_find_None in E. intros e He. by eapply Forall_forall in E.
  - intros dev off d y Hd dev' off'. unfold ram_disk. case_decide; [|done].
    unfold pad_block. rewrite take_app_le by lia. rewrite <- Hd. apply firstn_all.
  - intros. apply pad_length.
Qed.

(** One mount point, with one group of 8 blocks and the bitmap in block 1. *)
Definition ram_sb : superblock_t :=
  {| sb_magic := 61267; version := 1; block_size := 4096; blocks_count := 8; free_blocks := 8; inodes_count := 0;
     free_inodes := 0; first_data_block := 0; first_inode := 2; inode_size := 88; block_group_nr := 1;
     blocks_per_group := 8; inodes_per_group := 8; sb_mtime := 0; wtime := 0; mount_count := 0;
     max_mount_count := 0; sb_state := 0; errors := 0; checksum := 0 |}.
Definition ram_mount : mount_point_t := {| mp_device := [100]; mp_point := [47]; mp_sb := ram_sb; mounted := true |}.
Definition ram_fs : fs * (list Z -> Z -> list Z) :=
  ({| mount_points := [ram_mount]; file_descs := [zero_desc]; cache := []; cache_size := 0 |}, fun _ _ => []).


Lemma fs_alloc_free_witness :
  exists s' s'', alloc_block ram_ops (fun _ => replicate 4096 0) (Z.to_nat 1048576) 0 ram_fs = Ret 0 s' /\
                 free_block ram_ops (fun _ => replicate 4096 0) (Z.to_nat 1048576) 0 0 s' = Ret tt s''.
Proof.
  destruct (fs_alloc_free ram_ops ram_disk ram_laws (fun _ => replicate 4096 0) (fun _ => length_replicate 4096 0)
    (Z.to_nat 1048576) 0 _ ram_mount ram_fs ltac:(lia) (blocks_are_empty ram_disk [100] ram_fs eq_refl eq_refl)
    eq_refl) as (r & s' & Hr & [(_ & [H0|Hall] & _)|(V' & _ & _ & Hin & _ & Hbelow & _ & V'' & s'' & Hf & _)]).
  - unfold sb_ok. simpl. lia.
  - simpl. lia.
  - discriminate H0.
  - discriminate (Hall 0 ltac:(unfold in_groups; simpl; lia)).
  - assert (r = 0) as ->.
    { destruct (decide (r = 0)) as [->|Hr0]; [reflexivity|]. unfold in_groups in Hin. simpl in Hin.
      discriminate (Hbelow 0 ltac:(lia)). }
    exists s', s''. split; [exact Hr|exact Hf].
Defined.
