(* ===== verification/FsFile.v ===== *)
(** * FsFile

    src/src/fs_file.c: opening, closing, reading and writing files.  What the
    module calls and the sources do not define ([lookup_path], [create_file],
    [find_mount_point_by_inode], [cache_sync], [get_time]) are the operations of a
    [file_ops].  The copy loops have a fuel argument, their number of passes; the
    bytes to copy plus one are enough. *)
From stdpp Require Import strings.
From S2P Require Import Prelude Ipc Mem Bytes FsCore.

Definition O_CREAT_bit (flags : Z) (O_CREAT : Z) : bool := negb (Z.land flags O_CREAT =? 0).
Definition MAX_PATH : nat := 1024.
(** Block numbers in a block. *)
Definition PER_BLOCK : Z := 1024.

Record file_ops (Y : Type) : Type := FileOps {
  lookup_path : nat -> list Z -> Y -> option Z * Y;
  create_file : nat -> list Z -> Y -> Z * Y;
  find_mount_point_by_inode : Z -> fs -> ptr;
  cache_sync : fs * Y -> fs * Y;
  get_time : Y -> Z * Y
}.
Arguments lookup_path {Y} f mp p y.
Arguments create_file {Y} f mp p y.
Arguments find_mount_point_by_inode {Y} f i s.
Arguments cache_sync {Y} f s.
Arguments get_time {Y} f y.

Section Operations.
Context {Y : Type} (ops : fs_ops Y) (fops : file_ops Y) (sb_block : superblock_t -> list Z) (O_CREAT : Z).

Definition get_desc (fd : Z) : Cmd (fs * Y) file_desc_t :=
  let* s := fs_get in deref (file_descs s !! Z.to_nat fd).
Definition put_desc (fd : Z) (f : file_desc_t -> file_desc_t) : Cmd (fs * Y) unit :=
  fs_modify (fun s => set_file_descs (alter f (Z.to_nat fd) (file_descs s)) s).

Definition fs_open (path : list Z) (flags : Z) : Cmd (fs * Y) Z :=
  let* s := fs_get in
  match find_mount_point path s with
  | None => ret (-1)
  | Some mp =>
      let* m := get_mount mp in
      let local_path := take MAX_PATH (drop (length (mp_point m)) path) in
      let* found := fs_call (lookup_path fops mp local_path) in
      let* inode_no := (match found with
                        | Some n => ret (Some n)
                        | None =>
                            if O_CREAT_bit flags O_CREAT then
                              let* n := fs_call (create_file fops mp local_path) in
                              ret (if n =? 0 then None else Some n)
                            else ret None
                        end) in
      match inode_no with
      | None => ret (-1)
      | Some n =>
          let* s := fs_get in
          let fd := find_free_fd s in
          if fd <? 0 then ret (-1) else
          put_desc fd (set_fd_inode n) ;;;
          put_desc fd (set_fd_pos 0) ;;;
          put_desc fd (set_fd_flags flags) ;;;
          put_desc fd (set_fd_count 1) ;;;
          ret fd
      end
  end.

(** [fd < 0 || fd >= MAX_OPEN_FILES]. *)
Definition bad_fd (fd : Z) : bool := (fd <? 0) || (Z.of_nat MAX_OPEN_FILES <=? fd).

Definition fs_close (fd : Z) : Cmd (fs * Y) Z :=
  if bad_fd fd then ret (-1) else
  let* d := get_desc fd in
  if fd_count d =? 0 then ret (-1) else
  put_desc fd (fun d => set_fd_count (u32 (fd_count d - 1)) d) ;;;
  let* d' := get_desc fd in
  (if fd_count d' =? 0 then modify (cache_sync fops) else ret tt) ;;;
  ret 0.

(** Word [k] of a block read as an array of block numbers. *)
Definition word (k : Z) (d : list Z) : Z := val32 (slice (4 * Z.to_nat k) 4 d).
Definition put_word (k v : Z) (d : list Z) : list Z := splice (4 * Z.to_nat k) (le32 v) d.

(** The block that holds block [block_no] of the file.  For the triple indirect
    range the variable is used without a value, which is a fault here. *)
Definition data_block_of (fuel mp : nat) (inode : inode_t) (block_no : Z) : Cmd (fs * Y) Z :=
  if block_no <? 12 then deref (direct inode !! Z.to_nat block_no)
  else if block_no <? 12 + PER_BLOCK then
    let* r := read_block ops fuel mp (indirect inode) in
    ret (word (block_no - 12) (snd r))
  else if block_no <? 12 + PER_BLOCK + PER_BLOCK * PER_BLOCK then
    let* r := read_block ops fuel mp (double_indirect inode) in
    let index1 := (block_no - 12 - PER_BLOCK) / PER_BLOCK in
    let index2 := (block_no - 12 - PER_BLOCK) mod PER_BLOCK in
    let* r2 := read_block ops fuel mp (word index1 (snd r)) in
    ret (word index2 (snd r2))
  else fail Fault.

(** [while (bytes_read < count)]; [dst]: the bytes read so far. *)
Fixpoint read_loop (passes fuel mp : nat) (fd : Z) (inode : inode_t) (count : Z) (dst : list Z) : Cmd (fs * Y) (list Z) :=
  let bytes_read := Z.of_nat (length dst) in
  if bytes_read <? count then
    match passes with
    | O => fail NoFuel
    | S passes' =>
        let* d := get_desc fd in
        let block_no := fd_pos d / BLOCK_SIZE in
        let offset := fd_pos d mod BLOCK_SIZE in
        let* data_block := data_block_of fuel mp inode block_no in
        let* r := read_block ops fuel mp data_block in
        let chunk := Z.min (BLOCK_SIZE - offset) (count - bytes_read) in
        put_desc fd (fun d => set_fd_pos (u32 (fd_pos d + chunk)) d) ;;;
        read_loop passes' fuel mp fd inode count (dst ++ slice (Z.to_nat offset) (Z.to_nat chunk) (snd r))
    end
  else ret dst.

(** The result and the bytes put in [buf]. *)
Definition fs_read (passes fuel : nat) (fd count : Z) : Cmd (fs * Y) (Z * list Z) :=
  if bad_fd fd then ret (-1, []) else
  let* d := get_desc fd in
  if fd_count d =? 0 then ret (-1, []) else
  let* s := fs_get in
  match find_mount_point_by_inode fops (fd_inode d) s with
  | None => ret (-1, [])
  | Some mp =>
      let* i := read_inode ops fuel mp (fd_inode d) in
      match i with
      | None => ret (-1, [])
      | Some inode =>
          if i_size inode <=? fd_pos d then ret (0, []) else
          let count' := if i_size inode <? u32 (fd_pos d + count) then u32 (i_size inode - fd_pos d) else count in
          let* dst := read_loop passes fuel mp fd inode count' [] in
          ret (i32 (Z.of_nat (length dst)), dst)
      end
  end.

(** The block to write block [block_no] of the file to, allocated when missing;
    [None] where the loop breaks. *)
Definition block_for_write (fuel mp : nat) (inode : inode_t) (block_no : Z) : Cmd (fs * Y) (inode_t * option Z) :=
  if block_no <? 12 then
    let* b := deref (direct inode !! Z.to_nat block_no) in
    if b =? 0 then
      let* n := alloc_block ops sb_block fuel mp in
      let inode' := set_direct (<[Z.to_nat block_no := n]> (direct inode)) inode in
      ret (inode', if n =? 0 then None else Some n)
    else ret (inode, Some b)
  else if block_no <? 12 + PER_BLOCK then
    let* inode1 := (if indirect inode =? 0 then
                      let* n := alloc_block ops sb_block fuel mp in
                      ret (set_indirect n inode)
                    else ret inode) in
    if indirect inode1 =? 0 then ret (inode1, None) else
    let* r := read_block ops fuel mp (indirect inode1) in
    let b := word (block_no - 12) (snd r) in
    if b =? 0 then
      let* n := alloc_block ops sb_block fuel mp in
      if n =? 0 then ret (inode1, None) else
      let* _ := write_block ops (indirect inode1) (put_word (block_no - 12) n (snd r)) in
      ret (inode1, Some n)
    else ret (inode1, Some b)
  else fail Fault.

(** [while (bytes_written < count)], [rest] being the bytes still to write; the
    block that is not read first is overwritten entirely. *)
Fixpoint write_loop (passes fuel mp : nat) (fd : Z) (inode : inode_t) (count written : Z) (rest : list Z)
    : Cmd (fs * Y) (inode_t * Z) :=
  if written <? count then
    match passes with
    | O => fail NoFuel
    | S passes' =>
        let* d := get_desc fd in
        let block_no := fd_pos d / BLOCK_SIZE in
        let offset := fd_pos d mod BLOCK_SIZE in
        let* r := block_for_write fuel mp inode block_no in
        match snd r with
        | None => ret (fst r, written)
        | Some data_block =>
            let* block := (if (0 <? offset) || (count <? u32 (written + BLOCK_SIZE)) then
                             let* b := read_block ops fuel mp data_block in ret (snd b)
                           else ret (replicate 4096 0)) in
            let chunk := Z.min (BLOCK_SIZE - offset) (count - written) in
            let* _ := write_block ops data_block (splice (Z.to_nat offset) (take (Z.to_nat chunk) rest) block) in
            put_desc fd (fun d => set_fd_pos (u32 (fd_pos d + chunk)) d) ;;;
            let* d' := get_desc fd in
            let inode' := if i_size (fst r) <? fd_pos d' then set_i_size (fd_pos d') (fst r) else fst r in
            write_loop passes' fuel mp fd inode' count (written + chunk) (drop (Z.to_nat chunk) rest)
        end
    end
  else ret (inode, written).

Definition fs_write (passes fuel : nat) (fd : Z) (src : list Z) : Cmd (fs * Y) Z :=
  let count := Z.of_nat (length src) in
  if bad_fd fd then ret (-1) else
  let* d := get_desc fd in
  if fd_count d =? 0 then ret (-1) else
  let* s := fs_get in
  match find_mount_point_by_inode fops (fd_inode d) s with
  | None => ret (-1)
  | Some mp =>
      let* i := read_inode ops fuel mp (fd_inode d) in
      match i with
      | None => ret (-1)
      | Some inode =>
          let* r := write_loop passes fuel mp fd inode count 0 src in
          let* t := fs_call (get_time fops) in
          let* _ := write_inode ops fuel mp (fd_inode d) (set_i_mtime t (fst r)) in
          ret (i32 (snd r))
      end
  end.
End Operations.

(** ** The contents of a file *)
Definition file_bytes (V : Z -> list Z) (i : inode_t) : list Z := mjoin (V <$> direct i).

Lemma mjoin_len (V : Z -> list Z) n l :
  (forall b, b ∈ l -> length (V b) = n) -> length (mjoin (V <$> l)) = (length l * n)%nat.
Proof.
  induction l as [|b l IH]; intros H; [done|]. change (mjoin (V <$> b :: l)) with (V b ++ mjoin (V <$> l)).
  rewrite length_app, IH, (H b); [done|apply list_elem_of_here|]. intros x Hx. apply H. by apply list_elem_of_further.
Qed.

Lemma mjoin_split (V : Z -> list Z) l k b :
  l !! k = Some b -> mjoin (V <$> l) = mjoin (V <$> take k l) ++ V b ++ mjoin (V <$> drop (S k) l).
Proof. intros H. rewrite <- (take_drop_middle l k b H) at 1. by rewrite fmap_app, join_app. Qed.

Section Content.
Context (V : Z -> list Z) (i : inode_t).
Context (Hlen : forall b, b ∈ direct i -> length (V b) = 4096%nat).

Lemma before_len k b : direct i !! k = Some b -> length (mjoin (V <$> take k (direct i))) = (k * 4096)%nat.
Proof using Hlen.
  intros Hk. rewrite (mjoin_len V 4096).
  - rewrite length_take. apply lookup_lt_Some in Hk. lia.
  - intros x Hx. apply Hlen. eapply elem_of_take in Hx as (j & Hj & _). by eapply list_elem_of_lookup_2.
Qed.

Lemma file_slice k b o n :
  direct i !! k = Some b -> (o + n <= 4096)%nat -> slice (k * 4096 + o) n (file_bytes V i) = slice o n (V b).
Proof using Hlen.
  intros Hk Hon. unfold file_bytes. rewrite (mjoin_split _ _ _ _ Hk), <- (before_len _ _ Hk).
  apply slice_mid. rewrite Hlen; [done|by eapply list_elem_of_lookup_2].
Qed.

Lemma file_splice k b o d :
  direct i !! k = Some b -> (o + length d <= 4096)%nat -> (forall j, direct i !! j = Some b -> j = k) ->
  file_bytes (fun x => if decide (x = b) then splice o d (V b) else V x) i = splice (k * 4096 + o) d (file_bytes V i).
Proof using Hlen.
  intros Hk Hon Hu. unfold file_bytes. rewrite !(mjoin_split _ _ _ _ Hk), <- (before_len _ _ Hk).
  rewrite splice_mid by (rewrite Hlen; [done|by eapply list_elem_of_lookup_2]).
  rewrite decide_True by done.
  f_equal; [|f_equal]; f_equal; apply list_fmap_ext; intros j x Hx; rewrite decide_False; try done; intros ->.
  - apply lookup_take_Some in Hx as [Hx Hj]. apply Hu in Hx. lia.
  - rewrite lookup_drop in Hx. apply Hu in Hx. lia.
Qed.
End Content.

(** ** Reading and writing within the direct blocks *)
Section Spec.
Context {Y : Type} (ops : fs_ops Y) (disk : Y -> list Z -> Z -> list Z) (Hlaws : fs_laws ops disk).
Context (sb_block : superblock_t -> list Z).

(** The blocks of [dev] are [V], [mp] is mounted on it, and [fd] is the open file [d]. *)
Record open_on (dev : list Z) (V : Z -> list Z) (mp : nat) (fd : Z) (d : file_desc_t) (s : fs * Y) : Prop := {
  oo_blocks : blocks_are disk dev V s;
  oo_mount : mounted_on mp dev s;
  oo_desc : file_descs (fst s) !! Z.to_nat fd = Some d
}.

(** Only the descriptor [fd] may have changed. *)
Definition only_desc (fd : Z) (s s' : fs * Y) : Prop :=
  mount_points (fst s') = mount_points (fst s) /\
  forall j, j <> Z.to_nat fd -> file_descs (fst s') !! j = file_descs (fst s) !! j.

Lemma only_desc_trans fd s1 s2 s3 : only_desc fd s1 s2 -> only_desc fd s2 s3 -> only_desc fd s1 s3.
Proof using. intros [H1 H2] [H3 H4]. split; [congruence|]. intros j Hj. by rewrite H4, H2. Qed.

Lemma only_desc_tables fd s s' : same_tables s s' -> only_desc fd s s'.
Proof using. intros [H1 H2]. split; [done|]. intros j _. by rewrite H2. Qed.

Lemma open_tables dev V V' mp fd d s s' :
  open_on dev V mp fd d s -> same_tables s s' -> blocks_are disk dev V' s' -> open_on dev V' mp fd d s'.
Proof using.
  intros [H1 (m & Hm & Hdev) H3] [Ht1 Ht2] Hb. split; [done|exists m; by rewrite Ht1|by rewrite Ht2].
Qed.

Lemma get_desc_Ret fd d (s : fs * Y) : file_descs (fst s) !! Z.to_nat fd = Some d -> get_desc fd s = Ret d s.
Proof using. intros H. unfold get_desc. erewrite bind_Ret by reflexivity. by rewrite H. Qed.

Lemma put_desc_spec dev V mp fd d f s :
  open_on dev V mp fd d s ->
  exists s', put_desc fd f s = Ret tt s' /\ open_on dev V mp fd (f d) s' /\ only_desc fd s s'.
Proof using.
  intros [[B1 B2 B3] Hm Hd]. eexists. split; [reflexivity|]. split; [split; [by split|done|]|split; [done|]]; simpl.
  - by rewrite list_lookup_alter_eq, Hd.
  - intros j Hj. by rewrite list_lookup_alter_ne.
Qed.

Lemma block_index pos : 0 <= pos < 49152 ->
  0 <= pos / BLOCK_SIZE < 12 /\ 0 <= pos mod BLOCK_SIZE < 4096 /\
  Z.to_nat pos = (Z.to_nat (pos / BLOCK_SIZE) * 4096 + Z.to_nat (pos mod BLOCK_SIZE))%nat /\
  pos = BLOCK_SIZE * (pos / BLOCK_SIZE) + pos mod BLOCK_SIZE.
Proof using.
  intros H. unfold BLOCK_SIZE. pose proof (Z.div_mod pos 4096 ltac:(lia)). pose proof (Z.mod_pos_bound pos 4096 ltac:(lia)).
  assert (0 <= pos / 4096 < 12) by (split; [apply Z.div_pos; lia|apply Z.div_lt_upper_bound; lia]). lia.
Qed.

(** The blocks of an inode can be addressed. *)
Definition blocks_ok (i : inode_t) : Prop := length (direct i) = 12%nat /\ forall b, b ∈ direct i -> valid_block b.

Lemma direct_block i pos : blocks_ok i -> 0 <= pos < 49152 ->
  exists b, direct i !! Z.to_nat (pos / BLOCK_SIZE) = Some b /\ valid_block b.
Proof using.
  intros [Hl Hv] Hp. destruct (block_index pos Hp) as (H1 & _).
  assert (Z.to_nat (pos / BLOCK_SIZE) < length (direct i))%nat as [b Hb]%lookup_lt_is_Some_2 by lia.
  exists b. split; [done|]. apply Hv. by eapply list_elem_of_lookup_2.
Qed.

Lemma read_loop_spec fuel dev V mp fd i count : 1048576 <= Z.of_nat fuel -> blocks_ok i -> forall passes dst s d,
  open_on dev V mp fd d s -> 0 <= fd_pos d ->
  let n := count - Z.of_nat (length dst) in
  0 <= n -> fd_pos d + n <= 49152 -> (Z.to_nat n < passes)%nat ->
  exists s', read_loop ops passes fuel mp fd i count dst s
    = Ret (dst ++ slice (Z.to_nat (fd_pos d)) (Z.to_nat n) (file_bytes V i)) s' /\
    open_on dev V mp fd (set_fd_pos (fd_pos d + n) d) s' /\ only_desc fd s s'.
Proof using Hlaws.
  intros Hfuel Hi. induction passes as [|passes IH]; intros dst s d Ho Hpos n Hn Hlim Hpass; [lia|]. cbn [read_loop].
  destruct (Z.ltb_spec (Z.of_nat (length dst)) count) as [Hlt|Hge].
  2: { exists s. assert (n = 0) as -> by lia. rewrite Z.add_0_r. unfold slice. rewrite take_0, app_nil_r.
       split; [done|]. split; [|done]. by destruct d. }
  destruct (block_index (fd_pos d)) as (Hk & Ho1 & Hnat & Heq); [lia|].
  destruct (direct_block i (fd_pos d) Hi) as (b & Hb & Hv); [lia|].
  erewrite bind_Ret by (by apply get_desc_Ret, (oo_desc _ _ _ _ _ _ Ho)). cbv zeta.
  erewrite bind_Ret by (unfold data_block_of; rewrite (proj2 (Z.ltb_lt _ _)) by lia; rewrite Hb; reflexivity).
  destruct (read_block_spec ops disk Hlaws fuel dev V mp b s Hfuel (oo_blocks _ _ _ _ _ _ Ho) (oo_mount _ _ _ _ _ _ Ho) Hv)
    as (s1 & H1 & Ht1 & Hb1).
  erewrite bind_Ret by exact H1. cbn [snd].
  set (chunk := Z.min (BLOCK_SIZE - fd_pos d mod BLOCK_SIZE) (count - Z.of_nat (length dst))).
  assert (0 < chunk <= n /\ fd_pos d mod BLOCK_SIZE + chunk <= 4096) as [Hc1 Hc2] by (unfold chunk, BLOCK_SIZE in *; lia).
  destruct (put_desc_spec dev V mp fd d (fun d => set_fd_pos (u32 (fd_pos d + chunk)) d) s1
              (open_tables _ _ _ _ _ _ _ _ Ho Ht1 Hb1)) as (s2 & H2 & Ho2 & Hod2).
  erewrite bind_Ret by exact H2. cbn beta in Ho2. rewrite u32_small in Ho2 by lia.
  assert (Hlen : forall x, x ∈ direct i -> length (V x) = 4096%nat).
  { intros x Hx. eapply block_len; [exact Hlaws|exact (oo_blocks _ _ _ _ _ _ Ho)|by apply Hi]. }
  assert (Hsl : slice (Z.to_nat (fd_pos d mod BLOCK_SIZE)) (Z.to_nat chunk) (V b)
                = slice (Z.to_nat (fd_pos d)) (Z.to_nat chunk) (file_bytes V i)).
  { rewrite Hnat. symmetry. apply file_slice; [exact Hlen|exact Hb|lia]. }
  rewrite Hsl.
  assert (Hfl : length (file_bytes V i) = (12 * 4096)%nat).
  { unfold file_bytes. rewrite (mjoin_len V 4096) by exact Hlen. by rewrite (proj1 Hi). }
  assert (Hsll : length (slice (Z.to_nat (fd_pos d)) (Z.to_nat chunk) (file_bytes V i)) = Z.to_nat chunk)
    by (apply slice_length; rewrite Hfl; lia).
  destruct (IH (dst ++ slice (Z.to_nat (fd_pos d)) (Z.to_nat chunk) (file_bytes V i)) s2 _ Ho2) as (s3 & H3 & Ho3 & Hod3);
    rewrite ?length_app, ?Hsll; simpl; try lia.
  rewrite length_app, Hsll in H3, Ho3. simpl in H3, Ho3.
  replace (count - Z.of_nat (length dst + Z.to_nat chunk)) with (n - chunk) in * by lia.
  exists s3. split; [|split].
  - etransitivity; [exact H3|]. f_equal. rewrite <- app_assoc. f_equal.
    replace (Z.to_nat (fd_pos d + chunk)) with (Z.to_nat (fd_pos d) + Z.to_nat chunk)%nat by lia.
    rewrite slice_slice. f_equal. lia.
  - replace (fd_pos d + chunk + (n - chunk)) with (fd_pos d + n) in Ho3 by lia. exact Ho3.
  - eapply only_desc_trans; [by apply only_desc_tables|]. eapply only_desc_trans; [exact Hod2|exact Hod3].
Qed.

(** The blocks a write of [n] bytes at [pos] goes to are allocated, and are no
    other block of the file. *)
Definition writable (ds : list Z) (pos n : Z) : Prop :=
  forall k b, ds !! k = Some b -> pos < Z.of_nat (k + 1) * 4096 -> Z.of_nat k * 4096 < pos + n ->
    b <> 0 /\ forall j, ds !! j = Some b -> j = k.

(** The size after [n] bytes were written at [pos]. *)
Definition grown (i : inode_t) (pos n : Z) : inode_t :=
  set_i_size (if decide (n = 0) then i_size i else Z.max (i_size i) (pos + n)) i.

Lemma block_for_write_direct fuel mp i k b s :
  0 <= k < 12 -> direct i !! Z.to_nat k = Some b -> b <> 0 ->
  block_for_write ops sb_block fuel mp i k s = Ret (i, Some b) s.
Proof using.
  intros Hk Hb Hnz. unfold block_for_write. rewrite (proj2 (Z.ltb_lt _ _)) by lia. rewrite Hb.
  erewrite bind_Ret by reflexivity. by rewrite (proj2 (Z.eqb_neq _ _)).
Qed.

(** The block a pass works on: read when part of it stays. *)
Lemma pass_block fuel dev V mp b s (part : bool) off d :
  1048576 <= Z.of_nat fuel -> blocks_are disk dev V s -> mounted_on mp dev s -> valid_block b ->
  (part = false -> off = 0%nat /\ length d = 4096%nat) ->
  exists blk s', (if part then let* x := read_block ops fuel mp b in ret (snd x) else ret (replicate 4096 0)) s = Ret blk s' /\
    same_tables s s' /\ blocks_are disk dev V s' /\ splice off d blk = splice off d (V b).
Proof using Hlaws.
  intros Hfuel Hb Hm Hv Hp. destruct part.
  - destruct (read_block_spec ops disk Hlaws fuel dev V mp b s Hfuel Hb Hm Hv) as (s1 & H1 & Ht & Hb1).
    exists (V b), s1. by erewrite bind_Ret by exact H1.
  - destruct (Hp eq_refl) as [-> Hd]. exists (replicate 4096 0), s. split; [done|]. split; [done|]. split; [done|].
    rewrite !splice_whole; [done| |rewrite length_replicate; exact Hd].
    rewrite Hd. symmetry. exact (block_len ops disk Hlaws dev V s b Hb Hv).
Qed.

Lemma write_loop_spec fuel dev mp fd count : 1048576 <= Z.of_nat fuel -> count <= 49152 ->
  forall passes written rest s d V i,
  open_on dev V mp fd d s -> blocks_ok i -> 0 <= fd_pos d -> 0 <= written ->
  let n := Z.of_nat (length rest) in
  count = written + n -> fd_pos d + n <= 49152 -> writable (direct i) (fd_pos d) n -> (length rest < passes)%nat ->
  exists s' V', write_loop ops sb_block passes fuel mp fd i count written rest s = Ret (grown i (fd_pos d) n, count) s' /\
    open_on dev V' mp fd (set_fd_pos (fd_pos d + n) d) s' /\ only_desc fd s s' /\
    file_bytes V' i = splice (Z.to_nat (fd_pos d)) rest (file_bytes V i) /\
    forall b, b ∉ direct i -> V' b = V b.
Proof using Hlaws.
  intros Hfuel Hcount. induction passes as [|passes IH]; intros written rest s d V i Ho Hi Hpos Hw n Hn Hlim Hwr Hpass; [lia|].
  cbn [write_loop]. destruct (Z.ltb_spec written count) as [Hlt|Hge].
  2: { assert (n = 0) as Hn0 by lia. assert (rest = []) as -> by (apply length_zero_iff_nil; lia).
       exists s, V. unfold grown. rewrite Hn0, decide_True, Z.add_0_r, splice_nil by done.
       split; [f_equal; f_equal; [by destruct i|lia]|]. split; [by destruct d|]. done. }
  destruct (block_index (fd_pos d)) as (Hk & Ho1 & Hnat & Heq); [lia|].
  destruct (direct_block i (fd_pos d) Hi) as (b & Hb & Hv); [lia|].
  destruct (Hwr _ _ Hb) as [Hnz Huniq]; [unfold BLOCK_SIZE in *; lia|unfold BLOCK_SIZE in *; lia|].
  erewrite bind_Ret by (by apply get_desc_Ret, (oo_desc _ _ _ _ _ _ Ho)). cbv zeta.
  erewrite bind_Ret by (by apply block_for_write_direct). cbn [fst snd].
  set (chunk := Z.min (BLOCK_SIZE - fd_pos d mod BLOCK_SIZE) (count - written)).
  assert (0 < chunk <= n /\ fd_pos d mod BLOCK_SIZE + chunk <= 4096) as [Hc1 Hc2] by (unfold chunk, BLOCK_SIZE in *; lia).
  set (piece := take (Z.to_nat chunk) rest). set (off := Z.to_nat (fd_pos d mod BLOCK_SIZE)).
  assert (Hpl : length piece = Z.to_nat chunk) by (unfold piece; rewrite length_take; lia).
  set (part := (0 <? fd_pos d mod BLOCK_SIZE) || (count <? u32 (written + BLOCK_SIZE))).
  destruct (pass_block fuel dev V mp b s part off piece Hfuel (oo_blocks _ _ _ _ _ _ Ho) (oo_mount _ _ _ _ _ _ Ho) Hv)
    as (blk & s1 & H1 & Ht1 & Hb1 & Hsp).
  { unfold part. rewrite u32_small by (unfold BLOCK_SIZE; lia). intros [Hp1 Hp2]%orb_false_iff.
    apply Z.ltb_ge in Hp1, Hp2. rewrite Hpl. unfold off, chunk, BLOCK_SIZE in *. lia. }
  erewrite bind_Ret by exact H1. rewrite Hsp.
  assert (Hlen : forall x, x ∈ direct i -> length (V x) = 4096%nat).
  { intros x Hx. eapply block_len; [exact Hlaws|exact (oo_blocks _ _ _ _ _ _ Ho)|by apply Hi]. }
  assert (Hbin : b ∈ direct i) by (by eapply list_elem_of_lookup_2).
  destruct (write_block_spec ops disk Hlaws dev V b (splice off piece (V b)) s1 Hb1 Hv) as (s2 & H2 & Ht2 & Hb2).
  { rewrite splice_length; [by apply Hlen|]. rewrite Hlen by done. unfold off. lia. }
  erewrite bind_Ret by exact H2.
  pose proof (open_tables _ _ _ _ _ _ _ _ (open_tables _ _ _ _ _ _ _ _ Ho Ht1 Hb1) Ht2 Hb2) as Ho2.
  destruct (put_desc_spec _ _ mp fd d (fun d => set_fd_pos (u32 (fd_pos d + chunk)) d) s2 Ho2) as (s3 & H3 & Ho3 & Hod3).
  erewrite bind_Ret by exact H3. cbn beta in Ho3. rewrite u32_small in Ho3 by lia.
  erewrite bind_Ret by (by apply get_desc_Ret, (oo_desc _ _ _ _ _ _ Ho3)). simpl fd_pos.
  set (V1 := fun x => if decide (x = b) then splice off piece (V b) else V x) in *.
  assert (HV1 : file_bytes V1 i = splice (Z.to_nat (fd_pos d)) piece (file_bytes V i)).
  { rewrite Hnat. apply file_splice; [exact Hlen|exact Hb|unfold off in *; lia|exact Huniq]. }
  assert (Hfl : length (file_bytes V i) = (12 * 4096)%nat).
  { unfold file_bytes. rewrite (mjoin_len V 4096) by exact Hlen. by rewrite (proj1 Hi). }
  assert (Hgrow : (if i_size i <? fd_pos d + chunk then set_i_size (fd_pos d + chunk) i else i) = grown i (fd_pos d) chunk).
  { unfold grown. rewrite decide_False by lia.
    destruct (Z.ltb_spec (i_size i) (fd_pos d + chunk)); [by rewrite Z.max_r by lia|]. rewrite Z.max_l by lia. by destruct i. }
  rewrite Hgrow.
  assert (Hrl : Z.of_nat (length (drop (Z.to_nat chunk) rest)) = n - chunk) by (rewrite length_drop; lia).
  destruct (IH (written + chunk) (drop (Z.to_nat chunk) rest) s3 _ V1 (grown i (fd_pos d) chunk) Ho3 Hi)
    as (s4 & V4 & H4 & Ho4 & Hod4 & HV4 & Hout); simpl fd_pos; rewrite ?Hrl; try lia.
  { intros k x Hx Hlo Hhi. apply (Hwr k x Hx); lia. }
  simpl fd_pos in H4, Ho4, HV4. rewrite Hrl in H4, Ho4.
  exists s4, V4. split; [|split; [|split; [|split]]].
  - etransitivity; [exact H4|]. f_equal. f_equal. unfold grown. simpl.
    rewrite (decide_False (P := chunk = 0)), (decide_False (P := n = 0)) by lia.
    assert (forall z w, set_i_size z (set_i_size w i) = set_i_size z i) as -> by done.
    apply (f_equal (fun z => set_i_size z i)). case_decide; lia.
  - replace (fd_pos d + chunk + (n - chunk)) with (fd_pos d + n) in Ho4 by lia. exact Ho4.
  - eapply only_desc_trans; [apply (only_desc_tables fd s s1 Ht1)|]. eapply only_desc_trans; [apply (only_desc_tables fd s1 s2 Ht2)|].
    eapply only_desc_trans; [exact Hod3|exact Hod4].
  - change (file_bytes V4 (grown i (fd_pos d) chunk)) with (file_bytes V4 i) in HV4.
    change (file_bytes V1 (grown i (fd_pos d) chunk)) with (file_bytes V1 i) in HV4.
    rewrite HV4, HV1. replace (Z.to_nat (fd_pos d + chunk)) with (Z.to_nat (fd_pos d) + length piece)%nat by lia.
    rewrite splice_splice by (rewrite Hfl, length_drop; lia). unfold piece. by rewrite take_drop.
  - intros x Hx. rewrite (Hout x Hx). unfold V1. rewrite decide_False; [done|]. by intros ->.
Qed.
End Spec.

(** ** Inodes in blocks *)
Definition u16_range (z : Z) : Prop := 0 <= z < 65536.
Definition u32_bounds (z : Z) : Prop := 0 <= z < 4294967296.

(** The fields of an inode are in range. *)
Record inode_ok (i : inode_t) : Prop := {
  io_u16 : u16_range (i_mode i) /\ u16_range (uid i) /\ u16_range (gid i) /\ length (padding i) = 2%nat;
  io_u32 : u32_bounds (i_size i) /\ u32_bounds (atime i) /\ u32_bounds (i_mtime i) /\ u32_bounds (ctime i) /\ u32_bounds (blocks i);
  io_direct : length (direct i) = 12%nat /\ Forall u32_bounds (direct i);
  io_indirect : u32_bounds (indirect i) /\ u32_bounds (double_indirect i) /\ u32_bounds (triple_indirect i)
}.

(** A list of known length as its elements. *)
Ltac explode l :=
  repeat (let x := fresh "x" in destruct l as [|x l]; simpl in *; try lia).

Lemma inode_bytes_length i : inode_ok i -> length (inode_bytes i) = 88%nat.
Proof.
  intros [(_ & _ & _ & Hp) _ [Hd _] _]. unfold inode_bytes. destruct i as [? ? ? p ? ? ? ? ? ds ? ? ?]. simpl in *.
  explode p. explode ds.
Qed.

Lemma inode_codec i : inode_ok i -> bytes_inode (inode_bytes i) = i.
Proof.
  intros [(H1 & H2 & H3 & Hp) (H4 & H5 & H6 & H7 & H8) [Hd Hds] (H9 & H10 & H11)].
  unfold inode_bytes. destruct i as [? ? ? p ? ? ? ? ? ds ? ? ?]. simpl in *.
  explode p. explode ds. repeat (apply Forall_cons in Hds as [? Hds]).
  unfold u16_range, u32_bounds in *.
  assert (forall v, 0 <= v < 4294967296 -> val32 [byte_of v 0; byte_of v 1; byte_of v 2; byte_of v 3] = v) as Hv32
    by exact val32_le32.
  assert (forall v, 0 <= v < 65536 -> val16 [byte_of v 0; byte_of v 1] = v) as Hv16 by exact val16_le16.
  unfold bytes_inode. cbn -[val16 val32 byte_of]. by rewrite !Hv32, !Hv16 by done.
Qed.

Section Files.
Context {Y : Type} (ops : fs_ops Y) (disk : Y -> list Z -> Z -> list Z) (Hlaws : fs_laws ops disk).

(** The inode [ino] is [i], in block [b] at offset [off]. *)
Record inode_at (V : Z -> list Z) (sb : superblock_t) (ino : Z) (i : inode_t) (b off : Z) : Prop := {
  ia_place : inode_place sb ino = Some (b, off);
  ia_block : valid_block b;
  ia_off : 0 <= off /\ off + 88 <= 4096;
  ia_inode : bytes_inode (slice (Z.to_nat off) 88 (V b)) = i
}.

Lemma read_inode_spec fuel V mp m ino i b off s :
  1048576 <= Z.of_nat fuel -> blocks_are disk (mp_device m) V s -> mount_points (fst s) !! mp = Some m ->
  inode_at V (mp_sb m) ino i b off ->
  exists s', read_inode ops fuel mp ino s = Ret (Some i) s' /\ same_tables s s' /\ blocks_are disk (mp_device m) V s'.
Proof using Hlaws.
  intros Hfuel Hb Hm [Hp Hv Ho Hi]. unfold read_inode. erewrite bind_Ret by (by apply get_mount_Ret).
  rewrite Hp. erewrite bind_Ret by reflexivity. cbn [fst snd].
  destruct (read_block_spec ops disk Hlaws fuel _ V mp b s Hfuel Hb (ex_intro _ m (conj Hm eq_refl)) Hv) as (s1 & H1 & Ht & Hb1).
  erewrite bind_Ret by exact H1. exists s1. split; [|by split]. simpl. unfold BLOCK_SIZE, SIZEOF_INODE.
  rewrite (proj2 (Z.ltb_ge _ _)) by lia. by rewrite Hi.
Qed.

Lemma write_inode_spec fuel V mp m ino i i' b off s :
  1048576 <= Z.of_nat fuel -> blocks_are disk (mp_device m) V s -> mount_points (fst s) !! mp = Some m ->
  inode_at V (mp_sb m) ino i b off -> inode_ok i' ->
  exists s' V', write_inode ops fuel mp ino i' s = Ret 0 s' /\ same_tables s s' /\ blocks_are disk (mp_device m) V' s' /\
    inode_at V' (mp_sb m) ino i' b off /\ forall x, x <> b -> V' x = V x.
Proof using Hlaws.
  intros Hfuel Hb Hm [Hp Hv Ho Hi] Hok. unfold write_inode. erewrite bind_Ret by (by apply get_mount_Ret).
  rewrite Hp. erewrite bind_Ret by reflexivity. cbn [fst snd].
  destruct (read_block_spec ops disk Hlaws fuel _ V mp b s Hfuel Hb (ex_intro _ m (conj Hm eq_refl)) Hv) as (s1 & H1 & [T1 T2] & Hb1).
  erewrite bind_Ret by exact H1. cbn [fst snd]. unfold BLOCK_SIZE, SIZEOF_INODE.
  rewrite (proj2 (Z.ltb_ge 4096 (off + 88))) by lia. rewrite (proj2 (Z.ltb_ge 0 0)) by lia.
  pose proof (block_len ops disk Hlaws _ _ _ _ Hb Hv) as Hlen. pose proof (inode_bytes_length i' Hok) as H88.
  destruct (write_block_spec ops disk Hlaws _ V b (splice (Z.to_nat off) (inode_bytes i') (V b)) s1 Hb1 Hv)
    as (s2 & H2 & [T3 T4] & Hb2); [rewrite splice_length; [done|rewrite H88, Hlen; lia]|].
  erewrite bind_Ret by exact H2. eexists s2, _. split; [done|]. split; [by split; congruence|]. split; [exact Hb2|]. split.
  - split; [done|done|done|]. rewrite decide_True by done. rewrite <- H88, slice_splice by (rewrite H88, Hlen; lia).
    by apply inode_codec.
  - intros x Hx. by rewrite decide_False.
Qed.

Context (fops : file_ops Y) (sb_block : superblock_t -> list Z).
(** Reading the clock does not touch the disk. *)
Context (Hclock : forall y, disk (snd (get_time fops y)) = disk y /\ u32_bounds (fst (get_time fops y))).

(** [fd] is an open descriptor of the file [ino] on the mount point [mp]. *)
Record opened (mp : nat) (fd ino : Z) (d : file_desc_t) (s : fs * Y) : Prop := {
  op_fd : 0 <= fd < 128;
  op_desc : file_descs (fst s) !! Z.to_nat fd = Some d;
  op_count : fd_count d <> 0;
  op_inode : fd_inode d = ino;
  op_mount : forall s' : fs, mount_points s' = mount_points (fst s) -> find_mount_point_by_inode fops ino s' = Some mp
}.

Lemma opened_fd mp fd ino d s : opened mp fd ino d s -> bad_fd fd = false.
Proof using.
  intros [H _ _ _ _]. unfold bad_fd, MAX_OPEN_FILES. rewrite (proj2 (Z.ltb_ge fd 0)), (proj2 (Z.leb_gt _ _)) by lia. done.
Qed.

Lemma fs_write_spec passes fuel V mp m fd ino i b off d src s :
  1048576 <= Z.of_nat fuel -> (length src < passes)%nat ->
  blocks_are disk (mp_device m) V s -> mount_points (fst s) !! mp = Some m -> opened mp fd ino d s ->
  inode_at V (mp_sb m) ino i b off -> inode_ok i -> blocks_ok i -> b ∉ direct i ->
  0 <= fd_pos d -> fd_pos d + Z.of_nat (length src) <= 49152 -> writable (direct i) (fd_pos d) (Z.of_nat (length src)) ->
  exists s' V' i', fs_write ops fops sb_block passes fuel fd src s = Ret (Z.of_nat (length src)) s' /\
    blocks_are disk (mp_device m) V' s' /\ only_desc fd s s' /\
    inode_at V' (mp_sb m) ino i' b off /\ direct i' = direct i /\
    i_size i' = i_size (grown i (fd_pos d) (Z.of_nat (length src))) /\
    file_bytes V' i' = splice (Z.to_nat (fd_pos d)) src (file_bytes V i).
Proof using Hlaws Hclock.
  intros Hfuel Hpass Hb Hm Hop Hat Hiok Hblk Hnin Hpos Hlim Hwr. unfold fs_write. rewrite (opened_fd _ _ _ _ _ Hop).
  destruct Hop as [Hfd Hd Hcnt Hino Hfind].
  erewrite bind_Ret by (by apply get_desc_Ret). rewrite (proj2 (Z.eqb_neq _ _)) by done.
  erewrite bind_Ret by reflexivity. rewrite Hino, Hfind by done.
  destruct (read_inode_spec fuel V mp m ino i b off s Hfuel Hb Hm Hat) as (s1 & H1 & Ht1 & Hb1).
  erewrite bind_Ret by exact H1.
  assert (Ho1 : open_on disk (mp_device m) V mp fd d s1).
  { apply (open_tables disk (mp_device m) V V mp fd d s s1); [|exact Ht1|exact Hb1]. split; [done|by exists m|done]. }
  destruct (write_loop_spec ops disk Hlaws sb_block fuel (mp_device m) mp fd (Z.of_nat (length src)) Hfuel
              ltac:(lia) passes 0 src s1 d V i Ho1 Hblk Hpos ltac:(lia) ltac:(lia) Hlim Hwr Hpass)
    as (s2 & V2 & H2 & Ho2 & Hod2 & HV2 & Hout).
  erewrite bind_Ret by exact H2. cbn [fst snd].
  destruct s2 as [fs2 y2]. destruct (Hclock y2) as [Hc1 Hc2].
  erewrite bind_Ret by reflexivity. cbn [fst snd]. set (s3 := (fs2, snd (get_time fops y2))).
  assert (Hb3 : blocks_are disk (mp_device m) V2 s3).
  { destruct (oo_blocks _ _ _ _ _ _ _ Ho2) as [B1 B2 B3]. split; simpl in *; rewrite ?Hc1; done. }
  assert (Hm3 : mount_points (fst s3) !! mp = Some m).
  { destruct Hod2 as [E _]. destruct Ht1 as [E1 _]. simpl in *. by rewrite E, E1. }
  set (i3 := set_i_mtime (fst (get_time fops y2)) (grown i (fd_pos d) (Z.of_nat (length src)))).
  assert (Hat2 : inode_at V2 (mp_sb m) ino i b off).
  { destruct Hat as [A1 A2 A3 A4]. split; [done|done|done|]. by rewrite Hout. }
  assert (Hok3 : inode_ok i3).
  { destruct Hiok as [O1 (O2 & O3 & O4 & O5 & O6) O7 O8]. split; simpl; try done. split_and!; try done.
    unfold u32_bounds in *. case_decide; lia. }
  destruct (write_inode_spec fuel V2 mp m ino i i3 b off s3 Hfuel Hb3 Hm3 Hat2 Hok3) as (s4 & V4 & H4 & Ht4 & Hb4 & Hat4 & Hout4).
  erewrite bind_Ret by exact H4. exists s4, V4, i3.
  split; [unfold ret; f_equal; apply i32_small; lia|]. split; [exact Hb4|]. split.
  { eapply only_desc_trans; [apply (only_desc_tables fd s s1 Ht1)|]. eapply only_desc_trans; [exact Hod2|].
    apply (only_desc_tables fd s3 s4 Ht4). }
  split; [exact Hat4|]. split; [done|]. split; [done|]. rewrite <- HV2. unfold file_bytes.
  change (direct i3) with (direct i). f_equal. apply list_fmap_ext. intros j x Hx. apply Hout4. intros ->.
  apply Hnin. by eapply list_elem_of_lookup_2.
Qed.

Lemma fs_read_spec passes fuel V mp m fd ino i b off d count s :
  1048576 <= Z.of_nat fuel -> (Z.to_nat count < passes)%nat ->
  blocks_are disk (mp_device m) V s -> mount_points (fst s) !! mp = Some m -> opened mp fd ino d s ->
  inode_at V (mp_sb m) ino i b off -> blocks_ok i ->
  0 <= fd_pos d -> 0 <= count -> fd_pos d + count <= 49152 -> fd_pos d < i_size i -> i_size i <= 49152 ->
  let n := Z.min count (i_size i - fd_pos d) in
  exists s', fs_read ops fops passes fuel fd count s
      = Ret (n, slice (Z.to_nat (fd_pos d)) (Z.to_nat n) (file_bytes V i)) s' /\
    blocks_are disk (mp_device m) V s' /\ only_desc fd s s'.
Proof using Hlaws.
  intros Hfuel Hpass Hb Hm Hop Hat Hblk Hpos Hc0 Hlim Hsz Hsz2 n. unfold fs_read. rewrite (opened_fd _ _ _ _ _ Hop).
  destruct Hop as [Hfd Hd Hcnt Hino Hfind].
  erewrite bind_Ret by (by apply get_desc_Ret). rewrite (proj2 (Z.eqb_neq _ _)) by done.
  erewrite bind_Ret by reflexivity. rewrite Hino, Hfind by done.
  destruct (read_inode_spec fuel V mp m ino i b off s Hfuel Hb Hm Hat) as (s1 & H1 & Ht1 & Hb1).
  erewrite bind_Ret by exact H1. cbv beta iota. rewrite (proj2 (Z.leb_gt _ _)) by lia.
  rewrite !u32_small by lia. cbv zeta.
  assert ((if i_size i <? fd_pos d + count then i_size i - fd_pos d else count) = n) as ->.
  { unfold n. destruct (Z.ltb_spec (i_size i) (fd_pos d + count)); lia. }
  assert (Ho1 : open_on disk (mp_device m) V mp fd d s1).
  { apply (open_tables disk (mp_device m) V V mp fd d s s1); [|exact Ht1|exact Hb1]. split; [done|by exists m|done]. }
  destruct (read_loop_spec ops disk Hlaws fuel (mp_device m) V mp fd i n Hfuel Hblk passes [] s1 d Ho1 Hpos)
    as (s2 & H2 & Ho2 & Hod2); simpl length; try lia.
  simpl length in H2, Ho2. rewrite Z.sub_0_r in H2. simpl in H2.
  erewrite bind_Ret by exact H2. exists s2.
  assert (Hfl : length (file_bytes V i) = (12 * 4096)%nat).
  { unfold file_bytes. rewrite (mjoin_len V 4096); [by rewrite (proj1 Hblk)|]. intros x Hx.
    eapply block_len; [exact Hlaws|exact Hb|by apply Hblk]. }
  rewrite slice_length by (rewrite Hfl; unfold n; lia).
  split; [unfold ret; f_equal; f_equal; rewrite i32_small; lia|]. split; [exact (oo_blocks _ _ _ _ _ _ _ Ho2)|].
  eapply only_desc_trans; [apply (only_desc_tables fd s s1 Ht1)|exact Hod2].
Qed.
End Files.


(** ** A concrete file *)
Definition twelve : list Z := [10; 11; 12; 13; 14; 15; 16; 17; 18; 19; 20; 21].
Definition small_inode : inode_t :=
  {| i_mode := 1; uid := 0; gid := 0; padding := [0; 0]; i_size := 3; atime := 0; i_mtime := 0; ctime := 0;
     blocks := 1; direct := twelve; indirect := 0; double_indirect := 0; triple_indirect := 0 |}.
Definition file_ops0 : file_ops (list Z -> Z -> list Z) := {|
  lookup_path := fun _ _ y => (Some 1, y); create_file := fun _ _ y => (0, y);
  find_mount_point_by_inode := fun _ _ => Some 0%nat; cache_sync := id; get_time := fun y => (77, y) |}.
Definition open_desc : file_desc_t := {| fd_inode := 1; fd_pos := 0; fd_flags := 0; fd_count := 1 |}.
Definition file_fs : fs * (list Z -> Z -> list Z) :=
  ({| mount_points := [ram_mount]; file_descs := [open_desc; open_desc]; cache := []; cache_size := 0 |},
   fun _ off => if off =? 8192 then inode_bytes small_inode else []).

Lemma small_inode_ok : inode_ok small_inode.
Proof. split; simpl; unfold u16_range, u32_bounds; repeat constructor; simpl; lia. Qed.

Lemma small_inode_at :
  inode_at (fun b => ram_disk (snd file_fs) [100] (b * BLOCK_SIZE)) ram_sb 1 small_inode 2 0.
Proof. split; [reflexivity|unfold valid_block; lia|lia|vm_compute; reflexivity]. Qed.

Lemma small_opened fd : fd = 0 \/ fd = 1 -> opened file_ops0 0 fd 1 open_desc file_fs.
Proof. intros Hfd. split; [lia|by destruct Hfd as [-> | ->]|done|done|done]. Qed.

Lemma small_writable n : n <= 4096 -> writable twelve 0 n.
Proof.
  intros Hn k b Hk _ Hlt. assert (k = 0%nat) as -> by lia. injection Hk as <-. split; [done|].
  intros j Hj. do 12 (destruct j as [|j]; [simpl in Hj; congruence|]). discriminate Hj.
Qed.

Lemma small_clock y : ram_disk (snd (get_time file_ops0 y)) = ram_disk y /\ u32_bounds (fst (get_time file_ops0 y)).
Proof. split; [done|]. unfold u32_bounds. simpl. lia. Qed.

