(* ===== verification/Storage.v ===== *)
(** * Storage

    src/src/storage.c: the append-only data files of the key-value store.  A
    record is a 16-byte header, the key and the value.  The system calls and the
    allocator are the operations of an [io_ops] on a state of their own, with
    their documented behaviour in [io_laws]. *)
From S2P Require Import Prelude Ipc Mem Bytes.

(** ** Data *)
Definition KVDB_OK : Z := 0.
Definition KVDB_ERR_IO : Z := -1.
Definition KVDB_ERR_CORRUPT : Z := -2.
Definition KVDB_ERR_NOTFOUND : Z := -3.
(** 0x19283746. *)
Definition MAGIC : Z := 422065990.
Definition PATH_MAX : nat := 4096.

Record block_header_t : Type := BlockHeader {
  magic : Z;
  h_checksum : Z;
  key_size : Z;
  value_size : Z
}.
Definition SIZEOF_HEADER : Z := 16.

Record data_file_t : Type := DataFile {
  f_fd : Z;
  f_path : list Z;
  f_size : Z;
  f_lock : bool
}.
Definition set_f_size (v : Z) (x : data_file_t) : data_file_t := {|
  f_fd := f_fd x; f_path := f_path x; f_size := v; f_lock := f_lock x |}.
Definition set_f_lock (v : bool) (x : data_file_t) : data_file_t := {|
  f_fd := f_fd x; f_path := f_path x; f_size := f_size x; f_lock := v |}.

(** The header in memory: four little-endian words. *)
Definition header_bytes (h : block_header_t) : list Z :=
  le32 (magic h) ++ le32 (h_checksum h) ++ le32 (key_size h) ++ le32 (value_size h).
Definition bytes_header (b : list Z) : block_header_t := {|
  magic := val32 (slice 0 4 b); h_checksum := val32 (slice 4 4 b);
  key_size := val32 (slice 8 4 b); value_size := val32 (slice 12 4 b) |}.

(** What the module calls: [write] (the count), [pread] (the count and the bytes
    read), [fsync], [open], [fstat] (the size), [malloc] (the address, 0 for NULL)
    and [free]. *)
Record io_ops (Y : Type) : Type := IoOps {
  sys_write : Z -> list Z -> Y -> Z * Y;
  sys_pread : Z -> Z -> Z -> Y -> Z * list Z * Y;
  sys_fsync : Z -> Y -> Z * Y;
  sys_open : list Z -> Y -> Z * Y;
  sys_fstat : Z -> Y -> option Z * Y;
  sys_malloc : Z -> Y -> Z * Y;
  sys_free : Z -> Y -> unit * Y
}.
Arguments sys_write {Y} i fd d y.
Arguments sys_pread {Y} i fd n off y.
Arguments sys_fsync {Y} i fd y.
Arguments sys_open {Y} i path y.
Arguments sys_fstat {Y} i fd y.
Arguments sys_malloc {Y} i n y.
Arguments sys_free {Y} i p y.

(** ** Operations *)
(** [(checksum << 8) | (checksum >> 24)]. *)
Definition rotate8 (c : Z) : Z := Z.lor (u32 (Z.shiftl c 8)) (Z.shiftr c 24).
Fixpoint checksum_from (c : Z) (p : list Z) : Z :=
  match p with
  | [] => c
  | b :: p' => checksum_from (u32 (rotate8 c + b)) p'
  end.
Definition calculate_checksum (data : list Z) : Z := checksum_from 0 data.

(** [%08u]: decimal digits, at least eight. *)
Fixpoint digits (fuel : nat) (n : Z) : list Z :=
  match fuel with
  | O => []
  | S fuel' => (if n / 10 =? 0 then [] else digits fuel' (n / 10)) ++ [48 + n mod 10]
  end.
Definition pad8 (l : list Z) : list Z := replicate (8 - length l) 48 ++ l.
(** [snprintf(path, sizeof(path), "%s/%08u.dat", dir, id)]. *)
Definition data_path (dir : list Z) (id : Z) : list Z :=
  take (PATH_MAX - 1) (dir ++ [47] ++ pad8 (digits 10 id) ++ [46; 100; 97; 116]).

Section Operations.
Context {Y : Type} (ops : io_ops Y).

Definition io {S A : Type} (f : Y -> A * Y) : Cmd (S * Y) A :=
  fun s => let r := f (snd s) in Ret (fst r) (fst s, snd r).

(** The new file, or [None]; [data_file_t] comes from [calloc], the copy of the
    path from [strdup] (its failure is not checked and leaves a null path). *)
Definition create_data_file (dir : list Z) (id : Z) : Cmd (unit * Y) (option data_file_t) :=
  let path := data_path dir id in
  let* file := io (sys_malloc ops 16) in
  if file =? 0 then ret None else
  let* p := io (sys_malloc ops (Z.of_nat (length path) + 1)) in
  let* fd := io (sys_open ops path) in
  if i32 fd <? 0 then
    let* _ := io (sys_free ops p) in
    let* _ := io (sys_free ops file) in
    ret None
  else
    let* st := io (sys_fstat ops fd) in
    ret (Some {| f_fd := fd; f_path := (if p =? 0 then [] else path);
                 f_size := default 0 st; f_lock := false |}).

(** [pthread_mutex_lock] on a mutex that is never released does not return. *)
Definition lock_file : Cmd (data_file_t * Y) unit :=
  let* s := get in
  if f_lock (fst s) then fail Hang else put (set_f_lock true (fst s), snd s).
Definition unlock_file : Cmd (data_file_t * Y) unit := modify (fun s => (set_f_lock false (fst s), snd s)).
(** A count compared with a [size_t]. *)
Definition all_of (r n : Z) : bool := u32 r =? u32 n.

Definition write_block (key value : list Z) : Cmd (data_file_t * Y) Z :=
  let key_len := Z.of_nat (length key) in
  let value_len := Z.of_nat (length value) in
  let checksum := calculate_checksum key in
  let checksum := calculate_checksum value in
  let header := {| magic := MAGIC; h_checksum := checksum; key_size := u32 key_len; value_size := u32 value_len |} in
  lock_file ;;;
  let* s := get in
  let* written := io (sys_write ops (f_fd (fst s)) (header_bytes header)) in
  if negb (all_of written SIZEOF_HEADER) then unlock_file ;;; ret KVDB_ERR_IO else
  let* written := io (sys_write ops (f_fd (fst s)) key) in
  if negb (all_of written key_len) then unlock_file ;;; ret KVDB_ERR_IO else
  let* written := io (sys_write ops (f_fd (fst s)) value) in
  if negb (all_of written value_len) then unlock_file ;;; ret KVDB_ERR_IO else
  modify (fun s => (set_f_size (u32 (f_size (fst s) + u32 (SIZEOF_HEADER + key_len + value_len))) (fst s), snd s)) ;;;
  let* r := io (sys_fsync ops (f_fd (fst s))) in
  if r <? 0 then unlock_file ;;; ret KVDB_ERR_IO else
  unlock_file ;;;
  ret KVDB_OK.

(** [free(key_data); free(value_data)], unlock and return [e]. *)
Definition drop_data (key_data value_data e : Z) : Cmd (data_file_t * Y) (Z * option (list Z * list Z)) :=
  let* _ := io (sys_free ops key_data) in
  let* _ := io (sys_free ops value_data) in
  unlock_file ;;; ret (e, None).

(** The result and what is stored through the four output pointers. *)
Definition read_block (offset : Z) : Cmd (data_file_t * Y) (Z * option (list Z * list Z)) :=
  lock_file ;;;
  let* s := get in
  let fd := f_fd (fst s) in
  let* r := io (sys_pread ops fd SIZEOF_HEADER offset) in
  if negb (all_of (fst r) SIZEOF_HEADER) then unlock_file ;;; ret (KVDB_ERR_IO, None) else
  let header := bytes_header (snd r) in
  if negb (magic header =? MAGIC) then unlock_file ;;; ret (KVDB_ERR_CORRUPT, None) else
  let* key_data := io (sys_malloc ops (key_size header)) in
  let* value_data := io (sys_malloc ops (value_size header)) in
  if (key_data =? 0) || (value_data =? 0) then drop_data key_data value_data KVDB_ERR_IO else
  let offset := offset + SIZEOF_HEADER in
  let* rk := io (sys_pread ops fd (key_size header) offset) in
  if negb (all_of (fst rk) (key_size header)) then drop_data key_data value_data KVDB_ERR_IO else
  let offset := offset + key_size header in
  let* rv := io (sys_pread ops fd (value_size header) offset) in
  if negb (all_of (fst rv) (value_size header)) then drop_data key_data value_data KVDB_ERR_IO else
  let checksum := calculate_checksum (snd rk) in
  let checksum := calculate_checksum (snd rv) in
  if negb (checksum =? h_checksum header) then drop_data key_data value_data KVDB_ERR_CORRUPT else
  unlock_file ;;;
  ret (KVDB_OK, Some (snd rk, snd rv)).
End Operations.

(** ** The checksum *)
Lemma log2_u32 x : 0 <= x < 4294967296 -> Z.log2 x < 32.
Proof. intros H. destruct (decide (x = 0)) as [->|]; [simpl; lia|]. apply Z.log2_lt_pow2; lia. Qed.

Lemma rotate8_bit c j :
  0 <= c < 4294967296 -> 0 <= j < 32 ->
  Z.testbit (rotate8 c) j = if decide (j < 8) then Z.testbit c (j + 24) else Z.testbit c (j - 8).
Proof.
  intros Hc Hj. unfold rotate8, u32, wrap. rewrite Z.lor_spec, Z.mod_pow2_bits_low by lia.
  rewrite Z.shiftl_spec, Z.shiftr_spec by lia. case_decide.
  - by rewrite (Z.testbit_neg_r c (j - 8)) by lia.
  - rewrite (bits_high 32 c (j + 24)) by lia. apply orb_false_r.
Qed.

Lemma rotate8_range c : 0 <= c < 4294967296 -> 0 <= rotate8 c < 4294967296.
Proof.
  intros Hc. assert (H0 : 0 <= rotate8 c).
  { apply Z.lor_nonneg. split; [apply u32_range|]. apply Z.shiftr_nonneg. lia. }
  split; [done|]. destruct (decide (rotate8 c = 0)) as [->|Hn]; [lia|].
  apply (Z.log2_lt_pow2 _ 32); [lia|]. unfold rotate8.
  rewrite Z.log2_lor by (try apply u32_range; apply Z.shiftr_nonneg; lia). apply Z.max_lub_lt.
  - apply log2_u32, u32_range.
  - apply log2_u32. rewrite Z.shiftr_div_pow2 by lia. split; [by apply Z.div_pos; lia|].
    apply Z.div_lt_upper_bound; lia.
Qed.

Lemma rotate8_inj a b :
  0 <= a < 4294967296 -> 0 <= b < 4294967296 -> rotate8 a = rotate8 b -> a = b.
Proof.
  intros Ha Hb H. apply Z.bits_inj'. intros j Hj. destruct (decide (j < 32)) as [H32|H32].
  - destruct (decide (j < 24)).
    + pose proof (rotate8_bit a (j + 8) Ha ltac:(lia)) as H1. pose proof (rotate8_bit b (j + 8) Hb ltac:(lia)) as H2.
      rewrite decide_False in H1, H2 by lia. replace (j + 8 - 8) with j in H1, H2 by lia. congruence.
    + pose proof (rotate8_bit a (j - 24) Ha ltac:(lia)) as H1. pose proof (rotate8_bit b (j - 24) Hb ltac:(lia)) as H2.
      rewrite decide_True in H1, H2 by lia. replace (j - 24 + 24) with j in H1, H2 by lia. congruence.
  - by rewrite !(bits_high 32) by lia.
Qed.

Lemma u32_add_inj a b d : 0 <= a < 4294967296 -> 0 <= b < 4294967296 -> u32 (a + d) = u32 (b + d) -> a = b.
Proof.
  unfold u32, wrap. change (2 ^ 32) with 4294967296. intros Ha Hb H.
  pose proof (Z.div_mod (a + d) 4294967296 ltac:(lia)). pose proof (Z.div_mod (b + d) 4294967296 ltac:(lia)). lia.
Qed.

(** The rest of the data keeps two different checksums different. *)
Lemma checksum_from_inj p : forall a b,
  0 <= a < 4294967296 -> 0 <= b < 4294967296 -> checksum_from a p = checksum_from b p -> a = b.
Proof.
  induction p as [|x p IH]; intros a b Ha Hb H; [done|]. simpl in H.
  apply IH in H; [|apply u32_range..]. apply u32_add_inj in H; [|by apply rotate8_range..]. by apply rotate8_inj.
Qed.

Lemma checksum_from_range p : forall c, 0 <= c < 4294967296 -> 0 <= checksum_from c p < 4294967296.
Proof. induction p; intros c Hc; simpl; [done|]. apply IHp, u32_range. Qed.

Lemma checksum_app a b c : checksum_from c (a ++ b) = checksum_from (checksum_from c a) b.
Proof. revert c. induction a; intros c; simpl; auto. Qed.

(** One byte in error changes the checksum. *)
Lemma checksum_byte v i x y :
  v !! i = Some x -> 0 <= x < 256 -> 0 <= y < 256 -> x <> y ->
  calculate_checksum (<[i := y]> v) <> calculate_checksum v.
Proof.
  intros Hi Hx Hy Hne H. pose proof (lookup_lt_Some _ _ _ Hi) as Hlen.
  rewrite <- (take_drop_middle v i x Hi) in H at 2.
  rewrite insert_take_drop in H by done. unfold calculate_checksum in H. rewrite !checksum_app in H. simpl in H.
  apply checksum_from_inj in H; [|apply u32_range..].
  rewrite !(Z.add_comm (rotate8 _)) in H. apply Hne. symmetry. eapply u32_add_inj; [| |exact H]; lia.
Qed.

(** ** What the calls promise

    [contents y fd]: the bytes of the file open as [fd].  [write] on a file opened
    with [O_APPEND] appends a prefix of the data, or fails; [pread] on a regular
    file gives the bytes there are. *)
Record io_laws {Y} (ops : io_ops Y) (contents : Y -> Z -> list Z) : Prop := IoLaws {
  law_write fd d y : let r := sys_write ops fd d y in
    (fst r = -1 /\ contents (snd r) fd = contents y fd) \/
    (0 <= fst r <= Z.of_nat (length d) /\ contents (snd r) fd = contents y fd ++ take (Z.to_nat (fst r)) d);
  law_pread fd n off y : 0 <= n -> 0 <= off -> let r := sys_pread ops fd n off y in
    snd (fst r) = slice (Z.to_nat off) (Z.to_nat n) (contents y fd) /\
    fst (fst r) = Z.of_nat (length (snd (fst r))) /\ contents (snd r) fd = contents y fd;
  law_fsync fd fd' y : contents (snd (sys_fsync ops fd y)) fd' = contents y fd';
  law_malloc n fd y : contents (snd (sys_malloc ops n y)) fd = contents y fd;
  law_free p fd y : contents (snd (sys_free ops p y)) fd = contents y fd
}.

Definition record_header (key value : list Z) : block_header_t :=
  {| magic := MAGIC; h_checksum := calculate_checksum value;
     key_size := Z.of_nat (length key); value_size := Z.of_nat (length value) |}.
Definition record (key value : list Z) : list Z := header_bytes (record_header key value) ++ key ++ value.
(** At offset [off] of [c]: the header [h], then [k], then [v]. *)
Definition stored (c : list Z) (off : Z) (h : block_header_t) (k v : list Z) : Prop :=
  exists pre post, c = pre ++ header_bytes h ++ k ++ v ++ post /\ off = Z.of_nat (length pre).
(** A header whose sizes are those of [k] and [v]. *)
Definition fits (h : block_header_t) (k v : list Z) : Prop :=
  magic h = MAGIC /\ 0 <= h_checksum h < 4294967296 /\
  key_size h = Z.of_nat (length k) /\ value_size h = Z.of_nat (length v) /\
  Z.of_nat (length k) < 2147483648 /\ Z.of_nat (length v) < 2147483648.
(** Some allocation is refused. *)
Definition refused {Y} (ops : io_ops Y) : Prop := exists n y, fst (sys_malloc ops n y) = 0.

Lemma header_bytes_length h : length (header_bytes h) = 16%nat.
Proof. done. Qed.

Lemma bytes_header_bytes h k v : fits h k v -> bytes_header (header_bytes h) = h.
Proof.
  intros (Hm & Hc & Hk & Hv & ? & ?). destruct h as [m c ks vs]. simpl in *.
  unfold bytes_header, header_bytes, slice. cbn [magic h_checksum key_size value_size le32 app drop take].
  change ([byte_of m 0; byte_of m 1; byte_of m 2; byte_of m 3]) with (le32 m).
  change ([byte_of c 0; byte_of c 1; byte_of c 2; byte_of c 3]) with (le32 c).
  change ([byte_of ks 0; byte_of ks 1; byte_of ks 2; byte_of ks 3]) with (le32 ks).
  change ([byte_of vs 0; byte_of vs 1; byte_of vs 2; byte_of vs 3]) with (le32 vs).
  subst m ks vs. rewrite !val32_le32 by (unfold MAGIC; lia). done.
Qed.

Lemma stored_app c off h k v x : stored c off h k v -> stored (c ++ x) off h k v.
Proof. intros (pre & post & -> & Ho). exists pre, (post ++ x). by rewrite <- !app_assoc. Qed.

Lemma stored_last c k v : stored (c ++ record k v) (Z.of_nat (length c)) (record_header k v) k v.
Proof. exists c, []. split; [|done]. unfold record. by rewrite app_nil_r. Qed.

(** The three reads of a record. *)
Lemma stored_slices c off h k v :
  stored c off h k v ->
  slice (Z.to_nat off) 16 c = header_bytes h /\
  slice (Z.to_nat (off + 16)) (length k) c = k /\
  slice (Z.to_nat (off + 16 + Z.of_nat (length k))) (length v) c = v.
Proof.
  intros (pre & post & -> & ->).
  assert (Hs : forall a b d : list Z, slice (length a) (length b) (a ++ b ++ d) = b).
  { intros a b d. rewrite <- (Nat.add_0_r (length a)), slice_mid by lia. unfold slice. simpl. apply firstn_all. }
  rewrite Nat2Z.id. split_and!.
  - apply (Hs pre (header_bytes h)).
  - replace (Z.to_nat _) with (length (pre ++ header_bytes h)) by (rewrite length_app, header_bytes_length; lia).
    rewrite (app_assoc pre). apply Hs.
  - replace (Z.to_nat _) with (length ((pre ++ header_bytes h) ++ k))
      by (rewrite !length_app, header_bytes_length; lia).
    rewrite !(app_assoc pre), (app_assoc _ k). apply Hs.
Qed.

Lemma all_of_true r n : 0 <= r < 4294967296 -> 0 <= n < 4294967296 -> all_of r n = (r =? n).
Proof. intros. unfold all_of. by rewrite !u32_small. Qed.

Section Specification.
Context {Y : Type} (ops : io_ops Y) (contents : Y -> Z -> list Z) (Hlaws : io_laws ops contents).

(** Leaving a state [(f, y)] for one with the same file and the same contents. *)
Definition unchanged (f : data_file_t) (y y' : Y) : Prop := contents y' (f_fd f) = contents y (f_fd f).

Lemma drop_data_spec p q e f y :
  exists y', drop_data ops p q e (set_f_lock true f, y) = Ret (e, None) (set_f_lock false f, y') /\ unchanged f y y'.
Proof using Hlaws.
  eexists. split; [by repeat (unfold drop_data, io, unlock_file; cstep; simpl)|].
  unfold unchanged. by rewrite !(law_free _ _ Hlaws).
Qed.

(** [pread] of [n] bytes that are there. *)
Lemma pread_spec fd n off d f y :
  f_fd f = fd -> 0 <= off -> n = Z.of_nat (length d) -> slice (Z.to_nat off) (length d) (contents y fd) = d ->
  exists y', io (sys_pread ops fd n off) (f, y) = Ret (n, d) (f, y') /\ unchanged f y y'.
Proof using Hlaws.
  intros Hf Hoff -> Hd. pose proof (law_pread _ _ Hlaws fd (Z.of_nat (length d)) off y ltac:(lia) Hoff) as (H1 & H2 & H3).
  exists (snd (sys_pread ops fd (Z.of_nat (length d)) off y)). split; [|unfold unchanged; by rewrite Hf].
  unfold io. rewrite Nat2Z.id, Hd in H1. simpl. f_equal.
  rewrite (surjective_pairing (fst _)), H2, H1. done.
Qed.

Lemma lock_file_spec f y : f_lock f = false -> lock_file (f, y : Y) = Ret tt (set_f_lock true f, y).
Proof. intros H. unfold lock_file. cstep. simpl. by rewrite H. Qed.

Lemma read_record_spec off h k v f y :
  f_lock f = false -> fits h k v -> stored (contents y (f_fd f)) off h k v ->
  exists y', unchanged f y y' /\
    ((read_block ops off (f, y) = Ret (KVDB_ERR_IO, None) (f, y') /\ refused ops) \/
     read_block ops off (f, y)
     = Ret (if calculate_checksum v =? h_checksum h then (KVDB_OK, Some (k, v)) else (KVDB_ERR_CORRUPT, None)) (f, y')).
Proof using Hlaws.
  intros Hl Hfit Hst. destruct (stored_slices _ _ _ _ _ Hst) as (S1 & S2 & S3).
  assert (Hoff : 0 <= off) by (destruct Hst as (? & ? & _ & ->); lia).
  assert (Hunl : set_f_lock false f = f) by (destruct f; simpl in *; by subst).
  pose proof Hfit as (Hm & Hc & Hks & Hvs & Hkl & Hvl).
  unfold read_block. rewrite (bind_Ret _ _ _ _ _ (lock_file_spec f y Hl)).
  erewrite bind_Ret by reflexivity. cbv zeta. cbn [fst]. set (f1 := set_f_lock true f).
  destruct (pread_spec (f_fd f) SIZEOF_HEADER off (header_bytes h) f1 y eq_refl Hoff eq_refl S1) as (y1 & E1 & U1).
  change (f_fd f1) with (f_fd f). rewrite (bind_Ret _ _ _ _ _ E1). cbn [fst snd].
  rewrite (all_of_true SIZEOF_HEADER) by (unfold SIZEOF_HEADER; lia).
  rewrite Z.eqb_refl. cbn [negb]. rewrite (bytes_header_bytes h k v Hfit), Hm, Z.eqb_refl. cbn [negb].
  erewrite bind_Ret by reflexivity. erewrite bind_Ret by reflexivity. cbn [fst snd].
  set (y2 := snd (sys_malloc ops (key_size h) y1)). set (y3 := snd (sys_malloc ops (value_size h) y2)).
  assert (U3 : unchanged f y y3) by (unfold unchanged in *; unfold y3, y2; by rewrite !(law_malloc _ _ Hlaws)).
  destruct (_ || _) eqn:Hnull.
  { destruct (drop_data_spec (fst (sys_malloc ops (key_size h) y1)) (fst (sys_malloc ops (value_size h) y2))
      KVDB_ERR_IO f y3) as (y4 & E4 & U4).
    exists y4. split; [unfold unchanged in *; congruence|]. left. split; [|].
    - fold f1 in E4. by rewrite E4, Hunl.
    - apply orb_true_iff in Hnull as [H|H]; apply Z.eqb_eq in H; eexists _, _; exact H. }
  destruct (pread_spec (f_fd f) (key_size h) (off + SIZEOF_HEADER) k f1 y3) as (y4 & E4 & U4);
    [done|unfold SIZEOF_HEADER; lia|done|change (f_fd f1) with (f_fd f); by rewrite U3|].
  rewrite (bind_Ret _ _ _ _ _ E4). cbn [fst snd]. rewrite all_of_true, Z.eqb_refl by lia. cbn [negb].
  destruct (pread_spec (f_fd f) (value_size h) (off + SIZEOF_HEADER + key_size h) v f1 y4) as (y5 & E5 & U5);
    [done|unfold SIZEOF_HEADER; lia|done|rewrite Hks; unfold unchanged in *; simpl in U4; by rewrite U4, U3|].
  rewrite (bind_Ret _ _ _ _ _ E5). cbn [fst snd]. rewrite all_of_true, Z.eqb_refl by lia. cbn [negb].
  assert (U : unchanged f y y5) by (unfold unchanged in *; simpl in *; congruence).
  destruct (_ =? h_checksum h); cbn [negb].
  - exists y5. split; [done|]. right. erewrite bind_Ret by reflexivity. cbn [fst snd].
    change (set_f_lock false f1) with (set_f_lock false f). by rewrite Hunl.
  - destruct (drop_data_spec (fst (sys_malloc ops (key_size h) y1)) (fst (sys_malloc ops (value_size h) y2))
      KVDB_ERR_CORRUPT f y5) as (y6 & E6 & U6).
    exists y6. split; [unfold unchanged in *; congruence|]. right. fold f1 in E6. by rewrite E6, Hunl.
Qed.

(** One append: all of the data, or less of it, or nothing. *)
Lemma append_spec fd d f y :
  f_fd f = fd -> Z.of_nat (length d) < 2147483648 ->
  exists r n y', io (sys_write ops fd d) (f, y) = Ret r (f, y') /\
    contents y' fd = contents y fd ++ take n d /\ (all_of r (Z.of_nat (length d)) = true -> n = length d).
Proof using Hlaws.
  intros Hf Hd. set (y' := snd (sys_write ops fd d y)). set (r := fst (sys_write ops fd d y)).
  destruct (law_write _ _ Hlaws fd d y) as [[Hr Hc]|[Hr Hc]]; fold r in Hr; fold y' in Hc.
  - exists r, 0%nat, y'. split; [done|]. rewrite Hc, app_nil_r. split; [done|]. rewrite Hr. unfold all_of.
    rewrite (u32_small (Z.of_nat _)) by lia. change (u32 (-1)) with 4294967295. intros H%Z.eqb_eq. lia.
  - exists r, (Z.to_nat r), y'. split; [done|]. split; [done|]. rewrite all_of_true by lia. intros H%Z.eqb_eq. lia.
Qed.

(** [write_block] appends a prefix of the record, all of it when it returns
    [KVDB_OK]. *)
Lemma write_record_spec k v f y :
  f_lock f = false -> Z.of_nat (length k) < 2147483648 -> Z.of_nat (length v) < 2147483648 ->
  exists r d f' y', write_block ops k v (f, y) = Ret r (f', y') /\ f_lock f' = false /\ f_fd f' = f_fd f /\
    contents y' (f_fd f) = contents y (f_fd f) ++ d /\ d `prefix_of` record k v /\
    (r = KVDB_ERR_IO \/
     r = KVDB_OK /\ d = record k v /\ f_size f' = u32 (f_size f + u32 (Z.of_nat (length (record k v))))).
Proof using Hlaws.
  intros Hl Hk Hv.
  assert (Hlen : Z.of_nat (length (record k v)) = SIZEOF_HEADER + Z.of_nat (length k) + Z.of_nat (length v))
    by (unfold record, SIZEOF_HEADER; rewrite !length_app, header_bytes_length; lia).
  unfold write_block. rewrite (bind_Ret _ _ _ _ _ (lock_file_spec f y Hl)).
  erewrite bind_Ret by reflexivity. cbv zeta. cbn [fst]. set (f1 := set_f_lock true f). change (f_fd f1) with (f_fd f).
  rewrite (u32_small (Z.of_nat (length k))), (u32_small (Z.of_nat (length v))) by lia. fold (record_header k v).
  destruct (append_spec (f_fd f) (header_bytes (record_header k v)) f1 y eq_refl ltac:(simpl; lia)) as (r1 & n1 & y1 & E1 & C1 & O1).
  rewrite (bind_Ret _ _ _ _ _ E1). change (Z.of_nat (length (header_bytes _))) with SIZEOF_HEADER in O1.
  destruct (all_of r1 _); cbn [negb]; [rewrite O1, firstn_all in C1 by done|].
  2:{ eexists KVDB_ERR_IO, _, _, y1. split; [by erewrite bind_Ret by reflexivity|]. split_and!; [done..|exact C1| |by left].
      apply prefix_app_r, prefix_take. }
  destruct (append_spec (f_fd f) k f1 y1 eq_refl Hk) as (r2 & n2 & y2 & E2 & C2 & O2).
  rewrite (bind_Ret _ _ _ _ _ E2). rewrite C1, <- app_assoc in C2.
  destruct (all_of r2 _); cbn [negb]; [rewrite O2, firstn_all in C2 by done|].
  2:{ eexists KVDB_ERR_IO, _, _, y2. split; [by erewrite bind_Ret by reflexivity|]. split_and!; [done..|exact C2| |by left].
      apply prefix_app, prefix_app_r, prefix_take. }
  destruct (append_spec (f_fd f) v f1 y2 eq_refl Hv) as (r3 & n3 & y3 & E3 & C3 & O3).
  rewrite (bind_Ret _ _ _ _ _ E3). rewrite C2, <- !app_assoc in C3.
  destruct (all_of r3 _); cbn [negb]; [rewrite O3, firstn_all in C3 by done|].
  2:{ eexists KVDB_ERR_IO, _, _, y3. split; [by erewrite bind_Ret by reflexivity|]. split_and!; [done..|exact C3| |by left].
      do 2 apply prefix_app. apply prefix_take. }
  erewrite bind_Ret by reflexivity. erewrite bind_Ret by reflexivity. cbn [fst snd].
  rewrite <- Hlen. change (header_bytes (record_header k v) ++ k ++ v) with (record k v) in C3.
  assert (C4 : contents (snd (sys_fsync ops (f_fd f) y3)) (f_fd f) = contents y (f_fd f) ++ record k v)
    by (by rewrite (law_fsync _ _ Hlaws)).
  destruct (_ <? 0).
  - eexists KVDB_ERR_IO, _, _, _. split; [by erewrite bind_Ret by reflexivity|]. cbn [fst snd].
    split_and!; [done..|exact C4|done|by left].
  - eexists KVDB_OK, _, _, _. split; [by erewrite bind_Ret by reflexivity|]. cbn [fst snd].
    split_and!; [done..|exact C4|done|by right].
Qed.
End Specification.

(** [read_block] at [off] gives the record of [k] and [v], or reports that an
    allocation was refused. *)
Definition reads {Y} (ops : io_ops Y) (off : Z) (k v : list Z) (s : data_file_t * Y) : Prop :=
  exists y, read_block ops off s = Ret (KVDB_OK, Some (k, v)) (fst s, y) \/
            (read_block ops off s = Ret (KVDB_ERR_IO, None) (fst s, y) /\ refused ops).
(** It reports a corrupt record. *)
Definition rejects {Y} (ops : io_ops Y) (off : Z) (s : data_file_t * Y) : Prop :=
  exists y, read_block ops off s = Ret (KVDB_ERR_CORRUPT, None) (fst s, y) \/
            (read_block ops off s = Ret (KVDB_ERR_IO, None) (fst s, y) /\ refused ops).
Definition small (d : list Z) : Prop := Z.of_nat (length d) < 2147483648.

Lemma fits_record k v k' v' :
  length k' = length k -> length v' = length v -> small k -> small v -> fits (record_header k v) k' v'.
Proof.
  unfold fits, small. intros -> -> Hk Hv. split_and!; try done.
  - apply checksum_from_range. lia.
  - apply checksum_from_range. lia.
Qed.

(** C18. Records survive.  A [write_block] that returns [KVDB_OK] has appended a
    record that [read_block] reads back from the old end of the file, key and value,
    and has counted it in the size of the file; one that returns [KVDB_ERR_IO] has
    appended a prefix of the record at most.  Either way the lock is released, and
    every record stored before is still read as it was. *)
Theorem storage_write_read {Y} (ops : io_ops Y) (contents : Y -> Z -> list Z) (Hlaws : io_laws ops contents)
    (key value : list Z) (f : data_file_t) (y : Y)
    (Hl : f_lock f = false) (Hk : small key) (Hv : small value) :
  exists r f' y', write_block ops key value (f, y) = Ret r (f', y') /\ f_lock f' = false /\
    (r = KVDB_ERR_IO \/
     r = KVDB_OK /\ f_size f' = u32 (f_size f + u32 (Z.of_nat (length (record key value)))) /\
     reads ops (Z.of_nat (length (contents y (f_fd f)))) key value (f', y')) /\
    (exists d, contents y' (f_fd f) = contents y (f_fd f) ++ d /\ d `prefix_of` record key value) /\
    forall off k v, small k -> small v -> stored (contents y (f_fd f)) off (record_header k v) k v ->
      reads ops off k v (f', y').
Proof.
  destruct (write_record_spec ops contents Hlaws key value f y Hl Hk Hv) as (r & d & f' & y' & E & Hl' & Hfd & Hc & Hp & Hr).
  assert (Hread : forall off k v, small k -> small v -> stored (contents y' (f_fd f)) off (record_header k v) k v ->
    reads ops off k v (f', y')).
  { intros off k v Hk' Hv' Hst. rewrite <- Hfd in Hst.
    destruct (read_record_spec ops contents Hlaws off _ k v f' y' Hl' (fits_record k v k v eq_refl eq_refl Hk' Hv') Hst)
      as (y2 & _ & [Hx|Hx]); exists y2; [by right|left]. by rewrite Hx; simpl; rewrite Z.eqb_refl. }
  exists r, f', y'. split; [done|]. split; [done|]. split; [|split; [by exists d|]].
  - destruct Hr as [->|(-> & Hd & Hsz)]; [by left|right]. split_and!; [done..|].
    apply Hread; [done..|]. rewrite Hc, Hd. apply stored_last.
  - intros off k v Hk' Hv' Hst. apply Hread; [done..|]. rewrite Hc. by apply stored_app.
Qed.

(** What the checksum protects.  In a file where the record of [key] and
    [value] has been damaged, [read_block] never returns a value with one byte in
    error; but the checksum of the key is overwritten by that of the value, so a
    record with any other key of the same length is returned as valid. *)
Theorem storage_corruption {Y} (ops : io_ops Y) (contents : Y -> Z -> list Z) (Hlaws : io_laws ops contents)
    (off : Z) (key value key' : list Z) (f : data_file_t) (y : Y)
    (Hl : f_lock f = false) (Hk : small key) (Hv : small value) (Hbytes : Forall (fun b => 0 <= b < 256) value)
    (Hlen : length key' = length key) :
  (forall i x b, value !! i = Some x -> 0 <= b < 256 -> b <> x ->
     stored (contents y (f_fd f)) off (record_header key value) key' (<[i := b]> value) -> rejects ops off (f, y)) /\
  (stored (contents y (f_fd f)) off (record_header key value) key' value -> reads ops off key' value (f, y)).
Proof.
  split.
  - intros i x b Hi Hb Hne Hst.
    assert (Hfit : fits (record_header key value) key' (<[i := b]> value)) by (apply fits_record; rewrite ?length_insert; done).
    destruct (read_record_spec ops contents Hlaws off _ _ _ f y Hl Hfit Hst) as (y' & _ & [Hx|Hx]); exists y'; [by right|left].
    rewrite Hx. rewrite (proj2 (Z.eqb_neq _ _)); [done|]. simpl. apply (checksum_byte value i x b Hi); [|done..].
    by apply (Forall_lookup_1 _ _ _ _ Hbytes Hi).
  - intros Hst. destruct (read_record_spec ops contents Hlaws off _ _ _ f y Hl
      (fits_record key value key' value Hlen eq_refl Hk Hv) Hst) as (y' & _ & [Hx|Hx]); exists y'; [by right|left].
    rewrite Hx. simpl. by rewrite Z.eqb_refl.
Qed.

(** ** Names of data files *)
Definition number (l : list Z) : Z := fold_left (fun a d => 10 * a + (d - 48)) l 0.

Lemma number_digits n fuel : 0 <= n < 10 ^ Z.of_nat fuel -> number (digits fuel n) = n.
Proof.
  revert n. induction fuel as [|fuel IH]; intros n H; [unfold number; simpl in *; lia|]. cbn [digits].
  rewrite Nat2Z.inj_succ, Z.pow_succ_r in H by lia.
  unfold number. rewrite fold_left_app. cbn [fold_left]. fold (number (if n / 10 =? 0 then [] else digits fuel (n / 10))).
  assert (Hq : number (if n / 10 =? 0 then [] else digits fuel (n / 10)) = n / 10).
  { destruct (Z.eqb_spec (n / 10) 0) as [->|]; [done|]. apply IH. split; [apply Z.div_pos; lia|].
    apply Z.div_lt_upper_bound; lia. }
  rewrite Hq. pose proof (Z.div_mod n 10 ltac:(lia)). lia.
Qed.

Lemma number_pad8 l : number (pad8 l) = number l.
Proof. unfold number, pad8. rewrite fold_left_app. f_equal. by induction (8 - length l)%nat. Qed.

Lemma digits_length fuel n : (length (digits fuel n) <= fuel)%nat.
Proof.
  revert n. induction fuel as [|fuel IH]; intros n; [done|]. cbn [digits]. rewrite length_app.
  destruct (_ =? 0); simpl; [lia|]. specialize (IH (n / 10)). lia.
Qed.

(** Different data files have different names: the file name determines the
    number of the file, whatever its width, as long as the directory leaves room
    for it in [PATH_MAX]. *)
Lemma data_path_injective (dir : list Z) (id1 id2 : Z)
    (Hdir : Z.of_nat (length dir) <= 4080) (H1 : 0 <= id1 < 4294967296) (H2 : 0 <= id2 < 4294967296)
    (Heq : data_path dir id1 = data_path dir id2) : id1 = id2.
Proof.
  assert (Hfull : forall id, data_path dir id = dir ++ [47] ++ pad8 (digits 10 id) ++ [46; 100; 97; 116]).
  { intros id. apply firstn_all2. pose proof (digits_length 10 id). rewrite !length_app. unfold pad8.
    rewrite length_app, length_replicate. assert (Z.of_nat (PATH_MAX - 1) = 4095) by (vm_compute; reflexivity).
    cbn [length]. lia. }
  rewrite !Hfull in Heq. apply app_inv_head, app_inv_head, app_inv_tail in Heq.
  apply (f_equal number) in Heq. rewrite !number_pad8, !number_digits in Heq by lia. done.
Qed.

(** ** A disk that always works *)
Definition ram_io : io_ops (Z -> list Z) := {|
  sys_write := fun fd d y => (Z.of_nat (length d), fun fd' => if fd' =? fd then y fd ++ d else y fd');
  sys_pread := fun fd n off y =>
    let d := slice (Z.to_nat off) (Z.to_nat n) (y fd) in (Z.of_nat (length d), d, y);
  sys_fsync := fun _ y => (0, y);
  sys_open := fun _ y => (3, y);
  sys_fstat := fun fd y => (Some (Z.of_nat (length (y fd))), y);
  sys_malloc := fun _ y => (4096, y);
  sys_free := fun _ y => (tt, y)
|}.

Lemma ram_io_laws : io_laws ram_io (fun y fd => y fd).
Proof.
  split; simpl; intros; auto. right. split; [lia|]. by rewrite Z.eqb_refl, Nat2Z.id, firstn_all.
Qed.

Definition empty_file : data_file_t := {| f_fd := 3; f_path := []; f_size := 0; f_lock := false |}.

(** The file name of data file 42: "/db/00000042.dat". *)
Example data_path_42 :
  data_path [47; 100; 98] 42 = [47; 100; 98; 47; 48; 48; 48; 48; 48; 48; 52; 50; 46; 100; 97; 116].
Proof. reflexivity. Qed.

Lemma storage_write_read_witness :
  exists r f' y', write_block ram_io [107; 49] [118; 50; 51] (empty_file, fun _ => []) = Ret r (f', y') /\
    reads ram_io 0 [107; 49] [118; 50; 51] (f', y').
Proof.
  destruct (storage_write_read ram_io _ ram_io_laws [107; 49] [118; 50; 51] empty_file (fun _ => [])
    eq_refl eq_refl eq_refl) as (r & f' & y' & E & _ & Hr & _).
  exists r, f', y'. split; [exact E|]. destruct Hr as [Hr|(_ & _ & Hread)]; [|exact Hread].
  exfalso. revert E. rewrite Hr. vm_compute. discriminate.
Defined.

Lemma storage_corruption_witness :
  reads ram_io 0 [120; 121] [118; 50; 51]
    (empty_file, fun _ => header_bytes (record_header [107; 49] [118; 50; 51]) ++ [120; 121] ++ [118; 50; 51]).
Proof.
  apply (storage_corruption ram_io _ ram_io_laws 0 [107; 49] [118; 50; 51] [120; 121] empty_file
    (fun _ => header_bytes (record_header [107; 49] [118; 50; 51]) ++ [120; 121] ++ [118; 50; 51])).
  - reflexivity.
  - reflexivity.
  - reflexivity.
  - repeat constructor; simpl; lia.
  - reflexivity.
  - exists [], []. split; reflexivity.
Defined.
