(* ===== verification/Transaction.v ===== *)
(** * Transaction

    src/src/transaction.c: transactions of the key-value store, a list of pending
    writes with the newest first.  The store itself is declared in
    src/include/kvdb.h and not defined in the sources: it is the interface
    [KvStore], the promises the transactions rely on. *)
From S2P Require Import Prelude Storage.

(** ** Data *)
Inductive txn_op_type_t : Type := TXN_OP_PUT | TXN_OP_DELETE.

(** [op_value]: NULL, or the copied bytes; the lengths are those of the lists. *)
Record txn_op_t : Type := TxnOp {
  op_type : txn_op_type_t;
  op_key : list Z;
  op_value : option (list Z)
}.

Record kvdb_txn : Type := Txn {
  ops : list txn_op_t;
  op_count : Z;
  t_lock : bool
}.
Definition set_t_lock (v : bool) (x : kvdb_txn) : kvdb_txn := {|
  ops := ops x; op_count := op_count x; t_lock := v |}.
Definition set_ops (v : list txn_op_t) (x : kvdb_txn) : kvdb_txn := {|
  ops := v; op_count := op_count x; t_lock := t_lock x |}.
Definition set_op_count (v : Z) (x : kvdb_txn) : kvdb_txn := {|
  ops := ops x; op_count := v; t_lock := t_lock x |}.

#[export] Instance txn_op_type_eq_dec : EqDecision txn_op_type_t.
Proof. solve_decision. Defined.

(** The calls of the module: the store behind the handle, and the allocator. *)
Record kv_ops (D : Type) : Type := KvOps {
  kvdb_get : list Z -> D -> Z * option (list Z) * D;
  kvdb_put : list Z -> option (list Z) -> D -> Z * D;
  kvdb_delete : list Z -> D -> Z * D;
  kv_malloc : Z -> D -> Z * D;
  kv_free : D -> unit * D;
  sizeof_mutex : Z
}.
Arguments kvdb_get {D} k key d.
Arguments kvdb_put {D} k key v d.
Arguments kvdb_delete {D} k key d.
Arguments kv_malloc {D} k n d.
Arguments kv_free {D} k d.
Arguments sizeof_mutex {D} k.

(** ** Operations, on the transaction ([None] once it is freed) and the store *)
Section Operations.
Context {D : Type} (kv : kv_ops D).

(** A transaction, or [None] when [calloc] fails. *)
Definition kvdb_txn_begin : Cmd (unit * D) (option kvdb_txn) :=
  let* p := io (kv_malloc kv (12 + sizeof_mutex kv)) in
  if p =? 0 then ret None else
  ret (Some {| ops := []; op_count := 0; t_lock := false |}).

Definition the_txn : Cmd (option kvdb_txn * D) kvdb_txn := let* s := get in deref (fst s).
Definition put_txn (t : option kvdb_txn) : Cmd (option kvdb_txn * D) unit := modify (fun s => (t, snd s)).
Definition lock_txn : Cmd (option kvdb_txn * D) unit :=
  let* t := the_txn in
  if t_lock t then fail Hang else put_txn (Some (set_t_lock true t)).
Definition unlock_txn : Cmd (option kvdb_txn * D) unit :=
  let* t := the_txn in put_txn (Some (set_t_lock false t)).

(** [value] is NULL or the data. *)
Definition txn_add_op (type : txn_op_type_t) (key : list Z) (value : option (list Z)) : Cmd (option kvdb_txn * D) Z :=
  let* op := io (kv_malloc kv 24) in
  if op =? 0 then ret KVDB_ERR_IO else
  let* k := io (kv_malloc kv (Z.of_nat (length key))) in
  if k =? 0 then let* _ := io (kv_free kv) in ret KVDB_ERR_IO else
  let add (v : option (list Z)) :=
    lock_txn ;;;
    let* t := the_txn in
    put_txn (Some (set_ops ({| op_type := type; op_key := key; op_value := v |} :: ops t) t)) ;;;
    let* t := the_txn in
    put_txn (Some (set_op_count (u32 (op_count t + 1)) t)) ;;;
    unlock_txn ;;;
    ret KVDB_OK in
  match value with
  | Some (b :: d) =>
      let* v := io (kv_malloc kv (Z.of_nat (length (b :: d)))) in
      if v =? 0 then
        let* _ := io (kv_free kv) in
        let* _ := io (kv_free kv) in
        ret KVDB_ERR_IO
      else add (Some (b :: d))
  | _ => add None
  end.

Definition kvdb_txn_put (key value : list Z) : Cmd (option kvdb_txn * D) Z := txn_add_op TXN_OP_PUT key (Some value).
Definition kvdb_txn_delete (key : list Z) : Cmd (option kvdb_txn * D) Z := txn_add_op TXN_OP_DELETE key None.

(** The scan of the pending writes: the first one on [key]. *)
Fixpoint find_op (key : list Z) (l : list txn_op_t) : option txn_op_t :=
  match l with
  | [] => None
  | op :: l' =>
      if (length (op_key op) =? length key)%nat && bool_decide (op_key op = key) then Some op else find_op key l'
  end.

(** The result and the value returned. *)
Definition kvdb_txn_get (key : list Z) : Cmd (option kvdb_txn * D) (Z * option (list Z)) :=
  lock_txn ;;;
  let* t := the_txn in
  match find_op key (ops t) with
  | Some op =>
      if decide (op_type op = TXN_OP_DELETE) then unlock_txn ;;; ret (KVDB_ERR_NOTFOUND, None) else
      let value := default [] (op_value op) in
      let* p := io (kv_malloc kv (Z.of_nat (length value))) in
      if p =? 0 then unlock_txn ;;; ret (KVDB_ERR_IO, None) else
      unlock_txn ;;; ret (KVDB_OK, Some value)
  | None =>
      unlock_txn ;;;
      io (kvdb_get kv key)
  end.

(** The loop of [kvdb_txn_commit]. *)
Fixpoint commit_ops (l : list txn_op_t) : Cmd (option kvdb_txn * D) Z :=
  match l with
  | [] => ret KVDB_OK
  | op :: l' =>
      let* r := match op_type op with
                | TXN_OP_PUT => io (kvdb_put kv (op_key op) (op_value op))
                | TXN_OP_DELETE => io (kvdb_delete kv (op_key op))
                end in
      if negb (r =? KVDB_OK) then ret r else commit_ops l'
  end.

(** Free the three blocks of every write. *)
Fixpoint free_ops (l : list txn_op_t) : Cmd (option kvdb_txn * D) unit :=
  match l with
  | [] => ret tt
  | _ :: l' =>
      let* _ := io (kv_free kv) in
      let* _ := io (kv_free kv) in
      let* _ := io (kv_free kv) in
      free_ops l'
  end.

Definition kvdb_txn_abort : Cmd (option kvdb_txn * D) unit :=
  lock_txn ;;;
  let* t := the_txn in
  free_ops (ops t) ;;;
  let* t := the_txn in
  put_txn (Some (set_op_count 0 (set_ops [] t))) ;;;
  unlock_txn ;;;
  let* _ := io (kv_free kv) in
  put_txn None.

Definition kvdb_txn_commit : Cmd (option kvdb_txn * D) Z :=
  lock_txn ;;;
  let* t := the_txn in
  let* r := commit_ops (ops t) in
  unlock_txn ;;;
  kvdb_txn_abort ;;;
  ret r.
End Operations.

(** A write through the interface; NULL values are only those of deletes. *)
Definition do_write {D} (kv : kv_ops D) (op : txn_op_t) : Cmd (option kvdb_txn * D) Z :=
  match op_type op with
  | TXN_OP_PUT => kvdb_txn_put kv (op_key op) (default [] (op_value op))
  | TXN_OP_DELETE => kvdb_txn_delete kv (op_key op)
  end.
Fixpoint do_writes {D} (kv : kv_ops D) (l : list txn_op_t) : Cmd (option kvdb_txn * D) (list Z) :=
  match l with
  | [] => ret []
  | op :: l' => let* r := do_write kv op in let* rs := do_writes kv l' in ret (r :: rs)
  end.

(** ** What the store promises *)
Class KvStore {D : Type} (kv : kv_ops D) (kv_map : D -> gmap (list Z) (list Z)) : Prop := {
  store_get key d : let r := kvdb_get kv key d in
    kv_map (snd r) = kv_map d /\
    (fst r = match kv_map d !! key with Some v => (KVDB_OK, Some v) | None => (KVDB_ERR_NOTFOUND, None) end \/
     fst r = (KVDB_ERR_IO, None));
  store_put key v d : let r := kvdb_put kv key v d in
    (fst r = KVDB_OK /\ kv_map (snd r) = <[key := default [] v]> (kv_map d)) \/
    (fst r <> KVDB_OK /\ kv_map (snd r) = kv_map d);
  store_delete key d : let r := kvdb_delete kv key d in
    (fst r = KVDB_OK /\ kv_map (snd r) = delete key (kv_map d)) \/
    (fst r <> KVDB_OK /\ kv_map (snd r) = kv_map d);
  store_malloc n d : kv_map (snd (kv_malloc kv n d)) = kv_map d;
  store_free d : kv_map (snd (kv_free kv d)) = kv_map d
}.

(** ** The map a transaction shows *)
Definition effect (op : txn_op_t) : option (list Z) :=
  match op_type op with TXN_OP_PUT => Some (default [] (op_value op)) | TXN_OP_DELETE => None end.
Definition write_effect (op : txn_op_t) (m : gmap (list Z) (list Z)) : gmap (list Z) (list Z) :=
  partial_alter (fun _ => effect op) (op_key op) m.
(** The pending writes over the store: the newest is applied last. *)
Definition txn_view (t : kvdb_txn) (m : gmap (list Z) (list Z)) : gmap (list Z) (list Z) := foldr write_effect m (ops t).
(** The writes applied in the order of the list. *)
Definition committed (l : list txn_op_t) (m : gmap (list Z) (list Z)) : gmap (list Z) (list Z) :=
  fold_left (fun m op => write_effect op m) l m.
Definition writes_to (key : list Z) (l : list txn_op_t) : list txn_op_t := filter (fun op => op_key op = key) l.
Definition shows (o : option txn_op_t) (v : option (list Z)) : option (list Z) :=
  match o with Some op => effect op | None => v end.

Lemma lookup_write op m key : write_effect op m !! key = if decide (op_key op = key) then effect op else m !! key.
Proof.
  unfold write_effect. case_decide as H; [subst; apply lookup_partial_alter_eq|by apply lookup_partial_alter_ne].
Qed.

Lemma view_lookup l m key : foldr write_effect m l !! key = shows (head (writes_to key l)) (m !! key).
Proof.
  induction l as [|op l IH]; [done|]. simpl. rewrite lookup_write. unfold writes_to. rewrite filter_cons.
  case_decide; [done|exact IH].
Qed.

Lemma committed_lookup l m key : committed l m !! key = shows (last (writes_to key l)) (m !! key).
Proof.
  revert m. induction l as [|op l IH]; intros m; [done|]. cbn [committed fold_left]. fold (committed l (write_effect op m)).
  rewrite IH, lookup_write. unfold writes_to. rewrite filter_cons. case_decide; [|done].
  rewrite last_cons. by destruct (last _).
Qed.

Lemma find_op_head key l : find_op key l = head (writes_to key l).
Proof.
  induction l as [|op l IH]; [done|]. simpl. unfold writes_to. rewrite filter_cons.
  case_decide as H.
  - by rewrite H, Nat.eqb_refl, bool_decide_true.
  - rewrite bool_decide_false, andb_false_r by done. exact IH.
Qed.

(** No key written twice: the order of the writes does not matter. *)
Lemma writes_to_single key l : NoDup (op_key <$> l) -> head (writes_to key l) = last (writes_to key l).
Proof.
  induction l as [|op l IH]; intros Hnd; [done|]. rewrite fmap_cons in Hnd. apply NoDup_cons in Hnd as [Hn Hnd].
  unfold writes_to. rewrite filter_cons. case_decide as H; [|by apply IH].
  assert (Hnil : filter (fun op => op_key op = key) l = []).
  { destruct (filter _ l) as [|o l'] eqn:E; [done|]. exfalso. apply Hn. apply list_elem_of_fmap. exists o.
    assert (Ho : o ∈ filter (fun op => op_key op = key) l) by (rewrite E; apply list_elem_of_here).
    apply list_elem_of_filter in Ho as [Ho ?]. split; congruence || done. }
  by rewrite Hnil.
Qed.

Section Specification.
Context {D : Type} (kv : kv_ops D) (kv_map : D -> gmap (list Z) (list Z)) {Hkv : KvStore kv kv_map}.

Lemma lock_txn_spec t d : t_lock t = false -> lock_txn (Some t, d : D) = Ret tt (Some (set_t_lock true t), d).
Proof. intros H. unfold lock_txn, the_txn. cstep. simpl. by rewrite H. Qed.

Lemma unlocked t : t_lock t = false -> set_t_lock false t = t.
Proof. destruct t. simpl. by intros ->. Qed.

Lemma txn_get_spec t d key :
  t_lock t = false ->
  exists r d', kvdb_txn_get kv key (Some t, d) = Ret r (Some t, d') /\ kv_map d' = kv_map d /\
    (r = match txn_view t (kv_map d) !! key with Some v => (KVDB_OK, Some v) | None => (KVDB_ERR_NOTFOUND, None) end \/
     r = (KVDB_ERR_IO, None)).
Proof using Hkv.
  intros Hl. unfold kvdb_txn_get. rewrite (bind_Ret _ _ _ _ _ (lock_txn_spec t d Hl)).
  erewrite bind_Ret by reflexivity. cbn [ops set_t_lock]. unfold txn_view. rewrite view_lookup, find_op_head.
  assert (Hu : forall d', unlock_txn (Some (set_t_lock true t), d' : D) = Ret tt (Some t, d')).
  { intros d'. transitivity (Ret tt (Some (set_t_lock false t), d')); [done|by rewrite unlocked]. }
  destruct (head _) as [op|]; cbn [shows].
  - unfold effect. case_decide as Hty.
    { rewrite (bind_Ret _ _ _ _ _ (Hu d)). eexists _, _. split; [done|]. split; [done|]. left. by rewrite Hty. }
    erewrite bind_Ret by reflexivity. cbn [fst snd].
    destruct (_ =? 0); rewrite (bind_Ret _ _ _ _ _ (Hu _)); eexists _, _; (split; [done|]);
      (split; [apply (store_malloc )|]); [by right|left]. by destruct (op_type op).
  - rewrite (bind_Ret _ _ _ _ _ (Hu d)). destruct (store_get  key d) as [Hm Hr].
    eexists _, _. split; [done|]. split; [done|exact Hr].
Qed.

Lemma add_op_spec ty key value t d :
  t_lock t = false ->
  exists r t' d', txn_add_op kv ty key value (Some t, d) = Ret r (Some t', d') /\ t_lock t' = false /\ kv_map d' = kv_map d /\
    ((r = KVDB_ERR_IO /\ t' = t) \/
     (r = KVDB_OK /\ exists v, default [] v = default [] value /\
        ops t' = {| op_type := ty; op_key := key; op_value := v |} :: ops t)).
Proof using Hkv.
  intros Hl. unfold txn_add_op. erewrite bind_Ret by reflexivity. cbn [fst snd].
  destruct (_ =? 0).
  { eexists _, t, _. split; [reflexivity|]. split_and!; [done|apply store_malloc|by left]. }
  erewrite bind_Ret by reflexivity. cbn [fst snd]. destruct (_ =? 0).
  { eexists _, t, _. split; [by erewrite bind_Ret by reflexivity|]. split_and!; [done| |by left].
    simpl. by rewrite store_free, !store_malloc. }
  assert (Hadd : forall v d1, exists t', 
    bind lock_txn (fun _ => bind the_txn (fun t =>
      bind (put_txn (Some (set_ops ({| op_type := ty; op_key := key; op_value := v |} :: ops t) t))) (fun _ =>
      bind the_txn (fun t => bind (put_txn (Some (set_op_count (u32 (op_count t + 1)) t))) (fun _ =>
      bind unlock_txn (fun _ => ret KVDB_OK)))))) (Some t, d1 : D) = Ret KVDB_OK (Some t', d1) /\
    t_lock t' = false /\ ops t' = {| op_type := ty; op_key := key; op_value := v |} :: ops t).
  { intros v d1. eexists. rewrite (bind_Ret _ _ _ _ _ (lock_txn_spec t d1 Hl)). split; [reflexivity|]. done. }
  destruct value as [[|b v]|].
  - destruct (Hadd None (snd (kv_malloc kv (Z.of_nat (length key)) (snd (kv_malloc kv 24 d))))) as (t' & E & ? & ?).
    eexists _, t', _. split; [exact E|]. split_and!; [done|by rewrite !store_malloc|]. right. split; [done|]. by exists None.
  - erewrite bind_Ret by reflexivity. cbn [fst snd]. destruct (_ =? 0).
    { eexists _, t, _. split; [by do 2 erewrite bind_Ret by reflexivity|]. split_and!; [done| |by left].
      simpl. by rewrite !store_free, !store_malloc. }
    set (d1 := snd (kv_malloc kv (Z.of_nat (length (b :: v))) _)).
    destruct (Hadd (Some (b :: v)) d1) as (t' & E & ? & ?).
    eexists _, t', _. split; [exact E|]. split_and!; [done|unfold d1; by rewrite !store_malloc|]. right. split; [done|]. by exists (Some (b :: v)).
  - destruct (Hadd None (snd (kv_malloc kv (Z.of_nat (length key)) (snd (kv_malloc kv 24 d))))) as (t' & E & ? & ?).
    eexists _, t', _. split; [exact E|]. split_and!; [done|by rewrite !store_malloc|]. right. split; [done|]. by exists None.
Qed.

(** The writes that returned [KVDB_OK], applied in order. *)
Fixpoint accepted (l : list txn_op_t) (rs : list Z) (m : gmap (list Z) (list Z)) : gmap (list Z) (list Z) :=
  match l, rs with
  | op :: l', r :: rs' => accepted l' rs' (if r =? KVDB_OK then write_effect op m else m)
  | _, _ => m
  end.

Lemma do_write_spec op t d :
  t_lock t = false ->
  exists r t' d', do_write kv op (Some t, d) = Ret r (Some t', d') /\ t_lock t' = false /\ kv_map d' = kv_map d /\
    (r = KVDB_OK \/ r = KVDB_ERR_IO) /\
    forall m, txn_view t' m = (if r =? KVDB_OK then write_effect op (txn_view t m) else txn_view t m).
Proof using Hkv.
  intros Hl. unfold do_write. destruct op as [ty key value]. simpl. destruct ty.
  - destruct (add_op_spec TXN_OP_PUT key (Some (default [] value)) t d Hl) as (r & t' & d' & E & Hl' & Hm & [[-> ->]|(-> & v & Hv & Ho)]);
      eexists _, _, _; (split; [exact E|]); split_and!; auto.
    intros m. unfold txn_view. rewrite Ho. simpl. unfold write_effect, effect. simpl in *. by rewrite Hv.
  - destruct (add_op_spec TXN_OP_DELETE key None t d Hl) as (r & t' & d' & E & Hl' & Hm & [[-> ->]|(-> & v & Hv & Ho)]);
      eexists _, _, _; (split; [exact E|]); split_and!; auto.
    intros m. unfold txn_view. by rewrite Ho.
Qed.

Lemma do_writes_spec l : forall t d,
  t_lock t = false ->
  exists rs t' d', do_writes kv l (Some t, d) = Ret rs (Some t', d') /\ t_lock t' = false /\ kv_map d' = kv_map d /\
    length rs = length l /\ Forall (fun r => r = KVDB_OK \/ r = KVDB_ERR_IO) rs /\
    forall m, txn_view t' m = accepted l rs (txn_view t m).
Proof using Hkv.
  induction l as [|op l IH]; intros t d Hl.
  { exists [], t, d. by split_and!. }
  destruct (do_write_spec op t d Hl) as (r & t1 & d1 & E1 & Hl1 & Hm1 & Hr & Hv1).
  destruct (IH t1 d1 Hl1) as (rs & t2 & d2 & E2 & Hl2 & Hm2 & Hlen & Hrs & Hv2).
  exists (r :: rs), t2, d2. split.
  { simpl. rewrite (bind_Ret _ _ _ _ _ E1). by rewrite (bind_Ret _ _ _ _ _ E2). }
  split_and!; [done|congruence|by simpl; f_equal|by constructor|]. intros m. rewrite Hv2, Hv1. done.
Qed.

Lemma commit_ops_spec l : forall t d,
  exists r d' done rest, commit_ops kv l (Some t, d) = Ret r (Some t, d') /\ l = done ++ rest /\
    kv_map d' = committed done (kv_map d) /\ ((r = KVDB_OK /\ rest = []) \/ (r <> KVDB_OK /\ rest <> [])).
Proof using Hkv.
  induction l as [|op l IH]; intros t d.
  { exists KVDB_OK, d, [], []. split_and!; auto. }
  set (c := match op_type op with TXN_OP_PUT => io (kvdb_put kv (op_key op) (op_value op))
                                | TXN_OP_DELETE => io (kvdb_delete kv (op_key op)) end : Cmd (option kvdb_txn * D) Z).
  assert (Hc : exists r d1, c (Some t, d) = Ret r (Some t, d1) /\
     ((r = KVDB_OK /\ kv_map d1 = write_effect op (kv_map d)) \/ (r <> KVDB_OK /\ kv_map d1 = kv_map d))).
  { unfold c, io, write_effect, effect. destruct (op_type op); eexists _, _; (split; [reflexivity|]); [apply store_put|apply store_delete]. }
  destruct Hc as (r & d1 & E & Hr). change (commit_ops kv (op :: l)) with (bind c (fun r => if negb (r =? KVDB_OK) then ret r else commit_ops kv l)).
  rewrite (bind_Ret _ _ _ _ _ E). destruct Hr as [[-> Hm]|[Hn Hm]].
  - cbn. destruct (IH t d1) as (r & d' & dn & rest & E2 & -> & Hm2 & Hr).
    exists r, d', (op :: dn), rest. split_and!; [done|done| |done]. rewrite Hm2, Hm. done.
  - rewrite (proj2 (Z.eqb_neq _ _) Hn). cbn. exists r, d1, [], (op :: l). split_and!; try done. by right.
Qed.

Lemma free_ops_spec l : forall t d, exists d', free_ops kv l (t, d) = Ret tt (t, d') /\ kv_map d' = kv_map d.
Proof using Hkv.
  induction l as [|op l IH]; intros t d; [by exists d|]. simpl. do 3 erewrite bind_Ret by reflexivity. cbn [fst snd].
  destruct (IH t (snd (kv_free kv (snd (kv_free kv (snd (kv_free kv d))))))) as (d' & E & Hm).
  exists d'. split; [done|]. by rewrite Hm, !store_free.
Qed.

Lemma abort_spec t d :
  t_lock t = false -> exists d', kvdb_txn_abort kv (Some t, d) = Ret tt (None, d') /\ kv_map d' = kv_map d.
Proof using Hkv.
  intros Hl. unfold kvdb_txn_abort. rewrite (bind_Ret _ _ _ _ _ (lock_txn_spec t d Hl)).
  erewrite bind_Ret by reflexivity. destruct (free_ops_spec (ops (set_t_lock true t)) (Some (set_t_lock true t)) d) as (d1 & E & Hm).
  cbn [ops set_t_lock] in *. rewrite (bind_Ret _ _ _ _ _ E). do 4 erewrite bind_Ret by reflexivity. cbn [fst snd].
  eexists. split; [reflexivity|]. simpl. by rewrite store_free.
Qed.
End Specification.

(** C17. A transaction reads its own writes and isolates the store.  Whatever
    sequence of puts and deletes it is given, the store is unchanged, and a get
    then returns what a map holding the store's entries would hold after the
    accepted writes in the order they were made, the last one winning; or it
    reports [KVDB_ERR_IO].  An abort frees the transaction and leaves the store
    as it was. *)
Theorem txn_reads_own_writes {D : Type} (kv : kv_ops D) (kv_map : D -> gmap (list Z) (list Z)) (Hkv : KvStore kv kv_map)
    (l : list txn_op_t) (key : list Z) (t : kvdb_txn) (d : D) (Hl : t_lock t = false) (Hnew : ops t = []) :
  exists rs t' d', do_writes kv l (Some t, d) = Ret rs (Some t', d') /\ kv_map d' = kv_map d /\
    length rs = length l /\ Forall (fun r => r = KVDB_OK \/ r = KVDB_ERR_IO) rs /\
    (exists r d'', kvdb_txn_get kv key (Some t', d') = Ret r (Some t', d'') /\ kv_map d'' = kv_map d /\
      (r = match accepted l rs (kv_map d) !! key with
           | Some v => (KVDB_OK, Some v)
           | None => (KVDB_ERR_NOTFOUND, None)
           end \/ r = (KVDB_ERR_IO, None))) /\
    exists d'', kvdb_txn_abort kv (Some t', d') = Ret tt (None, d'') /\ kv_map d'' = kv_map d.
Proof.
  destruct (do_writes_spec kv kv_map l t d Hl) as (rs & t' & d' & E & Hl' & Hm & Hlen & Hrs & Hv).
  exists rs, t', d'. split_and!; [done..| |].
  - destruct (txn_get_spec kv kv_map t' d' key Hl') as (r & d'' & E2 & Hm2 & Hr).
    exists r, d''. split_and!; [done|congruence|]. rewrite Hv, Hm in Hr. unfold txn_view in Hr. rewrite Hnew in Hr. exact Hr.
  - destruct (abort_spec kv kv_map t' d' Hl') as (d'' & E2 & Hm2). exists d''. split; [done|congruence].
Qed.

(** What a commit does.  It frees the transaction and applies the pending
    writes starting from the newest, up to the first that the store refuses, whose
    error it returns; what was applied before stays.  When it returns [KVDB_OK]
    the store holds, for each key, the OLDEST write of the transaction on it: this
    is the map the transaction showed as long as no key was written twice, and
    reverses the order of the writes otherwise. *)
Theorem txn_commit_order {D : Type} (kv : kv_ops D) (kv_map : D -> gmap (list Z) (list Z)) (Hkv : KvStore kv kv_map)
    (t : kvdb_txn) (d : D) (Hl : t_lock t = false) :
  exists r d' done rest, kvdb_txn_commit kv (Some t, d) = Ret r (None, d') /\
    ops t = done ++ rest /\ kv_map d' = committed done (kv_map d) /\ (r = KVDB_OK <-> rest = []) /\
    (r = KVDB_OK -> forall key, kv_map d' !! key = shows (last (writes_to key (ops t))) (kv_map d !! key)) /\
    (r = KVDB_OK -> NoDup (op_key <$> ops t) -> kv_map d' = txn_view t (kv_map d)).
Proof.
  destruct (commit_ops_spec kv kv_map (ops t) (set_t_lock true t) d) as (r & d1 & dn & rest & E & Hops & Hm & Hr).
  destruct (abort_spec kv kv_map (set_t_lock false t) d1 eq_refl) as (d' & E2 & Hm2).
  assert (Hok : r = KVDB_OK -> forall key, kv_map d' !! key = shows (last (writes_to key (ops t))) (kv_map d !! key)).
  { intros -> key. destruct Hr as [[_ ->]|[? _]]; [|done]. by rewrite Hm2, Hm, committed_lookup, Hops, app_nil_r. }
  exists r, d', dn, rest. split_and!; [|done|congruence|naive_solver|done|].
  - unfold kvdb_txn_commit. rewrite (bind_Ret _ _ _ _ _ (lock_txn_spec t d Hl)). erewrite bind_Ret by reflexivity.
    cbn [ops set_t_lock]. rewrite (bind_Ret _ _ _ _ _ E). erewrite bind_Ret by reflexivity.
    change (set_t_lock false (set_t_lock true t)) with (set_t_lock false t). cbn [fst snd].
    by rewrite (bind_Ret _ _ _ _ _ E2).
  - intros Hr0 Hnd. apply map_eq. intros key. rewrite (Hok Hr0). unfold txn_view. rewrite view_lookup.
    by rewrite (writes_to_single key _ Hnd).
Qed.

(** ** A store in memory *)
Definition map_kv : kv_ops (gmap (list Z) (list Z)) := {|
  kvdb_get := fun key d => (match d !! key with Some v => (KVDB_OK, Some v) | None => (KVDB_ERR_NOTFOUND, None) end, d);
  kvdb_put := fun key v d => (KVDB_OK, <[key := default [] v]> d);
  kvdb_delete := fun key d =>
    match d !! key with Some _ => (KVDB_OK, delete key d) | None => (KVDB_ERR_NOTFOUND, d) end;
  kv_malloc := fun _ d => (4096, d);
  kv_free := fun d => (tt, d);
  sizeof_mutex := 4
|}.

#[export] Instance map_kv_store : KvStore map_kv (fun d => d).
Proof.
  split; simpl; intros; auto.
  destruct (d !! key); simpl; [by left|by right].
Qed.

Definition new_txn : kvdb_txn := {| ops := []; op_count := 0; t_lock := false |}.
Definition put1 (v : Z) : txn_op_t := {| op_type := TXN_OP_PUT; op_key := [107]; op_value := Some [v] |}.

Lemma txn_reads_own_writes_witness :
  exists rs t', do_writes map_kv [put1 1; put1 2] (Some new_txn, ∅) = Ret rs (Some t', ∅) /\
    exists d, kvdb_txn_get map_kv [107] (Some t', ∅) = Ret (KVDB_OK, Some [2]) (Some t', d).
Proof.
  destruct (txn_reads_own_writes map_kv _ map_kv_store [put1 1; put1 2] [107] new_txn ∅ eq_refl eq_refl)
    as (rs & t' & d' & E & Hm & _ & _ & (r & d'' & Eg & _) & _).
  simpl in Hm. subst d'. exists rs, t'. split; [exact E|]. exists d''.
  assert (Hrs : rs = [KVDB_OK; KVDB_OK] /\ t' = set_op_count 2 (set_ops [put1 2; put1 1] new_txn)).
  { vm_compute in E. injection E as <- <-. split; reflexivity. }
  destruct Hrs as [-> ->]. vm_compute in Eg. injection Eg as <- <-. reflexivity.
Defined.

Lemma txn_commit_order_witness :
  exists d, kvdb_txn_commit map_kv (Some (set_ops [put1 2; put1 1] new_txn), ∅) = Ret KVDB_OK (None, d) /\
    d !! [107] = Some [1].
Proof.
  destruct (txn_commit_order map_kv _ map_kv_store (set_ops [put1 2; put1 1] new_txn) ∅ eq_refl)
    as (r & d & dn & rest & E & _ & _ & _ & Hlast & _).
  assert (r = KVDB_OK) as -> by (vm_compute in E; injection E as <- _; reflexivity).
  exists d. split; [exact E|]. rewrite (Hlast eq_refl). reflexivity.
Defined.
