(* ===== verification/SkipList.v ===== *)
(** * SkipList

    src/src/index.c: the skip list that indexes the key-value store.  Nodes are
    cells of a heap, linked by [forward] at each of their levels.  The comparison
    is the user's [kvdb_compare_func]; [rand] and the allocator are operations on
    a state of their own. *)
From Stdlib Require Import Sorted.
From S2P Require Import Prelude Storage.

(** ** Data *)
Definition MAX_LEVEL : nat := 32.

Record skiplist_node_t : Type := Node {
  n_key : list Z;
  value_offset : Z;
  value_len : Z;
  n_level : nat;
  forward : list ptr
}.
Definition set_value (off len : Z) (x : skiplist_node_t) : skiplist_node_t := {|
  n_key := n_key x; value_offset := off; value_len := len; n_level := n_level x; forward := forward x |}.
Definition set_forward (v : list ptr) (x : skiplist_node_t) : skiplist_node_t := {|
  n_key := n_key x; value_offset := value_offset x; value_len := value_len x; n_level := n_level x; forward := v |}.

Record skiplist_t : Type := SkipList {
  sl_header : nat;
  sl_level : nat;
  sl_size : Z;
  sl_lock : bool
}.
Definition set_sl_level (v : nat) (x : skiplist_t) : skiplist_t := {|
  sl_header := sl_header x; sl_level := v; sl_size := sl_size x; sl_lock := sl_lock x |}.
Definition set_sl_size (v : Z) (x : skiplist_t) : skiplist_t := {|
  sl_header := sl_header x; sl_level := sl_level x; sl_size := v; sl_lock := sl_lock x |}.
Definition set_sl_lock (v : bool) (x : skiplist_t) : skiplist_t := {|
  sl_header := sl_header x; sl_level := sl_level x; sl_size := sl_size x; sl_lock := v |}.

(** The list and the nodes. *)
Record index : Type := Index {
  sl : skiplist_t;
  heap : list skiplist_node_t
}.
Definition set_sl (v : skiplist_t) (x : index) : index := {| sl := v; heap := heap x |}.
Definition set_heap (v : list skiplist_node_t) (x : index) : index := {| sl := sl x; heap := v |}.

Record sl_ops (Y : Type) : Type := SlOps {
  RAND_MAX : Z;
  sl_rand : Y -> Z * Y;
  sl_malloc : Z -> Y -> Z * Y;
  sl_free : Y -> unit * Y
}.
Arguments RAND_MAX {Y} s.
Arguments sl_rand {Y} s y.
Arguments sl_malloc {Y} s n y.
Arguments sl_free {Y} s y.

(** ** Operations *)
Section Operations.
Context {Y : Type} (ops : sl_ops Y) (compare : list Z -> list Z -> Z).

(** [forward] has room for [MAX_LEVEL] pointers, all null ([calloc]); the block is
    larger than [sizeof(skiplist_node_t)] (148 bytes) by [level] pointers. *)
Definition create_node (level : nat) (key : list Z) (off len : Z) : Cmd (list skiplist_node_t * Y) ptr :=
  let* node := io (sl_malloc ops (148 + 4 * Z.of_nat level)) in
  if node =? 0 then ret None else
  let* k := io (sl_malloc ops (Z.of_nat (length key))) in
  if k =? 0 then let* _ := io (sl_free ops) in ret None else
  let* s := get in
  put (fst s ++ [{| n_key := key; value_offset := off; value_len := len; n_level := level;
                    forward := replicate MAX_LEVEL None |}], snd s) ;;;
  ret (Some (length (fst s))).

(** [n] is [MAX_LEVEL - level]. *)
Fixpoint random_level_from (n level : nat) : Cmd (list skiplist_node_t * Y) nat :=
  let* r := io (sl_rand ops) in
  if r <? Z.quot (RAND_MAX ops) 2 then
    match n with
    | O => ret level
    | S n' => random_level_from n' (S level)
    end
  else ret level.
Definition random_level : Cmd (list skiplist_node_t * Y) nat := random_level_from (MAX_LEVEL - 1) 1.

Definition skiplist_create : Cmd (list skiplist_node_t * Y) (option skiplist_t) :=
  let* list := io (sl_malloc ops 20) in
  if list =? 0 then ret None else
  let* header := create_node MAX_LEVEL [] 0 0 in
  match header with
  | None => let* _ := io (sl_free ops) in ret None
  | Some h => ret (Some {| sl_header := h; sl_level := 1; sl_size := 0; sl_lock := false |})
  end.

(** [while (node->forward[i] && compare(node->forward[i], key) < 0)]. *)
Fixpoint walk (fuel : nat) (i : nat) (key : list Z) (node : nat) : Cmd (index * Y) nat :=
  let* s := get in
  let* nd := deref (heap (fst s) !! node) in
  let* next := deref (forward nd !! i) in
  match next with
  | None => ret node
  | Some n =>
      let* nn := deref (heap (fst s) !! n) in
      if compare (n_key nn) key <? 0 then
        match fuel with O => fail NoFuel | S fuel' => walk fuel' i key n end
      else ret node
  end.

(** [for (i = list->level - 1; i >= 0; i--)], with the nodes it stopped at stored
    in [update]. *)
Fixpoint descend (fuel : nat) (i : nat) (key : list Z) (node : nat) (update : list ptr) : Cmd (index * Y) (nat * list ptr) :=
  match i with
  | O => ret (node, update)
  | S j => let* n := walk fuel j key node in descend fuel j key n (<[j := Some n]> update)
  end.

(** [node->forward[0]], when its key is [key]. *)
Definition match_next (key : list Z) (node : nat) : Cmd (index * Y) ptr :=
  let* s := get in
  let* nd := deref (heap (fst s) !! node) in
  let* next := deref (forward nd !! 0%nat) in
  match next with
  | None => ret None
  | Some n => let* nn := deref (heap (fst s) !! n) in
              ret (if compare (n_key nn) key =? 0 then Some n else None)
  end.

Definition skiplist_find (fuel : nat) (key : list Z) : Cmd (index * Y) ptr :=
  let* s := get in
  let* r := descend fuel (sl_level (sl (fst s))) key (sl_header (sl (fst s))) [] in
  match_next key (fst r).

Definition lock_list : Cmd (index * Y) unit :=
  let* s := get in
  if sl_lock (sl (fst s)) then fail Hang else put (set_sl (set_sl_lock true (sl (fst s))) (fst s), snd s).
Definition modify_sl (f : skiplist_t -> skiplist_t) : Cmd (index * Y) unit :=
  modify (fun s => (set_sl (f (sl (fst s))) (fst s), snd s)).
Definition modify_node (p : nat) (f : skiplist_node_t -> skiplist_node_t) : Cmd (index * Y) unit :=
  let* s := get in
  let* _ := deref (heap (fst s) !! p) in
  put (set_heap (alter f p (heap (fst s))) (fst s), snd s).
(** A function on the nodes and the allocator. *)
Definition on_heap {A : Type} (c : Cmd (list skiplist_node_t * Y) A) : Cmd (index * Y) A :=
  fun s => match c (heap (fst s), snd s) with
           | Ret a t => Ret a (set_heap (fst t) (fst s), snd t)
           | Yield _ _ => Stop Fault
           | Stop e => Stop e
           end.

(** [for (i = 0; i < level; i++)]: link the node in at the levels [i] to
    [i + n - 1]. *)
Fixpoint link (n i : nat) (node : nat) (update : list ptr) : Cmd (index * Y) unit :=
  match n with
  | O => ret tt
  | S n' =>
      let* u := deref (update !! i) in
      let* p := deref u in
      let* s := get in
      let* nd := deref (heap (fst s) !! p) in
      let* next := deref (forward nd !! i) in
      modify_node node (fun x => set_forward (<[i := next]> (forward x)) x) ;;;
      modify_node p (fun x => set_forward (<[i := Some node]> (forward x)) x) ;;;
      link n' (S i) node update
  end.

(** [for (i = list->level; i < level; i++) update[i] = list->header]: [n] of them. *)
Fixpoint raise_update (n i : nat) (header : nat) (update : list ptr) : list ptr :=
  match n with
  | O => update
  | S n' => raise_update n' (S i) header (<[i := Some header]> update)
  end.

Definition skiplist_insert (fuel : nat) (key : list Z) (off len : Z) : Cmd (index * Y) Z :=
  lock_list ;;;
  let* s := get in
  let* r := descend fuel (sl_level (sl (fst s))) key (sl_header (sl (fst s))) (replicate MAX_LEVEL None) in
  let* found := match_next key (fst r) in
  match found with
  | Some p =>
      modify_node p (set_value off len) ;;;
      modify_sl (set_sl_lock false) ;;;
      ret KVDB_OK
  | None =>
      let* level := on_heap random_level in
      let top := sl_level (sl (fst s)) in
      let update := raise_update (level - top) top (sl_header (sl (fst s))) (snd r) in
      (if (top <? level)%nat then modify_sl (set_sl_level level) else ret tt) ;;;
      let* node := on_heap (create_node level key off len) in
      match node with
      | None => modify_sl (set_sl_lock false) ;;; ret KVDB_ERR_IO
      | Some n =>
          link level 0 n update ;;;
          modify_sl (fun l => set_sl_size (u32 (sl_size l + 1)) l) ;;;
          modify_sl (set_sl_lock false) ;;;
          ret KVDB_OK
      end
  end.
End Operations.

(** ** The invariant *)
Class KeyOrder (compare : list Z -> list Z -> Z) : Prop := {
  key_trans a b c : compare a b < 0 -> compare b c < 0 -> compare a c < 0;
  key_flip a b : 0 < compare a b -> compare b a < 0;
  key_eq a b c : compare a b < 0 -> compare b c = 0 -> compare a c < 0
}.

Definition lev (h : list skiplist_node_t) (id : nat) : nat :=
  match h !! id with Some nd => n_level nd | None => 0 end.
Definition key_of (h : list skiplist_node_t) (id : nat) : list Z :=
  match h !! id with Some nd => n_key nd | None => [] end.
Definition value_of (h : list skiplist_node_t) (id : nat) : Z * Z :=
  match h !! id with Some nd => (value_offset nd, value_len nd) | None => (0, 0) end.
(** The nodes of [l] that are linked at level [i]. *)
Definition tall (h : list skiplist_node_t) (i : nat) (l : list nat) : list nat := filter (fun id => (i < lev h id)%nat) l.
(** The pointer of a node at level [i]. *)
Definition fwd (h : list skiplist_node_t) (id i : nat) : option ptr :=
  match h !! id with Some nd => forward nd !! i | None => None end.
(** At every level, a node points to the next node of that level. *)
Definition linked (h : list skiplist_node_t) (L : list nat) : Prop :=
  forall pre id suf i, L = pre ++ id :: suf -> (i < lev h id)%nat -> fwd h id i = Some (head (tall h i suf)).

Section Invariant.
Context (compare : list Z -> list Z -> Z).

Definition before (h : list skiplist_node_t) (a b : nat) : Prop := compare (key_of h a) (key_of h b) < 0.

(** [l]: the nodes after the header, in the order of level 0. *)
Record skip_ok (s : index) (l : list nat) : Prop := SkipOk {
  ok_valid : Forall (fun id => is_Some (heap s !! id)) (sl_header (sl s) :: l);
  ok_nodup : NoDup (sl_header (sl s) :: l);
  ok_head : lev (heap s) (sl_header (sl s)) = MAX_LEVEL;
  ok_levels : Forall (fun id => (1 <= lev (heap s) id <= sl_level (sl s))%nat) l;
  ok_level : (1 <= sl_level (sl s) <= MAX_LEVEL)%nat;
  ok_linked : linked (heap s) (sl_header (sl s) :: l);
  ok_sorted : StronglySorted (before (heap s)) l;
  ok_forward : Forall (fun nd => length (forward nd) = MAX_LEVEL) (heap s);
  ok_size : sl_size (sl s) = u32 (Z.of_nat (length l));
  ok_lock : sl_lock (sl s) = false
}.

(** The entries of the index, sorted by key. *)
Definition entries (s : index) (l : list nat) : list (list Z * (Z * Z)) :=
  (fun id => (key_of (heap s) id, value_of (heap s) id)) <$> l.

(** The same operations on the sorted list. *)
Fixpoint put_entry (key : list Z) (v : Z * Z) (al : list (list Z * (Z * Z))) : list (list Z * (Z * Z)) :=
  match al with
  | [] => [(key, v)]
  | (k, w) :: al' =>
      if compare k key <? 0 then (k, w) :: put_entry key v al'
      else if compare k key =? 0 then (k, v) :: al' else (key, v) :: al
  end.
Definition get_entry (key : list Z) (al : list (list Z * (Z * Z))) : option (list Z * (Z * Z)) :=
  snd <$> list_find (fun e => compare (fst e) key = 0) al.
End Invariant.

(** ** Searching *)
Lemma tall_head h i l n :
  head (tall h i l) = Some n -> exists l1 l2, l = l1 ++ n :: l2 /\ tall h i l1 = [] /\ (i < lev h n)%nat.
Proof.
  induction l as [|x l IH]; intros H; [done|]. unfold tall in H. rewrite filter_cons in H. case_decide as Hx.
  - injection H as ->. by exists [], l.
  - destruct (IH H) as (l1 & l2 & -> & H1 & H2). exists (x :: l1), l2. split; [done|]. split; [|done].
    unfold tall. by rewrite filter_cons, decide_False.
Qed.

Lemma tall_app h i a b : tall h i (a ++ b) = tall h i a ++ tall h i b.
Proof. apply filter_app. Qed.

Lemma tall_nil h i l : (forall id, id ∈ l -> (lev h id <= i)%nat) -> tall h i l = [].
Proof.
  intros H. induction l as [|x l IH]; [done|]. unfold tall. rewrite filter_cons, decide_False.
  - apply IH. intros id Hid. apply H. by right.
  - specialize (H x (list_elem_of_here _ _)). lia.
Qed.

Section Search.
Context {Y : Type} (compare : list Z -> list Z -> Z) {Hord : KeyOrder compare}.

Lemma sorted_split h key l :
  StronglySorted (before compare h) l ->
  exists A B, l = A ++ B /\ Forall (fun id => compare (key_of h id) key < 0) A /\
              Forall (fun id => 0 <= compare (key_of h id) key) B.
Proof using Hord.
  induction 1 as [|x l Hs IH Hx]; [by exists [], []|].
  destruct (decide (compare (key_of h x) key < 0)) as [Hlt|Hge].
  - destruct IH as (A & B & -> & HA & HB). exists (x :: A), B. split; [done|]. by split; [constructor|].
  - exists [], (x :: l). split; [done|]. split; [done|]. constructor; [lia|].
    eapply Forall_impl; [exact Hx|]. intros y Hy. destruct (decide (compare (key_of h y) key < 0)); [|lia].
    exfalso. apply Hge. by eapply key_trans.
Qed.

(** Where a search at level [i] stops: the last node of that level before the
    keys that are not below the one searched. *)
Definition last_at (h : list skiplist_node_t) (L : list nat) (i u : nat) : Prop :=
  exists pre suf, L = pre ++ u :: suf /\ (i < lev h u)%nat /\ tall h i suf = [].

Lemma walk_spec h hd A B key i s (y : Y) :
  heap s = h -> linked h (hd :: A ++ B) -> Forall (fun id => is_Some (h !! id)) (hd :: A ++ B) ->
  Forall (fun id => compare (key_of h id) key < 0) A -> Forall (fun id => 0 <= compare (key_of h id) key) B ->
  forall suf pre u fuel, hd :: A = pre ++ u :: suf -> (i < lev h u)%nat -> (length suf <= fuel)%nat ->
  exists u', walk compare fuel i key u (s, y) = Ret u' (s, y) /\ last_at h (hd :: A) i u' /\
    exists pre' suf', hd :: A = pre' ++ u' :: suf'.
Proof.
  intros Hs Hlink Hval HA HB suf. induction suf as [suf IH] using (induction_ltof1 _ (@length nat)).
  intros pre u fuel Hsplit Hu Hfuel.
  assert (HL : hd :: A ++ B = pre ++ u :: (suf ++ B)).
  { change (hd :: A ++ B) with ((hd :: A) ++ B). rewrite Hsplit. by rewrite <- app_assoc. }
  destruct (Forall_lookup_1 _ _ (length pre) u Hval) as [nd Hnd].
  { rewrite HL. by rewrite lookup_app_r, Nat.sub_diag by lia. }
  pose proof (Hlink _ _ _ i HL Hu) as Hnext. unfold fwd in Hnext. rewrite Hnd, tall_app in Hnext.
  assert (Hstep : walk compare fuel i key u (s, y)
     = match head (tall h i suf ++ tall h i B) with
       | None => Ret u (s, y)
       | Some n => match h !! n with
                   | Some nn => if compare (n_key nn) key <? 0
                                then match fuel with O => Stop NoFuel | S f => walk compare f i key n (s, y) end
                                else Ret u (s, y)
                   | None => Stop Fault
                   end
       end).
  { destruct fuel; cbn [walk]; cstep; simpl; rewrite Hs, Hnd; cstep; simpl; rewrite Hnext; cstep; simpl;
      destruct (head _) as [n|]; try done; destruct (h !! n); cstep; simpl; try done; by destruct (_ <? 0). }
  rewrite Hstep. clear Hstep.
  destruct (tall h i suf) as [|n rest] eqn:Hsuf; cbn [app head].
  - exists u. assert (Hlast : last_at h (hd :: A) i u) by (by exists pre, suf).
    split; [|split; [done|by exists pre, suf]].
    destruct (head (tall h i B)) as [n|] eqn:HnB; [|done].
    apply tall_head in HnB as (B1 & B2 & -> & _ & _).
    assert (Hin : n ∈ B1 ++ n :: B2) by (apply elem_of_app; right; apply list_elem_of_here).
    assert (Hv : is_Some (h !! n)).
    { eapply Forall_forall in Hval; [exact Hval|]. right. apply elem_of_app. by right. }
    destruct Hv as [nn Hnn]. rewrite Hnn. pose proof (proj1 (Forall_forall _ _) HB n Hin) as Hge.
    unfold key_of in Hge. rewrite Hnn in Hge. destruct (Z.ltb_spec (compare (n_key nn) key) 0); [lia|done].
  - assert (Hh : head (tall h i suf) = Some n) by (by rewrite Hsuf).
    apply tall_head in Hh as (s1 & s2 & Hs12 & _ & Hn). subst suf.
    assert (HinA : n ∈ A).
    { assert (Hin : n ∈ tl (hd :: A)).
      { rewrite Hsplit. destruct pre as [|p pre]; simpl; repeat (apply elem_of_app; right); try apply list_elem_of_here.
        right. apply elem_of_app. right. apply list_elem_of_here. }
      exact Hin. }
    assert (Hv : is_Some (h !! n)).
    { eapply Forall_forall in Hval; [exact Hval|]. right. apply elem_of_app. by left. }
    destruct Hv as [nn Hnn]. rewrite Hnn. pose proof (proj1 (Forall_forall _ _) HA n HinA) as Hlt.
    unfold key_of in Hlt. rewrite Hnn in Hlt. rewrite (proj2 (Z.ltb_lt _ _) Hlt).
    rewrite length_app in Hfuel. simpl in Hfuel. destruct fuel as [|fuel]; [lia|].
    apply (IH s2 ltac:(unfold ltof; rewrite length_app; simpl; lia) (pre ++ u :: s1) n fuel); [|done|lia].
    rewrite Hsplit. by rewrite <- app_assoc.
Qed.

Lemma descend_spec h hd A B key s (y : Y) fuel :
  heap s = h -> linked h (hd :: A ++ B) -> Forall (fun id => is_Some (h !! id)) (hd :: A ++ B) ->
  Forall (fun id => compare (key_of h id) key < 0) A -> Forall (fun id => 0 <= compare (key_of h id) key) B ->
  (length A <= fuel)%nat ->
  forall i pre u suf upd, hd :: A = pre ++ u :: suf -> (i <= lev h u)%nat ->
  exists u' upd', descend compare fuel i key u upd (s, y) = Ret (u', upd') (s, y) /\
    ((0 < i)%nat -> last_at h (hd :: A) 0 u') /\ length upd' = length upd /\
    (forall j, (j < i)%nat -> (j < length upd)%nat -> exists uj, upd' !! j = Some (Some uj) /\ last_at h (hd :: A) j uj) /\
    (forall j, (i <= j)%nat -> upd' !! j = upd !! j).
Proof using Hord.
  intros Hs Hlink Hval HA HB Hfuel. induction i as [|i IH]; intros pre u suf upd Hsplit Hu.
  { exists u, upd. split_and!; try done; lia. }
  assert (Hsuf : (length suf <= fuel)%nat).
  { apply (f_equal length) in Hsplit. rewrite length_app in Hsplit. simpl in Hsplit. lia. }
  destruct (walk_spec h hd A B key i s y Hs Hlink Hval HA HB suf pre u fuel Hsplit ltac:(lia) Hsuf)
    as (n & Ew & Hlast & pre' & suf' & Hsplit').
  assert (Hn : (i < lev h n)%nat) by (by destruct Hlast as (? & ? & _ & ? & _)).
  destruct (IH pre' n suf' (<[i := Some n]> upd) Hsplit' ltac:(lia)) as (u' & upd' & E & Hl0 & Hlen & Hlow & Hhigh).
  exists u', upd'. split.
  { cbn [descend]. by rewrite (bind_Ret _ _ _ _ _ Ew). }
  rewrite length_insert in Hlen, Hlow. split_and!; [|done| |].
  - intros _. destruct i as [|i]; [|apply Hl0; lia]. cbn [descend] in E. injection E as <- _. exact Hlast.
  - intros j Hj Hjl. destruct (decide (j = i)) as [->|]; [|apply Hlow; lia].
    exists n. rewrite Hhigh by lia. split; [by apply list_lookup_insert_eq|done].
  - intros j Hj. rewrite Hhigh by lia. apply list_lookup_insert_ne. lia.
Qed.

Lemma last_at_zero h L u :
  Forall (fun id => (1 <= lev h id)%nat) L -> last_at h L 0 u -> exists pre, L = pre ++ [u].
Proof.
  intros Hlev (pre & suf & -> & _ & Ht). exists pre. destruct suf as [|x suf]; [done|]. exfalso.
  unfold tall in Ht. rewrite filter_cons, decide_True in Ht; [done|].
  apply Forall_app in Hlev as [_ Hlev]. apply Forall_cons in Hlev as [_ Hlev]. apply Forall_cons in Hlev as [Hlev _]. lia.
Qed.

(** The node after the last node below [key]. *)
Lemma match_next_spec h hd A B key s (y : Y) u :
  heap s = h -> linked h (hd :: A ++ B) -> Forall (fun id => is_Some (h !! id)) (hd :: A ++ B) ->
  Forall (fun id => (1 <= lev h id)%nat) (hd :: A ++ B) -> last_at h (hd :: A) 0 u ->
  match_next compare key u (s, y)
  = Ret (match B with n :: _ => if compare (key_of h n) key =? 0 then Some n else None | [] => None end) (s, y).
Proof.
  intros Hs Hlink Hval Hlev Hlast. change (hd :: A ++ B) with ((hd :: A) ++ B) in Hlev. apply Forall_app in Hlev as [HlA HlB].
  destruct (last_at_zero _ _ _ HlA Hlast) as [pre Hpre].
  assert (HL : hd :: A ++ B = pre ++ u :: B).
  { change (hd :: A ++ B) with ((hd :: A) ++ B). rewrite Hpre. by rewrite <- app_assoc. }
  assert (Hvu : is_Some (h !! u)).
  { rewrite HL in Hval. apply Forall_app in Hval as [_ Hval]. by apply Forall_cons in Hval as [? _]. }
  destruct Hvu as [nd Hnd].
  assert (Hl : (0 < lev h u)%nat).
  { rewrite Hpre in HlA. apply Forall_app in HlA as [_ HlA]. apply Forall_cons in HlA as [Hl _]. lia. }
  pose proof (Hlink _ _ _ 0%nat HL Hl) as Hnext. unfold fwd in Hnext. rewrite Hnd in Hnext.
  unfold match_next. cstep. simpl. rewrite Hs, Hnd. cstep. simpl. rewrite Hnext. cstep. simpl.
  destruct B as [|n B]; [done|]. unfold tall. rewrite filter_cons, decide_True by (by apply Forall_cons in HlB as [? _]).
  simpl. rewrite HL in Hval. apply Forall_app in Hval as [_ Hval]. apply Forall_cons in Hval as [_ Hval].
  apply Forall_cons in Hval as [[nn Hnn] _]. rewrite Hnn. cstep. unfold key_of. by rewrite Hnn.
Qed.
End Search.

(** ** Entries *)
Section Entries.
Context (compare : list Z -> list Z -> Z) {Hord : KeyOrder compare}.
Implicit Types (al : list (list Z * (Z * Z))).

Lemma get_entry_app key a b :
  Forall (fun e => compare (fst e) key < 0) a -> get_entry compare key (a ++ b) = get_entry compare key b.
Proof.
  unfold get_entry. induction 1 as [|e a He Ha IH]; [done|]. simpl. rewrite decide_False by lia. rewrite <- IH.
  by destruct (list_find _ (a ++ b)) as [[? ?]|].
Qed.

Lemma put_entry_app key v a b :
  Forall (fun e => compare (fst e) key < 0) a -> put_entry compare key v (a ++ b) = a ++ put_entry compare key v b.
Proof.
  induction 1 as [|[k w] a He Ha IH]; [done|]. simpl in *. rewrite (proj2 (Z.ltb_lt _ _) He). by f_equal.
Qed.

Lemma entries_below s key A :
  Forall (fun id => compare (key_of (heap s) id) key < 0) A -> Forall (fun e => compare (fst e) key < 0) (entries s A).
Proof. intros H. unfold entries. apply Forall_fmap. exact H. Qed.

(** The sorted list is searched as the skip list is. *)
Lemma get_entry_split s key A B :
  StronglySorted (before compare (heap s)) (A ++ B) ->
  Forall (fun id => compare (key_of (heap s) id) key < 0) A -> Forall (fun id => 0 <= compare (key_of (heap s) id) key) B ->
  get_entry compare key (entries s (A ++ B))
  = match B with
    | n :: _ => if compare (key_of (heap s) n) key =? 0 then Some (key_of (heap s) n, value_of (heap s) n) else None
    | [] => None
    end.
Proof using Hord.
  intros Hs HA HB. unfold entries. rewrite fmap_app. fold (entries s A). rewrite get_entry_app by (by apply entries_below).
  destruct B as [|n B]; [done|]. unfold get_entry. simpl.
  destruct (Z.eqb_spec (compare (key_of (heap s) n) key) 0) as [He|Hne]; [by rewrite decide_True|].
  rewrite decide_False by done. apply Forall_cons in HB as [Hn HB].
  assert (Hs2 : StronglySorted (before compare (heap s)) (n :: B)).
  { clear -Hs. induction A; [done|]. by inversion_clear Hs; auto. }
  inversion_clear Hs2 as [|? ? _ Hall].
  match goal with |- context [list_find ?P ?l] => destruct (list_find P l) as [[i e]|] eqn:E; [|done] end. exfalso.
  apply list_find_Some in E as (Hi & He & _). apply list_elem_of_lookup_2, list_elem_of_fmap in Hi as (b & -> & Hb).
  pose proof (proj1 (Forall_forall _ _) Hall b Hb) as Hlt. simpl in He. pose proof (key_eq _ _ _ Hlt He). lia.
Qed.

Lemma put_entry_new key v e al :
  0 <= compare (fst e) key -> compare (fst e) key <> 0 -> put_entry compare key v (e :: al) = (key, v) :: e :: al.
Proof.
  destruct e as [k w]. simpl. intros H1 H2. destruct (Z.ltb_spec (compare k key) 0); [lia|].
  by rewrite (proj2 (Z.eqb_neq _ _) H2).
Qed.

Lemma put_entry_length key v al : (length (put_entry compare key v al) <= S (length al))%nat.
Proof. induction al as [|[k w] al IH]; simpl; [lia|]. repeat case_match; simpl; lia. Qed.

Lemma entries_length s l : length (entries s l) = length l.
Proof. apply length_fmap. Qed.
End Entries.

(** ** Linking a node in *)

(** The nodes but for their pointers. *)
Definition core (nd : skiplist_node_t) : list Z * Z * Z * nat * nat :=
  (n_key nd, value_offset nd, value_len nd, n_level nd, length (forward nd)).
(** Heaps that differ in the pointers of the nodes only. *)
Definition same_core (h h' : list skiplist_node_t) : Prop := core <$> h' = core <$> h.

Lemma same_core_lookup h h' id : same_core h h' -> core <$> h' !! id = core <$> h !! id.
Proof. intros H. by rewrite <- !list_lookup_fmap, H. Qed.

Lemma same_core_lev h h' id : same_core h h' -> lev h' id = lev h id.
Proof.
  intros H. apply (same_core_lookup _ _ id) in H. unfold lev. destruct (h' !! id), (h !! id); simpl in H; try done.
  by injection H.
Qed.

Lemma same_core_key h h' id : same_core h h' -> key_of h' id = key_of h id /\ value_of h' id = value_of h id.
Proof.
  intros H. apply (same_core_lookup _ _ id) in H. unfold key_of, value_of.
  destruct (h' !! id), (h !! id); simpl in H; try done. injection H as -> -> -> _ _. done.
Qed.

Lemma same_core_some h h' id : same_core h h' -> is_Some (h !! id) -> is_Some (h' !! id).
Proof. intros H. apply (same_core_lookup _ _ id) in H. by destruct (h' !! id), (h !! id). Qed.

Lemma same_core_forward h h' :
  same_core h h' -> Forall (fun nd => length (forward nd) = MAX_LEVEL) h -> Forall (fun nd => length (forward nd) = MAX_LEVEL) h'.
Proof.
  intros H Hf. apply Forall_lookup_2. intros i nd Hi. apply (same_core_lookup _ _ i) in H. rewrite Hi in H.
  destruct (h !! i) as [x|] eqn:E; [|done]. injection H as _ _ _ _ ->. by apply (Forall_lookup_1 _ _ _ _ Hf E).
Qed.

Lemma same_core_alter f p h : (forall nd, core (f nd) = core nd) -> same_core h (alter f p h).
Proof.
  intros H. apply list_eq. intros i. rewrite !list_lookup_fmap. destruct (decide (i = p)) as [->|].
  - rewrite list_lookup_alter_eq. destruct (h !! p); simpl; [by rewrite H|done].
  - by rewrite list_lookup_alter_ne.
Qed.

Lemma fwd_alter f p h id i :
  fwd (alter f p h) id i = if decide (id = p) then (match h !! p with Some nd => forward (f nd) !! i | None => None end) else fwd h id i.
Proof.
  unfold fwd. case_decide as H; [subst; rewrite list_lookup_alter_eq; by destruct (h !! p)|].
  by rewrite list_lookup_alter_ne.
Qed.

(** [h'] is [h] with [node] linked in after [update] at the levels from [lo] to
    [hi - 1]. *)
Definition relinked (node : nat) (update : list ptr) (lo hi : nat) (h h' : list skiplist_node_t) : Prop :=
  same_core h h' /\
  forall id j, fwd h' id j =
    if decide (lo <= j < hi)%nat then
      if decide (id = node) then (match update !! j with Some (Some u) => fwd h u j | _ => None end)
      else if decide (update !! j = Some (Some id)) then Some (Some node) else fwd h id j
    else fwd h id j.

Section Link.
Context {Y : Type}.
Implicit Types (s : index) (y : Y).

Lemma modify_node_spec p f s y :
  is_Some (heap s !! p) -> modify_node p f (s, y) = Ret tt (set_heap (alter f p (heap s)) s, y).
Proof. intros [x H]. unfold modify_node. cstep. simpl. by rewrite H. Qed.

Lemma link_spec node update : forall n i s y,
  is_Some (heap s !! node) -> Forall (fun nd => length (forward nd) = MAX_LEVEL) (heap s) -> (i + n <= MAX_LEVEL)%nat ->
  (forall j, (i <= j < i + n)%nat -> exists u, update !! j = Some (Some u) /\ u <> node /\ is_Some (heap s !! u)) ->
  exists h', link n i node update (s, y) = Ret tt (set_heap h' s, y) /\ relinked node update i (i + n) (heap s) h'.
Proof.
  induction n as [|n IH]; intros i s y Hnode Hlen Hi Hupd.
  { exists (heap s). split; [by destruct s|]. split; [done|]. intros id j. by rewrite decide_False by lia. }
  destruct (Hupd i ltac:(lia)) as (u & Hu & Hne & [nu Hnu]).
  assert (Hfi : is_Some (forward nu !! i)).
  { apply lookup_lt_is_Some. rewrite (Forall_lookup_1 _ _ _ _ Hlen Hnu). lia. }
  destruct Hfi as [next Hnext].
  set (f1 := fun x => set_forward (<[i := next]> (forward x)) x).
  set (f2 := fun x => set_forward (<[i := Some node]> (forward x)) x).
  set (h1 := alter f2 u (alter f1 node (heap s))).
  assert (Hcore : forall v nd, core (set_forward (<[i := v]> (forward nd)) nd) = core nd).
  { intros v nd. unfold core. simpl. by rewrite length_insert. }
  assert (Hc1 : same_core (heap s) h1).
  { unfold same_core, h1. etransitivity; [apply (same_core_alter f2), Hcore|apply (same_core_alter f1), Hcore]. }
  destruct (IH (S i) (set_heap h1 s) y) as (h' & E & Hc & Hf).
  { by apply (same_core_some (heap s)). }
  { by apply (same_core_forward (heap s)). }
  { lia. }
  { intros j Hj. destruct (Hupd j ltac:(lia)) as (u' & ? & ? & ?). exists u'. split_and!; try done.
    by apply (same_core_some (heap s)). }
  exists h'. split.
  - cbn [link]. rewrite Hu. erewrite bind_Ret by reflexivity. erewrite bind_Ret by reflexivity.
    erewrite bind_Ret by reflexivity. cbn [fst]. rewrite Hnu. erewrite bind_Ret by reflexivity.
    rewrite Hnext. erewrite bind_Ret by reflexivity.
    rewrite (bind_Ret _ _ _ _ _ (modify_node_spec node f1 s y Hnode)).
    assert (Hu2 : is_Some (heap (set_heap (alter f1 node (heap s)) s) !! u)).
    { simpl. rewrite list_lookup_alter_ne by done. by rewrite Hnu. }
    rewrite (bind_Ret _ _ _ _ _ (modify_node_spec u f2 _ y Hu2)). exact E.
  - split; [unfold same_core in *; simpl in Hc; congruence|]. simpl in Hf.
    assert (Hf1 : forall id j, fwd h1 id j = if decide (j = i) then
        if decide (id = node) then Some next else if decide (id = u) then Some (Some node) else fwd (heap s) id j
        else fwd (heap s) id j).
    { assert (Hins : forall id nd (v : ptr) j, heap s !! id = Some nd ->
        (<[i := v]> (forward nd)) !! j = if decide (j = i) then Some v else fwd (heap s) id j).
      { intros id nd v j Hid. unfold fwd. rewrite Hid. case_decide as Hj.
        - subst. apply list_lookup_insert_eq. rewrite (Forall_lookup_1 _ _ _ _ Hlen Hid). lia.
        - by apply list_lookup_insert_ne. }
      destruct Hnode as [nn Hnn]. intros id j. unfold h1. rewrite fwd_alter, list_lookup_alter_ne, Hnu by done.
      destruct (decide (id = u)) as [->|Hnu'].
      - unfold f2. simpl. rewrite (Hins u nu) by done. by rewrite (decide_False (P := u = node)) by done.
      - rewrite fwd_alter, Hnn. destruct (decide (id = node)) as [->|]; [|by case_decide].
        unfold f1. simpl. by rewrite (Hins node nn). }
    intros id j. rewrite Hf. destruct (decide (j = i)) as [->|Hj].
    + rewrite decide_False by lia. rewrite (decide_True (P := (i <= i < i + S n)%nat)) by lia.
      rewrite Hf1, decide_True by done. rewrite Hu. case_decide; [unfold fwd; by rewrite Hnu, Hnext|].
      destruct (decide (id = u)) as [->|]; [by rewrite decide_True|rewrite decide_False by congruence; done].
    + assert (Hsame : forall x, fwd h1 x j = fwd (heap s) x j) by (intros x; by rewrite Hf1, decide_False).
      destruct (decide (S i <= j < S (i + n))%nat); [rewrite (decide_True (P := (i <= j < i + S n)%nat)) by lia|
        rewrite (decide_False (P := (i <= j < i + S n)%nat)) by lia; apply Hsame].
      destruct (update !! j) as [[u'|]|]; rewrite ?Hsame; done.
Qed.
End Link.

(** ** A node linked into the list *)
Lemma tall_ext h h' i l : (forall id, id ∈ l -> lev h' id = lev h id) -> tall h' i l = tall h i l.
Proof.
  intros H. induction l as [|x l IH]; [done|]. unfold tall in *. rewrite !filter_cons, H by apply list_elem_of_here.
  rewrite IH by (intros id Hid; apply H; by right). done.
Qed.

Lemma last_at_last h L j u : last_at h L j u -> last (tall h j L) = Some u.
Proof.
  intros (pre & suf & -> & Hu & Hs). rewrite tall_app. unfold tall at 2. rewrite filter_cons, decide_True by done.
  fold (tall h j suf). rewrite Hs. apply last_snoc.
Qed.

Lemma last_at_unique h L j u v : last_at h L j u -> last_at h L j v -> u = v.
Proof. intros Hu%last_at_last Hv%last_at_last. congruence. Qed.

Lemma last_at_elem h L j u : last_at h L j u -> u ∈ L.
Proof. intros (pre & suf & -> & _). apply elem_of_app. right. apply list_elem_of_here. Qed.

(** Where an element of [X ++ n :: B] is. *)
Lemma split_insert {A} (n id : A) B : forall X pre suf,
  X ++ n :: B = pre ++ id :: suf ->
  (exists s1, X = pre ++ id :: s1 /\ suf = s1 ++ n :: B) \/ (pre = X /\ id = n /\ suf = B) \/
  (exists p2, B = p2 ++ id :: suf /\ pre = X ++ n :: p2).
Proof.
  induction X as [|x X IH]; intros [|p pre] suf H; simpl in H; injection H as -> H.
  - right. left. done.
  - right. right. by exists pre.
  - left. by exists X.
  - destruct (IH pre suf H) as [(s1 & -> & ->)|[(-> & -> & ->)|(p2 & -> & ->)]].
    + left. by exists s1.
    + right. by left.
    + right. right. by exists p2.
Qed.

Lemma sorted_insert {A} (R : A -> A -> Prop) n B : forall X,
  StronglySorted R (X ++ B) -> Forall (fun a => R a n) X -> Forall (R n) B -> StronglySorted R (X ++ n :: B).
Proof.
  induction X as [|x X IH]; intros Hs HX HB; [by constructor|]. inversion_clear Hs as [|? ? Hs' Hx].
  apply Forall_cons in HX as [Hxn HX]. simpl. constructor; [by apply IH|].
  apply Forall_app in Hx as [Hx1 Hx2]. apply Forall_app. split; [done|]. by constructor.
Qed.

Lemma sorted_ext {A} (R R' : A -> A -> Prop) l :
  (forall a b, a ∈ l -> b ∈ l -> R a b -> R' a b) -> StronglySorted R l -> StronglySorted R' l.
Proof.
  intros H Hs. induction Hs as [|x l Hs IH Hx]; [constructor|]. constructor.
  - apply IH. intros a b Ha Hb. apply H; by right.
  - apply Forall_forall. intros b Hb. apply H; [apply list_elem_of_here|by right|]. by eapply Forall_forall in Hx.
Qed.

Lemma linked_insert h h1 h2 hd A B node update level :
  linked h (hd :: A ++ B) -> NoDup (hd :: A ++ B) -> node ∉ hd :: A ++ B ->
  lev h1 node = level -> (forall id, id <> node -> lev h1 id = lev h id /\ forall j, fwd h1 id j = fwd h id j) ->
  (forall j, (j < level)%nat -> exists u, update !! j = Some (Some u) /\ last_at h (hd :: A) j u) ->
  relinked node update 0 level h1 h2 -> linked h2 (hd :: A ++ node :: B).
Proof.
  intros Hlink Hnd Hnode Hlvl Hold Hupd [Hcore Hf] pre id suf j Hsplit Hj.
  rewrite (same_core_lev _ _ _ Hcore) in Hj.
  rewrite (tall_ext h1 h2) by (intros; by apply same_core_lev).
  assert (HtB : forall i, tall h1 i B = tall h i B).
  { intros i. apply tall_ext. intros x Hx. apply Hold. intros ->. apply Hnode. right. apply elem_of_app. by right. }
  assert (HuA : forall i u, (i < level)%nat -> update !! i = Some (Some u) -> last_at h (hd :: A) i u).
  { intros i u Hi Hu. destruct (Hupd i Hi) as (u' & Hu' & Hl). congruence. }
  assert (HA0 : forall x, x ∈ hd :: A -> x <> node).
  { intros x Hx ->. apply Hnode. change (node ∈ (hd :: A) ++ B). apply elem_of_app. by left. }
  rewrite Hf. change (hd :: A ++ node :: B) with ((hd :: A) ++ node :: B) in Hsplit.
  apply split_insert in Hsplit as [(s1 & HA & ->)|[(-> & -> & ->)|(p2 & -> & ->)]].
  - assert (Hid : id <> node) by (apply HA0; rewrite HA; apply elem_of_app; right; apply list_elem_of_here).
    assert (Hs1 : tall h1 j s1 = tall h j s1).
    { apply tall_ext. intros x Hx. apply Hold, HA0. rewrite HA. apply elem_of_app. right. by right. }
    rewrite tall_app, Hs1. unfold tall at 2. rewrite filter_cons. fold (tall h1 j B). rewrite HtB, Hlvl.
    rewrite (proj1 (Hold id Hid)) in Hj. rewrite (decide_False (P := id = node)), (proj2 (Hold id Hid)) by done.
    assert (Hfid : fwd h id j = Some (head (tall h j s1 ++ tall h j B))).
    { rewrite <- tall_app. apply (Hlink pre id (s1 ++ B) j); [|done]. change (hd :: A ++ B) with ((hd :: A) ++ B).
      rewrite HA. by rewrite <- app_assoc. }
    destruct (decide (0 <= j < level)%nat) as [Hjl|Hjl].
    + rewrite (decide_True (P := (j < level)%nat)) by lia. destruct (Hupd j ltac:(lia)) as (u & Hu & Hlast). rewrite Hu.
      destruct (tall h j s1) as [|z zs] eqn:Ez.
      * rewrite decide_True; [done|]. do 2 f_equal. eapply last_at_unique; [exact Hlast|]. by exists pre, s1.
      * rewrite decide_False; [done|]. intros [= ->]. apply last_at_last in Hlast. rewrite HA, tall_app in Hlast.
        unfold tall at 2 in Hlast. rewrite filter_cons, decide_True in Hlast by done. fold (tall h j s1) in Hlast.
        rewrite Ez in Hlast.
        assert (Hin : id ∈ z :: zs).
        { rewrite last_app in Hlast. rewrite last_cons in Hlast. destruct (last (z :: zs)) as [w|] eqn:Ew.
          - injection Hlast as ->. by apply last_Some_elem_of.
          - by apply last_None in Ew. }
        rewrite <- Ez in Hin. apply list_elem_of_filter in Hin as [_ Hin].
        change (hd :: A ++ B) with ((hd :: A) ++ B) in Hnd. rewrite HA in Hnd. apply NoDup_app in Hnd as (Hnd & _ & _).
        apply NoDup_app in Hnd as (_ & _ & Hnd). apply NoDup_cons in Hnd as [Hnd _]. done.
    + rewrite (decide_False (P := (j < level)%nat)) by lia. exact Hfid.
  - rewrite Hlvl in Hj. rewrite decide_True, decide_True by (done || lia).
    destruct (Hupd j Hj) as (u & Hu & pre & suf & HA & Hlu & Hts). rewrite Hu, HtB.
    assert (Hun : u <> node) by (apply HA0; rewrite HA; apply elem_of_app; right; apply list_elem_of_here).
    rewrite (proj2 (Hold u Hun)). rewrite (Hlink pre u (suf ++ B) j); [by rewrite tall_app, Hts| |done].
    change (hd :: A ++ B) with ((hd :: A) ++ B). rewrite HA. by rewrite <- app_assoc.
  - assert (HidB : id ∈ p2 ++ id :: suf) by (apply elem_of_app; right; apply list_elem_of_here).
    assert (Hid : id <> node).
    { intros ->. apply Hnode. right. apply elem_of_app. by right. }
    rewrite (decide_False (P := id = node)), (proj2 (Hold id Hid)) by done. rewrite (proj1 (Hold id Hid)) in Hj.
    assert (Ht : tall h1 j suf = tall h j suf).
    { apply tall_ext. intros x Hx. apply Hold. intros ->. apply Hnode. right. apply elem_of_app. right. apply elem_of_app. right. by right. }
    assert (Hfid : fwd h id j = Some (head (tall h j suf))).
    { apply (Hlink ((hd :: A) ++ p2) id suf j); [|done]. by rewrite <- app_assoc. }
    rewrite Ht. destruct (decide (0 <= j < level)%nat); [|done]. rewrite decide_False; [done|]. intros Hu.
    apply HuA, last_at_elem in Hu; [|lia]. change (hd :: A ++ p2 ++ id :: suf) with ((hd :: A) ++ (p2 ++ id :: suf)) in Hnd.
    apply NoDup_app in Hnd as (_ & Hnd & _). by apply (Hnd id Hu).
Qed.

(** ** New nodes *)
Section Insert.
Context {Y : Type} (ops : sl_ops Y) (compare : list Z -> list Z -> Z) {Hord : KeyOrder compare}.

Lemma random_level_from_spec : forall n level h (y : Y),
  exists r y', random_level_from ops n level (h, y) = Ret r (h, y') /\ (level <= r <= level + n)%nat.
Proof.
  induction n as [|n IH]; intros level h y; cbn [random_level_from]; erewrite bind_Ret by reflexivity; cbn [fst snd];
    destruct (_ <? _); try (eexists _, _; split; [reflexivity|lia]).
  destruct (IH (S level) h (snd (sl_rand ops y))) as (r & y' & E & Hr). exists r, y'. split; [done|lia].
Qed.

Lemma on_heap_Ret {A} (c : Cmd (list skiplist_node_t * Y) A) s y a h' y' :
  c (heap s, y) = Ret a (h', y') -> on_heap c (s, y) = Ret a (set_heap h' s, y').
Proof. intros H. unfold on_heap. simpl. by rewrite H. Qed.

Definition new_node (level : nat) (key : list Z) (off len : Z) : skiplist_node_t :=
  {| n_key := key; value_offset := off; value_len := len; n_level := level; forward := replicate MAX_LEVEL None |}.

Lemma create_node_spec level key off len h (y : Y) :
  exists y', create_node ops level key off len (h, y) = Ret None (h, y') \/
             create_node ops level key off len (h, y) = Ret (Some (length h)) (h ++ [new_node level key off len], y').
Proof.
  unfold create_node. erewrite bind_Ret by reflexivity. cbn [fst snd]. destruct (_ =? 0).
  { eexists. by left. }
  erewrite bind_Ret by reflexivity. cbn [fst snd]. destruct (_ =? 0); eexists; [left|right]; reflexivity.
Qed.

Lemma raise_update_lookup hd : forall n i u j,
  raise_update n i hd u !! j = if decide (i <= j < i + n /\ j < length u)%nat then Some (Some hd) else u !! j.
Proof.
  induction n as [|n IH]; intros i u j; cbn [raise_update]; [by rewrite decide_False by lia|].
  rewrite IH, length_insert. destruct (decide (j = i)) as [->|].
  - rewrite decide_False by lia. case_decide as H; [apply list_lookup_insert_eq; lia|].
    rewrite list_insert_ge by lia. done.
  - rewrite list_lookup_insert_ne by done. repeat case_decide; try done; lia.
Qed.

(** An allocator that refuses the size of the key. *)
Lemma create_node_null level key off len h (y : Y) :
  (forall y0, fst (sl_malloc ops (Z.of_nat (length key)) y0) = 0) ->
  exists y', create_node ops level key off len (h, y) = Ret None (h, y').
Proof.
  intros H. unfold create_node. erewrite bind_Ret by reflexivity. cbn [fst snd]. destruct (_ =? 0); [by eexists|].
  erewrite bind_Ret by reflexivity. cbn [fst snd]. rewrite H. cbn. by eexists.
Qed.

(** The nodes below [key] and the others. *)
Lemma ok_split s l key :
  skip_ok compare s l ->
  exists A B, l = A ++ B /\ Forall (fun id => compare (key_of (heap s) id) key < 0) A /\
              Forall (fun id => 0 <= compare (key_of (heap s) id) key) B.
Proof using Hord. intros H. exact (sorted_split compare (heap s) key l (ok_sorted _ _ _ H)). Qed.

Lemma ok_positive s l : skip_ok compare s l -> Forall (fun id => (1 <= lev (heap s) id)%nat) (sl_header (sl s) :: l).
Proof.
  intros H. constructor; [rewrite (ok_head _ _ _ H); unfold MAX_LEVEL; lia|].
  eapply Forall_impl; [apply H|]. simpl. lia.
Qed.

(** Searching from the header, with or without an array of predecessors. *)
Lemma search_spec s s0 (y : Y) A B key update fuel :
  heap s0 = heap s -> skip_ok compare s (A ++ B) -> (length (A ++ B) <= fuel)%nat ->
  Forall (fun id => compare (key_of (heap s) id) key < 0) A -> Forall (fun id => 0 <= compare (key_of (heap s) id) key) B ->
  exists u update', descend compare fuel (sl_level (sl s)) key (sl_header (sl s)) update (s0, y) = Ret (u, update') (s0, y) /\
    match_next compare key u (s0, y)
    = Ret (match B with n :: _ => if compare (key_of (heap s) n) key =? 0 then Some n else None | [] => None end) (s0, y) /\
    length update' = length update /\
    forall j, (j < sl_level (sl s))%nat -> (j < length update)%nat ->
      exists uj, update' !! j = Some (Some uj) /\ last_at (heap s) (sl_header (sl s) :: A) j uj.
Proof using Hord.
  intros Hs0 Hok Hfuel HA HB. rewrite length_app in Hfuel. pose proof (ok_level _ _ _ Hok) as Hl.
  destruct (descend_spec compare (heap s) (sl_header (sl s)) A B key s0 y fuel Hs0 (ok_linked _ _ _ Hok)
    (ok_valid _ _ _ Hok) HA HB ltac:(lia) (sl_level (sl s)) [] (sl_header (sl s)) A update eq_refl)
    as (u & update' & E & Hz & Hlen & Hlow & _).
  { rewrite (ok_head _ _ _ Hok). lia. }
  exists u, update'. split; [done|]. split; [|split; [done|exact Hlow]].
  apply (match_next_spec compare _ (sl_header (sl s)) A); [done|apply Hok..|by apply ok_positive|apply Hz; lia].
Qed.

(** [skiplist_find] is the search of the sorted entries. *)
Lemma find_spec s l key (y : Y) fuel :
  skip_ok compare s l -> (length l <= fuel)%nat ->
  exists r, skiplist_find compare fuel key (s, y) = Ret r (s, y) /\
    get_entry compare key (entries s l) = (fun id => (key_of (heap s) id, value_of (heap s) id)) <$> r.
Proof using Hord.
  intros Hok Hfuel. destruct (ok_split s l key Hok) as (A & B & -> & HA & HB).
  destruct (search_spec s s y A B key [] fuel eq_refl Hok Hfuel HA HB) as (u & up & E & Em & _).
  eexists. split.
  - unfold skiplist_find. erewrite bind_Ret by reflexivity. cbn [fst]. rewrite (bind_Ret _ _ _ _ _ E). exact Em.
  - rewrite (get_entry_split compare s key A B); [|apply Hok|done..]. destruct B as [|n B]; [done|].
    by destruct (_ =? 0).
Qed.

(** The invariant holds in a heap with the same keys, levels and pointers. *)
Lemma ok_same s s' l :
  skip_ok compare s l -> sl_header (sl s') = sl_header (sl s) -> sl_size (sl s') = sl_size (sl s) -> sl_lock (sl s') = false ->
  (sl_level (sl s) <= sl_level (sl s') <= MAX_LEVEL)%nat ->
  (forall id, lev (heap s') id = lev (heap s) id /\ key_of (heap s') id = key_of (heap s) id /\
    (is_Some (heap s !! id) -> is_Some (heap s' !! id)) /\ forall j, fwd (heap s') id j = fwd (heap s) id j) ->
  Forall (fun nd => length (forward nd) = MAX_LEVEL) (heap s') -> skip_ok compare s' l.
Proof.
  intros Hok Hh Hsz Hlk Hl Hsame Hf. split; try rewrite Hh.
  - eapply Forall_impl; [apply (ok_valid _ _ _ Hok)|]. intros id. apply Hsame.
  - apply (ok_nodup _ _ _ Hok).
  - rewrite (proj1 (Hsame _)). apply (ok_head _ _ _ Hok).
  - eapply Forall_impl; [apply (ok_levels _ _ _ Hok)|]. intros id. simpl. rewrite (proj1 (Hsame _)). lia.
  - pose proof (ok_level _ _ _ Hok). lia.
  - intros pre id suf i HL Hi. rewrite (proj1 (Hsame _)) in Hi. rewrite (proj2 (proj2 (proj2 (Hsame id)))).
    rewrite (tall_ext (heap s)) by (intros; apply Hsame). by apply (ok_linked _ _ _ Hok pre).
  - eapply sorted_ext; [|apply (ok_sorted _ _ _ Hok)]. intros a b _ _. unfold before.
    by rewrite !(proj1 (proj2 (Hsame _))).
  - done.
  - rewrite Hsz. apply Hok.
  - done.
Qed.
End Insert.

Section InsertSpec.
Context (compare : list Z -> list Z -> Z) {Hord : KeyOrder compare}.

Lemma entries_ext s s' l :
  (forall id, id ∈ l -> key_of (heap s') id = key_of (heap s) id /\ value_of (heap s') id = value_of (heap s) id) ->
  entries s' l = entries s l.
Proof.
  intros H. apply list_eq. intros i. unfold entries. rewrite !list_lookup_fmap.
  destruct (l !! i) as [id|] eqn:E; [|done]. simpl. apply list_elem_of_lookup_2 in E. destruct (H id E) as [-> ->]. done.
Qed.

(** The first node that is not below [key] is above it, or has it. *)
Lemma above h key n B :
  StronglySorted (before compare h) (n :: B) -> 0 <= compare (key_of h n) key -> compare (key_of h n) key <> 0 ->
  Forall (fun id => compare key (key_of h id) < 0) (n :: B).
Proof using Hord.
  intros Hs Hge Hne. assert (Hn : compare key (key_of h n) < 0) by (apply key_flip; lia).
  inversion_clear Hs as [|? ? _ Hall]. constructor; [done|]. eapply Forall_impl; [exact Hall|].
  intros b Hb. by eapply key_trans.
Qed.

(** Overwriting the value of a node. *)
Lemma set_value_spec off len n h id :
  lev (alter (set_value off len) n h) id = lev h id /\ key_of (alter (set_value off len) n h) id = key_of h id /\
  (is_Some (h !! id) -> is_Some (alter (set_value off len) n h !! id)) /\
  (forall j, fwd (alter (set_value off len) n h) id j = fwd h id j) /\
  value_of (alter (set_value off len) n h) id
  = if decide (id = n /\ is_Some (h !! id)) then (off, len) else value_of h id.
Proof.
  unfold lev, key_of, fwd, value_of. destruct (decide (id = n)) as [->|Hne].
  - rewrite list_lookup_alter_eq. destruct (h !! n); simpl; split_and!; try done.
    + by rewrite decide_True.
    + rewrite decide_False; [done|]. by intros [_ [? ?]].
  - rewrite list_lookup_alter_ne by done. rewrite decide_False by naive_solver. by destruct (h !! id).
Qed.

Lemma update_entry s A n B key off len :
  skip_ok compare s (A ++ n :: B) ->
  Forall (fun id => compare (key_of (heap s) id) key < 0) A -> compare (key_of (heap s) n) key = 0 ->
  let s' := set_sl (set_sl_lock false (sl s)) (set_heap (alter (set_value off len) n (heap s)) s) in
  skip_ok compare s' (A ++ n :: B) /\
  entries s' (A ++ n :: B) = put_entry compare key (off, len) (entries s (A ++ n :: B)).
Proof.
  intros Hok HA Hn s'. pose proof (set_value_spec off len n (heap s)) as Hv. split.
  - apply (ok_same compare s); simpl; try done; [split; [lia|apply Hok]|intros id; split_and!; apply Hv|].
    apply Forall_lookup_2. intros i nd Hi. pose proof (ok_forward _ _ _ Hok) as Hf.
    destruct (decide (i = n)) as [->|]; [rewrite list_lookup_alter_eq in Hi|rewrite list_lookup_alter_ne in Hi by done].
    + destruct (heap s !! n) eqn:E; simplify_eq/=. by apply (Forall_lookup_1 _ _ _ _ Hf E).
    + by apply (Forall_lookup_1 _ _ _ _ Hf Hi).
  - pose proof (ok_nodup _ _ _ Hok) as Hnd. apply NoDup_cons in Hnd as [_ Hnd].
    apply NoDup_app in Hnd as (_ & HdA & Hnd). apply NoDup_cons in Hnd as [HnB _].
    assert (Hext : forall l, n ∉ l -> entries s' l = entries s l).
    { intros l Hl. apply entries_ext. intros id Hid. destruct (Hv id) as (_ & Hk & _ & _ & Hval). split; [done|].
      simpl. rewrite Hval, decide_False; [done|]. intros [-> _]. done. }
    assert (HnA : n ∉ A) by (intros Hin; apply (HdA n Hin), list_elem_of_here).
    unfold entries at 1. rewrite fmap_app, fmap_cons. fold (entries s' A). fold (entries s' B). rewrite !Hext by done.
    unfold entries at 3. rewrite fmap_app, fmap_cons. fold (entries s A). fold (entries s B).
    rewrite put_entry_app by (by apply entries_below). simpl.
    destruct (Hv n) as (_ & Hk & _ & _ & Hval). rewrite Hk, Hval, Hn. rewrite decide_True; [done|].
    split; [done|]. pose proof (ok_valid _ _ _ Hok) as HV. apply Forall_cons in HV as [_ HV].
    apply Forall_app in HV as [_ HV]. by apply Forall_cons in HV as [? _].
Qed.

(** Linking in a node that is not there yet. *)
Lemma insert_new s s' A B key off len level update :
  skip_ok compare s (A ++ B) ->
  Forall (fun id => compare (key_of (heap s) id) key < 0) A -> Forall (fun id => compare key (key_of (heap s) id) < 0) B ->
  (1 <= level <= MAX_LEVEL)%nat ->
  (forall j, (j < level)%nat -> exists u, update !! j = Some (Some u) /\ last_at (heap s) (sl_header (sl s) :: A) j u) ->
  relinked (length (heap s)) update 0 level (heap s ++ [new_node level key off len]) (heap s') ->
  sl_header (sl s') = sl_header (sl s) -> sl_level (sl s') = (sl_level (sl s) `max` level)%nat ->
  sl_size (sl s') = u32 (sl_size (sl s) + 1) -> sl_lock (sl s') = false ->
  skip_ok compare s' (A ++ length (heap s) :: B) /\
  entries s' (A ++ length (heap s) :: B) = entries s A ++ (key, (off, len)) :: entries s B.
Proof using Hord.
  intros Hok HA HB Hlvl Hupd Hrel Hh Htop Hsz Hlk. set (n := length (heap s)) in *. set (nd := new_node level key off len) in *.
  pose proof (proj1 Hrel) as Hcore.
  assert (Hval : forall id, id ∈ sl_header (sl s) :: A ++ B -> is_Some (heap s !! id)).
  { intros id Hid. exact (proj1 (Forall_forall _ _) (ok_valid _ _ _ Hok) id Hid). }
  assert (Hold : forall id, is_Some (heap s !! id) -> (heap s ++ [nd]) !! id = heap s !! id).
  { intros id [x Hx]. apply lookup_app_l. by eapply lookup_lt_Some. }
  assert (Hnew : (heap s ++ [nd]) !! n = Some nd) by (unfold n; by rewrite lookup_app_r, Nat.sub_diag by lia).
  assert (Hn : n ∉ sl_header (sl s) :: A ++ B).
  { intros Hin. apply Hval in Hin as [x Hx]. apply lookup_lt_Some in Hx. unfold n in Hx. lia. }
  assert (Hk : forall id, is_Some (heap s !! id) -> lev (heap s') id = lev (heap s) id /\
     key_of (heap s') id = key_of (heap s) id /\ value_of (heap s') id = value_of (heap s) id).
  { intros id Hid. rewrite (same_core_lev _ _ id Hcore). destruct (same_core_key _ _ id Hcore) as [-> ->].
    unfold lev, key_of, value_of. by rewrite Hold. }
  assert (Hkn : lev (heap s') n = level /\ key_of (heap s') n = key /\ value_of (heap s') n = (off, len)).
  { rewrite (same_core_lev _ _ n Hcore). destruct (same_core_key _ _ n Hcore) as [-> ->].
    unfold lev, key_of, value_of. by rewrite Hnew. }
  assert (HvA : forall id, id ∈ A -> is_Some (heap s !! id)) by (intros id Hid; apply Hval; right; apply elem_of_app; by left).
  assert (HvB : forall id, id ∈ B -> is_Some (heap s !! id)) by (intros id Hid; apply Hval; right; apply elem_of_app; by right).
  assert (Hperm : forall (P : nat -> Prop) x, Forall P (x :: A ++ B) -> P n -> Forall P (x :: A ++ n :: B)).
  { intros P x HP Pn. apply Forall_cons in HP as [Hx HP]. apply Forall_app in HP as [H1 H2].
    constructor; [done|]. apply Forall_app. split; [done|]. by constructor. }
  split; [split; rewrite ?Hh|].
  - apply Hperm; [|by apply (same_core_some _ _ n Hcore); rewrite Hnew].
    eapply Forall_impl; [apply (ok_valid _ _ _ Hok)|]. intros id Hid. apply (same_core_some _ _ id Hcore). by rewrite Hold.
  - pose proof (ok_nodup _ _ _ Hok) as Hnd. assert (Hp : sl_header (sl s) :: A ++ n :: B ≡ₚ n :: sl_header (sl s) :: A ++ B).
    { rewrite <- Permutation_middle. apply Permutation_swap. }
    rewrite Hp. by constructor.
  - rewrite (proj1 (Hk _ (Hval _ (list_elem_of_here _ _)))). apply Hok.
  - assert (Hx := Hperm (fun id => (1 <= lev (heap s') id <= sl_level (sl s'))%nat) n). rewrite Htop in *.
    refine (proj2 (proj1 (Forall_cons _ _ _) (Hx _ _))); [|destruct Hkn as [-> _]; lia].
    constructor; [destruct Hkn as [-> _]; lia|]. apply Forall_forall. intros id Hid.
    rewrite (proj1 (Hk id (Hval id ltac:(by right)))). pose proof (proj1 (Forall_forall _ _) (ok_levels _ _ _ Hok) id Hid) as H1.
    simpl in H1. lia.
  - rewrite Htop. pose proof (ok_level _ _ _ Hok). lia.
  - apply (linked_insert (heap s) (heap s ++ [nd]) (heap s') (sl_header (sl s)) A B n update level); try done.
    + apply Hok.
    + apply Hok.
    + unfold lev. by rewrite Hnew.
    + intros id Hid. unfold lev, fwd. destruct (decide (id < n)%nat) as [Hlt|Hge].
      * rewrite lookup_app_l by done. done.
      * rewrite lookup_app_r by (unfold n in *; lia). rewrite (lookup_ge_None_2 (heap s)) by (unfold n in *; lia).
        rewrite (lookup_ge_None_2 [nd]) by (simpl; unfold n in *; lia). done.
  - apply sorted_insert.
    + eapply sorted_ext; [|apply (ok_sorted _ _ _ Hok)]. intros a b Ha Hb. unfold before.
      rewrite (proj1 (proj2 (Hk a (Hval a ltac:(by right))))), (proj1 (proj2 (Hk b (Hval b ltac:(by right))))). done.
    + apply Forall_forall. intros a Ha. unfold before. rewrite (proj1 (proj2 (Hk a (HvA a Ha)))), (proj1 (proj2 Hkn)).
      by apply (proj1 (Forall_forall _ _) HA).
    + apply Forall_forall. intros b Hb. unfold before. rewrite (proj1 (proj2 (Hk b (HvB b Hb)))), (proj1 (proj2 Hkn)).
      by apply (proj1 (Forall_forall _ _) HB).
  - apply (same_core_forward _ _ Hcore). apply Forall_app. split; [apply Hok|]. by repeat constructor.
  - rewrite Hsz, (ok_size _ _ _ Hok). unfold u32, wrap. rewrite Zplus_mod_idemp_l. f_equal. rewrite !length_app. simpl. lia.
  - done.
  - unfold entries at 1. rewrite fmap_app, fmap_cons. fold (entries s' A). fold (entries s' B).
    rewrite (entries_ext s s' A), (entries_ext s s' B) by (intros id Hid; apply Hk; auto).
    by rewrite (proj1 (proj2 Hkn)), (proj2 (proj2 Hkn)).
Qed.
End InsertSpec.

Section Operations_spec.
Context {Y : Type} (ops : sl_ops Y) (compare : list Z -> list Z -> Z) {Hord : KeyOrder compare}.

Lemma lock_list_spec s l (y : Y) : skip_ok compare s l -> lock_list (s, y) = Ret tt (set_sl (set_sl_lock true (sl s)) s, y).
Proof. intros Hok. unfold lock_list. cstep. simpl. by rewrite (ok_lock _ _ _ Hok). Qed.

(** The level of the list after a node of [level] levels. *)
Lemma raise_level s (y : Y) level :
  (if (sl_level (sl s) <? level)%nat then modify_sl (set_sl_level level) else ret tt) (s, y)
  = Ret tt (set_sl (set_sl_level (sl_level (sl s) `max` level)%nat (sl s)) s, y).
Proof.
  destruct (Nat.ltb_spec (sl_level (sl s)) level).
  - rewrite Nat.max_r by lia. done.
  - rewrite Nat.max_l by lia. by destruct s as [[] ?].
Qed.

(** After the search: a new node, at any level [random_level] gives. *)
Lemma insert_new_spec s (y : Y) A B key off len level update :
  skip_ok compare s (A ++ B) ->
  Forall (fun id => compare (key_of (heap s) id) key < 0) A -> Forall (fun id => compare key (key_of (heap s) id) < 0) B ->
  (1 <= level <= MAX_LEVEL)%nat -> length update = MAX_LEVEL ->
  (forall j, (j < sl_level (sl s))%nat -> exists u, update !! j = Some (Some u) /\ last_at (heap s) (sl_header (sl s) :: A) j u) ->
  let top := sl_level (sl s) in
  let s1 := set_sl (set_sl_level (top `max` level)%nat (set_sl_lock true (sl s))) s in
  exists s' y', link level 0 (length (heap s)) (raise_update (level - top) top (sl_header (sl s)) update)
      (set_heap (heap s ++ [new_node level key off len]) s1, y) = Ret tt (s', y') /\
    let s2 := set_sl (set_sl_lock false (set_sl_size (u32 (sl_size (sl s') + 1)) (sl s'))) s' in
    skip_ok compare s2 (A ++ length (heap s) :: B) /\
    entries s2 (A ++ length (heap s) :: B) = entries s A ++ (key, (off, len)) :: entries s B.
Proof using Hord.
  intros Hok HA HB Hlvl Hlen Hupd top s1. pose proof (ok_level _ _ _ Hok) as Htop. fold top in Htop, Hupd.
  set (upd := raise_update (level - top) top (sl_header (sl s)) update).
  assert (Hupd' : forall j, (j < level)%nat ->
     exists u, upd !! j = Some (Some u) /\ last_at (heap s) (sl_header (sl s) :: A) j u).
  { intros j Hj. unfold upd. destruct (decide (j < top)%nat) as [Hjt|Hjt].
    - destruct (Hupd j Hjt) as (u & Hu & Hlast). exists u. split; [|done]. rewrite raise_update_lookup, decide_False by lia. done.
    - exists (sl_header (sl s)). split; [by rewrite raise_update_lookup, decide_True by lia|].
      exists [], A. split; [done|]. split; [rewrite (ok_head _ _ _ Hok); lia|]. apply tall_nil. intros id Hid.
      pose proof (proj1 (Forall_forall _ _) (ok_levels _ _ _ Hok) id ltac:(apply elem_of_app; by left)) as Hl.
      cbv beta in Hl. unfold top in *. lia. }
  assert (Hold : forall id, is_Some (heap s !! id) ->
    id <> length (heap s) /\ is_Some ((heap s ++ [new_node level key off len]) !! id)).
  { intros id [x Hx]. pose proof (lookup_lt_Some _ _ _ Hx). split; [lia|]. rewrite lookup_app_l by done. by exists x. }
  destruct (link_spec (length (heap s)) upd level 0 (set_heap (heap s ++ [new_node level key off len]) s1) y) as (h' & E & Hrel).
  - simpl. by rewrite lookup_app_r, Nat.sub_diag by lia.
  - simpl. apply Forall_app. split; [apply Hok|by repeat constructor].
  - lia.
  - intros j Hj. destruct (Hupd' j ltac:(lia)) as (u & Hu & Hlast). exists u. split; [done|]. apply Hold.
    apply last_at_elem in Hlast. apply (proj1 (Forall_forall _ _) (ok_valid _ _ _ Hok)).
    change (u ∈ (sl_header (sl s) :: A) ++ B). apply elem_of_app. by left.
  - eexists _, y. split; [exact E|]. cbv zeta.
    apply (insert_new compare s _ A B key off len level upd); try done. 
Qed.

(** [skiplist_insert] is the insertion into the sorted entries, or fails for lack
    of memory and changes no entry. *)
Lemma insert_spec s l (y : Y) key off len fuel :
  skip_ok compare s l -> (length l <= fuel)%nat ->
  exists r s' y' l', skiplist_insert ops compare fuel key off len (s, y) = Ret r (s', y') /\ skip_ok compare s' l' /\
    ((r = KVDB_OK /\ entries s' l' = put_entry compare key (off, len) (entries s l)) \/
     (r = KVDB_ERR_IO /\ l' = l /\ entries s' l' = entries s l)).
Proof using Hord.
  intros Hok Hfuel. destruct (ok_split compare s l key Hok) as (A & B & -> & HA & HB).
  set (s0 := set_sl (set_sl_lock true (sl s)) s).
  destruct (search_spec compare s s0 y A B key (replicate MAX_LEVEL None) fuel eq_refl Hok Hfuel HA HB)
    as (u & upd & E & Em & Hlen & Hupd).
  unfold skiplist_insert. rewrite (bind_Ret _ _ _ _ _ (lock_list_spec s _ y Hok)). fold s0.
  erewrite bind_Ret by reflexivity. cbn [fst]. change (sl_level (sl s0)) with (sl_level (sl s)).
  change (sl_header (sl s0)) with (sl_header (sl s)).
  rewrite (bind_Ret _ _ _ _ _ E). cbn [fst snd]. rewrite (bind_Ret _ _ _ _ _ Em).
  assert (Hcase : (exists n B', B = n :: B' /\ compare (key_of (heap s) n) key = 0) \/
    (match B with n :: _ => if compare (key_of (heap s) n) key =? 0 then Some n else None | [] => None end = None /\
     Forall (fun id => compare key (key_of (heap s) id) < 0) B /\
     match B with n :: _ => compare (key_of (heap s) n) key <> 0 | [] => True end)).
  { destruct B as [|n B]; [by right|]. destruct (Z.eqb_spec (compare (key_of (heap s) n) key) 0) as [He|Hne].
    - left. by exists n, B.
    - right. split; [done|]. split; [|done]. apply Forall_cons in HB as [Hn _]. apply above; try done.
      pose proof (ok_sorted _ _ _ Hok) as Hs. clear -Hs. induction A; [done|]. by inversion_clear Hs; auto. }
  destruct Hcase as [(n & B' & -> & He)|(-> & HB' & Hne)].
  - rewrite He, Z.eqb_refl.
    destruct (update_entry compare s A n B' key off len Hok HA He) as [Hok' Hent].
    assert (Hv : is_Some (heap s0 !! n)).
    { apply (proj1 (Forall_forall _ _) (ok_valid _ _ _ Hok) n). right. apply elem_of_app. right. apply list_elem_of_here. }
    rewrite (bind_Ret _ _ _ _ _ (modify_node_spec n (set_value off len) s0 y Hv)).
    eexists _, _, y, (A ++ n :: B'). split; [reflexivity|]. cbn [fst snd]. split; [exact Hok'|]. left. split; [done|exact Hent].
  - destruct (random_level_from_spec ops (MAX_LEVEL - 1) 1 (heap s0) y) as (level & y1 & El & Hlvl).
    apply on_heap_Ret in El. rewrite (bind_Ret _ _ _ _ _ El). cbv zeta.
    replace (set_heap (heap s0) s0) with s0 by (by destruct s0). change (sl_level (sl s)) with (sl_level (sl s0)) at 2.
    rewrite (bind_Ret _ _ _ _ _ (raise_level s0 y1 level)). set (s1 := set_sl _ s0).
    assert (Hlvl' : (1 <= level <= MAX_LEVEL)%nat) by (unfold MAX_LEVEL in *; lia).
    destruct (create_node_spec ops level key off len (heap s1) y1) as (y2 & [Ec|Ec]);
      apply on_heap_Ret in Ec; rewrite (bind_Ret _ _ _ _ _ Ec).
    + eexists _, _, y2, (A ++ B). split; [reflexivity|]. cbn [fst snd].
      split; [|right; split; [done|split; [done|by apply entries_ext]]].
      apply (ok_same compare s); try done; [simpl; pose proof (ok_level _ _ _ Hok); lia|apply Hok].
    + destruct (insert_new_spec s y2 A B key off len level upd Hok HA HB' Hlvl') as (s' & y' & Ek & Hok' & Hent).
      { by rewrite Hlen, length_replicate. }
      { intros j Hj. apply Hupd; [done|]. rewrite length_replicate. pose proof (ok_level _ _ _ Hok). lia. }
      change (heap s1) with (heap s). rewrite (bind_Ret _ _ _ _ _ Ek).
      eexists _, _, y', (A ++ length (heap s) :: B). split; [reflexivity|]. cbn [fst snd].
      split; [exact Hok'|]. left. split; [done|]. etransitivity; [exact Hent|].
      unfold entries at 3. rewrite fmap_app. fold (entries s A). fold (entries s B).
      rewrite put_entry_app by (by apply entries_below). f_equal. destruct B as [|n B]; [done|].
      unfold entries at 2. rewrite fmap_cons. symmetry. apply Forall_cons in HB as [Hn _]. by apply put_entry_new.
Qed.
End Operations_spec.

(** ** Properties *)

(** A sequence of insertions. *)
Fixpoint insert_all {Y} (ops : sl_ops Y) compare (fuel : nat) (l : list (list Z * (Z * Z))) : Cmd (index * Y) (list Z) :=
  match l with
  | [] => ret []
  | (k, v) :: l' =>
      let* r := skiplist_insert ops compare fuel k (fst v) (snd v) in
      let* rs := insert_all ops compare fuel l' in
      ret (r :: rs)
  end.
(** What the accepted ones leave in the sorted list. *)
Fixpoint put_all (compare : list Z -> list Z -> Z) (l : list (list Z * (Z * Z))) (rs : list Z) (al : list (list Z * (Z * Z))) :=
  match l, rs with
  | (k, v) :: l', r :: rs' => put_all compare l' rs' (if r =? KVDB_OK then put_entry compare k v al else al)
  | _, _ => al
  end.

(** C6. The skip list implements the sorted list.  Whatever levels [rand] gives
    and whichever allocations fail, every sequence of insertions ends, each one
    returning [KVDB_OK], or [KVDB_ERR_IO] without effect; the entries are then those
    of a sorted association list given the accepted insertions, and a search for
    any key returns the node that the search of that list finds. *)
Theorem skiplist_refines {Y} (ops : sl_ops Y) (compare : list Z -> list Z -> Z) (Hord : KeyOrder compare)
    (l : list (list Z * (Z * Z))) (key : list Z) (fuel : nat) (s : index) (y : Y) (nodes : list nat)
    (Hok : skip_ok compare s nodes) (Hfuel : (length nodes + length l <= fuel)%nat) :
  exists rs s' y' nodes', insert_all ops compare fuel l (s, y) = Ret rs (s', y') /\ skip_ok compare s' nodes' /\
    length rs = length l /\ Forall (fun r => r = KVDB_OK \/ r = KVDB_ERR_IO) rs /\
    entries s' nodes' = put_all compare l rs (entries s nodes) /\
    exists r, skiplist_find compare fuel key (s', y') = Ret r (s', y') /\
      get_entry compare key (put_all compare l rs (entries s nodes))
      = (fun id => (key_of (heap s') id, value_of (heap s') id)) <$> r.
Proof.
  revert s y nodes Hok Hfuel. induction l as [|[k [off len]] l IH]; intros s y nodes Hok Hfuel.
  - exists [], s, y, nodes. split_and!; try done. apply find_spec; [done..|simpl in Hfuel; lia].
  - simpl in Hfuel. destruct (insert_spec ops compare s nodes y k off len fuel Hok ltac:(lia))
      as (r & s1 & y1 & n1 & E1 & Hok1 & Hr).
    assert (Hn1 : (length n1 <= S (length nodes))%nat).
    { destruct Hr as [[_ He]|(_ & -> & _)]; [|lia]. apply (f_equal length) in He. rewrite !entries_length in He.
      rewrite He. pose proof (put_entry_length compare k (off, len) (entries s nodes)) as Hp. by rewrite entries_length in Hp. }
    destruct (IH s1 y1 n1 Hok1 ltac:(lia)) as (rs & s2 & y2 & n2 & E2 & Hok2 & Hlen & Hrs & He2 & Hfind).
    assert (He1 : entries s1 n1 = if r =? KVDB_OK then put_entry compare k (off, len) (entries s nodes) else entries s nodes).
    { destruct Hr as [[-> ->]|(-> & _ & ->)]; done. }
    exists (r :: rs), s2, y2, n2. simpl. rewrite He1 in He2, Hfind. split_and!; try done.
    + rewrite (bind_Ret _ _ _ _ _ E1). by rewrite (bind_Ret _ _ _ _ _ E2).
    + by rewrite Hlen.
    + constructor; [|done]. destruct Hr as [[-> _]|[-> _]]; auto.
Qed.

Lemma empty_ok compare h :
  Forall (fun nd => length (forward nd) = MAX_LEVEL) h ->
  skip_ok compare {| sl := {| sl_header := length h; sl_level := 1; sl_size := 0; sl_lock := false |};
                     heap := h ++ [new_node MAX_LEVEL [] 0 0] |} [].
Proof.
  intros Hh. assert (Hnew : (h ++ [new_node MAX_LEVEL [] 0 0]) !! length h = Some (new_node MAX_LEVEL [] 0 0))
    by (by apply list_lookup_middle).
  split; simpl; try done.
  - constructor; [by rewrite Hnew|done].
  - repeat constructor. by intros ?%not_elem_of_nil.
  - unfold lev. by rewrite Hnew.
  - unfold MAX_LEVEL. lia.
  - intros [|x pre] id suf i HL Hi; injection HL as <- HL; [|by destruct pre]. subst suf. unfold lev, fwd in *.
    rewrite Hnew in *. apply lookup_replicate. split; [done|]. exact Hi.
  - constructor.
  - apply Forall_app. split; [done|]. by repeat constructor.
Qed.

(** Creation.  [skiplist_create] returns an empty list that satisfies the
    invariant, or NULL; and it asks for a key of 0 bytes for the header, so it
    always returns NULL with an allocator that, as src/src/malloc.c does, answers
    NULL to a request of 0 bytes. *)
Theorem skiplist_create_spec {Y} (ops : sl_ops Y) (compare : list Z -> list Z -> Z) (h : list skiplist_node_t) (y : Y)
    (Hh : Forall (fun nd => length (forward nd) = MAX_LEVEL) h) :
  exists r h' y', skiplist_create ops (h, y) = Ret r (h', y') /\
    match r with
    | Some l => skip_ok compare {| sl := l; heap := h' |} []
    | None => h' = h
    end /\
    ((forall y0, fst (sl_malloc ops 0 y0) = 0) -> r = None).
Proof.
  unfold skiplist_create. erewrite bind_Ret by reflexivity. cbn [fst snd]. destruct (_ =? 0).
  { eexists None, h, _. split_and!; done. }
  set (y1 := snd (sl_malloc ops 20 y)).
  destruct (create_node_spec ops MAX_LEVEL [] 0 0 h y1) as (y2 & [E|E]); rewrite (bind_Ret _ _ _ _ _ E).
  { eexists None, h, _. split; [by erewrite bind_Ret by reflexivity|]. split_and!; done. }
  eexists (Some _), _, y2. split; [reflexivity|]. split.
  - by apply empty_ok.
  - intros H0. exfalso. destruct (create_node_null ops MAX_LEVEL [] 0 0 h y1 H0) as (y3 & E3). congruence.
Qed.

(** ** A concrete index *)

(** Keys compared as numbers, base 256. *)
Definition key_number (k : list Z) : Z := fold_left (fun a b => 256 * a + b) k 0.
Definition number_compare (a b : list Z) : Z := key_number a - key_number b.
#[export] Instance number_order : KeyOrder number_compare.
Proof. split; unfold number_compare; lia. Qed.

(** [rand] alternates; [malloc] always succeeds. *)
Definition coin_ops : sl_ops Z := {|
  RAND_MAX := 32767; sl_rand := fun y => (y, 32767 - y); sl_malloc := fun _ y => (4096, y); sl_free := fun y => (tt, y) |}.
Definition created : index := {|
  sl := {| sl_header := 0; sl_level := 1; sl_size := 0; sl_lock := false |}; heap := [new_node MAX_LEVEL [] 0 0] |}.

Lemma created_ok : skip_ok number_compare created [].
Proof. exact (empty_ok number_compare [] (Forall_nil_2 _)). Qed.

Lemma skiplist_refines_witness :
  exists rs s' y', insert_all coin_ops number_compare 5 [([7], (0, 1)); ([3], (10, 2)); ([5], (20, 3)); ([3], (30, 4))]
      (created, 0) = Ret rs (s', y') /\
    exists r, skiplist_find number_compare 5 [3] (s', y') = Ret r (s', y') /\
      (fun id => (key_of (heap s') id, value_of (heap s') id)) <$> r = Some ([3], (30, 4)).
Proof.
  destruct (skiplist_refines coin_ops number_compare number_order
    [([7], (0, 1)); ([3], (10, 2)); ([5], (20, 3)); ([3], (30, 4))] [3] 5 created 0 [] created_ok)
    as (rs & s' & y' & nodes & E & _ & _ & _ & _ & r & Ef & Eg); [simpl; lia|].
  exists rs, s', y'. split; [exact E|]. exists r. split; [exact Ef|]. rewrite <- Eg.
  assert (rs = [0; 0; 0; 0]) as -> by (vm_compute in E; injection E as <- _ _; reflexivity). reflexivity.
Defined.

Lemma skiplist_create_spec_witness :
  exists r h' y', skiplist_create coin_ops ([], 0) = Ret r (h', y') /\
    match r with Some l => skip_ok number_compare {| sl := l; heap := h' |} [] | None => h' = [] end.
Proof.
  destruct (skiplist_create_spec coin_ops number_compare [] 0 (Forall_nil_2 _)) as (r & h' & y' & E & H & _).
  exists r, h', y'. split; [exact E|exact H].
Defined.
