(* ===== verification/CString.v ===== *)
(** * CString

    src/src/string.c: the string and memory functions of the C library, on a
    byte-addressed memory.  [char] is unsigned, as it is on ARM.  Loops over
    strings take a bound on the length of the string; loops over a count need
    none. *)
From S2P Require Import Prelude Mem.

(** ** Operations *)
Definition read8 (a : Z) : Cmd bytes Z := gets (fun m => m a).
Definition write8 (a v : Z) : Cmd bytes unit := modify (fun m => store8 m a v).

(** [for (s = str; *s; ++s)], also the first loop of [strcat]. *)
Fixpoint find_end (fuel : nat) (s : Z) : Cmd bytes Z :=
  let* c := read8 s in
  if c =? 0 then ret s else
  match fuel with O => fail NoFuel | S fuel' => find_end fuel' (s + 1) end.
Definition strlen (fuel : nat) (str : Z) : Cmd bytes Z :=
  let* s := find_end fuel str in ret (u32 (s - str)).

(** Copy bytes up to the terminator, which is copied too. *)
Fixpoint copy_string (fuel : nat) (d src : Z) : Cmd bytes unit :=
  let* c := read8 src in
  write8 d c ;;;
  if c =? 0 then ret tt else
  match fuel with O => fail NoFuel | S fuel' => copy_string fuel' (d + 1) (src + 1) end.
Definition strcpy (fuel : nat) (dest src : Z) : Cmd bytes Z := copy_string fuel dest src ;;; ret dest.

(** The first loop of [strncpy], which counts [n] down after each byte but the
    terminator: what is left of [n], and [d]. *)
Fixpoint copy_bounded (n : nat) (d src : Z) : Cmd bytes (nat * Z) :=
  match n with
  | O => ret (O, d)
  | S n' =>
      let* c := read8 src in
      write8 d c ;;;
      if c =? 0 then ret (n, d + 1) else copy_bounded n' (d + 1) (src + 1)
  end.
(** [while (n-- > 0) *d++ = v]. *)
Fixpoint set_bytes (n : nat) (d v : Z) : Cmd bytes unit :=
  match n with
  | O => ret tt
  | S n' => write8 d v ;;; set_bytes n' (d + 1) v
  end.
Definition strncpy (dest src n : Z) : Cmd bytes Z :=
  let* r := copy_bounded (Z.to_nat n) dest src in
  set_bytes (fst r) (snd r) 0 ;;;
  ret dest.

(** While [*s1 && *s1 == *s2]; then the difference of the bytes. *)
Fixpoint strcmp (fuel : nat) (s1 s2 : Z) : Cmd bytes Z :=
  let* a := read8 s1 in
  let* b := read8 s2 in
  if negb (a =? 0) && (a =? b) then
    match fuel with O => fail NoFuel | S fuel' => strcmp fuel' (s1 + 1) (s2 + 1) end
  else ret (u8 a - u8 b).

(** [while (n-- > 0 && *s1 && *s1 == *s2)]: [n] and the pointers afterwards; [n] is
    a [size_t]. *)
Fixpoint strncmp_loop (n : nat) (s1 s2 : Z) : Cmd bytes (Z * Z * Z) :=
  match n with
  | O => ret (u32 (-1), s1, s2)
  | S n' =>
      let* a := read8 s1 in
      let* b := read8 s2 in
      if negb (a =? 0) && (a =? b) then strncmp_loop n' (s1 + 1) (s2 + 1) else ret (Z.of_nat n', s1, s2)
  end.
Definition strncmp (s1 s2 n : Z) : Cmd bytes Z :=
  let* r := strncmp_loop (Z.to_nat n) s1 s2 in
  let '(n', p1, p2) := r in
  if n' <? 0 then ret 0 else
  let* a := read8 p1 in
  let* b := read8 p2 in
  ret (u8 a - u8 b).

Definition strcat (fuel : nat) (dest src : Z) : Cmd bytes Z :=
  let* d := find_end fuel dest in
  copy_string fuel d src ;;;
  ret dest.

(** The copy loop of [strncat]: [d] when [n] bytes or the terminator are copied. *)
Fixpoint strncat_loop (n : nat) (d src : Z) : Cmd bytes Z :=
  match n with
  | O => ret d
  | S n' =>
      let* c := read8 src in
      write8 d c ;;;
      if c =? 0 then ret d else strncat_loop n' (d + 1) (src + 1)
  end.
Definition strncat (fuel : nat) (dest src n : Z) : Cmd bytes Z :=
  let* d := find_end fuel dest in
  let* d := strncat_loop (Z.to_nat n) d src in
  write8 d 0 ;;;
  ret dest.

(** A pointer, or [None] for NULL. *)
Fixpoint strchr (fuel : nat) (s c : Z) : Cmd bytes (option Z) :=
  let* b := read8 s in
  if negb (b =? 0) && negb (b =? u8 c) then
    match fuel with O => fail NoFuel | S fuel' => strchr fuel' (s + 1) c end
  else ret (if b =? u8 c then Some s else None).

Fixpoint strrchr_loop (fuel : nat) (s c : Z) (found : option Z) : Cmd bytes (option Z) :=
  let* b := read8 s in
  if b =? 0 then ret found else
  let found := if b =? u8 c then Some s else found in
  match fuel with O => fail NoFuel | S fuel' => strrchr_loop fuel' (s + 1) c found end.
Definition strrchr (fuel : nat) (s c : Z) : Cmd bytes (option Z) := strrchr_loop fuel s c None.

(** [while (n--) *d++ = *s++]. *)
Fixpoint copy_up (n : nat) (d s : Z) : Cmd bytes unit :=
  match n with
  | O => ret tt
  | S n' => let* c := read8 s in write8 d c ;;; copy_up n' (d + 1) (s + 1)
  end.
(** [while (n--) *--d = *--s], from [d + n] and [s + n]. *)
Fixpoint copy_down (n : nat) (d s : Z) : Cmd bytes unit :=
  match n with
  | O => ret tt
  | S n' => let* c := read8 (s + Z.of_nat n') in write8 (d + Z.of_nat n') c ;;; copy_down n' d s
  end.
Definition memcpy (dest src n : Z) : Cmd bytes Z := copy_up (Z.to_nat n) dest src ;;; ret dest.
Definition memmove (dest src n : Z) : Cmd bytes Z :=
  (if dest <? src then copy_up (Z.to_nat n) dest src else copy_down (Z.to_nat n) dest src) ;;; ret dest.

Fixpoint memcmp_loop (n : nat) (p1 p2 : Z) : Cmd bytes Z :=
  match n with
  | O => ret 0
  | S n' =>
      let* a := read8 p1 in
      let* b := read8 p2 in
      if negb (a =? b) then ret (a - b) else memcmp_loop n' (p1 + 1) (p2 + 1)
  end.
Definition memcmp (s1 s2 n : Z) : Cmd bytes Z := memcmp_loop (Z.to_nat n) s1 s2.
Definition memset (s c n : Z) : Cmd bytes Z := set_bytes (Z.to_nat n) s (u8 c) ;;; ret s.

(** ** Memory functions *)
Definition byte_mem (m : bytes) : Prop := forall x, 0 <= m x < 256.

Lemma store8_same m a v : store8 m a v a = u8 v.
Proof. unfold store8. by rewrite Z.eqb_refl. Qed.
Lemma store8_other m a v x : x <> a -> store8 m a v x = m x.
Proof. intros H. unfold store8. by rewrite (proj2 (Z.eqb_neq _ _) H). Qed.
Lemma byte_store8 m a v : byte_mem m -> byte_mem (store8 m a v).
Proof. intros H x. destruct (decide (x = a)) as [->|]; [rewrite store8_same; apply u8_range|by rewrite store8_other]. Qed.

Lemma copy_in m d s n x : d <= x < d + n -> copy m d s n x = m (s + (x - d)).
Proof. intros H. unfold copy. by rewrite (proj2 (Z.leb_le _ _)), (proj2 (Z.ltb_lt _ _)) by lia. Qed.
Lemma copy_out m d s n x : x < d \/ d + n <= x -> copy m d s n x = m x.
Proof. intros H. unfold copy. destruct (Z.leb_spec d x), (Z.ltb_spec x (d + n)); simpl; done || lia. Qed.

Lemma copy_up_spec n : forall d s m,
  byte_mem m -> d <= s \/ s + Z.of_nat n <= d ->
  exists m', copy_up n d s m = Ret tt m' /\ forall x, m' x = copy m d s (Z.of_nat n) x.
Proof.
  induction n as [|n IH]; intros d s m Hm Hov.
  { exists m. split; [done|]. intros x. by rewrite copy_out by lia. }
  destruct (IH (d + 1) (s + 1) (store8 m d (m s)) ltac:(by apply byte_store8) ltac:(lia)) as (m' & E & Hx).
  exists m'. split; [exact E|]. intros x. rewrite Hx. destruct (decide (d <= x < d + Z.of_nat (S n))) as [Hin|Hout].
  - rewrite (copy_in m) by done. destruct (decide (x = d)) as [->|].
    + rewrite copy_out, store8_same by lia. rewrite u8_small by apply Hm. f_equal. lia.
    + rewrite copy_in by lia. rewrite store8_other by lia. f_equal. lia.
  - rewrite !copy_out by lia. by rewrite store8_other by lia.
Qed.

Lemma copy_down_spec n : forall d s m,
  byte_mem m -> s <= d ->
  exists m', copy_down n d s m = Ret tt m' /\ forall x, m' x = copy m d s (Z.of_nat n) x.
Proof.
  induction n as [|n IH]; intros d s m Hm Hov.
  { exists m. split; [done|]. intros x. by rewrite copy_out by lia. }
  destruct (IH d s (store8 m (d + Z.of_nat n) (m (s + Z.of_nat n))) ltac:(by apply byte_store8) Hov) as (m' & E & Hx).
  exists m'. split; [exact E|]. intros x. rewrite Hx. destruct (decide (d <= x < d + Z.of_nat (S n))) as [Hin|Hout].
  - rewrite (copy_in m) by done. destruct (decide (x = d + Z.of_nat n)) as [->|].
    + rewrite copy_out, store8_same by lia. rewrite u8_small by apply Hm. f_equal. lia.
    + rewrite copy_in by lia. by rewrite store8_other by lia.
  - rewrite !copy_out by lia. by rewrite store8_other by lia.
Qed.

Lemma fill_in m a n v x : a <= x < a + n -> fill m a n v x = u8 v.
Proof. intros H. unfold fill. by rewrite (proj2 (Z.leb_le _ _)), (proj2 (Z.ltb_lt _ _)) by lia. Qed.
Lemma fill_out m a n v x : x < a \/ a + n <= x -> fill m a n v x = m x.
Proof. intros H. unfold fill. destruct (Z.leb_spec a x), (Z.ltb_spec x (a + n)); simpl; done || lia. Qed.

Lemma set_bytes_spec n : forall d v m,
  exists m', set_bytes n d v m = Ret tt m' /\ forall x, m' x = fill m d (Z.of_nat n) v x.
Proof.
  induction n as [|n IH]; intros d v m.
  { exists m. split; [done|]. intros x. by rewrite fill_out by lia. }
  destruct (IH (d + 1) v (store8 m d v)) as (m' & E & Hx). exists m'. split; [exact E|]. intros x. rewrite Hx.
  destruct (decide (d <= x < d + Z.of_nat (S n))).
  - rewrite (fill_in m) by done. destruct (decide (x = d)) as [->|]; [by rewrite fill_out, store8_same by lia|].
    by rewrite fill_in by lia.
  - rewrite !fill_out by lia. by rewrite store8_other by lia.
Qed.

(** The memory functions are the block operations of the memory model.
    [memmove] leaves at [dest] what was at [src], however the two ranges overlap;
    [memcpy] does so when the copy does not run into its own source; [memset] fills
    the range; none of them changes another byte. *)
Theorem memory_functions (m : bytes) (dest src c n : Z) (Hm : byte_mem m) (Hn : 0 <= n) :
  (exists m', memmove dest src n m = Ret dest m' /\ forall x, m' x = copy m dest src n x) /\
  (dest <= src \/ src + n <= dest -> exists m', memcpy dest src n m = Ret dest m' /\ forall x, m' x = copy m dest src n x) /\
  (exists m', memset dest c n m = Ret dest m' /\ forall x, m' x = fill m dest n c x).
Proof.
  rewrite <- (Z2Nat.id n Hn). generalize (Z.to_nat n). clear n Hn. intros n. split_and!.
  - unfold memmove. rewrite Nat2Z.id. destruct (Z.ltb_spec dest src).
    + destruct (copy_up_spec n dest src m Hm ltac:(lia)) as (m' & E & Hx). exists m'. by rewrite (bind_Ret _ _ _ _ _ E).
    + destruct (copy_down_spec n dest src m Hm ltac:(lia)) as (m' & E & Hx). exists m'. by rewrite (bind_Ret _ _ _ _ _ E).
  - intros Hov. unfold memcpy. rewrite Nat2Z.id.
    destruct (copy_up_spec n dest src m Hm Hov) as (m' & E & Hx). exists m'. by rewrite (bind_Ret _ _ _ _ _ E).
  - unfold memset. rewrite Nat2Z.id. destruct (set_bytes_spec n dest (u8 c) m) as (m' & E & Hx).
    exists m'. rewrite (bind_Ret _ _ _ _ _ E). split; [done|]. intros x. rewrite Hx. unfold fill.
    destruct (_ && _); [|done]. by rewrite u8_small by apply u8_range.
Qed.

(** ** Strings *)

(** The string [l], with its terminator, at address [a]. *)
Definition cstr (m : bytes) (a : Z) (l : list Z) : Prop :=
  Forall (fun c => 0 < c < 256) l /\ (forall i c, l !! i = Some c -> m (a + Z.of_nat i) = c) /\ m (a + Z.of_nat (length l)) = 0.

Lemma cstr_nil m a : cstr m a [] -> m a = 0.
Proof. intros (_ & _ & H). by rewrite Z.add_0_r in H. Qed.

Lemma cstr_cons m a c l : cstr m a (c :: l) -> m a = c /\ 0 < c < 256 /\ cstr m (a + 1) l.
Proof.
  intros (Hc & H & Ht). apply Forall_cons in Hc as [Hc Hl]. split; [|split; [done|split; [done|split]]].
  - rewrite <- (Z.add_0_r a). by apply (H 0%nat).
  - intros i x Hi. rewrite <- (H (S i) x Hi). f_equal. lia.
  - rewrite <- Ht. f_equal. simpl length. lia.
Qed.

(** The same string in a memory that differs elsewhere. *)
Lemma cstr_ext m m' a l :
  cstr m a l -> (forall x, a <= x <= a + Z.of_nat (length l) -> m' x = m x) -> cstr m' a l.
Proof.
  intros (Hc & H & Ht) He. split; [done|]. split; [|rewrite He by lia; done].
  intros i c Hi. pose proof (lookup_lt_Some _ _ _ Hi). rewrite He by lia. by apply H.
Qed.

(** The bytes [copy_bounded] copies: up to [n], the terminator included. *)
Lemma copy_bounded_spec n : forall l d src m,
  byte_mem m -> cstr m src l -> src + Z.of_nat (length l) < d \/ d + Z.of_nat n <= src ->
  let k := if decide (n <= length l)%nat then n else S (length l) in
  exists m', copy_bounded n d src m = Ret (if decide (n <= length l)%nat then (O, d + Z.of_nat n) else ((n - length l)%nat, d + Z.of_nat k)) m' /\
    forall x, m' x = copy m d src (Z.of_nat k) x.
Proof.
  induction n as [|n IH]; intros l d src m Hm Hs Hdis.
  { exists m. simpl. rewrite Z.add_0_r. split; [done|]. intros x. by rewrite copy_out by lia. }
  cbn [copy_bounded]. destruct l as [|c l].
  - rewrite decide_False by (simpl; lia). erewrite bind_Ret by reflexivity. erewrite bind_Ret by reflexivity.
    rewrite (cstr_nil _ _ Hs). simpl. eexists. split; [done|]. intros x. destruct (decide (x = d)) as [->|].
    + rewrite store8_same, copy_in by lia. change (u8 0) with 0. rewrite <- (cstr_nil _ _ Hs). f_equal. lia.
    + rewrite store8_other by done. by rewrite copy_out by lia.
  - pose proof (cstr_cons _ _ _ _ Hs) as (Hc & Hcr & Hs'). simpl length in *.
    set (m1 := store8 m d (m src)).
    destruct (IH l (d + 1) (src + 1) m1) as (m' & E & Hx); [by apply byte_store8| |lia|].
    { apply (cstr_ext m); [done|]. intros x Hx. apply store8_other. lia. }
    exists m'. split.
    + erewrite bind_Ret by reflexivity. erewrite bind_Ret by reflexivity. fold m1. rewrite Hc.
      destruct (Z.eqb_spec c 0); [lia|]. rewrite E. f_equal.
      repeat case_decide; try lia; f_equal; lia.
    + intros x. rewrite Hx. set (k := if decide (n <= length l)%nat then n else S (length l)).
      replace (if decide (S n <= S (length l))%nat then S n else S (S (length l))) with (S k)
        by (unfold k; repeat case_decide; lia).
      assert (Hk : (k <= S (length l) /\ k <= n)%nat) by (unfold k; case_decide; lia).
      destruct (decide (d <= x < d + Z.of_nat (S k))).
      * rewrite (copy_in m) by done. unfold m1. destruct (decide (x = d)) as [->|].
        -- rewrite copy_out, store8_same by lia. rewrite u8_small by apply Hm. f_equal. lia.
        -- rewrite copy_in by lia. rewrite store8_other by lia. f_equal. lia.
      * rewrite !copy_out by lia. unfold m1. by rewrite store8_other by lia.
Qed.

(** [strncpy] writes outside of its array.  With a source of at least [n]
    bytes it copies [n] bytes, as it should; with a shorter one it copies the
    string and its terminator and then still writes one zero for each byte of [n]
    that the terminator did not count: [n + 1] bytes in all, the last of them, a
    zero, beyond the [n] bytes of the destination. *)
Theorem strncpy_overrun (m : bytes) (dest src n : Z) (l : list Z)
    (Hm : byte_mem m) (Hs : cstr m src l) (Hn : 0 <= n)
    (Hdis : src + Z.of_nat (length l) < dest \/ dest + n < src) :
  exists m', strncpy dest src n m = Ret dest m' /\
    (n <= Z.of_nat (length l) -> forall x, m' x = copy m dest src n x) /\
    (Z.of_nat (length l) < n ->
      m' (dest + n) = 0 /\
      forall x, m' x = if decide (dest <= x < dest + Z.of_nat (length l)) then m (src + (x - dest))
                       else if decide (dest + Z.of_nat (length l) <= x <= dest + n) then 0 else m x).
Proof.
  unfold strncpy. destruct (copy_bounded_spec (Z.to_nat n) l dest src m Hm Hs ltac:(lia)) as (m1 & E1 & H1).
  rewrite (bind_Ret _ _ _ _ _ E1). destruct (decide (Z.to_nat n <= length l)%nat) as [Hle|Hgt]; cbn [fst snd].
  - exists m1. split; [done|]. split; [|lia]. intros _ x. rewrite H1. by rewrite Z2Nat.id.
  - destruct (set_bytes_spec (Z.to_nat n - length l) (dest + Z.of_nat (S (length l))) 0 m1) as (m2 & E2 & H2).
    rewrite (bind_Ret _ _ _ _ _ E2). exists m2. split; [done|]. split; [lia|]. intros _.
    assert (Hx : forall x, m2 x = if decide (dest <= x < dest + Z.of_nat (length l)) then m (src + (x - dest))
                       else if decide (dest + Z.of_nat (length l) <= x <= dest + n) then 0 else m x).
    { intros x. rewrite H2. destruct (decide (dest + Z.of_nat (length l) < x <= dest + n)).
      - rewrite fill_in by lia. rewrite decide_False by lia. by rewrite decide_True by lia.
      - rewrite fill_out by lia. rewrite H1. case_decide; [by rewrite copy_in by lia|].
        case_decide; [|by rewrite copy_out by lia].
        replace x with (dest + Z.of_nat (length l)) by lia. rewrite copy_in by lia.
        destruct Hs as (_ & _ & Ht). rewrite <- Ht. f_equal. lia. }
    split; [|exact Hx]. rewrite Hx. rewrite decide_False by lia. by rewrite decide_True by lia.
Qed.

(** ** Comparison *)

(** The difference of the first bytes at which two strings differ, their
    terminators included, looking at no more than [n] of them. *)
Fixpoint difference (n : nat) (l1 l2 : list Z) : Z :=
  match n with
  | O => match l1, l2 with a :: _, b :: _ => a - b | a :: _, [] => a | [], b :: _ => - b | [], [] => 0 end
  | S n' =>
      match l1, l2 with
      | a :: l1', b :: l2' => if a =? b then difference n' l1' l2' else a - b
      | a :: _, [] => a
      | [], b :: _ => - b
      | [], [] => 0
      end
  end.

(** The bytes of [strcmp] and [strncmp] at the start of two strings. *)
Lemma head_bytes m s l : cstr m s l -> m s = match l with [] => 0 | a :: _ => a end.
Proof. destruct l as [|a l]; intros H; [by apply cstr_nil|]. by apply cstr_cons in H as [? _]. Qed.

Lemma heads_difference m s1 s2 l1 l2 :
  cstr m s1 l1 -> cstr m s2 l2 ->
  u8 (m s1) - u8 (m s2) = difference 0 l1 l2.
Proof.
  intros H1 H2. rewrite (head_bytes _ _ _ H1), (head_bytes _ _ _ H2).
  destruct H1 as (F1 & _), H2 as (F2 & _). destruct l1 as [|a l1], l2 as [|b l2]; simpl;
    try (apply Forall_cons in F1 as [F1 _]); try (apply Forall_cons in F2 as [F2 _]); rewrite ?u8_small by lia;
    change (u8 0) with 0; lia.
Qed.

Lemma strcmp_spec l1 : forall l2 s1 s2 m fuel,
  cstr m s1 l1 -> cstr m s2 l2 -> (length l1 <= fuel)%nat ->
  strcmp fuel s1 s2 m = Ret (difference (length l1) l1 l2) m.
Proof.
  induction l1 as [|a l1 IH]; intros l2 s1 s2 m fuel H1 H2 Hf.
  - pose proof (heads_difference _ _ _ _ _ H1 H2) as Hd.
    destruct fuel; cbn [strcmp]; do 2 erewrite bind_Ret by reflexivity; cbv beta; rewrite (cstr_nil _ _ H1) in *;
      exact (f_equal (fun z => Ret z m) Hd).
  - destruct fuel as [|fuel]; [simpl in Hf; lia|]. cbn [strcmp]. do 2 erewrite bind_Ret by reflexivity. cbv beta.
    pose proof (heads_difference _ _ _ _ _ H1 H2) as Hd. pose proof (cstr_cons _ _ _ _ H1) as (Ha & Har & H1').
    rewrite Ha in *. destruct l2 as [|b l2].
    + rewrite (cstr_nil _ _ H2) in *. destruct (Z.eqb_spec a 0); [lia|]. cbn [negb andb]. exact (f_equal (fun z => Ret z m) Hd).
    + pose proof (cstr_cons _ _ _ _ H2) as (Hb & Hbr & H2'). rewrite Hb in *. destruct (Z.eqb_spec a 0); [lia|].
      cbn [negb andb difference length]. destruct (Z.eqb_spec a b); [apply IH; [done..|simpl in Hf; lia]|].
      exact (f_equal (fun z => Ret z m) Hd).
Qed.

Lemma strncmp_spec n : forall l1 l2 s1 s2 m,
  cstr m s1 l1 -> cstr m s2 l2 ->
  exists n' p1 p2, strncmp_loop n s1 s2 m = Ret (n', p1, p2) m /\ 0 <= n' /\ u8 (m p1) - u8 (m p2) = difference n l1 l2.
Proof.
  induction n as [|n IH]; intros l1 l2 s1 s2 m H1 H2.
  - exists (u32 (-1)), s1, s2. split; [done|]. split; [apply u32_range|]. by apply heads_difference.
  - pose proof (heads_difference _ _ _ _ _ H1 H2) as Hd. cbn [strncmp_loop]. do 2 erewrite bind_Ret by reflexivity. cbv beta.
    destruct l1 as [|a l1].
    { rewrite (cstr_nil _ _ H1) in *. cbn. eexists _, _, _. split; [done|]. split; [lia|].
      rewrite (cstr_nil _ _ H1), Hd. by destruct l2. }
    pose proof (cstr_cons _ _ _ _ H1) as (Ha & Har & H1').
    destruct l2 as [|b l2].
    { rewrite Ha, (cstr_nil _ _ H2). destruct (Z.eqb_spec a 0); [lia|]. cbn [negb andb].
      eexists _, _, _. split; [done|]. split; [lia|]. by rewrite Hd. }
    pose proof (cstr_cons _ _ _ _ H2) as (Hb & Hbr & H2'). rewrite Ha, Hb. destruct (Z.eqb_spec a 0); [lia|].
    cbn [negb andb difference]. destruct (Z.eqb_spec a b) as [->|Hne]; [by apply IH|].
    eexists _, _, _. split; [done|]. split; [lia|]. by rewrite Hd.
Qed.

Lemma difference_zero l1 : forall l2, Forall (fun c => 0 < c < 256) l1 -> Forall (fun c => 0 < c < 256) l2 ->
  difference (length l1) l1 l2 = 0 <-> l1 = l2.
Proof.
  induction l1 as [|a l1 IH]; intros [|b l2] H1 H2; simpl; try done.
  - apply Forall_cons in H2 as [Hb _]. split; [lia|done].
  - apply Forall_cons in H1 as [Ha _]. split; [lia|done].
  - apply Forall_cons in H1 as [Ha H1]. apply Forall_cons in H2 as [Hb H2].
    destruct (Z.eqb_spec a b) as [->|Hne]; [rewrite IH by done; naive_solver|]. split; [lia|naive_solver].
Qed.

(** Comparison.  [strcmp] is zero for equal strings only, and is otherwise the
    difference of the first bytes that differ.  [strncmp] is the difference at the
    first of the first [n + 1] bytes that differ: its test [n < 0] never holds, [n]
    being unsigned, so that strings with the same first [n] bytes but another byte
    after them do not compare equal. *)
Theorem string_compare (m : bytes) (s1 s2 n : Z) (l1 l2 : list Z) (fuel : nat)
    (H1 : cstr m s1 l1) (H2 : cstr m s2 l2) (Hn : 0 <= n) (Hfuel : (length l1 <= fuel)%nat) :
  (exists r, strcmp fuel s1 s2 m = Ret r m /\ r = difference (length l1) l1 l2 /\ (r = 0 <-> l1 = l2)) /\
  strncmp s1 s2 n m = Ret (difference (Z.to_nat n) l1 l2) m /\
  (forall p a b r1 r2, l1 = p ++ a :: r1 -> l2 = p ++ b :: r2 -> n = Z.of_nat (length p) ->
     strncmp s1 s2 n m = Ret (a - b) m).
Proof.
  assert (Hs : strncmp s1 s2 n m = Ret (difference (Z.to_nat n) l1 l2) m).
  { unfold strncmp. destruct (strncmp_spec (Z.to_nat n) l1 l2 s1 s2 m H1 H2) as (n' & p1 & p2 & E & Hn' & Hd).
    rewrite (bind_Ret _ _ _ _ _ E). cbv beta iota. destruct (Z.ltb_spec n' 0); [lia|].
    do 2 erewrite bind_Ret by reflexivity. by rewrite <- Hd. }
  split; [|split; [done|]].
  - eexists. split; [by apply strcmp_spec|]. split; [done|]. by apply difference_zero; [apply H1|apply H2].
  - intros p a b r1 r2 -> -> ->. rewrite Hs, Nat2Z.id. f_equal. clear.
    induction p as [|c p IH]; [done|]. simpl. by rewrite Z.eqb_refl.
Qed.

(** ** Searching *)

(** The places of [c] in the string [l] at [a], its terminator not counted. *)
Fixpoint first_place (a : Z) (l : list Z) (c : Z) : option Z :=
  match l with [] => None | b :: l' => if b =? c then Some a else first_place (a + 1) l' c end.
Fixpoint last_place (a : Z) (l : list Z) (c : Z) (found : option Z) : option Z :=
  match l with [] => found | b :: l' => last_place (a + 1) l' c (if b =? c then Some a else found) end.

Lemma find_end_spec l : forall s m fuel,
  cstr m s l -> (length l <= fuel)%nat -> find_end fuel s m = Ret (s + Z.of_nat (length l)) m.
Proof.
  induction l as [|a l IH]; intros s m fuel H Hf.
  - destruct fuel; cbn [find_end]; erewrite bind_Ret by reflexivity; rewrite (cstr_nil _ _ H); simpl; by rewrite Z.add_0_r.
  - destruct fuel as [|fuel]; [simpl in Hf; lia|]. cbn [find_end]. erewrite bind_Ret by reflexivity.
    pose proof (cstr_cons _ _ _ _ H) as (Ha & Har & H'). rewrite Ha. destruct (Z.eqb_spec a 0); [lia|].
    rewrite (IH (s + 1) m fuel H' ltac:(simpl in Hf; lia)). f_equal. simpl length. lia.
Qed.

Lemma strchr_spec l : forall s c m fuel,
  cstr m s l -> (length l <= fuel)%nat ->
  strchr fuel s c m
  = Ret (match first_place s l (u8 c) with
         | Some p => Some p
         | None => if u8 c =? 0 then Some (s + Z.of_nat (length l)) else None
         end) m.
Proof.
  induction l as [|a l IH]; intros s c m fuel H Hf.
  - destruct fuel; cbn [strchr]; erewrite bind_Ret by reflexivity; rewrite (cstr_nil _ _ H); cbn [negb andb Z.eqb first_place];
      simpl length; rewrite Z.add_0_r; f_equal; by rewrite Z.eqb_sym.
  - destruct fuel as [|fuel]; [simpl in Hf; lia|]. cbn [strchr first_place]. erewrite bind_Ret by reflexivity.
    pose proof (cstr_cons _ _ _ _ H) as (Ha & Har & H'). rewrite Ha. destruct (Z.eqb_spec a 0); [lia|].
    destruct (Z.eqb_spec a (u8 c)); cbn [negb andb]; [done|].
    rewrite (IH (s + 1) c m fuel H' ltac:(simpl in Hf; lia)). simpl length.
    replace (s + 1 + Z.of_nat (length l)) with (s + Z.of_nat (S (length l))) by lia. done.
Qed.

Lemma strrchr_spec l : forall s c found m fuel,
  cstr m s l -> (length l <= fuel)%nat -> strrchr_loop fuel s c found m = Ret (last_place s l (u8 c) found) m.
Proof.
  induction l as [|a l IH]; intros s c found m fuel H Hf.
  - destruct fuel; cbn [strrchr_loop]; erewrite bind_Ret by reflexivity; by rewrite (cstr_nil _ _ H).
  - destruct fuel as [|fuel]; [simpl in Hf; lia|]. cbn [strrchr_loop last_place]. erewrite bind_Ret by reflexivity.
    pose proof (cstr_cons _ _ _ _ H) as (Ha & Har & H'). rewrite Ha. destruct (Z.eqb_spec a 0); [lia|]. cbv zeta.
    apply IH; [done|simpl in Hf; lia].
Qed.

Lemma last_place_zero l : forall a found, Forall (fun c => 0 < c < 256) l -> last_place a l 0 found = found.
Proof.
  induction l as [|b l IH]; intros a found H; [done|]. apply Forall_cons in H as [Hb H]. simpl.
  rewrite (proj2 (Z.eqb_neq b 0)) by lia. by apply IH.
Qed.

(** Searching.  [strlen] is the length of the string; [strchr] finds the first
    place of a character, and the terminator when the character is 0; [strrchr]
    finds the last place among the characters only, and so answers NULL for the
    terminator. *)
Lemma string_search (m : bytes) (s c : Z) (l : list Z) (fuel : nat)
    (H : cstr m s l) (Hlen : Z.of_nat (length l) < 4294967296) (Hfuel : (length l <= fuel)%nat) :
  strlen fuel s m = Ret (Z.of_nat (length l)) m /\
  strchr fuel s c m
  = Ret (match first_place s l (u8 c) with
         | Some p => Some p
         | None => if u8 c =? 0 then Some (s + Z.of_nat (length l)) else None
         end) m /\
  strrchr fuel s c m = Ret (last_place s l (u8 c) None) m /\
  (u8 c = 0 -> strrchr fuel s c m = Ret None m).
Proof.
  assert (Hr : strrchr fuel s c m = Ret (last_place s l (u8 c) None) m) by (by apply strrchr_spec).
  split_and!; [|by apply strchr_spec|done|].
  - unfold strlen. rewrite (bind_Ret _ _ _ _ _ (find_end_spec l s m fuel H Hfuel)).
    replace (s + Z.of_nat (length l) - s) with (Z.of_nat (length l)) by lia. by rewrite u32_small by lia.
  - intros Hc. rewrite Hr, Hc, last_place_zero by apply H. done.
Qed.

(** ** Concrete memories *)

(** "abc" at 100, "abd" at 200, 255 elsewhere. *)
Definition two_strings : bytes := fun x =>
  if x =? 100 then 97 else if x =? 101 then 98 else if x =? 102 then 99 else if x =? 103 then 0 else
  if x =? 200 then 97 else if x =? 201 then 98 else if x =? 202 then 100 else if x =? 203 then 0 else 255.

Lemma two_strings_bytes : byte_mem two_strings.
Proof. intros x. unfold two_strings. repeat case_match; lia. Qed.

Lemma two_strings_at : cstr two_strings 100 [97; 98; 99] /\ cstr two_strings 200 [97; 98; 100].
Proof.
  assert (H : forall a l, Forall (fun c => 0 < c < 256) l -> (forall i, (i < length l)%nat -> Some (two_strings (a + Z.of_nat i)) = l !! i) ->
    two_strings (a + Z.of_nat (length l)) = 0 -> cstr two_strings a l).
  { intros a l Hl Hi Ht. split; [done|]. split; [|done]. intros i c Hc. specialize (Hi i (lookup_lt_Some _ _ _ Hc)). congruence. }
  split; apply H; try done; try (repeat constructor; lia);
    intros [|[|[|i]]] Hi; try done; simpl in Hi; lia.
Qed.

Lemma memory_functions_witness :
  exists m', memmove 101 100 3 two_strings = Ret 101 m' /\ forall x, m' x = copy two_strings 101 100 3 x.
Proof. exact (proj1 (memory_functions two_strings 101 100 0 3 two_strings_bytes ltac:(lia))). Defined.

Lemma strncpy_overrun_witness :
  exists m', strncpy 300 100 8 two_strings = Ret 300 m' /\ m' 308 = 0.
Proof.
  destruct (strncpy_overrun two_strings 300 100 8 [97; 98; 99] two_strings_bytes (proj1 two_strings_at) ltac:(lia)
    ltac:(simpl; lia)) as (m' & E & _ & H).
  exists m'. split; [exact E|]. apply H. simpl. lia.
Defined.

Lemma string_compare_witness : strncmp 100 200 2 two_strings = Ret (-1) two_strings.
Proof.
  exact (proj2 (proj2 (string_compare two_strings 100 200 2 [97; 98; 99] [97; 98; 100] 3 (proj1 two_strings_at)
    (proj2 two_strings_at) ltac:(lia) ltac:(simpl; lia))) [97; 98] 99 100 [] [] eq_refl eq_refl eq_refl).
Defined.
