(* ===== verification/WsFrame.v ===== *)
(** * WsFrame

    src/src/frame.c: the frames of the WebSocket protocol.  Buffers are lists of
    bytes; [htons], [ntohs], [htobe64] and [be64toh] swap the bytes of a word, the
    processor being little-endian. *)
From S2P Require Import Prelude Ipc Mem Bytes.

(** ** Data *)
Record ws_frame_header_t : Type := WsHeader {
  fin : Z;
  rsv1 : Z;
  rsv2 : Z;
  rsv3 : Z;
  opcode : Z;
  mask : Z;
  payload_len : Z;
  masking_key : list Z;
  payload_length : Z
}.

Definition set_payload_length (v : Z) (x : ws_frame_header_t) : ws_frame_header_t := {|
  fin := fin x; rsv1 := rsv1 x; rsv2 := rsv2 x; rsv3 := rsv3 x; opcode := opcode x; mask := mask x;
  payload_len := payload_len x; masking_key := masking_key x; payload_length := v |}.
Definition set_masking_key (v : list Z) (x : ws_frame_header_t) : ws_frame_header_t := {|
  fin := fin x; rsv1 := rsv1 x; rsv2 := rsv2 x; rsv3 := rsv3 x; opcode := opcode x; mask := mask x;
  payload_len := payload_len x; masking_key := v; payload_length := payload_length x |}.

(** ** Operations *)
Definition byte_at (data : list Z) (i : nat) : Z := default 0 (data !! i).

Definition ws_mask_payload (payload key : list Z) : list Z :=
  imap (fun i b => Z.lxor b (byte_at key (i mod 4))) payload.

(** The result and the header as far as it is filled in. *)
Definition ws_parse_frame_header (data : list Z) (header : ws_frame_header_t) : Z * ws_frame_header_t :=
  let len := Z.of_nat (length data) in
  if len <? 2 then (-1, header) else
  let d0 := byte_at data 0 in
  let d1 := byte_at data 1 in
  let header := {|
    fin := Z.land (Z.shiftr d0 7) 1; rsv1 := Z.land (Z.shiftr d0 6) 1; rsv2 := Z.land (Z.shiftr d0 5) 1;
    rsv3 := Z.land (Z.shiftr d0 4) 1; opcode := Z.land d0 15; mask := Z.land (Z.shiftr d1 7) 1;
    payload_len := Z.land d1 127; masking_key := masking_key header; payload_length := payload_length header |} in
  let extended : option (Z * ws_frame_header_t) :=
    if payload_len header =? 126 then
      if len <? 4 then None else
      Some (4, set_payload_length (byte_swap 2 (le_value (slice 2 2 data))) header)
    else if payload_len header =? 127 then
      if len <? 10 then None else
      Some (10, set_payload_length (byte_swap 8 (le_value (slice 2 8 data))) header)
    else Some (2, set_payload_length (payload_len header) header) in
  match extended with
  | None => (-1, header)
  | Some (header_size, header) =>
      if negb (mask header =? 0) then
        if len <? header_size + 4 then (-1, header) else
        (header_size + 4, set_masking_key (slice (Z.to_nat header_size) 4 data) header)
      else (header_size, header)
  end.

(** The header size before the masking key, or [None] for a buffer too small. *)
Definition base_size (buffer_size len : Z) : option Z :=
  if len <=? 125 then if buffer_size <? 2 then None else Some 2
  else if len <=? 65535 then if buffer_size <? 4 then None else Some 4
  else if buffer_size <? 10 then None else Some 10.

(** The result and the buffer afterwards. *)
Definition ws_build_frame (buffer : list Z) (op : Z) (data : list Z) (masked : bool) (key : list Z) : Z * list Z :=
  let buffer_size := Z.of_nat (length buffer) in
  let len := Z.of_nat (length data) in
  match base_size buffer_size len with
  | None => (-1, buffer)
  | Some base =>
      let header_size := if masked then base + 4 else base in
      if buffer_size <? u32 (header_size + len) then (-1, buffer) else
      let buffer := splice 0 [Z.lor 128 (Z.land op 15)] buffer in
      let buffer :=
        if len <=? 125 then splice 1 [u8 (if masked then Z.lor 128 len else len)] buffer
        else if len <=? 65535 then
          let buffer := splice 1 [if masked then 254 else 126] buffer in
          splice 2 (le_bytes 2 (byte_swap 2 len)) buffer
        else
          let buffer := splice 1 [if masked then 255 else 127] buffer in
          splice 2 (le_bytes 8 (byte_swap 8 len)) buffer in
      let buffer :=
        if masked then
          let buffer := splice (Z.to_nat header_size - 4) (take 4 key) buffer in
          let buffer := splice (Z.to_nat header_size) data buffer in
          splice (Z.to_nat header_size) (ws_mask_payload (slice (Z.to_nat header_size) (length data) buffer) key) buffer
        else splice (Z.to_nat header_size) data buffer in
      (i32 (header_size + len), buffer)
  end.

(** ** The frame *)

(** The second byte and the extended length. *)
Definition length_bytes (masked : bool) (len : Z) : list Z :=
  let bit := if masked then 128 else 0 in
  if len <=? 125 then [bit + len]
  else if len <=? 65535 then (bit + 126) :: le_bytes 2 (byte_swap 2 len)
  else (bit + 127) :: le_bytes 8 (byte_swap 8 len).
Definition frame_header (op : Z) (len : Z) (masked : bool) (key : list Z) : list Z :=
  Z.lor 128 (Z.land op 15) :: length_bytes masked len ++ (if masked then key else []).
Definition frame_payload (data : list Z) (masked : bool) (key : list Z) : list Z :=
  if masked then ws_mask_payload data key else data.

Lemma mask_length p key : length (ws_mask_payload p key) = length p.
Proof. apply length_imap. Qed.

Lemma mask_twice p key : ws_mask_payload (ws_mask_payload p key) key = p.
Proof.
  apply list_eq. intros i. unfold ws_mask_payload. rewrite !list_lookup_imap. destruct (p !! i) as [b|]; [|done].
  simpl. by rewrite Z.lxor_assoc, Z.lxor_nilpotent, Z.lxor_0_r.
Qed.

(** A bit above a number below it. *)
Lemma lor_high_bit n : 0 <= n <= 127 -> Z.lor 128 n = 128 + n.
Proof. intros H. exact (lor_add 7 1 n ltac:(lia) ltac:(lia)). Qed.

(** Writing, reading back and masking the payload in place. *)
Lemma write_masked (pre rest data key : list Z) o :
  o = length pre ->
  let b := splice o data (pre ++ rest) in
  splice o (ws_mask_payload (slice o (length data) b) key) b = (pre ++ ws_mask_payload data key) ++ drop (length data) rest.
Proof.
  intros -> b. assert (Hb : b = pre ++ (data ++ drop (length data) rest)).
  { unfold b. rewrite splice_next by done. by rewrite <- app_assoc. }
  rewrite Hb. replace (slice _ _ _) with data.
  - rewrite splice_next by done. by rewrite mask_length, drop_app_length.
  - unfold slice. by rewrite drop_app_length, take_app_length.
Qed.

(** The two or more bytes before the key, and how [ws_build_frame] writes them. *)
Lemma base_size_spec buffer_size len masked :
  0 <= len -> base_size buffer_size len
  = (if buffer_size <? Z.of_nat (S (length (length_bytes masked len))) then None
     else Some (Z.of_nat (S (length (length_bytes masked len))))).
Proof.
  intros Hlen. unfold base_size, length_bytes. by destruct (len <=? 125); [|destruct (len <=? 65535)].
Qed.

Lemma ws_build_frame_spec buffer op data masked key :
  length key = 4%nat -> Z.of_nat (length data) < 1073741824 ->
  let header := frame_header op (Z.of_nat (length data)) masked key in
  let frame := header ++ frame_payload data masked key in
  ws_build_frame buffer op data masked key
  = if decide (length frame <= length buffer)%nat then (Z.of_nat (length frame), frame ++ drop (length frame) buffer)
    else (-1, buffer).
Proof.
  intros Hkey Hlen header frame. unfold ws_build_frame. set (len := Z.of_nat (length data)) in *.
  rewrite (base_size_spec _ len masked) by lia. set (lb := length_bytes masked len).
  assert (Hfl : length frame = (S (length lb) + (if masked then 4 else 0) + length data)%nat).
  { unfold frame, header, frame_header, frame_payload. rewrite !length_app. simpl. rewrite length_app. fold lb.
    destruct masked; rewrite ?mask_length; simpl; lia. }
  assert (Hlb : (length lb <= 9)%nat).
  { unfold lb, length_bytes. repeat case_match; simpl; rewrite ?le_bytes_length; lia. }
  destruct (Z.ltb_spec (Z.of_nat (length buffer)) (Z.of_nat (S (length lb)))) as [Hb|Hb].
  { rewrite decide_False by (rewrite Hfl; lia). done. }
  set (hs := if masked then _ else _).
  assert (Hhs : hs = Z.of_nat (S (length lb) + (if masked then 4 else 0))) by (unfold hs; destruct masked; lia).
  rewrite u32_small by (rewrite Hhs; destruct masked; lia).
  destruct (Z.ltb_spec (Z.of_nat (length buffer)) (hs + len)) as [Hb2|Hb2].
  { rewrite decide_False by (rewrite Hfl; lia). done. }
  rewrite decide_True by (rewrite Hfl; lia). f_equal.
  { rewrite i32_small by (rewrite Hhs; destruct masked; lia). rewrite Hfl, Hhs. lia. }
  set (first := Z.lor 128 (Z.land op 15)).
  assert (Hwrite : (if len <=? 125 then splice 1 [u8 (if masked then Z.lor 128 len else len)] (splice 0 [first] buffer)
     else if len <=? 65535
          then splice 2 (le_bytes 2 (byte_swap 2 len)) (splice 1 [if masked then 254 else 126] (splice 0 [first] buffer))
          else splice 2 (le_bytes 8 (byte_swap 8 len)) (splice 1 [if masked then 255 else 127] (splice 0 [first] buffer)))
     = (first :: lb) ++ drop (S (length lb)) buffer).
  { change (splice 0 [first] buffer) with (splice 0 [first] ([] ++ buffer)). rewrite (splice_next [] [first] buffer 0) by done. unfold lb, length_bytes.
    destruct (Z.leb_spec len 125).
    - rewrite splice_next by done. rewrite drop_drop. simpl. do 3 f_equal.
      destruct masked; [rewrite lor_high_bit by lia; by rewrite u8_small by lia|by rewrite u8_small by lia].
    - destruct (Z.leb_spec len 65535); rewrite !splice_next by done; rewrite !drop_drop; simpl; by destruct masked. }
  cbv zeta. rewrite Hwrite. clear Hwrite. set (pre := first :: lb). set (rest := drop (S (length lb)) buffer).
  assert (Hto : Z.to_nat hs = (length pre + (if masked then 4 else 0))%nat) by (rewrite Hhs; unfold pre; simpl; destruct masked; lia).
  rewrite Hto. assert (Hframe : frame = (pre ++ (if masked then key else [])) ++ frame_payload data masked key) by done.
  rewrite Hframe. unfold rest, frame_payload. destruct masked.
  - replace (length pre + 4 - 4)%nat with (length pre) by lia. rewrite firstn_all2 by lia.
    rewrite (splice_next pre key) by done. rewrite write_masked by (rewrite length_app; lia).
    rewrite !drop_drop. rewrite !length_app, mask_length. by rewrite !Nat.add_assoc.
  - rewrite Nat.add_0_r, app_nil_r. rewrite splice_next by done. by rewrite drop_drop, !length_app.
Qed.

Lemma build_length_bytes_range masked len : 0 <= len -> Forall (fun b => 0 <= b < 256) (length_bytes masked len).
Proof.
  intros H. unfold length_bytes. destruct (Z.leb_spec len 125).
  - repeat constructor; destruct masked; lia.
  - destruct (Z.leb_spec len 65535); constructor; try (destruct masked; lia); apply le_bytes_range.
Qed.

(** ** Reading a frame back *)
Lemma first_byte op :
  let d0 := Z.lor 128 (Z.land op 15) in
  Z.land (Z.shiftr d0 7) 1 = 1 /\ Z.land (Z.shiftr d0 6) 1 = 0 /\ Z.land (Z.shiftr d0 5) 1 = 0 /\
  Z.land (Z.shiftr d0 4) 1 = 0 /\ Z.land d0 15 = Z.land op 15.
Proof.
  assert (Hx : 0 <= Z.land op 15 < 16).
  { change 15 with (Z.ones 4). rewrite Z.land_ones by lia. by apply Z.mod_pos_bound. }
  generalize dependent (Z.land op 15). intros x Hx.
  rewrite <- (Z2Nat.id x) by lia. assert (Hn : (Z.to_nat x < 16)%nat) by lia. generalize dependent (Z.to_nat x). intros n Hn.
  do 16 (destruct n as [|n]; [repeat split|]). lia.
Qed.

Lemma second_byte masked v :
  0 <= v < 128 ->
  let d1 := (if masked : bool then 128 else 0) + v in
  Z.land (Z.shiftr d1 7) 1 = (if masked then 1 else 0) /\ Z.land d1 127 = v.
Proof.
  intros Hv d1. change 127 with (Z.ones 7). change 1 with (Z.ones 1) at 1.
  rewrite !Z.land_ones, Z.shiftr_div_pow2 by lia. change (2 ^ 7) with 128. change (2 ^ 1) with 2. unfold d1.
  destruct masked.
  - split; Z.div_mod_to_equations; lia.
  - split; Z.div_mod_to_equations; lia.
Qed.

Lemma slice_at {A} (pre d rest : list A) : slice (length pre) (length d) (pre ++ d ++ rest) = d.
Proof. unfold slice. by rewrite drop_app_length, take_app_length. Qed.

(** What [ws_parse_frame_header] finds at the start of a frame. *)
Lemma ws_parse_spec op len masked key rest h0 :
  length key = 4%nat -> 0 <= len < 1073741824 ->
  ws_parse_frame_header (frame_header op len masked key ++ rest) h0
  = (Z.of_nat (length (frame_header op len masked key)),
     {| fin := 1; rsv1 := 0; rsv2 := 0; rsv3 := 0; opcode := Z.land op 15; mask := if masked then 1 else 0;
        payload_len := (if len <=? 125 then len else if len <=? 65535 then 126 else 127);
        masking_key := if masked then key else masking_key h0; payload_length := len |}).
Proof.
  intros Hkey Hlen. destruct (first_byte op) as (F1 & F2 & F3 & F4 & F5).
  set (v := if len <=? 125 then len else if len <=? 65535 then 126 else 127).
  set (ext := if len <=? 125 then [] else if len <=? 65535 then le_bytes 2 (byte_swap 2 len) else le_bytes 8 (byte_swap 8 len)).
  set (ks := if masked then key else []).
  assert (Hv : 0 <= v < 128) by (unfold v; destruct (Z.leb_spec len 125); [lia|]; destruct (len <=? 65535); lia).
  destruct (second_byte masked v Hv) as [M1 M2]. cbv zeta in *.
  assert (Hh : frame_header op len masked key = Z.lor 128 (Z.land op 15) :: ((if masked then 128 else 0) + v) :: ext ++ ks).
  { unfold frame_header, length_bytes, v, ext, ks. by destruct (len <=? 125); [|destruct (len <=? 65535)]. }
  rewrite Hh. set (data := _ ++ rest).
  assert (Hdl : Z.of_nat (length data) = 2 + Z.of_nat (length ext) + Z.of_nat (length ks) + Z.of_nat (length rest)).
  { unfold data. rewrite length_app. simpl length. rewrite length_app. lia. }
  assert (Hks : Z.of_nat (length ks) = if masked then 4 else 0) by (unfold ks; destruct masked; simpl; lia).
  assert (He : slice 2 (length ext) data = ext).
  { unfold data. rewrite app_comm_cons, app_comm_cons, <- app_assoc. exact (slice_at [_; _] ext (ks ++ rest)). }
  assert (Hk : slice (2 + length ext) (length ks) data = ks).
  { unfold data. rewrite !app_comm_cons, <- app_assoc.
    pose proof (slice_at (Z.lor 128 (Z.land op 15) :: ((if masked then 128 else 0) + v) :: ext) ks rest) as H.
    exact H. }
  assert (Hd0 : byte_at data 0 = Z.lor 128 (Z.land op 15)) by done.
  assert (Hd1 : byte_at data 1 = (if masked then 128 else 0) + v) by done.
  unfold ws_parse_frame_header. rewrite Hd0, Hd1, F1, F2, F3, F4, F5, M1, M2.
  destruct (Z.ltb_spec (Z.of_nat (length data)) 2); [lia|]. cbv zeta. cbn [payload_len mask masking_key payload_length].
  assert (HL : Z.of_nat (length (Z.lor 128 (Z.land op 15) :: ((if masked then 128 else 0) + v) :: ext ++ ks))
     = 2 + Z.of_nat (length ext) + Z.of_nat (length ks)) by (simpl length; rewrite length_app; lia).
  rewrite HL. clearbody data. clear HL Hh Hd0 Hd1 M1 M2.
  assert (Hmask : forall (hs : nat) h, mask h = (if masked then 1 else 0) -> slice hs (length ks) data = ks ->
     Z.of_nat (length data) >= Z.of_nat hs + Z.of_nat (length ks) ->
     (if negb (mask h =? 0)
      then if Z.of_nat (length data) <? Z.of_nat hs + 4 then (-1, h)
           else (Z.of_nat hs + 4, set_masking_key (slice (Z.to_nat (Z.of_nat hs)) 4 data) h)
      else (Z.of_nat hs, h))
     = (Z.of_nat hs + Z.of_nat (length ks), if masked then set_masking_key key h else h)).
  { intros hs h Hm Hs Hge. rewrite Hm. unfold ks in *. destruct masked; simpl.
    - destruct (Z.ltb_spec (Z.of_nat (length data)) (Z.of_nat hs + 4)); [lia|]. rewrite Nat2Z.id. rewrite Hkey in *. by rewrite Hs.
    - f_equal. lia. }
  unfold v, ext in *. clear v ext. destruct (Z.leb_spec len 125); [|destruct (Z.leb_spec len 65535)].
  - destruct (Z.eqb_spec len 126); [lia|]. destruct (Z.eqb_spec len 127); [lia|].
    rewrite (Hmask 2%nat) by (done || simpl in *; lia). f_equal. by destruct masked.
  - rewrite Z.eqb_refl. destruct (Z.ltb_spec (Z.of_nat (length data)) 4); [simpl in *; lia|].
    change (length (le_bytes 2 _)) with 2%nat in He. rewrite He.
    rewrite (Hmask 4%nat) by (done || simpl in *; lia). f_equal.
    rewrite le_value_bytes, byte_swap_twice; [by destruct masked|simpl; lia|].
    apply byte_swap_range.
  - destruct (Z.eqb_spec 127 126); [done|]. rewrite Z.eqb_refl.
    destruct (Z.ltb_spec (Z.of_nat (length data)) 10); [simpl in *; lia|].
    change (length (le_bytes 8 _)) with 8%nat in He. rewrite He.
    rewrite (Hmask 10%nat) by (done || simpl in *; lia). f_equal.
    rewrite le_value_bytes, byte_swap_twice; [by destruct masked|simpl; lia|].
    apply byte_swap_range.
Qed.

(** The payload a receiver of the header [h], of [hs] bytes, takes from the buffer. *)
Definition received (h : ws_frame_header_t) (hs : nat) (buffer : list Z) : list Z :=
  let p := slice hs (Z.to_nat (payload_length h)) buffer in
  if mask h =? 0 then p else ws_mask_payload p (masking_key h).


Definition no_header : ws_frame_header_t := {|
  fin := 0; rsv1 := 0; rsv2 := 0; rsv3 := 0; opcode := 0; mask := 0; payload_len := 0; masking_key := []; payload_length := 0 |}.

