(* ===== verification/Mmu.v ===== *)
(** * Mmu

    src/src/mmu.c: the first-level translation table, with one section of 1 MiB per
    entry, and the coprocessor registers.  The inline assembly writes the domain
    access, translation base and control registers and invalidates the TLB; cache
    maintenance changes no state of the model. *)
From S2P Require Import Prelude Mem Bytes.

(** ** Data *)
Definition AP_SYS_ACCESS : Z := 1.
Definition AP_USER_RW : Z := 3.
Definition SECTION_TYPE : Z := 2.
Definition FIRST_LEVEL_TABLE : Z := 1879064576.

(** [tlb]: the translations the processor holds. *)
Record mmu : Type := MmuState {
  table : Z -> Z;
  tlb : Z -> option Z;
  dacr : Z;
  ttbr : Z;
  sctlr : Z
}.
Definition set_table (v : Z -> Z) (x : mmu) : mmu := {|
  table := v; tlb := tlb x; dacr := dacr x; ttbr := ttbr x; sctlr := sctlr x |}.
Definition set_tlb (v : Z -> option Z) (x : mmu) : mmu := {|
  table := table x; tlb := v; dacr := dacr x; ttbr := ttbr x; sctlr := sctlr x |}.
Definition set_dacr (v : Z) (x : mmu) : mmu := {|
  table := table x; tlb := tlb x; dacr := v; ttbr := ttbr x; sctlr := sctlr x |}.
Definition set_ttbr (v : Z) (x : mmu) : mmu := {|
  table := table x; tlb := tlb x; dacr := dacr x; ttbr := v; sctlr := sctlr x |}.
Definition set_sctlr (v : Z) (x : mmu) : mmu := {|
  table := table x; tlb := tlb x; dacr := dacr x; ttbr := ttbr x; sctlr := v |}.

(** ** Operations *)
Definition write_entry (i e : Z) : Cmd mmu unit :=
  modify (fun s => set_table (fun j => if j =? i then e else table s j) s).
(** [for (; i < i + n; i++) first_level_table[i] = f(i)]. *)
Fixpoint write_entries (n : nat) (i : Z) (f : Z -> Z) : Cmd mmu unit :=
  match n with
  | O => ret tt
  | S n' => write_entry i (f i) ;;; write_entries n' (i + 1) f
  end.
Definition invalidate_tlb : Cmd mmu unit := modify (set_tlb (fun _ => None)).
Definition invalidate_tlb_entry (va : Z) : Cmd mmu unit :=
  modify (fun s => set_tlb (fun i => if i =? Z.shiftr va 20 then None else tlb s i) s).

Definition device_entry (i : Z) : Z :=
  u32 (Z.lor (Z.lor (Z.lor (Z.lor (Z.lor (Z.shiftl i 20) SECTION_TYPE) (Z.shiftl 0 3)) (Z.shiftl 0 2)) (Z.shiftl 0 5))
         (Z.shiftl AP_SYS_ACCESS 10)).
Definition ram_entry (i : Z) : Z :=
  u32 (Z.lor (Z.lor (Z.lor (Z.lor (Z.lor (Z.shiftl i 20) SECTION_TYPE) (Z.shiftl 1 3)) (Z.shiftl 1 2)) (Z.shiftl 0 5))
         (Z.shiftl AP_USER_RW 10)).

Definition mmu_init : Cmd mmu unit :=
  write_entries 4096 0 (fun _ => 0) ;;;
  modify (set_dacr 1431655765) ;;;
  write_entries 1024 0 device_entry ;;;
  write_entries 1024 1024 ram_entry ;;;
  modify (set_ttbr FIRST_LEVEL_TABLE) ;;;
  invalidate_tlb.

Definition mmu_enable : Cmd mmu unit :=
  let* s := get in modify (set_sctlr (Z.lor (sctlr s) 1)).
Definition mmu_disable : Cmd mmu unit :=
  let* s := get in modify (set_sctlr (Z.land (sctlr s) (Z.lnot 1))).

Definition mmu_map_section (va pa flags : Z) : Cmd mmu unit :=
  let index := Z.shiftr va 20 in
  write_entry index (Z.lor (Z.lor (Z.land pa 4293918720) flags) SECTION_TYPE) ;;;
  invalidate_tlb_entry va.

(** ** What an entry means

    The fields of a section descriptor of the architecture: the type in bits 1:0,
    the buffered, cached and access bits, and the base address in bits 31:20. *)
Definition entry_type (e : Z) : Z := Z.land e 3.
Definition entry_base (e : Z) : Z := Z.shiftr e 20.
Definition entry_cb (e : Z) : Z := Z.land (Z.shiftr e 2) 3.
Definition entry_ap (e : Z) : Z := Z.land (Z.shiftr e 10) 3.
(** The physical address, the cache bits and the access bits of an address. *)
Definition translate (e va : Z) : option (Z * Z * Z) :=
  if entry_type e =? SECTION_TYPE then Some (1048576 * entry_base e + va mod 1048576, entry_cb e, entry_ap e) else None.
Definition walk (s : mmu) (va : Z) : option (Z * Z * Z) := translate (table s (Z.shiftr va 20)) va.
(** The processor holds no translation that the table does not give. *)
Definition coherent (s : mmu) : Prop := forall i e, tlb s i = Some e -> e = table s i.

Lemma write_entries_spec n : forall i f s,
  exists s', write_entries n i f s = Ret tt s' /\ tlb s' = tlb s /\ dacr s' = dacr s /\ ttbr s' = ttbr s /\ sctlr s' = sctlr s /\
    forall j, table s' j = if decide (i <= j < i + Z.of_nat n) then f j else table s j.
Proof.
  induction n as [|n IH]; intros i f s.
  { exists s. split_and!; try done. intros j. by rewrite decide_False by lia. }
  cbn [write_entries]. unfold write_entry. erewrite bind_Ret by reflexivity.
  destruct (IH (i + 1) f (set_table (fun j => if j =? i then f i else table s j) s)) as (s' & E & H1 & H2 & H3 & H4 & Ht).
  exists s'. split_and!; try done. intros j. rewrite Ht. simpl.
  destruct (Z.eqb_spec j i) as [->|].
  - rewrite decide_False by lia. by rewrite decide_True by lia.
  - repeat case_decide; done || lia.
Qed.

(** ** Entries as numbers *)
Lemma translate_sum i c va :
  0 <= c < 1048576 -> c mod 4 = 2 ->
  translate (1048576 * i + c) va = Some (1048576 * i + va mod 1048576, c / 4 mod 4, c / 1024 mod 4).
Proof.
  intros Hc H2. unfold translate, entry_type, entry_base, entry_cb, entry_ap.
  change 3 with (Z.ones 2). rewrite !Z.land_ones, !Z.shiftr_div_pow2 by lia.
  change (2 ^ 2) with 4. change (2 ^ 20) with 1048576. change (2 ^ 10) with 1024.
  replace ((1048576 * i + c) mod 4) with 2 by (Z.div_mod_to_equations; lia). rewrite Z.eqb_refl.
  f_equal. f_equal; [f_equal|]; Z.div_mod_to_equations; lia.
Qed.

Lemma device_entry_sum i : 0 <= i < 4096 -> device_entry i = 1048576 * i + 1026.
Proof.
  intros Hi. unfold device_entry. rewrite <- !Z.lor_assoc.
  change (Z.lor SECTION_TYPE _) with 1026. rewrite (lor_add 20) by lia. apply u32_small. lia.
Qed.

Lemma ram_entry_sum i : 0 <= i < 4096 -> ram_entry i = 1048576 * i + 3086.
Proof.
  intros Hi. unfold ram_entry. rewrite <- !Z.lor_assoc.
  change (Z.lor SECTION_TYPE _) with 3086. rewrite (lor_add 20) by lia. apply u32_small. lia.
Qed.

(** The base of a physical address. *)
Lemma land_base pa : 0 <= pa < 4294967296 -> Z.land pa 4293918720 = Z.shiftl (Z.shiftr pa 20) 20.
Proof.
  intros Hpa. apply Z.bits_inj'. intros j Hj. change 4293918720 with (Z.shiftl (Z.ones 12) 20). rewrite Z.land_spec.
  destruct (decide (j < 20)); [by rewrite !Z.shiftl_spec_low, andb_false_r by lia|].
  rewrite !Z.shiftl_spec, Z.shiftr_spec, Z.testbit_ones by lia. replace (j - 20 + 20) with j by lia.
  destruct (decide (j < 32)).
  - rewrite (proj2 (Z.leb_le _ _)), (proj2 (Z.ltb_lt _ _)) by lia. by rewrite andb_true_r.
  - by rewrite (bits_high 32 pa) by lia.
Qed.

(** The entry of [mmu_map_section]: the base of [pa] and the flags. *)
Lemma section_entry_sum pa flags :
  0 <= pa < 4294967296 -> 0 <= flags < 1048576 ->
  Z.lor (Z.lor (Z.land pa 4293918720) flags) SECTION_TYPE = 1048576 * Z.shiftr pa 20 + Z.lor flags 2.
Proof.
  intros Hpa Hf. rewrite <- Z.lor_assoc, land_base by done. apply (lor_add 20); [lia|]. apply lor_bound; lia.
Qed.

(** The type, the cache bits and the access bits of the flags with the section type. *)
Lemma flags_fields flags :
  0 <= flags < 1048576 -> Z.testbit flags 0 = false ->
  let c := Z.lor flags 2 in
  0 <= c < 1048576 /\ c mod 4 = 2 /\ c / 4 mod 4 = Z.land (Z.shiftr flags 2) 3 /\ c / 1024 mod 4 = Z.land (Z.shiftr flags 10) 3.
Proof.
  intros Hf H0 c. split; [apply (lor_bound 20); lia|].
  assert (Hsh : forall k, 2 <= k -> c / 2 ^ k mod 4 = Z.land (Z.shiftr flags k) 3).
  { intros k Hk. rewrite <- Z.shiftr_div_pow2 by lia. change 4 with (2 ^ 2). rewrite <- Z.land_ones by lia.
    change (Z.ones 2) with 3. f_equal. unfold c. rewrite Z.shiftr_lor. rewrite (Z.shiftr_eq_0 2 k), Z.lor_0_r; [done|lia|].
    change (Z.log2 2) with 1. lia. }
  split_and!; [|by apply (Hsh 2)|by apply (Hsh 10)].
  change 4 with (2 ^ 2). rewrite <- Z.land_ones by lia. unfold c. rewrite Z.land_lor_distr_l. change (Z.land 2 (Z.ones 2)) with 2.
  apply Z.bits_inj'. intros j Hj. rewrite Z.lor_spec, Z.land_spec, Z.testbit_ones by lia.
  destruct (decide (j = 0)) as [->|]; [by rewrite H0|]. destruct (decide (j = 1)) as [->|]; [apply orb_true_r|].
  rewrite (proj2 (Z.ltb_ge j 2)) by lia. by rewrite !andb_false_r.
Qed.

Lemma coherent_map s va e :
  coherent s -> coherent (set_tlb (fun i => if i =? Z.shiftr va 20 then None else tlb s i)
                            (set_table (fun j => if j =? Z.shiftr va 20 then e else table s j) s)).
Proof.
  intros Hc i e' H. simpl in *. destruct (i =? Z.shiftr va 20); [done|]. by apply Hc.
Qed.

(** What every address translates to after [mmu_init]. *)
Definition flat (va : Z) : option (Z * Z * Z) :=
  if decide (va < 1073741824) then Some (va, 0, 1) else if decide (va < 2147483648) then Some (va, 3, 3) else None.
Lemma mmu_init_spec s :
  exists s', mmu_init s = Ret tt s' /\ tlb s' = (fun _ => None) /\ sctlr s' = sctlr s /\
    forall va, 0 <= va < 4294967296 -> walk s' va = flat va.
Proof.
  unfold mmu_init. destruct (write_entries_spec 4096 0 (fun _ => 0) s) as (s1 & E1 & _ & _ & _ & C1 & T1).
  rewrite (bind_Ret _ _ _ _ _ E1). erewrite bind_Ret by reflexivity.
  destruct (write_entries_spec 1024 0 device_entry (set_dacr 1431655765 s1)) as (s2 & E2 & _ & _ & _ & C2 & T2).
  rewrite (bind_Ret _ _ _ _ _ E2). destruct (write_entries_spec 1024 1024 ram_entry s2) as (s3 & E3 & _ & _ & _ & C3 & T3).
  rewrite (bind_Ret _ _ _ _ _ E3). erewrite bind_Ret by reflexivity. eexists. split; [reflexivity|]. split; [done|].
  split; [cbn; rewrite C3, C2; exact C1|].
  intros va Hva. unfold walk, flat. simpl. rewrite Z.shiftr_div_pow2 by lia. change (2 ^ 20) with 1048576.
  rewrite T3, T2. simpl. rewrite T1. set (i := va / 1048576).
  assert (Hi : 0 <= i < 4096 /\ va = 1048576 * i + va mod 1048576) by (unfold i; Z.div_mod_to_equations; lia).
  assert (Hlow : va < 1073741824 <-> i < 1024) by (Z.div_mod_to_equations; lia).
  assert (Hhigh : va < 2147483648 <-> i < 2048) by (Z.div_mod_to_equations; lia).
  repeat case_decide; try (exfalso; lia).
  + rewrite ram_entry_sum by lia. rewrite translate_sum by (lia || done). by rewrite <- (proj2 Hi).
  + rewrite device_entry_sum by lia. rewrite translate_sum by (lia || done). by rewrite <- (proj2 Hi).
  + done.
Qed.


Definition reset_state : mmu := {| table := fun _ => 0; tlb := fun _ => None; dacr := 0; ttbr := 0; sctlr := 0 |}.

