(* ===== verification/MmuConfig.v ===== *)
(** * MmuConfig

    src/src/mmu_config.c: the other [mmu_init] of the sources, which builds the
    table from a list of regions.  The table and the registers are those of Mmu. *)
From S2P Require Import Prelude Mem Bytes Mmu.

(** ** Data *)
Definition SECTION_SIZE : Z := 1048576.
Definition TOTAL_SECTIONS : nat := 4096.
Definition PAGE_TABLE_BASE : Z := 1879064576.
Definition PERIPH_BASE : Z := 268435456.
Definition PERIPH_SIZE : Z := 32 * SECTION_SIZE.
Definition RAM_BASE : Z := 1879048192.
Definition RAM_SIZE : Z := 128 * SECTION_SIZE.
Definition USER_SPACE_BASE : Z := 2147483648.
Definition USER_SPACE_SIZE : Z := 256 * SECTION_SIZE.
Definition MMU_SECTION : Z := 2.
Definition MMU_CACHEABLE : Z := Z.shiftl 1 3.
Definition MMU_BUFFERABLE : Z := Z.shiftl 1 2.
Definition MMU_ACCESS_RW : Z := Z.shiftl 3 10.
Definition MMU_ACCESS_RO : Z := Z.shiftl 2 10.
Definition MMU_DOMAIN : Z := Z.shiftl 0 5.

Inductive memory_type_t : Type :=
  UNMAPPED | STRONGLY_ORDERED | DEVICE | NORMAL_CACHED | NORMAL_UNCACHED.

(** [access_permissions] and [executable] are [uint8_t]. *)
Record memory_region_t : Type := MemoryRegion {
  virtual_addr : Z;
  physical_addr : Z;
  size : Z;
  type : memory_type_t;
  access_permissions : Z;
  executable : Z
}.

(** ** Operations *)
Definition create_section_entry (pa : Z) (ty : memory_type_t) (ap : Z) : Z :=
  let entry := Z.land pa 4293918720 in
  let entry := Z.lor entry MMU_SECTION in
  let entry := Z.lor entry MMU_DOMAIN in
  let entry := match ty with
               | STRONGLY_ORDERED => entry
               | DEVICE => Z.lor entry MMU_BUFFERABLE
               | NORMAL_CACHED => Z.lor entry (Z.lor MMU_CACHEABLE MMU_BUFFERABLE)
               | NORMAL_UNCACHED => entry
               | UNMAPPED => entry
               end in
  Z.lor entry (u32 (Z.shiftl ap 10)).

Fixpoint configure_sections (n : nat) (i virt_section phys_section : Z) (region : memory_region_t) : Cmd mmu unit :=
  match n with
  | O => ret tt
  | S n' =>
      write_entry (u32 (virt_section + i))
        (create_section_entry (u32 (u32 (phys_section + i) * SECTION_SIZE)) (type region) (access_permissions region)) ;;;
      configure_sections n' (i + 1) virt_section phys_section region
  end.
Definition configure_memory_region (region : memory_region_t) : Cmd mmu unit :=
  let num_sections := size region / SECTION_SIZE in
  let virt_section := virtual_addr region / SECTION_SIZE in
  let phys_section := physical_addr region / SECTION_SIZE in
  configure_sections (Z.to_nat num_sections) 0 virt_section phys_section region.

(** The initialiser converts the permissions to the type of the field. *)
Definition regions : list memory_region_t := [
  {| virtual_addr := PERIPH_BASE; physical_addr := PERIPH_BASE; size := PERIPH_SIZE; type := STRONGLY_ORDERED;
     access_permissions := u8 MMU_ACCESS_RW; executable := 0 |};
  {| virtual_addr := RAM_BASE; physical_addr := RAM_BASE; size := RAM_SIZE; type := NORMAL_CACHED;
     access_permissions := u8 MMU_ACCESS_RW; executable := 1 |};
  {| virtual_addr := USER_SPACE_BASE; physical_addr := RAM_BASE + RAM_SIZE; size := USER_SPACE_SIZE; type := NORMAL_CACHED;
     access_permissions := u8 MMU_ACCESS_RO; executable := 0 |} ].

Definition mmu_init : Cmd mmu unit :=
  write_entries TOTAL_SECTIONS 0 (fun _ => 0) ;;;
  for_each regions configure_memory_region ;;;
  modify (set_dacr 1) ;;;
  modify (set_ttbr PAGE_TABLE_BASE) ;;;
  invalidate_tlb.

(** ** The table *)
Lemma configure_sections_spec n : forall i vs ps r s,
  0 <= i -> 0 <= vs -> 0 <= ps -> vs + i + Z.of_nat n <= 4096 -> ps + i + Z.of_nat n <= 4096 ->
  exists s', configure_sections n i vs ps r s = Ret tt s' /\ tlb s' = tlb s /\
    forall j, table s' j = if decide (vs + i <= j < vs + i + Z.of_nat n)
                          then create_section_entry ((ps + (j - vs)) * SECTION_SIZE) (type r) (access_permissions r)
                          else table s j.
Proof.
  induction n as [|n IH]; intros i vs ps r s Hi Hvs Hps Hv Hp.
  { exists s. split_and!; try done. intros j. by rewrite decide_False by lia. }
  cbn [configure_sections]. unfold write_entry. erewrite bind_Ret by reflexivity.
  match goal with |- context [configure_sections n _ _ _ _ ?s1] => destruct (IH (i + 1) vs ps r s1) as (s' & E & Ht & H); [lia..|] end.
  exists s'. split; [exact E|]. split; [done|]. intros j. rewrite H. simpl. unfold SECTION_SIZE.
  rewrite !u32_small by (rewrite ?u32_small; lia).
  destruct (Z.eqb_spec j (vs + i)) as [->|]; repeat case_decide; try lia; try done.
  do 2 f_equal. lia.
Qed.

Lemma configure_memory_region_spec r s :
  0 <= virtual_addr r -> 0 <= physical_addr r -> 0 <= size r -> virtual_addr r + size r <= 4294967296 ->
  physical_addr r + size r <= 4294967296 ->
  virtual_addr r mod SECTION_SIZE = 0 -> physical_addr r mod SECTION_SIZE = 0 -> size r mod SECTION_SIZE = 0 ->
  exists s', configure_memory_region r s = Ret tt s' /\ tlb s' = tlb s /\
    forall j, table s' j = if decide (virtual_addr r / SECTION_SIZE <= j < (virtual_addr r + size r) / SECTION_SIZE)
                          then create_section_entry (physical_addr r - virtual_addr r + j * SECTION_SIZE) (type r) (access_permissions r)
                          else table s j.
Proof.
  unfold SECTION_SIZE. intros Hv Hp Hs Hve Hpe Mv Mp Ms. unfold configure_memory_region, SECTION_SIZE.
  destruct (configure_sections_spec (Z.to_nat (size r / 1048576)) 0 (virtual_addr r / 1048576) (physical_addr r / 1048576) r s)
    as (s' & E & Ht & H); [lia|Z.div_mod_to_equations; lia..|].
  exists s'. split; [done|]. split; [done|]. intros j. rewrite H. unfold SECTION_SIZE.
  assert (Hsum : (virtual_addr r + size r) / 1048576 = virtual_addr r / 1048576 + size r / 1048576) by (Z.div_mod_to_equations; lia).
  rewrite Hsum. repeat case_decide; try (exfalso; Z.div_mod_to_equations; lia); [|done].
  f_equal. Z.div_mod_to_equations. lia.
Qed.

(** The bits of a type; the permissions of all regions are 0. *)
Definition type_bits (ty : memory_type_t) : Z :=
  match ty with DEVICE => 6 | NORMAL_CACHED => 14 | _ => 2 end.

Lemma create_section_entry_sum k ty :
  0 <= k < 4096 -> create_section_entry (k * SECTION_SIZE) ty 0 = 1048576 * k + type_bits ty.
Proof.
  intros Hk. unfold create_section_entry, SECTION_SIZE. rewrite land_base by lia.
  rewrite Z.shiftr_div_pow2 by lia. change (2 ^ 20) with 1048576. rewrite Z.div_mul by lia.
  change (u32 (Z.shiftl 0 10)) with 0. rewrite Z.lor_0_r. destruct ty; rewrite <- ?Z.lor_assoc; apply (lor_add 20); (lia || split; done).
Qed.

Lemma region_permissions r : r ∈ regions -> access_permissions r = 0.
Proof. unfold regions. set_solver. Qed.

(** One region written over a table. *)
Lemma region_table va pa sections ty s :
  0 <= va < 4096 -> 0 <= pa < 4096 -> 0 <= sections -> va + sections <= 4096 -> pa + sections <= 4096 ->
  exists s', configure_memory_region
      {| virtual_addr := va * SECTION_SIZE; physical_addr := pa * SECTION_SIZE; size := sections * SECTION_SIZE;
         type := ty; access_permissions := 0; executable := 0 |} s = Ret tt s' /\
    forall j, table s' j = if decide (va <= j < va + sections) then 1048576 * (pa + (j - va)) + type_bits ty else table s j.
Proof.
  intros Hva Hpa Hs Hve Hpe. unfold configure_memory_region, SECTION_SIZE. cbn [size virtual_addr physical_addr].
  rewrite !Z.div_mul by lia.
  destruct (configure_sections_spec (Z.to_nat sections) 0 va pa
    {| virtual_addr := va * 1048576; physical_addr := pa * 1048576; size := sections * 1048576;
       type := ty; access_permissions := 0; executable := 0 |} s) as (s' & E & _ & H); [lia..|].
  exists s'. split; [exact E|]. intros j. rewrite H. cbn [type access_permissions]. rewrite Z.add_0_r, Z2Nat.id by done.
  case_decide; [|done]. apply create_section_entry_sum. lia.
Qed.

(** [executable] is never read. *)
Lemma configure_executable r x s :
  configure_memory_region r s
  = configure_memory_region {| virtual_addr := virtual_addr r; physical_addr := physical_addr r; size := size r; type := type r;
       access_permissions := access_permissions r; executable := x |} s.
Proof.
  unfold configure_memory_region. cbn [size virtual_addr physical_addr]. generalize (Z.to_nat (size r / SECTION_SIZE)), 0.
  intros n. revert s. induction n as [|n IH]; intros s i; [done|]. cbn [configure_sections type access_permissions].
  unfold write_entry. do 2 erewrite (bind_Ret (modify _)) by reflexivity. apply IH.
Qed.

Lemma mmu_init_table s :
  exists s', mmu_init s = Ret tt s' /\ coherent s' /\
    forall j, 0 <= j < 4096 -> table s' j =
      if decide (2048 <= j < 2304) then 1048576 * (1920 + (j - 2048)) + 14
      else if decide (1792 <= j < 1920) then 1048576 * j + 14
      else if decide (256 <= j < 288) then 1048576 * j + 2 else 0.
Proof.
  unfold mmu_init. destruct (write_entries_spec TOTAL_SECTIONS 0 (fun _ => 0) s) as (s0 & E0 & _ & _ & _ & _ & T0).
  rewrite (bind_Ret _ _ _ _ _ E0). replace (Z.of_nat TOTAL_SECTIONS) with 4096 in T0 by (vm_compute; done).
  destruct (region_table 256 256 32 STRONGLY_ORDERED s0) as (s1 & E1 & T1); [lia..|].
  destruct (region_table 1792 1792 128 NORMAL_CACHED s1) as (s2 & E2 & T2); [lia..|].
  destruct (region_table 2048 1920 256 NORMAL_CACHED s2) as (s3 & E3 & T3); [lia..|].
  assert (Hf : for_each regions configure_memory_region s0 = Ret tt s3).
  { unfold regions. cbn [for_each]. rewrite (bind_Ret _ _ _ tt s1).
    2:{ rewrite (configure_executable _ 0). exact E1. }
    rewrite (bind_Ret _ _ _ tt s2).
    2:{ rewrite (configure_executable _ 0). exact E2. }
    rewrite (bind_Ret _ _ _ tt s3).
    2:{ rewrite (configure_executable _ 0). exact E3. }
    done. }
  rewrite (bind_Ret _ _ _ _ _ Hf). do 2 erewrite bind_Ret by reflexivity. eexists. split; [reflexivity|]. split; [done|].
  intros j Hj. simpl table. rewrite T3, T2, T1, T0. clear -Hj. simpl type_bits.
  repeat case_decide; lia.
Qed.

(** What an address of a region translates to. *)
Definition in_region (r : memory_region_t) (va : Z) : Prop := virtual_addr r <= va < virtual_addr r + size r.
Definition region_target (r : memory_region_t) (va : Z) : option (Z * Z * Z) :=
  Some (physical_addr r + (va - virtual_addr r), type_bits (type r) / 4, 0).

(** The table that src/src/mmu_config.c builds.  Addresses of the three regions
    translate to the physical range of the region with the cache bits of its type,
    and no other address translates; but [access_permissions] is a [uint8_t], and
    the access bits 10 and 11 put into it are lost: every section of the table is
    one that nobody may access, whatever the region asks for. *)
Theorem mmu_config_no_access (s : mmu) :
  exists s', mmu_init s = Ret tt s' /\ coherent s' /\
    forall va, 0 <= va < 4294967296 ->
      (forall r, r ∈ regions -> in_region r va -> walk s' va = region_target r va) /\
      ((forall r, r ∈ regions -> ~ in_region r va) -> walk s' va = None).
Proof.
  destruct (mmu_init_table s) as (s' & E & Hc & T). exists s'. split; [done|]. split; [done|]. clear E Hc. intros va Hva.
  set (i := va / 1048576). set (o := va mod 1048576).
  assert (Hio : va = 1048576 * i + o /\ 0 <= o < 1048576) by (unfold i, o; Z.div_mod_to_equations; lia).
  assert (Hw : walk s' va = translate (table s' i) va).
  { unfold walk. rewrite Z.shiftr_div_pow2 by lia. done. }
  rewrite Hw, T by lia. assert (Hmod : va mod 1048576 = o) by done. clearbody i o. clear Hw T.
  split.
  - intros r Hr Hin. assert (Ht : forall k c, 0 <= c < 1048576 -> c mod 4 = 2 -> c / 1024 mod 4 = 0 ->
      translate (1048576 * k + c) va = Some (1048576 * k + o, c / 4 mod 4, 0)).
    { intros k c H1 H2 H3. rewrite translate_sum by done. by rewrite H3, Hmod. }
    unfold regions in Hr. unfold in_region in Hin. unfold region_target.
    repeat (apply elem_of_cons in Hr as [->|Hr]); [..|by apply not_elem_of_nil in Hr]; simpl in *.
    all: unfold PERIPH_BASE, PERIPH_SIZE, RAM_BASE, RAM_SIZE, USER_SPACE_BASE, USER_SPACE_SIZE, SECTION_SIZE in *.
    all: repeat case_decide; try (exfalso; lia); rewrite Ht by done;
      match goal with |- Some (?a, _, _) = Some (?b, _, _) => replace a with b by lia; done end.
  - intros Hout. pose proof (fun n r H => Hout r (list_elem_of_lookup_2 regions n r H)) as H.
    pose proof (H 0%nat _ eq_refl) as H1. pose proof (H 1%nat _ eq_refl) as H2. pose proof (H 2%nat _ eq_refl) as H3.
    unfold in_region in *. simpl in *.
    unfold PERIPH_BASE, PERIPH_SIZE, RAM_BASE, RAM_SIZE, USER_SPACE_BASE, USER_SPACE_SIZE, SECTION_SIZE in *.
    repeat case_decide; try (exfalso; lia). done.
Qed.
