(* ===== verification/Mqtt.v ===== *)
(** * Mqtt

    src/src/mqtt_protocol.c: the remaining-length encoding and the CONNECT packet of
    MQTT 3.1.1.  The state is the packet buffer; an access outside of it is a
    fault, and the code, which never looks at [buflen], does not prevent one. *)
From S2P Require Import Prelude Ipc Mem Bytes.

(** ** Data *)
Definition MQTT_CONNECT : Z := 1.
Definition MQTT_PROTOCOL_V4 : Z := 4.
Definition MQTT_ERR_PROTOCOL : Z := -2.
Definition FLAG_USERNAME : Z := 128.
Definition FLAG_PASSWORD : Z := 64.
Definition FLAG_WILL_RETAIN : Z := 32.
Definition FLAG_WILL : Z := 4.
Definition FLAG_CLEAN_SESSION : Z := 2.

(** The fields of [mqtt_config_t] that go into the packet; [None] is NULL. *)
Record mqtt_config_t : Type := MqttConfig {
  client_id : list Z;
  username : option (list Z);
  password : option (list Z);
  keepalive : Z;
  clean_session : bool;
  will_topic : option (list Z);
  will_message : option (list Z);
  will_qos : Z;
  will_retain : bool
}.

(** ** Operations *)
Definition put_bytes (d : list Z) (len : nat) : Cmd (list Z) nat :=
  let* buf := get in
  if (len + length d <=? length buf)%nat then put (splice len d buf) ;;; ret (len + length d)%nat else fail Fault.
Definition put_byte (b : Z) (len : nat) : Cmd (list Z) nat := put_bytes [u8 b] len.
Definition get_byte (i : nat) : Cmd (list Z) Z := let* buf := get in deref (buf !! i).

(** [do ... while (length > 0)], writing from [buf + off + encoded] on. *)
Fixpoint encode_loop (fuel : nat) (off encoded : nat) (len : Z) : Cmd (list Z) nat :=
  let digit := len mod 128 in
  let len := len / 128 in
  let digit := if 0 <? len then Z.lor digit 128 else digit in
  let* _ := put_byte digit (off + encoded) in
  if 0 <? len then
    match fuel with O => fail NoFuel | S fuel' => encode_loop fuel' off (S encoded) len end
  else ret (S encoded).
Definition mqtt_encode_remaining_length (fuel off : nat) (len : Z) : Cmd (list Z) nat := encode_loop fuel off 0 len.

(** The result and [*value]; [n] is [4 - decoded]. *)
Fixpoint decode_loop (n : nat) (off decoded : nat) (multiplier len : Z) : Cmd (list Z) (Z * option Z) :=
  match n with
  | O => ret (MQTT_ERR_PROTOCOL, None)
  | S n' =>
      let* digit := get_byte (off + decoded) in
      let len := u32 (len + Z.land digit 127 * multiplier) in
      let multiplier := u32 (multiplier * 128) in
      if negb (Z.land digit 128 =? 0) then decode_loop n' off (S decoded) multiplier len
      else ret (Z.of_nat (S decoded), Some len)
  end.
Definition mqtt_decode_remaining_length (off : nat) : Cmd (list Z) (Z * option Z) := decode_loop 4 off 0 1 0.

(** [strlen], its two bytes, and the string. *)
Definition put_string (s : list Z) (len : nat) : Cmd (list Z) nat :=
  let n := Z.of_nat (length s) in
  let* len := put_byte (Z.shiftr n 8) len in
  let* len := put_byte (Z.land n 255) len in
  put_bytes s len.

(** A pointer that is not NULL. *)
Definition is_set (s : option (list Z)) : bool := match s with Some _ => true | None => false end.
Definition connect_flags (config : mqtt_config_t) : Z :=
  let f := 0 in
  let f := if clean_session config then Z.lor f FLAG_CLEAN_SESSION else f in
  let f := if is_set (username config) then Z.lor f FLAG_USERNAME else f in
  let f := if is_set (password config) then Z.lor f FLAG_PASSWORD else f in
  if is_set (will_topic config) then
    let f := Z.lor f FLAG_WILL in
    let f := Z.lor f (u8 (Z.shiftl (Z.land (will_qos config) 3) 3)) in
    if will_retain config then Z.lor f FLAG_WILL_RETAIN else f
  else f.

Definition put_optional (s : option (list Z)) (len : nat) : Cmd (list Z) nat :=
  match s with None => ret len | Some s => put_string s len end.

(** [memmove] within the buffer. *)
Definition move_bytes (dst src n : nat) : Cmd (list Z) unit :=
  let* buf := get in
  if (src + n <=? length buf)%nat && (dst + n <=? length buf)%nat
  then put (splice dst (slice src n buf) buf) else fail Fault.

(** The variable header and the payload. *)
Definition put_will (config : mqtt_config_t) (len : nat) : Cmd (list Z) nat :=
  match will_topic config with
  | None => ret len
  | Some topic =>
      let* len := put_string topic len in
      match will_message config with None => fail Fault | Some m => put_string m len end
  end.
Definition put_connect (config : mqtt_config_t) (len : nat) : Cmd (list Z) nat :=
  let* len := put_byte 0 len in
  let* len := put_byte 4 len in
  let* len := put_bytes [77; 81; 84; 84] len in
  let* len := put_byte MQTT_PROTOCOL_V4 len in
  let* len := put_byte (connect_flags config) len in
  let* len := put_byte (Z.shiftr (keepalive config) 8) len in
  let* len := put_byte (Z.land (keepalive config) 255) len in
  let* len := put_string (client_id config) len in
  let* len := put_will config len in
  let* len := put_optional (username config) len in
  put_optional (password config) len.

Definition mqtt_create_connect_packet (fuel : nat) (config : mqtt_config_t) : Cmd (list Z) Z :=
  let* len := put_byte (Z.shiftl MQTT_CONNECT 4) 0 in
  let* len := put_connect config (len + 4)%nat in
  let* n := mqtt_encode_remaining_length fuel 1 (Z.of_nat (len - 5)) in
  move_bytes (1 + n) 5 (len - 5) ;;;
  ret (Z.of_nat (len - (4 - n))).

(** ** Writers

    A writer that appends [d] at its index, or faults when there is no room. *)
Definition emits (c : nat -> Cmd (list Z) nat) (d : list Z) : Prop :=
  forall pre rest, c (length pre) (pre ++ rest)
    = if decide (length d <= length rest)%nat then Ret (length (pre ++ d)) (pre ++ d ++ drop (length d) rest) else Stop Fault.

Lemma emits_bytes d : emits (put_bytes d) d.
Proof.
  intros pre rest. unfold put_bytes. erewrite bind_Ret by reflexivity. rewrite length_app. case_decide as H.
  - rewrite (proj2 (Nat.leb_le _ _)) by lia. erewrite bind_Ret by reflexivity. rewrite splice_next by done.
    by rewrite length_app, <- app_assoc.
  - by rewrite (proj2 (Nat.leb_gt _ _)) by lia.
Qed.

Lemma emits_byte b : emits (put_byte b) [u8 b].
Proof. apply emits_bytes. Qed.

Lemma emits_ret : emits (fun len => ret len) [].
Proof. intros pre rest. rewrite decide_True by (simpl; lia). by rewrite app_nil_r. Qed.

Lemma emits_bind c k d e : emits c d -> emits k e -> emits (fun len => bind (c len) k) (d ++ e).
Proof.
  intros Hc Hk pre rest. specialize (Hc pre rest). rewrite length_app. destruct (decide (length d <= length rest)%nat) as [Hd|Hd].
  - rewrite (bind_Ret _ _ _ _ _ Hc). rewrite app_assoc, Hk, length_drop. case_decide as He.
    + rewrite decide_True by lia. rewrite drop_drop, <- !app_assoc. done.
    + by rewrite decide_False by lia.
  - rewrite (bind_Stop _ _ _ _ Hc). by rewrite decide_False by lia.
Qed.

Lemma emits_eq c d e : emits c d -> d = e -> emits c e.
Proof. by intros H <-. Qed.

(** A string with its length in two bytes. *)
Definition string_bytes (s : list Z) : list Z :=
  u8 (Z.shiftr (Z.of_nat (length s)) 8) :: u8 (Z.land (Z.of_nat (length s)) 255) :: s.
Definition optional_bytes (s : option (list Z)) : list Z := match s with Some s => string_bytes s | None => [] end.

Lemma emits_string s : emits (put_string s) (string_bytes s).
Proof.
  unfold put_string. eapply emits_eq; [apply emits_bind; [apply emits_byte|apply emits_bind; [apply emits_byte|apply emits_bytes]]|done].
Qed.

Lemma emits_optional s : emits (put_optional s) (optional_bytes s).
Proof. destruct s; [apply emits_string|apply emits_ret]. Qed.

(** ** The remaining length *)
Fixpoint varint (n : nat) (len : Z) : list Z :=
  match n with
  | O => [len mod 128]
  | S n' => if 0 <? len / 128 then 128 + len mod 128 :: varint n' (len / 128) else [len mod 128]
  end.

Lemma digit_bits d : 0 <= d < 128 -> Z.lor d 128 = 128 + d /\ Z.land (128 + d) 127 = d /\ Z.land (128 + d) 128 = 128 /\
  Z.land d 127 = d /\ Z.land d 128 = 0.
Proof.
  intros Hd. assert (Hlor : Z.lor d 128 = 128 + d) by (rewrite Z.lor_comm; exact (lor_add 7 1 d ltac:(lia) ltac:(lia))).
  split; [done|]. change 127 with (Z.ones 7). rewrite !Z.land_ones by lia. change (2 ^ 7) with 128.
  assert (H7 : Z.land d 128 = 0).
  { apply Z.bits_inj'. intros j Hj. change 128 with (2 ^ 7). rewrite Z.land_spec, Z.bits_0, Z.pow2_bits_eqb by lia.
    destruct (Z.eqb_spec 7 j) as [<-|]; [|apply andb_false_r]. by rewrite (bits_high 7 d) by lia. }
  split_and!; [Z.div_mod_to_equations; lia| |apply Z.mod_small; lia|done].
  rewrite <- Hlor, Z.land_lor_distr_l, H7. done.
Qed.

Lemma encode_loop_spec n : forall off encoded len pre rest fuel,
  length pre = (off + encoded)%nat -> 0 <= len < 128 ^ Z.of_nat (S n) -> (n <= fuel)%nat ->
  encode_loop fuel off encoded len (pre ++ rest)
  = if decide (length (varint n len) <= length rest)%nat
    then Ret (encoded + length (varint n len))%nat (pre ++ varint n len ++ drop (length (varint n len)) rest) else Stop Fault.
Proof.
  induction n as [|n IH]; intros off encoded len pre rest fuel Hpre Hlen Hfuel.
  - assert (Hq : len / 128 = 0) by (apply Z.div_small; simpl in Hlen; lia).
    pose proof (emits_byte (len mod 128) pre rest) as He. rewrite Hpre, u8_small in He by (Z.div_mod_to_equations; lia).
    destruct fuel; cbn [encode_loop]; rewrite Hq; cbn [varint]; case_decide;
      (rewrite (bind_Ret _ _ _ _ _ He) || rewrite (bind_Stop _ _ _ _ He)); try done; f_equal; simpl; lia.
  - destruct fuel as [|fuel]; [lia|]. cbn [encode_loop varint]. rewrite Nat2Z.inj_succ, Z.pow_succ_r in Hlen by lia.
    pose proof (digit_bits (len mod 128) ltac:(apply Z.mod_pos_bound; lia)) as (Hlor & _).
    pose proof (Z.mod_pos_bound len 128 ltac:(lia)) as Hmod.
    destruct (Z.ltb_spec 0 (len / 128)) as [Hq|Hq].
    + rewrite Hlor. pose proof (emits_byte (128 + len mod 128) pre rest) as He. rewrite Hpre, u8_small in He by lia.
      destruct rest as [|r rest].
      { rewrite decide_False in He by (simpl; lia). rewrite (bind_Stop _ _ _ _ He). by rewrite decide_False by (simpl; lia). }
      rewrite decide_True in He by (simpl; lia). rewrite (bind_Ret _ _ _ _ _ He). simpl drop. rewrite drop_0.
      rewrite app_assoc. rewrite IH; [|rewrite length_app; simpl; lia|split; [apply Z.div_pos; lia|apply Z.div_lt_upper_bound; lia]|lia].
      simpl length. repeat case_decide; try (exfalso; simpl in *; lia); [|done].
      f_equal; [simpl; lia|]. by rewrite <- app_assoc.
    + pose proof (emits_byte (len mod 128) pre rest) as He. rewrite Hpre, u8_small in He by lia. case_decide;
        (rewrite (bind_Ret _ _ _ _ _ He) || rewrite (bind_Stop _ _ _ _ He)); try done; f_equal; simpl; lia.
Qed.

Lemma get_byte_app pre b rest : get_byte (length pre) (pre ++ b :: rest) = Ret b (pre ++ b :: rest).
Proof. unfold get_byte. erewrite bind_Ret by reflexivity. by rewrite list_lookup_middle. Qed.

Lemma varint_length n len : (1 <= length (varint n len) <= S n)%nat.
Proof. revert len. induction n as [|n IH]; intros len; simpl; [lia|]. specialize (IH (len / 128)). case_match; simpl; lia. Qed.

Lemma decode_loop_spec n : forall off decoded mult value len pre rest,
  length pre = (off + decoded)%nat -> 0 <= len < 128 ^ Z.of_nat (S n) -> 0 <= value -> 0 < mult ->
  value + len * mult < 4294967296 -> mult * 128 ^ Z.of_nat n < 4294967296 ->
  decode_loop (S n) off decoded mult value (pre ++ varint n len ++ rest)
  = Ret (Z.of_nat (decoded + length (varint n len)), Some (value + len * mult)) (pre ++ varint n len ++ rest).
Proof.
  induction n as [|n IH]; intros off decoded mult value len pre rest Hpre Hlen Hv Hm Hov Hmo.
  - assert (Hd : 0 <= len < 128) by (simpl in Hlen; lia). pose proof (digit_bits len Hd) as (_ & _ & _ & H1 & H2).
    cbn [varint]. rewrite Z.mod_small by lia. cbn [decode_loop app]. rewrite <- Hpre.
    rewrite (bind_Ret _ _ _ _ _ (get_byte_app pre len rest)). rewrite H1, H2. simpl.
    rewrite u32_small by lia. f_equal. f_equal. lia.
  - rewrite Nat2Z.inj_succ, Z.pow_succ_r in Hlen, Hmo by lia.
    pose proof (Z.mod_pos_bound len 128 ltac:(lia)) as Hmod. pose proof (Z.div_mod len 128 ltac:(lia)) as Hdiv.
    pose proof (digit_bits (len mod 128) Hmod) as (_ & D1 & D2 & D3 & D4).
    cbn [varint]. change (decode_loop (S (S n))) with (fun off decoded mult len => 
      let* digit := get_byte (off + decoded) in
      let len := u32 (len + Z.land digit 127 * mult) in
      let multiplier := u32 (mult * 128) in
      if negb (Z.land digit 128 =? 0) then decode_loop (S n) off (S decoded) multiplier len
      else ret (Z.of_nat (S decoded), Some len)). cbv beta. rewrite <- Hpre.
    assert (Hlm : len * mult = len mod 128 * mult + len / 128 * (mult * 128)).
    { generalize dependent (len / 128). generalize dependent (len mod 128). intros r _ _ _ _ _ q Hdiv. rewrite Hdiv. ring. }
    assert (Hq0 : 0 <= len / 128) by (apply Z.div_pos; lia).
    assert (Hr0 : 0 <= len mod 128 * mult) by (apply Z.mul_nonneg_nonneg; lia).
    assert (Hq1 : 0 <= len / 128 * (mult * 128)) by (apply Z.mul_nonneg_nonneg; lia).
    assert (Hle : value + len mod 128 * mult < 4294967296) by lia.
    destruct (Z.ltb_spec 0 (len / 128)) as [Hq|Hq]; cbn [app].
    + rewrite (bind_Ret _ _ _ _ _ (get_byte_app pre _ _)). rewrite D1, D2. change (negb (128 =? 0)) with true. cbv beta iota zeta.
      assert (Hm128 : 0 < mult * 128 < 4294967296).
      { split; [lia|]. pose proof (Z.pow_pos_nonneg 128 (Z.of_nat n) ltac:(lia) ltac:(lia)). nia. }
      rewrite !u32_small by lia. rewrite cons_middle, (app_assoc pre [_]).
      rewrite IH; [|rewrite length_app; simpl; lia|split; [done|apply Z.div_lt_upper_bound; lia]|lia..].
      f_equal. f_equal; [simpl; lia|]. f_equal. lia.
    + assert (Hz : len / 128 = 0) by lia.
      rewrite (bind_Ret _ _ _ _ _ (get_byte_app pre _ _)). rewrite D3, D4. simpl.
      rewrite u32_small by lia. rewrite Hz, Z.mul_0_l, Z.add_0_r in Hlm. rewrite Hlm. f_equal. f_equal. lia.
Qed.

(** ** The packet *)
Definition connect_body (config : mqtt_config_t) : list Z :=
  [0; 4; 77; 81; 84; 84; 4; u8 (connect_flags config); u8 (Z.shiftr (keepalive config) 8); u8 (Z.land (keepalive config) 255)]
  ++ string_bytes (client_id config)
  ++ match will_topic config with Some t => string_bytes t ++ optional_bytes (will_message config) | None => [] end
  ++ optional_bytes (username config) ++ optional_bytes (password config).

Lemma emits_connect config :
  (is_set (will_topic config) = true -> is_set (will_message config) = true) ->
  emits (put_connect config) (connect_body config).
Proof.
  intros Hwill. unfold put_connect. eapply emits_eq.
  - do 7 (apply emits_bind; [apply emits_byte || apply emits_bytes|]). apply emits_bind; [apply emits_string|].
    apply (emits_bind _ _ (match will_topic config with Some t => string_bytes t ++ optional_bytes (will_message config) | None => [] end)).
    { unfold put_will. destruct (will_topic config) as [t|]; [|apply emits_ret].
      apply emits_bind; [apply emits_string|]. destruct (will_message config); [apply emits_string|].
      by specialize (Hwill eq_refl). }
    apply emits_bind; apply emits_optional.
  - done.
Qed.

Lemma connect_body_length config :
  (10 <= length (connect_body config))%nat.
Proof. unfold connect_body. rewrite length_app. simpl. lia. Qed.

Lemma put_connect_short config len b : (length b <= len)%nat -> put_connect config len b = Stop Fault.
Proof.
  intros H. unfold put_connect. apply bind_Stop. unfold put_byte, put_bytes. erewrite bind_Ret by reflexivity.
  by rewrite (proj2 (Nat.leb_gt _ _)) by (simpl; lia).
Qed.

(** The [memmove] that closes the gap between the length and the header. *)
Lemma move_down (v gap body rest : list Z) :
  (length v + length gap = 4)%nat ->
  move_bytes (1 + length v) 5 (length body) (16 :: v ++ gap ++ body ++ rest)
  = Ret tt (16 :: v ++ body ++ drop (length body) (gap ++ body ++ rest)).
Proof.
  intros Hgap. unfold move_bytes. erewrite bind_Ret by reflexivity.
  assert (Hlen : length (16 :: v ++ gap ++ body ++ rest) = (5 + length body + length rest)%nat)
    by (simpl; rewrite !length_app; lia).
  rewrite Hlen, !(proj2 (Nat.leb_le _ _)) by lia. cbn [andb]. clear Hlen.
  replace (slice 5 (length body) (16 :: v ++ gap ++ body ++ rest)) with body.
  - unfold put. f_equal. change (16 :: v ++ gap ++ body ++ rest) with ((16 :: v) ++ gap ++ body ++ rest).
    rewrite splice_next by done. by rewrite <- app_assoc.
  - replace (16 :: v ++ gap ++ body ++ rest) with ((16 :: v ++ gap) ++ body ++ rest) by (simpl; by rewrite <- app_assoc).
    unfold slice. rewrite drop_app_length' by (simpl; rewrite length_app; lia). by rewrite take_app_length.
Qed.

(** C25. The CONNECT packet.  When the buffer has room for the packet and four
    length bytes, the call ends and leaves at its front the packet type, the
    remaining length in its shortest encoding, and the whole variable header and
    payload, moved down next to it; decoding the length gives exactly the number of
    bytes that follow it, and the result is the length of the packet.  When it has
    not, the call writes outside of the buffer. *)
Theorem mqtt_connect_packet (config : mqtt_config_t) (buf : list Z) (fuel : nat)
    (Hwill : is_set (will_topic config) = true -> is_set (will_message config) = true)
    (Hbody : Z.of_nat (length (connect_body config)) < 268435456) (Hfuel : (3 <= fuel)%nat) :
  let body := connect_body config in
  let v := varint 3 (Z.of_nat (length body)) in
  if decide (5 + length body <= length buf)%nat then
    exists rest, mqtt_create_connect_packet fuel config buf = Ret (Z.of_nat (1 + length v + length body)) (16 :: v ++ body ++ rest) /\
      length (16 :: v ++ body ++ rest) = length buf /\
      mqtt_decode_remaining_length 1 (16 :: v ++ body ++ rest)
      = Ret (Z.of_nat (length v), Some (Z.of_nat (length body))) (16 :: v ++ body ++ rest)
  else mqtt_create_connect_packet fuel config buf = Stop Fault.
Proof.
  intros body v. pose proof (connect_body_length config) as Hten. fold body in Hten, Hbody.
  pose proof (emits_connect config Hwill) as Hc. fold body in Hc. unfold mqtt_create_connect_packet.
  pose proof (emits_byte (Z.shiftl MQTT_CONNECT 4) [] buf) as H0. simpl app in H0. simpl length in H0.
  change (u8 (Z.shiftl MQTT_CONNECT 4)) with 16 in H0.
  assert (Hv : (1 <= length v <= 4)%nat) by apply varint_length.
  destruct buf as [|x0 buf]; [rewrite decide_False by (simpl; lia); by rewrite (bind_Stop _ _ _ _ H0)|].
  rewrite decide_True in H0 by (simpl; lia). rewrite (bind_Ret _ _ _ _ _ H0). simpl drop. rewrite drop_0.
  destruct (decide (length buf < 4)%nat) as [Hs|Hs].
  { rewrite decide_False by (simpl; lia). apply bind_Stop, put_connect_short. simpl. lia. }
  rewrite <- (take_drop 4 buf). set (skip := take 4 buf). set (rest := drop 4 buf).
  assert (Hskip : length skip = 4%nat) by (unfold skip; rewrite length_take; lia).
  assert (Hlen : length (x0 :: skip ++ rest) = (5 + length rest)%nat) by (simpl; rewrite length_app; lia).
  rewrite Hlen. clear Hlen Hs H0. clearbody skip rest. clear buf.
  clearbody body.
  specialize (Hc (16 :: skip) rest). cbn [length app] in Hc. rewrite Hskip in Hc.
  destruct (decide (length body <= length rest)%nat) as [Hfit|Hfit].
  2:{ rewrite decide_False by lia. exact (bind_Stop _ _ _ _ Hc). }
  rewrite decide_True by lia. rewrite length_app, Hskip in Hc. rewrite (bind_Ret _ _ _ _ _ Hc).
  replace (S (4 + length body) - 5)%nat with (length body) by lia.
  set (rest' := drop (length body) rest).
  pose proof (encode_loop_spec 3 1 0 (Z.of_nat (length body)) [16] (skip ++ body ++ rest') fuel eq_refl
    ltac:(change (128 ^ Z.of_nat 4) with 268435456; lia) ltac:(lia)) as He. fold v in He. cbn [app] in He.
  rewrite decide_True in He by (rewrite length_app; lia). rewrite Nat.add_0_l in He.
  unfold mqtt_encode_remaining_length. rewrite (bind_Ret _ _ _ _ _ He).
  rewrite drop_app_le in He |- * by lia. set (gap := drop (length v) skip) in *.
  assert (Hgap : (length v + length gap = 4)%nat) by (unfold gap; rewrite length_drop; lia). clearbody gap.
  rewrite (bind_Ret _ _ _ _ _ (move_down v gap body rest' Hgap)).
  exists (drop (length body) (gap ++ body ++ rest')). split_and!.
  - f_equal. lia.
  - simpl. rewrite !length_app, length_drop, !length_app. unfold rest'. rewrite length_drop. lia.
  - pose proof (decode_loop_spec 3 1 0 1 0 (Z.of_nat (length body)) [16] (body ++ drop (length body) (gap ++ body ++ rest')) eq_refl
      ltac:(change (128 ^ Z.of_nat 4) with 268435456; lia) ltac:(lia) ltac:(lia) ltac:(lia) ltac:(done)) as Hd.
    fold v in Hd. rewrite Z.mul_1_r, Z.add_0_l in Hd. exact Hd.
Qed.

Lemma mqtt_connect_packet_witness :
  let config := MqttConfig [100; 101; 118] (Some [117]) (Some [112; 119]) 60 true (Some [116; 47; 97]) (Some [98; 121; 101]) 1 true in
  let body := connect_body config in
  is_set (will_topic config) = true /\ length body = 32%nat /\
  exists rest, mqtt_create_connect_packet 3 config (replicate 64 0) = Ret 34 (16 :: 32 :: body ++ rest).
Proof.
  intros config body. split; [done|]. split; [done|].
  destruct (mqtt_connect_packet config (replicate 64 0) 3 ltac:(done) ltac:(vm_compute; done) ltac:(lia)) as (rest & H & _).
  exists rest. exact H.
Defined.
