(* ===== verification/RbTree.v ===== *)
(** * RbTree

    src/src/rbtree.c: the red-black tree over a heap of linked nodes.  The same
    algorithm is written a second time in src/src/scheduler_fair.c over another
    node, so it is stated over an interface of nodes; the node of
    src/include/epoll.h, with the color packed into the parent word, is one
    implementation. *)
From S2P Require Import Prelude.

(** ** The interface of nodes *)
Inductive side : Type := L | R.
Definition flip (d : side) : side := match d with L => R | R => L end.
Inductive color : Type := Red | Black.
#[export] Instance color_eq_dec : EqDecision color.
Proof. solve_decision. Defined.

(** The fields of a node; [first_side d] is the child of the parent that the
    rotation towards [d] looks at first. *)
Class RbNode (N : Type) : Type := {
  rb_parent : N -> Z;
  rb_color : N -> color;
  rb_child : side -> N -> Z;
  rb_set_parent : Z -> N -> N;
  rb_set_color : color -> N -> N;
  rb_set_child : side -> Z -> N -> N;
  first_side : side -> side
}.

(** A node as its four fields, and the laws: a setter changes its field.  A
    pointer stored in a node must be aligned. *)
Record cell : Type := Cell { c_color : color; c_parent : Z; c_left : Z; c_right : Z }.
Definition fields {N} `{!RbNode N} (n : N) : cell := Cell (rb_color n) (rb_parent n) (rb_child L n) (rb_child R n).
Definition aligned (p : Z) : Prop := 0 <= p < 4294967296 /\ p mod 4 = 0.
Definition cell_parent (p : Z) (c : cell) : cell := Cell (c_color c) p (c_left c) (c_right c).
Definition cell_color (k : color) (c : cell) : cell := Cell k (c_parent c) (c_left c) (c_right c).
Definition cell_child (d : side) (p : Z) (c : cell) : cell :=
  match d with L => Cell (c_color c) (c_parent c) p (c_right c) | R => Cell (c_color c) (c_parent c) (c_left c) p end.

Class RbNodeLaws (N P : Type) `{!RbNode N} (payload : N -> P) : Prop := {
  fields_set_parent p n : aligned p -> fields (rb_set_parent p n) = cell_parent p (fields n);
  fields_set_color k n : fields (rb_set_color k n) = cell_color k (fields n);
  fields_set_child d p n : fields (rb_set_child d p n) = cell_child d p (fields n);
  payload_set_parent p n : payload (rb_set_parent p n) = payload n;
  payload_set_color k n : payload (rb_set_color k n) = payload n;
  payload_set_child d p n : payload (rb_set_child d p n) = payload n
}.

(** ** The operations *)
Record rb_state (N : Type) : Type := RbState { rb_nodes : gmap Z N; rb_root : Z }.
Arguments RbState {N} rb_nodes rb_root.
Arguments rb_nodes {N} r.
Arguments rb_root {N} r.

Section Operations.
Context {N : Type} `{!RbNode N}.

Definition node_at (p : Z) : Cmd (rb_state N) N := let* s := get in deref (rb_nodes s !! p).
Definition write_node (p : Z) (f : N -> N) : Cmd (rb_state N) unit :=
  let* _ := node_at p in modify (fun s => RbState (alter f p (rb_nodes s)) (rb_root s)).
Definition set_root (p : Z) : Cmd (rb_state N) unit := modify (fun s => RbState (rb_nodes s) p).

(** The rotation that moves [node] to side [d]. *)
Definition rb_rotate (d : side) (node : Z) : Cmd (rb_state N) unit :=
  let* n := node_at node in
  let right := rb_child (flip d) n in
  let parent := rb_parent n in
  let* r := node_at right in
  let inner := rb_child d r in
  write_node node (rb_set_child (flip d) inner) ;;;
  (if inner =? 0 then ret tt else write_node inner (rb_set_parent node)) ;;;
  write_node right (rb_set_child d node) ;;;
  write_node right (rb_set_parent parent) ;;;
  (if parent =? 0 then set_root right
   else
     let* p := node_at parent in
     if rb_child (first_side d) p =? node then write_node parent (rb_set_child (first_side d) right)
     else write_node parent (rb_set_child (flip (first_side d)) right)) ;;;
  write_node node (rb_set_parent right).
Definition rb_rotate_left : Z -> Cmd (rb_state N) unit := rb_rotate L.
Definition rb_rotate_right : Z -> Cmd (rb_state N) unit := rb_rotate R.

(** [!p || rb_is_black(p)]. *)
Definition is_black (n : N) : bool := match rb_color n with Black => true | Red => false end.
Definition null_or_black (p : Z) : Cmd (rb_state N) bool :=
  if p =? 0 then ret true else let* n := node_at p in ret (is_black n).

(** One round of [rb_insert_color] with the parent on side [d] of the
    grandparent; the other branch of the source is its mirror image.  The result
    is the node of the next round. *)
Definition insert_case (d : side) (node parent gparent : Z) : Cmd (rb_state N) Z :=
  let* g := node_at gparent in
  let uncle := rb_child (flip d) g in
  let* uncle_black := null_or_black uncle in
  if negb uncle_black then
    write_node uncle (rb_set_color Black) ;;;
    write_node parent (rb_set_color Black) ;;;
    write_node gparent (rb_set_color Red) ;;;
    ret gparent
  else
    let* p := node_at parent in
    let* np := (if rb_child (flip d) p =? node then rb_rotate d parent ;;; ret (parent, node) else ret (node, parent)) in
    write_node (snd np) (rb_set_color Black) ;;;
    write_node gparent (rb_set_color Red) ;;;
    rb_rotate (flip d) gparent ;;;
    ret (fst np).

Fixpoint insert_loop (fuel : nat) (node : Z) : Cmd (rb_state N) unit :=
  let* n := node_at node in
  let parent := rb_parent n in
  if parent =? 0 then ret tt else
  let* p := node_at parent in
  if is_black p then ret tt else
  match fuel with
  | O => fail NoFuel
  | S fuel' =>
      let gparent := rb_parent p in
      let* g := node_at gparent in
      let* next := insert_case (if parent =? rb_child L g then L else R) node parent gparent in
      insert_loop fuel' next
  end.

Definition rb_insert_color (fuel : nat) (node : Z) : Cmd (rb_state N) unit :=
  insert_loop fuel node ;;;
  let* s := get in write_node (rb_root s) (rb_set_color Black).

(** One round of [rb_erase_color] with the node on side [d] of [parent].  First
    the sibling is made black. *)
Definition erase_sibling (d : side) (parent : Z) : Cmd (rb_state N) Z :=
  let* p := node_at parent in
  let other := rb_child (flip d) p in
  let* o := node_at other in
  if negb (is_black o) then
    write_node other (rb_set_color Black) ;;;
    write_node parent (rb_set_color Red) ;;;
    rb_rotate d parent ;;;
    let* p := node_at parent in
    ret (rb_child (flip d) p)
  else ret other.

(** The last rotation, before the [break]. *)
Definition erase_rotate (d : side) (parent other : Z) : Cmd (rb_state N) unit :=
  let* p := node_at parent in
  write_node other (rb_set_color (rb_color p)) ;;;
  write_node parent (rb_set_color Black) ;;;
  let* o := node_at other in
  write_node (rb_child (flip d) o) (rb_set_color Black) ;;;
  rb_rotate d parent.

(** Then the next node and parent, or [None] after the [break]. *)
Definition erase_case (d : side) (parent : Z) : Cmd (rb_state N) (option (Z * Z)) :=
  let* other := erase_sibling d parent in
  let* o := node_at other in
  let* near := null_or_black (rb_child d o) in
  let* far := null_or_black (rb_child (flip d) o) in
  if near && far then
    write_node other (rb_set_color Red) ;;;
    let* p := node_at parent in
    ret (Some (parent, rb_parent p))
  else
    let* other := (if far then
        write_node (rb_child d o) (rb_set_color Black) ;;;
        write_node other (rb_set_color Red) ;;;
        rb_rotate (flip d) other ;;;
        let* p := node_at parent in ret (rb_child (flip d) p)
      else ret other) in
    erase_rotate d parent other ;;;
    ret None.

(** The node the loop ends with. *)
Fixpoint erase_loop (fuel : nat) (node parent : Z) : Cmd (rb_state N) Z :=
  let* black := null_or_black node in
  let* s := get in
  if negb (black && negb (node =? rb_root s)) then ret node else
  match fuel with
  | O => fail NoFuel
  | S fuel' =>
      let* p := node_at parent in
      let* next := erase_case (if rb_child L p =? node then L else R) parent in
      match next with
      | Some (node, parent) => erase_loop fuel' node parent
      | None => let* s := get in ret (rb_root s)
      end
  end.

Definition rb_erase_color (fuel : nat) (node parent : Z) : Cmd (rb_state N) unit :=
  let* node := erase_loop fuel node parent in
  if node =? 0 then ret tt else write_node node (rb_set_color Black).
End Operations.

(** ** Trees and contexts

    The heap represents a tree of addresses; a context is the path from a subtree
    to the root, innermost frame first. *)
Inductive tree : Type := E | T (c : color) (l : tree) (x : Z) (r : tree).
Definition addr (t : tree) : Z := match t with E => 0 | T _ _ x _ => x end.
Fixpoint elems (t : tree) : list Z := match t with E => [] | T _ l x r => elems l ++ x :: elems r end.

(** [t] on side [d]. *)
Definition bin (d : side) (c : color) (t : tree) (x : Z) (u : tree) : tree :=
  match d with L => T c t x u | R => T c u x t end.
Record frame : Type := Frame { f_side : side; f_color : color; f_addr : Z; f_sibling : tree }.
Fixpoint plug (k : list frame) (t : tree) : tree :=
  match k with [] => t | Frame d c x u :: k => plug k (bin d c t x u) end.
Definition top (k : list frame) : Z := match k with [] => 0 | f :: _ => f_addr f end.
Fixpoint frame_elems (k : list frame) : list Z :=
  match k with [] => [] | Frame _ _ x u :: k => x :: elems u ++ frame_elems k end.

(** The cell with child [t] on side [d]. *)
Definition bin_cell (d : side) (c : color) (p t u : Z) : cell := match d with L => Cell c p t u | R => Cell c p u t end.
Fixpoint rep (a : gmap Z cell) (p : Z) (t : tree) : Prop :=
  match t with
  | E => True
  | T c l x r => a !! x = Some (Cell c p (addr l) (addr r)) /\ rep a x l /\ rep a x r
  end.
Fixpoint rep_ctx (a : gmap Z cell) (k : list frame) (t : Z) : Prop :=
  match k with
  | [] => True
  | Frame d c x u :: k => a !! x = Some (bin_cell d c (top k) t (addr u)) /\ rep a x u /\ rep_ctx a k x
  end.

Lemma addr_bin d c t x u : addr (bin d c t x u) = x.
Proof. by destruct d. Qed.
Lemma bin_not_E d c t x u : bin d c t x u <> E.
Proof. by destruct d. Qed.

Lemma rep_bin a p d c t x u :
  rep a p (bin d c t x u) <-> a !! x = Some (bin_cell d c p (addr t) (addr u)) /\ rep a x t /\ rep a x u.
Proof. destruct d; simpl; tauto. Qed.

Lemma rep_plug a k : forall t, rep a 0 (plug k t) <-> rep_ctx a k (addr t) /\ rep a (top k) t.
Proof.
  induction k as [|[d c x u] k IH]; intros t; simpl; [tauto|].
  rewrite IH, addr_bin, rep_bin. tauto.
Qed.

Lemma elems_bin d c t x u : elems (bin d c t x u) ≡ₚ x :: elems t ++ elems u.
Proof. destruct d; simpl; by rewrite <- Permutation_middle, 1?(Permutation_app_comm (elems u)). Qed.

Lemma elems_plug_perm k : forall t, elems (plug k t) ≡ₚ elems t ++ frame_elems k.
Proof.
  induction k as [|[d c x u] k IH]; intros t; simpl; [by rewrite app_nil_r|].
  rewrite IH, elems_bin. simpl. rewrite <- Permutation_middle. by rewrite app_assoc.
Qed.

Lemma elems_plug k : forall t t', elems t = elems t' -> elems (plug k t) = elems (plug k t').
Proof.
  induction k as [|[d c x u] k IH]; intros t t' H; simpl; [done|]. apply IH. destruct d; simpl; by rewrite H.
Qed.

Lemma rep_frame a a' t : forall p, (forall y, y ∈ elems t -> a' !! y = a !! y) -> rep a p t -> rep a' p t.
Proof.
  induction t as [|c l IHl x r IHr]; intros p H; simpl; [done|]. intros (Hx & Hl & Hr). split_and!.
  - rewrite H; [done|]. simpl. set_solver.
  - apply IHl; [|done]. intros y Hy. apply H. simpl. set_solver.
  - apply IHr; [|done]. intros y Hy. apply H. simpl. set_solver.
Qed.

Lemma rep_ctx_frame a a' k : forall t, (forall y, y ∈ frame_elems k -> a' !! y = a !! y) -> rep_ctx a k t -> rep_ctx a' k t.
Proof.
  induction k as [|[d c x u] k IH]; intros t H; simpl in *; [done|]. intros (Hx & Hu & Hk). split_and!.
  - rewrite H; [done|]. set_solver.
  - apply (rep_frame a); [|done]. intros y Hy. apply H. set_solver.
  - apply IH; [|done]. intros y Hy. apply H. set_solver.
Qed.

(** The heap [a] with root [r] represents [t]. *)
Definition heap_tree (a : gmap Z cell) (r : Z) (t : tree) : Prop :=
  r = addr t /\ rep a 0 t /\ NoDup (elems t) /\ Forall (fun p => aligned p /\ p <> 0) (elems t).

(** ** Heap updates of a rotation *)
Definition adopt (t : tree) (x : Z) (a : gmap Z cell) : gmap Z cell :=
  match t with E => a | T _ _ y _ => alter (cell_parent x) y a end.
Definition relink (k : list frame) (x : Z) (a : gmap Z cell) : gmap Z cell :=
  match k with [] => a | Frame d _ y _ :: _ => alter (cell_child d x) y a end.
Definition rotated (d : side) (k : list frame) (x y : Z) (inner : tree) (a : gmap Z cell) : gmap Z cell :=
  alter (cell_parent y) x (relink k y (alter (cell_parent (top k)) y (alter (cell_child d x) y
    (adopt inner x (alter (cell_child (flip d) (addr inner)) x a))))).

Lemma adopt_ne t x y a : y ∉ elems t -> adopt t x a !! y = a !! y.
Proof. destruct t as [|c l z r]; simpl; [done|]. intros H. apply lookup_alter_ne. set_solver. Qed.

Lemma rep_adopt a p x t : NoDup (elems t) -> rep a p t -> rep (adopt t x a) x t.
Proof.
  destruct t as [|c l y r]; simpl; [done|]. intros Hnd (Hy & Hl & Hr).
  apply NoDup_app in Hnd as (_ & Hd & Hnd). apply NoDup_cons in Hnd as [Hyr _]. split_and!.
  - by rewrite lookup_alter_eq, Hy.
  - apply (rep_frame a); [|done]. intros z Hz. apply lookup_alter_ne. intros ->. apply (Hd z Hz). set_solver.
  - apply (rep_frame a); [|done]. intros z Hz. apply lookup_alter_ne. intros ->. done.
Qed.

Lemma relink_ne k x y a : y ∉ frame_elems k -> relink k x a !! y = a !! y.
Proof. destruct k as [|[d c z u] k]; simpl; [done|]. intros H. apply lookup_alter_ne. set_solver. Qed.

Lemma rep_relink a k x y : NoDup (frame_elems k) -> rep_ctx a k x -> rep_ctx (relink k y a) k y.
Proof.
  destruct k as [|[d c z u] k]; simpl; [done|]. intros Hnd (Hz & Hu & Hk).
  apply NoDup_cons in Hnd as [Hz' Hnd]. split_and!.
  - rewrite lookup_alter_eq, Hz. by destruct d.
  - apply (rep_frame a); [|done]. intros v Hv. apply lookup_alter_ne. set_solver.
  - apply (rep_ctx_frame a); [|done]. intros v Hv. apply lookup_alter_ne. set_solver.
Qed.

Lemma addr_plug f k t t' : addr (plug (f :: k) t) = addr (plug (f :: k) t').
Proof.
  revert f t t'. induction k as [|g k IH]; intros [d c x u] t t'; simpl; [by rewrite !addr_bin|].
  apply (IH g).
Qed.

Lemma elems_rotate d cx cy cx' cy' A x B y C :
  elems (bin d cx A x (bin d cy B y C)) = elems (bin d cy' (bin d cx' A x B) y C).
Proof. destruct d; simpl; by rewrite <- !app_assoc. Qed.

(** The addresses of a tree with a grandchild are distinct. *)
Lemma distinct_rotate k d cx cy A x B y C :
  NoDup (elems (plug k (bin d cx A x (bin d cy B y C)))) ->
  x <> y /\ NoDup (elems B) /\ NoDup (frame_elems k) /\
  (forall z, z ∈ elems A ++ elems B ++ elems C ++ frame_elems k -> z <> x /\ z <> y) /\
  (forall z, z ∈ elems B -> z ∉ elems A ++ elems C ++ frame_elems k) /\
  (forall z, z ∈ frame_elems k -> z ∉ elems A ++ elems C ++ elems B).
Proof.
  rewrite elems_plug_perm, elems_bin, elems_bin. simpl. rewrite <- Permutation_middle. simpl.
  rewrite !NoDup_cons, !NoDup_app. intros (Hx & Hy & (_ & HA & HB & HBC & _) & Hk & Hnk).
  split_and!; [set_solver|done|done|..]; set_solver.
Qed.

Lemma rotated_tree a r k d cx cy A x B y C :
  heap_tree a r (plug k (bin d cx A x (bin d cy B y C))) ->
  heap_tree (rotated d k x y B a) (match k with [] => y | _ => r end) (plug k (bin d cy (bin d cx A x B) y C)).
Proof.
  intros (Hr & Hrep & Hnd & Hv). unfold heap_tree.
  rewrite (elems_plug k _ _ (elems_rotate d cx cy cx cy A x B y C)) in Hv.
  destruct (distinct_rotate _ _ _ _ _ _ _ _ _ Hnd) as (Hxy & HnB & Hnk & Hout & HB & Hk).
  rewrite (elems_plug k _ _ (elems_rotate d cx cy cx cy A x B y C)) in Hnd.
  split_and!; [|clear Hnd Hv|done|done].
  { destruct k as [|f k]; [by simpl; rewrite addr_bin|]. rewrite Hr. apply addr_plug. }
  rewrite rep_plug in Hrep. rewrite rep_plug. rewrite !addr_bin in *. rewrite !rep_bin in *. rewrite !addr_bin in *.
  destruct Hrep as (Hctx & Hx & HA & Hy & HrB & HC).
  assert (Hlow : forall z, z <> x -> z <> y -> z ∉ elems B ->
    alter (cell_parent (top k)) y (alter (cell_child d x) y (adopt B x (alter (cell_child (flip d) (addr B)) x a))) !! z = a !! z).
  { intros z H1 H2 H3. rewrite !lookup_alter_ne by done. rewrite adopt_ne by done. by rewrite lookup_alter_ne. }
  assert (Hsame : forall z, z <> x -> z <> y -> z ∉ elems B -> z ∉ frame_elems k -> rotated d k x y B a !! z = a !! z).
  { intros z H1 H2 H3 H4. unfold rotated. rewrite lookup_alter_ne by done. rewrite relink_ne by done. by apply Hlow. }
  assert (HxB : (x ∉ elems B) /\ (y ∉ elems B) /\ (x ∉ frame_elems k) /\ (y ∉ frame_elems k)).
  { split_and!; intros Hz; [destruct (Hout x)|destruct (Hout y)|destruct (Hout x)|destruct (Hout y)]; try done; set_solver. }
  destruct HxB as (HxB & HyB & Hxk & Hyk).
  split_and!.
  - unfold rotated. apply (rep_ctx_frame (relink k y (alter (cell_parent (top k)) y (alter (cell_child d x) y
      (adopt B x (alter (cell_child (flip d) (addr B)) x a)))))).
    { intros z Hz. apply lookup_alter_ne. intros <-. done. }
    apply (rep_relink _ _ x); [done|]. apply (rep_ctx_frame a); [|done].
    intros z Hz. destruct (Hout z) as []; [set_solver|]. apply Hlow; [done..|]. specialize (Hk z Hz). set_solver.
  - unfold rotated. rewrite lookup_alter_ne by done. rewrite relink_ne by done. rewrite !lookup_alter_eq.
    rewrite adopt_ne by done. rewrite lookup_alter_ne by done. rewrite Hy. by destruct d.
  - unfold rotated. rewrite lookup_alter_eq. rewrite relink_ne by done. rewrite !lookup_alter_ne by done.
    rewrite adopt_ne by done. rewrite lookup_alter_eq. rewrite Hx. by destruct d.
  - apply (rep_frame a); [|done]. intros z Hz. destruct (Hout z) as []; [set_solver|]. apply Hsame; [done..| |].
    + intros HzB. specialize (HB z HzB). set_solver.
    + intros Hzk. specialize (Hk z Hzk). set_solver.
  - apply (rep_frame (adopt B x (alter (cell_child (flip d) (addr B)) x a))).
    { intros z Hz. destruct (Hout z) as []; [set_solver|]. unfold rotated. rewrite lookup_alter_ne by done.
      specialize (HB z Hz). rewrite relink_ne by set_solver. by rewrite !lookup_alter_ne by done. }
    apply (rep_adopt _ y); [done|]. apply (rep_frame a); [|done]. intros z Hz. apply lookup_alter_ne. intros <-. done.
  - apply (rep_frame a); [|done]. intros z Hz. destruct (Hout z) as []; [set_solver|]. apply Hsame; [done..| |].
    + intros HzB. specialize (HB z HzB). set_solver.
    + intros Hzk. specialize (Hk z Hzk). set_solver.
Qed.

(** ** The operations on a represented tree *)
Definition c_child (d : side) (c : cell) : Z := match d with L => c_left c | R => c_right c end.
Lemma child_bin d c p t u : c_child d (bin_cell d c p t u) = t /\ c_child (flip d) (bin_cell d c p t u) = u.
Proof. by destruct d. Qed.
Lemma flip_flip d : flip (flip d) = d.
Proof. by destruct d. Qed.
Lemma side_eq d e : d = e \/ d = flip e.
Proof. destruct d, e; auto. Qed.

(** ** Red-black trees *)
Definition black_root (t : tree) : bool := match t with T Red _ _ _ => false | _ => true end.
(** Every path has [n] black nodes, and no red node has a red child. *)
Fixpoint wf (n : nat) (t : tree) : Prop :=
  match t with
  | E => n = O
  | T Black l _ r => exists m, n = S m /\ wf m l /\ wf m r
  | T Red l _ r => black_root l = true /\ black_root r = true /\ wf n l /\ wf n r
  end.
Definition red_black (t : tree) : Prop := black_root t = true /\ exists n, wf n t.
Definition blacken (t : tree) : tree := match t with E => E | T _ l x r => T Black l x r end.

(** What a context asks of the subtree in it: [n] black nodes on every path, and a
    black root below a red frame. *)
Definition top_black (k : list frame) : bool := match k with Frame _ Black _ _ :: _ => true | _ => false end.
Fixpoint wf_ctx (n : nat) (k : list frame) : Prop :=
  match k with
  | [] => True
  | Frame _ Black _ u :: k => wf n u /\ wf_ctx (S n) k
  | Frame _ Red _ u :: k => wf n u /\ black_root u = true /\ top_black k = true /\ wf_ctx n k
  end.

Lemma bin_flip d c t x u : bin (flip d) c t x u = bin d c u x t.
Proof. by destruct d. Qed.
Lemma bin_any e d c t x u : exists t' u', bin e c t x u = bin d c t' x u'.
Proof. destruct (side_eq e d) as [->| ->]; [by exists t, u|]. exists u, t. apply bin_flip. Qed.
Lemma wf_bin n d c t x u :
  wf n (bin d c t x u) <-> match c with
    | Black => exists m, n = S m /\ wf m t /\ wf m u
    | Red => black_root t = true /\ black_root u = true /\ wf n t /\ wf n u
    end.
Proof. destruct d, c; simpl; try tauto; split; intros (m & ? & ? & ?); by exists m. Qed.
Lemma black_bin d c t x u : black_root (bin d c t x u) = match c with Black => true | Red => false end.
Proof. by destruct d, c. Qed.

(** A subtree that fits its context. *)
Definition fits (k : list frame) (t : tree) : Prop := (top_black k = false -> black_root t = true).

Lemma wf_plug k : forall n t, wf_ctx n k -> wf n t -> fits k t -> red_black (plug k t).
Proof.
  induction k as [|[d [] x u] k IH]; intros n t Hk Ht Hf; simpl in *.
  - split; [by apply Hf|]. by exists n.
  - destruct Hk as (Hu & Bu & Hb & Hk). apply (IH n); [done|apply wf_bin; by rewrite Hf|]. intros H. by rewrite Hb in H.
  - destruct Hk as (Hu & Hk). apply (IH (S n)); [done|apply wf_bin; eauto|]. intros _. apply black_bin.
Qed.

Lemma plug_wf k : forall t, red_black (plug k t) -> exists n, wf_ctx n k /\ wf n t /\ fits k t.
Proof.
  induction k as [|[d c x u] k IH]; intros t H; simpl in *.
  - destruct H as (Hb & n & Hn). exists n. split_and!; [done|done|by intros _].
  - destruct (IH _ H) as (n & Hk & Ht & Hf). rewrite wf_bin in Ht. unfold fits in Hf. rewrite black_bin in Hf. destruct c.
    + destruct Ht as (B1 & B2 & H1 & H2). exists n. destruct (top_black k); [split_and!; try done; by intros _|]. by specialize (Hf eq_refl).
    + destruct Ht as (m & -> & H1 & H2). exists m. split_and!; try done; by intros [=].
Qed.

Section Laws.
Context {N P : Type} `{!RbNode N} (payload : N -> P) `{Hlaws : !RbNodeLaws N P payload}.

(** The state holds the cells [a], the root [r] and the payloads [m]. *)
Definition holds (s : rb_state N) (a : gmap Z cell) (r : Z) (m : gmap Z P) : Prop :=
  fields <$> rb_nodes s = a /\ rb_root s = r /\ payload <$> rb_nodes s = m.

Lemma child_fields d (n : N) : rb_child d n = c_child d (fields n).
Proof. by destruct d. Qed.

Lemma node_at_spec s a r m p c :
  holds s a r m -> a !! p = Some c -> exists n, node_at p s = Ret n s /\ fields n = c.
Proof.
  intros (Ha & _) Hp. rewrite <- Ha, lookup_fmap in Hp. destruct (rb_nodes s !! p) as [n|] eqn:E; [|done].
  injection Hp as Hp. exists n. split; [|done]. unfold node_at. erewrite bind_Ret by reflexivity. by rewrite E.
Qed.

Lemma write_node_spec s a r m p f F :
  holds s a r m -> is_Some (a !! p) -> (forall n, fields (f n) = F (fields n)) -> (forall n, payload (f n) = payload n) ->
  exists s', write_node p f s = Ret tt s' /\ holds s' (alter F p a) r m.
Proof.
  intros H [c Hp] HF HP. destruct (node_at_spec _ _ _ _ _ _ H Hp) as (n & E & _). destruct H as (Ha & Hr & Hm).
  eexists. split; [unfold write_node; by rewrite (bind_Ret _ _ _ _ _ E)|]. split_and!; simpl; [|done|].
  - rewrite <- Ha. by apply fmap_alter.
  - rewrite <- Hm. rewrite (fmap_alter payload f id) by done. by apply alter_id.
Qed.

Definition write_parent s a r m p q (H : holds s a r m) (Hp : is_Some (a !! p)) (Hq : aligned q) :=
  write_node_spec s a r m p _ _ H Hp (fun n => fields_set_parent q n Hq) (payload_set_parent q).
Definition write_color s a r m p k (H : holds s a r m) (Hp : is_Some (a !! p)) :=
  write_node_spec s a r m p _ _ H Hp (fields_set_color k) (payload_set_color k).
Definition write_child s a r m p d q (H : holds s a r m) (Hp : is_Some (a !! p)) :=
  write_node_spec s a r m p _ _ H Hp (fields_set_child d q) (payload_set_child d q).

(** What the last write of [rb_rotate] to the parent does. *)
Lemma relink_spec s a r m d k x y :
  holds s a r m -> rep_ctx a k x -> x <> 0 -> x ∉ frame_elems k -> (k <> [] -> top k <> 0) ->
  exists s', (if top k =? 0 then set_root y
              else let* p := node_at (top k) in
                if rb_child (first_side d) p =? x then write_node (top k) (rb_set_child (first_side d) y)
                else write_node (top k) (rb_set_child (flip (first_side d)) y)) s = Ret tt s' /\
    holds s' (relink k y a) (match k with [] => y | _ => r end) m.
Proof using Hlaws.
  intros H Hk Hx Hxk Htop. destruct k as [|[e c z u] k]; simpl in *.
  { eexists. split; [reflexivity|]. destruct H as (? & ? & ?). done. }
  rewrite (proj2 (Z.eqb_neq _ _)) by auto. destruct Hk as (Hz & _).
  destruct (node_at_spec _ _ _ _ _ _ H Hz) as (n & E & F). rewrite (bind_Ret _ _ _ _ _ E), child_fields, F.
  destruct (child_bin e c (top k) x (addr u)) as [H1 H2]. destruct (side_eq (first_side d) e) as [->| ->].
  - rewrite H1, Z.eqb_refl. exact (write_child _ _ _ _ _ e y H (mk_is_Some _ _ Hz)).
  - rewrite H2. rewrite (proj2 (Z.eqb_neq _ _)).
    + rewrite flip_flip. exact (write_child _ _ _ _ _ e y H (mk_is_Some _ _ Hz)).
    + destruct u; simpl in *; [done|]. set_solver.
Qed.

Lemma rb_rotate_spec s a r m k d cx cy A x B y C :
  holds s a r m -> heap_tree a r (plug k (bin d cx A x (bin d cy B y C))) ->
  exists s' a' r', rb_rotate d x s = Ret tt s' /\ holds s' a' r' m /\
    heap_tree a' r' (plug k (bin d cy (bin d cx A x B) y C)).
Proof using Hlaws.
  intros H Ht. pose proof (rotated_tree _ _ _ _ _ _ _ _ _ _ _ Ht) as Ht'.
  destruct Ht as (_ & Hrep & Hnd & Hv). rewrite rep_plug, !rep_bin, !addr_bin in Hrep.
  destruct Hrep as (Hctx & Hx & HA & Hy & HB & HC).
  destruct (distinct_rotate _ _ _ _ _ _ _ _ _ Hnd) as (Hxy & HnB & Hnk & Hout & HdB & Hdk).
  rewrite elems_plug_perm, elems_bin, elems_bin in Hv. rewrite <- Permutation_middle in Hv. simpl in Hv.
  rewrite !Forall_cons, !Forall_app in Hv. destruct Hv as (Vx & Vy & (VA & VB & VC) & Vk).
  assert (HxB : (x ∉ elems B) /\ (y ∉ elems B) /\ (x ∉ frame_elems k) /\ (y ∉ frame_elems k)).
  { split_and!; intros Hz; [destruct (Hout x)|destruct (Hout y)|destruct (Hout x)|destruct (Hout y)]; try done; set_solver. }
  destruct HxB as (HxB & HyB & Hxk & Hyk).
  unfold rb_rotate.
  destruct (node_at_spec _ _ _ _ _ _ H Hx) as (n & E & F). rewrite (bind_Ret _ _ _ _ _ E). clear E.
  change (rb_parent n) with (c_parent (fields n)). rewrite child_fields, F. clear n F.
  rewrite (proj2 (child_bin _ _ _ _ _)). replace (c_parent (bin_cell d cx (top k) (addr A) y)) with (top k) by (by destruct d).
  destruct (node_at_spec _ _ _ _ _ _ H Hy) as (n & E & F). rewrite (bind_Ret _ _ _ _ _ E). clear E.
  rewrite child_fields, F. clear n F. rewrite (proj1 (child_bin _ _ _ _ _)).
  destruct (write_child _ _ _ _ _ (flip d) (addr B) H (mk_is_Some _ _ Hx)) as (s1 & E1 & H1). rewrite (bind_Ret _ _ _ _ _ E1).
  assert (E2 : exists s2, (if addr B =? 0 then ret tt else write_node (addr B) (rb_set_parent x)) s1 = Ret tt s2 /\
                 holds s2 (adopt B x (alter (cell_child (flip d) (addr B)) x a)) r m).
  { destruct B as [|c l z u]; simpl addr; [by exists s1|]. simpl in VB. rewrite Forall_app, Forall_cons in VB.
    rewrite (proj2 (Z.eqb_neq _ _)) by tauto. destruct HB as (Hz & _).
    refine (write_parent _ _ _ _ _ x H1 _ (proj1 Vx)). rewrite lookup_alter_ne; [by eexists|]. set_solver. }
  destruct E2 as (s2 & E2 & H2). rewrite (bind_Ret _ _ _ _ _ E2).
  assert (Hy2 : adopt B x (alter (cell_child (flip d) (addr B)) x a) !! y = a !! y).
  { rewrite adopt_ne by done. by apply lookup_alter_ne. }
  destruct (write_child _ _ _ _ _ d x H2 (mk_is_Some _ _ (eq_trans Hy2 Hy))) as (s3 & E3 & H3). rewrite (bind_Ret _ _ _ _ _ E3).
  destruct (write_parent _ _ _ _ y (top k) H3 ltac:(by rewrite lookup_alter_eq, Hy2, Hy)) as (s4 & E4 & H4).
  { destruct k as [|[e c z u] k]; simpl; [done|]. simpl in Vk. by apply Forall_cons in Vk as [[? _] _]. }
  rewrite (bind_Ret _ _ _ _ _ E4).
  destruct (relink_spec _ _ _ _ d k x y H4) as (s5 & E5 & H5); [| |done| |].
  { apply (rep_ctx_frame a); [|done]. intros z Hz. destruct (Hout z) as []; [set_solver|]. specialize (Hdk z Hz).
    rewrite !lookup_alter_ne by done. rewrite adopt_ne by set_solver. by apply lookup_alter_ne. }
  { apply Vx. }
  { destruct k as [|[e c z u] k]; simpl; [done|]. simpl in Vk. by apply Forall_cons in Vk as [[_ ?] _]. }
  rewrite (bind_Ret _ _ _ _ _ E5).
  destruct (write_parent _ _ _ _ x y H5) as (s6 & E6 & H6); [|apply Vy|].
  { rewrite relink_ne by done. rewrite !lookup_alter_ne by done. rewrite adopt_ne by done. by rewrite lookup_alter_eq, Hx. }
  exists s6, (rotated d k x y B a). eexists. done.
Qed.

(** *** On represented trees *)
Definition shape (s : rb_state N) (t : tree) (m : gmap Z P) : Prop :=
  exists a r, holds s a r m /\ heap_tree a r t.

Lemma shape_root s t m : shape s t m -> rb_root s = addr t.
Proof. intros (a & r & (_ & -> & _) & (-> & _)). done. Qed.

Lemma shape_addr s k d c t x u m : shape s (plug k (bin d c t x u)) m -> x <> 0 /\ (t <> E -> addr t <> addr u).
Proof.
  clear Hlaws. intros (a & r & _ & (_ & _ & Hnd & Hv)). rewrite elems_plug_perm, elems_bin in Hnd, Hv.
  simpl in Hv. rewrite Forall_cons, !Forall_app in Hv. destruct Hv as ((_ & Hx) & (Ht & Hu) & _). split; [done|].
  intros Hne. destruct t as [|ct tl y tr]; [done|]. intros Heq. destruct u as [|cu ul z ur]; simpl in *.
  - rewrite Forall_app, Forall_cons in Ht. subst. by destruct Ht as (_ & (_ & []) & _).
  - subst. apply NoDup_cons in Hnd as [_ Hnd]. rewrite !NoDup_app in Hnd. set_solver.
Qed.

Lemma shape_top s k t m : shape s (plug k t) m -> k <> [] -> top k <> 0.
Proof. clear Hlaws. destruct k as [|[d c x u] k]; intros H Hk; [done|]. exact (proj1 (shape_addr _ _ _ _ _ _ _ _ H)). Qed.

Lemma shape_node s k d c t x u m :
  shape s (plug k (bin d c t x u)) m ->
  exists n, node_at x s = Ret n s /\ fields n = bin_cell d c (top k) (addr t) (addr u).
Proof.
  intros (a & r & H & (_ & Hrep & _)). apply rep_plug in Hrep as [_ Hrep]. apply rep_bin in Hrep as [Hx _].
  exact (node_at_spec _ _ _ _ _ _ H Hx).
Qed.

Lemma shape_black s k t m : shape s (plug k t) m -> null_or_black (addr t) s = Ret (black_root t) s.
Proof.
  intros H. unfold null_or_black. destruct t as [|c l x r]; [done|]. simpl addr. rewrite (proj2 (Z.eqb_neq _ _)).
  2:{ exact (proj1 (shape_addr s k L c l x r m H)). }
  destruct (shape_node _ _ L _ _ _ _ _ H) as (n & E & F). rewrite (bind_Ret _ _ _ _ _ E). unfold is_black.
  change (rb_color n) with (c_color (fields n)). rewrite F. by destruct c.
Qed.

Lemma shape_rotate s k d cx cy A x B y C m :
  shape s (plug k (bin d cx A x (bin d cy B y C))) m ->
  exists s', rb_rotate d x s = Ret tt s' /\ shape s' (plug k (bin d cy (bin d cx A x B) y C)) m.
Proof using Hlaws.
  intros (a & r & H & Ht). destruct (rb_rotate_spec _ _ _ _ _ _ _ _ _ _ _ _ _ H Ht) as (s' & a' & r' & E & H' & Ht').
  exists s'. split; [done|]. by exists a', r'.
Qed.

Lemma elems_bin_color d c c' t x u : elems (bin d c t x u) = elems (bin d c' t x u).
Proof. by destruct d. Qed.

Lemma shape_color s k d c c' t x u m :
  shape s (plug k (bin d c t x u)) m ->
  exists s', write_node x (rb_set_color c') s = Ret tt s' /\ shape s' (plug k (bin d c' t x u)) m.
Proof using Hlaws.
  intros (a & r & H & (Hr & Hrep & Hnd & Hv)). rewrite rep_plug, rep_bin, addr_bin in Hrep. destruct Hrep as (Hk & Hx & Ht & Hu).
  destruct (write_color _ _ _ _ _ c' H (mk_is_Some _ _ Hx)) as (s' & E & H'). exists s'. split; [done|].
  exists (alter (cell_color c') x a), r. split; [done|]. unfold heap_tree.
  rewrite <- (elems_plug k _ _ (elems_bin_color d c c' t x u)). split_and!; [|clear Hv|done|done].
  { destruct k as [|f k]; [by rewrite Hr; simpl; rewrite !addr_bin|]. rewrite Hr. apply addr_plug. }
  rewrite rep_plug, rep_bin, addr_bin. rewrite elems_plug_perm, elems_bin in Hnd. simpl in Hnd.
  apply NoDup_cons in Hnd as [Hnd _]. split_and!.
  - apply (rep_ctx_frame a); [|done]. intros z Hz. apply lookup_alter_ne. set_solver.
  - rewrite lookup_alter_eq, Hx. by destruct d.
  - apply (rep_frame a); [|done]. intros z Hz. apply lookup_alter_ne. set_solver.
  - apply (rep_frame a); [|done]. intros z Hz. apply lookup_alter_ne. set_solver.
Qed.

(** *** Insertion *)
Lemma elems_blacken t : elems (blacken t) = elems t.
Proof. clear Hlaws. by destruct t. Qed.

Lemma shape_blacken s k t m :
  shape s (plug k t) m -> t <> E ->
  exists s', write_node (addr t) (rb_set_color Black) s = Ret tt s' /\ shape s' (plug k (blacken t)) m.
Proof using Hlaws. intros H Ht. destruct t as [|c l x r]; [done|]. exact (shape_color _ _ L _ Black _ _ _ _ H). Qed.

(** The uncle is red. *)
Lemma insert_case_red s k d e z p u g v t m :
  black_root v = false ->
  shape s (plug (Frame e Red p u :: Frame d Black g v :: k) t) m ->
  exists s', insert_case d z p g s = Ret g s' /\ shape s' (plug k (bin d Red (bin e Black t p u) g (blacken v))) m.
Proof using Hlaws.
  intros Hv H. destruct (shape_node s k d _ _ _ _ _ H) as (n & En & Fn). unfold insert_case.
  rewrite (bind_Ret _ _ _ _ _ En), child_fields, Fn, (proj2 (child_bin _ _ _ _ _)).
  assert (H' : shape s (plug (Frame (flip d) Black g (bin e Red t p u) :: k) v) m) by (simpl in *; by rewrite bin_flip).
  rewrite (bind_Ret _ _ _ _ _ (shape_black _ _ _ _ H')), Hv. cbv beta iota zeta delta [negb].
  destruct (shape_blacken _ _ _ _ H') as (s1 & E1 & H1); [by destruct v|]. rewrite (bind_Ret _ _ _ _ _ E1).
  simpl in H1. rewrite bin_flip in H1.
  destruct (shape_color s1 (Frame d Black g (blacken v) :: k) e _ Black _ _ _ _ H1) as (s2 & E2 & H2). rewrite (bind_Ret _ _ _ _ _ E2).
  destruct (shape_color s2 k d _ Red _ _ _ _ H2) as (s3 & E3 & H3). rewrite (bind_Ret _ _ _ _ _ E3).
  by exists s3.
Qed.

(** Both rotations end alike. *)
Lemma insert_rotate s k d X y M g v m :
  shape s (plug (Frame d Black g v :: k) (bin d Red X y M)) m ->
  exists s', (write_node y (rb_set_color Black) ;;; write_node g (rb_set_color Red) ;;; rb_rotate (flip d) g ;;; ret (addr X)) s
    = Ret (addr X) s' /\ shape s' (plug k (bin d Black X y (bin d Red M g v))) m.
Proof using Hlaws.
  intros H. destruct (shape_color s (Frame d Black g v :: k) d _ Black _ _ _ _ H) as (s1 & E1 & H1).
  rewrite (bind_Ret _ _ _ _ _ E1).
  destruct (shape_color s1 k d _ Red _ _ _ _ H1) as (s2 & E2 & H2). rewrite (bind_Ret _ _ _ _ _ E2).
  destruct (shape_rotate s2 k (flip d) Red Black v g M y X m) as (s3 & E3 & H3); [by rewrite !bin_flip|].
  rewrite (bind_Ret _ _ _ _ _ E3). exists s3. split; [done|]. by rewrite !bin_flip in H3.
Qed.

Lemma insert_case_black s k d e z p u g v B C m :
  black_root v = true ->
  shape s (plug (Frame e Red p u :: Frame d Black g v :: k) (bin d Red B z C)) m ->
  exists s' X y M, insert_case d z p g s = Ret (addr X) s' /\ shape s' (plug k (bin d Black X y (bin d Red M g v))) m /\
    ((X = bin d Red B z C /\ M = u /\ d = e) \/ (X = bin d Red u p B /\ M = C /\ e = flip d)) /\
    elems (bin d Black (bin e Red (bin d Red B z C) p u) g v) = elems (bin d Black X y (bin d Red M g v)).
Proof using Hlaws.
  intros Hv H. destruct (shape_node s k d _ _ _ _ _ H) as (n & En & Fn). unfold insert_case.
  rewrite (bind_Ret _ _ _ _ _ En), child_fields, Fn, (proj2 (child_bin _ _ _ _ _)).
  assert (H' : shape s (plug (Frame (flip d) Black g (bin e Red (bin d Red B z C) p u) :: k) v) m) by (simpl in *; by rewrite bin_flip).
  rewrite (bind_Ret _ _ _ _ _ (shape_black _ _ _ _ H')), Hv. cbv beta iota zeta delta [negb]. clear H' n En Fn.
  destruct (shape_node s (Frame d Black g v :: k) e _ _ _ _ _ H) as (n & En & Fn).
  rewrite (bind_Ret _ _ _ _ _ En), child_fields, Fn, addr_bin. clear n En Fn. destruct (side_eq e d) as [->| ->].
  - rewrite (proj2 (child_bin _ _ _ _ _)), (proj2 (Z.eqb_neq _ _)).
    2:{ destruct (shape_addr s (Frame d Black g v :: k) d Red _ p u m H) as [_ Hne]. rewrite addr_bin in Hne.
        intros Heq. by apply Hne; [apply bin_not_E|]. }
    erewrite bind_Ret by reflexivity. simpl fst. simpl snd.
    destruct (insert_rotate s k d (bin d Red B z C) p u g v m H) as (s' & E' & H'). rewrite addr_bin in E'.
    exists s', (bin d Red B z C), p, u. rewrite addr_bin. split_and!; [exact E'|exact H'|by left|].
    destruct d; simpl; repeat (rewrite <- app_assoc; simpl); done.
  - rewrite (proj1 (child_bin _ _ _ _ _)), Z.eqb_refl.
    destruct (shape_rotate s (Frame d Black g v :: k) d Red Red u p B z C m) as (s1 & E1 & H1).
    { simpl in *. by rewrite bin_flip in H. }
    erewrite bind_Ret by (rewrite (bind_Ret _ _ _ _ _ E1); reflexivity). simpl fst. simpl snd.
    destruct (insert_rotate s1 k d (bin d Red u p B) z C g v m H1) as (s' & E' & H'). rewrite addr_bin in E'.
    exists s', (bin d Red u p B), z, C. rewrite addr_bin. split_and!; [exact E'|exact H'|by right|].
    destruct d; simpl; repeat (rewrite <- app_assoc; simpl); done.
Qed.

Lemma red_black_blacken n t : wf n t -> red_black (blacken t).
Proof.
  clear Hlaws. destruct t as [|[] l x r]; intros H; split; try done; simpl in *; [by exists O| |by exists n].
  destruct H as (_ & _ & Hl & Hr). by exists (S n), n.
Qed.

Lemma plug_not_E k t : t <> E -> plug k t <> E.
Proof. clear Hlaws. revert t. induction k as [|[d c x u] k IH]; intros t Ht; simpl; [done|]. apply IH, bin_not_E. Qed.

Lemma insert_loop_stop fuel s k d l z r m :
  k = [] \/ top_black k = true -> shape s (plug k (bin d Red l z r)) m -> insert_loop fuel z s = Ret tt s.
Proof.
  intros Hk H. destruct (shape_node _ _ _ _ _ _ _ _ H) as (n & En & Fn).
  assert (E : forall k', (let* n := node_at z in (let parent := rb_parent n in if parent =? 0 then ret tt else
      let* p := node_at parent in if is_black p then ret tt else k' parent p)) s = Ret tt s).
  2:{ destruct fuel as [|fuel]; [exact (E (fun _ _ => fail NoFuel))|].
      exact (E (fun parent p => let* g := node_at (rb_parent p) in
        let* next := insert_case (if parent =? rb_child L g then L else R) z parent (rb_parent p) in insert_loop fuel next)). }
  intros k'. rewrite (bind_Ret _ _ _ _ _ En). cbv zeta. change (rb_parent n) with (c_parent (fields n)). rewrite Fn.
  replace (c_parent (bin_cell d Red (top k) (addr l) (addr r))) with (top k) by (by destruct d).
  destruct Hk as [->|Hk]; [done|]. destruct k as [|[e [] p u] k]; [done..|]. simpl top.
  destruct (shape_addr s k e Black _ p u m H) as [Hp _]. rewrite (proj2 (Z.eqb_neq _ _)) by done.
  destruct (shape_node s k e _ _ _ _ _ H) as (n2 & E2 & F2). rewrite (bind_Ret _ _ _ _ _ E2). unfold is_black.
  change (rb_color n2) with (c_color (fields n2)). rewrite F2. by destruct e.
Qed.

(** With the grandparent known, one round of the loop. *)
Lemma insert_loop_round fuel s k d e l z r p u g v m :
  shape s (plug (Frame e Red p u :: Frame d Black g v :: k) (bin d Red l z r)) m ->
  insert_loop (S fuel) z s = (let* next := insert_case d z p g in insert_loop fuel next) s.
Proof.
  intros H. destruct (shape_node s (Frame e Red p u :: Frame d Black g v :: k) _ _ _ _ _ _ H) as (n & En & Fn). cbn [insert_loop].
  rewrite (bind_Ret _ _ _ _ _ En). change (rb_parent n) with (c_parent (fields n)). rewrite Fn. clear n En Fn.
  replace (c_parent _) with p by (by destruct d).
  destruct (shape_addr s (Frame d Black g v :: k) e Red _ p u m H) as [Hp _]. rewrite (proj2 (Z.eqb_neq _ _)) by done.
  destruct (shape_node s (Frame d Black g v :: k) e _ _ _ _ _ H) as (n & En & Fn).
  rewrite (bind_Ret _ _ _ _ _ En). unfold is_black. change (rb_color n) with (c_color (fields n)).
  change (rb_parent n) with (c_parent (fields n)). rewrite Fn. clear n En Fn.
  replace (c_color _) with Red by (by destruct e). replace (c_parent _) with g by (by destruct e). cbv beta iota zeta.
  destruct (shape_node s k d _ _ _ _ _ H) as (n & En & Fn). rewrite (bind_Ret _ _ _ _ _ En).
  rewrite child_fields, Fn, addr_bin.
  destruct (shape_addr s k d Black _ g v m H) as [_ Hne]. specialize (Hne (bin_not_E _ _ _ _ _)). rewrite addr_bin in Hne.
  replace (if p =? c_child L (bin_cell d Black (top k) p (addr v)) then L else R) with d; [done|].
  destruct d; simpl; [by rewrite Z.eqb_refl|]. by rewrite (proj2 (Z.eqb_neq _ _)).
Qed.

Lemma insert_loop_spec m fuel : forall k n d l z r s,
  (length k <= fuel)%nat -> wf_ctx n k -> wf n (bin d Red l z r) -> shape s (plug k (bin d Red l z r)) m ->
  exists s' t', insert_loop fuel z s = Ret tt s' /\ shape s' t' m /\ elems t' = elems (plug k (bin d Red l z r)) /\
    red_black (blacken t') /\ t' <> E.
Proof using Hlaws.
  induction fuel as [fuel IH] using lt_wf_ind. intros k n d l z r s Hfuel Hk Ht H.
  destruct k as [|[e c p u] k].
  { exists s, (bin d Red l z r). split_and!; try done; [|exact (red_black_blacken n _ Ht)|apply bin_not_E].
    by apply (insert_loop_stop _ _ [] d l z r m); [left|]. }
  destruct c.
  2:{ exists s. eexists. split; [by apply (insert_loop_stop _ _ (Frame e Black p u :: k) d l z r m); [right|]|].
      split; [exact H|]. split; [done|].
      assert (Hrb : red_black (plug (Frame e Black p u :: k) (bin d Red l z r))) by (by eapply wf_plug).
      destruct Hrb as (_ & n' & Hn'). split; [exact (red_black_blacken n' _ Hn')|]. apply plug_not_E, bin_not_E. }
  simpl in Hk. destruct Hk as (Hu & Bu & Bk & Hk). destruct k as [|[d' [] g v] k]; [done..|].
  destruct Hk as (Hv & Hk). destruct (bin_any d d' Red l z r) as (B & C & HBC). rewrite HBC in *. clear HBC l r d. rename d' into d.
  apply wf_bin in Ht as (BB & BC & HB & HC).
  destruct fuel as [|fuel]; [simpl in Hfuel; lia|]. rewrite (insert_loop_round _ _ _ _ _ _ _ _ _ _ _ _ _ H).
  destruct (black_root v) eqn:Bv.
  - destruct (insert_case_black _ _ _ _ _ _ _ _ _ _ _ _ Bv H) as (s' & X & y & M & E & H' & Hcase & Hel).
    rewrite (bind_Ret _ _ _ _ _ E).
    assert (HX : (exists B' z' C', X = bin d Red B' z' C') /\ wf n X /\ wf n M /\ black_root M = true).
    { destruct Hcase as [(-> & -> & _)|(-> & -> & _)]; split_and!; try done; try (by do 3 eexists); by apply wf_bin. }
    destruct HX as ((B' & z' & C' & ->) & HX & HM & BM). rewrite addr_bin.
    exists s'. eexists. split; [|split; [exact H'|split; [|split]]].
    + by apply (insert_loop_stop _ _ (Frame d Black y (bin d Red M g v) :: k) d B' z' C' m); [right|].
    + simpl. apply elems_plug. by symmetry.
    + destruct (wf_plug k (S n) (bin d Black (bin d Red B' z' C') y (bin d Red M g v)) Hk) as (_ & n' & Hn').
      * apply wf_bin. exists n. split_and!; [done|done|]. by apply wf_bin.
      * intros _. apply black_bin.
      * exact (red_black_blacken n' _ Hn').
    + apply plug_not_E, bin_not_E.
  - destruct (insert_case_red s k d e z p u g v _ m Bv H) as (s' & E & H'). rewrite (bind_Ret _ _ _ _ _ E).
    destruct (IH fuel ltac:(lia) k (S n) d (bin e Black (bin d Red B z C) p u) g (blacken v) s' ltac:(simpl in Hfuel; lia) Hk)
      as (s2 & t2 & E2 & H2 & Hel & Hrb & Hne); [|exact H'|].
    + apply wf_bin. rewrite black_bin. split_and!; [done|by destruct v as [|[]]| |].
      * apply wf_bin. exists n. split_and!; [done| |done]. by apply wf_bin.
      * destruct v as [|[] vl w vr]; try done. simpl in Hv. exists n. tauto.
    + exists s2, t2. split_and!; try done. rewrite Hel. simpl. apply elems_plug.
      destruct d, e; simpl; by rewrite ?elems_blacken.
Qed.

(** A new red leaf in a red-black tree. *)
Lemma rb_insert_color_spec fuel k z s m :
  (length k <= fuel)%nat -> red_black (plug k E) -> shape s (plug k (T Red E z E)) m ->
  exists s' t', rb_insert_color fuel z s = Ret tt s' /\ shape s' t' m /\
    elems t' = elems (plug k (T Red E z E)) /\ red_black t'.
Proof using Hlaws.
  intros Hfuel Hrb H. destruct (plug_wf k E Hrb) as (n & Hk & Hn & _). simpl in Hn. subst n.
  destruct (insert_loop_spec m fuel k 0 L E z E s Hfuel Hk ltac:(done) H) as (s1 & t1 & E1 & H1 & Hel & Hb & Hne).
  unfold rb_insert_color. rewrite (bind_Ret _ _ _ _ _ E1). erewrite bind_Ret by reflexivity.
  rewrite (shape_root _ _ _ H1). destruct (shape_blacken s1 [] t1 m H1 Hne) as (s2 & E2 & H2).
  exists s2, (blacken t1). split_and!; [exact E2|exact H2| |done]. by rewrite elems_blacken.
Qed.

(** *** Rebalancing after a removal *)
Lemma erase_sibling_red s k d t p B y C m :
  shape s (plug k (bin d Black t p (bin d Red B y C))) m ->
  exists s', erase_sibling d p s = Ret (addr B) s' /\ shape s' (plug k (bin d Black (bin d Red t p B) y C)) m.
Proof using Hlaws.
  intros H. unfold erase_sibling. destruct (shape_node _ _ _ _ _ _ _ _ H) as (n & En & Fn).
  rewrite (bind_Ret _ _ _ _ _ En), child_fields, Fn, (proj2 (child_bin _ _ _ _ _)), addr_bin. clear n En Fn. cbv zeta.
  assert (H0 : shape s (plug (Frame (flip d) Black p t :: k) (bin d Red B y C)) m) by (simpl; by rewrite bin_flip).
  destruct (shape_node _ _ _ _ _ _ _ _ H0) as (n & En & Fn). rewrite (bind_Ret _ _ _ _ _ En). unfold is_black.
  change (rb_color n) with (c_color (fields n)). rewrite Fn. replace (c_color _) with Red by (by destruct d). cbn [negb]. clear n En Fn.
  destruct (shape_color _ _ _ _ Black _ _ _ _ H0) as (s1 & E1 & H1). rewrite (bind_Ret _ _ _ _ _ E1).
  simpl in H1. rewrite bin_flip in H1.
  destruct (shape_color _ _ _ _ Red _ _ _ _ H1) as (s2 & E2 & H2). rewrite (bind_Ret _ _ _ _ _ E2).
  destruct (shape_rotate _ _ _ _ _ _ _ _ _ _ _ H2) as (s3 & E3 & H3). rewrite (bind_Ret _ _ _ _ _ E3).
  destruct (shape_node s3 (Frame d Black y C :: k) _ _ _ _ _ _ H3) as (n & En & Fn).
  rewrite (bind_Ret _ _ _ _ _ En), child_fields, Fn, (proj2 (child_bin _ _ _ _ _)). by exists s3.
Qed.

Lemma erase_sibling_black s k d cp t p B y C m :
  shape s (plug k (bin d cp t p (bin d Black B y C))) m -> erase_sibling d p s = Ret y s.
Proof.
  intros H. unfold erase_sibling. destruct (shape_node _ _ _ _ _ _ _ _ H) as (n & En & Fn).
  rewrite (bind_Ret _ _ _ _ _ En), child_fields, Fn, (proj2 (child_bin _ _ _ _ _)), addr_bin. clear n En Fn. cbv zeta.
  assert (H0 : shape s (plug (Frame (flip d) cp p t :: k) (bin d Black B y C)) m) by (simpl; by rewrite bin_flip).
  destruct (shape_node _ _ _ _ _ _ _ _ H0) as (n & En & Fn). rewrite (bind_Ret _ _ _ _ _ En). unfold is_black.
  change (rb_color n) with (c_color (fields n)). rewrite Fn. by replace (c_color _) with Black by (by destruct d).
Qed.

Lemma erase_rotate_spec s k d cp c t p B y C m :
  C <> E -> shape s (plug k (bin d cp t p (bin d c B y C))) m ->
  exists s', erase_rotate d p y s = Ret tt s' /\ shape s' (plug k (bin d cp (bin d Black t p B) y (blacken C))) m.
Proof using Hlaws.
  intros HC H. unfold erase_rotate. destruct (shape_node _ _ _ _ _ _ _ _ H) as (n & En & Fn).
  rewrite (bind_Ret _ _ _ _ _ En). change (rb_color n) with (c_color (fields n)). rewrite Fn.
  replace (c_color _) with cp by (by destruct d). clear n En Fn.
  assert (H0 : shape s (plug (Frame (flip d) cp p t :: k) (bin d c B y C)) m) by (simpl; by rewrite bin_flip).
  destruct (shape_color _ _ _ _ cp _ _ _ _ H0) as (s1 & E1 & H1). rewrite (bind_Ret _ _ _ _ _ E1).
  simpl in H1. rewrite bin_flip in H1.
  destruct (shape_color _ _ _ _ Black _ _ _ _ H1) as (s2 & E2 & H2). rewrite (bind_Ret _ _ _ _ _ E2).
  assert (H3 : shape s2 (plug (Frame (flip d) Black p t :: k) (bin d cp B y C)) m) by (simpl; by rewrite bin_flip).
  destruct (shape_node _ _ _ _ _ _ _ _ H3) as (n & En & Fn). rewrite (bind_Ret _ _ _ _ _ En).
  rewrite child_fields, Fn, (proj2 (child_bin _ _ _ _ _)). clear n En Fn.
  destruct (shape_blacken s2 (Frame (flip d) cp y B :: Frame (flip d) Black p t :: k) C m) as (s3 & E3 & H4); [|done|].
  { simpl in *. by rewrite (bin_flip d cp). }
  rewrite (bind_Ret _ _ _ _ _ E3). simpl in H4. rewrite !bin_flip in H4. exact (shape_rotate _ _ _ _ _ _ _ _ _ _ _ H4).
Qed.

(** The red near child of the sibling comes up. *)
Lemma erase_near_spec s k d cp t p B1 w B2 y C m :
  shape s (plug k (bin d cp t p (bin d Black (bin d Red B1 w B2) y C))) m ->
  exists s', (write_node w (rb_set_color Black) ;;; write_node y (rb_set_color Red) ;;; rb_rotate (flip d) y ;;;
              let* p := node_at p in ret (rb_child (flip d) p)) s = Ret w s' /\
    shape s' (plug k (bin d cp t p (bin d Black B1 w (bin d Red B2 y C)))) m.
Proof using Hlaws.
  intros H. set (f := Frame (flip d) cp p t).
  assert (H0 : shape s (plug (Frame d Black y C :: f :: k) (bin d Red B1 w B2)) m) by (simpl; by rewrite (bin_flip d cp)).
  destruct (shape_color _ _ _ _ Black _ _ _ _ H0) as (s1 & E1 & H1). rewrite (bind_Ret _ _ _ _ _ E1).
  destruct (shape_color s1 (f :: k) d Black Red _ y _ m H1) as (s2 & E2 & H2). rewrite (bind_Ret _ _ _ _ _ E2).
  destruct (shape_rotate s2 (f :: k) (flip d) Red Black C y B2 w B1 m) as (s3 & E3 & H3).
  { by rewrite (bin_flip d Red), (bin_flip d Black). }
  rewrite (bind_Ret _ _ _ _ _ E3). rewrite (bin_flip d Red), (bin_flip d Black) in H3.
  simpl in H3. rewrite (bin_flip d cp) in H3. destruct (shape_node _ _ _ _ _ _ _ _ H3) as (n & En & Fn).
  rewrite (bind_Ret _ _ _ _ _ En), child_fields, Fn, (proj2 (child_bin _ _ _ _ _)), addr_bin. by exists s3.
Qed.

Lemma red_bin d t : black_root t = false -> exists l x r, t = bin d Red l x r.
Proof. clear Hlaws. destruct t as [|[] l x r]; try done. intros _. destruct d; by do 3 eexists. Qed.

Lemma erase_case_spec s s1 k d cp t p B y C m :
  erase_sibling d p s = Ret y s1 -> shape s1 (plug k (bin d cp t p (bin d Black B y C))) m ->
  if black_root B && black_root C then
    exists s', erase_case d p s = Ret (Some (p, top k)) s' /\ shape s' (plug k (bin d cp t p (bin d Red B y C))) m
  else
    exists s' X w Y, erase_case d p s = Ret None s' /\ shape s' (plug k (bin d cp (bin d Black t p X) w Y)) m /\
      elems (bin d cp t p (bin d Black B y C)) = elems (bin d cp (bin d Black t p X) w Y) /\
      (forall n, wf n B -> wf n C -> wf n X /\ wf (S n) Y /\ black_root Y = true).
Proof using Hlaws.
  intros E0 H. unfold erase_case.
  assert (H0 : shape s1 (plug (Frame (flip d) cp p t :: k) (bin d Black B y C)) m) by (simpl; by rewrite bin_flip).
  destruct (shape_node _ _ _ _ _ _ _ _ H0) as (n & En & Fn).
  assert (HB : null_or_black (rb_child d n) s1 = Ret (black_root B) s1).
  { rewrite child_fields, Fn, (proj1 (child_bin _ _ _ _ _)).
    exact (shape_black s1 (Frame d Black y C :: Frame (flip d) cp p t :: k) B m H0). }
  assert (HC : null_or_black (rb_child (flip d) n) s1 = Ret (black_root C) s1).
  { rewrite child_fields, Fn, (proj2 (child_bin _ _ _ _ _)). rewrite <- bin_flip in H0.
    exact (shape_black s1 (Frame (flip d) Black y B :: Frame (flip d) cp p t :: k) C m H0). }
  destruct (black_root B && black_root C) eqn:Hbc.
  - rewrite (bind_Ret _ _ _ _ _ E0), (bind_Ret _ _ _ _ _ En), (bind_Ret _ _ _ _ _ HB), (bind_Ret _ _ _ _ _ HC), Hbc.
    destruct (shape_color _ _ _ _ Red _ _ _ _ H0) as (s2 & E2 & H2). rewrite (bind_Ret _ _ _ _ _ E2).
    simpl in H2. rewrite bin_flip in H2. destruct (shape_node _ _ _ _ _ _ _ _ H2) as (n2 & En2 & Fn2).
    rewrite (bind_Ret _ _ _ _ _ En2). change (rb_parent n2) with (c_parent (fields n2)). rewrite Fn2.
    replace (c_parent _) with (top k) by (by destruct d). by exists s2.
  - rewrite (bind_Ret _ _ _ _ _ E0), (bind_Ret _ _ _ _ _ En), (bind_Ret _ _ _ _ _ HB), (bind_Ret _ _ _ _ _ HC), Hbc.
    cbv beta iota. clear E0 En HC. rewrite child_fields, Fn, (proj1 (child_bin _ _ _ _ _)). clear n Fn HB. destruct (black_root C) eqn:BC.
    + rewrite andb_true_r in Hbc. destruct (red_bin d B Hbc) as (B1 & w & B2 & ->). rewrite addr_bin.
      destruct (erase_near_spec _ _ _ _ _ _ _ _ _ _ _ _ H) as (s2 & E2 & H2). rewrite (bind_Ret _ _ _ _ _ E2).
      destruct (erase_rotate_spec _ _ _ _ _ _ _ _ _ _ _ (bin_not_E _ _ _ _ _) H2) as (s3 & E3 & H3). rewrite (bind_Ret _ _ _ _ _ E3).
      exists s3, B1, w, (blacken (bin d Red B2 y C)). split_and!; [done|done| |].
      * destruct d; simpl; repeat (rewrite <- app_assoc; simpl); done.
      * intros n HB HC. apply wf_bin in HB as (_ & _ & H1' & H2'). split; [done|].
        replace (blacken (bin d Red B2 y C)) with (bin d Black B2 y C) by (by destruct d).
        split; [|apply black_bin]. apply wf_bin. by exists n.
    + erewrite bind_Ret by reflexivity.
      destruct (erase_rotate_spec _ _ _ _ _ _ _ _ _ _ _ (ltac:(by intros ->) : C <> E) H) as (s3 & E3 & H3). rewrite (bind_Ret _ _ _ _ _ E3).
      exists s3, B, y, (blacken C). split_and!; [done|done| |].
      * rewrite (elems_rotate d cp Black cp cp). destruct d; simpl; by rewrite elems_blacken.
      * intros n HB HC. split; [done|]. destruct C as [|[] l x r]; try done. simpl in HC. split; [|done]. exists n. tauto.
Qed.

Lemma root_in_frames f k t : addr (plug (f :: k) t) ∈ frame_elems (f :: k).
Proof.
  clear Hlaws. revert f t. induction k as [|g k IH]; intros [d c x u] t; simpl.
  - rewrite addr_bin. by apply list_elem_of_here.
  - apply list_elem_of_further, elem_of_app. right. apply (IH g).
Qed.

Lemma shape_not_root s f k t m : shape s (plug (f :: k) t) m -> addr t <> addr (plug (f :: k) t).
Proof.
  clear Hlaws. intros (a & r & _ & (_ & _ & Hnd & Hv)) Heq. pose proof (root_in_frames f k t) as Hin. rewrite <- Heq in Hin.
  rewrite elems_plug_perm in Hnd, Hv. apply NoDup_app in Hnd as (_ & Hnd & _). apply Forall_app in Hv as [_ Hv].
  destruct t as [|c l x r']; simpl addr in *.
  - rewrite Forall_forall in Hv. by destruct (Hv _ Hin).
  - refine (Hnd x _ Hin). simpl. set_solver.
Qed.

(** The subtree of a context that is one black node short, or will not be once its
    red root is black. *)
Definition short (n : nat) (t : tree) : Prop := if black_root t then wf n t else wf (S n) (blacken t).

Lemma erase_loop_stop fuel s k t m :
  k = [] \/ black_root t = false -> shape s (plug k t) m -> erase_loop fuel (addr t) (top k) s = Ret (addr t) s.
Proof.
  intros Hk H.
  assert (E : forall k', (let* black := null_or_black (addr t) in let* s := get in
      if negb (black && negb (addr t =? rb_root s)) then ret (addr t) else k') s = Ret (addr t) s).
  { intros k'. rewrite (bind_Ret _ _ _ _ _ (shape_black _ _ _ _ H)). erewrite bind_Ret by reflexivity.
    rewrite (shape_root _ _ _ H). destruct Hk as [->|Hk]; [|by rewrite Hk]. simpl plug. rewrite Z.eqb_refl. by destruct (black_root t). }
  destruct fuel as [|fuel]; [exact (E (fail NoFuel))|].
  exact (E (let* p := node_at (top k) in
            let* next := erase_case (if rb_child L p =? addr t then L else R) (top k) in
            match next with
            | Some (node, parent) => erase_loop fuel node parent
            | None => let* s := get in ret (rb_root s)
            end)).
Qed.

Lemma erase_loop_round fuel s k d c p u t m :
  black_root t = true -> u <> E -> shape s (plug (Frame d c p u :: k) t) m ->
  erase_loop (S fuel) (addr t) p s
  = (let* next := erase_case d p in
     match next with
     | Some (node, parent) => erase_loop fuel node parent
     | None => let* s := get in ret (rb_root s)
     end) s.
Proof.
  intros Ht Hu H. cbn [erase_loop]. rewrite (bind_Ret _ _ _ _ _ (shape_black _ _ _ _ H)). erewrite bind_Ret by reflexivity.
  rewrite Ht, (shape_root _ _ _ H), (proj2 (Z.eqb_neq _ _)) by (by eapply shape_not_root). cbn [negb andb].
  destruct (shape_node s k d _ _ _ _ _ H) as (n & En & Fn). rewrite (bind_Ret _ _ _ _ _ En), child_fields, Fn.
  replace (if c_child L (bin_cell d c (top k) (addr t) (addr u)) =? addr t then L else R) with d; [done|].
  destruct d; simpl; [by rewrite Z.eqb_refl|]. rewrite (proj2 (Z.eqb_neq _ _)); [done|].
  exact (proj2 (shape_addr s k L c u p t m H) Hu).
Qed.

Lemma wf_not_E n t : wf (S n) t -> t <> E.
Proof. clear Hlaws. by intros H ->. Qed.

Lemma short_stop n k t :
  k = [] \/ black_root t = false -> wf_ctx (S n) k -> short n t -> red_black (plug k (blacken t)).
Proof.
  clear Hlaws. unfold short. intros Hk Hw Ht.
  assert (Hb : black_root (blacken t) = true) by (by destruct t). destruct (black_root t) eqn:B.
  - destruct Hk as [->|Hk]; [|done]. exact (red_black_blacken n _ Ht).
  - apply (wf_plug k (S n)); [done..|]. by intros _.
Qed.

(** The loop ends at a node whose blackening makes the tree a red-black tree. *)
Definition erase_done (m : gmap Z P) (t0 : tree) (c : Cmd (rb_state N) Z) (s : rb_state N) : Prop :=
  exists s' k' t', c s = Ret (addr t') s' /\ shape s' (plug k' t') m /\
    elems (plug k' t') = elems t0 /\ red_black (plug k' (blacken t')).

Lemma erase_done_break s k t m t0 :
  shape s (plug k t) m -> elems (plug k t) = elems t0 -> red_black (plug k t) ->
  erase_done m t0 (let* s := get in ret (rb_root s)) s.
Proof.
  clear Hlaws. intros H Hel [_ (n & Hn)]. exists s, [], (plug k t). split_and!; [|done|done|exact (red_black_blacken n _ Hn)].
  erewrite bind_Ret by reflexivity. by rewrite (shape_root _ _ _ H).
Qed.

Lemma erase_done_stop fuel s k n t m :
  k = [] \/ black_root t = false -> wf_ctx (S n) k -> short n t -> shape s (plug k t) m ->
  erase_done m (plug k t) (erase_loop fuel (addr t) (top k)) s.
Proof.
  intros Hs Hk Ht H. exists s, k, t. split_and!; [by eapply erase_loop_stop|done|done|by eapply short_stop].
Qed.

(** One round below a black sibling; [Hrec]: the rounds above a black parent. *)
Lemma erase_round fuel m n s s1 k d cp t p B y C :
  erase_sibling d p s = Ret y s1 -> shape s1 (plug k (bin d cp t p (bin d Black B y C))) m ->
  black_root t = true -> wf n t -> wf n B -> wf n C ->
  wf_ctx (match cp with Red => S n | Black => S (S n) end) k -> (cp = Red -> top_black k = true) ->
  (cp = Black -> black_root B && black_root C = true -> forall s', shape s' (plug k (bin d cp t p (bin d Red B y C))) m ->
    erase_done m (plug k (bin d cp t p (bin d Red B y C))) (erase_loop fuel p (top k)) s') ->
  erase_done m (plug k (bin d cp t p (bin d Black B y C)))
    (let* next := erase_case d p in
     match next with
     | Some (node, parent) => erase_loop fuel node parent
     | None => let* s := get in ret (rb_root s)
     end) s.
Proof using Hlaws.
  intros E0 H Bt Ht HB HC Hk Htop Hrec. pose proof (erase_case_spec _ _ _ _ _ _ _ _ _ _ _ E0 H) as Hcase.
  destruct (black_root B && black_root C) eqn:Hbc.
  - destruct Hcase as (s' & E' & H'). unfold erase_done. rewrite (bind_Ret _ _ _ _ _ E').
    assert (Hel : elems (plug k (bin d cp t p (bin d Red B y C))) = elems (plug k (bin d cp t p (bin d Black B y C))))
      by (apply elems_plug; by destruct d).
    rewrite <- Hel. destruct cp; [|exact (Hrec eq_refl eq_refl s' H')].
    pose proof (erase_done_stop fuel s' k n (bin d Red t p (bin d Red B y C)) m) as Hstop. rewrite addr_bin in Hstop.
    apply Hstop; [right; apply black_bin|done| |done]. unfold short. rewrite black_bin.
    replace (blacken (bin d Red t p (bin d Red B y C))) with (bin d Black t p (bin d Red B y C)) by (by destruct d).
    apply wf_bin. exists n. split_and!; [done|done|]. apply wf_bin. by apply andb_true_iff in Hbc as [? ?].
  - destruct Hcase as (s' & X & w & Y & E' & H' & Hel & Hwf). destruct (Hwf n HB HC) as (HX & HY & BY).
    unfold erase_done. rewrite (bind_Ret _ _ _ _ _ E'). rewrite (elems_plug k _ _ Hel).
    assert (Hl : wf (S n) (bin d Black t p X)) by (apply wf_bin; by exists n).
    apply (erase_done_break s' k _ m (plug k (bin d cp (bin d Black t p X) w Y)) H'); [done|].
    eapply wf_plug; [exact Hk| |].
    + destruct cp; apply wf_bin; [|by exists (S n)]. split_and!; [apply black_bin|done..].
    + intros Hf. destruct cp; [by rewrite Htop in Hf|apply black_bin].
Qed.

Lemma erase_loop_spec m fuel : forall k n t s,
  (length k <= fuel)%nat -> wf_ctx (S n) k -> short n t -> shape s (plug k t) m ->
  erase_done m (plug k t) (erase_loop fuel (addr t) (top k)) s.
Proof using Hlaws.
  induction fuel as [|fuel IH]; intros k n t s Hfuel Hk Ht H.
  { destruct k; [|simpl in Hfuel; lia]. apply (erase_done_stop _ _ _ n); auto. }
  destruct k as [|[d cp p u] k]; [apply (erase_done_stop _ _ _ n); auto|].
  destruct (black_root t) eqn:Bt; [|apply (erase_done_stop _ _ _ n); auto].
  assert (Ht' : wf n t) by (unfold short in Ht; by rewrite Bt in Ht).
  assert (Hu : wf (S n) u) by (by destruct cp, Hk). pose proof (wf_not_E _ _ Hu) as Hne.
  unfold erase_done. rewrite (erase_loop_round _ _ _ _ _ _ _ _ _ Bt Hne H).
  destruct (black_root u) eqn:Bu.
  - assert (Hu' : exists B y C, u = bin d Black B y C)
      by (destruct u as [|[] B y C]; try done; destruct d; by do 3 eexists).
    destruct Hu' as (B & y & C & ->). apply wf_bin in Hu as (n' & [= <-] & HB & HC). simpl in H.
    apply (erase_round fuel m n s s k d cp t p B y C); try done.
    + by eapply erase_sibling_black.
    + by destruct cp, Hk as (? & Hk); [apply Hk|].
    + intros ->. apply Hk.
    + intros -> Hbc s' H'. pose proof (IH k (S n) (bin d Black t p (bin d Red B y C)) s') as HI. rewrite addr_bin in HI.
      apply HI; [simpl in Hfuel; lia|apply Hk| |done]. unfold short. rewrite black_bin. apply wf_bin. exists n.
      apply andb_true_iff in Hbc as [? ?]. split_and!; [done|done|]. apply wf_bin. split_and!; done.
  - destruct (red_bin d u Bu) as (B & y & C & ->). apply wf_bin in Hu as (BB & BC & HB & HC). destruct cp; [destruct Hk as (_ & Hb & _); by rewrite black_bin in Hb|].
    simpl in H. destruct (erase_sibling_red _ _ _ _ _ _ _ _ _ H) as (s1 & E1 & H1).
    assert (HB' : exists B' z C', B = bin d Black B' z C').
    { destruct B as [|[] B' z C']; try done. destruct d; by do 3 eexists. }
    destruct HB' as (B' & z & C' & ->). rewrite addr_bin in E1. apply wf_bin in HB as (n' & [= <-] & HB' & HC').
    assert (Hel : elems (plug (Frame d Black p (bin d Red (bin d Black B' z C') y C) :: k) t)
                  = elems (plug (Frame d Black y C :: k) (bin d Red t p (bin d Black B' z C')))).
    { exact (elems_plug k _ _ (elems_rotate d Black Red Red Black t p (bin d Black B' z C') y C)). }
    unfold erase_done. rewrite Hel.
    apply (erase_round fuel m n s s1 (Frame d Black y C :: k) d Red t p B' z C'); try done. split; [done|apply Hk].
Qed.

(** A subtree that is one black node short; [node] is NULL when it is empty. *)
Lemma rb_erase_color_spec fuel k n t s m :
  (length k <= fuel)%nat -> wf_ctx (S n) k -> short n t -> shape s (plug k t) m ->
  exists s' t', rb_erase_color fuel (addr t) (top k) s = Ret tt s' /\ shape s' t' m /\ elems t' = elems (plug k t) /\ red_black t'.
Proof using Hlaws.
  intros Hfuel Hk Ht H. destruct (erase_loop_spec m fuel k n t s Hfuel Hk Ht H) as (s1 & k1 & t1 & E1 & H1 & Hel & Hrb).
  unfold rb_erase_color. rewrite (bind_Ret _ _ _ _ _ E1). destruct (Z.eqb_spec (addr t1) 0) as [Hz|Hz].
  - assert (t1 = E) as ->.
    { destruct t1 as [|c l x r]; [done|]. by destruct (shape_addr s1 k1 L c l x r m H1) as []. }
    by exists s1, (plug k1 E).
  - destruct (shape_blacken s1 k1 t1 m H1) as (s2 & E2 & H2); [by intros ->|].
    exists s2. eexists. split; [exact E2|]. split; [exact H2|]. split; [|done]. rewrite <- Hel. apply elems_plug. apply elems_blacken.
Qed.
End Laws.

(** ** The node of src/include/epoll.h

    The parent and the color share a word; pointers are aligned to four bytes. *)
Record rb_node : Type := PackedNode { rb_parent_color : Z; rb_right : Z; rb_left : Z }.
Definition packed_parent (r : rb_node) : Z := Z.land (rb_parent_color r) (Z.lnot 3).
Definition packed_color (r : rb_node) : Z := Z.land (rb_parent_color r) 1.
Definition set_parent_color (v : Z) (r : rb_node) : rb_node := PackedNode v (rb_right r) (rb_left r).
Definition packed_set_red (r : rb_node) : rb_node := set_parent_color (Z.land (rb_parent_color r) (Z.lnot 1)) r.
Definition packed_set_black (r : rb_node) : rb_node := set_parent_color (Z.lor (rb_parent_color r) 1) r.
Definition packed_set_parent (p : Z) (r : rb_node) : rb_node := set_parent_color (Z.lor (Z.land (rb_parent_color r) 3) p) r.
Definition packed_set_color (c : Z) (r : rb_node) : rb_node :=
  set_parent_color (Z.lor (Z.land (rb_parent_color r) (Z.lnot 1)) c) r.

#[export] Instance packed_node : RbNode rb_node := {|
  RbTree.rb_parent := packed_parent;
  RbTree.rb_color := fun r => if packed_color r =? 0 then Red else Black;
  RbTree.rb_child := fun d r => match d with L => rb_left r | R => rb_right r end;
  RbTree.rb_set_parent := packed_set_parent;
  RbTree.rb_set_color := fun c => match c with Red => packed_set_red | Black => packed_set_black end;
  RbTree.rb_set_child := fun d p r =>
    match d with L => PackedNode (rb_parent_color r) (rb_right r) p | R => PackedNode (rb_parent_color r) p (rb_left r) end;
  RbTree.first_side := fun d => d |}.

(** [rb_set_color] with the color of another node is one of the two macros. *)
Lemma packed_set_color_eq r q :
  packed_set_color (packed_color q) r = RbTree.rb_set_color (RbTree.rb_color q) r.
Proof.
  unfold packed_set_color, packed_color, RbTree.rb_color, RbTree.rb_set_color. simpl. unfold packed_color.
  assert (H : Z.land (rb_parent_color q) 1 = 0 \/ Z.land (rb_parent_color q) 1 = 1).
  { pose proof (Z.land_ones (rb_parent_color q) 1 ltac:(lia)) as He. change (Z.ones 1) with 1 in He. change (2 ^ 1) with 2 in He.
    rewrite He. pose proof (Z.mod_pos_bound (rb_parent_color q) 2 ltac:(lia)). lia. }
  destruct H as [-> | ->]; simpl; unfold packed_set_red, packed_set_black; f_equal.
  - apply Z.lor_0_r.
  - apply Z.bits_inj'. intros i Hi. rewrite !Z.lor_spec, Z.land_spec, Z.lnot_spec by done.
    destruct (Z.testbit (rb_parent_color r) i), (Z.testbit 1 i); done.
Qed.

Lemma aligned_low p : aligned p -> Z.land p 3 = 0.
Proof. intros [_ H]. change 3 with (Z.ones 2). by rewrite Z.land_ones by lia. Qed.

Lemma low_bit v w : Z.land v 3 = Z.land w 3 -> Z.land v 1 = Z.land w 1.
Proof. intros H. change 1 with (Z.land 3 1). by rewrite !Z.land_assoc, H. Qed.

Lemma low_high v : Z.land (Z.land v 3) (Z.lnot 3) = 0.
Proof. rewrite <- Z.land_assoc. change (Z.land 3 (Z.lnot 3)) with 0. apply Z.land_0_r. Qed.

Lemma packed_fields c p r :
  aligned p -> fields (packed_set_parent p r) = cell_parent p (fields r) /\
  fields (match c with Red => packed_set_red r | Black => packed_set_black r end) = cell_color c (fields r).
Proof.
  intros Hp. pose proof (aligned_low p Hp) as Hl. unfold fields, cell_parent, cell_color. simpl.
  unfold packed_color, packed_parent, packed_set_parent, packed_set_red, packed_set_black. destruct r as [v ri le]. simpl.
  assert (Hp3 : Z.land p (Z.lnot 3) = p).
  { replace p with (Z.lor (Z.land p 3) (Z.land p (Z.lnot 3))) at 2 by (rewrite <- Z.land_lor_distr_r; apply Z.land_m1_r).
    by rewrite Hl, Z.lor_0_l. }
  split.
  - rewrite (low_bit (Z.lor (Z.land v 3) p) v).
    + f_equal. by rewrite Z.land_lor_distr_l, low_high, Z.lor_0_l.
    + rewrite Z.land_lor_distr_l, Hl, Z.lor_0_r, <- Z.land_assoc. done.
  - destruct c; simpl.
    + rewrite <- !Z.land_assoc. change (Z.land (Z.lnot 1) 1) with 0. rewrite Z.land_0_r.
      change (Z.land (Z.lnot 1) (Z.lnot 3)) with (Z.lnot 3). done.
    + rewrite !Z.land_lor_distr_l. change (Z.land 1 (Z.lnot 3)) with 0. rewrite Z.lor_0_r. change (Z.land 1 1) with 1.
      rewrite (proj2 (Z.eqb_neq (Z.lor (Z.land v 1) 1) 0)); [done|]. intros H. apply Z.lor_eq_0_iff in H. lia.
Qed.

#[export] Instance packed_laws : RbNodeLaws rb_node unit (fun _ => tt).
Proof.
  split; intros; try done.
  - exact (proj1 (packed_fields Red _ _ ltac:(done))).
  - destruct k; [exact (proj2 (packed_fields Red 0 n ltac:(done)))|exact (proj2 (packed_fields Black 0 n ltac:(done)))].
  - by destruct d.
Qed.

(** A concrete heap represents a concrete tree. *)
Ltac solve_shape :=
  eexists _, _; split; [split_and!; reflexivity|];
  split_and!; [reflexivity|simpl; split_and?; (reflexivity || exact I)|
    repeat (apply NoDup_cons; split; [set_solver|]); apply NoDup_nil; exact I|
    repeat (apply Forall_cons; split; [split; [split; [lia|reflexivity]|discriminate]|]); apply Forall_nil; exact I].

(** ** Balance *)
Fixpoint height (t : tree) : nat := match t with E => 0 | T _ l _ r => S (Nat.max (height l) (height r)) end.

Lemma wf_bounds t : forall n, wf n t ->
  (height t <= 2 * n + (if black_root t then 0 else 1))%nat /\ (2 ^ n <= S (length (elems t)))%nat.
Proof.
  induction t as [|[] l IHl x r IHr]; intros n Hn; simpl in Hn.
  - subst n. simpl. lia.
  - destruct Hn as (Bl & Br & Hl & Hr). destruct (IHl n Hl) as [H1 H2], (IHr n Hr) as [H3 H4].
    rewrite Bl in H1. rewrite Br in H3. simpl height. simpl black_root. simpl elems. rewrite length_app. simpl. lia.
  - destruct Hn as (n' & -> & Hl & Hr). destruct (IHl n' Hl) as [H1 H2], (IHr n' Hr) as [H3 H4].
    simpl height. simpl black_root. simpl elems. rewrite length_app. simpl length. rewrite Nat.pow_succ_r'.
    destruct (black_root l), (black_root r); lia.
Qed.

(** The height is at most twice the logarithm of the number of nodes. *)
Definition balanced (t : tree) : Prop := exists n, (height t <= 2 * n)%nat /\ (2 ^ n <= S (length (elems t)))%nat.
Lemma red_black_balanced t : red_black t -> balanced t.
Proof. intros (Hb & n & Hn). exists n. destruct (wf_bounds t n Hn) as [H1 H2]. rewrite Hb in H1. split; lia. Qed.

(** C4. The rebalancing of src/src/rbtree.c.  From a red-black tree with a new red
    leaf, [rb_insert_color] makes a red-black tree again, and from one in which the
    subtree at [node], empty or not, has one black node too few on its paths,
    [rb_erase_color] does.  Both end within as many rounds as the node is deep, keep
    the order of all nodes and the parent pointers right, and leave the height at
    most twice the logarithm of the size. *)
Theorem rb_rebalance (fuel : nat) (k : list frame) (s : rb_state rb_node) (m : gmap Z unit)
    (Hfuel : (length k <= fuel)%nat) :
  (forall z, red_black (plug k E) -> shape (fun _ => tt) s (plug k (T Red E z E)) m ->
    exists s' t', rb_insert_color fuel z s = Ret tt s' /\ shape (fun _ => tt) s' t' m /\
      elems t' = elems (plug k (T Red E z E)) /\ red_black t' /\ balanced t') /\
  (forall n t, wf_ctx (S n) k -> short n t -> shape (fun _ => tt) s (plug k t) m ->
    exists s' t', rb_erase_color fuel (addr t) (top k) s = Ret tt s' /\ shape (fun _ => tt) s' t' m /\
      elems t' = elems (plug k t) /\ red_black t' /\ balanced t').
Proof.
  split.
  - intros z Hrb H. destruct (rb_insert_color_spec (fun _ => tt) fuel k z s m Hfuel Hrb H) as (s' & t' & E & H' & Hel & Hb).
    exists s', t'. split_and!; try done. by apply red_black_balanced.
  - intros n t Hk Ht H. destruct (rb_erase_color_spec (fun _ => tt) fuel k n t s m Hfuel Hk Ht H) as (s' & t' & E & H' & Hel & Hb).
    exists s', t'. split_and!; try done. by apply red_black_balanced.
Qed.

(** The third node on one side is linked; and the last left node is gone. *)
Definition packed_line : rb_state rb_node :=
  RbState {[ 8 := PackedNode 1 16 0; 16 := PackedNode 8 24 0; 24 := PackedNode 16 0 0 ]} 8.
Definition packed_short : rb_state rb_node :=
  RbState {[ 8 := PackedNode 1 16 0; 16 := PackedNode 9 24 0; 24 := PackedNode 16 0 0 ]} 8.

Lemma rb_rebalance_witness :
  (exists s' t', rb_insert_color 2 24 packed_line = Ret tt s' /\ elems t' = [8; 16; 24] /\ red_black t' /\ rb_root s' = addr t') /\
  (exists s' t', rb_erase_color 1 0 8 packed_short = Ret tt s' /\ elems t' = [8; 16; 24] /\ red_black t' /\ rb_root s' = addr t').
Proof.
  split.
  - destruct (proj1 (rb_rebalance 2 [Frame R Red 16 E; Frame R Black 8 E] packed_line {[ 8 := tt; 16 := tt; 24 := tt ]} ltac:(simpl; lia)) 24)
      as (s' & t' & H & Hs & Hel & Hrb & _).
    + split; [done|]. exists 1%nat, 0%nat. done.
    + solve_shape.
    + exists s', t'. split_and!; [exact H|exact Hel|exact Hrb|exact (shape_root _ _ _ _ Hs)].
  - destruct (proj2 (rb_rebalance 1 [Frame L Black 8 (T Black E 16 (T Red E 24 E))] packed_short {[ 8 := tt; 16 := tt; 24 := tt ]}
      ltac:(simpl; lia)) 0%nat E) as (s' & t' & H & Hs & Hel & Hrb & _).
    + split; [|done]. exists 0%nat. done.
    + done.
    + solve_shape.
    + exists s', t'. split_and!; [exact H|exact Hel|exact Hrb|exact (shape_root _ _ _ _ Hs)].
Defined.
