(* ===== verification/RbSearch.v ===== *)
(** * RbSearch

    The search order of the trees of RbTree: the walk to the place of a new node,
    which src/src/epoll.c and src/src/scheduler_fair.c write out with a pointer to
    a pointer, the search for a key, and the first node. *)
From stdpp Require Import sorting.
From S2P Require Import Prelude RbTree.

(** ** Operations *)

(** What [&root] and [&node->left] point to. *)
Inductive slot : Type := Root | Child (d : side) (x : Z).

Section Operations.
Context {N : Type} `{!RbNode N}.

Definition read_slot (p : slot) : Cmd (rb_state N) Z :=
  match p with
  | Root => gets rb_root
  | Child d x => let* n := node_at x in ret (rb_child d n)
  end.
Definition write_slot (p : slot) (v : Z) : Cmd (rb_state N) unit :=
  match p with
  | Root => set_root v
  | Child d x => write_node x (rb_set_child d v)
  end.

(** [while ( *new) ...] with [k] the key of the new node. *)
Fixpoint find_slot (fuel : nat) (key : N -> Z) (k : Z) (parent : Z) (new : slot) : Cmd (rb_state N) (Z * slot) :=
  let* cur := read_slot new in
  if cur =? 0 then ret (parent, new) else
  match fuel with
  | O => fail NoFuel
  | S fuel' =>
      let* entry := node_at cur in
      find_slot fuel' key k cur (Child (if k <? key entry then L else R) cur)
  end.

(** A red leaf at the place found. *)
Definition link_leaf (node parent : Z) (new : slot) : Cmd (rb_state N) unit :=
  write_node node (rb_set_parent parent) ;;;
  write_node node (rb_set_child R 0) ;;;
  write_node node (rb_set_child L 0) ;;;
  write_node node (rb_set_color Red) ;;;
  write_slot new node.

(** [while (node->left) node = node->left]. *)
Fixpoint leftmost (fuel : nat) (node : Z) : Cmd (rb_state N) Z :=
  let* n := node_at node in
  if rb_child L n =? 0 then ret node else
  match fuel with
  | O => fail NoFuel
  | S fuel' => leftmost fuel' (rb_child L n)
  end.

(** The search of [find_epitem]; 0 is NULL. *)
Fixpoint find_key (fuel : nat) (key : N -> Z) (k : Z) (node : Z) : Cmd (rb_state N) Z :=
  if node =? 0 then ret 0 else
  match fuel with
  | O => fail NoFuel
  | S fuel' =>
      let* n := node_at node in
      if k <? key n then find_key fuel' key k (rb_child L n)
      else if key n <? k then find_key fuel' key k (rb_child R n)
      else ret node
  end.
End Operations.

(** ** Where a context is in the order *)
Definition slot_of (k : list frame) : slot := match k with [] => Root | f :: _ => Child (f_side f) (f_addr f) end.
Fixpoint before (k : list frame) : list Z :=
  match k with
  | [] => []
  | Frame L _ _ _ :: k => before k
  | Frame R _ x u :: k => before k ++ elems u ++ [x]
  end.
Fixpoint after (k : list frame) : list Z :=
  match k with
  | [] => []
  | Frame L _ x u :: k => x :: elems u ++ after k
  | Frame R _ _ _ :: k => after k
  end.

Lemma elems_plug_split k : forall t, elems (plug k t) = before k ++ elems t ++ after k.
Proof.
  induction k as [|[[] c x u] k IH]; intros t; simpl; [by rewrite app_nil_r| |]; rewrite IH; simpl;
    repeat (rewrite <- app_assoc; simpl); done.
Qed.

(** Depth of a tree: a bound for every walk down. *)
Lemma depth_frames k t : (length k <= length (elems (plug k t)))%nat.
Proof.
  rewrite elems_plug_perm, length_app. enough (length k <= length (frame_elems k))%nat by lia.
  induction k as [|[d c x u] k IH]; simpl; [lia|]. rewrite length_app. lia.
Qed.

Lemma sorted_impl {A} (R1 R2 : relation A) l :
  (forall a b, R1 a b -> R2 a b) -> StronglySorted R1 l -> StronglySorted R2 l.
Proof.
  intros H. induction 1 as [|a l _ IH Hl]; constructor; [done|]. eapply Forall_impl; [exact Hl|]. auto.
Qed.

Section Laws.
Context {N P : Type} `{!RbNode N} (payload : N -> P) `{Hlaws : !RbNodeLaws N P payload}.

Lemma read_slot_spec s k t m : shape payload s (plug k t) m -> read_slot (slot_of k) s = Ret (addr t) s.
Proof.
  intros H. destruct k as [|[d c x u] k]; simpl.
  - unfold gets. by rewrite (shape_root _ _ _ _ H).
  - destruct (shape_node payload s k d _ _ _ _ _ H) as (n & En & Fn). rewrite (bind_Ret _ _ _ _ _ En), child_fields, Fn.
    by rewrite (proj1 (child_bin _ _ _ _ _)).
Qed.

(** The payload of a node, and its key. *)
Lemma shape_payload s k c l x r m n :
  shape payload s (plug k (T c l x r)) m -> node_at x s = Ret n s -> m !! x = Some (payload n).
Proof.
  intros (a & r0 & (_ & _ & <-) & _) En. unfold node_at in En. erewrite bind_Ret in En by reflexivity.
  rewrite lookup_fmap. destruct (rb_nodes s !! x); [|done]. by injection En as ->.
Qed.

(** Changing what is not a link; a new node; a node that goes. *)
Lemma shape_payload_update (s : rb_state N) t m z e e' :
  shape payload s t m -> rb_nodes s !! z = Some e -> fields e' = fields e ->
  shape payload (RbState (<[z := e']> (rb_nodes s)) (rb_root s)) t (<[z := payload e']> m).
Proof.
  intros (a & r & (<- & Hr & <-) & Ht) He Hf. exists (fields <$> rb_nodes s), r. split; [|done].
  split_and!; simpl; [|done|by rewrite fmap_insert]. rewrite fmap_insert, Hf. apply insert_id. by rewrite lookup_fmap, He.
Qed.

Lemma heap_tree_frame a a' r t :
  heap_tree a r t -> (forall y, y ∈ elems t -> a' !! y = a !! y) -> heap_tree a' r t.
Proof. intros (Hr & Hrep & Hnd & Hv) H. split_and!; [done|by eapply rep_frame|done|done]. Qed.

Lemma shape_new (s : rb_state N) t m z e :
  shape payload s t m -> z ∉ elems t -> shape payload (RbState (<[z := e]> (rb_nodes s)) (rb_root s)) t (<[z := payload e]> m).
Proof.
  intros (a & r & (<- & Hr & <-) & Ht) Hz. exists (fields <$> <[z := e]> (rb_nodes s)), r. split.
  - split_and!; simpl; [done|done|by rewrite fmap_insert].
  - apply (heap_tree_frame _ _ _ _ Ht). intros y Hy. rewrite fmap_insert. apply lookup_insert_ne. by intros ->.
Qed.

Lemma shape_delete (s : rb_state N) t m z :
  shape payload s t m -> z ∉ elems t -> shape payload (RbState (delete z (rb_nodes s)) (rb_root s)) t (delete z m).
Proof.
  intros (a & r & (<- & Hr & <-) & Ht) Hz. exists (fields <$> delete z (rb_nodes s)), r. split.
  - split_and!; simpl; [done|done|by rewrite fmap_delete].
  - apply (heap_tree_frame _ _ _ _ Ht). intros y Hy. rewrite fmap_delete. apply lookup_delete_ne. by intros ->.
Qed.

(** The nodes of the tree are in the heap. *)
Lemma shape_elem s t m x : shape payload s t m -> x ∈ elems t -> is_Some (rb_nodes s !! x).
Proof.
  intros (a & r & (<- & _ & _) & (_ & Hrep & _ & _)). revert Hrep. generalize 0.
  induction t as [|c l IHl y r' IHr]; intros p Hrep Hin; simpl in *; [by apply not_elem_of_nil in Hin|].
  destruct Hrep as (Hy & Hl & Hr). apply elem_of_app in Hin as [Hin|[->|Hin]%elem_of_cons]; [by eapply IHl| |by eapply IHr].
  rewrite lookup_fmap in Hy. by destruct (rb_nodes s !! y).
Qed.

Lemma shape_length s t m : shape payload s t m -> (length (elems t) <= size (rb_nodes s))%nat.
Proof.
  intros H. assert (Hnd : NoDup (elems t)) by (by destruct H as (a & r & _ & (_ & _ & Hnd & _))).
  rewrite <- (size_list_to_set (C := gset Z) (elems t) Hnd), <- (size_dom (D := gset Z)). apply subseteq_size.
  intros x Hx%elem_of_list_to_set. apply elem_of_dom. by eapply shape_elem.
Qed.

Context (pkey : P -> Z).
Definition key_at (m : gmap Z P) (x : Z) : Z := match m !! x with Some p => pkey p | None => 0 end.
(** The keys ascend. *)
Definition ordered (m : gmap Z P) (l : list Z) : Prop := StronglySorted (fun x y => key_at m x <= key_at m y) l.


Lemma ordered_ext m m' l : (forall y, y ∈ l -> key_at m' y = key_at m y) -> ordered m l -> ordered m' l.
Proof.
  intros Heq. unfold ordered. induction l as [|x l IH]; intros H; [constructor|].
  apply StronglySorted_cons in H as [Hx H]. apply StronglySorted_cons. split.
  - rewrite Forall_forall in *. intros y Hy. rewrite !Heq by (by constructor). by apply Hx.
  - apply IH; [|done]. intros y Hy. apply Heq. by constructor.
Qed.

(** A sorted list with a subtree in the middle. *)
Lemma ordered_node m l1 l x r l2 :
  ordered m (l1 ++ (l ++ x :: r) ++ l2) ->
  (forall y, y ∈ l -> key_at m y <= key_at m x) /\ (forall y, y ∈ r ++ l2 -> key_at m x <= key_at m y).
Proof.
  unfold ordered. rewrite <- app_assoc. change ((x :: r) ++ l2) with (x :: (r ++ l2)).
  intros (_ & _ & H)%StronglySorted_app. apply StronglySorted_app in H as (Hx & _ & H).
  apply StronglySorted_cons in H as [H _]. rewrite Forall_forall in H. split; [|exact H].
  intros y Hy. apply Hx; [done|]. by apply list_elem_of_here.
Qed.

(** The new key goes after every key that is not greater. *)
Context (key : N -> Z) (Hkey : forall n, key n = pkey (payload n)).

Lemma node_key s k c l x r m n :
  shape payload s (plug k (T c l x r)) m -> node_at x s = Ret n s -> key n = key_at m x.
Proof using Hkey. intros H En. unfold key_at. rewrite (shape_payload _ _ _ _ _ _ _ _ H En). apply Hkey. Qed.

Lemma find_slot_spec s m v t : forall fuel k,
  (length (elems t) <= fuel)%nat -> shape payload s (plug k t) m -> ordered m (elems (plug k t)) ->
  (forall y, y ∈ before k -> key_at m y <= v) -> (forall y, y ∈ after k -> v < key_at m y) ->
  exists k', find_slot fuel key v (top k) (slot_of k) s = Ret (top k', slot_of k') s /\ plug k' E = plug k t /\
    (forall y, y ∈ before k' -> key_at m y <= v) /\ (forall y, y ∈ after k' -> v < key_at m y).
Proof using Hkey.
  induction t as [|c l IHl x r IHr]; intros fuel k Hfuel H Hord Hb Ha.
  - exists k. split; [|done]. destruct fuel; cbn [find_slot]; by rewrite (bind_Ret _ _ _ _ _ (read_slot_spec _ _ _ _ H)).
  - destruct fuel as [|fuel]; [simpl in Hfuel; rewrite length_app in Hfuel; simpl in Hfuel; lia|].
    cbn [find_slot]. rewrite (bind_Ret _ _ _ _ _ (read_slot_spec _ _ _ _ H)).
    destruct (shape_addr payload s k L c l x r m H) as [Hx _]. simpl addr. rewrite (proj2 (Z.eqb_neq _ _)) by done.
    destruct (shape_node payload s k L c l x r m H) as (n & En & _). rewrite (bind_Ret _ _ _ _ _ En).
    rewrite (node_key _ _ _ _ _ _ _ _ H En). simpl in Hfuel. rewrite length_app in Hfuel. simpl in Hfuel.
    pose proof Hord as Hord'. rewrite elems_plug_split in Hord'. pose proof (ordered_node _ _ _ _ _ _ Hord') as [Hlx Hxr].
    destruct (Z.ltb_spec v (key_at m x)) as [Hv|Hv].
    + destruct (IHl fuel (Frame L c x r :: k)) as (k' & E' & Hp & Hk'); [lia|done|done|done| |by exists k'].
      simpl. intros y [->|Hy]%elem_of_cons; [done|]. specialize (Hxr y Hy). lia.
    + destruct (IHr fuel (Frame R c x l :: k)) as (k' & E' & Hp & Hk'); [lia|done|done| |done|by exists k'].
      simpl. intros y. rewrite !elem_of_app, list_elem_of_singleton. intros [Hy|[Hy| ->]]; [by apply Hb| |done].
      specialize (Hlx y Hy). lia.
Qed.

Lemma find_key_spec s m v t : forall fuel k,
  (length (elems t) <= fuel)%nat -> shape payload s (plug k t) m -> ordered m (elems t) ->
  (exists x, find_key fuel key v (addr t) s = Ret x s /\ x ∈ elems t /\ key_at m x = v) \/
  (find_key fuel key v (addr t) s = Ret 0 s /\ forall x, x ∈ elems t -> key_at m x <> v).
Proof using Hkey.
  induction t as [|c l IHl x r IHr]; intros fuel k Hfuel H Hord.
  - right. split; [by destruct fuel|]. intros x Hx. by apply not_elem_of_nil in Hx.
  - destruct fuel as [|fuel]; [simpl in Hfuel; rewrite length_app in Hfuel; simpl in Hfuel; lia|].
    simpl in Hfuel. rewrite length_app in Hfuel. simpl in Hfuel.
    destruct (shape_addr payload s k L c l x r m H) as [Hx _]. cbn [find_key addr elems]. rewrite (proj2 (Z.eqb_neq _ _)) by done.
    destruct (shape_node payload s k L c l x r m H) as (n & En & Fn). rewrite (bind_Ret _ _ _ _ _ En).
    rewrite (node_key _ _ _ _ _ _ _ _ H En), !child_fields, Fn. cbn [c_child bin_cell c_left c_right].
    pose proof Hord as Hord'. rewrite <- (app_nil_l (elems (T c l x r))), <- (app_nil_r (elems (T c l x r))) in Hord'.
    destruct (ordered_node _ _ _ _ _ _ Hord') as [Hlx Hxr]. rewrite app_nil_r in Hxr. clear Hord'.
    apply StronglySorted_app in Hord as (_ & Hol & Hor). apply StronglySorted_cons in Hor as [_ Hor].
    destruct (Z.ltb_spec v (key_at m x)) as [Hv|Hv]; [|destruct (Z.ltb_spec (key_at m x) v) as [Hv'|Hv']].
    + destruct (IHl fuel (Frame L c x r :: k)) as [(z & E' & Hz & Hk)|(E' & Hn)]; [lia|done|done| |].
      * left. exists z. split_and!; [done|apply elem_of_app; by left|done].
      * right. split; [done|]. intros y [Hy|[->|Hy]%elem_of_cons]%elem_of_app; [by apply Hn|lia|]. specialize (Hxr y Hy). lia.
    + destruct (IHr fuel (Frame R c x l :: k)) as [(z & E' & Hz & Hk)|(E' & Hn)]; [lia|done|done| |].
      * left. exists z. split_and!; [done|apply elem_of_app; right; by apply list_elem_of_further|done].
      * right. split; [done|]. intros y [Hy|[->|Hy]%elem_of_cons]%elem_of_app; [|lia|by apply Hn]. specialize (Hlx y Hy). lia.
    + left. exists x. split_and!; [done|apply elem_of_app; right; by apply list_elem_of_here|lia].
Qed.

Lemma leftmost_spec s m t : forall fuel k,
  t <> E -> (length (elems t) <= fuel)%nat -> shape payload s (plug k t) m ->
  exists x l, leftmost fuel (addr t) s = Ret x s /\ elems t = x :: l.
Proof.
  induction t as [|c l IHl x r IHr]; intros fuel k Ht Hfuel H; [done|]. simpl in Hfuel. rewrite length_app in Hfuel. simpl in Hfuel.
  destruct (shape_node payload s k L c l x r m H) as (n & En & Fn).
  assert (E1 : forall f, leftmost f x s = if addr l =? 0 then Ret x s else
    match f with O => Stop NoFuel | S f' => leftmost f' (addr l) s end).
  { intros f. destruct f; cbn [leftmost]; rewrite (bind_Ret _ _ _ _ _ En), child_fields, Fn; cbn [c_child bin_cell c_left];
      by destruct (addr l =? 0). }
  simpl addr. rewrite E1. destruct l as [|c' l' y r'].
  - exists x, (elems r). done.
  - destruct (shape_addr payload s (Frame L c x r :: k) L c' l' y r' m H) as [Hy _]. simpl addr. rewrite (proj2 (Z.eqb_neq _ _)) by done.
    destruct fuel as [|fuel]; [simpl in Hfuel; rewrite length_app in Hfuel; simpl in Hfuel; lia|].
    destruct (IHl fuel (Frame L c x r :: k)) as (z & l & E2 & Hz); [done|simpl in *; lia|done|].
    exists z, (l ++ x :: elems r). split; [done|]. simpl elems in *. by rewrite Hz.
Qed.

(** A node of the heap that is not in the tree becomes a red leaf. *)
Lemma link_leaf_spec s k z m :
  shape payload s (plug k E) m -> z ∉ elems (plug k E) -> is_Some (m !! z) -> aligned z -> z <> 0 ->
  exists s', link_leaf z (top k) (slot_of k) s = Ret tt s' /\ shape payload s' (plug k (T Red E z E)) m.
Proof using Hlaws.
  intros (a & r & H & (Hr & Hrep & Hnd & Hv)) Hz Hm Ha Hz0. unfold link_leaf.
  assert (Hsz : is_Some (a !! z)).
  { destruct H as (<- & _ & <-). rewrite lookup_fmap, fmap_is_Some in Hm. by rewrite lookup_fmap, fmap_is_Some. }
  rewrite rep_plug in Hrep. destruct Hrep as [Hctx _]. rewrite elems_plug_perm in Hnd, Hz, Hv. simpl in Hnd, Hz, Hv.
  assert (Htop : aligned (top k)).
  { destruct k as [|[d c x u] k]; [done|]. simpl in Hv. by apply Forall_cons in Hv as [[? _] _]. }
  destruct (write_parent payload _ _ _ _ z (top k) H Hsz Htop) as (s1 & E1 & H1). rewrite (bind_Ret _ _ _ _ _ E1).
  destruct (write_child payload _ _ _ _ z R 0 H1) as (s2 & E2 & H2).
  { rewrite lookup_alter_eq. by apply fmap_is_Some. }
  rewrite (bind_Ret _ _ _ _ _ E2).
  destruct (write_child payload _ _ _ _ z L 0 H2) as (s3 & E3 & H3).
  { rewrite !lookup_alter_eq. by do 2 apply fmap_is_Some. }
  rewrite (bind_Ret _ _ _ _ _ E3).
  destruct (write_color payload _ _ _ _ z Red H3) as (s4 & E4 & H4).
  { rewrite !lookup_alter_eq. by do 3 apply fmap_is_Some. }
  rewrite (bind_Ret _ _ _ _ _ E4).
  set (a4 := alter _ z _) in H4.
  assert (Hz4 : a4 !! z = Some (Cell Red (top k) 0 0)).
  { unfold a4. rewrite !lookup_alter_eq. destruct Hsz as [c ->]. done. }
  assert (Hne4 : forall y, y <> z -> a4 !! y = a !! y).
  { intros y Hy. unfold a4. by rewrite !lookup_alter_ne by done. }
  clearbody a4. assert (Hctx4 : rep_ctx a4 k 0).
  { apply (rep_ctx_frame a); [|done]. intros y Hy. apply Hne4. by intros ->. }
  assert (Hw : exists s', write_slot (slot_of k) z s4 = Ret tt s' /\
      holds payload s' (relink k z a4) (match k with [] => z | _ => r end) m).
  { destruct k as [|[d c x u] k]; simpl.
    - eexists. split; [reflexivity|]. by destruct H4 as (? & ? & ?).
    - destruct Hctx4 as (Hx & _). exact (write_child payload _ _ _ _ x d z H4 (mk_is_Some _ _ Hx)). }
  destruct Hw as (s5 & E5 & H5). exists s5. split; [done|]. eexists _, _. split; [exact H5|]. unfold heap_tree. split_and!.
  - destruct k as [|f k]; [done|]. rewrite Hr. apply addr_plug.
  - rewrite rep_plug. split; [by apply (rep_relink _ _ 0)|]. simpl. rewrite relink_ne by done. done.
  - rewrite elems_plug_perm. simpl. by apply NoDup_cons.
  - rewrite elems_plug_perm. simpl. by apply Forall_cons.
Qed.

(** [l'] is [l] with [z] after every element whose key is not greater. *)
Definition inserted (m : gmap Z P) (z : Z) (l l' : list Z) : Prop :=
  exists l1 l2, l = l1 ++ l2 /\ l' = l1 ++ z :: l2 /\
    (forall y, y ∈ l1 -> key_at m y <= key_at m z) /\ (forall y, y ∈ l2 -> key_at m z < key_at m y).

Lemma inserted_ordered m z l l' : inserted m z l l' -> ordered m l -> ordered m l'.
Proof.
  intros (l1 & l2 & -> & -> & H1 & H2) Ho. apply StronglySorted_app in Ho as (H12 & Ho1 & Ho2).
  apply StronglySorted_app. split_and!; [|done|].
  - intros x y Hx [->|Hy]%elem_of_cons; [by apply H1|by apply H12].
  - apply StronglySorted_cons. split; [|done]. apply Forall_forall. intros y Hy. specialize (H2 y Hy). lia.
Qed.

(** The walk, the link and the rebalancing together. *)
Lemma tree_insert_spec fuel s t z m :
  shape payload s t m -> red_black t -> ordered m (elems t) -> (length (elems t) <= fuel)%nat ->
  exists k, find_slot fuel key (key_at m z) 0 Root s = Ret (top k, slot_of k) s /\ plug k E = t /\
    forall s1, shape payload s1 (plug k (T Red E z E)) m ->
      exists s2 t', rb_insert_color fuel z s1 = Ret tt s2 /\ shape payload s2 t' m /\ red_black t' /\
        inserted m z (elems t) (elems t').
Proof using Hkey Hlaws.
  intros H Hrb Ho Hfuel.
  destruct (find_slot_spec s m (key_at m z) t fuel [] Hfuel H Ho) as (k & E1 & Hp & Hb & Ha);
    [intros y Hy; by apply not_elem_of_nil in Hy..|].
  exists k. split_and!; [done|done|]. intros s1 H1. simpl in Hp. subst t.
  destruct (rb_insert_color_spec payload fuel k z s1 m) as (s2 & t' & E2 & H2 & Hel & Hrb2); [|done|done|].
  { pose proof (depth_frames k E). lia. }
  exists s2, t'. split_and!; [done..|]. exists (before k), (after k). rewrite Hel, !elems_plug_split. done.
Qed.
End Laws.
