(* ===== verification/Fair.v ===== *)
(** * Fair

    src/src/scheduler_fair.c: the fair scheduler, a red-black tree of scheduling
    entities ordered by virtual run time.  The file writes the tree algorithm out a
    second time over its own node, which is an instance of the nodes of RbTree. *)
From stdpp Require Import sorting.
From S2P Require Import Prelude Links Task RbTree RbSearch.

(** ** Data *)

(** [rb_node_t]. *)
Record fair_node : Type := FairNode {
  fn_parent : Z;
  fn_left : Z;
  fn_right : Z;
  fn_color : color;
  fn_task : ptr
}.
(** [sched_entity_t]; the node is its first field, so [container_of] keeps the
    address. *)
Record sched_entity_t : Type := SchedEntity {
  se_node : fair_node;
  vruntime : Z;
  weight : Z;
  min_granularity : Z;
  exec_start : Z;
  sum_exec_runtime : Z;
  nr_migrations : Z
}.
Definition with_node (f : fair_node -> fair_node) (e : sched_entity_t) : sched_entity_t :=
  SchedEntity (f (se_node e)) (vruntime e) (weight e) (min_granularity e) (exec_start e) (sum_exec_runtime e) (nr_migrations e).
Definition set_weight (w : Z) (e : sched_entity_t) : sched_entity_t :=
  SchedEntity (se_node e) (vruntime e) w (min_granularity e) (exec_start e) (sum_exec_runtime e) (nr_migrations e).
Definition set_min_granularity (g : Z) (e : sched_entity_t) : sched_entity_t :=
  SchedEntity (se_node e) (vruntime e) (weight e) g (exec_start e) (sum_exec_runtime e) (nr_migrations e).
Definition set_runtimes (v sum : Z) (e : sched_entity_t) : sched_entity_t :=
  SchedEntity (se_node e) v (weight e) (min_granularity e) (exec_start e) sum (nr_migrations e).

(** The rotations of this file compare with the left child in both directions. *)
#[export] Instance fair_rb_node : RbNode sched_entity_t := {|
  rb_parent := fun e => fn_parent (se_node e);
  rb_color := fun e => fn_color (se_node e);
  rb_child := fun d e => match d with L => fn_left (se_node e) | R => fn_right (se_node e) end;
  rb_set_parent := fun p => with_node (fun n => FairNode p (fn_left n) (fn_right n) (fn_color n) (fn_task n));
  rb_set_color := fun c => with_node (fun n => FairNode (fn_parent n) (fn_left n) (fn_right n) c (fn_task n));
  rb_set_child := fun d p => with_node (fun n =>
    match d with
    | L => FairNode (fn_parent n) p (fn_right n) (fn_color n) (fn_task n)
    | R => FairNode (fn_parent n) (fn_left n) p (fn_color n) (fn_task n)
    end);
  first_side := fun _ => L |}.

(** What is not a link: the task of the node and the fields of the entity. *)
Record fair_payload : Type := FairPayload { p_task : ptr; p_vruntime : Z; p_rest : Z * Z * Z * Z * Z }.
Definition payload (e : sched_entity_t) : fair_payload :=
  FairPayload (fn_task (se_node e)) (vruntime e) (weight e, min_granularity e, exec_start e, sum_exec_runtime e, nr_migrations e).
#[export] Instance fair_rb_laws : RbNodeLaws sched_entity_t fair_payload payload.
Proof. split; try done; by intros []. Qed.

(** [prio_to_weight]. *)
Definition prio_to_weight : list Z :=
  [88761; 71755; 56483; 46273; 36291; 29154; 23254; 18705; 14949; 11916; 9548; 7620; 6100; 4904; 3906;
   3121; 2501; 1991; 1586; 1277; 1024; 820; 655; 526; 423; 335; 272; 215; 172; 137; 110; 87; 70; 56; 45; 36; 29; 23; 18; 15].

(** The task table, the tree with the heap of entities, and the clock that
    [timer_get_ticks] reads.  [scheduler_data] of a task is the address of its
    entity. *)
Record fair : Type := FairState { f_tasks : tasks; f_tree : rb_state sched_entity_t; f_ticks : Z }.
Definition tree_part : lens fair (rb_state sched_entity_t).
Proof. by refine (Lens f_tree (fun t s => FairState (f_tasks s) t (f_ticks s)) _ _ _); [| intros [] |]. Defined.

Definition fair_task (i : nat) : Cmd fair task_t := let* s := get in deref (task_list (f_tasks s) !! i).
Definition rd_entity (p : nat) : Cmd fair sched_entity_t := zoom tree_part (node_at (Z.of_nat p)).
Definition wr_entity (p : nat) (f : sched_entity_t -> sched_entity_t) : Cmd fair unit :=
  zoom tree_part (write_node (Z.of_nat p) f).

(** [if (!task || !task->scheduler_data) return], then the rest. *)
Definition with_entity {A} (task : ptr) (none : A) (f : nat -> Cmd fair A) : Cmd fair A :=
  match task with
  | None => ret none
  | Some i =>
      let* x := fair_task i in
      match scheduler_data x with None => ret none | Some p => f p end
  end.

(** ** Operations *)

(** [p]: what [malloc] returns. *)
Definition init_sched_entity (p : ptr) (task : nat) : Cmd fair unit :=
  match p with
  | None => ret tt
  | Some p =>
      let zero := SchedEntity (FairNode 0 0 0 Black None) 0 0 0 0 0 0 in
      zoom tree_part (modify (fun t => RbState (<[Z.of_nat p := zero]> (rb_nodes t)) (rb_root t))) ;;;
      let* x := fair_task task in
      let* w := deref (prio_to_weight !! Z.to_nat (20 + priority x)) in
      wr_entity p (set_weight w) ;;;
      wr_entity p (set_min_granularity 1000000) ;;;
      modify (fun s => FairState (set_task_list (<[task := set_scheduler_data (Some p) x]> (task_list (f_tasks s))) (f_tasks s))
                         (f_tree s) (f_ticks s))
  end.

Definition scheduler_update_vruntime (task : ptr) : Cmd fair unit :=
  with_entity task tt (fun p =>
    let* s := get in
    let* se := rd_entity p in
    let delta_exec := u64 (f_ticks s - exec_start se) in
    let weight_base := 1024 in
    if weight se =? 0 then fail Fault else
    wr_entity p (set_runtimes (u64 (vruntime se + u64 (delta_exec * weight_base) / weight se))
                              (u64 (sum_exec_runtime se + delta_exec)))).

Definition scheduler_set_weight (task : ptr) (w : Z) : Cmd fair unit :=
  with_entity task tt (fun p => wr_entity p (set_weight w)).

Definition scheduler_min_vruntime (fuel : nat) : Cmd fair Z :=
  let* s := get in
  let node := rb_root (f_tree s) in
  if node =? 0 then ret 0 else
  let* node := zoom tree_part (leftmost fuel node) in
  let* se := zoom tree_part (node_at node) in
  ret (vruntime se).

(** The rotations and the rebalancing of this file. *)
Definition fair_rotate_left : Z -> Cmd (rb_state sched_entity_t) unit := rb_rotate L.
Definition fair_rotate_right : Z -> Cmd (rb_state sched_entity_t) unit := rb_rotate R.
Definition fair_insert_color : nat -> Z -> Cmd (rb_state sched_entity_t) unit := rb_insert_color.

(** The walk, the link and the rebalancing, on the tree. *)
Definition enqueue_entity (fuel : nat) (node : Z) : Cmd (rb_state sched_entity_t) unit :=
  let* se := node_at node in
  let* place := find_slot fuel vruntime (vruntime se) 0 Root in
  link_leaf node (fst place) (snd place) ;;;
  fair_insert_color fuel node.
Definition enqueue_task_fair (fuel : nat) (task : ptr) : Cmd fair unit :=
  with_entity task tt (fun p => zoom tree_part (enqueue_entity fuel (Z.of_nat p))).

(** The body of this function is a comment. *)
Definition dequeue_task_fair (task : ptr) : Cmd fair unit := with_entity task tt (fun _ => ret tt).

(** [se->task], a field the entity does not have: the one of its node. *)
Definition scheduler_pick_next_fair (fuel : nat) : Cmd fair ptr :=
  let* s := get in
  let left := rb_root (f_tree s) in
  if left =? 0 then ret None else
  let* left := zoom tree_part (leftmost fuel left) in
  let* se := zoom tree_part (node_at left) in
  ret (fn_task (se_node se)).

Definition scheduler_fair_tick (fuel : nat) : Cmd fair unit :=
  let* s := get in
  let current := current_task (f_tasks s) in
  with_entity current tt (fun p =>
    scheduler_update_vruntime current ;;;
    let* se := rd_entity p in
    let* least := scheduler_min_vruntime fuel in
    if u64 (least + min_granularity se) <? vruntime se then
      dequeue_task_fair current ;;;
      enqueue_task_fair fuel current ;;;
      yield_cpu
    else ret tt).

(** ** The queue the tree represents *)
Definition entity_key (s : fair) (x : Z) : Z := match rb_nodes (f_tree s) !! x with Some e => vruntime e | None => 0 end.
Definition entity_task (s : fair) (x : Z) : ptr := match rb_nodes (f_tree s) !! x with Some e => fn_task (se_node e) | None => None end.
(** A red-black tree whose nodes, in order, are [q], by virtual run time. *)
Definition fair_queue (s : fair) (q : list Z) : Prop :=
  exists t, shape payload (f_tree s) t (payload <$> rb_nodes (f_tree s)) /\ red_black t /\ elems t = q /\
    StronglySorted (fun x y => entity_key s x <= entity_key s y) q.
(** The tasks, the clock and every field that is not a link stay. *)
Definition same_entities (s s' : fair) : Prop :=
  f_tasks s' = f_tasks s /\ f_ticks s' = f_ticks s /\ payload <$> rb_nodes (f_tree s') = payload <$> rb_nodes (f_tree s).

Lemma key_at_entity (s : fair) m x : m = payload <$> rb_nodes (f_tree s) -> key_at p_vruntime m x = entity_key s x.
Proof. intros ->. unfold key_at, entity_key. rewrite lookup_fmap. by destruct (rb_nodes (f_tree s) !! x). Qed.

Lemma shape_payloads s t m : shape payload s t m -> m = payload <$> rb_nodes s.
Proof. by intros (a & r & (_ & _ & <-) & _). Qed.

(** The entity of the leftmost node. *)
Lemma fair_first fuel s t m x q :
  shape payload (f_tree s) t m -> elems t = x :: q -> (S (length q) <= fuel)%nat ->
  exists e, zoom tree_part (leftmost fuel (rb_root (f_tree s))) s = Ret x s /\ rb_root (f_tree s) <> 0 /\
    zoom tree_part (node_at x) s = Ret e s /\ vruntime e = entity_key s x /\ fn_task (se_node e) = entity_task s x.
Proof.
  intros Ht Hel Hfuel. assert (Hne : t <> E) by (by intros ->).
  rewrite (shape_root _ _ _ _ Ht).
  destruct (leftmost_spec payload (f_tree s) _ t fuel [] Hne ltac:(rewrite Hel; simpl; lia) Ht) as (x' & l & E1 & Hl).
  rewrite Hel in Hl. injection Hl as <- _.
  assert (Hx : is_Some (rb_nodes (f_tree s) !! x)).
  { apply (shape_elem payload _ t m x Ht). rewrite Hel. by apply list_elem_of_here. }
  destruct Hx as [e He]. exists e. split_and!.
  - rewrite (zoom_Ret tree_part _ s _ _ E1). by rewrite upd_view.
  - destruct t as [|c l' y r']; [done|]. exact (proj1 (shape_addr payload _ [] L c l' y r' _ Ht)).
  - rewrite (zoom_Ret tree_part _ s e (f_tree s)); [by rewrite upd_view|]. unfold node_at. simpl.
    erewrite bind_Ret by reflexivity. by rewrite He.
  - unfold entity_key. by rewrite He.
  - unfold entity_task. by rewrite He.
Qed.

Lemma scheduler_min_vruntime_spec fuel s x q :
  fair_queue s (x :: q) -> (S (length q) <= fuel)%nat -> scheduler_min_vruntime fuel s = Ret (entity_key s x) s.
Proof.
  intros (t & Ht & _ & Hel & _) Hfuel. destruct (fair_first fuel s t _ x q Ht Hel Hfuel) as (e & E1 & Hr & E2 & Hk & _).
  unfold scheduler_min_vruntime. erewrite bind_Ret by reflexivity. cbv zeta. rewrite (proj2 (Z.eqb_neq _ _)) by done.
  rewrite (bind_Ret _ _ _ _ _ E1), (bind_Ret _ _ _ _ _ E2). by rewrite <- Hk.
Qed.

Lemma scheduler_pick_next_fair_spec fuel s x q :
  fair_queue s (x :: q) -> (S (length q) <= fuel)%nat -> scheduler_pick_next_fair fuel s = Ret (entity_task s x) s.
Proof.
  intros (t & Ht & _ & Hel & _) Hfuel. destruct (fair_first fuel s t _ x q Ht Hel Hfuel) as (e & E1 & Hr & E2 & _ & Hk).
  unfold scheduler_pick_next_fair. erewrite bind_Ret by reflexivity. cbv zeta. rewrite (proj2 (Z.eqb_neq _ _)) by done.
  rewrite (bind_Ret _ _ _ _ _ E1), (bind_Ret _ _ _ _ _ E2). by rewrite <- Hk.
Qed.

Lemma enqueue_entity_spec fuel t s z :
  let m := payload <$> rb_nodes s in
  shape payload s t m -> red_black t -> ordered p_vruntime m (elems t) -> (length (elems t) <= fuel)%nat ->
  z ∉ elems t -> is_Some (rb_nodes s !! z) -> aligned z -> z <> 0 ->
  exists s' t', enqueue_entity fuel z s = Ret tt s' /\ shape payload s' t' m /\ red_black t' /\
    inserted p_vruntime m z (elems t) (elems t').
Proof.
  intros m H Hrb Ho Hfuel Hz [e He] Hal Hz0. unfold enqueue_entity.
  destruct (tree_insert_spec payload p_vruntime vruntime (fun _ => eq_refl) fuel s t z m H Hrb Ho Hfuel) as (k & E1 & Hp & Hins).
  assert (Hk : key_at p_vruntime m z = vruntime e) by (unfold key_at, m; by rewrite lookup_fmap, He).
  rewrite (bind_Ret _ _ s e s) by (unfold node_at; erewrite bind_Ret by reflexivity; by rewrite He).
  rewrite <- Hk, (bind_Ret _ _ _ _ _ E1). subst t.
  destruct (link_leaf_spec payload s k z m H Hz) as (s1 & E2 & H1); [|done|done|].
  { unfold m. rewrite lookup_fmap, He. by eexists. }
  cbn [fst snd]. rewrite (bind_Ret _ _ _ _ _ E2). destruct (Hins s1 H1) as (s2 & t' & E3 & H2 & Hrb2 & Hl).
  by exists s2, t'.
Qed.

Lemma with_entity_Some {A} i x p (none : A) f s :
  task_list (f_tasks s) !! i = Some x -> scheduler_data x = Some p -> with_entity (Some i) none f s = f p s.
Proof.
  intros Hx Hp. unfold with_entity. rewrite (bind_Ret _ _ s x s).
  - by rewrite Hp.
  - unfold fair_task. erewrite bind_Ret by reflexivity. by rewrite Hx.
Qed.

(** ** A task that is queued already *)

(** Rotating a node that is its own parent and its own child on side [flip d]. *)
Lemma rotate_self s a r m d z c :
  holds payload s a r m -> aligned z -> z <> 0 -> a !! z = Some (bin_cell (flip d) c z z 0) ->
  exists s' a', rb_rotate d z s = Ret tt s' /\ holds payload s' a' r m /\ a' !! z = Some (bin_cell d c z z 0).
Proof.
  intros H Hal Hz Hc. unfold rb_rotate. destruct (node_at_spec payload _ _ _ _ _ _ H Hc) as (n & En & Fn).
  rewrite (bind_Ret _ _ _ _ _ En). cbv zeta. change (rb_parent n) with (c_parent (fields n)). rewrite child_fields, Fn.
  rewrite (proj1 (child_bin (flip d) c z z 0)). replace (c_parent _) with z by (by destruct d).
  rewrite (bind_Ret _ _ _ _ _ En), child_fields, Fn. replace (c_child d (bin_cell (flip d) c z z 0)) with 0 by (by destruct d).
  clear n En Fn.
  destruct (write_child payload _ _ _ _ z (flip d) 0 H ltac:(by rewrite Hc)) as (s1 & E1 & H1). rewrite (bind_Ret _ _ _ _ _ E1).
  erewrite bind_Ret by reflexivity.
  destruct (write_child payload _ _ _ _ z d z H1 ltac:(by rewrite lookup_alter_eq, Hc)) as (s2 & E2 & H2). rewrite (bind_Ret _ _ _ _ _ E2).
  destruct (write_parent payload _ _ _ _ z z H2 ltac:(by rewrite !lookup_alter_eq, Hc) Hal) as (s3 & E3 & H3). rewrite (bind_Ret _ _ _ _ _ E3).
  rewrite (proj2 (Z.eqb_neq _ _)) by done. set (a3 := alter _ z _) in H3.
  assert (Hc3 : a3 !! z = Some (bin_cell d c z z 0)) by (unfold a3; rewrite !lookup_alter_eq, Hc; by destruct d).
  clearbody a3. destruct (node_at_spec payload _ _ _ _ _ _ H3 Hc3) as (n & En & Fn).
  assert (E4 : exists s4 a4, (let* p := node_at z in
      if rb_child (first_side d) p =? z then write_node z (rb_set_child (first_side d) z)
      else write_node z (rb_set_child (flip (first_side d)) z)) s3 = Ret tt s4 /\ holds payload s4 a4 r m /\
      a4 !! z = Some (bin_cell d c z z 0)).
  { rewrite (bind_Ret _ _ _ _ _ En), child_fields, Fn. destruct (side_eq (first_side d) d) as [->| ->].
    - rewrite (proj1 (child_bin _ _ _ _ _)), Z.eqb_refl.
      destruct (write_child payload _ _ _ _ z d z H3 ltac:(by rewrite Hc3)) as (s4 & E4 & H4). eexists _, _. split_and!; [exact E4|exact H4|].
      rewrite lookup_alter_eq, Hc3. by destruct d.
    - rewrite (proj2 (child_bin _ _ _ _ _)), (proj2 (Z.eqb_neq _ _)), flip_flip by done.
      destruct (write_child payload _ _ _ _ z d z H3 ltac:(by rewrite Hc3)) as (s4 & E4 & H4). eexists _, _. split_and!; [exact E4|exact H4|].
      rewrite lookup_alter_eq, Hc3. by destruct d. }
  destruct E4 as (s4 & a4 & E4 & H4 & Hc4). rewrite (bind_Ret _ _ _ _ _ E4).
  destruct (write_parent payload _ _ _ _ z z H4 ltac:(by rewrite Hc4) Hal) as (s5 & E5 & H5).
  eexists _, _. split_and!; [exact E5|exact H5|]. rewrite lookup_alter_eq, Hc4. by destruct d.
Qed.

(** The rebalancing of such a node turns it round for ever. *)
Lemma insert_loop_self z r m fuel : aligned z -> z <> 0 -> forall d s a,
  holds payload s a r m -> a !! z = Some (bin_cell d Red z z 0) -> insert_loop fuel z s = Stop NoFuel.
Proof.
  intros Hal Hz. induction fuel as [|fuel IH]; intros d s a H Hc;
    destruct (node_at_spec payload _ _ _ _ _ _ H Hc) as (n & En & Fn); cbn [insert_loop]; rewrite (bind_Ret _ _ _ _ _ En); cbv zeta;
    change (rb_parent n) with (c_parent (fields n)); rewrite Fn; (replace (c_parent _) with z by (by destruct d));
    rewrite (proj2 (Z.eqb_neq _ _)) by done; rewrite (bind_Ret _ _ _ _ _ En); unfold is_black;
    change (rb_color n) with (c_color (fields n)); rewrite Fn; (replace (c_color _) with Red by (by destruct d)); [done|].
  change (rb_parent n) with (c_parent (fields n)). rewrite Fn. replace (c_parent _) with z by (by destruct d).
  rewrite (bind_Ret _ _ _ _ _ En), child_fields, Fn.
  replace (if z =? c_child L (bin_cell d Red z z 0) then L else R) with d.
  2:{ destruct d; simpl; [by rewrite Z.eqb_refl|]. by rewrite (proj2 (Z.eqb_neq _ _)). }
  assert (Hcase : exists s' a', insert_case d z z z s = Ret z s' /\ holds payload s' a' r m /\ a' !! z = Some (bin_cell (flip d) Red z z 0)).
  { unfold insert_case. rewrite (bind_Ret _ _ _ _ _ En), child_fields, Fn, (proj2 (child_bin _ _ _ _ _)).
    erewrite (bind_Ret (null_or_black 0)) by reflexivity. cbn [negb].
    rewrite (bind_Ret _ _ _ _ _ En), child_fields, Fn, (proj2 (child_bin _ _ _ _ _)), (proj2 (Z.eqb_neq _ _)) by done.
    erewrite bind_Ret by reflexivity. cbn [fst snd]. clear n En Fn.
    destruct (write_color payload _ _ _ _ z Black H ltac:(by rewrite Hc)) as (s1 & E1 & H1). rewrite (bind_Ret _ _ _ _ _ E1).
    destruct (write_color payload _ _ _ _ z Red H1 ltac:(by rewrite lookup_alter_eq, Hc)) as (s2 & E2 & H2). rewrite (bind_Ret _ _ _ _ _ E2).
    destruct (rotate_self _ _ _ _ (flip d) z Red H2 Hal Hz) as (s3 & a3 & E3 & H3 & Hc3).
    { rewrite !lookup_alter_eq, Hc, flip_flip. by destruct d. }
    rewrite (bind_Ret _ _ _ _ _ E3). by exists s3, a3. }
  destruct Hcase as (s' & a' & E' & H' & Hc'). rewrite (bind_Ret _ _ _ _ _ E'). exact (IH (flip d) s' a' H' Hc').
Qed.

(** Linking the root below itself, where it has no right child. *)
Lemma enqueue_root_again s a m z c fuel :
  holds payload s a z m -> aligned z -> z <> 0 -> a !! z = Some c -> c_right c = 0 -> (1 <= fuel)%nat ->
  enqueue_entity fuel z s = Stop NoFuel.
Proof.
  intros H Hal Hz Hc Hright Hfuel. destruct (node_at_spec payload _ _ _ _ _ _ H Hc) as (n & En & Fn).
  unfold enqueue_entity. rewrite (bind_Ret _ _ _ _ _ En).
  assert (Hplace : find_slot fuel vruntime (vruntime n) 0 Root s = Ret (z, Child R z) s).
  { destruct fuel as [|fuel]; [lia|]. cbn [find_slot]. rewrite (bind_Ret (read_slot Root) _ s z s).
    2:{ destruct H as (_ & Hr & _). unfold read_slot, gets. by rewrite Hr. }
    rewrite (proj2 (Z.eqb_neq _ _)) by done. rewrite (bind_Ret _ _ _ _ _ En), Z.ltb_irrefl.
    assert (Hr : read_slot (Child R z) s = Ret 0 s).
    { unfold read_slot. rewrite (bind_Ret _ _ _ _ _ En), child_fields, Fn. unfold ret. f_equal. exact Hright. }
    destruct fuel; cbn [find_slot]; by rewrite (bind_Ret _ _ _ _ _ Hr). }
  rewrite (bind_Ret _ _ _ _ _ Hplace). cbn [fst snd]. unfold link_leaf.
  destruct (write_parent payload _ _ _ _ z z H ltac:(by rewrite Hc) Hal) as (s1 & E1 & H1).
  destruct (write_child payload _ _ _ _ z R 0 H1 ltac:(by rewrite lookup_alter_eq, Hc)) as (s2 & E2 & H2).
  destruct (write_child payload _ _ _ _ z L 0 H2 ltac:(by rewrite !lookup_alter_eq, Hc)) as (s3 & E3 & H3).
  destruct (write_color payload _ _ _ _ z Red H3 ltac:(by rewrite !lookup_alter_eq, Hc)) as (s4 & E4 & H4).
  destruct (write_child payload _ _ _ _ z R z H4 ltac:(by rewrite !lookup_alter_eq, Hc)) as (s5 & E5 & H5).
  rewrite (bind_Ret _ _ _ tt s5).
  2:{ rewrite (bind_Ret _ _ _ _ _ E1), (bind_Ret _ _ _ _ _ E2), (bind_Ret _ _ _ _ _ E3), (bind_Ret _ _ _ _ _ E4). exact E5. }
  unfold rb_insert_color. apply bind_Stop. apply (insert_loop_self z z m fuel Hal Hz R _ _ H5).
  by rewrite !lookup_alter_eq, Hc.
Qed.

(** The entity after [scheduler_update_vruntime] at a time. *)
Definition charged (now : Z) (e : sched_entity_t) : sched_entity_t :=
  let delta := u64 (now - exec_start e) in
  set_runtimes (u64 (vruntime e + u64 (delta * 1024) / weight e)) (u64 (sum_exec_runtime e + delta)) e.
Definition set_entity (z : Z) (e : sched_entity_t) (s : fair) : fair :=
  FairState (f_tasks s) (RbState (<[z := e]> (rb_nodes (f_tree s))) (rb_root (f_tree s))) (f_ticks s).

Lemma rd_entity_spec p e s : rb_nodes (f_tree s) !! Z.of_nat p = Some e -> rd_entity p s = Ret e s.
Proof.
  intros He. unfold rd_entity. rewrite (zoom_Ret tree_part _ s e (f_tree s)); [by rewrite upd_view|].
  unfold node_at. erewrite bind_Ret by reflexivity. simpl. by rewrite He.
Qed.

Lemma scheduler_update_vruntime_spec s i x p e :
  task_list (f_tasks s) !! i = Some x -> scheduler_data x = Some p -> rb_nodes (f_tree s) !! Z.of_nat p = Some e ->
  scheduler_update_vruntime (Some i) s
  = if weight e =? 0 then Stop Fault else Ret tt (set_entity (Z.of_nat p) (charged (f_ticks s) e) s).
Proof.
  intros Hi Hp He. unfold scheduler_update_vruntime. rewrite (with_entity_Some i x p _ _ _ Hi Hp).
  erewrite bind_Ret by reflexivity. rewrite (bind_Ret _ _ _ _ _ (rd_entity_spec p e s He)). cbv zeta.
  destruct (weight e =? 0); [done|]. unfold wr_entity.
  rewrite (zoom_Ret tree_part _ s tt (RbState (<[Z.of_nat p := charged (f_ticks s) e]> (rb_nodes (f_tree s))) (rb_root (f_tree s)))); [done|].
  unfold write_node. rewrite (bind_Ret _ _ _ e (f_tree s)).
  - unfold modify. f_equal. f_equal. apply map_eq. intros y. destruct (decide (y = Z.of_nat p)) as [->|Hne].
    + rewrite lookup_alter_eq, lookup_insert_eq. simpl. by rewrite He.
    + by rewrite lookup_alter_ne, lookup_insert_ne by done.
  - unfold node_at. erewrite bind_Ret by reflexivity. simpl. by rewrite He.
Qed.

(** C21. The run queue.  [enqueue_task_fair] of a task that is not queued puts it
    behind every entity whose virtual run time is not greater and before every
    other one, rebalances, and changes nothing but links; the queue stays a
    red-black tree in order.  [scheduler_min_vruntime] is the least virtual run time
    and [scheduler_pick_next_fair] the task field of the entity that has it, the
    earliest enqueued of several. *)
Theorem fair_enqueue_sorted (s : fair) (i p fuel : nat) (x : task_t) (q : list Z)
    (Hi : task_list (f_tasks s) !! i = Some x) (Hp : scheduler_data x = Some p)
    (Hz : aligned (Z.of_nat p) /\ Z.of_nat p <> 0 /\ is_Some (rb_nodes (f_tree s) !! Z.of_nat p))
    (Hq : fair_queue s q) (Hnew : Z.of_nat p ∉ q) (Hfuel : (S (length q) <= fuel)%nat) :
  exists s' l1 l2, enqueue_task_fair fuel (Some i) s = Ret tt s' /\ same_entities s s' /\
    q = l1 ++ l2 /\ fair_queue s' (l1 ++ Z.of_nat p :: l2) /\
    (forall y, y ∈ l1 -> entity_key s y <= entity_key s (Z.of_nat p)) /\
    (forall y, y ∈ l2 -> entity_key s (Z.of_nat p) < entity_key s y) /\
    forall h r, l1 ++ Z.of_nat p :: l2 = h :: r ->
      scheduler_min_vruntime fuel s' = Ret (entity_key s h) s' /\
      scheduler_pick_next_fair fuel s' = Ret (entity_task s h) s'.
Proof.
  destruct Hz as (Hal & Hz0 & Hsz). destruct Hq as (t & Ht & Hrb & Hel & Ho). subst q.
  set (m := payload <$> rb_nodes (f_tree s)) in *.
  assert (Hkey : forall y, key_at p_vruntime m y = entity_key s y) by (intros y; by apply key_at_entity).
  assert (Ho' : ordered p_vruntime m (elems t)).
  { refine (sorted_impl _ _ _ _ Ho). intros a b. by rewrite !Hkey. }
  destruct (enqueue_entity_spec fuel t (f_tree s) (Z.of_nat p) Ht Hrb Ho' ltac:(lia) Hnew Hsz Hal Hz0) as (tr & t' & E1 & H1 & Hrb' & Hins).
  fold m in H1, Hins. pose proof (inserted_ordered _ _ _ _ _ Hins Ho') as Ho1. destruct Hins as (l1 & l2 & Hsplit & Hl' & Hle & Hgt).
  set (s' := FairState (f_tasks s) tr (f_ticks s)).
  assert (Hm : payload <$> rb_nodes tr = m) by (symmetry; exact (shape_payloads _ _ _ H1)).
  assert (Hkey' : forall y, entity_key s' y = entity_key s y) by (intros y; rewrite <- Hkey; symmetry; by apply key_at_entity).
  assert (Htask : forall y, entity_task s' y = entity_task s y).
  { intros y. assert (Hy : (p_task <$> ((payload <$> rb_nodes tr) !! y)) = (p_task <$> (m !! y))) by (by rewrite Hm).
    unfold m in Hy. rewrite !lookup_fmap in Hy. unfold entity_task. simpl.
    destruct (rb_nodes tr !! y), (rb_nodes (f_tree s) !! y); try done. by injection Hy. }
  assert (Hq' : fair_queue s' (l1 ++ Z.of_nat p :: l2)).
  { exists t'. simpl. rewrite Hm. split_and!; try done. rewrite <- Hl'. refine (sorted_impl _ _ _ _ Ho1).
    intros a b. by rewrite !Hkey, !Hkey'. }
  exists s', l1, l2. split_and!; try done.
  - unfold enqueue_task_fair. rewrite (with_entity_Some i x p _ _ _ Hi Hp). exact (zoom_Ret tree_part _ s _ _ E1).
  - intros y Hy. rewrite <- !Hkey. by apply Hle.
  - intros y Hy. rewrite <- !Hkey. by apply Hgt.
  - intros h r Heq. rewrite Heq in Hq'.
    assert (Hlen : (S (length r) <= fuel)%nat).
    { assert (Hlen : length (l1 ++ Z.of_nat p :: l2) = length (h :: r)) by (by rewrite Heq).
      assert (Hq1 : length (elems t) = (length l1 + length l2)%nat) by (rewrite Hsplit; apply length_app).
      rewrite length_app in Hlen. simpl in Hlen. lia. }
    rewrite (scheduler_min_vruntime_spec fuel s' h r Hq' Hlen), (scheduler_pick_next_fair_spec fuel s' h r Hq' Hlen).
    by rewrite Hkey', Htask.
Qed.

(** *** Examples *)
Definition entity (par l r : Z) (c : color) (v : Z) : sched_entity_t :=
  SchedEntity (FairNode par l r c None) v 1024 1000000 0 0 0.
Definition fair_tasks (p : nat) : tasks := {|
  task_list := [set_scheduler_data (Some p) zero_task]; current_task := Some 0%nat; idle_task := None; task_count := 1; freed := [] |}.
(** One queued entity at 64, and one at 128 with the same virtual run time. *)
Definition fair_one : fair :=
  FairState (fair_tasks 128) (RbState {[ 64 := entity 0 0 0 Black 10; 128 := entity 0 0 0 Black 10 ]} 64) 0.
(** Two queued entities, the running task's the root. *)
Definition fair_two : fair :=
  FairState (fair_tasks 64) (RbState {[ 64 := entity 0 128 0 Black 5000000; 128 := entity 64 0 0 Red 0 ]} 64) 0.

Lemma fair_one_queue : fair_queue fair_one [64].
Proof. exists (T Black E 64 E). split_and!; [solve_shape|split; [done|by exists 1%nat, 0%nat]|done|repeat constructor]. Qed.

Lemma fair_two_queue : fair_queue fair_two [128; 64].
Proof.
  exists (T Black (T Red E 128 E) 64 E). split_and!; [solve_shape|split; [done|by exists 1%nat, 0%nat]|done|].
  repeat constructor; vm_compute; discriminate.
Qed.

Lemma fair_enqueue_sorted_witness :
  exists s', enqueue_task_fair 2 (Some 0%nat) fair_one = Ret tt s' /\ fair_queue s' [64; 128].
Proof.
  destruct (fair_enqueue_sorted fair_one 0 128 2 (set_scheduler_data (Some 128%nat) zero_task) [64]) as (s' & l1 & l2 & H & _ & Hs & Hq & _ & Hgt & _).
  - reflexivity.
  - reflexivity.
  - split_and!; [split; [lia|reflexivity]|discriminate|eexists; reflexivity].
  - exact fair_one_queue.
  - vm_compute. intros Hin. apply list_elem_of_singleton in Hin. discriminate.
  - simpl. lia.
  - exists s'. split; [exact H|]. destruct l1 as [|y l1].
    + simpl in Hs. subst l2. specialize (Hgt 64 ltac:(by apply list_elem_of_here)). by vm_compute in Hgt.
    + injection Hs as <- Hs. symmetry in Hs. apply app_eq_nil in Hs as [-> ->]. exact Hq.
Defined.

(** A queued task is queued again.  [dequeue_task_fair] removes nothing, so a tick
    that preempts a task which is in the tree links its node a second time.  When
    that node is the root and the last of the queue, it becomes its own child and
    parent, and the rebalancing never ends: whatever number of rounds it is given,
    it needs more, so the kernel hangs in the timer interrupt. *)
Theorem fair_tick_requeue_hangs (s : fair) (i p fuel : nat) (x : task_t) (e : sched_entity_t) (h : Z) (r : list Z)
    (Hcur : current_task (f_tasks s) = Some i) (Hi : task_list (f_tasks s) !! i = Some x)
    (Hp : scheduler_data x = Some p) (He : rb_nodes (f_tree s) !! Z.of_nat p = Some e)
    (Hz : aligned (Z.of_nat p)) (Hw : weight e <> 0)
    (Hq : fair_queue s (h :: r)) (Hh : h <> Z.of_nat p)
    (Hroot : rb_root (f_tree s) = Z.of_nat p) (Hright : fn_right (se_node e) = 0)
    (Hlate : u64 (entity_key s h + min_granularity e) < vruntime (charged (f_ticks s) e))
    (Hfuel : (S (length r) <= fuel)%nat) :
  scheduler_fair_tick fuel s = Stop NoFuel.
Proof.
  set (z := Z.of_nat p) in *. set (e' := charged (f_ticks s) e). set (s1 := set_entity z e' s).
  destruct Hq as (t & Ht & _ & Hel & _). assert (Hz0 : z <> 0).
  { rewrite <- Hroot, (shape_root _ _ _ _ Ht). destruct t as [|c l y u]; [done|].
    exact (proj1 (shape_addr payload _ [] L c l y u _ Ht)). }
  pose proof (shape_payload_update payload _ _ _ z e e' Ht He eq_refl) as Ht1.
  assert (He1 : rb_nodes (f_tree s1) !! z = Some e') by apply lookup_insert_eq.
  destruct (fair_first fuel s1 t _ h r Ht1 Hel Hfuel) as (eh & E1 & Hr1 & E2 & Hk & _).
  assert (Hkh : vruntime eh = entity_key s h).
  { rewrite Hk. unfold entity_key, s1, set_entity. simpl. by rewrite lookup_insert_ne by done. }
  unfold scheduler_fair_tick. erewrite bind_Ret by reflexivity. rewrite Hcur, (with_entity_Some i x p _ _ _ Hi Hp).
  rewrite (bind_Ret _ _ s tt s1).
  2:{ rewrite (scheduler_update_vruntime_spec s i x p e Hi Hp He). by rewrite (proj2 (Z.eqb_neq _ _)). }
  rewrite (bind_Ret _ _ _ _ _ (rd_entity_spec p e' s1 He1)).
  rewrite (bind_Ret _ _ s1 (entity_key s h) s1).
  2:{ unfold scheduler_min_vruntime. erewrite bind_Ret by reflexivity. cbv zeta. rewrite (proj2 (Z.eqb_neq _ _)) by done.
      rewrite (bind_Ret _ _ _ _ _ E1), (bind_Ret _ _ _ _ _ E2). by rewrite <- Hkh. }
  rewrite (proj2 (Z.ltb_lt _ _)) by exact Hlate.
  rewrite (bind_Ret _ _ s1 tt s1) by exact (with_entity_Some i x p tt (fun _ => ret tt) s1 Hi Hp).
  apply bind_Stop. unfold enqueue_task_fair. rewrite (with_entity_Some i x p _ _ s1 Hi Hp).
  assert (Hend : enqueue_entity fuel z (f_tree s1) = Stop NoFuel); [|unfold zoom; change (view tree_part s1) with (f_tree s1); fold z; by rewrite Hend].
  apply (enqueue_root_again (f_tree s1) (fields <$> rb_nodes (f_tree s1)) (payload <$> rb_nodes (f_tree s1)) z (fields e') fuel).
  - split_and!; [done|exact Hroot|done].
  - done.
  - done.
  - by rewrite lookup_fmap, He1.
  - exact Hright.
  - lia.
Qed.

Lemma fair_tick_requeue_hangs_witness : scheduler_fair_tick 100 fair_two = Stop NoFuel.
Proof.
  apply (fair_tick_requeue_hangs fair_two 0 64 100 (set_scheduler_data (Some 64%nat) zero_task) (entity 0 128 0 Black 5000000) 128 [64]).
  - reflexivity.
  - reflexivity.
  - reflexivity.
  - reflexivity.
  - split; [lia|reflexivity].
  - discriminate.
  - exact fair_two_queue.
  - discriminate.
  - reflexivity.
  - reflexivity.
  - vm_compute. reflexivity.
  - simpl. lia.
Defined.
