(* ===== verification/Epoll.v ===== *)
(** * Epoll

    src/src/epoll.c: event polling.  An instance keeps its items in the red-black
    tree of RbTree, by file descriptor.  [rb_link_node] and [rb_erase] are called
    and defined nowhere in the sources; they are parameters. *)
From stdpp Require Import sorting.
From S2P Require Import Prelude RbTree RbSearch.

(** ** Data *)
Definition EPOLL_CTL_ADD : Z := 1.
Definition EPOLL_CTL_DEL : Z := 2.
Definition EPOLL_CTL_MOD : Z := 3.
Definition MAX_EPOLL_INSTANCES : nat := 1024.
(** Of <errno.h>. *)
Definition ENOENT : Z := 2.
Definition EBADF : Z := 9.
Definition ENOMEM : Z := 12.
Definition EEXIST : Z := 17.
Definition EINVAL : Z := 22.
Definition EMFILE : Z := 24.

(** [struct epoll_event]; the union is its 64-bit member. *)
Record epoll_event : Type := EpollEvent { events : Z; data : Z }.
(** The node is the first field, so [container_of] keeps the address. *)
Record epitem_t : Type := EpItem { rbn : rb_node; ep_next : Z; fd : Z; event : epoll_event }.
Definition set_event (v : epoll_event) (e : epitem_t) : epitem_t := EpItem (rbn e) (ep_next e) (fd e) v.

#[export] Instance epitem_node : RbNode epitem_t := {|
  rb_parent := fun e => rb_parent (rbn e);
  rb_color := fun e => rb_color (rbn e);
  rb_child := fun d e => rb_child d (rbn e);
  rb_set_parent := fun p e => EpItem (rb_set_parent p (rbn e)) (ep_next e) (fd e) (event e);
  rb_set_color := fun c e => EpItem (rb_set_color c (rbn e)) (ep_next e) (fd e) (event e);
  rb_set_child := fun d p e => EpItem (rb_set_child d p (rbn e)) (ep_next e) (fd e) (event e);
  first_side := fun d => d |}.
Definition item_payload (e : epitem_t) : Z * Z * epoll_event := (ep_next e, fd e, event e).
#[export] Instance epitem_laws : RbNodeLaws epitem_t (Z * Z * epoll_event) item_payload.
Proof.
  split; intros; try done.
  - exact (fields_set_parent (payload := fun _ => tt) p (rbn n) H).
  - exact (fields_set_color (payload := fun _ => tt) k (rbn n)).
  - exact (fields_set_child (payload := fun _ => tt) d p (rbn n)).
Qed.

(** [rbr] with the heap of the items; [rdlist] is the first ready item. *)
Record eventpoll_t : Type := EventPoll { rbr : rb_state epitem_t; maxevents : Z; waiting : Z; rdlist : Z }.
Definition rbr_part : lens eventpoll_t (rb_state epitem_t).
Proof.
  by refine (Lens rbr (fun t ep => EventPoll t (maxevents ep) (waiting ep) (rdlist ep)) _ _ _); [| intros [] |].
Defined.
Record epoll : Type := EpollState { instances : list (option eventpoll_t); errno : Z }.
Definition set_errno (e : Z) : Cmd epoll unit := modify (fun s => EpollState (instances s) e).
Definition put_instance (i : nat) (ep : option eventpoll_t) (s : epoll) : epoll :=
  EpollState (<[i := ep]> (instances s)) (errno s).

(** A command on instance [i]; when another task ran in between, on what it left. *)
Fixpoint on_instance {A} (i : nat) (s : epoll) (p : prog eventpoll_t A) : prog epoll A :=
  match p with
  | Ret a ep => Ret a (put_instance i (Some ep) s)
  | Yield ep k => Yield (put_instance i (Some ep) s) (fun s' =>
      match instances s' !! i with Some (Some ep') => on_instance i s' (k ep') | _ => Stop Fault end)
  | Stop e => Stop e
  end.
Definition in_instance {A} (i : nat) (c : Cmd eventpoll_t A) : Cmd epoll A := fun s =>
  match instances s !! i with Some (Some ep) => on_instance i s (c ep) | _ => Stop Fault end.

(** The two operations of the tree that the sources do not define. *)
Record rb_lib : Type := RbLib {
  rb_link_node : Z -> Z -> slot -> Cmd (rb_state epitem_t) unit;
  rb_erase : Z -> Cmd (rb_state epitem_t) unit
}.

(** ** Operations *)
Section Operations.
Context (lib : rb_lib) (fuel : nat).

Fixpoint find_available (i : Z) (l : list (option eventpoll_t)) : Z :=
  match l with
  | [] => -1
  | None :: _ => i
  | Some _ :: l' => find_available (i + 1) l'
  end.
Definition find_available_fd : Cmd epoll Z := gets (fun s => find_available 0 (instances s)).

(** [calloc_ok]: whether [calloc] finds memory. *)
Definition epoll_create (calloc_ok : bool) (size : Z) : Cmd epoll Z :=
  if size <=? 0 then set_errno EINVAL ;;; ret (-1) else
  let* epfd := find_available_fd in
  if epfd <? 0 then set_errno EMFILE ;;; ret (-1) else
  if negb calloc_ok then set_errno ENOMEM ;;; ret (-1) else
  modify (put_instance (Z.to_nat epfd) (Some (EventPoll (RbState ∅ 0) size 0 0))) ;;;
  ret epfd.

Definition find_epitem (f : Z) : Cmd (rb_state epitem_t) Z :=
  let* s := get in find_key fuel fd f (rb_root s).

Definition insert_epitem (epi : Z) : Cmd (rb_state epitem_t) unit :=
  let* e := node_at epi in
  let* place := find_slot fuel fd (fd e) 0 Root in
  rb_link_node lib epi (fst place) (snd place) ;;;
  rb_insert_color fuel epi.

Definition free_item (epi : Z) : Cmd (rb_state epitem_t) unit :=
  modify (fun s => RbState (delete epi (rb_nodes s)) (rb_root s)).

(** The [switch] of [epoll_ctl]; the result is [error], and [item] is what
    [calloc] returns for a new item. *)
Definition ctl_switch (item op f : Z) (ev : option epoll_event) : Cmd (rb_state epitem_t) Z :=
  let* epi := find_epitem f in
  if op =? EPOLL_CTL_ADD then
    if negb (epi =? 0) then ret EEXIST else
    if item =? 0 then ret ENOMEM else
    let* v := deref ev in
    modify (fun s => RbState (<[item := EpItem (PackedNode 0 0 0) 0 f v]> (rb_nodes s)) (rb_root s)) ;;;
    insert_epitem item ;;;
    ret 0
  else if op =? EPOLL_CTL_MOD then
    if epi =? 0 then ret ENOENT else
    let* v := deref ev in
    write_node epi (set_event v) ;;;
    ret 0
  else if op =? EPOLL_CTL_DEL then
    if epi =? 0 then ret ENOENT else
    rb_erase lib epi ;;;
    free_item epi ;;;
    ret 0
  else ret EINVAL.

(** [epfd < 0 || epfd >= MAX_EPOLL_INSTANCES || !epoll_instances[epfd]]. *)
Definition bad_epfd (epfd : Z) (s : epoll) : bool :=
  (epfd <? 0) || (Z.of_nat MAX_EPOLL_INSTANCES <=? epfd) ||
  match instances s !! Z.to_nat epfd with Some (Some _) => false | _ => true end.

Definition epoll_ctl (item epfd op f : Z) (ev : option epoll_event) : Cmd epoll Z :=
  let* s := get in
  if bad_epfd epfd s then set_errno EBADF ;;; ret (-1) else
  let* error := in_instance (Z.to_nat epfd) (zoom rbr_part (ctl_switch item op f ev)) in
  if negb (error =? 0) then set_errno error ;;; ret (-1) else ret 0.

(** The copy of the ready list into [events]; [n] is [maxevents - ready]. *)
Fixpoint copy_ready (n : nat) (epi : Z) : Cmd (rb_state epitem_t) (list epoll_event) :=
  match n with
  | O => ret []
  | S n' =>
      if epi =? 0 then ret [] else
      let* e := node_at epi in
      let* rest := copy_ready n' (ep_next e) in
      ret (event e :: rest)
  end.
Definition set_waiting (w : Z) (ep : eventpoll_t) : eventpoll_t := EventPoll (rbr ep) (maxevents ep) w (rdlist ep).
Definition ready_events (n : nat) : Cmd eventpoll_t (list epoll_event) :=
  let* ep := get in zoom rbr_part (copy_ready n (rdlist ep)).

Definition wait_body (max : nat) (timeout : Z) : Cmd eventpoll_t (list epoll_event) :=
  let* l := ready_events max in
  if (length l =? 0)%nat && negb (timeout =? 0) then
    modify (set_waiting 1) ;;;
    yield_cpu ;;;
    modify (set_waiting 0) ;;;
    ready_events max
  else ret l.

(** The result and what is written to [events]; [events_ok]: it is not NULL. *)
Definition epoll_wait (epfd : Z) (events_ok : bool) (max timeout : Z) : Cmd epoll (Z * list epoll_event) :=
  let* s := get in
  if bad_epfd epfd s || negb events_ok || (max <=? 0) then set_errno EINVAL ;;; ret (-1, []) else
  let* l := in_instance (Z.to_nat epfd) (wait_body (Z.to_nat max) timeout) in
  ret (Z.of_nat (length l), l).

Fixpoint close_loop (n : nat) : Cmd (rb_state epitem_t) unit :=
  let* s := get in
  let node := rb_root s in
  if node =? 0 then ret tt else
  match n with
  | O => fail NoFuel
  | S n' => rb_erase lib node ;;; free_item node ;;; close_loop n'
  end.

Definition epoll_close (epfd : Z) : Cmd epoll unit :=
  if (epfd <? 0) || (Z.of_nat MAX_EPOLL_INSTANCES <=? epfd) then ret tt else
  let* s := get in
  match instances s !! Z.to_nat epfd with
  | Some (Some ep) =>
      modify (put_instance (Z.to_nat epfd) None) ;;;
      match close_loop fuel (rbr ep) with
      | Ret _ _ => ret tt
      | Yield _ _ => ret tt
      | Stop e => fail e
      end
  | _ => ret tt
  end.
End Operations.

(** ** What the two library operations promise

    The documented behaviour of the Linux functions of these names: a node of the
    heap is linked as a red leaf at the place given; a node is removed and the tree
    stays a red-black tree of the others, in the same order. *)
Definition item_shape (s : rb_state epitem_t) (t : tree) (m : gmap Z (Z * Z * epoll_event)) : Prop := shape item_payload s t m.
Class RbLibLaws (lib : rb_lib) : Prop := {
  link_law s k z m : item_shape s (plug k E) m -> z ∉ elems (plug k E) -> is_Some (m !! z) -> aligned z -> z <> 0 ->
    exists s', rb_link_node lib z (top k) (slot_of k) s = Ret tt s' /\ item_shape s' (plug k (T Red E z E)) m;
  erase_law s t z m : item_shape s t m -> red_black t -> z ∈ elems t ->
    exists s' t', rb_erase lib z s = Ret tt s' /\ item_shape s' t' m /\ red_black t' /\ elems t' = filter (.≠ z) (elems t)
}.

(** ** The set of interest *)
Definition fd_of (p : Z * Z * epoll_event) : Z := p.1.2.
Definition event_of (p : Z * Z * epoll_event) : epoll_event := p.2.
(** Item [x] watches [f] with event [v]. *)
Definition watches (m : gmap Z (Z * Z * epoll_event)) (x f : Z) (v : epoll_event) : Prop :=
  exists p, m !! x = Some p /\ fd_of p = f /\ event_of p = v.
(** The tree is a red-black tree ordered by descriptor that holds the map [M] from
    descriptors to events, one item per descriptor. *)
Definition interest (s : rb_state epitem_t) (M : gmap Z epoll_event) : Prop :=
  exists t m, item_shape s t m /\ red_black t /\ ordered fd_of m (elems t) /\
    (forall x y, x ∈ elems t -> y ∈ elems t -> key_at fd_of m x = key_at fd_of m y -> x = y) /\
    (forall f v, M !! f = Some v <-> exists x, x ∈ elems t /\ watches m x f v).

(** What [epoll_ctl] does to the map, and its error. *)
Definition is_registered (f : Z) (M : gmap Z epoll_event) : bool := match M !! f with Some _ => true | None => false end.
Definition ctl_spec (op f : Z) (v : epoll_event) (M : gmap Z epoll_event) : Z * gmap Z epoll_event :=
  if op =? EPOLL_CTL_ADD then if is_registered f M then (EEXIST, M) else (0, <[f := v]> M)
  else if op =? EPOLL_CTL_MOD then if is_registered f M then (0, <[f := v]> M) else (ENOENT, M)
  else if op =? EPOLL_CTL_DEL then if is_registered f M then (0, delete f M) else (ENOENT, M)
  else (EINVAL, M).

Section Laws.
Context (lib : rb_lib) `{Hlib : !RbLibLaws lib}.

Lemma item_elem s t m x : item_shape s t m -> x ∈ elems t -> exists p, m !! x = Some p.
Proof.
  intros H Hx. destruct (shape_elem item_payload s t m x H Hx) as [e He].
  destruct H as (a & r & (_ & _ & <-) & _). rewrite lookup_fmap, He. by eexists.
Qed.

Lemma watches_key m x f v : watches m x f v -> key_at fd_of m x = f.
Proof. intros (p & Hp & Hf & _). unfold key_at. by rewrite Hp. Qed.

(** The search finds the item of the descriptor, or NULL when there is none. *)
Lemma find_epitem_spec fuel s t m (M : gmap Z epoll_event) f :
  item_shape s t m -> ordered fd_of m (elems t) ->
  (forall f v, M !! f = Some v <-> exists x, x ∈ elems t /\ watches m x f v) -> (length (elems t) <= fuel)%nat ->
  (exists x p, find_epitem fuel f s = Ret x s /\ x ∈ elems t /\ x <> 0 /\ m !! x = Some p /\ fd_of p = f /\ M !! f = Some (event_of p)) \/
  (find_epitem fuel f s = Ret 0 s /\ M !! f = None).
Proof.
  clear lib Hlib. intros H Ho HM Hfuel. unfold find_epitem.
  pose proof (find_key_spec item_payload fd_of fd (fun _ => eq_refl) s m f t fuel [] Hfuel H Ho) as Hfind.
  rewrite <- (shape_root _ _ _ _ H) in Hfind. destruct Hfind as [(x & E1 & Hx & Hk)|(E1 & Hn)].
  - left. destruct (item_elem s t m x H Hx) as [p Hp]. unfold key_at in Hk. rewrite Hp in Hk. exists x, p. split_and!; try done.
    + destruct H as (a & r & _ & (_ & _ & _ & Hv)). rewrite Forall_forall in Hv. exact (proj2 (Hv x Hx)).
    + apply HM. exists x. split; [done|]. by exists p.
  - right. split; [exact E1|]. destruct (M !! f) as [v|] eqn:E; [|done]. apply HM in E as (x & Hx & Hw).
    by destruct (Hn x Hx (watches_key _ _ _ _ Hw)).
Qed.

(** The event of the item found is replaced. *)
Lemma ctl_mod_spec s t m M f x p v :
  item_shape s t m -> red_black t -> ordered fd_of m (elems t) ->
  (forall x y, x ∈ elems t -> y ∈ elems t -> key_at fd_of m x = key_at fd_of m y -> x = y) ->
  (forall f v, M !! f = Some v <-> exists x, x ∈ elems t /\ watches m x f v) ->
  x ∈ elems t -> m !! x = Some p -> fd_of p = f ->
  exists s', write_node x (set_event v) s = Ret tt s' /\ interest s' (<[f := v]> M).
Proof.
  clear lib Hlib. intros H Hrb Ho Hinj HM Hx Hp Hf. destruct (shape_elem item_payload s t m x H Hx) as [e He].
  eexists. split.
  { unfold write_node. rewrite (bind_Ret _ _ s e s); [reflexivity|]. unfold node_at. erewrite bind_Ret by reflexivity. by rewrite He. }
  assert (Hep : item_payload e = p).
  { destruct H as (a & r & (_ & _ & <-) & _). rewrite lookup_fmap, He in Hp. by injection Hp. }
  pose proof (shape_payload_update item_payload s t m x e (set_event v e) H He eq_refl) as H'.
  set (m' := <[x := item_payload (set_event v e)]> m) in H'.
  assert (Hk : forall y, key_at fd_of m' y = key_at fd_of m y).
  { intros y. unfold key_at, m'. destruct (decide (y = x)) as [->|Hne]; [|by rewrite lookup_insert_ne].
    rewrite lookup_insert_eq, Hp, <- Hep. done. }
  exists t, m'. split_and!; [|done|by apply (ordered_ext fd_of m)|intros a b; rewrite !Hk; apply Hinj|].
  - replace (alter (set_event v) x (rb_nodes s)) with (<[x := set_event v e]> (rb_nodes s)); [exact H'|].
    apply map_eq. intros y. destruct (decide (y = x)) as [->|Hne].
    + by rewrite lookup_insert_eq, lookup_alter_eq, He.
    + by rewrite lookup_insert_ne, lookup_alter_ne by done.
  - intros g w. destruct (decide (g = f)) as [->|Hg].
    + rewrite lookup_insert_eq. split.
      * intros [= <-]. exists x. split; [done|]. eexists. unfold m'. rewrite lookup_insert_eq. split_and!; [done| |done]. by rewrite <- Hf, <- Hep.
      * intros (y & Hy & q & Hq & Hqf & <-). assert (y = x) as ->.
        { apply Hinj; [done..|]. rewrite <- !Hk. unfold key_at. rewrite Hq. unfold m'. rewrite lookup_insert_eq. by rewrite Hqf, <- Hf, <- Hep. }
        unfold m' in Hq. rewrite lookup_insert_eq in Hq. by injection Hq as <-.
    + rewrite lookup_insert_ne by done. rewrite HM. split; intros (y & Hy & q & Hq & Hqf & Hqv); exists y; (split; [done|]); exists q.
      * unfold m'. rewrite lookup_insert_ne; [done|]. intros ->. rewrite Hp in Hq. injection Hq as <-. congruence.
      * unfold m' in Hq. destruct (decide (x = y)) as [->|Hne]; [|by rewrite lookup_insert_ne in Hq].
        rewrite lookup_insert_eq in Hq. injection Hq as <-. destruct Hg. rewrite <- Hqf, <- Hf, <- Hep. done.
Qed.

Lemma ordered_filter m (x : Z) l : ordered fd_of m l -> ordered fd_of m (filter (.≠ x) l).
Proof.
  clear lib Hlib. unfold ordered. induction l as [|y l IH]; intros H; [constructor|].
  apply StronglySorted_cons in H as [Hy H]. rewrite filter_cons. case_decide; [|by apply IH].
  apply StronglySorted_cons. split; [|by apply IH]. rewrite Forall_forall in *. intros z [_ Hz]%list_elem_of_filter. by apply Hy.
Qed.

Lemma ctl_del_spec s t m M f x p :
  item_shape s t m -> red_black t -> ordered fd_of m (elems t) ->
  (forall x y, x ∈ elems t -> y ∈ elems t -> key_at fd_of m x = key_at fd_of m y -> x = y) ->
  (forall f v, M !! f = Some v <-> exists x, x ∈ elems t /\ watches m x f v) ->
  x ∈ elems t -> m !! x = Some p -> fd_of p = f ->
  exists s', (rb_erase lib x ;;; free_item x ;;; ret 0) s = Ret 0 s' /\ interest s' (delete f M).
Proof using Hlib.
  intros H Hrb Ho Hinj HM Hx Hp Hf. destruct (erase_law s t x m H Hrb Hx) as (s1 & t1 & E1 & H1 & Hrb1 & Hel).
  eexists. split; [rewrite (bind_Ret _ _ _ _ _ E1); reflexivity|].
  assert (Hin : forall y, y ∈ elems t1 <-> y <> x /\ y ∈ elems t) by (intros y; by rewrite Hel, list_elem_of_filter).
  assert (Hk : forall y, y ∈ elems t1 -> key_at fd_of (delete x m) y = key_at fd_of m y).
  { intros y [Hne _]%Hin. unfold key_at. by rewrite lookup_delete_ne. }
  exists t1, (delete x m). split_and!.
  - apply (shape_delete item_payload); [exact H1|]. intros [Hne _]%Hin. done.
  - done.
  - apply (ordered_ext fd_of m); [exact Hk|]. rewrite Hel. by apply ordered_filter.
  - intros a b Ha Hb. rewrite !Hk by done. apply Hin in Ha as [_ Ha], Hb as [_ Hb]. by apply Hinj.
  - intros g w. destruct (decide (g = f)) as [->|Hg].
    + rewrite lookup_delete_eq. split; [done|]. intros (y & [Hne Hy]%Hin & q & Hq & Hqf & _). rewrite lookup_delete_ne in Hq by done.
      destruct Hne. apply Hinj; [done..|]. unfold key_at. by rewrite Hq, Hp, Hqf.
    + rewrite lookup_delete_ne by done. rewrite HM. split; intros (y & Hy & q & Hq & Hqf & Hqv); exists y.
      * assert (Hne : y <> x) by (intros ->; rewrite Hp in Hq; injection Hq as <-; congruence).
        split; [by apply Hin|]. exists q. by rewrite lookup_delete_ne.
      * apply Hin in Hy as [Hne Hy]. split; [done|]. exists q. by rewrite lookup_delete_ne in Hq.
Qed.

Lemma ctl_add_spec fuel s t m M f v item :
  item_shape s t m -> red_black t -> ordered fd_of m (elems t) ->
  (forall x y, x ∈ elems t -> y ∈ elems t -> key_at fd_of m x = key_at fd_of m y -> x = y) ->
  (forall f v, M !! f = Some v <-> exists x, x ∈ elems t /\ watches m x f v) ->
  (length (elems t) <= fuel)%nat -> M !! f = None -> rb_nodes s !! item = None -> aligned item -> item <> 0 ->
  exists s', insert_epitem lib fuel item (RbState (<[item := EpItem (PackedNode 0 0 0) 0 f v]> (rb_nodes s)) (rb_root s)) = Ret tt s' /\
    interest s' (<[f := v]> M).
Proof using Hlib.
  intros H Hrb Ho Hinj HM Hfuel Hnone Hfresh Hal Hi0. set (e := EpItem (PackedNode 0 0 0) 0 f v).
  assert (Hnew : item ∉ elems t).
  { intros Hin. destruct (shape_elem item_payload s t m item H Hin) as [e' He']. congruence. }
  pose proof (shape_new item_payload s t m item e H Hnew) as H1.
  set (s1 := RbState _ _) in H1. change (RbState (<[item:=e]> (rb_nodes s)) (rb_root s)) with s1. set (m1 := <[item:=item_payload e]> m) in H1.
  assert (Hk1 : key_at fd_of m1 item = f) by (unfold key_at, m1; by rewrite lookup_insert_eq).
  assert (Hk : forall y, y ∈ elems t -> key_at fd_of m1 y = key_at fd_of m y).
  { intros y Hy. unfold key_at, m1. rewrite lookup_insert_ne; [done|]. by intros ->. }
  destruct (tree_insert_spec item_payload fd_of fd (fun _ => eq_refl) fuel s1 t item m1 H1 Hrb (ordered_ext fd_of m m1 _ Hk Ho) Hfuel)
    as (k & E1 & Hp & Hins). rewrite Hk1 in E1.
  unfold insert_epitem. rewrite (bind_Ret _ _ s1 e s1).
  2:{ unfold node_at. erewrite bind_Ret by reflexivity. unfold s1. simpl. by rewrite lookup_insert_eq. }
  change (fd e) with f. rewrite (bind_Ret _ _ _ _ _ E1). cbn [fst snd]. subst t.
  destruct (link_law s1 k item m1 H1 Hnew) as (s2 & E2 & H2); [|done|done|].
  { unfold m1. rewrite lookup_insert_eq. by eexists. }
  rewrite (bind_Ret _ _ _ _ _ E2). destruct (Hins s2 H2) as (s3 & t' & E3 & H3 & Hrb3 & Hl). exists s3. split; [exact E3|].
  assert (Hin : forall y, y ∈ elems t' <-> y = item \/ y ∈ elems (plug k E)).
  { destruct Hl as (l1 & l2 & -> & -> & _). intros y. rewrite !elem_of_app, elem_of_cons. tauto. }
  assert (Hother : forall y, y ∈ elems (plug k E) -> key_at fd_of m1 y <> f).
  { intros y Hy Hyf. rewrite Hk in Hyf by done. destruct (item_elem s (plug k E) m y H Hy) as [q Hq].
    assert (Hw : M !! f = Some (event_of q)); [|congruence]. apply HM. exists y. split; [done|]. exists q. unfold key_at in Hyf. by rewrite Hq in Hyf. }
  exists t', m1. split_and!; [done|done| | |].
  - eapply inserted_ordered; [exact Hl|]. exact (ordered_ext fd_of m m1 _ Hk Ho).
  - intros a b [->|Ha]%Hin [->|Hb]%Hin Hab; [done| | |].
    + rewrite Hk1 in Hab. by destruct (Hother b Hb).
    + rewrite Hk1 in Hab. by destruct (Hother a Ha).
    + rewrite !Hk in Hab by done. by apply Hinj.
  - intros g w. destruct (decide (g = f)) as [->|Hg].
    + rewrite lookup_insert_eq. split.
      * intros [= <-]. exists item. split; [apply Hin; by left|]. eexists. unfold m1. by rewrite lookup_insert_eq.
      * intros (y & [->|Hy]%Hin & Hw).
        -- destruct Hw as (q & Hq & _ & <-). unfold m1 in Hq. rewrite lookup_insert_eq in Hq. by injection Hq as <-.
        -- by destruct (Hother y Hy (watches_key _ _ _ _ Hw)).
    + rewrite lookup_insert_ne by done. rewrite HM. split.
      * intros (y & Hy & q & Hq & Hqq). exists y. split; [apply Hin; by right|]. exists q. unfold m1. rewrite lookup_insert_ne; [done|]. by intros ->.
      * intros (y & [->|Hy]%Hin & q & Hq & Hqf & Hqv).
        -- unfold m1 in Hq. rewrite lookup_insert_eq in Hq. injection Hq as <-. by destruct Hg.
        -- exists y. split; [done|]. exists q. unfold m1 in Hq. rewrite lookup_insert_ne in Hq; [done|]. by intros ->.
Qed.

Lemma ctl_switch_spec fuel item op f v s M :
  interest s M -> (size (rb_nodes s) <= fuel)%nat -> rb_nodes s !! item = None -> aligned item -> item <> 0 ->
  exists s', ctl_switch lib fuel item op f (Some v) s = Ret (fst (ctl_spec op f v M)) s' /\ interest s' (snd (ctl_spec op f v M)).
Proof using Hlib.
  intros HI Hfuel Hfresh Hal Hi0. pose proof HI as (t & m & H & Hrb & Ho & Hinj & HM).
  assert (Hlen : (length (elems t) <= fuel)%nat).
  { pose proof (shape_length item_payload s t m H). lia. }
  unfold ctl_switch, ctl_spec, is_registered.
  destruct (find_epitem_spec fuel s t m M f H Ho HM Hlen) as [(x & p & E1 & Hx & Hx0 & Hp & Hf & HMf)|(E1 & HMf)];
    rewrite (bind_Ret _ _ _ _ _ E1), HMf.
  - rewrite (proj2 (Z.eqb_neq x 0)) by done. cbn [negb].
    destruct (op =? EPOLL_CTL_ADD); [by exists s|]. destruct (op =? EPOLL_CTL_MOD); [|destruct (op =? EPOLL_CTL_DEL); [|by exists s]].
    + destruct (ctl_mod_spec s t m M f x p v H Hrb Ho Hinj HM Hx Hp Hf) as (s' & E2 & HI'). exists s'. split; [|exact HI'].
      erewrite bind_Ret by reflexivity. by rewrite (bind_Ret _ _ _ _ _ E2).
    + exact (ctl_del_spec s t m M f x p H Hrb Ho Hinj HM Hx Hp Hf).
  - cbn [negb Z.eqb]. rewrite (proj2 (Z.eqb_neq item 0)) by done.
    destruct (op =? EPOLL_CTL_ADD); [|destruct (op =? EPOLL_CTL_MOD); [by exists s|destruct (op =? EPOLL_CTL_DEL); by exists s]].
    destruct (ctl_add_spec fuel s t m M f v item H Hrb Ho Hinj HM Hlen HMf Hfresh Hal Hi0) as (s' & E2 & HI').
    exists s'. split; [|exact HI']. do 2 erewrite bind_Ret by reflexivity. by rewrite (bind_Ret _ _ _ _ _ E2).
Qed.
End Laws.

(** C11. The set of interest.  On an instance whose tree holds a map from descriptors
    to events, [epoll_ctl] does what the operation says to the map: a new descriptor
    is added, a registered one is changed or removed, and EEXIST, ENOENT, EINVAL and
    EBADF are reported for exactly the calls they name, with the map unchanged.  The
    tree stays a red-black tree in the order of the descriptors, no other instance
    changes, and the list of ready items stays what it was: no function of the file
    ever puts an item into it. *)
Theorem epoll_ctl_refines (lib : rb_lib) (Hlib : RbLibLaws lib) (fuel : nat) (s : epoll) (item epfd op f : Z) (v : epoll_event) :
  (bad_epfd epfd s = true ->
    epoll_ctl lib fuel item epfd op f (Some v) s = Ret (-1) (EpollState (instances s) EBADF)) /\
  (forall ep M, bad_epfd epfd s = false -> instances s !! Z.to_nat epfd = Some (Some ep) -> interest (rbr ep) M ->
    (size (rb_nodes (rbr ep)) <= fuel)%nat -> rb_nodes (rbr ep) !! item = None -> aligned item -> item <> 0 ->
    let err := fst (ctl_spec op f v M) in
    exists t', epoll_ctl lib fuel item epfd op f (Some v) s
        = Ret (if err =? 0 then 0 else -1)
              (EpollState (<[Z.to_nat epfd := Some (EventPoll t' (maxevents ep) (waiting ep) (rdlist ep))]> (instances s))
                          (if err =? 0 then errno s else err)) /\
      interest t' (snd (ctl_spec op f v M))).
Proof.
  split.
  - intros Hbad. unfold epoll_ctl. erewrite bind_Ret by reflexivity. by rewrite Hbad.
  - intros ep M Hok Hep HI Hfuel Hfresh Hal Hi0 err.
    destruct (ctl_switch_spec lib fuel item op f v (rbr ep) M HI Hfuel Hfresh Hal Hi0) as (t' & E & HI'). exists t'. split; [|exact HI'].
    unfold epoll_ctl. erewrite bind_Ret by reflexivity. rewrite Hok.
    rewrite (bind_Ret _ _ s err (put_instance (Z.to_nat epfd) (Some (upd rbr_part t' ep)) s)).
    + destruct (err =? 0); done.
    + unfold in_instance. rewrite Hep. by rewrite (zoom_Ret rbr_part _ ep _ _ E).
Qed.

(** ** Operations that keep the promise

    [link_leaf] of RbSearch, and an erasure that links the other nodes anew. *)
Fixpoint inorder (fuel : nat) (p : Z) : Cmd (rb_state epitem_t) (list Z) :=
  if p =? 0 then ret [] else
  match fuel with
  | O => fail NoFuel
  | S fuel' =>
      let* n := node_at p in
      let* l := inorder fuel' (rb_child L n) in
      let* r := inorder fuel' (rb_child R n) in
      ret (l ++ p :: r)
  end.
Definition append_node (fuel : nat) (y : Z) : Cmd (rb_state epitem_t) unit :=
  let* place := find_slot fuel (fun _ => 0) 0 0 Root in
  link_leaf y (fst place) (snd place) ;;;
  rb_insert_color fuel y.
Definition relink_others (z : Z) : Cmd (rb_state epitem_t) unit :=
  let* s := get in
  let fuel := size (rb_nodes s) in
  let* l := inorder fuel (rb_root s) in
  set_root 0 ;;;
  for_each (filter (.≠ z) l) (append_node fuel).
Definition relink_lib : rb_lib := RbLib link_leaf relink_others.

Lemma inorder_spec s m t : forall fuel k,
  (length (elems t) <= fuel)%nat -> item_shape s (plug k t) m -> inorder fuel (addr t) s = Ret (elems t) s.
Proof.
  induction t as [|c l IHl x r IHr]; intros fuel k Hfuel H; [by destruct fuel|].
  simpl in Hfuel. rewrite length_app in Hfuel. simpl in Hfuel. destruct fuel as [|fuel]; [lia|]. cbn [inorder addr elems].
  destruct (shape_addr item_payload s k L c l x r m H) as [Hx _]. rewrite (proj2 (Z.eqb_neq _ _)) by done.
  destruct (shape_node item_payload s k L c l x r m H) as (n & En & Fn). rewrite (bind_Ret _ _ _ _ _ En), !child_fields, Fn.
  cbn [c_child bin_cell c_left c_right].
  rewrite (bind_Ret _ _ _ _ _ (IHl fuel (Frame L c x r :: k) ltac:(lia) H)).
  by rewrite (bind_Ret _ _ _ _ _ (IHr fuel (Frame R c x l :: k) ltac:(lia) H)).
Qed.

Lemma append_nodes_spec fuel m l : forall s t,
  item_shape s t m -> red_black t -> NoDup (elems t ++ l) -> (length (elems t ++ l) <= fuel)%nat ->
  Forall (fun y => is_Some (m !! y) /\ aligned y /\ y <> 0) l ->
  exists s' t', for_each l (append_node fuel) s = Ret tt s' /\ item_shape s' t' m /\ red_black t' /\ elems t' = elems t ++ l.
Proof.
  induction l as [|y l IH]; intros s t H Hrb Hnd Hfuel Hl.
  { exists s, t. by rewrite app_nil_r. }
  apply Forall_cons in Hl as [(Hy & Hal & Hy0) Hl].
  assert (Hord : ordered (fun _ => 0) m (elems t)).
  { generalize (elems t). intros q. unfold ordered, key_at. induction q as [|z q IHq]; constructor; [done|].
    apply Forall_forall. intros w _. destruct (m !! z), (m !! w); done. }
  destruct (tree_insert_spec item_payload (fun _ => 0) (fun _ => 0) (fun _ => eq_refl) fuel s t y m H Hrb Hord) as (k & E1 & Hp & Hins).
  { rewrite length_app in Hfuel. lia. }
  assert (Hk0 : key_at (fun _ => 0) m y = 0) by (unfold key_at; by destruct (m !! y)). rewrite Hk0 in E1. subst t.
  apply NoDup_app in Hnd as (Hn1 & Hn2 & Hn3).
  destruct (link_leaf_spec item_payload s k y m H) as (s1 & E2 & H1); [|done..|].
  { intros Hin. apply (Hn2 y Hin). by constructor. }
  destruct (Hins s1 H1) as (s2 & t2 & E3 & H2 & Hrb2 & (l1 & l2 & Hs & Hel & _ & Hgt)).
  assert (l2 = []) as ->.
  { destruct l2 as [|w l2]; [done|]. specialize (Hgt w ltac:(by constructor)). unfold key_at in Hgt. destruct (m !! y), (m !! w); lia. }
  rewrite app_nil_r in Hs. subst l1.
  destruct (IH s2 t2 H2 Hrb2) as (s3 & t3 & E4 & H3 & Hrb3 & Hel3); [| |done|].
  { rewrite Hel, <- app_assoc. simpl. apply NoDup_app. split_and!; done. }
  { rewrite Hel, <- app_assoc. simpl. by rewrite length_app in *. }
  exists s3, t3. split_and!; [|done|done|by rewrite Hel3, Hel, <- app_assoc].
  cbn [for_each]. rewrite (bind_Ret _ _ s tt s2); [done|]. unfold append_node. rewrite (bind_Ret _ _ _ _ _ E1).
  cbn [fst snd]. by rewrite (bind_Ret _ _ _ _ _ E2).
Qed.

#[export] Instance relink_laws : RbLibLaws relink_lib.
Proof.
  split.
  - intros s k z m. apply (link_leaf_spec item_payload).
  - intros s t z m H Hrb Hz. simpl. unfold relink_others. erewrite bind_Ret by reflexivity.
    pose proof (shape_length item_payload s t m H) as Hlen.
    rewrite (shape_root _ _ _ _ H), (bind_Ret _ _ _ _ _ (inorder_spec s m t _ [] Hlen H)). erewrite bind_Ret by reflexivity.
    pose proof H as (a & r & (Ha & Hr & Hm) & (_ & _ & Hnd & Hv)).
    destruct (append_nodes_spec (size (rb_nodes s)) m (filter (.≠ z) (elems t)) (RbState (rb_nodes s) 0) E) as (s' & t' & E' & H' & Hrb' & Hel).
    + exists a, 0. split; [done|]. split_and!; [done|done|apply NoDup_nil_2|constructor].
    + split; [done|]. by exists 0%nat.
    + simpl. by apply NoDup_filter.
    + simpl. pose proof (length_filter (.≠ z) (elems t)). lia.
    + rewrite Forall_forall in Hv |- *. intros y [_ Hy]%list_elem_of_filter. destruct (Hv y Hy) as [? ?]. split_and!; [|done|done].
      by destruct (item_elem s t m y H Hy) as [p ->].
    + by exists s', t'.
Qed.

Lemma interest_empty : interest (RbState ∅ 0) ∅.
Proof.
  exists E, ∅. split_and!.
  - unfold item_shape. solve_shape.
  - split; [done|]. by exists 0%nat.
  - constructor.
  - intros x y Hx. by apply not_elem_of_nil in Hx.
  - intros f v. rewrite lookup_empty. split; [done|]. intros (x & Hx & _). by apply not_elem_of_nil in Hx.
Qed.

(** Descriptor 7 is added to an empty instance, and removing it then from another
    empty one is an error. *)
Definition empty_instance : epoll := EpollState [Some (EventPoll (RbState ∅ 0) 8 0 0)] 0.

Lemma epoll_ctl_refines_witness :
  (exists s' t', epoll_ctl relink_lib 4 64 0 EPOLL_CTL_ADD 7 (Some (EpollEvent 1 7)) empty_instance = Ret 0 s' /\
    instances s' !! 0%nat = Some (Some (EventPoll t' 8 0 0)) /\ interest t' {[ 7 := EpollEvent 1 7 ]}) /\
  (exists s', epoll_ctl relink_lib 4 64 0 EPOLL_CTL_DEL 7 (Some (EpollEvent 1 7)) empty_instance = Ret (-1) s' /\ errno s' = ENOENT).
Proof.
  split.
  - destruct (proj2 (epoll_ctl_refines relink_lib relink_laws 4 empty_instance 64 0 EPOLL_CTL_ADD 7 (EpollEvent 1 7))
      (EventPoll (RbState ∅ 0) 8 0 0) ∅ eq_refl eq_refl interest_empty) as (t' & H & HI).
    + vm_compute. lia.
    + reflexivity.
    + split; [lia|reflexivity].
    + discriminate.
    + eexists _, t'. split; [exact H|]. split; [reflexivity|exact HI].
  - destruct (proj2 (epoll_ctl_refines relink_lib relink_laws 4 empty_instance 64 0 EPOLL_CTL_DEL 7 (EpollEvent 1 7))
      (EventPoll (RbState ∅ 0) 8 0 0) ∅ eq_refl eq_refl interest_empty) as (t' & H & HI).
    + vm_compute. lia.
    + reflexivity.
    + split; [lia|reflexivity].
    + discriminate.
    + eexists. split; [exact H|]. reflexivity.
Defined.
