(* ===== verification/Json.v ===== *)
(** * Json

    src/src/cjson.c and src/src/cjson_print.c: the strings of the JSON printer and
    parser, and the printer of arrays.  A pointer into a text is the rest of the
    text from there on, terminator included; reading past it is a fault, and so is
    a write past the end of the buffer that the code has allocated. *)
From S2P Require Import Prelude.

(** ** Data *)
Definition cJSON_String : Z := 16.
Definition firstByteMark : list Z := [0; 0; 192; 224; 240; 248; 252].

(** ** Buffers

    The state is what has been written to a buffer of [cap] bytes. *)
Section Buffers.
Context (cap : nat).
Definition emit (d : list Z) : Cmd (list Z) unit :=
  let* w := get in if (length w + length d <=? cap)%nat then put (w ++ d) else fail Fault.
(** [strcpy] and [sprintf] to the end of the buffer: the terminator is written, and
    overwritten by what comes next. *)
Definition emit_text (d : list Z) : Cmd (list Z) unit :=
  let* w := get in if (length w + length d + 1 <=? cap)%nat then put (w ++ d) else fail Fault.
End Buffers.
Definition peek {S} (p : list Z) : Cmd S Z := deref (head p).

(** ** The parser

    [sscanf_4x]: what [sscanf] with the format [%4x] stores, if it stores anything. *)
Section Parser.
Context (sscanf_4x : list Z -> option Z).

(** The loop that counts [len]. *)
Fixpoint count_loop (p : list Z) (len : nat) : Cmd (list Z) nat :=
  match p with
  | [] => fail Fault
  | c :: p1 =>
      if (c =? 34) || (c =? 0) then ret len
      else if c =? 92 then match p1 with [] => fail Fault | _ :: p2 => count_loop p2 (S len) end
      else count_loop p1 (S len)
  end.

(** The number of bytes and the bytes of a code point, last byte first in the code. *)
Definition utf8_len (uc : Z) : Z := if uc <? 128 then 1 else if uc <? 2048 then 2 else if uc <? 65536 then 3 else 4.
Definition cont_byte (uc : Z) : Z := u8 (Z.land (Z.lor uc 128) 191).
Definition first_byte (uc len : Z) : Z := u8 (Z.lor uc (nth (Z.to_nat len) firstByteMark 0)).
Definition utf8 (uc : Z) : list Z :=
  let len := utf8_len uc in
  let u1 := Z.shiftr uc 6 in
  let u2 := Z.shiftr u1 6 in
  let u3 := Z.shiftr u2 6 in
  if len =? 4 then [first_byte u3 4; cont_byte u2; cont_byte u1; cont_byte uc]
  else if len =? 3 then [first_byte u2 3; cont_byte u1; cont_byte uc]
  else if len =? 2 then [first_byte u1 2; cont_byte uc]
  else [first_byte uc 1].

(** [uc] and [uc2] keep their value from one escape to the next; [None] is not
    initialised. *)
Record codes : Type := Codes { c_uc : option Z; c_uc2 : option Z }.
Definition emit_code (cap : nat) (v : Z) (p : list Z) (uc2 : option Z) : Cmd (list Z) (list Z * codes) :=
  emit cap (utf8 v) ;;;
  ret (p, Codes (Some (Z.shiftr v (6 * (utf8_len v - 1)))) uc2).

(** The case ['u'], with [p] at the letter. *)
Definition parse_u (cap : nat) (p : list Z) (k : codes) : Cmd (list Z) (list Z * codes) :=
  let uc := match sscanf_4x (drop 1 p) with Some v => Some v | None => c_uc k end in
  let p := drop 4 p in
  let* v := deref uc in
  if ((56320 <=? v) && (v <=? 57343)) || (v =? 0) then ret (p, Codes uc (c_uc2 k)) else
  if (55296 <=? v) && (v <=? 56319) then
    let* a := peek (drop 1 p) in
    if negb (a =? 92) then ret (p, Codes uc (c_uc2 k)) else
    let* b := peek (drop 2 p) in
    if negb (b =? 117) then ret (p, Codes uc (c_uc2 k)) else
    let uc2 := match sscanf_4x (drop 3 p) with Some v => Some v | None => c_uc2 k end in
    let p := drop 6 p in
    let* v2 := deref uc2 in
    if (v2 <? 56320) || (57343 <? v2) then ret (p, Codes uc uc2) else
    emit_code cap (65536 + Z.lor (Z.shiftl (Z.land v 1023) 10) (Z.land v2 1023)) p uc2
  else emit_code cap v p (c_uc2 k).

(** The [switch] after a backslash. *)
Definition parse_escape (cap : nat) (p : list Z) (k : codes) : Cmd (list Z) (list Z * codes) :=
  let* c := peek p in
  if c =? 98 then emit cap [8] ;;; ret (p, k)
  else if c =? 102 then emit cap [12] ;;; ret (p, k)
  else if c =? 110 then emit cap [10] ;;; ret (p, k)
  else if c =? 114 then emit cap [13] ;;; ret (p, k)
  else if c =? 116 then emit cap [9] ;;; ret (p, k)
  else if c =? 117 then parse_u cap p k
  else emit cap [c] ;;; ret (p, k).

Fixpoint copy_loop (fuel cap : nat) (p : list Z) (k : codes) : Cmd (list Z) (list Z) :=
  let* c := peek p in
  if (c =? 34) || (c =? 0) then ret p else
  match fuel with
  | O => fail NoFuel
  | S fuel' =>
      if negb (c =? 92) then emit cap [c] ;;; copy_loop fuel' cap (drop 1 p) k
      else
        let* r := parse_escape cap (drop 1 p) k in
        copy_loop fuel' cap (drop 1 (fst r)) (snd r)
  end.

(** The returned pointer and [valuestring] with its terminator, or NULL. *)
Definition parse_string (fuel : nat) (malloc_ok : bool) (str : list Z) : Cmd (list Z) (option (list Z * list Z)) :=
  let* q := peek str in
  if negb (q =? 34) then ret None else
  let* len := count_loop (drop 1 str) 0 in
  if negb malloc_ok then ret None else
  let cap := (len + 1)%nat in
  put [] ;;;
  let* p := copy_loop fuel cap (drop 1 str) (Codes None None) in
  emit cap [0] ;;;
  let* c := peek p in
  let* out := get in
  ret (Some (if c =? 34 then drop 1 p else p, out)).
End Parser.

(** ** The printer *)

(** [strchr] of the letters with a short escape. *)
Definition short_escapes : list Z := [34; 92; 8; 12; 10; 13; 9].
Fixpoint print_length (p : list Z) (len : nat) : Cmd (list Z) nat :=
  match p with
  | [] => fail Fault
  | token :: p1 =>
      if token =? 0 then ret len
      else if bool_decide (token ∈ short_escapes) then print_length p1 (S (S len))
      else if token <? 32 then print_length p1 (S len + 5)%nat
      else print_length p1 (S len)
  end.

(** [%04x] of a byte. *)
Definition hex_digit (d : Z) : Z := if d <? 10 then 48 + d else 87 + d.
Definition hex_byte (b : Z) : list Z := [48; 48; hex_digit (b / 16); hex_digit (b mod 16)].

Definition print_escape (cap : nat) (token : Z) : Cmd (list Z) unit :=
  if token =? 92 then emit cap [92]
  else if token =? 34 then emit cap [34]
  else if token =? 8 then emit cap [98]
  else if token =? 12 then emit cap [102]
  else if token =? 10 then emit cap [110]
  else if token =? 13 then emit cap [114]
  else if token =? 9 then emit cap [116]
  else emit_text cap (117 :: hex_byte token).

Fixpoint print_loop (cap : nat) (p : list Z) : Cmd (list Z) unit :=
  match p with
  | [] => fail Fault
  | c :: p1 =>
      if c =? 0 then ret tt
      else if (31 <? c) && negb (c =? 34) && negb (c =? 92) then emit cap [c] ;;; print_loop cap p1
      else emit cap [92] ;;; print_escape cap c ;;; print_loop cap p1
  end.

(** The text with its terminator, or NULL. *)
Definition print_string (malloc_ok : bool) (valuestring : option (list Z)) : Cmd (list Z) (option (list Z)) :=
  match valuestring with
  | None => if malloc_ok then ret (Some [34; 34; 0]) else ret None
  | Some s =>
      let* len := print_length s 0 in
      if negb malloc_ok then ret None else
      let cap := (len + 3)%nat in
      put [] ;;;
      emit cap [34] ;;;
      print_loop cap s ;;;
      emit cap [34] ;;;
      emit cap [0] ;;;
      let* out := get in
      ret (Some out)
  end.

(** [print_value], which the sources do not define, has printed the children to
    [entries]; [None] is a failure. *)
Fixpoint print_entries (cap : nat) (fmt : bool) (entries : list (list Z)) : Cmd (list Z) unit :=
  match entries with
  | [] => ret tt
  | e :: rest =>
      emit_text cap e ;;;
      (match rest with [] => ret tt | _ => emit cap [44] ;;; (if fmt then emit cap [32] else ret tt) ;;; emit_text cap [] end) ;;;
      print_entries cap fmt rest
  end.
Definition array_length (fmt : bool) (entries : list (list Z)) : nat :=
  fold_left (fun len e => len + (length e + 2 + (if fmt then 1 else 0)))%nat entries 5%nat.
Definition print_array (malloc_ok : bool) (fmt : bool) (entries : list (option (list Z))) : Cmd (list Z) (option (list Z)) :=
  match entries with
  | [] => if malloc_ok then ret (Some [91; 93; 0]) else ret None
  | _ =>
      if negb malloc_ok then ret None else
      match mapM id entries with
      | None => ret None
      | Some l =>
          let cap := array_length fmt l in
          put [] ;;;
          emit cap [91] ;;;
          emit_text cap [] ;;;
          print_entries cap fmt l ;;;
          emit cap [93] ;;;
          emit cap [0] ;;;
          let* out := get in
          ret (Some out)
      end
  end.

(** ** The text of a string *)
Definition plain (c : Z) : bool := (31 <? c) && negb (c =? 34) && negb (c =? 92).
Definition letter (c : Z) : option Z :=
  if c =? 92 then Some 92 else if c =? 34 then Some 34 else if c =? 8 then Some 98 else if c =? 12 then Some 102
  else if c =? 10 then Some 110 else if c =? 13 then Some 114 else if c =? 9 then Some 116 else None.
Definition escape_tail (c : Z) : list Z := match letter c with Some l => [l] | None => 117 :: hex_byte c end.
Definition escape (c : Z) : list Z := if plain c then [c] else 92 :: escape_tail c.
Definition text (s : list Z) : list Z := concat (map escape s).
Definition byte (c : Z) : Prop := 1 <= c < 256.

(** The four kinds of characters. *)
Lemma kinds c : byte c ->
  (plain c = true /\ escape c = [c] /\ c <> 34 /\ c <> 92 /\ (c ∉ short_escapes) /\ 32 <= c) \/
  (plain c = false /\ (exists l, letter c = Some l /\ escape c = [92; l]) /\ c ∈ short_escapes) \/
  (plain c = false /\ letter c = None /\ escape c = 92 :: 117 :: hex_byte c /\ (c ∉ short_escapes) /\ c < 32).
Proof.
  intros Hc. assert (Hin : c ∈ short_escapes <-> c = 34 \/ c = 92 \/ c = 8 \/ c = 12 \/ c = 10 \/ c = 13 \/ c = 9)
    by (unfold short_escapes; set_solver).
  rewrite Hin. clear Hin. unfold escape, escape_tail, plain, letter.
  destruct (decide (c = 34 \/ c = 92 \/ c = 8 \/ c = 12 \/ c = 10 \/ c = 13 \/ c = 9)) as [H|H].
  - right. left. split_and!; [| |done]; repeat destruct H as [->|H]; (reflexivity || (eexists; split; reflexivity) || (subst; reflexivity) || idtac).
    subst. eexists. split; reflexivity.
  - rewrite !(proj2 (Z.eqb_neq c _)) by tauto. cbn [negb]. rewrite !andb_true_r. destruct (Z.ltb_spec 31 c).
    + left. split_and!; (done || lia || tauto).
    + right. right. split_and!; (done || lia || tauto).
Qed.

Lemma emit_fits cap d w : (length w + length d <= cap)%nat -> emit cap d w = Ret tt (w ++ d).
Proof. intros H. unfold emit. erewrite bind_Ret by reflexivity. by rewrite (proj2 (Nat.leb_le _ _)). Qed.

Lemma emit_text_fits cap d w : (length w + length d + 1 <= cap)%nat -> emit_text cap d w = Ret tt (w ++ d).
Proof. intros H. unfold emit_text. erewrite bind_Ret by reflexivity. by rewrite (proj2 (Nat.leb_le _ _)). Qed.

Lemma print_length_spec s w : Forall byte s -> forall len, print_length (s ++ [0]) len w = Ret (len + length (text s))%nat w.
Proof.
  induction 1 as [|c s Hc _ IH]; intros len; [by rewrite Nat.add_0_r|].
  unfold text. cbn [map concat app print_length]. rewrite length_app. fold (text s).
  assert (Hn : (c =? 0) = false) by (apply Z.eqb_neq; destruct Hc; lia). rewrite Hn.
  destruct (kinds c Hc) as [(_ & -> & _ & _ & Hin & Hge)|[(_ & (l & _ & ->) & Hin)|(_ & _ & -> & Hin & Hlt)]].
  - rewrite bool_decide_eq_false_2, (proj2 (Z.ltb_ge _ _)), IH by done. f_equal. simpl. lia.
  - rewrite bool_decide_eq_true_2, IH by done. f_equal. simpl. lia.
  - rewrite bool_decide_eq_false_2, (proj2 (Z.ltb_lt _ _)), IH by done. f_equal. simpl. lia.
Qed.

Lemma print_escape_spec cap c w :
  (length w + length (escape_tail c) + 1 <= cap)%nat -> print_escape cap c w = Ret tt (w ++ escape_tail c).
Proof.
  unfold print_escape, escape_tail, letter. intros H.
  destruct (c =? 92), (c =? 34), (c =? 8), (c =? 12), (c =? 10), (c =? 13), (c =? 9);
    (apply emit_text_fits; simpl in *; lia) || (apply emit_fits; simpl in *; lia).
Qed.

Lemma print_loop_spec cap s : Forall byte s -> forall w,
  (length w + length (text s) + 1 <= cap)%nat -> print_loop cap (s ++ [0]) w = Ret tt (w ++ text s).
Proof.
  induction 1 as [|c s Hc _ IH]; intros w Hfit; [by rewrite app_nil_r|].
  unfold text in *. cbn [map concat app print_loop] in *. rewrite length_app in Hfit. fold (text s) in *.
  assert (Hn : (c =? 0) = false) by (apply Z.eqb_neq; destruct Hc; lia). rewrite Hn.
  change ((31 <? c) && negb (c =? 34) && negb (c =? 92)) with (plain c). unfold escape in *. destruct (plain c).
  - simpl in Hfit. rewrite (bind_Ret _ _ _ _ _ (emit_fits cap [c] w ltac:(simpl; lia))).
    rewrite IH by (rewrite length_app; simpl; lia). by rewrite <- app_assoc.
  - cbn [length] in Hfit. rewrite (bind_Ret _ _ _ _ _ (emit_fits cap [92] w ltac:(simpl; lia))).
    rewrite (bind_Ret _ _ _ _ _ (print_escape_spec cap c (w ++ [92]) ltac:(rewrite length_app; cbn [length]; lia))).
    rewrite IH by (rewrite !length_app; cbn [length]; lia). by rewrite <- !app_assoc.
Qed.

(** ** Reading a text back

    What the C library promises of [%4x] on four hexadecimal digits. *)
Class Scan4x (sscanf_4x : list Z -> option Z) : Prop :=
  scan_hex_byte : forall b rest, 0 <= b < 256 -> sscanf_4x (hex_byte b ++ rest) = Some b.

Section Reading.
Context (sscanf_4x : list Z -> option Z) `{Hscan : !Scan4x sscanf_4x}.

Lemma peek_cons {S} c p (s : S) : peek (c :: p) s = Ret c s.
Proof. done. Qed.

(** An escape of the printer takes one round and gives its character. *)
Lemma parse_escape_spec cap c q w k :
  byte c -> plain c = false -> (length w + 1 <= cap)%nat ->
  exists p k', parse_escape sscanf_4x cap (escape_tail c ++ q) k w = Ret (p, k') (w ++ [c]) /\ drop 1 p = q.
Proof using Hscan.
  intros Hc Hp Hfit. unfold escape_tail.
  assert (Hcase : (exists l, letter c = Some l /\ forall p, parse_escape sscanf_4x cap (l :: p) k w = Ret (l :: p, k) (w ++ [c])) \/
                  (letter c = None /\ c < 32)).
  { pose proof (fun d => emit_fits cap [d] w ltac:(simpl; lia)) as Hemit. unfold parse_escape.
    destruct (kinds c Hc) as [(Hpl & _)|[(_ & (l & Hl & _) & _)|(_ & Hl & _ & _ & Hlt)]]; [congruence| |by right]. left. exists l. split; [done|].
    intros p. rewrite (bind_Ret _ _ _ _ _ (peek_cons l p w)). unfold letter in Hl.
    repeat match type of Hl with
      | (if ?a =? ?b then _ else _) = _ =>
          destruct (Z.eqb_spec a b) as [->|]; [injection Hl as <-; exact (bind_Ret _ _ _ _ _ (Hemit _))|]
      end. done. }
  destruct Hcase as [(l & Hl & E)|(Hl & Hlt)]; rewrite Hl.
  - exists (l :: q), k. split; [exact (E q)|]. apply drop_0.
  - unfold parse_escape. cbn [app]. rewrite (bind_Ret _ _ _ _ _ (peek_cons 117 _ w)). cbn [Z.eqb Pos.eqb].
    unfold parse_u. rewrite skipn_cons, drop_0. destruct Hc as [Hc1 Hc2]. rewrite (scan_hex_byte c q ltac:(lia)).
    erewrite bind_Ret by reflexivity. rewrite (proj2 (Z.leb_gt 56320 c)), (proj2 (Z.eqb_neq c 0)), (proj2 (Z.leb_gt 55296 c)) by lia.
    cbn [andb orb]. unfold emit_code, utf8, utf8_len. rewrite (proj2 (Z.ltb_lt c 128)) by lia. cbn [Z.eqb Pos.eqb].
    replace (first_byte c 1) with c.
    2:{ unfold first_byte. change (nth (Z.to_nat 1) firstByteMark 0) with 0. rewrite Z.lor_0_r. symmetry. apply u8_small. lia. }
    rewrite (bind_Ret _ _ _ _ _ (emit_fits cap [c] w ltac:(simpl; lia))). eexists _, _. split; [reflexivity|]. done.
Qed.

Lemma copy_loop_spec cap q s : Forall byte s -> forall fuel w k,
  (length s <= fuel)%nat -> (length w + length s <= cap)%nat ->
  copy_loop sscanf_4x fuel cap (text s ++ 34 :: q) k w = Ret (34 :: q) (w ++ s).
Proof using Hscan.
  induction 1 as [|c s Hc _ IH]; intros fuel w k Hfuel Hfit; [destruct fuel; simpl; by rewrite app_nil_r|].
  destruct fuel as [|fuel]; [simpl in Hfuel; lia|]. simpl in Hfuel, Hfit.
  unfold text. cbn [map concat]. fold (text s). rewrite <- app_assoc. unfold escape. cbn [copy_loop]. destruct (plain c) eqn:Hp.
  - destruct (kinds c Hc) as [(_ & _ & H34 & H92 & _ & Hge)|[(Hp' & _)|(Hp' & _)]]; [|congruence..].
    cbn [app]. rewrite (bind_Ret _ _ _ _ _ (peek_cons c _ w)).
    rewrite !(proj2 (Z.eqb_neq c _)) by lia. cbn [orb negb].
    rewrite (bind_Ret _ _ _ _ _ (emit_fits cap [c] w ltac:(simpl; lia))). rewrite skipn_cons, drop_0.
    rewrite IH by (rewrite ?length_app; simpl; lia). by rewrite <- app_assoc.
  - cbn [app]. rewrite (bind_Ret _ _ _ _ _ (peek_cons 92 _ w)). cbn [Z.eqb Pos.eqb orb negb]. rewrite skipn_cons, drop_0.
    destruct (parse_escape_spec cap c (text s ++ 34 :: q) w k Hc Hp ltac:(lia)) as (p & k' & E & Hq).
    rewrite (bind_Ret _ _ _ _ _ E). cbn [fst snd]. rewrite Hq, IH by (rewrite ?length_app; simpl; lia). by rewrite <- app_assoc.
Qed.

Lemma hex_digit_range d : 0 <= d < 16 -> 48 <= hex_digit d <= 57 \/ 97 <= hex_digit d <= 102.
Proof. clear. intros H. unfold hex_digit. destruct (Z.ltb_spec d 10); lia. Qed.

Lemma count_plain c p len (w : list Z) : c <> 34 -> c <> 0 -> c <> 92 -> count_loop (c :: p) len w = count_loop p (S len) w.
Proof. clear. intros. cbn [count_loop]. by rewrite !(proj2 (Z.eqb_neq c _)) by done. Qed.

Lemma count_loop_spec q (w : list Z) s : Forall byte s -> forall len,
  exists n, count_loop (text s ++ 34 :: q) len w = Ret (len + n)%nat w /\ (length s <= n)%nat.
Proof.
  clear. induction 1 as [|c s Hc _ IH]; intros len; [exists O; simpl; by rewrite Nat.add_0_r|].
  unfold text. cbn [map concat]. fold (text s). rewrite <- app_assoc.
  destruct (kinds c Hc) as [(_ & -> & H34 & H92 & _ & Hge)|[(_ & (l & _ & ->) & _)|(_ & _ & -> & _ & Hlt)]]; cbn [app].
  - rewrite count_plain by lia. destruct (IH (S len)) as (n & -> & Hn). exists (S n). split; [f_equal; lia|simpl; lia].
  - cbn [count_loop Z.eqb Pos.eqb orb]. destruct (IH (S len)) as (n & -> & Hn). exists (S n). split; [f_equal; lia|simpl; lia].
  - destruct Hc as [Hc1 Hc2]. unfold hex_byte.
    pose proof (hex_digit_range (c / 16) ltac:(split; [apply Z.div_pos; lia|apply Z.div_lt_upper_bound; lia])).
    pose proof (hex_digit_range (c mod 16) ltac:(apply Z.mod_pos_bound; lia)).
    change (count_loop (92 :: 117 :: ?p) len) with (count_loop p (S len)). cbn [app].
    rewrite !count_plain by lia. destruct (IH (S (S (S (S (S len)))))) as (n & -> & Hn).
    exists (5 + n)%nat. split; [f_equal; lia|simpl; lia].
Qed.

Lemma count_overrun (w : list Z) s : Forall (fun c => byte c /\ plain c = true) s -> forall len,
  count_loop (s ++ [92; 0]) len w = Stop Fault.
Proof.
  clear. induction 1 as [|c s [Hc Hp] _ IH]; intros len; [done|].
  destruct (kinds c Hc) as [(_ & _ & H34 & H92 & _ & Hge)|[(Hp' & _)|(Hp' & _)]]; [|congruence..].
  cbn [app]. rewrite count_plain by lia. apply IH.
Qed.
End Reading.

(** C35. Strings survive.  For a string of any bytes but zero, [print_string] fills
    the buffer it has allocated exactly and never leaves it, and what [parse_string]
    reads from that text, whatever follows it, is the string, with the pointer after
    the closing quote and no write outside of its buffer.  A text whose last
    character is a backslash, however, is read past its end. *)
Theorem json_string_roundtrip (sscanf_4x : list Z -> option Z) (Hscan : Scan4x sscanf_4x)
    (s rest w : list Z) (fuel : nat) (Hs : Forall byte s) (Hfuel : (length s <= fuel)%nat) :
  let t := 34 :: text s ++ [34] in
  (exists len, print_length (s ++ [0]) 0 w = Ret len w /\ length (t ++ [0]) = (len + 3)%nat /\
    print_string true (Some (s ++ [0])) w = Ret (Some (t ++ [0])) (t ++ [0])) /\
  parse_string sscanf_4x fuel true (t ++ rest) w = Ret (Some (rest, s ++ [0])) (s ++ [0]) /\
  (Forall (fun c => plain c = true) s -> parse_string sscanf_4x fuel true (34 :: s ++ [92; 0]) w = Stop Fault).
Proof.
  intros t. split_and!.
  - exists (length (text s)). split; [exact (print_length_spec s w Hs 0)|]. split.
    { unfold t. simpl. rewrite !length_app. simpl. lia. }
    unfold print_string. rewrite (bind_Ret _ _ _ _ _ (print_length_spec s w Hs 0)). cbv beta iota zeta delta [negb].
    erewrite bind_Ret by reflexivity. set (cap := (0 + length (text s) + 3)%nat).
    rewrite (bind_Ret _ _ _ _ _ (emit_fits cap [34] [] ltac:(simpl; lia))).
    rewrite (bind_Ret _ _ _ _ _ (print_loop_spec cap s Hs ([] ++ [34]) ltac:(simpl; lia))).
    rewrite (bind_Ret _ _ _ _ _ (emit_fits cap [34] (([] ++ [34]) ++ text s) ltac:(simpl; lia))).
    rewrite (bind_Ret _ _ _ _ _ (emit_fits cap [0] ((([] ++ [34]) ++ text s) ++ [34]) ltac:(rewrite length_app; simpl; lia))). done.
  - unfold t. cbn [app]. rewrite <- app_assoc. cbn [app]. unfold parse_string.
    rewrite (bind_Ret _ _ _ _ _ (peek_cons 34 _ w)). change (34 =? 34) with true. cbv beta iota zeta delta [negb]. rewrite skipn_cons, drop_0.
    destruct (count_loop_spec rest w s Hs 0) as (n & E & Hn). rewrite (bind_Ret _ _ _ _ _ E). cbv beta iota zeta delta [negb].
    erewrite bind_Ret by reflexivity.
    rewrite (bind_Ret _ _ _ _ _ (copy_loop_spec sscanf_4x (0 + n + 1) rest s Hs fuel [] (Codes None None) Hfuel ltac:(simpl; lia))).
    rewrite (bind_Ret _ _ _ _ _ (emit_fits (0 + n + 1) [0] ([] ++ s) ltac:(simpl; lia))). done.
  - intros Hp. unfold parse_string. rewrite (bind_Ret _ _ _ _ _ (peek_cons 34 _ w)). change (34 =? 34) with true. cbv beta iota zeta delta [negb]. rewrite skipn_cons, drop_0.
    apply bind_Stop, count_overrun. apply Forall_and. done.
Qed.

(** A scanner of up to four digits. *)
Definition hex_value (c : Z) : option Z :=
  if (48 <=? c) && (c <=? 57) then Some (c - 48) else if (97 <=? c) && (c <=? 102) then Some (c - 87)
  else if (65 <=? c) && (c <=? 70) then Some (c - 55) else None.
Fixpoint scan_hex (n : nat) (p : list Z) (v : option Z) : option Z :=
  match n, p with
  | S n', c :: p' => match hex_value c with Some d => scan_hex n' p' (Some (16 * default 0 v + d)) | None => v end
  | _, _ => v
  end.

Lemma hex_value_digit d : 0 <= d < 16 -> hex_value (hex_digit d) = Some d.
Proof.
  intros H. unfold hex_digit, hex_value. destruct (Z.ltb_spec d 10).
  - rewrite (proj2 (Z.leb_le 48 _)), (proj2 (Z.leb_le _ 57)) by lia. cbn [andb]. f_equal. lia.
  - rewrite (proj2 (Z.leb_gt _ 57)), andb_false_r by lia. rewrite (proj2 (Z.leb_le 97 _)), (proj2 (Z.leb_le _ 102)) by lia.
    cbn [andb]. f_equal. lia.
Qed.

#[export] Instance scan_hex_laws : Scan4x (fun p => scan_hex 4 p None).
Proof.
  intros b rest Hb. unfold hex_byte. cbn [app scan_hex]. change (hex_value 48) with (Some 0). cbv iota.
  pose proof (Z.mod_pos_bound b 16 ltac:(lia)). assert (0 <= b / 16 < 16) by (split; [apply Z.div_pos|apply Z.div_lt_upper_bound]; lia).
  rewrite !hex_value_digit by lia. transitivity (Some (16 * (b / 16) + b mod 16)).
  - destruct rest; simpl; f_equal; lia.
  - f_equal. symmetry. apply Z.div_mod. lia.
Qed.

(** A quote, a control character and a letter. *)
Lemma json_string_roundtrip_witness :
  Forall byte [34; 1; 65] /\
  print_string true (Some [34; 1; 65; 0]) [] = Ret (Some [34; 92; 34; 92; 117; 48; 48; 48; 49; 65; 34; 0]) [34; 92; 34; 92; 117; 48; 48; 48; 49; 65; 34; 0] /\
  parse_string (fun p => scan_hex 4 p None) 3 true [34; 92; 34; 92; 117; 48; 48; 48; 49; 65; 34; 44; 0] [] = Ret (Some ([44; 0], [34; 1; 65; 0])) [34; 1; 65; 0].
Proof.
  assert (Hs : Forall byte [34; 1; 65]) by (repeat constructor; discriminate).
  destruct (json_string_roundtrip (fun p => scan_hex 4 p None) scan_hex_laws [34; 1; 65] [44; 0] [] 3 Hs ltac:(simpl; lia))
    as ((len & _ & _ & Hprint) & Hparse & _).
  split; [exact Hs|]. split; [exact Hprint|exact Hparse].
Defined.

(** ** Arrays *)
Definition separator (fmt : bool) : list Z := 44 :: if fmt then [32] else [].
Fixpoint join (fmt : bool) (l : list (list Z)) : list Z :=
  match l with [] => [] | [e] => e | e :: rest => e ++ separator fmt ++ join fmt rest end.
Definition total (fmt : bool) (l : list (list Z)) : nat := foldr (fun e n => (length e + 2 + (if fmt then 1 else 0) + n)%nat) 0%nat l.

Lemma array_length_total fmt l : array_length fmt l = (5 + total fmt l)%nat.
Proof.
  unfold array_length. assert (H : forall n, fold_left (fun len e => len + (length e + 2 + (if fmt then 1 else 0)))%nat l n = (n + total fmt l)%nat).
  { induction l as [|e l IH]; intros n; simpl; [lia|]. rewrite IH. lia. }
  apply H.
Qed.

Lemma print_entries_spec cap fmt l : forall w,
  (length w + total fmt l <= cap)%nat ->
  print_entries cap fmt l w = Ret tt (w ++ join fmt l) /\ (length (join fmt l) <= total fmt l)%nat.
Proof.
  induction l as [|e l IH]; intros w H; [by rewrite app_nil_r|]. simpl total in *. cbn [print_entries join].
  rewrite (bind_Ret _ _ _ _ _ (emit_text_fits cap e w ltac:(destruct fmt; lia))).
  destruct l as [|e2 l]; [split; [done|simpl; lia]|].
  assert (Hsep : forall w', (length w' + 2 + (if fmt then 1 else 0) <= cap)%nat ->
    (emit cap [44] ;;; (if fmt then emit cap [32] else ret tt) ;;; emit_text cap []) w' = Ret tt (w' ++ separator fmt)).
  { intros w' Hw. rewrite (bind_Ret _ _ _ _ _ (emit_fits cap [44] w' ltac:(simpl; lia))). unfold separator. destruct fmt.
    - rewrite (bind_Ret _ _ _ _ _ (emit_fits cap [32] (w' ++ [44]) ltac:(rewrite length_app; simpl; lia))).
      rewrite emit_text_fits by (rewrite !length_app; simpl; lia). by rewrite app_nil_r, <- app_assoc.
    - erewrite bind_Ret by reflexivity. rewrite emit_text_fits by (rewrite !length_app; simpl; lia). by rewrite app_nil_r. }
  rewrite (bind_Ret _ _ _ _ _ (Hsep (w ++ e) ltac:(rewrite length_app; simpl in H; destruct fmt; lia))).
  destruct (IH ((w ++ e) ++ separator fmt)) as [E Hl].
  { rewrite !length_app. unfold separator. simpl length. destruct fmt; simpl in *; lia. }
  rewrite E, !length_app, <- !app_assoc. split; [done|]. unfold separator. destruct fmt; simpl length in *; lia.
Qed.

(** The entries between brackets, in the buffer [print_array] has allocated. *)
Lemma print_array_spec fmt e l w :
  let out := 91 :: join fmt (e :: l) ++ [93; 0] in
  print_array true fmt (Some <$> (e :: l)) w = Ret (Some out) out.
Proof.
  intros out. assert (Hm : mapM id (Some <$> (e :: l)) = Some (e :: l)).
  { generalize (e :: l). clear. intros q. induction q as [|x q IH]; [done|].
    rewrite fmap_cons. cbn [mapM]. rewrite IH. done. }
  unfold print_array. rewrite fmap_cons. cbn [negb]. rewrite <- fmap_cons, Hm. cbv zeta. erewrite bind_Ret by reflexivity.
  rewrite array_length_total. set (cap := (5 + total fmt (e :: l))%nat).
  rewrite (bind_Ret _ _ _ _ _ (emit_fits cap [91] [] ltac:(simpl; lia))).
  rewrite (bind_Ret _ _ _ _ _ (emit_text_fits cap [] ([] ++ [91]) ltac:(simpl; lia))).
  destruct (print_entries_spec cap fmt (e :: l) (([] ++ [91]) ++ [])) as [E Hl]; [simpl; unfold cap; simpl; lia|].
  rewrite (bind_Ret _ _ _ _ _ E).
  set (j := join fmt (e :: l)) in *. set (n := total fmt (e :: l)) in *.
  rewrite (bind_Ret _ _ _ _ _ (emit_fits cap [93] ((([] ++ [91]) ++ []) ++ j) ltac:(unfold cap; rewrite length_app; simpl length; lia))).
  rewrite (bind_Ret _ _ _ _ _ (emit_fits cap [0] (((([] ++ [91]) ++ []) ++ j) ++ [93]) ltac:(unfold cap; rewrite !length_app; simpl length; lia))).
  unfold out. cbn [app]. by rewrite <- app_assoc.
Qed.
