(* ===== verification/Interrupt.v ===== *)
(** * Interrupt

    src/src/interrupt.c: the driver of the interrupt controller and the dispatch of
    handlers.  The registers are a memory of words and a log of the writes; what the
    code at the address of a handler does is a parameter. *)
From S2P Require Import Prelude Bytes.

(** ** Data *)
Definition GIC_DIST_BASE : Z := 503320576.
Definition GIC_CPU_BASE : Z := 503316736.
Definition GICD_CTLR : Z := GIC_DIST_BASE.
Definition GICD_ISENABLER : Z := GIC_DIST_BASE + 256.
Definition GICD_ICENABLER : Z := GIC_DIST_BASE + 384.
Definition GICD_IPRIORITYR : Z := GIC_DIST_BASE + 1024.
Definition GICD_ITARGETSR : Z := GIC_DIST_BASE + 2048.
Definition GICC_CTLR : Z := GIC_CPU_BASE.
Definition GICC_PMR : Z := GIC_CPU_BASE + 4.
Definition GICC_BPR : Z := GIC_CPU_BASE + 8.
Definition GICC_IAR : Z := GIC_CPU_BASE + 12.
Definition GICC_EOIR : Z := GIC_CPU_BASE + 16.
Definition MAX_INTERRUPTS : Z := 1020.

(** [log]: the writes to the device, the last one first; [interrupt_handlers]: the
    addresses of the handlers, NULL being [None]. *)
Record gic : Type := Gic { regs : Z -> Z; log : list (Z * Z); interrupt_handlers : Z -> option Z }.

(** ** Operations *)
Section Operations.
Context (call : Z -> Cmd gic unit).

Definition read_reg (addr : Z) : Cmd gic Z := gets (fun s => regs s addr).
Definition write_reg (addr value : Z) : Cmd gic unit :=
  modify (fun s => Gic (fun a => if a =? addr then value else regs s a) ((addr, value) :: log s) (interrupt_handlers s)).

(** The loop over the 1020 handlers sets them all. *)
Definition interrupt_init : Cmd gic unit :=
  modify (fun s => Gic (regs s) (log s) (fun i => if (0 <=? i) && (i <? MAX_INTERRUPTS) then None else interrupt_handlers s i)) ;;;
  write_reg GICD_CTLR 0 ;;;
  write_reg GICC_PMR 255 ;;;
  write_reg GICC_BPR 0 ;;;
  write_reg GICC_CTLR 1 ;;;
  write_reg GICD_CTLR 1.

Definition interrupt_enable (interrupt_id : Z) : Cmd gic unit :=
  let reg_offset := interrupt_id / 32 in
  let bit_offset := interrupt_id mod 32 in
  write_reg (u32 (GICD_ISENABLER + reg_offset * 4)) (u32 (Z.shiftl 1 bit_offset)).
Definition interrupt_disable (interrupt_id : Z) : Cmd gic unit :=
  let reg_offset := interrupt_id / 32 in
  let bit_offset := interrupt_id mod 32 in
  write_reg (u32 (GICD_ICENABLER + reg_offset * 4)) (u32 (Z.shiftl 1 bit_offset)).

Definition interrupt_register_handler (interrupt_id : Z) (handler : option Z) : Cmd gic unit :=
  if interrupt_id <? MAX_INTERRUPTS then
    modify (fun s => Gic (regs s) (log s) (fun i => if i =? interrupt_id then handler else interrupt_handlers s i))
  else ret tt.

(** The byte of a register is replaced; the two functions differ in the register. *)
Definition set_byte (base interrupt_id b : Z) : Cmd gic unit :=
  let reg_offset := interrupt_id / 4 in
  let byte_offset := interrupt_id mod 4 in
  let reg_addr := u32 (base + reg_offset * 4) in
  let* value := read_reg reg_addr in
  let value := Z.land value (u32 (Z.lnot (Z.shiftl 255 (byte_offset * 8)))) in
  let value := Z.lor value (u32 (Z.shiftl b (byte_offset * 8))) in
  write_reg reg_addr value.
Definition interrupt_set_priority (interrupt_id priority : Z) : Cmd gic unit := set_byte GICD_IPRIORITYR interrupt_id priority.
Definition interrupt_set_target (interrupt_id cpu_mask : Z) : Cmd gic unit := set_byte GICD_ITARGETSR interrupt_id cpu_mask.

Definition irq_handler : Cmd gic unit :=
  let* iar := read_reg GICC_IAR in
  let interrupt_id := Z.land iar 1023 in
  (if interrupt_id <? MAX_INTERRUPTS then
     let* s := get in
     match interrupt_handlers s interrupt_id with
     | Some h => call h
     | None => ret tt
     end
   else ret tt) ;;;
  write_reg GICC_EOIR iar.
End Operations.

(** ** What the registers say *)

(** The byte of an interrupt in the registers from [base] on. *)
Definition byte_field (s : gic) (base interrupt_id : Z) : Z :=
  Z.land (Z.shiftr (regs s (base + interrupt_id / 4 * 4)) (interrupt_id mod 4 * 8)) 255.
(** The interrupts that a word of the enable registers at [addr] names. *)
Definition names (base addr value interrupt_id : Z) : bool :=
  (addr =? base + interrupt_id / 32 * 4) && Z.testbit value (interrupt_id mod 32).

(** Quotients and remainders by constants are linear arithmetic here. *)
#[local] Ltac Zify.zify_post_hook ::= Z.to_euclidean_division_equations.

Lemma byte_of_set v b i j :
  0 <= v < 4294967296 -> 0 <= b < 256 -> 0 <= i < 4 -> 0 <= j < 4 ->
  Z.land (Z.shiftr (Z.lor (Z.land v (u32 (Z.lnot (Z.shiftl 255 (j * 8))))) (u32 (Z.shiftl b (j * 8)))) (i * 8)) 255
  = if i =? j then b else Z.land (Z.shiftr v (i * 8)) 255.
Proof.
  intros Hv Hb Hi Hj. apply Z.bits_inj'. intros n Hn. unfold u32, wrap.
  change 255 with (Z.ones 8). rewrite Z.land_spec, Z.testbit_ones by lia.
  destruct (Z.leb_spec 0 n); [|lia]. destruct (Z.ltb_spec n 8) as [Hn8|Hn8]; cbn [andb].
  - rewrite andb_true_r, Z.shiftr_spec, Z.lor_spec, Z.land_spec by lia. rewrite !Z.mod_pow2_bits_low by lia.
    rewrite Z.lnot_spec by lia. destruct (Z.eqb_spec i j) as [->|Hij].
    + rewrite !Z.shiftl_spec by lia. replace (n + j * 8 - j * 8) with n by lia. rewrite Z.testbit_ones by lia.
      rewrite (proj2 (Z.leb_le 0 n)), (proj2 (Z.ltb_lt n 8)) by lia. cbn [andb negb]. by rewrite andb_false_r.
    + rewrite Z.land_spec, Z.testbit_ones, Z.shiftr_spec by lia.
      rewrite (proj2 (Z.leb_le 0 n)), (proj2 (Z.ltb_lt n 8)) by lia. cbn [andb]. rewrite andb_true_r.
      assert (Hz : forall x, 0 <= x < 256 -> Z.testbit (Z.shiftl x (j * 8)) (n + i * 8) = false).
      { intros x Hx. rewrite Z.shiftl_spec by lia. destruct (decide (n + i * 8 - j * 8 < 0)); [by apply Z.testbit_neg_r|].
        apply (bits_high 8); lia. }
      rewrite (Hz b Hb), (Hz (Z.ones 8)) by (change (Z.ones 8) with 255; lia). cbn [negb]. by rewrite andb_true_r, orb_false_r.
  - rewrite andb_false_r. destruct (i =? j); [symmetry; apply (bits_high 8); lia|].
    rewrite Z.land_spec, Z.testbit_ones by lia. rewrite (proj2 (Z.ltb_ge n 8)), andb_false_r by lia. by rewrite andb_false_r.
Qed.

Lemma names_bit base id j :
  0 <= base < 4294000000 -> 0 <= id < 1020 -> 0 <= j < 1020 ->
  names base (u32 (base + id / 32 * 4)) (u32 (Z.shiftl 1 (id mod 32))) j = (j =? id).
Proof.
  intros Hb Hi Hj. unfold names. rewrite u32_small by lia. unfold u32, wrap.
  rewrite Z.mod_pow2_bits_low by lia. rewrite Z.shiftl_spec by lia.
  destruct (Z.eqb_spec j id) as [->|Hne]; [by rewrite Z.eqb_refl, Z.sub_diag|].
  destruct (Z.eqb_spec (base + id / 32 * 4) (base + j / 32 * 4)) as [He|]; [|done]. cbn [andb].
  change 1 with (2 ^ 0). rewrite Z.pow2_bits_false; [done|lia].
Qed.

(** What a write leaves alone, and what it does to a byte of its own word. *)
Lemma set_byte_spec base id b s :
  0 <= base < 4294000000 -> 0 <= id < 1020 -> 0 <= b < 256 -> (forall a, 0 <= regs s a < 4294967296) ->
  exists s', set_byte base id b s = Ret tt s'
  /\ interrupt_handlers s' = interrupt_handlers s
  /\ (forall j, 0 <= j < 1020 -> byte_field s' base j = if j =? id then b else byte_field s base j)
  /\ (forall a, ~ base <= a < base + 1020 -> regs s' a = regs s a).
Proof.
  intros Hbase Hi Hb Hr. unfold set_byte. eexists. split.
  { erewrite (bind_Ret (read_reg _)) by reflexivity. reflexivity. }
  cbn [regs interrupt_handlers].
  rewrite (u32_small (base + id / 4 * 4)) by lia. split; [done|]. split.
  - intros j Hj. unfold byte_field at 1. cbn [regs].
    destruct (Z.eqb_spec (base + j / 4 * 4) (base + id / 4 * 4)) as [He|He].
    + rewrite byte_of_set by (apply Hr || lia). unfold byte_field. rewrite He.
      destruct (Z.eqb_spec (j mod 4) (id mod 4)), (Z.eqb_spec j id); try done; lia.
    + destruct (Z.eqb_spec j id) as [->|]; [done|]. done.
  - intros a Ha. destruct (Z.eqb_spec a (base + id / 4 * 4)); [lia|done].
Qed.

(** ** Interrupts *)

(** Setting the priority or the target processors of an interrupt changes the byte
    of this interrupt and of no other, and no register outside its bank, the other bank
    included; enabling and disabling is one write that names this interrupt alone.  When
    the controller hands out an interrupt, [irq_handler] calls exactly the handler
    registered last for it, and ends the interrupt with the word it acknowledged, also
    when the handler changed the registers; for the spurious numbers 1020 to 1023 it
    calls nothing, and registering a handler for them does nothing. *)
Theorem interrupt_controller id b s (Hid : 0 <= id < 1020) (Hb : 0 <= b < 256)
    (Hregs : forall a, 0 <= regs s a < 4294967296) :
  (exists s', interrupt_set_priority id b s = Ret tt s'
   /\ (forall j, 0 <= j < 1020 ->
        byte_field s' GICD_IPRIORITYR j = (if j =? id then b else byte_field s GICD_IPRIORITYR j)
        /\ byte_field s' GICD_ITARGETSR j = byte_field s GICD_ITARGETSR j))
  /\ (exists s', interrupt_set_target id b s = Ret tt s'
   /\ (forall j, 0 <= j < 1020 ->
        byte_field s' GICD_ITARGETSR j = (if j =? id then b else byte_field s GICD_ITARGETSR j)
        /\ byte_field s' GICD_IPRIORITYR j = byte_field s GICD_IPRIORITYR j))
  /\ (exists a v s', interrupt_enable id s = Ret tt s' /\ log s' = (a, v) :: log s
   /\ forall j, 0 <= j < 1020 -> names GICD_ISENABLER a v j = (j =? id))
  /\ (exists a v s', interrupt_disable id s = Ret tt s' /\ log s' = (a, v) :: log s
   /\ forall j, 0 <= j < 1020 -> names GICD_ICENABLER a v j = (j =? id))
  /\ (forall call h s1 s2, Z.land (regs s GICC_IAR) 1023 = id ->
       interrupt_register_handler id (Some h) s = Ret tt s1 -> call h s1 = Ret tt s2 ->
       irq_handler call s1 = write_reg GICC_EOIR (regs s GICC_IAR) s2)
  /\ (forall call spurious h, 1020 <= Z.land (regs s GICC_IAR) 1023 -> 1020 <= spurious ->
       (let* _ := interrupt_register_handler spurious h in irq_handler call) s
       = write_reg GICC_EOIR (regs s GICC_IAR) s).
Proof.
  assert (Hbank : forall s' base base', base' + 1020 <= base \/ base + 1020 <= base' ->
    (forall a, ~ base <= a < base + 1020 -> regs s' a = regs s a) ->
    forall j, 0 <= j < 1020 -> byte_field s' base' j = byte_field s base' j).
  { intros s' base base' Hd Ho j Hj. unfold byte_field. rewrite Ho; [done|lia]. }
  split_and!.
  - destruct (set_byte_spec GICD_IPRIORITYR id b s) as (s' & E & _ & Hj & Ho); try done.
    exists s'. split; [done|]. intros j Hlt. split; [by apply Hj|].
    apply (Hbank s' GICD_IPRIORITYR); [unfold GICD_IPRIORITYR, GICD_ITARGETSR; lia|done..].
  - destruct (set_byte_spec GICD_ITARGETSR id b s) as (s' & E & _ & Hj & Ho); try done.
    exists s'. split; [done|]. intros j Hlt. split; [by apply Hj|].
    apply (Hbank s' GICD_ITARGETSR); [unfold GICD_IPRIORITYR, GICD_ITARGETSR; lia|done..].
  - do 3 eexists. split; [done|]. split; [done|]. intros j Hj. by apply names_bit.
  - do 3 eexists. split; [done|]. split; [done|]. intros j Hj. by apply names_bit.
  - intros call h s1 s2 Hiar E Hc. unfold interrupt_register_handler, MAX_INTERRUPTS, modify in E.
    rewrite (proj2 (Z.ltb_lt _ _)) in E by lia. injection E as <-.
    unfold irq_handler, MAX_INTERRUPTS. erewrite (bind_Ret (read_reg _)) by reflexivity. cbn [regs].
    rewrite Hiar, (proj2 (Z.ltb_lt id 1020)) by lia. apply (bind_Ret _ (fun _ => _) _ tt s2).
    erewrite (bind_Ret get) by reflexivity.
    cbn [interrupt_handlers]. by rewrite Z.eqb_refl.
  - intros call sp h Hiar Hsp. unfold interrupt_register_handler, irq_handler, MAX_INTERRUPTS.
    rewrite (proj2 (Z.ltb_ge sp 1020)) by lia. rewrite (bind_Ret (ret tt) _ _ tt s eq_refl). cbv beta.
    rewrite (bind_Ret (read_reg _) _ _ (regs s GICC_IAR) _ eq_refl).
    rewrite (proj2 (Z.ltb_ge _ 1020)) by lia. done.
Qed.

(** Interrupt 29 with priority 160; handler 4096 disables its own interrupt. *)
Example interrupt_controller_witness :
  let s := Gic (fun a => if a =? GICC_IAR then 29 + 1024 else 4294967295) [] (fun _ => None) in
  let call := fun h => if h =? 4096 then interrupt_disable 29 else fail Fault in
  (exists s', interrupt_set_priority 29 160 s = Ret tt s'
   /\ byte_field s' GICD_IPRIORITYR 29 = 160 /\ byte_field s' GICD_IPRIORITYR 28 = 255)
  /\ exists s1, (let* _ := interrupt_register_handler 29 (Some 4096) in irq_handler call) s = Ret tt s1
     /\ log s1 = [(GICC_EOIR, 1053); (GICD_ICENABLER, 536870912)].
Proof.
  intros s call.
  assert (Hr : forall a, 0 <= regs s a < 4294967296).
  { intros a. unfold s. cbn [regs]. destruct (a =? GICC_IAR); lia. }
  destruct (interrupt_controller 29 160 s ltac:(lia) ltac:(lia) Hr) as ((s' & E & Hp) & _ & _ & _ & Hirq & _).
  split.
  - exists s'. split; [exact E|]. split; [apply (Hp 29); lia|]. by rewrite (proj1 (Hp 28 ltac:(lia))).
  - eexists. split.
    + erewrite bind_Ret by reflexivity.
      rewrite (Hirq call 4096 _ _ eq_refl eq_refl eq_refl). reflexivity.
    + reflexivity.
Defined.
