(* ===== verification/Stdio.v ===== *)
(** * Stdio

    src/src/stdio.c: buffered streams.  A stream is known by its address; the one
    buffer of a stream serves reading and writing.  The system calls are the
    operations of a [sys_ops] on a state of their own, with their documented
    behaviour in [sys_laws]; what [malloc] returns is an argument. *)
From S2P Require Import Prelude Ipc Bytes.

(** ** Data *)
Definition BUFFER_SIZE : Z := 1024.
Definition EOF : Z := -1.
Definition O_RDONLY : Z := 0.
Definition O_WRONLY : Z := 1.
Definition O_RDWR : Z := 2.
Definition O_CREAT : Z := 256.
Definition O_TRUNC : Z := 512.
Definition O_APPEND : Z := 1024.

(** [stream->buf]: NULL, a block of the allocator, or a block already freed. *)
Inductive buffer : Type := Null | Buf (b : list Z) | Freed.
Record FILE : Type := File { fd : Z; flags : Z; buf : buffer; buf_pos : Z; buf_end : Z }.
Definition set_buf_pos (v : Z) (f : FILE) : FILE := File (fd f) (flags f) (buf f) v (buf_end f).
Definition set_buf (v : buffer) (f : FILE) : FILE := File (fd f) (flags f) v (buf_pos f) (buf_end f).
Definition _stdin : FILE := File 0 O_RDONLY Null 0 0.
Definition _stdout : FILE := File 1 O_WRONLY Null 0 0.
Definition _stderr : FILE := File 2 O_WRONLY Null 0 0.
(** The addresses of the three objects; any distinct ones would do. *)
Definition stdin : Z := 1.
Definition stdout : Z := 2.
Definition stderr : Z := 3.

(** [read] (the count and the bytes), [write] (the count), [open], [close]. *)
Record sys_ops (W : Type) : Type := SysOps {
  sys_read : Z -> Z -> W -> Z * list Z * W;
  sys_write : Z -> list Z -> W -> Z * W;
  sys_open : list Z -> Z -> Z -> W -> Z * W;
  sys_close : Z -> W -> W
}.
Arguments sys_read {W} s fd n w.
Arguments sys_write {W} s fd d w.
Arguments sys_open {W} s path flags mode w.
Arguments sys_close {W} s fd w.
Record stdio (W : Type) : Type := Stdio { streams : gmap Z FILE; os : W }.
Arguments Stdio {W} streams os.
Arguments streams {W} s.
Arguments os {W} s.
Definition init_streams : gmap Z FILE := <[stdin := _stdin]> (<[stdout := _stdout]> {[stderr := _stderr]}).

(** ** Operations *)
Section Operations.
Context {W : Type} (sys : sys_ops W).

Definition stream (fp : Z) : Cmd (stdio W) FILE := fun s => deref (streams s !! fp) s.
Definition put_stream (fp : Z) (f : FILE) : Cmd (stdio W) unit := modify (fun s => Stdio (<[fp := f]> (streams s)) (os s)).
Definition put_os (w : W) : Cmd (stdio W) unit := modify (fun s => Stdio (streams s) w).
(** The bytes a stream points to; NULL and a freed block are invalid accesses. *)
Definition block (f : FILE) : Cmd (stdio W) (list Z) := match buf f with Buf b => ret b | _ => fail Fault end.
(** [memcpy] out of and into a buffer. *)
Definition load (off n : Z) (b : list Z) : Cmd (stdio W) (list Z) :=
  if (0 <=? off) && (off + n <=? Z.of_nat (length b)) then ret (slice (Z.to_nat off) (Z.to_nat n) b) else fail Fault.
Definition store (off : Z) (d b : list Z) : Cmd (stdio W) (list Z) :=
  if (0 <=? off) && (off + Z.of_nat (length d) <=? Z.of_nat (length b)) then ret (splice (Z.to_nat off) d b) else fail Fault.

(** [new]: what [malloc] returns. *)
Definition _fill_buffer (new : option (list Z)) (fp : Z) : Cmd (stdio W) Z :=
  let* f := stream fp in
  let* ok := match buf f with
             | Null => match new with Some b => put_stream fp (set_buf (Buf b) f) ;;; ret true | None => ret false end
             | _ => ret true
             end in
  if negb ok then ret EOF else
  let* f := stream fp in
  let* s := get in
  let '(r, d, w) := sys_read sys (fd f) BUFFER_SIZE (os s) in
  let* b := block f in
  let* b := store 0 d b in
  put_os w ;;;
  put_stream fp (File (fd f) (flags f) (Buf b) 0 r) ;;;
  ret (if 0 <? r then 0 else EOF).

Fixpoint flush_loop (fuel : nat) (fp written : Z) : Cmd (stdio W) Z :=
  let* f := stream fp in
  if written <? buf_pos f then
    match fuel with
    | O => fail NoFuel
    | S fuel' =>
        let* b := block f in
        let* d := load written (buf_pos f - written) b in
        let* s := get in
        let '(r, w) := sys_write sys (fd f) d (os s) in
        put_os w ;;;
        if r <? 0 then ret EOF else flush_loop fuel' fp (written + r)
    end
  else put_stream fp (set_buf_pos 0 f) ;;; ret 0.
Definition _flush_buffer (fuel : nat) (fp : Z) : Cmd (stdio W) Z := flush_loop fuel fp 0.

(** [new]: the address of the new object, or NULL.  The name is its characters. *)
Definition open_flags (mode : list Z) : Z :=
  let flags := 0 in
  let flags := if bool_decide (114 ∈ mode) then Z.lor flags O_RDONLY else flags in
  let flags := if bool_decide (119 ∈ mode) then Z.lor flags (Z.lor O_WRONLY (Z.lor O_CREAT O_TRUNC)) else flags in
  let flags := if bool_decide (97 ∈ mode) then Z.lor flags (Z.lor O_WRONLY (Z.lor O_CREAT O_APPEND)) else flags in
  if bool_decide (43 ∈ mode) then Z.lor (Z.land flags (Z.lnot (Z.lor O_RDONLY O_WRONLY))) O_RDWR else flags.
Definition fopen (new : option Z) (path mode : list Z) : Cmd (stdio W) (option Z) :=
  let flags := open_flags mode in
  match new with
  | None => ret None
  | Some fp =>
      let* s := get in
      let '(d, w) := sys_open sys path flags 438 (os s) in
      put_os w ;;;
      if d <? 0 then ret None else
      put_stream fp (File d flags Null 0 0) ;;;
      ret (Some fp)
  end.

Definition fclose (fuel : nat) (fp : Z) : Cmd (stdio W) Z :=
  let* f := stream fp in
  let* r := if 0 <? buf_pos f then _flush_buffer fuel fp else ret 0 in
  let* f := stream fp in
  (match buf f with Null => ret tt | Buf _ => put_stream fp (set_buf Freed f) | Freed => fail Fault end) ;;;
  (if 2 <? fd f then let* s := get in put_os (sys_close sys (fd f) (os s)) else ret tt) ;;;
  (if negb (fp =? stdin) && negb (fp =? stdout) && negb (fp =? stderr)
   then modify (fun s => Stdio (delete fp (streams s)) (os s)) else ret tt) ;;;
  ret r.

(** [out]: what has been stored from [ptr] on. *)
Fixpoint fread_loop (fuel : nat) (new : option (list Z)) (fp bytes : Z) (out : list Z) : Cmd (stdio W) (list Z) :=
  let read := Z.of_nat (length out) in
  if read <? bytes then
    match fuel with
    | O => fail NoFuel
    | S fuel' =>
        let* f := stream fp in
        let* eof := if buf_end f <=? buf_pos f then let* r := _fill_buffer new fp in ret (r =? EOF) else ret false in
        if eof then ret out else
        let* f := stream fp in
        let remain := u32 (buf_end f - buf_pos f) in
        let to_copy := if bytes - read <? remain then bytes - read else remain in
        let* b := block f in
        let* d := load (buf_pos f) to_copy b in
        put_stream fp (set_buf_pos (buf_pos f + to_copy) f) ;;;
        fread_loop fuel' new fp bytes (out ++ d)
    end
  else ret out.
(** Division by zero stops the program. *)
Definition fread (fuel : nat) (new : option (list Z)) (size nmemb fp : Z) : Cmd (stdio W) (Z * list Z) :=
  let* out := fread_loop fuel new fp (u32 (size * nmemb)) [] in
  if size =? 0 then fail Fault else ret (Z.of_nat (length out) / size, out).

(** [data]: the bytes from [ptr] on. *)
Fixpoint fwrite_loop (fuel ffuel : nat) (data : list Z) (fp bytes written : Z) : Cmd (stdio W) Z :=
  if written <? bytes then
    match fuel with
    | O => fail NoFuel
    | S fuel' =>
        let* f := stream fp in
        let* eof := if BUFFER_SIZE <=? buf_pos f then let* r := _flush_buffer ffuel fp in ret (r =? EOF) else ret false in
        if eof then ret written else
        let* f := stream fp in
        let remain := u32 (BUFFER_SIZE - buf_pos f) in
        let to_copy := if bytes - written <? remain then bytes - written else remain in
        let* d := load written to_copy data in
        let* b := block f in
        let* b := store (buf_pos f) d b in
        put_stream fp (set_buf_pos (buf_pos f + to_copy) (set_buf (Buf b) f)) ;;;
        fwrite_loop fuel' ffuel data fp bytes (written + to_copy)
    end
  else ret written.
Definition fwrite (fuel ffuel : nat) (data : list Z) (size nmemb fp : Z) : Cmd (stdio W) Z :=
  let* written := fwrite_loop fuel ffuel data fp (u32 (size * nmemb)) 0 in
  let* f := stream fp in
  (if (fp =? stderr) || negb (Z.land (flags f) O_APPEND =? 0)
   then let* _ := _flush_buffer ffuel fp in ret tt else ret tt) ;;;
  if size =? 0 then fail Fault else ret (written / size).
End Operations.

(** ** What the system calls promise

    [pending]: what is left to read from a descriptor; [output]: what has been
    written to it. *)
Record sys_laws {W} (sys : sys_ops W) (pending output : W -> Z -> list Z) (readable writable : W -> Z -> Prop) : Prop := SysLaws {
  read_law : forall w k n r d w', readable w k -> 0 < n -> sys_read sys k n w = (r, d, w') ->
    0 <= r <= n /\ Z.of_nat (length d) = r /\ pending w k = d ++ pending w' k /\
    (r = 0 -> pending w k = []) /\ readable w' k /\ output w' = output w /\ (forall j, writable w j -> writable w' j);
  write_law : forall w k d r w', writable w k -> d <> [] -> sys_write sys k d w = (r, w') ->
    0 < r <= Z.of_nat (length d) /\ output w' k = output w k ++ take (Z.to_nat r) d /\ writable w' k
}.

Section Streams.
Context {W : Type} (sys : sys_ops W) (pending output : W -> Z -> list Z) (readable writable : W -> Z -> Prop).
Context (laws : sys_laws sys pending output readable writable).

Definition file_ok (f : FILE) : Prop :=
  match buf f with
  | Buf b => length b = 1024%nat /\ 0 <= buf_pos f <= 1024 /\ buf_end f <= 1024
  | Null => buf_pos f = 0 /\ buf_end f <= 0
  | Freed => False
  end.
(** What reading the stream will deliver, and what flushing it will write. *)
Definition unread (f : FILE) (w : W) : list Z :=
  (match buf f with Buf b => slice (Z.to_nat (buf_pos f)) (Z.to_nat (buf_end f - buf_pos f)) b | _ => [] end) ++ pending w (fd f).
Definition buffered (f : FILE) : list Z :=
  match buf f with Buf b => take (Z.to_nat (buf_pos f)) b | _ => [] end.

Lemma load_ok off n b (s : stdio W) :
  0 <= off -> off + n <= Z.of_nat (length b) -> load off n b s = Ret (slice (Z.to_nat off) (Z.to_nat n) b) s.
Proof. intros H1 H2. unfold load. rewrite (proj2 (Z.leb_le _ _) H1), (proj2 (Z.leb_le _ _) H2). done. Qed.

Lemma store_ok off d b (s : stdio W) :
  0 <= off -> off + Z.of_nat (length d) <= Z.of_nat (length b) -> store off d b s = Ret (splice (Z.to_nat off) d b) s.
Proof. intros H1 H2. unfold store. rewrite (proj2 (Z.leb_le _ _) H1), (proj2 (Z.leb_le _ _) H2). done. Qed.

Lemma stream_ok fp f (s : stdio W) : streams s !! fp = Some f -> stream fp s = Ret f s.
Proof. intros H. unfold stream. by rewrite H. Qed.

Lemma block_ok f b (s : stdio W) : buf f = Buf b -> block f s = Ret b s.
Proof. intros H. unfold block. by rewrite H. Qed.

Lemma flush_loop_spec fp f b fuel : forall written m w,
  m !! fp = Some f -> buf f = Buf b -> 0 <= written <= buf_pos f -> buf_pos f <= Z.of_nat (length b) ->
  writable w (fd f) -> buf_pos f - written <= Z.of_nat fuel ->
  exists w', flush_loop sys fuel fp written (Stdio m w) = Ret 0 (Stdio (<[fp := set_buf_pos 0 f]> m) w')
  /\ output w' (fd f) = output w (fd f) ++ slice (Z.to_nat written) (Z.to_nat (buf_pos f - written)) b /\ writable w' (fd f).
Proof using laws.
  induction fuel as [|fuel IH]; intros written m w Hm Hb Hw Hp Hwr Hf; cbn [flush_loop];
    rewrite (bind_Ret _ _ _ _ _ (stream_ok fp f (Stdio m w) Hm)); destruct (Z.ltb_spec written (buf_pos f)); try lia.
  1,3: exists w; split; [done|]; replace (Z.to_nat (buf_pos f - written)) with O by lia; unfold slice; by rewrite take_0, app_nil_r.
  rewrite (bind_Ret _ _ _ _ _ (block_ok f b (Stdio m w) Hb)).
  rewrite (bind_Ret _ _ _ _ _ (load_ok written (buf_pos f - written) b (Stdio m w) ltac:(lia) ltac:(lia))).
  erewrite (bind_Ret get) by reflexivity. cbn [os].
  set (d := slice (Z.to_nat written) (Z.to_nat (buf_pos f - written)) b).
  assert (Hd : Z.of_nat (length d) = buf_pos f - written) by (unfold d; rewrite slice_length; lia).
  destruct (sys_write sys (fd f) d w) as [r w1] eqn:E.
  destruct (write_law _ _ _ _ _ laws _ _ _ _ _ Hwr ltac:(intros Hn; rewrite Hn in Hd; simpl in Hd; lia) E) as (Hr & Ho & Hw1).
  erewrite (bind_Ret (put_os _)) by reflexivity. rewrite (proj2 (Z.ltb_ge r 0)) by lia. cbn [streams].
  destruct (IH (written + r) m w1 Hm Hb ltac:(lia) Hp Hw1 ltac:(lia)) as (w' & Hl & Ho' & Hw').
  exists w'. split; [exact Hl|]. split; [|done]. rewrite Ho', Ho, <- app_assoc. f_equal. unfold d, slice.
  rewrite take_take, Nat.min_l by lia. rewrite Z2Nat.inj_add, <- drop_drop by lia.
  rewrite take_take_drop. f_equal. lia.
Qed.

Lemma fill_buffer_spec new fp f m w nb :
  m !! fp = Some f -> file_ok f -> new = Some nb -> length nb = 1024%nat -> readable w (fd f) ->
  exists b r w', _fill_buffer sys new fp (Stdio m w) = Ret (if 0 <? r then 0 else EOF) (Stdio (<[fp := File (fd f) (flags f) (Buf b) 0 r]> m) w')
  /\ length b = 1024%nat /\ 0 <= r <= 1024 /\ pending w (fd f) = take (Z.to_nat r) b ++ pending w' (fd f)
  /\ (r = 0 -> pending w (fd f) = []) /\ readable w' (fd f) /\ output w' = output w /\ (forall j, writable w j -> writable w' j).
Proof using laws.
  intros Hm Hok -> Hnb Hr.
  assert (Hb : exists b0 f0, (match buf f with Null => put_stream fp (set_buf (Buf nb) f) ;;; ret true | _ => ret true end) (Stdio m w)
    = Ret true (Stdio (<[fp := f0]> m) w) /\ buf f0 = Buf b0 /\ fd f0 = fd f /\ flags f0 = flags f /\ length b0 = 1024%nat).
  { unfold file_ok in Hok. destruct (buf f) as [|b0|] eqn:Eb; [|exists b0, f|done].
    - exists nb, (set_buf (Buf nb) f). done.
    - rewrite insert_id by done. destruct Hok. done. }
  destruct Hb as (b0 & f0 & E0 & Hb0 & Hfd & Hfl & Hl0).
  unfold _fill_buffer. rewrite (bind_Ret _ _ _ _ _ (stream_ok fp f (Stdio m w) Hm)).
  rewrite (bind_Ret _ _ _ _ _ E0). cbv beta iota zeta delta [negb].
  rewrite (bind_Ret _ _ _ _ _ (stream_ok fp f0 (Stdio (<[fp := f0]> m) w) (lookup_insert_eq _ _ _))).
  erewrite (bind_Ret get) by reflexivity. cbn [os]. rewrite Hfd.
  destruct (sys_read sys (fd f) BUFFER_SIZE w) as [[r d] w1] eqn:E.
  destruct (read_law _ _ _ _ _ laws _ _ BUFFER_SIZE _ _ _ Hr eq_refl E) as (Hr1 & Hd & Hp & H0 & Hr2 & Ho & Hwr).
  unfold BUFFER_SIZE in Hr1.
  rewrite (bind_Ret _ _ _ _ _ (block_ok f0 b0 _ Hb0)).
  rewrite (bind_Ret _ _ _ _ _ (store_ok 0 d b0 (Stdio (<[fp := f0]> m) w) ltac:(lia) ltac:(lia))).
  exists (splice 0 d b0), r, w1. split.
  { erewrite bind_Ret by reflexivity. erewrite bind_Ret by reflexivity. unfold ret. cbn [streams os].
    by rewrite insert_insert_eq, Hfl. }
  split; [rewrite splice_length; lia|]. split; [done|]. split; [|done].
  rewrite Hp. f_equal. unfold splice. simpl. rewrite take_app_le, take_ge by lia. done.
Qed.

Definition same_stream (f f' : FILE) (w w' : W) : Prop :=
  file_ok f' /\ fd f' = fd f /\ flags f' = flags f /\ readable w' (fd f) /\ output w' = output w /\
  (forall j, writable w j -> writable w' j).
(** The bytes of the buffer in front of the position are the last ones delivered. *)
Definition keeps_last (f f' : FILE) (d : list Z) : Prop := exists pre, buffered f ++ d = pre ++ buffered f'.

Lemma unread_empty f w : file_ok f -> buf_end f <= buf_pos f -> unread f w = pending w (fd f).
Proof.
  intros Hok He. unfold unread. destruct (buf f) as [|b|]; try done.
  replace (Z.to_nat (buf_end f - buf_pos f)) with O by lia. unfold slice. by rewrite take_0.
Qed.

Lemma refill_spec new nb fp f m w :
  m !! fp = Some f -> file_ok f -> new = Some nb -> length nb = 1024%nat -> readable w (fd f) ->
  exists e f1 w1, (if buf_end f <=? buf_pos f then (let* r := _fill_buffer sys new fp in ret (r =? EOF)) else ret false) (Stdio m w)
    = Ret e (Stdio (<[fp := f1]> m) w1)
  /\ same_stream f f1 w w1 /\ unread f1 w1 = unread f w /\ (if e : bool then unread f w = [] else buf_pos f1 < buf_end f1)
  /\ keeps_last f f1 [].
Proof using laws.
  intros Hm Hok Hnew Hnb Hr. destruct (Z.leb_spec (buf_end f) (buf_pos f)) as [He|He].
  - destruct (fill_buffer_spec new fp f m w nb Hm Hok Hnew Hnb Hr) as (b & r & w1 & E & Hb & Hr1 & Hp & H0 & Hr2 & Ho & Hw).
    rewrite (bind_Ret _ _ _ _ _ E). eexists _, _, w1. split; [reflexivity|].
    assert (Hu : unread (File (fd f) (flags f) (Buf b) 0 r) w1 = unread f w).
    { rewrite (unread_empty f w Hok He), Hp. unfold unread. cbn [buf buf_pos buf_end fd]. rewrite Z.sub_0_r. done. }
    split; [repeat split; cbn [buf buf_pos buf_end fd flags]; done || lia|]. split; [done|].
    split; [|exists (buffered f); done].
    destruct (Z.ltb_spec 0 r) as [Hlt|Hge]; [done|]. rewrite (unread_empty f w Hok He). apply H0. lia.
  - exists false, f, w. split; [by rewrite insert_id|]. split; [repeat split; done|].
    split; [done|]. split; [done|]. exists []. by rewrite app_nil_r.
Qed.

Lemma fread_loop_spec new nb fp bytes fuel : forall out m w f,
  m !! fp = Some f -> file_ok f -> new = Some nb -> length nb = 1024%nat -> readable w (fd f) ->
  Z.of_nat (length out) <= bytes -> bytes - Z.of_nat (length out) <= Z.of_nat fuel -> bytes < 4294967296 ->
  exists d f' w', fread_loop sys fuel new fp bytes out (Stdio m w) = Ret (out ++ d) (Stdio (<[fp := f']> m) w')
  /\ same_stream f f' w w' /\ d ++ unread f' w' = unread f w
  /\ Z.of_nat (length out + length d) <= bytes /\ (Z.of_nat (length out + length d) = bytes \/ unread f' w' = [])
  /\ keeps_last f f' d.
Proof using laws.
  induction fuel as [|fuel IH]; intros out m w f Hm Hok Hnew Hnb Hr Hle Hf Hby; cbn [fread_loop];
    destruct (Z.ltb_spec (Z.of_nat (length out)) bytes) as [Hlt|Hge]; try lia.
  1,3: exists [], f, w; rewrite app_nil_r, insert_id by done; split_and!; simpl; try done; try lia; exists []; by rewrite app_nil_r.
  rewrite (bind_Ret _ _ _ _ _ (stream_ok fp f (Stdio m w) Hm)).
  destruct (refill_spec new nb fp f m w Hm Hok Hnew Hnb Hr) as (e & f1 & w1 & E & (Hok1 & Hfd & Hfl & Hr1 & Ho & Hwr) & Hu & He & Hkeep).
  rewrite (bind_Ret _ _ _ _ _ E). destruct e.
  { exists [], f1, w1. rewrite app_nil_r. split_and!; simpl; try done; [lia|]. right. congruence. }
  rewrite (bind_Ret _ _ _ _ _ (stream_ok fp f1 (Stdio (<[fp := f1]> m) w1) (lookup_insert_eq _ _ _))).
  destruct (buf f1) as [|b|] eqn:Eb; unfold file_ok in Hok1; rewrite Eb in Hok1; [lia| |done].
  destruct Hok1 as (Hlen & Hpos & Hend).
  rewrite (bind_Ret _ _ _ _ _ (block_ok f1 b _ Eb)). rewrite (u32_small (buf_end f1 - buf_pos f1)) by lia.
  set (n := if bytes - Z.of_nat (length out) <? buf_end f1 - buf_pos f1 then bytes - Z.of_nat (length out) else buf_end f1 - buf_pos f1).
  assert (Hn : 0 < n <= buf_end f1 - buf_pos f1 /\ n <= bytes - Z.of_nat (length out)) by (unfold n; destruct (Z.ltb_spec (bytes - Z.of_nat (length out)) (buf_end f1 - buf_pos f1)); lia).
  rewrite (bind_Ret _ _ _ _ _ (load_ok (buf_pos f1) n b (Stdio (<[fp := f1]> m) w1) ltac:(lia) ltac:(lia))).
  erewrite bind_Ret by reflexivity. cbn [streams os]. rewrite insert_insert_eq.
  set (d := slice (Z.to_nat (buf_pos f1)) (Z.to_nat n) b). set (f2 := set_buf_pos (buf_pos f1 + n) f1).
  assert (Hd : length d = Z.to_nat n) by (unfold d; rewrite slice_length; lia).
  destruct (IH (out ++ d) (<[fp := f2]> m) w1 f2) as (d' & f' & w' & E' & Hs & Hu' & Hle' & Hend' & pre' & Hpre'); rewrite ?length_app; try lia; try done.
  { by rewrite lookup_insert_eq. }
  { unfold file_ok, f2, set_buf_pos. cbn [buf buf_pos buf_end]. rewrite Eb. lia. }
  { unfold f2. cbn [fd set_buf_pos]. congruence. }
  assert (Hf2 : d ++ unread f2 w1 = unread f w).
  { rewrite <- Hu. unfold unread, f2, d. cbn [buf buf_pos buf_end fd set_buf_pos]. rewrite Eb, app_assoc. f_equal.
    rewrite Z2Nat.inj_add by lia. rewrite slice_slice. f_equal. lia. }
  rewrite insert_insert_eq, <- app_assoc in E'.
  exists (d ++ d'), f', w'. split; [exact E'|]. split.
  { destruct Hs as (Ha & Hb & Hc & Hd1 & He1 & Hf1). unfold f2 in *. cbn [fd flags set_buf_pos] in *.
    repeat split; try done; try congruence. intros j Hj. by apply Hf1, Hwr. }
  rewrite length_app in *. rewrite <- app_assoc, Hu', Hf2. split_and!; [done|lia|destruct Hend'; [left; lia|by right]|].
  destruct Hkeep as [pre Hpre]. rewrite app_nil_r in Hpre. exists (pre ++ pre').
  assert (Hb2 : buffered f2 = buffered f1 ++ d).
  { unfold buffered, f2, d, slice. cbn [buf buf_pos set_buf_pos]. rewrite Eb, take_take_drop. f_equal. lia. }
  rewrite Hb2 in Hpre'. rewrite Hpre, <- !app_assoc, <- Hpre', <- !app_assoc. done.
Qed.

Definition written_to (f f' : FILE) (w w' : W) (d : list Z) : Prop :=
  file_ok f' /\ buf f' <> Null /\ fd f' = fd f /\ flags f' = flags f /\ writable w' (fd f) /\
  output w' (fd f) ++ buffered f' = output w (fd f) ++ buffered f ++ d.

Lemma flush_spec ffuel fp f m w :
  m !! fp = Some f -> file_ok f -> buf f <> Null -> writable w (fd f) -> (1024 <= ffuel)%nat ->
  exists w', _flush_buffer sys ffuel fp (Stdio m w) = Ret 0 (Stdio (<[fp := set_buf_pos 0 f]> m) w')
  /\ written_to f (set_buf_pos 0 f) w w' [] /\ output w' (fd f) = output w (fd f) ++ buffered f.
Proof using laws.
  intros Hm Hok Hnn Hw Hf. destruct (buf f) as [|b|] eqn:Eb; [done| |by unfold file_ok in Hok; rewrite Eb in Hok].
  pose proof Hok as Hok'. unfold file_ok in Hok'. rewrite Eb in Hok'. destruct Hok' as (Hlen & Hpos & Hend).
  destruct (flush_loop_spec fp f b ffuel 0 m w Hm Eb ltac:(lia) ltac:(lia) Hw ltac:(lia)) as (w' & E & Ho & Hw').
  assert (Ho' : output w' (fd f) = output w (fd f) ++ buffered f) by (rewrite Ho; unfold buffered, slice; by rewrite Eb, Z.sub_0_r).
  exists w'. split; [exact E|]. split; [|done]. unfold written_to, file_ok, set_buf_pos. cbn [buf buf_pos buf_end fd flags].
  rewrite Eb. split_and!; try done; try lia. unfold buffered at 1. cbn [buf buf_pos]. rewrite ?Eb, take_0, Ho', !app_nil_r. done.
Qed.

Lemma room_spec ffuel fp f m w :
  m !! fp = Some f -> file_ok f -> buf f <> Null -> writable w (fd f) -> (1024 <= ffuel)%nat ->
  exists f1 w1, (if BUFFER_SIZE <=? buf_pos f then (let* r := _flush_buffer sys ffuel fp in ret (r =? EOF)) else ret false) (Stdio m w)
    = Ret false (Stdio (<[fp := f1]> m) w1)
  /\ written_to f f1 w w1 [] /\ buf_pos f1 < 1024.
Proof using laws.
  intros Hm Hok Hnn Hw Hf. destruct (Z.leb_spec BUFFER_SIZE (buf_pos f)) as [Hfull|Hroom]; unfold BUFFER_SIZE in *.
  - destruct (flush_spec ffuel fp f m w Hm Hok Hnn Hw Hf) as (w' & E & Hwt & _). rewrite (bind_Ret _ _ _ _ _ E).
    eexists _, w'. split; [reflexivity|]. split; [done|]. done.
  - exists f, w. rewrite insert_id by done. split; [done|]. split; [|lia]. unfold written_to. by rewrite app_nil_r.
Qed.

Lemma buffered_store f b d :
  buf f = Buf b -> 0 <= buf_pos f -> buf_pos f + Z.of_nat (length d) <= Z.of_nat (length b) ->
  buffered (set_buf_pos (buf_pos f + Z.of_nat (length d)) (set_buf (Buf (splice (Z.to_nat (buf_pos f)) d b)) f)) = buffered f ++ d.
Proof.
  intros Eb Hp Hl. unfold buffered. cbn [buf buf_pos set_buf_pos set_buf]. rewrite Eb. unfold splice.
  rewrite app_assoc, take_app_le by (rewrite length_app, length_take; lia). rewrite take_ge; [done|].
  rewrite length_app, length_take. lia.
Qed.

Lemma fwrite_loop_spec ffuel data fp bytes fuel : (1024 <= ffuel)%nat -> bytes <= Z.of_nat (length data) ->
  forall written m w f, m !! fp = Some f -> file_ok f -> buf f <> Null -> writable w (fd f) ->
  0 <= written <= bytes -> bytes - written <= Z.of_nat fuel ->
  exists f' w', fwrite_loop sys fuel ffuel data fp bytes written (Stdio m w) = Ret bytes (Stdio (<[fp := f']> m) w')
  /\ written_to f f' w w' (slice (Z.to_nat written) (Z.to_nat (bytes - written)) data).
Proof using laws.
  intros Hff Hdata. induction fuel as [|fuel IH]; intros written m w f Hm Hok Hnn Hw Hwr Hf; cbn [fwrite_loop];
    destruct (Z.ltb_spec written bytes) as [Hlt|Hge]; try lia.
  1,3: exists f, w; rewrite insert_id by done; replace written with bytes by lia; split; [done|];
    rewrite Z.sub_diag; unfold slice; rewrite take_0; unfold written_to; by rewrite app_nil_r.
  rewrite (bind_Ret _ _ _ _ _ (stream_ok fp f (Stdio m w) Hm)).
  destruct (room_spec ffuel fp f m w Hm Hok Hnn Hw Hff) as (f1 & w1 & E & (Hok1 & Hnn1 & Hfd & Hfl & Hw1 & Ho) & Hroom).
  rewrite (bind_Ret _ _ _ _ _ E). cbv iota.
  rewrite (bind_Ret _ _ _ _ _ (stream_ok fp f1 (Stdio (<[fp := f1]> m) w1) (lookup_insert_eq _ _ _))).
  destruct (buf f1) as [|b|] eqn:Eb; unfold file_ok in Hok1; rewrite Eb in Hok1; [done| |done].
  destruct Hok1 as (Hlen & Hpos & Hend). unfold BUFFER_SIZE in *. rewrite (u32_small (1024 - buf_pos f1)) by lia.
  set (n := if bytes - written <? 1024 - buf_pos f1 then bytes - written else 1024 - buf_pos f1).
  assert (Hn : 0 < n <= 1024 - buf_pos f1 /\ n <= bytes - written) by (unfold n; destruct (Z.ltb_spec (bytes - written) (1024 - buf_pos f1)); lia).
  rewrite (bind_Ret _ _ _ _ _ (load_ok written n data (Stdio (<[fp := f1]> m) w1) ltac:(lia) ltac:(lia))).
  set (d := slice (Z.to_nat written) (Z.to_nat n) data).
  assert (Hd : Z.of_nat (length d) = n) by (unfold d; rewrite slice_length; lia).
  rewrite (bind_Ret _ _ _ _ _ (block_ok f1 b _ Eb)).
  rewrite (bind_Ret _ _ _ _ _ (store_ok (buf_pos f1) d b (Stdio (<[fp := f1]> m) w1) ltac:(lia) ltac:(lia))).
  erewrite bind_Ret by reflexivity. cbn [streams os]. rewrite insert_insert_eq.
  pose proof (buffered_store f1 b d Eb ltac:(lia) ltac:(lia)) as Hbuf. rewrite Hd in Hbuf.
  set (f2 := set_buf_pos (buf_pos f1 + n) _) in *.
  destruct (IH (written + n) (<[fp := f2]> m) w1 f2) as (f' & w' & E' & Hok' & Hnn' & Hfd' & Hfl' & Hw' & Ho'); try lia; try done.
  { by rewrite lookup_insert_eq. }
  { unfold file_ok, f2. cbn [buf buf_pos buf_end set_buf_pos set_buf]. rewrite splice_length; lia. }
  { unfold f2. cbn [fd set_buf_pos set_buf]. by rewrite Hfd. }
  assert (H2 : fd f2 = fd f) by (unfold f2; cbn [fd set_buf_pos set_buf]; done).
  exists f', w'. rewrite insert_insert_eq in E'. split; [exact E'|]. unfold written_to.
  rewrite <- H2. split_and!; [done..|by rewrite Hfl'|done|]. rewrite Ho', Hbuf, H2, <- !app_assoc, (app_assoc _ (buffered f1)), Ho.
  rewrite <- !app_assoc. do 3 f_equal. cbn [app]. unfold d. rewrite Z2Nat.inj_add, slice_slice by lia. f_equal. lia.
Qed.

Definition closed (k : Z) (w : W) : W := if 2 <? k then sys_close sys k w else w.

Lemma fclose_spec ffuel fp f m w :
  m !! fp = Some f -> file_ok f -> buf f <> Null -> writable w (fd f) -> (1024 <= ffuel)%nat -> 3 < fp ->
  exists w', fclose sys ffuel fp (Stdio m w) = Ret 0 (Stdio (delete fp m) (closed (fd f) w'))
  /\ output w' (fd f) = output w (fd f) ++ buffered f.
Proof using laws.
  intros Hm Hok Hnn Hw Hf Hfp. unfold fclose. rewrite (bind_Ret _ _ _ _ _ (stream_ok fp f (Stdio m w) Hm)).
  assert (Hfl : exists f1 w1, (if 0 <? buf_pos f then _flush_buffer sys ffuel fp else ret 0) (Stdio m w) = Ret 0 (Stdio (<[fp := f1]> m) w1)
    /\ buf f1 = buf f /\ fd f1 = fd f /\ output w1 (fd f) = output w (fd f) ++ buffered f).
  { destruct (Z.ltb_spec 0 (buf_pos f)).
    - destruct (flush_spec ffuel fp f m w Hm Hok Hnn Hw Hf) as (w1 & E & _ & Ho). by exists (set_buf_pos 0 f), w1.
    - exists f, w. rewrite insert_id by done. split_and!; try done. unfold file_ok in Hok. unfold buffered.
      destruct (buf f); [done| |done]. replace (Z.to_nat (buf_pos f)) with O by lia. by rewrite take_0, app_nil_r. }
  destruct Hfl as (f1 & w1 & E & Hb1 & Hfd1 & Ho). rewrite (bind_Ret _ _ _ _ _ E).
  rewrite (bind_Ret _ _ _ _ _ (stream_ok fp f1 (Stdio (<[fp := f1]> m) w1) (lookup_insert_eq _ _ _))).
  rewrite Hb1, Hfd1. exists w1. split; [|done].
  destruct (buf f) as [|b|] eqn:Eb; [done| |by unfold file_ok in Hok; rewrite Eb in Hok].
  erewrite bind_Ret by reflexivity. cbn [streams os]. rewrite insert_insert_eq.
  rewrite !(proj2 (Z.eqb_neq fp _)) by (unfold stdin, stdout, stderr; lia). cbn [andb negb].
  unfold closed. destruct (2 <? fd f); erewrite bind_Ret by reflexivity; erewrite bind_Ret by reflexivity; unfold ret; cbn [streams os];
    by rewrite delete_insert_eq.
Qed.

Lemma fwrite_null fuel ffuel data fp f m w bytes :
  m !! fp = Some f -> buf f = Null -> buf_pos f = 0 -> 0 < bytes <= Z.of_nat (length data) ->
  bytes <= Z.of_nat fuel -> fwrite_loop sys fuel ffuel data fp bytes 0 (Stdio m w) = Stop Fault.
Proof.
  intros Hm Hb Hp Hn Hf. destruct fuel as [|fuel]; [lia|]. cbn [fwrite_loop]. rewrite (proj2 (Z.ltb_lt 0 bytes)) by lia.
  rewrite (bind_Ret _ _ _ _ _ (stream_ok fp f (Stdio m w) Hm)). rewrite Hp. cbn [Z.leb BUFFER_SIZE Z.compare].
  rewrite (bind_Ret (ret false) _ _ false _ eq_refl). rewrite (bind_Ret _ _ _ _ _ (stream_ok fp f (Stdio m w) Hm)). rewrite Hp.
  rewrite (u32_small (BUFFER_SIZE - 0)) by (unfold BUFFER_SIZE; lia).
  set (n := if bytes - 0 <? BUFFER_SIZE - 0 then bytes - 0 else BUFFER_SIZE - 0).
  assert (Hn' : 0 <= n <= bytes) by (unfold n, BUFFER_SIZE; destruct (Z.ltb_spec (bytes - 0) (1024 - 0)); lia).
  rewrite (bind_Ret _ _ _ _ _ (load_ok 0 n data (Stdio m w) ltac:(lia) ltac:(lia))).
  unfold bind, block. by rewrite Hb.
Qed.
End Streams.

(** ** Streams *)

(** C33. A stream is a byte sequence read and written through one buffer.  [fread]
    delivers the next bytes, as many as asked for or all that are left, and returns
    how many objects they make up; [fwrite] on a stream that has a buffer takes every
    byte, so that what has been written plus what is buffered grows by the data;
    [fclose] delivers what is buffered.  Because the position is shared, closing a
    stream that was read writes the last bytes read to the descriptor, and because
    only reading allocates the buffer, every [fwrite] of a byte to a stream that was
    not read before, [stdout] included, stores through NULL. *)
Theorem stdio_streams {W : Type} (sys : sys_ops W) (pending output : W -> Z -> list Z) (readable writable : W -> Z -> Prop)
    (laws : sys_laws sys pending output readable writable) (fuel ffuel : nat) (new nb data : list Z) (fp size nmemb : Z) (f : FILE)
    (m : gmap Z FILE) (w : W)
    (Hm : m !! fp = Some f) (Hok : file_ok f) (Hnb : length nb = 1024%nat) (Hsize : 0 < size) (Hn : 0 <= nmemb)
    (H32 : size * nmemb < 4294967296) (Hdata : size * nmemb <= Z.of_nat (length data))
    (Hfuel : size * nmemb <= Z.of_nat fuel) (Hff : (1024 <= ffuel)%nat) :
  (readable w (fd f) -> exists d f' w',
     fread sys fuel (Some nb) size nmemb fp (Stdio m w) = Ret (Z.of_nat (length d) / size, d) (Stdio (<[fp := f']> m) w')
     /\ d ++ unread pending f' w' = unread pending f w
     /\ Z.of_nat (length d) <= size * nmemb /\ (Z.of_nat (length d) = size * nmemb \/ unread pending f' w' = [])
     /\ (writable w (fd f) -> buf f' <> Null -> 3 < fp -> exists pre back w1,
           fclose sys ffuel fp (Stdio (<[fp := f']> m) w') = Ret 0 (Stdio (delete fp m) (closed sys (fd f) w1))
           /\ output w1 (fd f) = output w (fd f) ++ back /\ buffered f ++ d = pre ++ back /\ length back = Z.to_nat (buf_pos f')))
  /\ (writable w (fd f) -> buf f <> Null -> exists f' w',
     fwrite sys fuel ffuel data size nmemb fp (Stdio m w) = Ret nmemb (Stdio (<[fp := f']> m) w')
     /\ output w' (fd f) ++ buffered f' = output w (fd f) ++ buffered f ++ take (Z.to_nat (size * nmemb)) data
     /\ (fp = stderr \/ Z.land (flags f) O_APPEND <> 0 -> buffered f' = [])
     /\ (3 < fp -> exists w1, fclose sys ffuel fp (Stdio (<[fp := f']> m) w') = Ret 0 (Stdio (delete fp m) (closed sys (fd f) w1))
           /\ output w1 (fd f) = output w (fd f) ++ buffered f ++ take (Z.to_nat (size * nmemb)) data))
  /\ (buf f = Null -> 0 < nmemb -> fwrite sys fuel ffuel data size nmemb fp (Stdio m w) = Stop Fault).
Proof.
  assert (Hb : u32 (size * nmemb) = size * nmemb) by (apply u32_small; nia).
  assert (Hs0 : (size =? 0) = false) by (apply Z.eqb_neq; lia). split_and!.
  - intros Hr. destruct (fread_loop_spec sys pending output readable writable laws (Some nb) nb fp (size * nmemb) fuel [] m w f)
      as (d & f' & w' & E & (Hok' & Hfd & Hfl & Hr' & Ho & Hwr) & Hu & Hle & Hend & pre & Hpre); try done; [simpl; nia|simpl; lia|].
    exists d, f', w'. split_and!; try done.
    { unfold fread. rewrite Hb, (bind_Ret _ _ _ _ _ E), Hs0. done. }
    intros Hw Hnn Hfp.
    destruct (fclose_spec sys pending output readable writable laws ffuel fp f' (<[fp := f']> m) w') as (w1 & E1 & Ho1); try done.
    { apply lookup_insert_eq. }
    { rewrite Hfd. by apply Hwr. }
    rewrite delete_insert_eq, Hfd in E1. rewrite Hfd, Ho in Ho1. exists pre, (buffered f'), w1. split_and!; try done.
    unfold file_ok in Hok'. unfold buffered. destruct (buf f') as [|b|]; [done| |done]. rewrite length_take. lia.
  - intros Hw Hnn. destruct (fwrite_loop_spec sys pending output readable writable laws ffuel data fp (size * nmemb) fuel Hff Hdata 0 m w f)
      as (f' & w' & E & Hok' & Hnn' & Hfd & Hfl & Hw' & Ho); try done; [nia|lia|].
    rewrite Z.sub_0_r in Ho. unfold slice in Ho. rewrite drop_0 in Ho.
    assert (Hend : exists f2 w2, (if (fp =? stderr) || negb (Z.land (flags f') O_APPEND =? 0)
        then (let* _ := _flush_buffer sys ffuel fp in ret tt) else ret tt) (Stdio (<[fp := f']> m) w') = Ret tt (Stdio (<[fp := f2]> m) w2)
      /\ written_to output writable f' f2 w' w2 [] /\ (fp = stderr \/ Z.land (flags f) O_APPEND <> 0 -> buffered f2 = [])).
    { rewrite Hfl. destruct ((fp =? stderr) || negb (Z.land (flags f) O_APPEND =? 0)) eqn:Ec.
      - destruct (flush_spec sys pending output readable writable laws ffuel fp f' (<[fp := f']> m) w') as (w2 & E2 & Hwt & _); try done.
        { apply lookup_insert_eq. } { by rewrite Hfd. }
        rewrite insert_insert_eq in E2. rewrite (bind_Ret _ _ _ _ _ E2). exists (set_buf_pos 0 f'), w2. split_and!; try done.
        intros _. unfold buffered. cbn [buf buf_pos set_buf_pos]. by destruct (buf f').
      - exists f', w'. split_and!; try done; [unfold written_to; rewrite Hfd; by rewrite app_nil_r|].
        apply orb_false_iff in Ec as [Ea%Z.eqb_neq Eb%negb_false_iff%Z.eqb_eq]. naive_solver. }
    destruct Hend as (f2 & w2 & E2 & (Hok2 & Hnn2 & Hfd2 & Hfl2 & Hw2 & Ho2) & Happ). rewrite Hfd in *. rewrite app_nil_r, Ho in Ho2.
    exists f2, w2. split_and!; try done.
    { unfold fwrite. rewrite Hb, (bind_Ret _ _ _ _ _ E).
      rewrite (bind_Ret _ _ _ _ _ (stream_ok fp f' (Stdio (<[fp := f']> m) w') (lookup_insert_eq _ _ _))).
      rewrite (bind_Ret _ _ _ _ _ E2), Hs0. unfold ret. by rewrite Z.mul_comm, Z.div_mul by lia. }
    intros Hfp. destruct (fclose_spec sys pending output readable writable laws ffuel fp f2 (<[fp := f2]> m) w2) as (w1 & E1 & Ho1); try done.
    { apply lookup_insert_eq. } { by rewrite Hfd2. }
    rewrite delete_insert_eq, Hfd2 in E1. rewrite Hfd2, Ho2 in Ho1. by exists w1.
  - intros Hnull Hpos. unfold fwrite. rewrite Hb. apply bind_Stop.
    unfold file_ok in Hok. rewrite Hnull in Hok. apply fwrite_null with (f := f); try done; nia.
Qed.

(** *** Two descriptors in memory: what is left of an input, and an output *)
Definition mem_sys : sys_ops (list Z * list Z) := {|
  sys_read := fun _ n w => let d := take (Z.to_nat n) (fst w) in (Z.of_nat (length d), d, (drop (Z.to_nat n) (fst w), snd w));
  sys_write := fun _ d w => (Z.of_nat (length d), (fst w, snd w ++ d));
  sys_open := fun _ _ _ w => (3, w);
  sys_close := fun _ w => w |}.
Lemma mem_sys_laws : sys_laws mem_sys (fun w _ => fst w) (fun w _ => snd w) (fun _ _ => True) (fun _ _ => True).
Proof.
  split.
  - intros [i o] k n r d w' _ Hn E. cbn in E. injection E as <- <- <-. cbn [fst snd]. rewrite length_take. split_and!; try done; try lia.
    + by rewrite take_drop.
    + destruct i; [done|]. simpl. lia.
  - intros [i o] k d r w' _ Hd E. cbn in E. injection E as <- <-. cbn [fst snd]. split_and!; try done.
    + destruct d; [done|]. simpl. lia.
    + by rewrite Nat2Z.id, take_ge.
Qed.

(** Two bytes of a file of three are read, and closing writes them; a write to
    [stdout] faults. *)
Example stdio_streams_witness :
  let nb := replicate 1024 0 in
  (exists d f' w', fread mem_sys 4 (Some nb) 2 1 7 (Stdio (<[7 := File 3 O_RDWR Null 0 0]> init_streams) ([10; 20; 30], []))
     = Ret (Z.of_nat (length d) / 2, d) (Stdio (<[7 := f']> (<[7 := File 3 O_RDWR Null 0 0]> init_streams)) w')
   /\ d ++ unread (fun w _ => fst w) f' w' = [10; 20; 30])
  /\ fwrite mem_sys 4 1024 [104; 105] 1 2 stdout (Stdio init_streams ([], [])) = Stop Fault.
Proof.
  intros nb. split.
  - destruct (stdio_streams mem_sys _ _ _ _ mem_sys_laws 4 1024 nb nb [1; 2] 7 2 1 (File 3 O_RDWR Null 0 0)
      (<[7 := File 3 O_RDWR Null 0 0]> init_streams) ([10; 20; 30], []) (lookup_insert_eq _ _ _)) as [H _];
      try done; try (cbn; lia); [].
    destruct (H I) as (d & f' & w' & E & Hu & _). by exists d, f', w'.
  - apply (stdio_streams mem_sys _ _ _ _ mem_sys_laws 4 1024 nb nb [104; 105] stdout 1 2 _stdout init_streams ([], []) eq_refl);
      try done; cbn; lia.
Defined.

(** The same stream, evaluated: the file that was read ends up in the output. *)
Example read_then_close :
  match fread mem_sys 4 (Some (replicate 1024 0)) 2 1 7 (Stdio {[7 := File 3 O_RDWR Null 0 0]} ([10; 20; 30], [])) with
  | Ret (n, d) s => n = 1 /\ d = [10; 20] /\ match fclose mem_sys 1024 7 s with Ret r s' => r = 0 /\ snd (os s') = [10; 20] | _ => False end
  | _ => False
  end.
Proof. vm_compute. done. Qed.
