(* ===== verification/Server.v ===== *)
(** * Server

    src/src/server.c: the table of clients of the WebSocket server and the message
    loop of a client's thread, over the frames of WsFrame.  What the thread calls
    outside of the sources ([ws_send_pong], the callbacks, ...) is recorded in a log;
    what [recv] delivers is a list of chunks, at the end of which it returns 0. *)
From S2P Require Import Prelude Ipc Mem Bytes WsFrame.

(** ** Data *)
Definition MAX_CLIENTS : Z := 1000.
Definition BUFFER_SIZE : Z := 65536.
Definition WS_TEXT : Z := 1.
Definition WS_BINARY : Z := 2.
Definition WS_CLOSE : Z := 8.
Definition WS_PING : Z := 9.
Definition WS_PONG : Z := 10.
Definition WS_CLOSE_NORMAL : Z := 1000.

(** Which callbacks a connection has. *)
Record ws_connection_t : Type := WsConnection { on_connect : bool; on_message : bool; on_close : bool }.

(** [OnMessage msg len]: [on_message] with the length [len]; [msg] are the bytes of the
    buffer that the pointer and this length cover. *)
Inductive event : Type :=
| OnConnect
| OnMessage (msg : list Z) (len : Z)
| SendPong
| SendClose (status : Z)
| OnClose (status : Z)
| Send (client : Z) (message : list Z)
| CloseSocket
| Free.

Record client_manager_t : Type := ClientManager { clients : list Z; client_count : Z }.
Record server : Type := Server { client_manager : client_manager_t; buffer : list Z; calls : list event }.

(** ** The table of clients *)
Definition set_clients (c : list Z) (n : Z) : Cmd server unit :=
  modify (fun s => Server (ClientManager c n) (buffer s) (calls s)).
Definition call (e : event) : Cmd server unit :=
  modify (fun s => Server (client_manager s) (buffer s) (calls s ++ [e])).
Definition set_buffer (b : list Z) : Cmd server unit :=
  modify (fun s => Server (client_manager s) b (calls s)).
Definition client_at (i : Z) : Cmd server Z :=
  fun s => deref (if i <? 0 then None else clients (client_manager s) !! Z.to_nat i) s.

Definition add_client (client : Z) : Cmd server unit :=
  let* s := get in
  let m := client_manager s in
  if client_count m <? MAX_CLIENTS
  then set_clients (<[Z.to_nat (client_count m) := client]> (clients m)) (client_count m + 1)
  else ret tt.

Fixpoint remove_loop (n : nat) (client i : Z) : Cmd server unit :=
  let* s := get in
  let m := client_manager s in
  if i <? client_count m then
    match n with
    | O => fail NoFuel
    | S n' =>
        let* c := client_at i in
        if c =? client then
          let* last := client_at (client_count m - 1) in
          set_clients (<[Z.to_nat i := last]> (clients m)) (client_count m - 1)
        else remove_loop n' client (i + 1)
    end
  else ret tt.
(** The table has 1000 entries. *)
Definition remove_client (client : Z) : Cmd server unit := remove_loop 1000 client 0.

Fixpoint broadcast_loop (n : nat) (message : list Z) (i : Z) : Cmd server unit :=
  let* s := get in
  if i <? client_count (client_manager s) then
    match n with
    | O => fail NoFuel
    | S n' =>
        let* client := client_at i in
        call (Send client message) ;;;
        broadcast_loop n' message (i + 1)
    end
  else ret tt.
Definition broadcast_message (message : list Z) : Cmd server unit := broadcast_loop 1000 message 0.

(** ** The thread of a client *)

(** [payload]: the offset in the buffer; [len]: the length passed on. *)
Definition handle_client_message (conn : ws_connection_t) (payload len opcode : Z) : Cmd server unit :=
  let* s := get in
  if (opcode =? WS_TEXT) || (opcode =? WS_BINARY) then
    if on_message conn then call (OnMessage (slice (Z.to_nat payload) (Z.to_nat len) (buffer s)) len) else ret tt
  else if opcode =? WS_PING then call SendPong
  else if opcode =? WS_PONG then ret tt
  else if opcode =? WS_CLOSE then
    let* status :=
      if 2 <=? len then
        if payload + 2 <=? Z.of_nat (length (buffer s))
        then ret (byte_swap 2 (le_value (slice (Z.to_nat payload) 2 (buffer s))))
        else fail Fault
      else ret WS_CLOSE_NORMAL in
    call (SendClose status) ;;;
    if on_close conn then call (OnClose status) else ret tt
  else ret tt.

(** [ws_mask_payload] on the buffer, which it must not leave. *)
Definition mask_buffer (payload len : Z) (key : list Z) : Cmd server unit :=
  let* s := get in
  if payload + len <=? Z.of_nat (length (buffer s))
  then set_buffer (splice (Z.to_nat payload)
                     (ws_mask_payload (slice (Z.to_nat payload) (Z.to_nat len) (buffer s)) key) (buffer s))
  else fail Fault.

(** The frames of one chunk of [bytes] bytes.  Sums with [payload_length] have 64 bits,
    [pos] has 32. *)
Fixpoint frame_loop (fuel : nat) (conn : ws_connection_t) (bytes pos : Z) (h : ws_frame_header_t) : Cmd server unit :=
  if pos <? bytes then
    match fuel with
    | O => fail NoFuel
    | S fuel' =>
        let* s := get in
        let '(header_size, h) := ws_parse_frame_header (slice (Z.to_nat pos) (Z.to_nat (bytes - pos)) (buffer s)) h in
        if header_size <? 0 then ret tt else
        let pos := u32 (pos + header_size) in
        if bytes <? u64 (pos + payload_length h) then ret tt else
        (if negb (mask h =? 0) then mask_buffer pos (u32 (payload_length h)) (masking_key h) else ret tt) ;;;
        handle_client_message conn pos (u32 (payload_length h)) (opcode h) ;;;
        frame_loop fuel' conn bytes (u32 (pos + payload_length h)) h
    end
  else ret tt.

(** [recv] of at most [max] bytes. *)
Definition recv (max : Z) (chunk : list Z) : Cmd server Z :=
  let d := take (Z.to_nat max) chunk in
  let* s := get in
  set_buffer (splice 0 d (buffer s)) ;;;
  ret (Z.of_nat (length d)).

Fixpoint message_loop (fuel : nat) (conn : ws_connection_t) (chunks : list (list Z)) (h : ws_frame_header_t) : Cmd server unit :=
  match chunks with
  | [] => ret tt
  | chunk :: rest =>
      let* bytes := recv BUFFER_SIZE chunk in
      if bytes <=? 0 then ret tt else
      frame_loop fuel conn bytes 0 h ;;;
      message_loop fuel conn rest h
  end.

(** ** What is dispatched *)
Record frame : Type := Frame { f_op : Z; f_data : list Z; f_masked : bool; f_key : list Z }.
Definition wire (f : frame) : list Z :=
  frame_header (f_op f) (Z.of_nat (length (f_data f))) (f_masked f) (f_key f) ++ frame_payload (f_data f) (f_masked f) (f_key f).
Definition close_status (data : list Z) : Z :=
  match data with a :: b :: _ => a * 256 + b | _ => WS_CLOSE_NORMAL end.
Definition dispatch (conn : ws_connection_t) (f : frame) : list event :=
  let op := Z.land (f_op f) 15 in
  if bool_decide (op = WS_TEXT \/ op = WS_BINARY) then
    (if on_message conn then [OnMessage (f_data f) (Z.of_nat (length (f_data f)))] else [])
  else if bool_decide (op = WS_PING) then [SendPong]
  else if bool_decide (op = WS_CLOSE) then
    SendClose (close_status (f_data f)) :: (if on_close conn then [OnClose (close_status (f_data f))] else [])
  else [].
Definition frame_ok (f : frame) : Prop := length (f_key f) = 4%nat /\ Forall (fun b => 0 <= b < 256) (f_data f).

Lemma wire_length f : length (wire f) = (length (frame_header (f_op f) (Z.of_nat (length (f_data f))) (f_masked f) (f_key f)) + length (f_data f))%nat.
Proof. unfold wire, frame_payload. rewrite length_app. destruct (f_masked f); by rewrite ?mask_length. Qed.

Lemma header_length op len masked key : (2 <= length (frame_header op len masked key))%nat.
Proof. unfold frame_header, length_bytes. simpl. rewrite length_app. repeat case_match; simpl; lia. Qed.

Lemma swap_status a b : 0 <= a < 256 -> 0 <= b < 256 -> byte_swap 2 (le_value [a; b]) = a * 256 + b.
Proof.
  intros Ha Hb. unfold byte_swap. cbn [le_value]. replace (a + 256 * (b + 256 * 0)) with (a + 256 * b) by lia.
  cbn [le_bytes]. rewrite (Z.mul_comm 256 b), Z_mod_plus_full, (Z.mod_small a) by lia.
  rewrite Z.div_add, (Z.div_small a) by lia. rewrite Z.add_0_l, Z.mod_small by lia.
  cbn [rev app le_value]. lia.
Qed.

Lemma handle_spec conn f m pre rest ev :
  frame_ok f ->
  handle_client_message conn (Z.of_nat (length pre)) (Z.of_nat (length (f_data f))) (Z.land (f_op f) 15) (Server m (pre ++ f_data f ++ rest) ev)
  = Ret tt (Server m (pre ++ f_data f ++ rest) (ev ++ dispatch conn f)).
Proof.
  intros [_ Hb]. unfold handle_client_message, dispatch. set (op := Z.land (f_op f) 15). clearbody op.
  erewrite (bind_Ret get) by reflexivity. cbn [buffer]. rewrite !Nat2Z.id, slice_at.
  destruct (Z.eqb_spec op WS_TEXT) as [->|H1]; [rewrite bool_decide_eq_true_2 by (by left); destruct (on_message conn); cbn [orb]; [done|by rewrite app_nil_r]|].
  destruct (Z.eqb_spec op WS_BINARY) as [->|H2]; [rewrite bool_decide_eq_true_2 by (by right); rewrite orb_true_r; destruct (on_message conn); [done|by rewrite app_nil_r]|].
  rewrite bool_decide_eq_false_2 by naive_solver. cbn [orb].
  destruct (Z.eqb_spec op WS_PING) as [->|H3]; [done|]. rewrite bool_decide_eq_false_2 by done.
  destruct (Z.eqb_spec op WS_PONG) as [->|H4]; [by rewrite bool_decide_eq_false_2, app_nil_r by done|].
  destruct (Z.eqb_spec op WS_CLOSE) as [->|H5]; [|by rewrite bool_decide_eq_false_2, app_nil_r by done].
  rewrite bool_decide_eq_true_2 by done.
  assert (Hst : (if 2 <=? Z.of_nat (length (f_data f)) then
        if Z.of_nat (length pre) + 2 <=? Z.of_nat (length (pre ++ f_data f ++ rest))
        then ret (byte_swap 2 (le_value (slice (length pre) 2 (pre ++ f_data f ++ rest)))) else fail Fault
      else ret WS_CLOSE_NORMAL) (Server m (pre ++ f_data f ++ rest) ev) = Ret (close_status (f_data f)) (Server m (pre ++ f_data f ++ rest) ev)).
  { destruct (f_data f) as [|a [|b d]] eqn:Ed; try done. rewrite (proj2 (Z.leb_le 2 _)) by (simpl; lia).
    rewrite (proj2 (Z.leb_le _ _)) by (rewrite !length_app; simpl; lia).
    change (a :: b :: d) with ([a; b] ++ d). rewrite <- app_assoc.
    pose proof (slice_at pre [a; b] (d ++ rest)) as Hs. change (length [a; b]) with 2%nat in Hs. rewrite Hs.
    apply Forall_cons in Hb as [Ha Hb]. apply Forall_cons in Hb as [Hb _]. unfold ret. by rewrite swap_status. }
  rewrite (bind_Ret _ _ _ _ _ Hst). erewrite bind_Ret by reflexivity. cbn [client_manager buffer calls].
  destruct (on_close conn); [|done]. unfold call, modify. cbn [client_manager buffer calls]. by rewrite <- app_assoc.
Qed.

(** A frame that has not arrived as a whole. *)
Definition incomplete (t : list Z) : Prop := exists f, frame_ok f /\ t `prefix_of` wire f /\ t <> wire f /\ Z.of_nat (length (wire f)) < 1073741824.

Lemma parse_short op len masked key t h :
  length key = 4%nat -> 0 <= len < 1073741824 -> t `prefix_of` frame_header op len masked key -> t <> frame_header op len masked key ->
  fst (ws_parse_frame_header t h) = -1.
Proof.
  intros Hkey Hlen Hpre Hne.
  assert (Hlt : (length t < length (frame_header op len masked key))%nat).
  { destruct Hpre as [r Hr]. rewrite Hr, length_app. destruct r; [by rewrite app_nil_r in Hr; subst|simpl; lia]. }
  unfold ws_parse_frame_header. destruct (Z.ltb_spec (Z.of_nat (length t)) 2) as [|H2]; [done|].
  destruct t as [|d0 [|d1 t]]; [simpl in H2; lia..|]. clear H2.
  assert (Hd1 : d1 = (if masked then 128 else 0) + (if len <=? 125 then len else if len <=? 65535 then 126 else 127)).
  { destruct Hpre as [r Hr]. unfold frame_header, length_bytes in Hr.
    destruct (len <=? 125); [|destruct (len <=? 65535)]; injection Hr; intros; by destruct masked. }
  change (byte_at (d0 :: d1 :: t) 1) with d1.
  destruct (second_byte masked (if len <=? 125 then len else if len <=? 65535 then 126 else 127)) as [M1 M2];
    [destruct (Z.leb_spec len 125); [lia|]; destruct (len <=? 65535); lia|].
  cbv zeta in M1, M2. rewrite <- Hd1 in M1, M2. rewrite M1, M2. cbn [payload_len mask masking_key payload_length set_payload_length].
  assert (HL : Z.of_nat (length (d0 :: d1 :: t)) < 2 + (if len <=? 125 then 0 else if len <=? 65535 then 2 else 8) + (if masked then 4 else 0)).
  { unfold frame_header, length_bytes in Hlt. cbn [length] in *. rewrite length_app in Hlt.
    destruct (len <=? 125); [|destruct (len <=? 65535)]; cbn [length] in Hlt; rewrite ?le_bytes_length in Hlt; destruct masked; simpl in Hlt; lia. }
  assert (HL2 : 2 <= Z.of_nat (length (d0 :: d1 :: t))) by (simpl; lia).
  set (L := Z.of_nat (length (d0 :: d1 :: t))) in *. clearbody L.
  destruct (Z.leb_spec len 125); [|destruct (Z.leb_spec len 65535)].
  - destruct (Z.eqb_spec len 126); [lia|]. destruct (Z.eqb_spec len 127); [lia|]. destruct masked; [|].
    + cbn. destruct (Z.ltb_spec L (2 + 4)); [done|lia].
    + lia.
  - cbn. destruct (Z.ltb_spec L 4); [done|]. destruct masked; cbn; [|lia]. destruct (Z.ltb_spec L (4 + 4)); [done|lia].
  - cbn. destruct (Z.ltb_spec L 10); [done|]. destruct masked; cbn; [|lia]. destruct (Z.ltb_spec L (10 + 4)); [done|lia].
Qed.

Definition header_of (f : frame) : list Z := frame_header (f_op f) (Z.of_nat (length (f_data f))) (f_masked f) (f_key f).

Lemma mask_buffer_spec m pre data key rest ev :
  mask_buffer (Z.of_nat (length pre)) (Z.of_nat (length data)) key (Server m (pre ++ ws_mask_payload data key ++ rest) ev)
  = Ret tt (Server m (pre ++ data ++ rest) ev).
Proof.
  unfold mask_buffer. erewrite (bind_Ret get) by reflexivity. cbn [buffer].
  rewrite (proj2 (Z.leb_le _ _)) by (rewrite !length_app, mask_length; lia). rewrite !Nat2Z.id.
  pose proof (slice_at pre (ws_mask_payload data key) rest) as Hs. rewrite mask_length in Hs. rewrite Hs, mask_twice.
  unfold set_buffer, modify. cbn [client_manager calls]. rewrite splice_next by done.
  replace (length data) with (length (ws_mask_payload data key)) by apply mask_length. by rewrite drop_app_length, <- app_assoc.
Qed.

Lemma frame_step fuel conn f m pre rest ev bytes h :
  frame_ok f -> Z.of_nat (length pre + length (wire f)) <= bytes -> bytes < 1073741824 ->
  exists h', frame_loop (S fuel) conn bytes (Z.of_nat (length pre)) h (Server m (pre ++ wire f ++ rest) ev)
  = frame_loop fuel conn bytes (Z.of_nat (length pre + length (wire f))) h' (Server m (pre ++ (header_of f ++ f_data f) ++ rest) (ev ++ dispatch conn f)).
Proof.
  intros Hok Hb Hlt. pose proof (wire_length f) as Hw. fold (header_of f) in Hw.
  pose proof (header_length (f_op f) (Z.of_nat (length (f_data f))) (f_masked f) (f_key f)) as Hh2. fold (header_of f) in Hh2.
  cbn [frame_loop]. rewrite (proj2 (Z.ltb_lt _ _)) by lia. erewrite (bind_Ret get) by reflexivity. cbn [buffer].
  assert (Hsl : exists x, slice (Z.to_nat (Z.of_nat (length pre))) (Z.to_nat (bytes - Z.of_nat (length pre))) (pre ++ wire f ++ rest) = header_of f ++ x).
  { unfold slice, wire. fold (header_of f). rewrite Nat2Z.id, drop_app_length, <- app_assoc, take_app, (take_ge (header_of f)) by lia. by eexists. }
  destruct Hsl as [x ->]. unfold header_of at 1. rewrite ws_parse_spec; [|apply Hok|lia]. fold (header_of f).
  rewrite (proj2 (Z.ltb_ge _ 0)) by lia. cbn [payload_length mask masking_key opcode].
  rewrite (u32_small (Z.of_nat (length pre) + Z.of_nat (length (header_of f)))) by lia.
  rewrite u64_small by lia. rewrite (proj2 (Z.ltb_ge bytes _)) by lia. rewrite !(u32_small (Z.of_nat (length (f_data f)))) by lia.
  rewrite u32_small by lia. rewrite <- Nat2Z.inj_add, <- length_app.
  assert (Hm : (if negb ((if f_masked f then 1 else 0) =? 0) then
       mask_buffer (Z.of_nat (length (pre ++ header_of f))) (Z.of_nat (length (f_data f))) (if f_masked f then f_key f else masking_key h) else ret tt)
      (Server m (pre ++ wire f ++ rest) ev) = Ret tt (Server m ((pre ++ header_of f) ++ f_data f ++ rest) ev)).
  { unfold wire, frame_payload. fold (header_of f). rewrite <- !app_assoc. destruct (f_masked f); [|done].
    change (negb (1 =? 0)) with true. cbv iota. rewrite (app_assoc pre), (app_assoc pre (header_of f) (f_data f ++ rest)). apply mask_buffer_spec. }
  rewrite (bind_Ret _ _ _ _ _ Hm). rewrite (bind_Ret _ _ _ _ _ (handle_spec conn f m (pre ++ header_of f) rest ev Hok)).
  eexists. rewrite <- !app_assoc. do 2 f_equal. rewrite length_app, Hw. lia.
Qed.

Lemma frame_incomplete fuel conn t m pre rest ev h :
  t = [] \/ incomplete t -> Z.of_nat (length pre + length t) < 1073741824 -> (0 < fuel)%nat ->
  frame_loop fuel conn (Z.of_nat (length pre + length t)) (Z.of_nat (length pre)) h (Server m (pre ++ t ++ rest) ev)
  = Ret tt (Server m (pre ++ t ++ rest) ev).
Proof.
  intros Ht Hlt Hf. destruct fuel as [|fuel]; [lia|]. cbn [frame_loop].
  destruct (Z.ltb_spec (Z.of_nat (length pre)) (Z.of_nat (length pre + length t))) as [Hlen|]; [|done].
  destruct Ht as [->|(f & [Hkey Hby] & Hpre & Hne & Hwl)]; [simpl in Hlen; lia|].
  erewrite (bind_Ret get) by reflexivity. cbn [buffer].
  replace (slice _ _ _) with t by (rewrite Nat2Z.id, Nat2Z.inj_add; replace (Z.to_nat _) with (length t) by lia; by rewrite slice_at).
  pose proof (wire_length f) as Hw. fold (header_of f) in Hw.
  destruct (decide (length (header_of f) <= length t)%nat) as [Hge|Hshort].
  - assert (Ht : exists p, t = header_of f ++ p).
    { destruct Hpre as [r Hr]. unfold wire in Hr. fold (header_of f) in Hr. exists (drop (length (header_of f)) t).
      pose proof (f_equal (take (length (header_of f))) Hr) as He.
      rewrite take_app_le, take_ge in He by lia. rewrite take_app_le in He by lia. rewrite He at 1. by rewrite take_drop. }
    destruct Ht as [p ->]. unfold header_of at 1. rewrite ws_parse_spec by (done || lia). fold (header_of f).
    rewrite (proj2 (Z.ltb_ge _ 0)) by lia. cbn [payload_length].
    assert (Hp : (length p < length (f_data f))%nat).
    { destruct Hpre as [r Hr]. pose proof (f_equal length Hr) as Hl. rewrite Hw, !length_app in Hl.
      destruct r; [by rewrite app_nil_r in Hr; subst|simpl in Hl; lia]. }
    rewrite length_app in *. rewrite (u32_small (_ + _)) by lia. rewrite u64_small by lia.
    rewrite (proj2 (Z.ltb_lt _ _)) by lia. done.
  - assert (Hs : fst (ws_parse_frame_header t h) = -1).
    { apply (parse_short (f_op f) (Z.of_nat (length (f_data f))) (f_masked f) (f_key f)); [done|lia| |].
      - destruct Hpre as [r Hr]. unfold wire in Hr. fold (header_of f) in *. exists (drop (length t) (header_of f)).
        pose proof (f_equal (take (length t)) Hr) as He. rewrite take_app_le, take_app_length in He by lia.
        rewrite <- He at 1. by rewrite take_drop.
      - fold (header_of f). intros ->. lia. }
    destruct (ws_parse_frame_header t h) as [hs h']. simpl in Hs. subst hs. done.
Qed.

Lemma frame_loop_spec conn t rest m : forall fs fuel pre ev h,
  Forall frame_ok fs -> t = [] \/ incomplete t -> Z.of_nat (length pre + length (concat (map wire fs) ++ t)) < 1073741824 ->
  (length fs < fuel)%nat ->
  exists b, frame_loop fuel conn (Z.of_nat (length pre + length (concat (map wire fs) ++ t))) (Z.of_nat (length pre)) h
      (Server m (pre ++ concat (map wire fs) ++ t ++ rest) ev)
    = Ret tt (Server m b (ev ++ concat (map (dispatch conn) fs)))
  /\ length b = length (pre ++ concat (map wire fs) ++ t ++ rest).
Proof.
  induction fs as [|f fs IH]; intros fuel pre ev h Hok Ht Hlt Hf; cbn [map concat] in *.
  - exists (pre ++ t ++ rest). cbn [app] in *. rewrite app_nil_r. split; [|done]. apply frame_incomplete; [done|done|lia].
  - destruct fuel as [|fuel]; [simpl in Hf; lia|]. apply Forall_cons in Hok as [Hf0 Hok].
    rewrite !length_app in Hlt. rewrite <- !app_assoc.
    destruct (frame_step fuel conn f m pre (concat (map wire fs) ++ t ++ rest) ev
      (Z.of_nat (length pre + length (wire f ++ concat (map wire fs) ++ t))) h Hf0) as [h' E]; [rewrite !length_app; lia..|].
    rewrite E. set (pre' := pre ++ header_of f ++ f_data f).
    assert (Hl : length pre' = (length pre + length (wire f))%nat) by (unfold pre'; rewrite !length_app, wire_length; done).
    destruct (IH fuel pre' (ev ++ dispatch conn f) h' Hok Ht) as (b & Eb & Hb); [rewrite length_app, Hl; lia|simpl in Hf; lia|].
    exists b. rewrite <- !app_assoc in Eb. unfold pre' in Hb. rewrite <- Hl. split.
    + rewrite <- Eb. rewrite !length_app, Hl. unfold pre'. rewrite <- !app_assoc. do 2 f_equal. lia.
    + rewrite Hb, !length_app, wire_length. fold (header_of f). lia.
Qed.

(** ** The table of clients *)
Definition active (s : server) : list Z := take (Z.to_nat (client_count (client_manager s))) (clients (client_manager s)).
Definition table_ok (s : server) : Prop :=
  length (clients (client_manager s)) = 1000%nat /\ 0 <= client_count (client_manager s) <= 1000.

Lemma active_length s : table_ok s -> Z.of_nat (length (active s)) = client_count (client_manager s).
Proof. intros [Hl Hc]. unfold active. rewrite length_take. lia. Qed.

Lemma client_at_active s i : table_ok s -> 0 <= i < client_count (client_manager s) ->
  exists c, client_at i s = Ret c s /\ clients (client_manager s) !! Z.to_nat i = Some c /\ active s !! Z.to_nat i = Some c.
Proof.
  intros [Hl Hc] Hi. destruct (lookup_lt_is_Some_2 (clients (client_manager s)) (Z.to_nat i)) as [c Hlook]; [lia|].
  exists c. unfold client_at, active. rewrite (proj2 (Z.ltb_ge i 0)), Hlook by lia. split; [done|]. split; [done|].
  rewrite lookup_take_lt by lia. done.
Qed.

(** What adding and removing does to the clients in the table. *)
Lemma add_client_spec c s : table_ok s ->
  exists s', add_client c s = Ret tt s' /\ table_ok s' /\ calls s' = calls s /\ buffer s' = buffer s
  /\ active s' = if client_count (client_manager s) <? MAX_CLIENTS then active s ++ [c] else active s.
Proof.
  intros [Hl Hc]. unfold add_client. erewrite (bind_Ret get) by reflexivity. cbv zeta. unfold MAX_CLIENTS.
  destruct (Z.ltb_spec (client_count (client_manager s)) 1000); [|by exists s].
  eexists. split; [reflexivity|]. unfold table_ok, active. cbn [client_manager clients client_count calls buffer].
  split; [rewrite length_insert; lia|]. split; [done|]. split; [done|].
  rewrite Z2Nat.inj_add, Nat.add_1_r by lia. rewrite (take_S_r _ _ c) by (apply list_lookup_insert_eq; lia).
  by rewrite take_insert_ge by lia.
Qed.

Lemma swap_last (l : list Z) k n x last :
  l !! k = Some x -> (k < n)%nat -> l !! (n - 1)%nat = Some last -> (n <= length l)%nat ->
  take n l ≡ₚ x :: take (n - 1) (<[k := last]> l).
Proof.
  intros Hk Hkn Hlast Hn. destruct n as [|n]; [lia|]. replace (S n - 1)%nat with n in * by lia.
  rewrite (take_S_r _ _ _ Hlast). destruct (decide (k = n)) as [->|Hne].
  - rewrite take_insert_ge by lia. rewrite Hk in Hlast. injection Hlast as <-. apply Permutation_sym, Permutation_cons_append.
  - rewrite take_insert_lt by lia. assert (Hk' : take n l !! k = Some x) by (rewrite lookup_take_lt; [done|lia]).
    rewrite (insert_take_drop _ k) by (rewrite length_take; lia).
    rewrite <- (take_drop_middle _ _ _ Hk') at 1. rewrite <- app_assoc. cbn [app].
    rewrite <- Permutation_middle. constructor. apply Permutation_app_head. apply Permutation_sym, Permutation_cons_append.
Qed.

Lemma remove_loop_spec c n : forall i s, table_ok s -> 0 <= i -> client_count (client_manager s) - i <= Z.of_nat n ->
  (c ∉ take (Z.to_nat i) (active s)) ->
  exists s', remove_loop n c i s = Ret tt s' /\ table_ok s' /\ calls s' = calls s /\ buffer s' = buffer s
  /\ if decide (c ∈ active s) then active s ≡ₚ c :: active s' else s' = s.
Proof.
  induction n as [|n IH]; intros i s Hok Hi Hn Hnot; cbn [remove_loop]; erewrite (bind_Ret get) by reflexivity; cbv zeta;
    destruct (Z.ltb_spec i (client_count (client_manager s))) as [Hlt|Hge]; try lia.
  1,3: exists s; rewrite decide_False; [done|]; rewrite take_ge in Hnot; [done|]; pose proof (active_length s Hok); lia.
  destruct (client_at_active s i Hok (conj Hi Hlt)) as (x & Ex & Hx & Hax). rewrite (bind_Ret _ _ _ _ _ Ex).
  destruct (Z.eqb_spec x c) as [->|Hne].
  - destruct (client_at_active s (client_count (client_manager s) - 1) Hok) as (last & El & Hlast & _); [lia|].
    rewrite (bind_Ret _ _ _ _ _ El). assert (Hin : c ∈ active s) by (eapply list_elem_of_lookup_2; exact Hax).
    destruct Hok as [Hl Hc]. eexists. split; [reflexivity|]. rewrite (decide_True _ _ Hin). unfold table_ok, active. cbn [client_manager clients client_count calls buffer].
    split; [rewrite length_insert; lia|]. split; [done|]. split; [done|].
    rewrite Z2Nat.inj_sub by lia. apply swap_last; [done|lia| |lia]. rewrite <- Hlast. f_equal. lia.
  - apply IH; [done|lia|lia|]. replace (Z.to_nat (i + 1)) with (S (Z.to_nat i)) by lia. rewrite (take_S_r _ _ _ Hax).
    rewrite elem_of_app, list_elem_of_singleton. naive_solver.
Qed.

Lemma broadcast_all_spec message n : forall i s, table_ok s -> 0 <= i -> client_count (client_manager s) - i <= Z.of_nat n ->
  broadcast_loop n message i s
  = Ret tt (Server (client_manager s) (buffer s) (calls s ++ map (fun c => Send c message) (drop (Z.to_nat i) (active s)))).
Proof.
  induction n as [|n IH]; intros i s Hok Hi Hn; cbn [broadcast_loop]; erewrite (bind_Ret get) by reflexivity;
    destruct (Z.ltb_spec i (client_count (client_manager s))) as [Hlt|Hge]; try lia.
  1,3: rewrite drop_ge by (pose proof (active_length s Hok); lia); rewrite app_nil_r; by destruct s.
  destruct (client_at_active s i Hok (conj Hi Hlt)) as (x & Ex & Hx & Hax). rewrite (bind_Ret _ _ _ _ _ Ex).
  erewrite bind_Ret by reflexivity. rewrite IH by (done || cbn [client_manager]; lia). cbn [client_manager buffer calls].
  rewrite (drop_S _ _ _ Hax). cbn [map]. replace (Z.to_nat (i + 1)) with (S (Z.to_nat i)) by lia.
  rewrite <- app_assoc. done.
Qed.

(** The table is a finite multiset of at most 1000 clients: adding appends unless it is
    full, removing takes one entry away and a broadcast reaches every entry once. *)
Theorem client_table c message s (Hok : table_ok s) :
  (exists s', add_client c s = Ret tt s' /\ table_ok s'
    /\ active s' = if client_count (client_manager s) <? MAX_CLIENTS then active s ++ [c] else active s)
  /\ (exists s', remove_client c s = Ret tt s' /\ table_ok s'
    /\ if decide (c ∈ active s) then active s ≡ₚ c :: active s' else s' = s)
  /\ (exists s', broadcast_message message s = Ret tt s' /\ active s' = active s
    /\ calls s' = calls s ++ map (fun c => Send c message) (active s)).
Proof.
  split_and!.
  - destruct (add_client_spec c s Hok) as (s' & E & H1 & _ & _ & H2). by exists s'.
  - destruct (remove_loop_spec c 1000 0 s Hok) as (s' & E & H1 & _ & _ & H2); [lia|destruct Hok; lia|rewrite take_0; apply not_elem_of_nil|].
    by exists s'.
  - eexists. split; [apply broadcast_all_spec; [done|lia|destruct Hok; lia]|]. done.
Qed.

(** ** Messages *)

(** A chunk: whole frames, and the beginning of one more. *)
Definition chunk_of (p : list frame * list Z) : list Z := concat (map wire (fst p)) ++ snd p.
Definition chunk_ok (p : list frame * list Z) : Prop :=
  Forall frame_ok (fst p) /\ (snd p = [] \/ incomplete (snd p)) /\ chunk_of p <> [] /\ Z.of_nat (length (chunk_of p)) <= 65536.

Lemma frames_fit fs t : (length fs <= length (concat (map wire fs) ++ t))%nat.
Proof.
  induction fs as [|f fs IH]; [simpl; lia|]. cbn [map concat length]. rewrite !length_app in *. rewrite wire_length.
  pose proof (header_length (f_op f) (Z.of_nat (length (f_data f))) (f_masked f) (f_key f)). lia.
Qed.

Lemma message_loop_spec fuel conn h m : 65536 < Z.of_nat fuel -> forall ps b ev,
  Forall chunk_ok ps -> Z.of_nat (length b) = 65536 ->
  exists b', message_loop fuel conn (map chunk_of ps) h (Server m b ev)
    = Ret tt (Server m b' (ev ++ concat (map (dispatch conn) (concat (map fst ps))))) /\ Z.of_nat (length b') = 65536.
Proof.
  intros Hfuel. induction ps as [|p ps IH]; intros b ev Hps Hb; cbn [map concat message_loop].
  { exists b. by rewrite app_nil_r. }
  apply Forall_cons in Hps as [(Hok & Ht & Hne & Hle) Hps].
  assert (Hr : recv BUFFER_SIZE (chunk_of p) (Server m b ev)
    = Ret (Z.of_nat (length (chunk_of p))) (Server m (chunk_of p ++ drop (length (chunk_of p)) b) ev)).
  { unfold recv. rewrite take_ge by (unfold BUFFER_SIZE; lia). reflexivity. }
  rewrite (bind_Ret _ _ _ _ _ Hr).
  rewrite (proj2 (Z.leb_gt _ _)) by (destruct (chunk_of p); [done|simpl; lia]). clear Hr.
  destruct (frame_loop_spec conn (snd p) (drop (length (chunk_of p)) b) m (fst p) fuel [] ev h Hok Ht) as (b1 & E1 & Hb1).
  { fold (chunk_of p). simpl. lia. }
  { pose proof (frames_fit (fst p) (snd p)) as Hf. fold (chunk_of p) in Hf. lia. }
  fold (chunk_of p) in E1. cbn [length app Nat.add] in E1, Hb1. change (Z.of_nat 0) with 0 in E1.
  rewrite app_assoc in E1, Hb1. fold (chunk_of p) in E1, Hb1. rewrite (bind_Ret _ _ _ _ _ E1).
  rewrite length_app, length_drop in Hb1. destruct (IH b1 (ev ++ concat (map (dispatch conn) (fst p))) Hps) as (b2 & E2 & Hb2); [lia|].
  exists b2. split; [|done]. rewrite E2, map_app, concat_app, <- app_assoc. done.
Qed.

(** Headers whose 64-bit length wraps around in [pos + header.payload_length]. *)
Definition wrapping_frame : list Z := [129; 127; 255; 255; 255; 255; 255; 255; 255; 246].
Definition wrapping_masked (key : list Z) : list Z := [129; 255; 255; 255; 255; 255; 255; 255; 255; 242] ++ key.

Lemma wrapping_loops conn fuel : forall m ev rest h,
  frame_loop fuel conn 10 0 h (Server m (wrapping_frame ++ rest) ev) = Stop NoFuel.
Proof.
  induction fuel as [|fuel IH]; intros m ev rest h; [done|]. cbn [frame_loop]. rewrite (proj2 (Z.ltb_lt 0 10)) by lia.
  erewrite (bind_Ret get) by reflexivity. cbn [buffer].
  assert (Hp : ws_parse_frame_header (slice (Z.to_nat 0) (Z.to_nat (10 - 0)) (wrapping_frame ++ rest)) h
    = (10, WsHeader 1 0 0 0 1 0 127 (masking_key h) 18446744073709551606)) by reflexivity.
  rewrite Hp. change (10 <? 0) with false. cbv iota. cbn [payload_length mask masking_key opcode].
  change (10 <? u64 (u32 (0 + 10) + 18446744073709551606)) with false. change (u32 (u32 (0 + 10) + 18446744073709551606)) with 0.
  change (negb (0 =? 0)) with false. cbv iota. rewrite (bind_Ret (ret tt) _ _ tt _ eq_refl).
  set (len := u32 18446744073709551606). assert (Hh : exists ev', handle_client_message conn (u32 (0 + 10)) len 1 (Server m (wrapping_frame ++ rest) ev)
    = Ret tt (Server m (wrapping_frame ++ rest) ev')).
  { clearbody len. unfold handle_client_message. erewrite (bind_Ret get) by reflexivity. change (1 =? WS_TEXT) with true. cbn [orb]. cbv iota.
    destruct (on_message conn); by eexists. }
  destruct Hh as [ev' Hh]. rewrite (bind_Ret _ _ _ _ _ Hh). apply IH.
Qed.

Lemma wrapping_faults conn fuel m ev rest h key :
  length key = 4%nat -> Z.of_nat (length (wrapping_masked key ++ rest)) = 65536 ->
  frame_loop (S fuel) conn 14 0 h (Server m (wrapping_masked key ++ rest) ev) = Stop Fault.
Proof.
  intros Hkey Hlen. destruct key as [|k0 [|k1 [|k2 [|k3 [|]]]]]; try done.
  cbn [frame_loop]. rewrite (proj2 (Z.ltb_lt 0 14)) by lia. erewrite (bind_Ret get) by reflexivity. cbn [buffer].
  assert (Hp : ws_parse_frame_header (slice (Z.to_nat 0) (Z.to_nat (14 - 0)) (wrapping_masked [k0; k1; k2; k3] ++ rest)) h
    = (14, WsHeader 1 0 0 0 1 1 127 [k0; k1; k2; k3] 18446744073709551602)) by reflexivity.
  rewrite Hp. change (14 <? 0) with false. cbv iota. cbn [payload_length mask masking_key opcode].
  change (14 <? u64 (u32 (0 + 14) + 18446744073709551602)) with false. change (negb (1 =? 0)) with true. cbv iota.
  apply bind_Stop. unfold mask_buffer. erewrite (bind_Ret get) by reflexivity. cbn [buffer].
  change (u32 (0 + 14)) with 14. change (u32 18446744073709551602) with 4294967282. rewrite Hlen. done.
Qed.

(** A server thread dispatches exactly the frames it has received as a whole.  For
    any chunks that [recv] delivers, each of them a sequence of frames as
    [ws_build_frame] writes them and possibly the beginning of another one, the
    handler is called once for each whole frame, in order, with the data unmasked, a
    ping is answered, a close is answered with its status; the beginning of a frame is
    dropped at the end of its chunk.  A length close to 2^64, however, wraps around in
    the bounds check: ten bytes make the thread serve the same frame for ever, and with
    the mask bit set [ws_mask_payload] leaves the buffer. *)
Theorem server_dispatches (conn : ws_connection_t) (ps : list (list frame * list Z)) (h : ws_frame_header_t) (m : client_manager_t)
    (b : list Z) (ev : list event) (fuel : nat) (key : list Z)
    (Hps : Forall chunk_ok ps) (Hb : Z.of_nat (length b) = 65536) (Hfuel : 65536 < Z.of_nat fuel) (Hkey : length key = 4%nat) :
  (exists b', message_loop fuel conn (map chunk_of ps) h (Server m b ev)
    = Ret tt (Server m b' (ev ++ concat (map (dispatch conn) (concat (map fst ps))))) /\ Z.of_nat (length b') = 65536)
  /\ (forall fuel', message_loop fuel' conn [wrapping_frame] h (Server m b ev) = Stop NoFuel)
  /\ message_loop fuel conn [wrapping_masked key] h (Server m b ev) = Stop Fault.
Proof.
  assert (Hrecv : forall c, c <> [] -> Z.of_nat (length c) <= 65536 -> recv BUFFER_SIZE c (Server m b ev)
    = Ret (Z.of_nat (length c)) (Server m (c ++ drop (length c) b) ev)).
  { intros c _ Hc. unfold recv. rewrite take_ge by (unfold BUFFER_SIZE; lia). reflexivity. }
  split_and!.
  - destruct (message_loop_spec fuel conn h m Hfuel ps b ev Hps Hb) as (b' & E & Hb'). by exists b'.
  - intros fuel'. cbn [message_loop]. rewrite (bind_Ret _ _ _ _ _ (Hrecv wrapping_frame ltac:(done) ltac:(simpl; lia))).
    apply bind_Stop, wrapping_loops.
  - cbn [message_loop]. assert (Hl : length (wrapping_masked key) = 14%nat) by (unfold wrapping_masked; simpl; lia).
    rewrite (bind_Ret _ _ _ _ _ (Hrecv (wrapping_masked key) ltac:(done) ltac:(lia))). rewrite Hl.
    destruct fuel as [|fuel]; [lia|]. apply bind_Stop, wrapping_faults; [done|]. rewrite length_app, length_drop, Hl. lia.
Qed.

(** A ping, a masked "hi", the first byte of a frame; then a close with status 1001. *)
Example server_dispatches_witness :
  let conn := WsConnection false true true in
  let ps := [([Frame 9 [] false [0; 0; 0; 0]; Frame 1 [104; 105] true [1; 2; 3; 4]], [129]); ([Frame 8 [3; 233] false [0; 0; 0; 0]], [])] in
  exists b', message_loop (Z.to_nat 65537) conn (map chunk_of ps) no_header (Server (ClientManager [] 0) (replicate (Z.to_nat 65536) 0) [])
    = Ret tt (Server (ClientManager [] 0) b' [SendPong; OnMessage [104; 105] 2; SendClose 1001; OnClose 1001]).
Proof.
  intros conn ps.
  assert (Hps : Forall chunk_ok ps).
  { apply Forall_cons; split; [|apply Forall_cons; split; [|constructor]]; unfold chunk_ok; split_and!.
    2: right; exists (Frame 1 [104; 105] false [0; 0; 0; 0]); split_and!; [split; [done|repeat constructor; lia]|by exists [2; 104; 105]|done|done].
    4: repeat constructor; lia. 4: by left. 1: repeat constructor; lia.
    all: done. }
  destruct (server_dispatches conn ps no_header (ClientManager [] 0) (replicate (Z.to_nat 65536) 0) [] (Z.to_nat 65537) [1; 2; 3; 4] Hps)
    as [(b' & E & _) _]; [rewrite length_replicate; lia|lia|done|].
  exists b'. exact E.
Defined.
