(* ===== verification/Protect.v ===== *)
(** * Protect

    src/src/mm_protect.c: the page fault handler and [mm_protect], over the areas of
    a process and the page replacement of Pra.  The page table is behind the calls
    [mmu_map_page], [mmu_get_pte] and [mmu_update_prot], which the sources do not
    define: a [pt_ops] on the same state as the [page_ops] of Pra, with their
    behaviour in [pt_laws].  The bits MMU_PERM_READ, _WRITE and _EXEC are parameters. *)
From stdpp Require Import strings.
From S2P Require Import Prelude Links Task WaitQueue Mutex Guarded Pra.

(** ** Data *)
Definition PAGE_SIZE : Z := 4096.
(** [~(PAGE_SIZE - 1)] as a [uint32_t]. *)
Definition PAGE_MASK : Z := 4294963200.
Definition PROT_READ : Z := 1.
Definition PROT_WRITE : Z := 2.
Definition PROT_EXEC : Z := 4.

Record vm_area_t : Type := VmArea { va_start : Z; va_end : Z; va_flags : Z; va_next : ptr }.
Definition set_va_flags (v : Z) (x : vm_area_t) : vm_area_t := VmArea (va_start x) (va_end x) v (va_next x).

Record pt_ops (Y : Type) : Type := PtOps {
  mmu_map_page : Z -> Z -> Z -> Y -> Y;
  (** [mmu_get_pte] returns an entry and its [present] bit is set. *)
  pte_present : Z -> Y -> bool;
  mmu_update_prot : Z -> Z -> Y -> Y
}.
Arguments mmu_map_page {Y} p va pa prot y.
Arguments pte_present {Y} p va y.
Arguments mmu_update_prot {Y} p va prot y.

(** The areas of the current task, the codes given to [task_exit], and the state of
    the page replacement with the page table. *)
Record mm_state (Y : Type) : Type := MmState {
  areas : list vm_area_t;
  mmap : ptr;
  exits : list Z;
  pra : kern * (mutex_t * (pra_context_t * Y))
}.
Arguments MmState {Y} areas mmap exits pra.
Arguments areas {Y} m.
Arguments mmap {Y} m.
Arguments exits {Y} m.
Arguments pra {Y} m.

(** ** Operations *)
Section Operations.
Context {Y : Type} (ops : page_ops Y) (pt : pt_ops Y) (MMU_PERM_READ MMU_PERM_WRITE MMU_PERM_EXEC : Z).

Definition in_pra {A} (c : Cmd (kern * (mutex_t * (pra_context_t * Y))) A) : Cmd (mm_state Y) A :=
  zoom (Lens pra (fun p s => MmState (areas s) (mmap s) (exits s) p)
          (fun _ _ => eq_refl) (fun s => match s with MmState _ _ _ _ => eq_refl end) (fun _ _ _ => eq_refl)) c.
Definition page_table (s : mm_state Y) : Y := snd (snd (snd (pra s))).
Definition in_table (f : Y -> Y) : Cmd (mm_state Y) unit :=
  modify (fun s => let '(k, (m, (c, y))) := pra s in MmState (areas s) (mmap s) (exits s) (k, (m, (c, f y)))).
(** [task_exit] of task.c is static and takes no argument: the function called here is
    not in the sources, and its argument is recorded. *)
Definition task_exit (code : Z) : Cmd (mm_state Y) unit :=
  modify (fun s => MmState (areas s) (mmap s) (exits s ++ [code]) (pra s)).

(** The walk of both functions: the first area with [test]. *)
Fixpoint find_area (fuel : nat) (test : vm_area_t -> bool) (p : ptr) : Cmd (mm_state Y) ptr :=
  match p with
  | None => ret None
  | Some i =>
      match fuel with
      | O => fail NoFuel
      | S fuel' =>
          let* s := get in
          let* vma := deref (areas s !! i) in
          if test vma then ret (Some i) else find_area fuel' test (va_next vma)
      end
  end.

Definition mmu_prot (prot : Z) : Z :=
  let new_prot := 0 in
  let new_prot := if negb (Z.land prot PROT_READ =? 0) then Z.lor new_prot MMU_PERM_READ else new_prot in
  let new_prot := if negb (Z.land prot PROT_WRITE =? 0) then Z.lor new_prot MMU_PERM_WRITE else new_prot in
  if negb (Z.land prot PROT_EXEC =? 0) then Z.lor new_prot MMU_PERM_EXEC else new_prot.

Definition in_area (addr : Z) (vma : vm_area_t) : bool := (va_start vma <=? addr) && (addr <? va_end vma).

Definition page_fault_handler (fuel pra_fuel : nat) (fault_addr error_code : Z) : Cmd (mm_state Y) unit :=
  let* s := get in
  let* v := find_area fuel (in_area fault_addr) (mmap s) in
  match v with
  | None => task_exit (-1)
  | Some i =>
      let* vma := deref (areas s !! i) in
      if negb (Z.land error_code 2 =? 0) && (Z.land (va_flags vma) PROT_WRITE =? 0) then task_exit (-1)
      else if (Z.land error_code 1 =? 0) && (Z.land (va_flags vma) PROT_READ =? 0) then task_exit (-1)
      else if negb (Z.land error_code 4 =? 0) && (Z.land (va_flags vma) PROT_EXEC =? 0) then task_exit (-1)
      else
        let* page := in_pra (pra_alloc_page ops pra_fuel) in
        if page =? 0 then task_exit (-1) else
        in_table (mmu_map_page pt (Z.land fault_addr PAGE_MASK) page (mmu_prot (va_flags vma)))
  end.

(** The loop over the pages; there are less than 2^20 of them. *)
Fixpoint protect_loop (fuel : nat) (addr end_ prot : Z) : Cmd (mm_state Y) unit :=
  if addr <? end_ then
    match fuel with
    | O => fail NoFuel
    | S fuel' =>
        let* s := get in
        (if pte_present pt addr (page_table s) then in_table (mmu_update_prot pt addr (mmu_prot prot)) else ret tt) ;;;
        protect_loop fuel' (u32 (addr + PAGE_SIZE)) end_ prot
    end
  else ret tt.

Definition mm_protect (fuel : nat) (addr length prot : Z) : Cmd (mm_state Y) Z :=
  let start := Z.land addr PAGE_MASK in
  let end_ := Z.land (u32 (addr + length + PAGE_SIZE - 1)) PAGE_MASK in
  let* s := get in
  let* v := find_area fuel (fun vma => (va_start vma <=? start) && (end_ <=? va_end vma)) (mmap s) in
  match v with
  | None => ret (-1)
  | Some i =>
      modify (fun s => MmState (alter (set_va_flags (u32 prot)) i (areas s)) (mmap s) (exits s) (pra s)) ;;;
      protect_loop (Z.to_nat 1048576) start end_ prot ;;;
      ret 0
  end.
End Operations.

(** ** What the page table promises

    [pte y va]: the frame and the protection of the page at [va], if present. *)
Record pt_laws {Y} (ops : page_ops Y) (pt : pt_ops Y) (pte : Y -> Z -> option (Z * Z)) : Prop := {
  pt_present : forall va y, pte_present pt va y = bool_decide (is_Some (pte y va));
  pt_map : forall va pa prot y b, pte (mmu_map_page pt va pa prot y) b = if decide (b = va) then Some (pa, prot) else pte y b;
  pt_update : forall va prot y b, pte (mmu_update_prot pt va prot y) b
    = if decide (b = va) then (fun e => (fst e, prot)) <$> pte y b else pte y b;
  pt_unmap : forall va y b, pte (mmu_unmap_page ops va y) b = if decide (b = Z.land va PAGE_MASK) then None else pte y b;
  pt_swap : forall va y, pte (snd (swap_out ops va y)) = pte y;
  pt_alloc : forall n y, pte (snd (mm_alloc_pages ops n y)) = pte y
}.

(** The address of a page. *)
Lemma page_align a : 0 <= a < 4294967296 -> Z.land a PAGE_MASK = 4096 * (a / 4096).
Proof.
  intros Ha. change PAGE_MASK with (Z.shiftl (Z.ones 20) 12). rewrite Z.mul_comm.
  change 4096 with (2 ^ 12). rewrite <- Z.shiftr_div_pow2, <- Z.shiftl_mul_pow2 by lia.
  apply Z.bits_inj'. intros n Hn. rewrite Z.land_spec, !Z.shiftl_spec by lia.
  destruct (Z.ltb_spec (n - 12) 0) as [Hlow|Hhigh].
  { rewrite !(Z.testbit_neg_r _ (n - 12)) by lia. by rewrite andb_false_r. }
  rewrite Z.testbit_ones, Z.shiftr_spec by lia. replace (n - 12 + 12) with n by lia.
  destruct (Z.ltb_spec (n - 12) 20) as [Hlt|Hge].
  - rewrite (proj2 (Z.leb_le 0 _)) by lia. by rewrite andb_true_r.
  - rewrite andb_false_r, andb_false_r. symmetry. rewrite Z.bits_above_log2; [done|lia|].
    destruct (decide (a = 0)) as [->|]; [cbn; lia|]. apply Z.log2_lt_pow2; [lia|].
    apply Z.lt_le_trans with (2 ^ 32); [lia|]. apply Z.pow_le_mono_r; lia.
Qed.

Definition AreaLink : Link vm_area_t :=
  {| lget := va_next; lset := fun p x => VmArea (va_start x) (va_end x) (va_flags x) p; lget_lset := fun _ _ => eq_refl |}.
(** The first of the areas [l] with [test]. *)
Definition first_area (tbl : list vm_area_t) (test : vm_area_t -> bool) (l : list nat) : option (nat * vm_area_t) :=
  head (omap (fun i => x ← tbl !! i; if test x then Some (i, x) else None) l).

Section Laws.
Context {Y : Type} (ops : page_ops Y) (pt : pt_ops Y) (MMU_PERM_READ MMU_PERM_WRITE MMU_PERM_EXEC : Z).
Context (pte : Y -> Z -> option (Z * Z)) (laws : pt_laws ops pt pte).

Lemma find_area_spec test (s : mm_state Y) : forall l fuel p,
  linked AreaLink (areas s) p l -> (length l <= fuel)%nat ->
  find_area fuel test p s = Ret (fst <$> first_area (areas s) test l) s.
Proof.
  induction l as [|i l IH]; intros fuel p Hl Hf; unfold linked in *; cbn [chain] in Hl.
  - subst p. by destruct fuel.
  - destruct Hl as (-> & x & Hx & Hc). destruct fuel as [|fuel]; [simpl in Hf; lia|]. cbn [find_area].
    erewrite (bind_Ret get) by reflexivity. rewrite Hx. erewrite (bind_Ret (deref _)) by reflexivity.
    unfold first_area. cbn [omap list_omap]. rewrite Hx. cbn [mbind option_bind]. destruct (test x); [done|].
    apply IH; [done|simpl in Hf; lia].
Qed.

Lemma first_area_Some tbl test l i x : first_area tbl test l = Some (i, x) -> i ∈ l /\ tbl !! i = Some x /\ test x = true.
Proof.
  unfold first_area. intros H. assert (Hin : (i, x) ∈ omap (fun i => x ← tbl !! i; if test x then Some (i, x) else None) l).
  { destruct (omap _ l) as [|e r]; [done|]. simpl in H. injection H as ->. left. }
  apply list_elem_of_omap in Hin as (j & Hj & E). destruct (tbl !! j) as [z|] eqn:Ez; [|done]. cbn in E.
  destruct (test z) eqn:Et; [|done]. injection E as -> ->. done.
Qed.

Lemma bring_in_pte v d : pte (snd (snd (bring_in ops v d))) = pte (snd d).
Proof using laws.
  unfold bring_in. pose proof (pt_alloc _ _ _ laws 1 (snd d)) as Ha. destruct (mm_alloc_pages ops 1 (snd d)) as [p y'].
  by destruct (p =? 0).
Qed.

Lemma evict_pte v x d b :
  pte (snd (snd (evict ops v x d))) b = pte (snd d) b \/ (b = Z.land (vaddr x) PAGE_MASK /\ pte (snd (snd (evict ops v x d))) b = None).
Proof using laws.
  unfold evict. assert (Hsw : pte (snd (if dirty x =? 0 then (1, snd d) else swap_out ops (vaddr x) (snd d))) = pte (snd d))
    by (destruct (dirty x =? 0); [done|apply (pt_swap _ _ _ laws)]).
  destruct (if dirty x =? 0 then (1, snd d) else swap_out ops (vaddr x) (snd d)) as [sw y1]. cbn [snd] in Hsw.
  destruct (sw =? 0); cbn [fst snd]; [left; by rewrite Hsw|]. rewrite bring_in_pte. cbn [snd].
  rewrite (pt_unmap _ _ _ laws). case_decide; [by right|left; by rewrite Hsw].
Qed.

(** Taking a page leaves every translation but that of the address of a victim. *)
Lemma pra_alloc_pte fuel k m c y :
  pra_wf c -> refs_ok c -> (length (frames c) < fuel)%nat -> locked m = 0 -> waiting_tasks m = None ->
  exists page k' m' c' y', pra_alloc_page ops fuel (k, (m, (c, y))) = Ret page (k', (m', (c', y')))
  /\ forall b, pte y' b = pte y b \/
       (find_vaddr 0 (frames c) = None /\ pte y' b = None /\ exists x, x ∈ frames c /\ b = Z.land (vaddr x) PAGE_MASK).
Proof using laws.
  intros Hwf Hrefs Hf Hl Hw. pose proof (pra_alloc_body_spec ops fuel c y Hwf Hrefs Hf) as H. unfold pra_alloc_page.
  destruct (find_vaddr 0 (frames c)) as [v|].
  - rewrite (guarded_free _ k m (c, y) (fst (bring_in ops v (c, y))) (snd (bring_in ops v (c, y)))) by done.
    pose proof (bring_in_pte v (c, y)) as Hp. destruct (bring_in ops v (c, y)) as [page [c' y']]. cbn [fst snd] in *.
    do 5 eexists. split; [reflexivity|]. intros b. left. by rewrite Hp.
  - destruct H as (v & x & c1 & Hx & _ & H).
    rewrite (guarded_free _ k m (c, y) (fst (evict ops v x (c1, y))) (snd (evict ops v x (c1, y)))) by done.
    pose proof (evict_pte v x (c1, y)) as Hp. destruct (evict ops v x (c1, y)) as [page [c' y']]. cbn [fst snd] in *.
    do 5 eexists. split; [reflexivity|]. intros b. destruct (Hp b) as [He|[-> He]]; [by left|right].
    split; [done|]. split; [done|]. exists x. split; [by eapply list_elem_of_lookup_2|done].
Qed.

(** The access that [error_code] reports is one the area forbids. *)
Definition forbidden (error_code flags : Z) : Prop :=
  (Z.land error_code 2 <> 0 /\ Z.land flags PROT_WRITE = 0) \/
  (Z.land error_code 1 = 0 /\ Z.land flags PROT_READ = 0) \/
  (Z.land error_code 4 <> 0 /\ Z.land flags PROT_EXEC = 0).

Lemma fault_branches {S} (c k : Cmd S unit) error_code flags s :
  (if negb (Z.land error_code 2 =? 0) && (Z.land flags PROT_WRITE =? 0) then c
   else if (Z.land error_code 1 =? 0) && (Z.land flags PROT_READ =? 0) then c
   else if negb (Z.land error_code 4 =? 0) && (Z.land flags PROT_EXEC =? 0) then c else k) s = c s /\ forbidden error_code flags
  \/ (if negb (Z.land error_code 2 =? 0) && (Z.land flags PROT_WRITE =? 0) then c
   else if (Z.land error_code 1 =? 0) && (Z.land flags PROT_READ =? 0) then c
   else if negb (Z.land error_code 4 =? 0) && (Z.land flags PROT_EXEC =? 0) then c else k) s = k s /\ ~ forbidden error_code flags.
Proof.
  unfold forbidden.
  destruct (Z.eqb_spec (Z.land error_code 2) 0), (Z.eqb_spec (Z.land flags PROT_WRITE) 0), (Z.eqb_spec (Z.land error_code 1) 0),
    (Z.eqb_spec (Z.land flags PROT_READ) 0), (Z.eqb_spec (Z.land error_code 4) 0), (Z.eqb_spec (Z.land flags PROT_EXEC) 0);
    cbn [negb andb]; naive_solver.
Qed.

Definition new_entry (prot : Z) (e : option (Z * Z)) : option (Z * Z) :=
  (fun f => (fst f, mmu_prot MMU_PERM_READ MMU_PERM_WRITE MMU_PERM_EXEC prot)) <$> e.

Lemma protect_loop_spec prot j A p ex k m c fuel : forall i y,
  0 <= i -> j <= 1048575 -> j - i <= Z.of_nat fuel ->
  exists y', protect_loop pt MMU_PERM_READ MMU_PERM_WRITE MMU_PERM_EXEC fuel (4096 * i) (4096 * j) prot (MmState A p ex (k, (m, (c, y))))
    = Ret tt (MmState A p ex (k, (m, (c, y'))))
  /\ forall b, pte y' b = if bool_decide (4096 * i <= b < 4096 * j /\ b mod 4096 = 0) then new_entry prot (pte y b) else pte y b.
Proof using laws.
  induction fuel as [|fuel IH]; intros i y Hi Hj Hf; cbn [protect_loop]; destruct (Z.ltb_spec (4096 * i) (4096 * j)) as [Hlt|Hge]; try lia.
  1,3: exists y; split; [done|]; intros b; rewrite bool_decide_eq_false_2 by lia; done.
  erewrite (bind_Ret get) by reflexivity. unfold page_table at 1. cbn [pra snd].
  assert (Hstep : exists y1, (if pte_present pt (4096 * i) y
      then in_table (mmu_update_prot pt (4096 * i) (mmu_prot MMU_PERM_READ MMU_PERM_WRITE MMU_PERM_EXEC prot)) else ret tt)
      (MmState A p ex (k, (m, (c, y)))) = Ret tt (MmState A p ex (k, (m, (c, y1))))
    /\ forall b, pte y1 b = if decide (b = 4096 * i) then new_entry prot (pte y b) else pte y b).
  { rewrite (pt_present _ _ _ laws). case_bool_decide as Hp.
    - eexists. split; [reflexivity|]. intros b. apply (pt_update _ _ _ laws).
    - exists y. split; [done|]. intros b. case_decide as Hb; [|done]. subst b. unfold new_entry.
      destruct (pte y (4096 * i)); [exfalso; eauto|done]. }
  destruct Hstep as (y1 & E & Hy1). rewrite (bind_Ret _ _ _ _ _ E). unfold PAGE_SIZE. rewrite u32_small by lia.
  replace (4096 * i + 4096) with (4096 * (i + 1)) by lia.
  destruct (IH (i + 1) y1) as (y2 & E2 & Hy2); [lia..|]. exists y2. split; [exact E2|]. intros b. rewrite Hy2, Hy1.
  assert (Hmod : b mod 4096 = 0 -> 4096 * i <= b -> b = 4096 * i \/ 4096 * (i + 1) <= b).
  { intros Hb Hle. pose proof (Z.div_mod b 4096 ltac:(lia)). destruct (decide (b = 4096 * i)); [by left|right]. lia. }
  case_decide as Hb.
  - subst b. rewrite bool_decide_eq_false_2 by lia. rewrite bool_decide_eq_true_2; [done|]. split; [lia|]. rewrite Z.mul_comm. apply Z.mod_mul. lia.
  - case_bool_decide as H1; case_bool_decide as H2; try done; exfalso; [|]; destruct H1 || destruct H2; lia.
Qed.

Lemma fault_exits fuel pf fault err (s : mm_state Y) l :
  linked AreaLink (areas s) (mmap s) l -> (length l <= fuel)%nat ->
  match first_area (areas s) (in_area fault) l with Some (_, x) => forbidden err (va_flags x) | None => True end ->
  page_fault_handler ops pt MMU_PERM_READ MMU_PERM_WRITE MMU_PERM_EXEC fuel pf fault err s
  = Ret tt (MmState (areas s) (mmap s) (exits s ++ [-1]) (pra s)).
Proof.
  intros Hl Hf Hx. unfold page_fault_handler. erewrite (bind_Ret get) by reflexivity.
  rewrite (bind_Ret _ _ _ _ _ (find_area_spec (in_area fault) s l fuel (mmap s) Hl Hf)).
  destruct (first_area (areas s) (in_area fault) l) as [[i x]|] eqn:Ea; cbn [fmap option_fmap option_map fst]; [|done].
  apply first_area_Some in Ea as (_ & Hi & _). rewrite Hi. erewrite (bind_Ret (deref _)) by reflexivity.
  match goal with |- (if ?a then ?c else if ?b then _ else if ?d then _ else ?k) _ = _ =>
    destruct (fault_branches c k err (va_flags x) s) as [[-> _]|[_ Hn]] end; [done|by destruct Hn].
Qed.

Lemma first_area_flags test A l i x v :
  (forall z, test (set_va_flags v z) = test z) -> first_area A test l = Some (i, x) -> NoDup l ->
  first_area (alter (set_va_flags v) i A) test l = Some (i, set_va_flags v x).
Proof.
  intros Ht. unfold first_area. induction l as [|j l IH]; cbn [omap list_omap]; [done|]. intros H Hnd.
  apply NoDup_cons in Hnd as [Hj Hnd]. destruct (decide (j = i)) as [->|Hne].
  - rewrite list_lookup_alter_eq. destruct (A !! i) as [z|]; cbn [mbind option_bind fmap option_fmap option_map] in *.
    + rewrite Ht. destruct (test z); [simpl in *; by simplify_eq|]. simpl in H. exfalso.
      apply Hj. apply (first_area_Some A test l i x) in H. by destruct H.
    + exfalso. simpl in H. apply Hj. apply (first_area_Some A test l i x) in H. by destruct H.
  - rewrite list_lookup_alter_ne by done. destruct (A !! j) as [z|]; cbn [mbind option_bind] in *; [|by apply IH].
    destruct (test z); [simpl in *; by simplify_eq|by apply IH].
Qed.
End Laws.

(** ** Faults and protection *)


(** [mm_protect] gives exactly the present pages of the range the new protection and
    keeps their frames, provided one area contains the whole range, and changes nothing
    and returns -1 otherwise.  The flags it changes are those of the whole area: after
    it, a fault anywhere in the area that the new flags forbid ends the task, although
    the translations outside of the range are the old ones. *)
Theorem mm_protect_area {Y} (ops : page_ops Y) (pt : pt_ops Y) (r w e : Z) (pte : Y -> Z -> option (Z * Z)) (laws : pt_laws ops pt pte)
    (fuel pf : nat) (l : list nat) (A : list vm_area_t) (p : ptr) (ex : list Z) (k : kern) (m : mutex_t) (c : pra_context_t) (y : Y)
    (addr len prot : Z)
    (Hl : linked AreaLink A p l) (Hnd : NoDup l) (Hf : (length l <= fuel)%nat) (Ha : 0 <= addr < 4294967296) (Hlen : 0 <= len < 4294967296) :
  let s := MmState A p ex (k, (m, (c, y))) in
  let start := 4096 * (addr / 4096) in
  let end_ := 4096 * (u32 (addr + len + 4095) / 4096) in
  match first_area A (fun vma => (va_start vma <=? start) && (end_ <=? va_end vma)) l with
  | None => mm_protect pt r w e fuel addr len prot s = Ret (-1) s
  | Some (i, vma) => exists y',
      let s' := MmState (alter (set_va_flags (u32 prot)) i A) p ex (k, (m, (c, y'))) in
      mm_protect pt r w e fuel addr len prot s = Ret 0 s' /\
      (forall b, pte y' b = if bool_decide (start <= b < end_ /\ b mod 4096 = 0)
                            then new_entry r w e prot (pte y b) else pte y b) /\
      (forall fault err, first_area A (in_area fault) l = Some (i, vma) -> forbidden err (u32 prot) ->
         page_fault_handler ops pt r w e fuel pf fault err s' = Ret tt (MmState (areas s') p (ex ++ [-1]) (pra s')))
  end.
Proof.
  intros s start end_. set (test := fun vma => _ && _).
  assert (Hfind : find_area fuel (fun vma => (va_start vma <=? Z.land addr PAGE_MASK) && (Z.land (u32 (addr + len + PAGE_SIZE - 1)) PAGE_MASK <=? va_end vma)) (mmap s) s
    = Ret (fst <$> first_area A test l) s).
  { rewrite (page_align addr), page_align by (done || apply u32_range). unfold PAGE_SIZE.
    replace (addr + len + 4096 - 1) with (addr + len + 4095) by lia. by apply find_area_spec. }
  destruct (first_area A test l) as [[i vma]|] eqn:Ea.
  - pose proof (first_area_Some A test l i vma Ea) as (Hil & Hi & _).
    destruct (protect_loop_spec ops pt r w e pte laws prot (u32 (addr + len + 4095) / 4096) (alter (set_va_flags (u32 prot)) i A) p ex k m c
      (Z.to_nat 1048576) (addr / 4096) y) as (y' & E & Hy').
    { apply Z.div_pos; lia. }
    { pose proof (u32_range (addr + len + 4095)). apply Z.lt_succ_r. apply Z.div_lt_upper_bound; lia. }
    { pose proof (u32_range (addr + len + 4095)). rewrite Z2Nat.id by lia. pose proof (Z.div_pos addr 4096 ltac:(lia) ltac:(lia)).
      assert (u32 (addr + len + 4095) / 4096 < 1048576) by (apply Z.div_lt_upper_bound; lia). lia. }
    exists y'. cbv zeta. split; [|split].
    + unfold mm_protect. erewrite (bind_Ret get) by reflexivity. rewrite (bind_Ret _ _ _ _ _ Hfind).
      cbn [fmap option_fmap option_map fst]. erewrite bind_Ret by reflexivity. cbn [areas mmap exits pra s].
      rewrite (page_align addr), page_align by (done || apply u32_range). unfold PAGE_SIZE.
      replace (addr + len + 4096 - 1) with (addr + len + 4095) by lia. by rewrite (bind_Ret _ _ _ _ _ E).
    + exact Hy'.
    + intros fault err Hfa Hforb.
      apply (fault_exits ops pt r w e fuel pf fault err (MmState (alter (set_va_flags (u32 prot)) i A) p ex (k, (m, (c, y')))) l); cbn [areas mmap].
      * unfold linked. assert (Hins : alter (set_va_flags (u32 prot)) i A = <[i := set_va_flags (u32 prot) vma]> A).
        { symmetry. unfold linked. apply list_eq. intros j. destruct (decide (j = i)) as [->|Hne].
          - rewrite list_lookup_insert_eq by (by eapply lookup_lt_Some). rewrite list_lookup_alter_eq, Hi. done.
          - by rewrite list_lookup_insert_ne, list_lookup_alter_ne by done. }
        rewrite Hins. by apply chain_field with vma.
      * done.
      * rewrite (first_area_flags (in_area fault) A l i vma (u32 prot)) by done. done.
  - unfold mm_protect. erewrite (bind_Ret get) by reflexivity. by rewrite (bind_Ret _ _ _ _ _ Hfind).
Qed.

(** *** A page table in a finite map, and an allocator with one page to give *)
Definition map_page_ops : page_ops (gmap Z (Z * Z)) := {|
  swap_out := fun _ y => (1, y);
  mmu_unmap_page := fun va y => delete (Z.land va PAGE_MASK) y;
  mm_alloc_pages := fun _ y => (20480, y);
  mm_free_pages := fun _ _ y => y |}.
Definition map_pt_ops : pt_ops (gmap Z (Z * Z)) := {|
  mmu_map_page := fun va pa prot y => <[va := (pa, prot)]> y;
  pte_present := fun va y => bool_decide (is_Some (y !! va));
  mmu_update_prot := fun va prot y => alter (fun e => (fst e, prot)) va y |}.

Lemma map_pt_laws : pt_laws map_page_ops map_pt_ops (fun y va => y !! va).
Proof.
  split; try done; cbn.
  - intros va pa prot y b. case_decide as H; [subst; by rewrite lookup_insert_eq|by rewrite lookup_insert_ne].
  - intros va prot y b. case_decide as H; [subst; by rewrite lookup_alter_eq|by rewrite lookup_alter_ne].
  - intros va y b. case_decide as H; [subst; by rewrite lookup_delete_eq|by rewrite lookup_delete_ne].
Qed.


(** The first of two pages made read-only. *)
Example mm_protect_area_witness :
  exists y', mm_protect map_pt_ops 1 2 4 1 65536 4096 1
      (MmState [VmArea 65536 73728 3 None] (Some 0%nat) [] (two_tasks 0, (mutex_init "pra_lock", (two_frames PRA_FIFO, {[65536 := (8192, 3); 69632 := (12288, 3)]}))))
    = Ret 0 (MmState [VmArea 65536 73728 1 None] (Some 0%nat) [] (two_tasks 0, (mutex_init "pra_lock", (two_frames PRA_FIFO, y'))))
  /\ y' !! 65536 = Some (8192, 1) /\ y' !! 69632 = Some (12288, 3).
Proof.
  pose proof (mm_protect_area map_page_ops map_pt_ops 1 2 4 (fun y va => y !! va) map_pt_laws 1 3 [0%nat]
    [VmArea 65536 73728 3 None] (Some 0%nat) [] (two_tasks 0) (mutex_init "pra_lock") (two_frames PRA_FIFO) {[65536 := (8192, 3); 69632 := (12288, 3)]}
    65536 4096 1) as H.
  cbv zeta in H. specialize (H ltac:(repeat econstructor) ltac:(apply NoDup_singleton) ltac:(simpl; lia) ltac:(lia) ltac:(lia)).
  match type of H with context [first_area ?A ?t ?l] => let v := eval vm_compute in (first_area A t l) in replace (first_area A t l) with v in H by (by vm_compute) end. cbv beta iota in H.
  destruct H as (y' & E & Hy & _). exists y'. split; [exact E|]. rewrite !Hy. split; by vm_compute.
Defined.
