(* ===== verification/SharedMem.v ===== *)
(** * SharedMem

    src/src/shared_mem.c: the list of shared memory segments.  The list has a mutex,
    and so has each segment; [focus] runs an operation on the mutex of one segment.
    The allocators of physical and virtual pages and the page table are parameters,
    with the laws of Protect. *)
From stdpp Require Import strings.
From S2P Require Import Prelude Links Task WaitQueue Mutex Guarded Pra Protect.

(** ** Data *)
(** The fields the code uses; [key] and [phys_addr] are not in the structure that ipc.h
    declares. *)
Record shm_segment_t : Type := ShmSegment {
  seg_key : Z;
  seg_size : Z;
  phys_addr : Z;
  ref_count : Z;
  seg_lock : mutex_t;
  seg_next : ptr
}.
Definition set_ref_count (v : Z) (x : shm_segment_t) : shm_segment_t :=
  ShmSegment (seg_key x) (seg_size x) (phys_addr x) v (seg_lock x) (seg_next x).
Definition set_seg_lock (v : mutex_t) (x : shm_segment_t) : shm_segment_t :=
  ShmSegment (seg_key x) (seg_size x) (phys_addr x) (ref_count x) v (seg_next x).

Record virt_ops (Y : Type) : Type := VirtOps {
  mm_alloc_virt_pages : Z -> Y -> Z * Y;
  mm_free_virt_pages : Z -> Z -> Y -> Y
}.
Arguments mm_alloc_virt_pages {Y} v n y.
Arguments mm_free_virt_pages {Y} v a n y.

(** The segments allocated so far, the head of the list, the two counters of
    [ipc_stats], the address in [current->mm->shm_areas] (the field is declared and
    assigned nowhere), and the memory manager. *)
Record shm (Y : Type) : Type := Shm {
  segs : list shm_segment_t;
  shm_segments : ptr;
  n_segments : Z;
  n_attaches : Z;
  shm_areas : option Z;
  world : Y
}.
Arguments Shm {Y} segs shm_segments n_segments n_attaches shm_areas world.
Arguments segs {Y} s.
Arguments shm_segments {Y} s.
Arguments n_segments {Y} s.
Arguments n_attaches {Y} s.
Arguments shm_areas {Y} s.
Arguments world {Y} s.

(** ** One mutex of many *)
Section Focus.
Context {S T : Type} (get_part : S -> option T) (set_part : T -> S -> S).
Fixpoint pfocus {A} (s : S) (p : prog T A) : prog S A :=
  match p with
  | Ret a t => Ret a (set_part t s)
  | Yield t k => Yield (set_part t s) (fun s' => match get_part s' with Some t' => pfocus s' (k t') | None => Stop Fault end)
  | Stop e => Stop e
  end.
Definition focus {A} (c : Cmd T A) : Cmd S A :=
  fun s => match get_part s with Some t => pfocus s (c t) | None => Stop Fault end.

Lemma focus_Ret {A} (c : Cmd T A) s t a t' : get_part s = Some t -> c t = Ret a t' -> focus c s = Ret a (set_part t' s).
Proof. intros Hg Hc. unfold focus. by rewrite Hg, Hc. Qed.
End Focus.

(** ** Operations *)
Section Operations.
Context {Y : Type} (ops : page_ops Y) (pt : pt_ops Y) (vm : virt_ops Y) (PERMISSIONS : Z).
Abbreviation state := (kern * (mutex_t * shm Y))%type.

Definition call_world {A} (f : Y -> A * Y) : Cmd (shm Y) A :=
  fun s => let r := f (world s) in
  Ret (fst r) (Shm (segs s) (shm_segments s) (n_segments s) (n_attaches s) (shm_areas s) (snd r)).
Definition put_seg (i : nat) (f : shm_segment_t -> shm_segment_t) : Cmd (shm Y) unit :=
  modify (fun s => Shm (alter f i (segs s)) (shm_segments s) (n_segments s) (n_attaches s) (shm_areas s) (world s)).
Definition get_seg (i : nat) : Cmd (shm Y) shm_segment_t := let* s := get in deref (segs s !! i).
Definition in_shm {A} (c : Cmd (shm Y) A) : Cmd state A := zoom g_data c.
Definition with_segments {A} (c : Cmd (kern * mutex_t) A) : Cmd state A := zoom g_mutex c.
Definition with_seg {A} (i : nat) (c : Cmd (kern * mutex_t) A) : Cmd state A :=
  focus (fun s => (fun x => (fst s, seg_lock x)) <$> segs (snd (snd s)) !! i)
    (fun t s => let d := snd (snd s) in
       (fst t, (fst (snd s), Shm (alter (set_seg_lock (snd t)) i (segs d)) (shm_segments d) (n_segments d) (n_attaches d) (shm_areas d) (world d)))) c.

Fixpoint find_from (fuel : nat) (key : Z) (seg : ptr) : Cmd (shm Y) ptr :=
  match seg with
  | None => ret None
  | Some i =>
      match fuel with
      | O => fail NoFuel
      | S fuel' => let* x := get_seg i in if seg_key x =? key then ret (Some i) else find_from fuel' key (seg_next x)
      end
  end.
Definition find_shm_segment (fuel : nat) (key : Z) : Cmd (shm Y) ptr :=
  let* s := get in find_from fuel key (shm_segments s).

(** [malloc_ok]: whether [malloc] returns a structure, which then is the next one. *)
Definition create_body (fuel : nat) (malloc_ok : bool) (key size : Z) : Cmd (shm Y) Z :=
  let* seg := find_shm_segment fuel key in
  match seg with
  | Some _ => ret (-1)
  | None =>
      if negb malloc_ok then ret (-1) else
      let* p := call_world (mm_alloc_pages ops (size / PAGE_SIZE + 1)) in
      if p =? 0 then ret (-1) else
      modify (fun s => Shm (segs s ++ [ShmSegment key size p 0 (mutex_init "shm_lock") (shm_segments s)]) (Some (length (segs s)))
                (u32 (n_segments s + 1)) (n_attaches s) (shm_areas s) (world s)) ;;;
      ret 0
  end.
Definition shm_create (fuel : nat) (malloc_ok : bool) (key size : Z) : Cmd state Z :=
  guarded (create_body fuel malloc_ok key size).

(** The loops over the pages of a segment; [offset] has 32 bits. *)
Fixpoint map_loop (fuel : nat) (size virt phys offset : Z) : Cmd (shm Y) unit :=
  if offset <? size then
    match fuel with
    | O => fail NoFuel
    | S fuel' =>
        call_world (fun y => (tt, mmu_map_page pt (u32 (virt + offset)) (u32 (phys + offset)) PERMISSIONS y)) ;;;
        map_loop fuel' size virt phys (u32 (offset + PAGE_SIZE))
    end
  else ret tt.
Fixpoint unmap_loop (fuel : nat) (size virt offset : Z) : Cmd (shm Y) unit :=
  if offset <? size then
    match fuel with
    | O => fail NoFuel
    | S fuel' =>
        call_world (fun y => (tt, mmu_unmap_page ops (u32 (virt + offset)) y)) ;;;
        unmap_loop fuel' size virt (u32 (offset + PAGE_SIZE))
    end
  else ret tt.
(** More than the pages of any segment the loops end on. *)
Definition PAGES : nat := Z.to_nat 1048576.

Definition attach_body (i : nat) : Cmd (shm Y) Z :=
  let* x := get_seg i in
  let* virt_addr := call_world (mm_alloc_virt_pages vm (seg_size x / PAGE_SIZE + 1)) in
  if virt_addr =? 0 then ret 0 else
  map_loop PAGES (seg_size x) virt_addr (phys_addr x) 0 ;;;
  put_seg i (fun x => set_ref_count (u32 (ref_count x + 1)) x) ;;;
  modify (fun s => Shm (segs s) (shm_segments s) (n_segments s) (u32 (n_attaches s + 1)) (shm_areas s) (world s)) ;;;
  ret virt_addr.
Definition shm_attach (fuel : nat) (shmid : Z) : Cmd state Z :=
  let* seg := in_shm (find_shm_segment fuel shmid) in
  match seg with
  | None => ret 0
  | Some i =>
      with_seg i mutex_lock ;;;
      let* r := in_shm (attach_body i) in
      with_seg i mutex_unlock ;;;
      ret r
  end.

(** The condition of the walk does not look at the segment. *)
Fixpoint find_attached (fuel : nat) (addr : Z) (seg : ptr) : Cmd (shm Y) ptr :=
  match seg with
  | None => ret None
  | Some i =>
      match fuel with
      | O => fail NoFuel
      | S fuel' =>
          let* s := get in
          if bool_decide (shm_areas s = Some addr) then ret (Some i)
          else let* x := get_seg i in find_attached fuel' addr (seg_next x)
      end
  end.
Definition detach_body (i : nat) (addr : Z) : Cmd (shm Y) unit :=
  let* x := get_seg i in
  unmap_loop PAGES (seg_size x) addr 0 ;;;
  call_world (fun y => (tt, mm_free_virt_pages vm addr (seg_size x / PAGE_SIZE + 1) y)) ;;;
  put_seg i (fun x => set_ref_count (u32 (ref_count x - 1)) x).
Definition shm_detach (fuel : nat) (addr : Z) : Cmd state Z :=
  with_segments mutex_lock ;;;
  let* s := get in
  let* seg := in_shm (find_attached fuel addr (shm_segments (snd (snd s)))) in
  match seg with
  | None => with_segments mutex_unlock ;;; ret (-1)
  | Some i =>
      with_seg i mutex_lock ;;;
      in_shm (detach_body i addr) ;;;
      with_seg i mutex_unlock ;;;
      with_segments mutex_unlock ;;;
      ret 0
  end.
End Operations.

(** ** The segments *)
Definition SegLink : Link shm_segment_t :=
  {| lget := seg_next; lset := fun p x => ShmSegment (seg_key x) (seg_size x) (phys_addr x) (ref_count x) (seg_lock x) p;
     lget_lset := fun _ _ => eq_refl |}.
Definition listed {Y} (d : shm Y) (l : list nat) : Prop := linked SegLink (segs d) (shm_segments d) l.
(** The first segment of the list with a key. *)
Definition by_key (tbl : list shm_segment_t) (key : Z) (l : list nat) : option nat :=
  head (filter (fun i => seg_key <$> tbl !! i = Some key) l).
Definition with_world {Y} (d : shm Y) (y : Y) : shm Y := Shm (segs d) (shm_segments d) (n_segments d) (n_attaches d) (shm_areas d) y.
(** The page of a segment of [size] bytes at [virt] that [b] is the address of. *)
Definition page_of (virt size b : Z) : bool := bool_decide (virt <= b < virt + size /\ b mod 4096 = 0).

Section Laws.
Context {Y : Type} (ops : page_ops Y) (pt : pt_ops Y) (vm : virt_ops Y) (PERMISSIONS : Z).
Context (pte : Y -> Z -> option (Z * Z)) (laws : pt_laws ops pt pte).

Lemma find_from_spec key (d : shm Y) : forall l fuel p,
  linked SegLink (segs d) p l -> (length l <= fuel)%nat -> find_from fuel key p d = Ret (by_key (segs d) key l) d.
Proof.
  induction l as [|i l IH]; intros fuel p Hl Hf; unfold linked in *; cbn [chain] in Hl.
  - subst p. by destruct fuel.
  - destruct Hl as (-> & x & Hx & Hc). destruct fuel as [|fuel]; [simpl in Hf; lia|]. cbn [find_from].
    assert (Hg : get_seg i d = Ret x d) by (unfold get_seg; erewrite bind_Ret by reflexivity; by rewrite Hx).
    rewrite (bind_Ret _ _ _ _ _ Hg). unfold by_key. rewrite filter_cons, Hx. cbn [fmap option_fmap option_map].
    destruct (Z.eqb_spec (seg_key x) key) as [->|Hne].
    + by rewrite decide_True.
    + rewrite decide_False by congruence. apply IH; [done|simpl in Hf; lia].
Qed.

Lemma aligned_in_page virt i b : virt mod 4096 = 0 -> b mod 4096 = 0 -> virt + 4096 * i <= b -> b <> virt + 4096 * i -> virt + 4096 * (i + 1) <= b.
Proof.
  intros Hv Hb Hle Hne. pose proof (Z.div_mod b 4096 ltac:(lia)). pose proof (Z.div_mod virt 4096 ltac:(lia)). lia.
Qed.

Lemma map_loop_spec size virt phys d fuel : forall i y,
  virt mod 4096 = 0 -> 0 <= virt -> virt + size <= 4294967296 -> 0 <= phys -> phys + size <= 4294967296 -> size <= 4294963200 -> 0 <= i ->
  size - 4096 * i <= 4096 * Z.of_nat fuel ->
  exists y', map_loop pt PERMISSIONS fuel size virt phys (4096 * i) (with_world d y) = Ret tt (with_world d y')
  /\ forall b, pte y' b = if bool_decide (virt + 4096 * i <= b < virt + size /\ b mod 4096 = 0) then Some (phys + (b - virt), PERMISSIONS) else pte y b.
Proof using laws.
  intros i y Hv Hv0 Hvs Hp0 Hps Hs. revert i y. induction fuel as [|fuel IH]; intros i y Hi Hf; cbn [map_loop];
    destruct (Z.ltb_spec (4096 * i) size) as [Hlt|Hge]; try lia.
  1,3: exists y; split; [done|]; intros b; rewrite bool_decide_eq_false_2 by lia; done.
  erewrite bind_Ret by reflexivity. cbn [fst snd world with_world segs shm_segments n_segments n_attaches shm_areas]. unfold PAGE_SIZE.
  rewrite (u32_small (4096 * i + 4096)), (u32_small (virt + 4096 * i)), (u32_small (phys + 4096 * i)) by lia.
  replace (4096 * i + 4096) with (4096 * (i + 1)) by lia.
  set (y1 := mmu_map_page pt (virt + 4096 * i) (phys + 4096 * i) PERMISSIONS y).
  destruct (IH (i + 1) y1) as (y2 & E & Hy2); [lia..|]. exists y2. split; [exact E|]. intros b. rewrite Hy2. unfold y1. rewrite (pt_map _ _ _ laws).
  case_decide as Hb.
  - subst b. rewrite bool_decide_eq_false_2 by lia. rewrite bool_decide_eq_true_2; [do 2 f_equal; lia|]. split; [lia|].
    rewrite Z.add_mod, Hv, Z.mul_comm, Z.mod_mul by lia. done.
  - case_bool_decide as H1; case_bool_decide as H2; try done; exfalso; [lia|]. pose proof (aligned_in_page virt i b). lia.
Qed.

Lemma unmap_loop_spec size virt d fuel : forall i y,
  virt mod 4096 = 0 -> 0 <= virt -> virt + size <= 4294967296 -> size <= 4294963200 -> 0 <= i ->
  size - 4096 * i <= 4096 * Z.of_nat fuel ->
  exists y', unmap_loop ops fuel size virt (4096 * i) (with_world d y) = Ret tt (with_world d y')
  /\ forall b, pte y' b = if bool_decide (virt + 4096 * i <= b < virt + size /\ b mod 4096 = 0) then None else pte y b.
Proof using laws.
  intros i y Hv Hv0 Hvs Hs. revert i y. induction fuel as [|fuel IH]; intros i y Hi Hf; cbn [unmap_loop];
    destruct (Z.ltb_spec (4096 * i) size) as [Hlt|Hge]; try lia.
  1,3: exists y; split; [done|]; intros b; rewrite bool_decide_eq_false_2 by lia; done.
  erewrite bind_Ret by reflexivity. cbn [fst snd world with_world segs shm_segments n_segments n_attaches shm_areas]. unfold PAGE_SIZE.
  rewrite (u32_small (4096 * i + 4096)), (u32_small (virt + 4096 * i)) by lia.
  replace (4096 * i + 4096) with (4096 * (i + 1)) by lia.
  assert (Hva : Z.land (virt + 4096 * i) PAGE_MASK = virt + 4096 * i).
  { rewrite page_align by lia. symmetry. apply Z.div_exact; [lia|]. by rewrite Z.add_mod, Hv, Z.mul_comm, Z.mod_mul by lia. }
  set (y1 := mmu_unmap_page ops (virt + 4096 * i) y).
  destruct (IH (i + 1) y1) as (y2 & E & Hy2); [lia..|]. exists y2. split; [exact E|]. intros b. rewrite Hy2. unfold y1. rewrite (pt_unmap _ _ _ laws), Hva.
  case_decide as Hb.
  - subst b. rewrite bool_decide_eq_false_2 by lia. rewrite bool_decide_eq_true_2; [done|]. split; [lia|].
    rewrite Z.add_mod, Hv, Z.mul_comm, Z.mod_mul by lia. done.
  - case_bool_decide as H1; case_bool_decide as H2; try done; exfalso; [lia|]. pose proof (aligned_in_page virt i b). lia.
Qed.

(** *** The mutex of a segment *)
Definition upd_seg (i : nat) (f : shm_segment_t -> shm_segment_t) (d : shm Y) : shm Y :=
  Shm (alter f i (segs d)) (shm_segments d) (n_segments d) (n_attaches d) (shm_areas d) (world d).
Definition free_lock (m : mutex_t) : Prop := locked m = 0 /\ waiting_tasks m = None.

Lemma upd_seg_lookup i f d x : segs d !! i = Some x -> segs (upd_seg i f d) !! i = Some (f x).
Proof. intros H. cbn. by rewrite list_lookup_alter_eq, H. Qed.

Lemma with_seg_Ret {A} i (c : Cmd (kern * mutex_t) A) k m d x a k' l' :
  segs d !! i = Some x -> c (k, seg_lock x) = Ret a (k', l') ->
  with_seg i c (k, (m, d)) = Ret a (k', (m, upd_seg i (set_seg_lock l') d)).
Proof.
  intros Hx Hc. unfold with_seg. erewrite focus_Ret; [|cbn [fst snd]; rewrite Hx; reflexivity|exact Hc]. done.
Qed.

(** Locking a free segment, working on it and unlocking it again. *)
Lemma seg_guarded {A} i (body : Cmd (shm Y) A) k m d x a d' :
  segs d !! i = Some x -> free_lock (seg_lock x) ->
  let d1 := upd_seg i (set_seg_lock (set_owner (current k) (set_locked 1 (seg_lock x)))) d in
  body d1 = Ret a d' -> (forall x1, segs d1 !! i = Some x1 -> exists x2, segs d' !! i = Some x2 /\ seg_lock x2 = seg_lock x1) ->
  (with_seg i mutex_lock ;;; let* r := in_shm body in with_seg i mutex_unlock ;;; ret r) (k, (m, d))
  = Ret a (irq_enabled k, (m, upd_seg i (set_seg_lock (released (seg_lock x))) d')).
Proof.
  intros Hx [Hl Hw] d1 Hb Hkeep. rewrite (bind_Ret _ _ _ _ _ (with_seg_Ret i _ k m d x _ _ _ Hx (mutex_lock_free k _ Hl))). fold d1.
  assert (Hbody : in_shm body (irq_enabled k, (m, d1)) = Ret a (irq_enabled k, (m, d'))) by (unfold in_shm, zoom; cbn [view g_data snd]; by rewrite Hb).
  rewrite (bind_Ret _ _ _ _ _ Hbody). destruct (Hkeep _ (upd_seg_lookup i _ d x Hx)) as (x2 & Hx2 & Hl2).
  assert (Hu : mutex_unlock (irq_enabled k, seg_lock x2) = Ret tt (irq_enabled k, released (seg_lock x))).
  { rewrite Hl2. cbn [seg_lock set_seg_lock]. rewrite mutex_unlock_last; [by destruct k|by destruct k|].
    unfold waiters. simpl. by rewrite Hw. }
  by rewrite (bind_Ret _ _ _ _ _ (with_seg_Ret i _ _ m d' x2 _ _ _ Hx2 Hu)).
Qed.

Lemma by_key_snoc tbl z key l : (forall i, i ∈ l -> (i < length tbl)%nat) -> by_key (tbl ++ [z]) key l = by_key tbl key l.
Proof.
  intros Hl. unfold by_key. f_equal. induction l as [|i l IH]; [done|]. rewrite !filter_cons.
  rewrite lookup_app_l by (apply Hl; left). rewrite IH by (intros j Hj; apply Hl; by right). done.
Qed.

Lemma listed_bound (tbl : list shm_segment_t) p l i : linked SegLink tbl p l -> i ∈ l -> (i < length tbl)%nat.
Proof. intros Hc Hi. destruct (chain_lookup SegLink tbl p l None i Hc Hi) as [x Hx]. by eapply lookup_lt_Some. Qed.

Lemma create_body_spec fuel malloc_ok key size d l :
  listed d l -> (length l <= fuel)%nat ->
  create_body ops fuel malloc_ok key size d
  = match by_key (segs d) key l with
    | Some _ => Ret (-1) d
    | None => if malloc_ok then
                let r := mm_alloc_pages ops (size / PAGE_SIZE + 1) (world d) in
                if fst r =? 0 then Ret (-1) (with_world d (snd r))
                else Ret 0 (Shm (segs d ++ [ShmSegment key size (fst r) 0 (mutex_init "shm_lock") (shm_segments d)]) (Some (length (segs d)))
                             (u32 (n_segments d + 1)) (n_attaches d) (shm_areas d) (snd r))
              else Ret (-1) d
    end.
Proof.
  intros Hl Hf. unfold create_body, find_shm_segment.
  assert (Hfind : (let* s := get in find_from fuel key (shm_segments s)) d = Ret (by_key (segs d) key l) d).
  { erewrite bind_Ret by reflexivity. by apply find_from_spec. }
  rewrite (bind_Ret _ _ _ _ _ Hfind). destruct (by_key (segs d) key l); [done|]. destruct malloc_ok; [|done]. cbv beta iota delta [negb].
  erewrite (bind_Ret (call_world _)) by reflexivity. cbv zeta. by destruct (fst _ =? 0).
Qed.

(** What attaching and detaching do to the data, the lock of the segment held. *)
Definition pages_ok (virt size : Z) : Prop := virt mod 4096 = 0 /\ 0 < virt /\ 0 <= size <= 4294963200 /\ virt + size <= 4294967296.

Lemma attach_body_spec i d x :
  segs d !! i = Some x -> 0 <= phys_addr x -> phys_addr x + seg_size x <= 4294967296 ->
  let r := mm_alloc_virt_pages vm (seg_size x / PAGE_SIZE + 1) (world d) in
  pages_ok (fst r) (seg_size x) ->
  exists y', attach_body pt vm PERMISSIONS i d
    = Ret (fst r) (let d' := upd_seg i (fun x => set_ref_count (u32 (ref_count x + 1)) x) (with_world d y') in
                   Shm (segs d') (shm_segments d') (n_segments d') (u32 (n_attaches d' + 1)) (shm_areas d') (world d'))
  /\ forall b, pte y' b = if page_of (fst r) (seg_size x) b then Some (phys_addr x + (b - fst r), PERMISSIONS) else pte (snd r) b.
Proof using laws.
  intros Hx Hp0 Hps r (Hal & Hpos & Hsz & Hend). unfold attach_body.
  assert (Hg : get_seg i d = Ret x d) by (unfold get_seg; erewrite bind_Ret by reflexivity; by rewrite Hx).
  rewrite (bind_Ret _ _ _ _ _ Hg). erewrite (bind_Ret (call_world _)) by reflexivity. cbv zeta. fold r.
  rewrite (proj2 (Z.eqb_neq (fst r) 0)) by lia.
  destruct (map_loop_spec (seg_size x) (fst r) (phys_addr x) d PAGES 0 (snd r)) as (y' & E & Hy); try lia.
  { unfold PAGES. rewrite Z2Nat.id by lia. lia. }
  rewrite Z.mul_0_r in E. fold (with_world d (snd r)). rewrite (bind_Ret _ _ _ _ _ E). exists y'. split; [reflexivity|].
  intros b. rewrite Hy, Z.mul_0_r, Z.add_0_r. done.
Qed.

Lemma detach_body_spec i addr d x :
  segs d !! i = Some x -> pages_ok addr (seg_size x) ->
  exists y', detach_body ops vm i addr d
    = Ret tt (upd_seg i (fun x => set_ref_count (u32 (ref_count x - 1)) x) (with_world d (mm_free_virt_pages vm addr (seg_size x / PAGE_SIZE + 1) y')))
  /\ forall b, pte y' b = if page_of addr (seg_size x) b then None else pte (world d) b.
Proof using laws.
  intros Hx (Hal & Hpos & Hsz & Hend). unfold detach_body.
  assert (Hg : get_seg i d = Ret x d) by (unfold get_seg; erewrite bind_Ret by reflexivity; by rewrite Hx).
  rewrite (bind_Ret _ _ _ _ _ Hg).
  destruct (unmap_loop_spec (seg_size x) addr d PAGES 0 (world d)) as (y' & E & Hy); try lia.
  { unfold PAGES. rewrite Z2Nat.id by lia. lia. }
  rewrite Z.mul_0_r in E. assert (Hd : with_world d (world d) = d) by (by destruct d). rewrite Hd in E.
  rewrite (bind_Ret _ _ _ _ _ E). exists y'. split; [reflexivity|]. intros b. rewrite Hy, Z.mul_0_r, Z.add_0_r. done.
Qed.

Definition counted (v : Z) (m : mutex_t) (x : shm_segment_t) : shm_segment_t := set_ref_count v (set_seg_lock m x).

Lemma shm_create_spec fuel l k m d key size :
  listed d l -> (length l <= fuel)%nat -> free_lock m ->
  let p := mm_alloc_pages ops (size / PAGE_SIZE + 1) (world d) in
  let new := length (segs d) in
  match by_key (segs d) key l with
  | Some _ => forall ok, shm_create ops fuel ok key size (k, (m, d)) = Ret (-1) (irq_enabled k, (released m, d))
  | None => fst p <> 0 -> exists d', shm_create ops fuel true key size (k, (m, d)) = Ret 0 (irq_enabled k, (released m, d')) /\
      listed d' (new :: l) /\ (forall key', by_key (segs d') key' (new :: l) = if key =? key' then Some new else by_key (segs d) key' l) /\
      (exists x, segs d' !! new = Some x /\ seg_size x = size /\ phys_addr x = fst p /\ ref_count x = 0 /\ free_lock (seg_lock x))
  end.
Proof.
  intros Hl Hf [Hlk Hwt]. cbv zeta. pose proof (fun ok => create_body_spec fuel ok key size d l Hl Hf) as Hc. destruct (by_key (segs d) key l).
  + intros ok. by apply guarded_free.
  + intros Hp. specialize (Hc true). cbv zeta iota in Hc. rewrite (proj2 (Z.eqb_neq _ 0) Hp) in Hc.
    eexists. split; [by apply guarded_free|]. set (p := mm_alloc_pages ops (size / PAGE_SIZE + 1) (world d)).
    assert (Hnew : (segs d ++ [ShmSegment key size (fst p) 0 (mutex_init "shm_lock") (shm_segments d)]) !! length (segs d)
      = Some (ShmSegment key size (fst p) 0 (mutex_init "shm_lock") (shm_segments d))) by (by rewrite lookup_app_r, Nat.sub_diag).
    split_and!.
    * unfold listed, linked. cbn [chain segs shm_segments]. split; [done|]. eexists. split; [exact Hnew|]. cbn [lget SegLink seg_next].
      eapply chain_agree; [|exact Hl]. intros j Hj. apply lookup_app_l. by eapply listed_bound.
    * intros key'. cbn [segs]. unfold by_key at 1. rewrite filter_cons, Hnew. cbn [fmap option_fmap option_map seg_key].
      destruct (Z.eqb_spec key key') as [->|Hne]; [by rewrite decide_True|]. rewrite decide_False by congruence.
      apply by_key_snoc. intros i Hi. by eapply listed_bound.
    * eexists. split; [exact Hnew|]. done.
Qed.

Lemma shm_attach_spec fuel l k m d key i x :
  listed d l -> (length l <= fuel)%nat -> by_key (segs d) key l = Some i -> segs d !! i = Some x -> free_lock (seg_lock x) ->
  0 <= phys_addr x -> phys_addr x + seg_size x <= 4294967296 ->
  let v := mm_alloc_virt_pages vm (seg_size x / PAGE_SIZE + 1) (world d) in
  pages_ok (fst v) (seg_size x) ->
  exists d', shm_attach pt vm PERMISSIONS fuel key (k, (m, d)) = Ret (fst v) (irq_enabled k, (m, d')) /\
    segs d' = alter (counted (u32 (ref_count x + 1)) (released (seg_lock x))) i (segs d) /\
    forall b, pte (world d') b = if page_of (fst v) (seg_size x) b then Some (phys_addr x + (b - fst v), PERMISSIONS) else pte (snd v) b.
Proof using laws.
  intros Hl Hf Hk Hx Hfree Hp0 Hps v Hv. unfold shm_attach.
  assert (Hfind : in_shm (find_shm_segment fuel key) (k, (m, d)) = Ret (Some i) (k, (m, d))).
  { unfold in_shm, zoom, find_shm_segment. cbn [view g_data snd]. erewrite bind_Ret by reflexivity.
    rewrite (find_from_spec key d l fuel _ Hl Hf), Hk. done. }
  rewrite (bind_Ret _ _ _ _ _ Hfind).
  set (mk := set_owner (current k) (set_locked 1 (seg_lock x))). set (d1 := upd_seg i (set_seg_lock mk) d).
  destruct (attach_body_spec i d1 (set_seg_lock mk x)) as (y' & E & Hy); try done.
  { by apply upd_seg_lookup. }
  eexists. split; [|split].
  + eapply (seg_guarded i (attach_body pt vm PERMISSIONS i) k m d x); [exact Hx|exact Hfree|exact E|].
    intros x1 Hx1. cbn [segs upd_seg with_world]. rewrite list_lookup_alter_eq. fold mk d1 in Hx1.
    change (segs (upd_seg i (set_seg_lock mk) d)) with (segs d1). rewrite Hx1. eexists. split; [reflexivity|]. done.
  + cbv zeta. unfold d1. cbn [segs upd_seg with_world]. apply list_eq. intros j. destruct (decide (j = i)) as [->|Hne].
    * rewrite !list_lookup_alter_eq. by rewrite Hx.
    * by rewrite !list_lookup_alter_ne by done.
  + exact Hy.
Qed.

(** The lock of the list around the second half of [shm_detach]. *)
Lemma list_unlock k m d : waiting_tasks m = None ->
  with_segments mutex_unlock (irq_enabled k, (set_owner (current k) (set_locked 1 m), d)) = Ret tt (irq_enabled k, (released m, d) : mutex_t * shm Y).
Proof.
  intros Hwt. assert (Hu : mutex_unlock (irq_enabled k, set_owner (current k) (set_locked 1 m)) = Ret tt (irq_enabled k, released m)).
  { rewrite mutex_unlock_last; [by destruct k|by destruct k|]. unfold waiters. simpl. by rewrite Hwt. }
  exact (zoom_Ret g_mutex _ (irq_enabled k, (set_owner (current k) (set_locked 1 m), d)) _ _ Hu).
Qed.

Lemma shm_detach_none fuel l k m d addr :
  listed d l -> (length l <= fuel)%nat -> free_lock m -> shm_areas d <> Some addr ->
  shm_detach ops vm fuel addr (k, (m, d)) = Ret (-1) (irq_enabled k, (released m, d)).
Proof.
  intros Hl Hf [Hlk Hwt] Hne. unfold shm_detach.
  rewrite (bind_Ret _ _ _ _ _ (zoom_Ret g_mutex _ (k, (m, d)) _ _ (mutex_lock_free k m Hlk))).
  erewrite (bind_Ret get) by reflexivity. cbn [upd g_mutex fst snd].
  set (m1 := set_owner (current k) (set_locked 1 m)).
  assert (Hnone : forall l' fuel p, linked SegLink (segs d) p l' -> (length l' <= fuel)%nat -> find_attached fuel addr p d = Ret None d).
  { clear Hl Hf. induction l' as [|i l' IH]; intros f p Hl Hf; unfold linked in Hl; cbn [chain] in Hl.
    - subst p. by destruct f.
    - destruct Hl as (-> & x & Hx & Hc). destruct f as [|f]; [simpl in Hf; lia|]. cbn [find_attached].
      erewrite (bind_Ret get) by reflexivity. rewrite bool_decide_eq_false_2 by done.
      assert (Hg : get_seg i d = Ret x d) by (unfold get_seg; erewrite bind_Ret by reflexivity; by rewrite Hx).
      rewrite (bind_Ret _ _ _ _ _ Hg). apply IH; [done|simpl in Hf; lia]. }
  assert (Hfind : in_shm (find_attached fuel addr (shm_segments d)) (irq_enabled k, (m1, d)) = Ret None (irq_enabled k, (m1, d))).
  { unfold in_shm, zoom. cbn [view g_data snd]. by rewrite (Hnone l fuel _ Hl Hf). }
  rewrite (bind_Ret _ _ _ _ _ Hfind).
  by rewrite (bind_Ret _ _ _ _ _ (list_unlock k m _ Hwt)).
Qed.

Lemma shm_detach_head fuel k m d addr i l' x :
  listed d (i :: l') -> (length (i :: l') <= fuel)%nat -> free_lock m ->
  shm_areas d = Some addr -> segs d !! i = Some x -> free_lock (seg_lock x) -> pages_ok addr (seg_size x) ->
  exists y', shm_detach ops vm fuel addr (k, (m, d))
    = Ret 0 (irq_enabled k, (released m, Shm (alter (counted (u32 (ref_count x - 1)) (released (seg_lock x))) i (segs d)) (shm_segments d)
        (n_segments d) (n_attaches d) (shm_areas d) (mm_free_virt_pages vm addr (seg_size x / PAGE_SIZE + 1) y'))) /\
    forall b, pte y' b = if page_of addr (seg_size x) b then None else pte (world d) b.
Proof using laws.
  intros (Hhead & _) Hf [Hlk Hwt] Hareas Hx Hfree Hpg. destruct fuel as [|fuel]; [simpl in Hf; lia|]. unfold shm_detach.
  rewrite (bind_Ret _ _ _ _ _ (zoom_Ret g_mutex _ (k, (m, d)) _ _ (mutex_lock_free k m Hlk))).
  erewrite (bind_Ret get) by reflexivity. cbn [upd g_mutex fst snd]. set (m1 := set_owner (current k) (set_locked 1 m)).
  assert (Hfind : in_shm (find_attached (S fuel) addr (shm_segments d)) (irq_enabled k, (m1, d)) = Ret (Some i) (irq_enabled k, (m1, d))).
  { unfold in_shm, zoom. cbn [view g_data snd]. rewrite Hhead. cbn [find_attached]. erewrite (bind_Ret get) by reflexivity.
    by rewrite bool_decide_eq_true_2. }
  rewrite (bind_Ret _ _ _ _ _ Hfind).
  rewrite (bind_Ret _ _ _ _ _ (with_seg_Ret i _ _ m1 d x _ _ _ Hx (mutex_lock_free (irq_enabled k) _ (proj1 Hfree)))).
  set (mk := set_owner (current (irq_enabled k)) (set_locked 1 (seg_lock x))). set (d1 := upd_seg i (set_seg_lock mk) d).
  destruct (detach_body_spec i addr d1 (set_seg_lock mk x)) as (y' & E & Hy); [by apply upd_seg_lookup|done|].
  replace (irq_enabled (irq_enabled k)) with (irq_enabled k) by (by destruct k).
  assert (Hbody : in_shm (detach_body ops vm i addr) (irq_enabled k, (m1, d1)) = Ret tt (irq_enabled k, (m1,
    upd_seg i (fun x => set_ref_count (u32 (ref_count x - 1)) x) (with_world d1 (mm_free_virt_pages vm addr (seg_size x / PAGE_SIZE + 1) y'))))).
  { unfold in_shm, zoom. cbn [view g_data snd]. by rewrite E. }
  rewrite (bind_Ret _ _ _ _ _ Hbody).
  assert (Hx2 : segs (upd_seg i (fun x => set_ref_count (u32 (ref_count x - 1)) x) (with_world d1 (mm_free_virt_pages vm addr (seg_size x / PAGE_SIZE + 1) y'))) !! i
    = Some (set_ref_count (u32 (ref_count x - 1)) (set_seg_lock mk x))).
  { rewrite (upd_seg_lookup i _ _ (set_seg_lock mk x)); [reflexivity|]. exact (upd_seg_lookup i (set_seg_lock mk) d x Hx). }
  assert (Hu1 : mutex_unlock (irq_enabled k, seg_lock (set_ref_count (u32 (ref_count x - 1)) (set_seg_lock mk x))) = Ret tt (irq_enabled k, released (seg_lock x))).
  { cbn [seg_lock set_ref_count set_seg_lock]. rewrite mutex_unlock_last; [by destruct k|by destruct k|]. unfold waiters. simpl. by rewrite (proj2 Hfree). }
  rewrite (bind_Ret _ _ _ _ _ (with_seg_Ret i _ _ m1 _ _ _ _ _ Hx2 Hu1)).
  rewrite (bind_Ret _ _ _ _ _ (list_unlock k m _ Hwt)).
  exists y'. split; [|exact Hy]. unfold ret. do 4 f_equal. unfold upd_seg, with_world, d1. cbn. f_equal.
  apply list_eq. intros j. destruct (decide (j = i)) as [->|Hne].
  + rewrite !list_lookup_alter_eq. by rewrite Hx.
  + by rewrite !list_lookup_alter_ne by done.
Qed.
End Laws.

(** ** Shared memory *)

(** C32. The segments are a list searched by key.  With the locks free, [shm_create] fails
    without a change for a key in the list and otherwise puts a segment with the pages
    it was given in front, which the key then finds while every other key finds what it
    found; [shm_attach] maps exactly the pages of the segment, in order, at the address
    it returns, counts the reference and leaves the other segments alone.
    [shm_detach], however, does not look for the segment: when the address is the one
    recorded for the task it unmaps as many pages as the first segment of the list has,
    and lowers the count of that one, whichever was attached; and otherwise it fails. *)
Theorem shm_segment_list {Y} (ops : page_ops Y) (pt : pt_ops Y) (vm : virt_ops Y) (PERMISSIONS : Z) (pte : Y -> Z -> option (Z * Z))
    (laws : pt_laws ops pt pte) (fuel : nat) (l : list nat) (k : kern) (m : mutex_t) (d : shm Y) (key size addr : Z)
    (Hl : listed d l) (Hf : (length l <= fuel)%nat) (Hm : free_lock m) :
  (let p := mm_alloc_pages ops (size / PAGE_SIZE + 1) (world d) in
   let new := length (segs d) in
   match by_key (segs d) key l with
   | Some _ => forall ok, shm_create ops fuel ok key size (k, (m, d)) = Ret (-1) (irq_enabled k, (released m, d))
   | None => fst p <> 0 -> exists d', shm_create ops fuel true key size (k, (m, d)) = Ret 0 (irq_enabled k, (released m, d')) /\
       listed d' (new :: l) /\ (forall key', by_key (segs d') key' (new :: l) = if key =? key' then Some new else by_key (segs d) key' l) /\
       (exists x, segs d' !! new = Some x /\ seg_size x = size /\ phys_addr x = fst p /\ ref_count x = 0 /\ free_lock (seg_lock x))
   end) /\
  (forall i x, by_key (segs d) key l = Some i -> segs d !! i = Some x -> free_lock (seg_lock x) ->
     0 <= phys_addr x -> phys_addr x + seg_size x <= 4294967296 ->
     let v := mm_alloc_virt_pages vm (seg_size x / PAGE_SIZE + 1) (world d) in
     pages_ok (fst v) (seg_size x) ->
     exists d', shm_attach pt vm PERMISSIONS fuel key (k, (m, d)) = Ret (fst v) (irq_enabled k, (m, d')) /\
       segs d' = alter (counted (u32 (ref_count x + 1)) (released (seg_lock x))) i (segs d) /\
       forall b, pte (world d') b = if page_of (fst v) (seg_size x) b then Some (phys_addr x + (b - fst v), PERMISSIONS) else pte (snd v) b) /\
  (shm_areas d <> Some addr -> shm_detach ops vm fuel addr (k, (m, d)) = Ret (-1) (irq_enabled k, (released m, d))) /\
  (forall i l' x, l = i :: l' -> shm_areas d = Some addr -> segs d !! i = Some x -> free_lock (seg_lock x) -> pages_ok addr (seg_size x) ->
     exists y', shm_detach ops vm fuel addr (k, (m, d))
       = Ret 0 (irq_enabled k, (released m, Shm (alter (counted (u32 (ref_count x - 1)) (released (seg_lock x))) i (segs d)) (shm_segments d)
           (n_segments d) (n_attaches d) (shm_areas d) (mm_free_virt_pages vm addr (seg_size x / PAGE_SIZE + 1) y'))) /\
       forall b, pte y' b = if page_of addr (seg_size x) b then None else pte (world d) b).
Proof.
  split_and!.
  - by apply shm_create_spec.
  - intros i x Hk Hx Hfree Hp0 Hps v Hv. by apply (shm_attach_spec ops pt vm PERMISSIONS pte laws fuel l).
  - by apply (shm_detach_none ops vm fuel l).
  - intros i l' x -> Hareas Hx Hfree Hpg. by apply (shm_detach_head ops pt vm pte laws fuel k m d addr i l').
Qed.

Definition map_vm : virt_ops (gmap Z (Z * Z)) := VirtOps _ (fun _ y => (1073741824, y)) (fun _ _ y => y).

(** Two segments, of one page with key 1 and of two pages with key 2: attaching the second
    maps two pages; detaching what was attached unmaps one, and takes the reference from
    the first, whose count becomes 2^32 - 1. *)
Example shm_segment_list_witness :
  let seg := fun key size phys r next => ShmSegment key size phys r (mutex_init "shm_lock") next in
  let d := fun r y => Shm [seg 1 4096 8192 0 (Some 1%nat); seg 2 8192 16384 r None] (Some 0%nat) 2 r (Some 1073741824) y in
  (exists d', shm_attach map_pt_ops map_vm 3 2 2 (two_tasks 0, (mutex_init "lock", d 0 ∅)) = Ret 1073741824 (two_tasks 0, (mutex_init "lock", d'))
    /\ ref_count <$> segs d' = [0; 1] /\ world d' !! 1073745920 = Some (20480, 3))
  /\ (exists y', shm_detach map_page_ops map_vm 2 1073741824 (two_tasks 0, (mutex_init "lock", d 1 {[1073741824 := (16384, 3); 1073745920 := (20480, 3)]}))
      = Ret 0 (two_tasks 0, (mutex_init "lock", y')) /\ ref_count <$> segs y' = [4294967295; 1] /\ world y' !! 1073745920 = Some (20480, 3)).
Proof.
  intros seg d. split.
  - destruct (shm_segment_list map_page_ops map_pt_ops map_vm 3 (fun y va => y !! va) map_pt_laws 2 [0; 1]%nat (two_tasks 0) (mutex_init "lock")
      (d 0 ∅) 2 0 0 ltac:(repeat econstructor) ltac:(simpl; lia) (conj eq_refl eq_refl)) as (_ & Ha & _).
    destruct (Ha 1%nat (seg 2 8192 16384 0 None) eq_refl eq_refl (conj eq_refl eq_refl)) as (d' & E & Hs & Hp).
    { simpl. lia. } { simpl. lia. } { split; [done|]. simpl. lia. }
    exists d'. split; [exact E|]. split; [rewrite Hs; by vm_compute|]. rewrite Hp. by vm_compute.
  - set (y := {[1073741824 := (16384, 3); 1073745920 := (20480, 3)]}).
    destruct (shm_segment_list map_page_ops map_pt_ops map_vm 3 (fun y va => y !! va) map_pt_laws 2 [0; 1]%nat (two_tasks 0) (mutex_init "lock")
      (d 1 y) 2 0 1073741824 ltac:(repeat econstructor) ltac:(simpl; lia) (conj eq_refl eq_refl)) as (_ & _ & _ & Hd).
    destruct (Hd 0%nat [1%nat] (seg 1 4096 8192 0 (Some 1%nat)) eq_refl eq_refl eq_refl (conj eq_refl eq_refl)) as (y' & E & Hp).
    { split; [done|]. simpl. lia. }
    eexists. split; [exact E|]. split; [by vm_compute|]. cbn [world map_vm mm_free_virt_pages]. rewrite Hp. by vm_compute.
Defined.
