(* ===== verification/Sched.v ===== *)
(** * Sched

    src/src/scheduler.c: the scheduler's state and statistics, and the dispatch to the
    scheduler of the current policy.  The three schedulers work on one task table: each
    sees its own variables and the table through a lens.  A task's [scheduler_data]
    is, as in each of the three, an index into that scheduler's heap; that two
    policies read the same pointer as different structures is not expressed. *)
From S2P Require Import Prelude Links Task WaitQueue Mlfq RtSched RbTree RbSearch Fair.

(** ** Data *)
Inductive scheduler_state_t : Type := SCHEDULER_RUNNING | SCHEDULER_STOPPED.
Inductive scheduler_policy_t : Type :=
| SCHEDULER_POLICY_ROUND_ROBIN
| SCHEDULER_POLICY_PRIORITY
| SCHEDULER_POLICY_REALTIME
| SCHEDULER_POLICY_MLFQ
| SCHEDULER_POLICY_FAIR.
#[export] Instance scheduler_policy_t_eq : EqDecision scheduler_policy_t.
Proof. solve_decision. Defined.

Record scheduler_stats_t : Type := SchedulerStats {
  context_switches : Z;
  preemptions : Z;
  scheduler_runs : Z;
  s_missed_deadlines : Z
}.
Definition no_stats : scheduler_stats_t := SchedulerStats 0 0 0 0.

(** The variables of scheduler.c, the task table with the interrupt mask, the
    variables of the three schedulers and the clock. *)
Record sched : Type := Sched {
  scheduler_state : scheduler_state_t;
  current_policy : scheduler_policy_t;
  stats : scheduler_stats_t;
  s_kern : kern;
  s_queues : list mlfq_queue_t;
  s_params : list mlfq_params_t;
  s_boost : Z * Z;
  s_rt : ptr * Z * list realtime_params_t * Z;
  s_tree : rb_state sched_entity_t;
  s_ticks : Z
}.

Definition set_sched (st : scheduler_state_t) (p : scheduler_policy_t) (t : scheduler_stats_t) (s : sched) : sched :=
  Sched st p t (s_kern s) (s_queues s) (s_params s) (s_boost s) (s_rt s) (s_tree s) (s_ticks s).
Definition set_s_kern (k : kern) (s : sched) : sched :=
  Sched (scheduler_state s) (current_policy s) (stats s) k (s_queues s) (s_params s) (s_boost s) (s_rt s) (s_tree s) (s_ticks s).

(** ** The three schedulers *)
Definition tasks_part : lens sched tasks.
Proof.
  refine (Lens (fun s => k_tasks (s_kern s)) (fun t s => set_s_kern (set_k_tasks t (s_kern s)) s) _ _ _);
    [done|by intros [? ? ? [] ? ? ? ? ? ?]|done].
Defined.
Definition mlfq_part : lens sched mlfq.
Proof.
  refine (Lens (fun s => Mlfq (k_tasks (s_kern s)) (s_queues s) (s_params s) (fst (s_boost s)) (snd (s_boost s)))
    (fun m s => Sched (scheduler_state s) (current_policy s) (stats s) (set_k_tasks (mq_tasks m) (s_kern s)) (queues m) (params m)
       (boost_period m, boost_counter m) (s_rt s) (s_tree s) (s_ticks s)) _ _ _);
    [by intros [] ?|by intros [? ? ? [] ? ? [] ? ? ?]|done].
Defined.
Definition rt_part : lens sched rts.
Proof.
  refine (Lens (fun s => let '(h, n, pr, md) := s_rt s in Rts (s_kern s) h n pr (s_ticks s) md)
    (fun r s => Sched (scheduler_state s) (current_policy s) (stats s) (r_kern r) (s_queues s) (s_params s) (s_boost s)
       (rt_tasks r, rt_task_count r, rt_params r, missed_deadlines r) (s_tree s) (ticks r)) _ _ _);
    [by intros [] ?|by intros [? ? ? ? ? ? ? [[[]]] ? ?]|done].
Defined.
Definition fair_part : lens sched fair.
Proof.
  refine (Lens (fun s => FairState (k_tasks (s_kern s)) (s_tree s) (s_ticks s))
    (fun f s => Sched (scheduler_state s) (current_policy s) (stats s) (set_k_tasks (f_tasks f) (s_kern s)) (s_queues s) (s_params s)
       (s_boost s) (s_rt s) (f_tree f) (f_ticks f)) _ _ _);
    [by intros [] ?|by intros [? ? ? [] ? ? ? ? ? ?]|done].
Defined.

(** ** Operations

    [fuel] bounds the walks of the fair scheduler; [scheduler_fair_init] and
    [scheduler_rt_next] are called and defined nowhere. *)
Section Operations.
Context (BASE_QUANTUM : Z) (scheduler_fair_init : Cmd fair unit) (scheduler_rt_next : Cmd rts ptr) (fuel : nat).

Definition set_scheduler_state (st : scheduler_state_t) : Cmd sched unit :=
  modify (fun s => set_sched st (current_policy s) (stats s) s).
Definition count (f : scheduler_stats_t -> scheduler_stats_t) : Cmd sched unit :=
  modify (fun s => set_sched (scheduler_state s) (current_policy s) (f (stats s)) s).
Definition count_run : Cmd sched unit :=
  count (fun t => SchedulerStats (context_switches t) (preemptions t) (u32 (scheduler_runs t + 1)) (s_missed_deadlines t)).

Definition scheduler_init : Cmd sched unit :=
  set_scheduler_state SCHEDULER_STOPPED ;;;
  count (fun _ => no_stats) ;;;
  zoom mlfq_part (scheduler_mlfq_init BASE_QUANTUM) ;;;
  zoom fair_part scheduler_fair_init.

Definition get_current : Cmd sched ptr := zoom tasks_part task_get_current.

(** The switch on the policy: [ROUND_ROBIN] and [PRIORITY] have no case. *)
Definition next_of_policy (policy : scheduler_policy_t) : Cmd sched ptr :=
  match policy with
  | SCHEDULER_POLICY_MLFQ => zoom mlfq_part scheduler_mlfq_next
  | SCHEDULER_POLICY_FAIR => zoom fair_part (scheduler_pick_next_fair fuel)
  | SCHEDULER_POLICY_REALTIME => zoom rt_part scheduler_rt_next
  | SCHEDULER_POLICY_ROUND_ROBIN | SCHEDULER_POLICY_PRIORITY => ret None
  end.
Definition current_running : Cmd sched bool :=
  let* current := get_current in
  match current with
  | None => ret false
  | Some c =>
      let* s := get in
      let* x := deref (task_list (k_tasks (s_kern s)) !! c) in
      ret (bool_decide (state x = TASK_RUNNING))
  end.
Definition count_choice (next : ptr) : Cmd sched unit :=
  match next with
  | None => ret tt
  | Some _ =>
      count (fun t => SchedulerStats (u32 (context_switches t + 1)) (preemptions t) (scheduler_runs t) (s_missed_deadlines t)) ;;;
      let* running := current_running in
      if running
      then count (fun t => SchedulerStats (context_switches t) (u32 (preemptions t + 1)) (scheduler_runs t) (s_missed_deadlines t))
      else ret tt
  end.
Definition scheduler_next_task : Cmd sched ptr :=
  let* s := get in
  let* next := next_of_policy (current_policy s) in
  count_choice next ;;;
  ret next.

(** [task_schedule] of task.c with the choice it calls. *)
Definition task_schedule_next : Cmd sched unit :=
  let* next := scheduler_next_task in zoom tasks_part (task_schedule next).

Definition scheduler_start : Cmd sched unit :=
  let* s := get in
  match scheduler_state s with
  | SCHEDULER_STOPPED => set_scheduler_state SCHEDULER_RUNNING ;;; count_run ;;; task_schedule_next
  | SCHEDULER_RUNNING => ret tt
  end.
Definition scheduler_stop : Cmd sched unit := set_scheduler_state SCHEDULER_STOPPED.

Definition scheduler_set_policy (policy : scheduler_policy_t) : Cmd sched unit :=
  let* s := get in
  if decide (policy <> current_policy s) then
    let* current := get_current in
    (match current with
     | None => ret tt
     | Some _ =>
         match current_policy s with
         | SCHEDULER_POLICY_MLFQ => zoom mlfq_part (scheduler_mlfq_update_queue current)
         | SCHEDULER_POLICY_FAIR => zoom fair_part (scheduler_update_vruntime current)
         | SCHEDULER_POLICY_REALTIME => zoom rt_part scheduler_update_deadlines
         | _ => ret tt
         end
     end) ;;;
    modify (fun s => set_sched (scheduler_state s) policy (stats s) s)
  else ret tt.

Definition scheduler_tick : Cmd sched unit :=
  let* s := get in
  match scheduler_state s with
  | SCHEDULER_STOPPED => ret tt
  | SCHEDULER_RUNNING =>
      count_run ;;;
      let* s := get in
      match current_policy s with
      | SCHEDULER_POLICY_MLFQ => zoom mlfq_part scheduler_mlfq_tick
      | SCHEDULER_POLICY_FAIR => zoom fair_part (scheduler_fair_tick fuel)
      | SCHEDULER_POLICY_REALTIME => zoom rt_part scheduler_rt_tick
      | _ => ret tt
      end
  end.

Definition scheduler_get_stats : Cmd sched scheduler_stats_t := gets stats.
Definition scheduler_reset_stats : Cmd sched unit := count (fun _ => no_stats).
End Operations.

(** ** What a choice is counted as *)
Definition counted (s : sched) (next : ptr) : sched :=
  match next with
  | None => s
  | Some _ =>
      let t := stats s in
      let running := match current_task (k_tasks (s_kern s)) with
                     | Some c => match task_list (k_tasks (s_kern s)) !! c with Some x => bool_decide (state x = TASK_RUNNING) | None => false end
                     | None => false
                     end in
      set_sched (scheduler_state s) (current_policy s)
        (SchedulerStats (u32 (context_switches t + 1)) (if running then u32 (preemptions t + 1) else preemptions t)
                        (scheduler_runs t) (s_missed_deadlines t)) s
  end.
(** The current task is in the table. *)
Definition current_ok (s : sched) : Prop :=
  forall c, current_task (k_tasks (s_kern s)) = Some c -> is_Some (task_list (k_tasks (s_kern s)) !! c).
(** What [task_schedule] does with a choice. *)
Definition switch_to (next : ptr) (s : sched) : prog sched unit :=
  if decide (next = current_task (k_tasks (s_kern s))) then Ret tt s else
  match next with
  | None => Stop Fault
  | Some _ => zoom tasks_part yield_cpu (upd tasks_part (set_current_task next (k_tasks (s_kern s))) s)
  end.

Section Facts.
Context (fair_init : Cmd fair unit) (rt_next : Cmd rts ptr) (fuel : nat).

Lemma current_running_Ret s :
  current_ok s ->
  current_running s = Ret (match current_task (k_tasks (s_kern s)) with
                           | Some c => match task_list (k_tasks (s_kern s)) !! c with Some x => bool_decide (state x = TASK_RUNNING) | None => false end
                           | None => false
                           end) s.
Proof.
  intros Hok. unfold current_running. rewrite (bind_Ret _ _ s (current_task (k_tasks (s_kern s))) s).
  2:{ unfold get_current. erewrite zoom_Ret by reflexivity. by rewrite upd_view. }
  destruct (current_task _) as [c|] eqn:Hc; [|done]. erewrite (bind_Ret get) by reflexivity.
  destruct (Hok c Hc) as [x Hx]. by rewrite Hx.
Qed.

Lemma count_choice_Ret s next : current_ok s -> count_choice next s = Ret tt (counted s next).
Proof.
  intros Hok. destruct next as [n|]; [|done]. unfold count_choice, counted.
  erewrite (bind_Ret (count _)) by reflexivity.
  rewrite (bind_Ret _ _ _ _ _ (current_running_Ret (set_sched _ _ _ s) Hok)). cbn.
  by destruct (match current_task (k_tasks (s_kern s)) with Some _ => _ | None => _ end).
Qed.

Lemma next_task_counts s next :
  current_ok s -> next_of_policy rt_next fuel (current_policy s) s = Ret next s ->
  scheduler_next_task rt_next fuel s = Ret next (counted s next).
Proof.
  intros Hok Hn. unfold scheduler_next_task. erewrite (bind_Ret get) by reflexivity.
  rewrite (bind_Ret _ _ _ _ _ Hn). by rewrite (bind_Ret _ _ _ _ _ (count_choice_Ret s next Hok)).
Qed.

Lemma schedule_switches s next :
  current_ok s -> next_of_policy rt_next fuel (current_policy s) s = Ret next s ->
  task_schedule_next rt_next fuel s = switch_to next (counted s next).
Proof.
  intros Hok Hn. unfold task_schedule_next. rewrite (bind_Ret _ _ _ _ _ (next_task_counts s next Hok Hn)).
  generalize (counted s next). clear. intros s. unfold switch_to.
  case_decide as Hd.
  - erewrite zoom_Ret; [by rewrite upd_view|]. unfold task_schedule. erewrite (bind_Ret get) by reflexivity.
    by rewrite decide_True by exact Hd.
  - unfold zoom, task_schedule. erewrite (bind_Ret get) by reflexivity. rewrite decide_False by exact Hd.
    by destruct next.
Qed.

(** What each policy chooses. *)
Lemma unhandled_policy s :
  current_policy s = SCHEDULER_POLICY_ROUND_ROBIN \/ current_policy s = SCHEDULER_POLICY_PRIORITY ->
  next_of_policy rt_next fuel (current_policy s) s = Ret None s.
Proof. by intros [-> | ->]. Qed.
Lemma mlfq_policy B s L :
  current_policy s = SCHEDULER_POLICY_MLFQ -> Mlfq.rep B (view mlfq_part s) L ->
  next_of_policy rt_next fuel (current_policy s) s = Ret (find_ready (task_list (k_tasks (s_kern s))) (concat L)) s.
Proof.
  intros -> Hr. cbn [next_of_policy]. erewrite zoom_Ret by (by eapply scheduler_mlfq_next_spec). by rewrite upd_view.
Qed.
Lemma fair_policy s x q :
  current_policy s = SCHEDULER_POLICY_FAIR -> fair_queue (view fair_part s) (x :: q) -> (S (length q) <= fuel)%nat ->
  next_of_policy rt_next fuel (current_policy s) s = Ret (entity_task (view fair_part s) x) s.
Proof.
  intros -> Hq Hf. cbn [next_of_policy]. erewrite zoom_Ret by (by eapply scheduler_pick_next_fair_spec). by rewrite upd_view.
Qed.

(** *** The ticks *)
Lemma running_tick_mlfq s m :
  scheduler_state s = SCHEDULER_RUNNING -> current_policy s = SCHEDULER_POLICY_MLFQ ->
  scheduler_mlfq_tick (view mlfq_part s) = Ret tt m ->
  exists s', scheduler_tick fuel s = Ret tt s' /\ view mlfq_part s' = m /\
    scheduler_state s' = SCHEDULER_RUNNING /\ current_policy s' = SCHEDULER_POLICY_MLFQ /\
    scheduler_runs (stats s') = u32 (scheduler_runs (stats s) + 1).
Proof.
  intros Hs Hp Ht. unfold scheduler_tick. erewrite (bind_Ret get) by reflexivity. rewrite Hs.
  erewrite (bind_Ret count_run) by reflexivity. erewrite (bind_Ret get) by reflexivity. cbn [current_policy set_sched]. rewrite Hp.
  eexists. split; [apply zoom_Ret; exact Ht|]. by rewrite view_upd.
Qed.
Definition scheduler_ticks (n : nat) : Cmd sched unit := for_each (seq 0 n) (fun _ => scheduler_tick fuel).
(** A row of ticks is one of the MLFQ scheduler's, each counted. *)
Lemma ticks_mlfq l s m :
  scheduler_state s = SCHEDULER_RUNNING -> current_policy s = SCHEDULER_POLICY_MLFQ ->
  0 <= scheduler_runs (stats s) < 2 ^ 32 ->
  for_each l (fun _ : nat => scheduler_mlfq_tick) (view mlfq_part s) = Ret tt m ->
  exists s', for_each l (fun _ => scheduler_tick fuel) s = Ret tt s' /\ view mlfq_part s' = m /\
    scheduler_state s' = SCHEDULER_RUNNING /\ current_policy s' = SCHEDULER_POLICY_MLFQ /\
    scheduler_runs (stats s') = u32 (scheduler_runs (stats s) + Z.of_nat (length l)).
Proof.
  revert s. induction l as [|x l IH]; intros s Hs Hp Hr Ht; cbn [for_each] in *.
  - exists s. injection Ht as <-. split_and!; try done. rewrite u32_small by (simpl; lia). simpl; lia.
  - apply bind_inv_Ret in Ht as ([] & m1 & H1 & H2).
    destruct (running_tick_mlfq s m1 Hs Hp H1) as (s1 & E1 & <- & Hs1 & Hp1 & Hr1).
    rewrite (bind_Ret _ _ _ _ _ E1).
    destruct (IH s1 Hs1 Hp1) as (s' & E2 & Hv & Hs' & Hp' & Hr'); [rewrite Hr1; apply u32_range|exact H2|].
    exists s'. split_and!; try done. rewrite Hr', Hr1. unfold u32, wrap. rewrite Z.add_mod_idemp_l by lia.
    f_equal. cbn [length]. lia.
Qed.
End Facts.

(** ** Properties *)

(** The dispatch runs the scheduler of the current policy.  Under MLFQ a
    schedule switches to the first READY task of the queues taken in order, under
    FAIR to the task of the leftmost entity of the tree; each choice is counted, and
    as a preemption when it leaves a running task, even when it chooses the task
    that runs already, to which nothing is switched.  A clock tick does nothing while
    the scheduler is stopped; starting it counts a run and schedules, once.
    ROUND_ROBIN and PRIORITY, which start-up selects, have no case: nothing is ever
    chosen, a tick only counts, and a schedule with a task running switches to the
    null task. *)
Theorem scheduler_dispatch (rt_next : Cmd rts ptr) (fuel : nat) (s : sched) (Hok : current_ok s) :
  (forall B L, current_policy s = SCHEDULER_POLICY_MLFQ -> Mlfq.rep B (view mlfq_part s) L ->
     let next := find_ready (task_list (k_tasks (s_kern s))) (concat L) in
     scheduler_next_task rt_next fuel s = Ret next (counted s next) /\
     task_schedule_next rt_next fuel s = switch_to next (counted s next)) /\
  (forall x q, current_policy s = SCHEDULER_POLICY_FAIR -> fair_queue (view fair_part s) (x :: q) -> (S (length q) <= fuel)%nat ->
     let next := entity_task (view fair_part s) x in
     scheduler_next_task rt_next fuel s = Ret next (counted s next) /\
     task_schedule_next rt_next fuel s = switch_to next (counted s next)) /\
  (scheduler_state s = SCHEDULER_STOPPED ->
     scheduler_tick fuel s = Ret tt s /\
     scheduler_start rt_next fuel s = (set_scheduler_state SCHEDULER_RUNNING ;;; count_run ;;; task_schedule_next rt_next fuel) s) /\
  (scheduler_state s = SCHEDULER_RUNNING -> scheduler_start rt_next fuel s = Ret tt s) /\
  (current_policy s = SCHEDULER_POLICY_ROUND_ROBIN \/ current_policy s = SCHEDULER_POLICY_PRIORITY ->
     scheduler_next_task rt_next fuel s = Ret None s /\
     (scheduler_state s = SCHEDULER_RUNNING -> scheduler_tick fuel s = count_run s) /\
     task_schedule_next rt_next fuel s =
       match current_task (k_tasks (s_kern s)) with Some _ => Stop Fault | None => Ret tt s end).
Proof.
  split_and!.
  - intros B L Hp Hr. pose proof (mlfq_policy rt_next fuel B s L Hp Hr). split; [by apply next_task_counts|by apply schedule_switches].
  - intros x q Hp Hq Hf. pose proof (fair_policy rt_next fuel s x q Hp Hq Hf). split; [by apply next_task_counts|by apply schedule_switches].
  - intros Hs. unfold scheduler_tick, scheduler_start. split; erewrite (bind_Ret get) by reflexivity; by rewrite Hs.
  - intros Hs. unfold scheduler_start. erewrite (bind_Ret get) by reflexivity. by rewrite Hs.
  - intros Hp. pose proof (unhandled_policy rt_next fuel s Hp) as Hn. split_and!.
    + by apply (next_task_counts rt_next fuel s None).
    + intros Hs. unfold scheduler_tick. erewrite (bind_Ret get) by reflexivity. rewrite Hs.
      erewrite (bind_Ret count_run) by reflexivity. erewrite (bind_Ret get) by reflexivity.
      cbn [current_policy set_sched]. destruct Hp as [Hp|Hp]; unfold count_run, count, modify; rewrite Hp; done.
    + rewrite (schedule_switches rt_next fuel s None) by done. unfold switch_to. cbn [counted].
      by destruct (current_task (k_tasks (s_kern s))).
Qed.

(** C10. Through the dispatch too no MLFQ task starves: while the scheduler runs under
    MLFQ and a task with parameters is current, the clock ticks left of the boost
    period put every queued task back into the first queue, each tick counted once;
    the task the next schedule switches to is then the first READY task in the order
    of the queues, so that it runs next unless it runs already. *)
Theorem scheduler_boosts (rt_next : Cmd rts ptr) (fuel : nat) (B : Z) (s : sched) (L : list (list nat)) (c : nat) (x : task_t) (p : nat)
    (Hs : scheduler_state s = SCHEDULER_RUNNING) (Hp : current_policy s = SCHEDULER_POLICY_MLFQ)
    (Hruns : 0 <= scheduler_runs (stats s) < 2 ^ 32)
    (Hok : mlfq_ok B (view mlfq_part s) L) (Hcur : current_task (k_tasks (s_kern s)) = Some c)
    (Hx : task_list (k_tasks (s_kern s)) !! c = Some x) (Hsd : scheduler_data x = Some p)
    (Hcnt : 0 <= snd (s_boost s) < fst (s_boost s)) (Hper : fst (s_boost s) <= UINT32_MAX) :
  let n := Z.to_nat (fst (s_boost s) - snd (s_boost s)) in
  let next := find_ready (task_list (k_tasks (s_kern s))) (concat L) in
  exists s', scheduler_ticks fuel n s = Ret tt s' /\
    mlfq_ok B (view mlfq_part s') (all_in_first L) /\ snd (s_boost s') = 0 /\
    scheduler_runs (stats s') = u32 (scheduler_runs (stats s) + Z.of_nat n) /\
    task_schedule_next rt_next fuel s' = switch_to next (counted s' next).
Proof.
  cbv zeta. destruct (Z.to_nat (fst (s_boost s) - snd (s_boost s))) as [|n'] eqn:En; [lia|].
  set (next := find_ready _ _).
  destruct (mlfq_ticks_spec B n' 0 (view mlfq_part s) L c x p) as (m & He & Hok' & Hz & Hst); try done; try (simpl; lia).
  destruct (ticks_mlfq fuel _ s m Hs Hp Hruns He) as (s' & E & Hv & _ & Hp' & Hr').
  exists s'. split; [exact E|]. rewrite Hv. split; [done|].
  split; [by rewrite <- Hv in Hz|]. split; [by rewrite Hr', length_seq|].
  assert (Hnext : find_ready (task_list (k_tasks (s_kern s'))) (concat (all_in_first L)) = next).
  { rewrite concat_all_in_first. rewrite <- Hv in Hst. exact (find_ready_stays _ _ (concat L) Hst). }
  rewrite <- Hnext. apply schedule_switches.
  - intros c' Hc'. assert (c' = c) as ->.
    { pose proof (stays_current _ _ Hst) as Hc2. rewrite <- Hv in Hc2. simpl in Hc2. congruence. }
    pose proof (stays_state _ _ Hst c) as Hc2. rewrite <- Hv in Hc2. change (mtbl (view mlfq_part s)) with (task_list (k_tasks (s_kern s))) in Hc2.
    rewrite Hx in Hc2. change (mtbl (view mlfq_part s')) with (task_list (k_tasks (s_kern s'))) in Hc2.
    destruct (task_list (k_tasks (s_kern s')) !! c); [done|discriminate].
  - rewrite <- Hv in Hok'. exact (mlfq_policy rt_next fuel B s' _ Hp' (proj1 Hok')).
Qed.

(** *** Examples *)
(** The scheduler running under MLFQ, with the variables [m] of that scheduler. *)
Definition mlfq_sched (m : mlfq) : sched :=
  upd mlfq_part m (Sched SCHEDULER_RUNNING SCHEDULER_POLICY_MLFQ no_stats (Kern (mq_tasks m) true (SyncStats 0 0 0 0 0)) [] [] (0, 0)
                         (None, 0, [], 0) (RbState ∅ 0) 0).

(** Task 1 runs and tasks 0 and 1 are READY in the first queue. *)
Definition mlfq_ready : mlfq :=
  Eval vm_compute in match mlfq_setup mlfq_start with Ret _ m => m | _ => mlfq_start end.
Definition ready_lists : list (list nat) := [0; 1]%nat :: replicate 7 [].
Lemma mlfq_ready_ok : mlfq_ok 10 (view mlfq_part (mlfq_sched mlfq_ready)) ready_lists.
Proof.
  destruct mlfq_setup_ok as (m & Hm & Hok).
  assert (E : mlfq_setup mlfq_start = Ret tt mlfq_ready) by (vm_compute; reflexivity).
  unfold mlfq_sched. rewrite view_upd. assert (m = mlfq_ready) as <- by congruence. exact Hok.
Qed.

Lemma scheduler_dispatch_witness :
  let s := mlfq_sched mlfq_ready in
  scheduler_next_task (ret None) 1 s = Ret (Some 0%nat) (counted s (Some 0%nat)) /\ context_switches (stats (counted s (Some 0%nat))) = 1.
Proof.
  intros s. assert (Hc : current_ok s) by (intros c; vm_compute; intros [= <-]; by eexists).
  destruct (scheduler_dispatch (ret None) 1 s Hc) as [Hd _].
  destruct (Hd 10 ready_lists eq_refl (proj1 mlfq_ready_ok)) as [E _].
  split; [exact E|reflexivity].
Defined.

Lemma scheduler_boosts_witness :
  let s := mlfq_sched mlfq_ready in
  exists s', scheduler_ticks 1 2 s = Ret tt s' /\ scheduler_runs (stats s') = 2 /\
    task_schedule_next (ret None) 1 s' = switch_to (Some 0%nat) (counted s' (Some 0%nat)).
Proof.
  intros s. destruct (scheduler_boosts (ret None) 1 10 s ready_lists 1
    (set_next None (set_scheduler_data (Some 1%nat) zero_task)) 1 eq_refl eq_refl) as (s' & E & _ & _ & Hr & Hn).
  - vm_compute. split; [discriminate|reflexivity].
  - exact mlfq_ready_ok.
  - reflexivity.
  - vm_compute. reflexivity.
  - reflexivity.
  - vm_compute. split; [discriminate|reflexivity].
  - vm_compute. discriminate.
  - exists s'. split; [exact E|]. split; [exact Hr|exact Hn].
Defined.
