(* ===== verification/Text.v ===== *)
(** * Text

    The standard library's functions on C strings that the protocol code calls
    (src/src/http.c, mcurl.c, handshake.c), as the standard has them; the functions of
    src/src/string.c are those of CString.  A pointer into a text is the rest of the
    memory from there on; a scan that finds no terminator in it runs outside the
    object and is a fault. *)
From Stdlib Require Import Ascii String.
From S2P Require Import Prelude.

Fixpoint str (s : string) : list Z :=
  match s with EmptyString => [] | String c s => Z.of_N (N_of_ascii c) :: str s end.
Arguments str s%_string_scope.
Definition CRLF : list Z := [13; 10].

Section Functions.
Context {S : Type}.

(** The characters before the terminator: what [%s] prints and [strdup] copies. *)
Fixpoint c_text (p : list Z) : Cmd S (list Z) :=
  match p with
  | [] => fail Fault
  | x :: p => if x =? 0 then ret [] else let* t := c_text p in ret (x :: t)
  end.
Definition strlen (p : list Z) : Cmd S Z := let* t := c_text p in ret (Z.of_nat (length t)).
Fixpoint strchr (c : Z) (p : list Z) : Cmd S (option (list Z)) :=
  match p with
  | [] => fail Fault
  | x :: p' => if x =? c then ret (Some p) else if x =? 0 then ret None else strchr c p'
  end.
Fixpoint strstr (needle p : list Z) : Cmd S (option (list Z)) :=
  match p with
  | [] => fail Fault
  | x :: p' =>
      if decide (take (length needle) p = needle) then ret (Some p)
      else if x =? 0 then ret None else strstr needle p'
  end.
(** [strncmp (p, t, n) == 0] for a literal [t] of [n] characters. *)
Fixpoint starts_with (t p : list Z) : Cmd S bool :=
  match t, p with
  | [], _ => ret true
  | _, [] => fail Fault
  | c :: t, x :: p => if x =? c then starts_with t p else ret false
  end.
(** [strcmp (p, t) == 0] and [strcasecmp (p, t) == 0] for a literal [t]. *)
Fixpoint equal_by (f : Z -> Z) (t p : list Z) : Cmd S bool :=
  match t, p with
  | _, [] => fail Fault
  | [], x :: _ => ret (x =? 0)
  | c :: t, x :: p => if f x =? f c then equal_by f t p else ret false
  end.
End Functions.

Definition tolower (c : Z) : Z := if (65 <=? c) && (c <=? 90) then c + 32 else c.
Definition streq {S} : list Z -> list Z -> Cmd S bool := equal_by id.
Definition strcaseeq {S} : list Z -> list Z -> Cmd S bool := equal_by tolower.

(** [isspace] and [isdigit] in the C locale; [atoi] answers as [strtol] converted to
    [int] does, with a [long] of 32 bits. *)
Definition isspace (c : Z) : bool := (c =? 32) || ((9 <=? c) && (c <=? 13)).
Definition isdigit (c : Z) : bool := (48 <=? c) && (c <=? 57).
Fixpoint number_from (n : Z) (p : list Z) : Z :=
  match p with c :: p => if isdigit c then number_from (10 * n + (c - 48)) p else n | [] => n end.
Definition number (p : list Z) : Z := number_from 0 p.
Definition clamp (n : Z) : Z := Z.max (-2147483648) (Z.min n 2147483647).
Fixpoint atoi (p : list Z) : Z :=
  match p with
  | [] => 0
  | c :: p' =>
      if isspace c then atoi p'
      else if c =? 45 then clamp (- number p')
      else if c =? 43 then clamp (number p')
      else clamp (number p)
  end.
Fixpoint skip_spaces (p : list Z) : list Z :=
  match p with c :: p' => if c =? 32 then skip_spaces p' else p | [] => [] end.

(** ** Facts *)
Lemma not_in_dec x (l : list Z) : existsb (Z.eqb x) l = false -> x ∉ l.
Proof.
  intros H Hin. apply not_true_iff_false in H. apply H, existsb_exists. exists x. split; [by apply list_elem_of_In|by apply Z.eqb_refl].
Qed.
Definition plain (l : list Z) : Prop := 0 ∉ l.
Section Facts.
Context {S : Type}.
Implicit Types (s : S) (a p : list Z).

Lemma c_text_spec a p s : plain a -> c_text (a ++ 0 :: p) s = Ret a s.
Proof.
  unfold plain. induction a as [|x a IH]; intros Ha; [done|]. apply not_elem_of_cons in Ha as [Hx Ha]. cbn [c_text app].
  rewrite (proj2 (Z.eqb_neq _ _)) by done. by rewrite (bind_Ret _ _ _ _ _ (IH Ha)).
Qed.
Lemma strlen_spec a p s : plain a -> strlen (a ++ 0 :: p) s = Ret (Z.of_nat (length a)) s.
Proof. intros Ha. unfold strlen. by rewrite (bind_Ret _ _ _ _ _ (c_text_spec a p s Ha)). Qed.

Lemma strchr_found c a p s : plain a -> c ∉ a -> strchr c (a ++ c :: p) s = Ret (Some (c :: p)) s.
Proof.
  unfold plain. induction a as [|x a IH]; intros Ha Hc; cbn [strchr app]; [by rewrite Z.eqb_refl|].
  apply not_elem_of_cons in Ha as [Hx Ha]. apply not_elem_of_cons in Hc as [Hxc Hc].
  rewrite !(proj2 (Z.eqb_neq _ _)) by congruence. by apply IH.
Qed.
Lemma strchr_absent c a p s : plain a -> c ∉ a -> c <> 0 -> strchr c (a ++ 0 :: p) s = Ret None s.
Proof.
  unfold plain. intros Ha Hc Hc0. induction a as [|x a IH]; cbn [strchr app]; [by rewrite (proj2 (Z.eqb_neq _ _)) by congruence|].
  apply not_elem_of_cons in Ha as [Hx Ha]. apply not_elem_of_cons in Hc as [Hxc Hc].
  rewrite !(proj2 (Z.eqb_neq _ _)) by congruence. by apply IH.
Qed.

Lemma strstr_crlf a p s : plain a -> 13 ∉ a -> strstr CRLF (a ++ CRLF ++ p) s = Ret (Some (CRLF ++ p)) s.
Proof.
  unfold plain. induction a as [|x a IH]; intros Ha Hc; cbn [strstr app CRLF length take]; [done|].
  apply not_elem_of_cons in Ha as [Hx Ha]. apply not_elem_of_cons in Hc as [Hxc Hc].
  rewrite decide_False by (by destruct a; intros [= -> ?]).
  rewrite (proj2 (Z.eqb_neq _ _)) by congruence. by apply IH.
Qed.
Lemma strstr_absent a p s : plain a -> 13 ∉ a -> strstr CRLF (a ++ 0 :: p) s = Ret None s.
Proof.
  unfold plain. induction a as [|x a IH]; intros Ha Hc; cbn [strstr app CRLF length take].
  - rewrite decide_False by (by destruct p). done.
  - apply not_elem_of_cons in Ha as [Hx Ha]. apply not_elem_of_cons in Hc as [Hxc Hc].
    rewrite decide_False by (by destruct a; intros [= -> ?]).
    rewrite (proj2 (Z.eqb_neq _ _)) by congruence. by apply IH.
Qed.

Lemma starts_with_app t p s : starts_with t (t ++ p) s = Ret true s.
Proof. induction t as [|c t IH]; [done|]. cbn. by rewrite Z.eqb_refl. Qed.

Lemma equal_by_spec f t a p s :
  plain a -> plain t -> f 0 ∉ f <$> a -> f 0 ∉ f <$> t -> equal_by f t (a ++ 0 :: p) s = Ret (bool_decide (f <$> a = f <$> t)) s.
Proof.
  unfold plain. revert t. induction a as [|x a IH]; intros t Ha Ht Hfa Hft.
  - destruct t as [|c t]; [done|]. cbn. rewrite fmap_cons in Hft. apply not_elem_of_cons in Hft as [Hn _].
    rewrite (proj2 (Z.eqb_neq _ _)) by done. done.
  - apply not_elem_of_cons in Ha as [Hx Ha]. rewrite fmap_cons in Hfa. apply not_elem_of_cons in Hfa as [Hfx Hfa].
    destruct t as [|c t]; cbn [equal_by app].
    + rewrite (proj2 (Z.eqb_neq _ _)) by congruence. done.
    + apply not_elem_of_cons in Ht as [Hc Ht]. rewrite fmap_cons in Hft. apply not_elem_of_cons in Hft as [Hfc Hft].
      destruct (Z.eqb_spec (f x) (f c)) as [E|E].
      * rewrite (IH t Ha Ht Hfa Hft). f_equal. rewrite !fmap_cons, E. apply bool_decide_ext. split; [by intros ->|by intros [=]].
      * f_equal. rewrite bool_decide_eq_false_2; [done|]. rewrite !fmap_cons. congruence.
Qed.
Lemma tolower_0 l : plain l -> tolower 0 ∉ tolower <$> l.
Proof.
  intros Hl (y & Hy & Hin)%list_elem_of_fmap. assert (y = 0) as ->; [|done].
  revert Hy. unfold tolower. repeat case_match; lia.
Qed.
Lemma streq_spec t a p s : plain a -> plain t -> streq t (a ++ 0 :: p) s = Ret (bool_decide (a = t)) s.
Proof.
  intros Ha Ht. unfold streq. rewrite equal_by_spec; [by rewrite !list_fmap_id|done|done|by rewrite list_fmap_id|by rewrite list_fmap_id].
Qed.
Lemma strcaseeq_spec t a p s :
  plain a -> plain t -> strcaseeq t (a ++ 0 :: p) s = Ret (bool_decide (tolower <$> a = tolower <$> t)) s.
Proof. intros. unfold strcaseeq. apply equal_by_spec; try done; by apply tolower_0. Qed.

(** [strstr] finds any text that occurs. *)
Lemma strstr_spec n a p s : plain a -> plain n -> n <> [] ->
  exists q, strstr n (a ++ 0 :: p) s = Ret q s /\ (is_Some q <-> exists l1 l2, a = l1 ++ n ++ l2).
Proof.
  unfold plain. intros Ha Hn Hn0. induction a as [|x a IH]; cbn [strstr app].
  - destruct n as [|c n]; [done|]. apply not_elem_of_cons in Hn as [Hc _]. rewrite decide_False by (cbn [length take]; congruence).
    eexists. split; [reflexivity|]. split; [by intros []|]. intros (l1 & l2 & E). symmetry in E. apply app_nil in E as [_ E]. by apply app_nil in E as [? _].
  - apply not_elem_of_cons in Ha as [Hx Ha]. destruct (IH Ha) as (q & E & Hq).
    destruct (decide (take (length n) (x :: a ++ 0 :: p) = n)) as [Ht|Ht].
    + eexists. split; [reflexivity|]. split; [intros _|by eexists]. exists [], (drop (length n) (x :: a)). cbn [app].
      assert (Hlen : (length n <= length (x :: a))%nat).
      { destruct (decide (length n <= length (x :: a))%nat) as [|Hl]; [done|]. exfalso. apply Hn. rewrite <- Ht.
        change (x :: a ++ 0 :: p) with ((x :: a) ++ 0 :: p). rewrite take_app. apply elem_of_app. right.
        destruct (length n - length (x :: a))%nat as [|k] eqn:Ek; [lia|]. cbn. left. }
      rewrite <- (take_drop (length n) (x :: a)) at 1. f_equal. rewrite <- Ht at 2.
      change (x :: a ++ 0 :: p) with ((x :: a) ++ 0 :: p). by rewrite take_app_le.
    + rewrite (proj2 (Z.eqb_neq _ _)) by congruence. exists q. split; [exact E|]. rewrite Hq. split.
      * intros (l1 & l2 & ->). by exists (x :: l1), l2.
      * intros (l1 & l2 & El). destruct l1 as [|y l1]; [|injection El as -> ->; by exists l1, l2].
        exfalso. apply Ht. cbn [app] in El. change (x :: a ++ 0 :: p) with ((x :: a) ++ 0 :: p). rewrite El, <- app_assoc. apply take_app_length.
Qed.
End Facts.

Definition digits (l : list Z) : Prop := Forall (fun c => 48 <= c <= 57) l.
Definition no_digit (p : list Z) : Prop := match p with c :: _ => isdigit c = false | [] => True end.
Lemma number_app n l p : digits l -> no_digit p -> number_from n (l ++ p) = number_from n l.
Proof.
  unfold digits. intros Hl Hp. revert n. induction l as [|c l IH]; intros n; cbn.
  - destruct p as [|c p]; [done|]. cbn in *. by rewrite Hp.
  - apply Forall_cons in Hl as [Hc Hl]. destruct (isdigit c); [by apply IH|done].
Qed.
Lemma number_nonneg n l : digits l -> 0 <= n -> 0 <= number_from n l.
Proof.
  unfold digits. revert n. induction l as [|c l IH]; intros n Hl Hn; cbn; [done|]. apply Forall_cons in Hl as [Hc Hl].
  destruct (isdigit c); [|done]. apply IH; [done|]. lia.
Qed.
(** A number of at least one digit that an [int] holds. *)
Lemma atoi_digits l p : digits l -> l <> [] -> no_digit p -> number l <= 2147483647 -> atoi (l ++ p) = number l.
Proof.
  intros Hl Hn Hp Hb. destruct l as [|c l]; [done|]. assert (48 <= c <= 57) as Hc by (by apply Forall_cons in Hl as [? _]).
  cbn [app atoi]. unfold isspace. rewrite !(proj2 (Z.eqb_neq _ _)) by lia. rewrite (proj2 (Z.leb_gt c 13)) by lia.
  rewrite andb_false_r. cbn [orb]. unfold clamp, number in *. change (c :: l ++ p) with ((c :: l) ++ p).
  rewrite number_app by done. pose proof (number_nonneg 0 (c :: l) Hl ltac:(lia)). lia.
Qed.
Lemma skip_spaces_spec n l : head l <> Some 32 -> skip_spaces (replicate n 32 ++ l) = l.
Proof.
  intros Hl. induction n as [|n IH]; [|done]. destruct l as [|c l]; [done|]. cbn in *.
  rewrite (proj2 (Z.eqb_neq _ _)) by congruence. done.
Qed.

(** The needle occurs in the text. *)
Fixpoint contains (n a : list Z) : bool :=
  bool_decide (take (length n) a = n) || match a with [] => false | _ :: a => contains n a end.
Lemma contains_spec n a : contains n a = true <-> exists l1 l2, a = l1 ++ n ++ l2.
Proof.
  induction a as [|x a IH]; cbn [contains]; rewrite orb_true_iff, bool_decide_eq_true.
  - split.
    + intros [E|]; [|done]. rewrite take_nil in E. subst n. by exists [], [].
    + intros (l1 & l2 & E). left. symmetry in E. apply app_nil in E as [_ E]. apply app_nil in E as [-> _]. done.
  - rewrite IH. split.
    + intros [E|(l1 & l2 & ->)]; [|by exists (x :: l1), l2]. exists [], (drop (length n) (x :: a)). cbn [app]. rewrite <- E at 1. by rewrite take_drop.
    + intros ([|y l1] & l2 & E); [|injection E as -> ->; right; by exists l1, l2]. left. cbn [app] in E. rewrite E. apply take_app_length.
Qed.
Lemma strstr_contains {S} n a p (s : S) : plain a -> plain n -> n <> [] ->
  exists q, strstr n (a ++ 0 :: p) s = Ret q s /\ bool_decide (is_Some q) = contains n a.
Proof.
  intros Ha Hn Hn0. destruct (strstr_spec n a p s Ha Hn Hn0) as (q & E & H). exists q. split; [done|].
  rewrite <- contains_spec in H. apply eq_bool_prop_intro. rewrite bool_decide_spec. destruct (contains n a); naive_solver.
Qed.
