(* ===== verification/Http.v ===== *)
(** * Http

    src/src/http.c: URLs, requests and responses; src/src/mcurl.c: the options of a
    request.  [mcurl_perform], which would put them together, is defined nowhere. *)
From Stdlib Require Import String.
From S2P Require Import Prelude Text.

(** ** Data *)
Definition MAX_HEADER_SIZE : Z := 8192.
Definition MAX_LINE_LENGTH : Z := 1024.
Definition MCURL_OK : Z := 0.
Definition MCURL_ERROR_INIT : Z := -1.
Definition MCURL_ERROR_PROTOCOL : Z := -2.

Inductive mcurl_method_t : Type :=
| MCURL_GET | MCURL_POST | MCURL_PUT | MCURL_DELETE | MCURL_HEAD | MCURL_OPTIONS | MCURL_PATCH.
Inductive mcurl_ssl_version_t : Type :=
| MCURL_SSL_ANY | MCURL_SSL_TLSv1 | MCURL_SSL_TLSv1_1 | MCURL_SSL_TLSv1_2 | MCURL_SSL_TLSv1_3.
Inductive mcurl_proxy_type_t : Type := MCURL_PROXY_NONE | MCURL_PROXY_HTTP | MCURL_PROXY_SOCKS4 | MCURL_PROXY_SOCKS5.

(** A list of headers, first to last; a name or value is NULL when there was no
    memory to copy it. *)
Record mcurl_header_t : Type := McurlHeader { name : option (list Z); value : option (list Z) }.

Record mcurl_options_t : Type := McurlOptions {
  method : mcurl_method_t;
  ssl_version : mcurl_ssl_version_t;
  proxy_type : mcurl_proxy_type_t;
  proxy_host : option (list Z);
  proxy_port : Z;
  proxy_user : option (list Z);
  proxy_pass : option (list Z);
  verify_ssl : bool;
  ca_path : option (list Z);
  client_cert : option (list Z);
  client_key : option (list Z);
  headers : list mcurl_header_t;
  user_agent : option (list Z);
  cookie : option (list Z);
  connect_timeout : Z;
  timeout : Z;
  follow_location : bool;
  max_redirects : Z;
  verbose : bool
}.

Record mcurl_response_t : Type := McurlResponse {
  status_code : Z;
  r_headers : list mcurl_header_t;
  r_body : option (list Z);
  r_body_length : Z
}.

Record http_request_t : Type := HttpRequest {
  rq_method : mcurl_method_t;
  host : list Z;
  path : list Z;
  body : option (list Z);
  body_length : Z
}.

(** What [parse_url] stores through its pointers. *)
Record url_parts : Type := UrlParts { u_host : option (list Z); u_port : Z; u_path : option (list Z); use_ssl : bool }.

(** The objects a function works on, with the outcomes of the coming allocations; when
    they are used up there is memory. *)
Record with_heap (X : Type) : Type := WithHeap { val : X; outcomes : list bool }.
Arguments WithHeap {X} val outcomes.
Arguments val {X} w.
Arguments outcomes {X} w.

Section Heap.
Context {X : Type}.
Definition alloc : Cmd (with_heap X) bool :=
  let* s := get in
  match outcomes s with
  | [] => ret true
  | b :: l => put (WithHeap (val s) l) ;;; ret b
  end.
Definition strdup (p : list Z) : Cmd (with_heap X) (option (list Z)) :=
  let* t := c_text p in
  let* ok := alloc in
  ret (if ok then Some t else None).
Definition store (f : X -> X) : Cmd (with_heap X) unit := modify (fun s => WithHeap (f (val s)) (outcomes s)).
End Heap.

(** ** URLs *)
Definition set_u_host (h : option (list Z)) (u : url_parts) := UrlParts h (u_port u) (u_path u) (use_ssl u).
Definition set_u_port (n : Z) (u : url_parts) := UrlParts (u_host u) n (u_path u) (use_ssl u).
Definition set_u_path (p : option (list Z)) (u : url_parts) := UrlParts (u_host u) (u_port u) p (use_ssl u).
Definition set_use_ssl (b : bool) (u : url_parts) := UrlParts (u_host u) (u_port u) (u_path u) b.

(** The protocol, and the URL after it. *)
Definition url_scheme (url : list Z) : Cmd (with_heap url_parts) (option (list Z)) :=
  let* http := starts_with (str "http://") url in
  if http then store (set_use_ssl false) ;;; ret (Some (drop 7 url)) else
  let* https := starts_with (str "https://") url in
  if https then store (set_use_ssl true) ;;; ret (Some (drop 8 url)) else ret None.
(** The end of the host; the path is stored. *)
Definition url_path (url : list Z) : Cmd (with_heap url_parts) (list Z) :=
  let* slash := strchr 47 url in
  match slash with
  | None =>
      let* n := strlen url in
      let* p := strdup (str "/" ++ [0]) in
      store (set_u_path p) ;;;
      ret (drop (Z.to_nat n) url)
  | Some host_end => let* p := strdup host_end in store (set_u_path p) ;;; ret host_end
  end.
(** The port is stored; the host up to the colon is left in [host_str]. *)
Definition url_port (host_str : list Z) : Cmd (with_heap url_parts) (list Z) :=
  let* port_str := strchr 58 host_str in
  match port_str with
  | Some p =>
      store (set_u_port (u16 (atoi (drop 1 p)))) ;;;
      ret (take (length host_str - length p) host_str ++ [0])
  | None =>
      let* s := get in
      store (set_u_port (if use_ssl (val s) then 443 else 80)) ;;;
      ret host_str
  end.
Definition parse_url (url : list Z) : Cmd (with_heap url_parts) Z :=
  let* rest := url_scheme url in
  match rest with
  | None => ret MCURL_ERROR_PROTOCOL
  | Some url =>
      let* host_end := url_path url in
      let host_len := (length url - length host_end)%nat in
      if 256 <=? Z.of_nat host_len then ret MCURL_ERROR_PROTOCOL else
      let* host_str := url_port (take host_len url ++ [0]) in
      let* h := strdup host_str in
      store (set_u_host h) ;;;
      ret MCURL_OK
  end.

(** ** Requests

    The buffer of [size] bytes, and [pos]. *)
Record req_buf : Type := ReqBuf { bytes : list Z; pos : Z }.

Definition store_bytes (size : Z) (at_ : Z) (w : list Z) : Cmd req_buf unit :=
  if (0 <=? at_) && (at_ + Z.of_nat (length w) <=? size)
  then modify (fun b => ReqBuf (take (Z.to_nat at_) (bytes b) ++ w ++ drop (Z.to_nat at_ + length w) (bytes b)) (pos b))
  else fail Fault.
(** [pos += snprintf (buffer + pos, size - pos, ...)], the text being [d]: at most
    [size - pos] bytes are stored, and the whole length is added. *)
Definition snprintf (size : Z) (d : list Z) : Cmd req_buf unit :=
  let* b := get in
  let room := u32 (size - pos b) in
  (if room =? 0 then ret tt else store_bytes size (pos b) (take (Z.to_nat (room - 1)) d ++ [0])) ;;;
  modify (fun b => ReqBuf (bytes b) (i32 (pos b + Z.of_nat (length d)))).

Definition method_str (m : mcurl_method_t) : list Z :=
  match m with
  | MCURL_GET => str "GET"
  | MCURL_POST => str "POST"
  | MCURL_PUT => str "PUT"
  | MCURL_DELETE => str "DELETE"
  | MCURL_HEAD => str "HEAD"
  | MCURL_OPTIONS => str "OPTIONS"
  | MCURL_PATCH => str "PATCH"
  end.

Section Request.
(** [print_zu]: the decimal digits that [%zu] prints. *)
Context (print_zu : Z -> list Z).

Definition request_line (rq : http_request_t) : list Z :=
  method_str (rq_method rq) ++ str " " ++ path rq ++ str " HTTP/1.1" ++ CRLF ++ str "Host: " ++ host rq ++ CRLF.
Definition header_line (n v : list Z) : list Z := n ++ str ": " ++ v ++ CRLF.
Definition request_size (rq : http_request_t) : Z :=
  match body rq with Some _ => u32 (MAX_HEADER_SIZE + body_length rq) | None => MAX_HEADER_SIZE end.

(** [malloc_ok]: whether the buffer is found, as it is in the state.  The length is
    returned. *)
Definition build_request (malloc_ok : bool) (rq : http_request_t) (options : mcurl_options_t) : Cmd req_buf (option Z) :=
  let size := request_size rq in
  if negb malloc_ok then ret None else
  modify (fun b => ReqBuf (bytes b) 0) ;;;
  snprintf size (request_line rq) ;;;
  for_each (headers options) (fun h =>
    let* n := deref (name h) in
    let* v := deref (value h) in
    snprintf size (header_line n v)) ;;;
  match user_agent options with Some v => snprintf size (header_line (str "User-Agent") v) | None => ret tt end ;;;
  match cookie options with Some v => snprintf size (header_line (str "Cookie") v) | None => ret tt end ;;;
  match body rq with Some _ => snprintf size (header_line (str "Content-Length") (print_zu (body_length rq))) | None => ret tt end ;;;
  snprintf size CRLF ;;;
  match body rq with
  | Some d =>
      let* b := get in
      (if Z.of_nat (length d) <? body_length rq then fail Fault
       else store_bytes size (pos b) (take (Z.to_nat (body_length rq)) d)) ;;;
      modify (fun b => ReqBuf (bytes b) (i32 (pos b + body_length rq)))
  | None => ret tt
  end ;;;
  let* b := get in
  ret (Some (pos b)).
End Request.

(** ** Responses *)
Definition set_status (n : Z) (r : mcurl_response_t) := McurlResponse n (r_headers r) (r_body r) (r_body_length r).
Definition push_header (h : mcurl_header_t) (r : mcurl_response_t) := McurlResponse (status_code r) (h :: r_headers r) (r_body r) (r_body_length r).
Definition set_r_body (d : list Z) (r : mcurl_response_t) := McurlResponse (status_code r) (r_headers r) (Some d) (Z.of_nat (length d)).

Section Response.
(** [buffer]: the memory from the buffer on; [end_] is the length given. *)
Context (buffer : list Z) (end_ : Z).
Definition offset (p : list Z) : Z := Z.of_nat (length buffer) - Z.of_nat (length p).

(** One header, in [line]. *)
Definition parse_header (line : list Z) : Cmd (with_heap mcurl_response_t) unit :=
  let* sep := strchr 58 line in
  match sep with
  | None => ret tt
  | Some sep =>
      let* header := alloc in
      let* n := strdup (take (length line - length sep) line ++ [0]) in
      if negb header then fail Fault else
      let* v := strdup (skip_spaces (drop 1 sep)) in
      store (push_header (McurlHeader n v))
  end.
(** The headers; [None] for a line that is too long, else where the body starts. *)
Fixpoint header_loop (fuel : nat) (p : list Z) : Cmd (with_heap mcurl_response_t) (option (list Z)) :=
  if offset p <? end_ then
    match fuel with
    | O => fail NoFuel
    | S fuel' =>
        let* line_end := strstr CRLF p in
        match line_end with
        | None => ret (Some p)
        | Some e =>
            if end_ <=? offset e then ret (Some p) else
            let line_length := (length p - length e)%nat in
            if decide (line_length = 0%nat) then ret (Some (drop 2 e)) else
            if MAX_LINE_LENGTH <=? Z.of_nat line_length then ret None else
            parse_header (take line_length p ++ [0]) ;;;
            header_loop fuel' (drop 2 e)
        end
    end
  else ret (Some p).
Definition copy_body (p : list Z) : Cmd (with_heap mcurl_response_t) unit :=
  let n := u32 (end_ - offset p) in
  if 0 <? n then
    let* ok := alloc in
    if ok && (n <=? Z.of_nat (length p)) then store (set_r_body (take (Z.to_nat n) p)) else fail Fault
  else ret tt.
Definition parse_response (fuel : nat) : Cmd (with_heap mcurl_response_t) Z :=
  let* p := strchr 32 buffer in
  match p with
  | None => ret MCURL_ERROR_PROTOCOL
  | Some p =>
      if end_ <=? offset p then ret MCURL_ERROR_PROTOCOL else
      let p := drop 1 p in
      store (set_status (atoi p)) ;;;
      let* q := strstr CRLF p in
      match q with
      | None => ret MCURL_ERROR_PROTOCOL
      | Some q =>
          if end_ <=? offset q then ret MCURL_ERROR_PROTOCOL else
          let* b := header_loop fuel (drop 2 q) in
          match b with
          | None => ret MCURL_ERROR_PROTOCOL
          | Some b => copy_body b ;;; ret MCURL_OK
          end
      end
  end.
End Response.

(** ** Options *)
Definition set_proxy_host (v : option (list Z)) (o : mcurl_options_t) : mcurl_options_t :=
  McurlOptions (method o) (ssl_version o) (proxy_type o) v (proxy_port o) (proxy_user o) (proxy_pass o) (verify_ssl o) (ca_path o) (client_cert o) (client_key o) (headers o) (user_agent o) (cookie o) (connect_timeout o) (timeout o) (follow_location o) (max_redirects o) (verbose o).
Definition set_proxy_user (v : option (list Z)) (o : mcurl_options_t) : mcurl_options_t :=
  McurlOptions (method o) (ssl_version o) (proxy_type o) (proxy_host o) (proxy_port o) v (proxy_pass o) (verify_ssl o) (ca_path o) (client_cert o) (client_key o) (headers o) (user_agent o) (cookie o) (connect_timeout o) (timeout o) (follow_location o) (max_redirects o) (verbose o).
Definition set_proxy_pass (v : option (list Z)) (o : mcurl_options_t) : mcurl_options_t :=
  McurlOptions (method o) (ssl_version o) (proxy_type o) (proxy_host o) (proxy_port o) (proxy_user o) v (verify_ssl o) (ca_path o) (client_cert o) (client_key o) (headers o) (user_agent o) (cookie o) (connect_timeout o) (timeout o) (follow_location o) (max_redirects o) (verbose o).
Definition set_ca_path (v : option (list Z)) (o : mcurl_options_t) : mcurl_options_t :=
  McurlOptions (method o) (ssl_version o) (proxy_type o) (proxy_host o) (proxy_port o) (proxy_user o) (proxy_pass o) (verify_ssl o) v (client_cert o) (client_key o) (headers o) (user_agent o) (cookie o) (connect_timeout o) (timeout o) (follow_location o) (max_redirects o) (verbose o).
Definition set_client_cert (v : option (list Z)) (o : mcurl_options_t) : mcurl_options_t :=
  McurlOptions (method o) (ssl_version o) (proxy_type o) (proxy_host o) (proxy_port o) (proxy_user o) (proxy_pass o) (verify_ssl o) (ca_path o) v (client_key o) (headers o) (user_agent o) (cookie o) (connect_timeout o) (timeout o) (follow_location o) (max_redirects o) (verbose o).
Definition set_client_key (v : option (list Z)) (o : mcurl_options_t) : mcurl_options_t :=
  McurlOptions (method o) (ssl_version o) (proxy_type o) (proxy_host o) (proxy_port o) (proxy_user o) (proxy_pass o) (verify_ssl o) (ca_path o) (client_cert o) v (headers o) (user_agent o) (cookie o) (connect_timeout o) (timeout o) (follow_location o) (max_redirects o) (verbose o).
Definition set_user_agent (v : option (list Z)) (o : mcurl_options_t) : mcurl_options_t :=
  McurlOptions (method o) (ssl_version o) (proxy_type o) (proxy_host o) (proxy_port o) (proxy_user o) (proxy_pass o) (verify_ssl o) (ca_path o) (client_cert o) (client_key o) (headers o) v (cookie o) (connect_timeout o) (timeout o) (follow_location o) (max_redirects o) (verbose o).
Definition set_cookie (v : option (list Z)) (o : mcurl_options_t) : mcurl_options_t :=
  McurlOptions (method o) (ssl_version o) (proxy_type o) (proxy_host o) (proxy_port o) (proxy_user o) (proxy_pass o) (verify_ssl o) (ca_path o) (client_cert o) (client_key o) (headers o) (user_agent o) v (connect_timeout o) (timeout o) (follow_location o) (max_redirects o) (verbose o).
Definition set_verify_ssl (v : bool) (o : mcurl_options_t) : mcurl_options_t :=
  McurlOptions (method o) (ssl_version o) (proxy_type o) (proxy_host o) (proxy_port o) (proxy_user o) (proxy_pass o) v (ca_path o) (client_cert o) (client_key o) (headers o) (user_agent o) (cookie o) (connect_timeout o) (timeout o) (follow_location o) (max_redirects o) (verbose o).
Definition set_connect_timeout (v : Z) (o : mcurl_options_t) : mcurl_options_t :=
  McurlOptions (method o) (ssl_version o) (proxy_type o) (proxy_host o) (proxy_port o) (proxy_user o) (proxy_pass o) (verify_ssl o) (ca_path o) (client_cert o) (client_key o) (headers o) (user_agent o) (cookie o) v (timeout o) (follow_location o) (max_redirects o) (verbose o).
Definition set_timeout (v : Z) (o : mcurl_options_t) : mcurl_options_t :=
  McurlOptions (method o) (ssl_version o) (proxy_type o) (proxy_host o) (proxy_port o) (proxy_user o) (proxy_pass o) (verify_ssl o) (ca_path o) (client_cert o) (client_key o) (headers o) (user_agent o) (cookie o) (connect_timeout o) v (follow_location o) (max_redirects o) (verbose o).
Definition set_follow_location (v : bool) (o : mcurl_options_t) : mcurl_options_t :=
  McurlOptions (method o) (ssl_version o) (proxy_type o) (proxy_host o) (proxy_port o) (proxy_user o) (proxy_pass o) (verify_ssl o) (ca_path o) (client_cert o) (client_key o) (headers o) (user_agent o) (cookie o) (connect_timeout o) (timeout o) v (max_redirects o) (verbose o).
Definition set_max_redirects (v : Z) (o : mcurl_options_t) : mcurl_options_t :=
  McurlOptions (method o) (ssl_version o) (proxy_type o) (proxy_host o) (proxy_port o) (proxy_user o) (proxy_pass o) (verify_ssl o) (ca_path o) (client_cert o) (client_key o) (headers o) (user_agent o) (cookie o) (connect_timeout o) (timeout o) (follow_location o) v (verbose o).
Definition set_verbose (v : bool) (o : mcurl_options_t) : mcurl_options_t :=
  McurlOptions (method o) (ssl_version o) (proxy_type o) (proxy_host o) (proxy_port o) (proxy_user o) (proxy_pass o) (verify_ssl o) (ca_path o) (client_cert o) (client_key o) (headers o) (user_agent o) (cookie o) (connect_timeout o) (timeout o) (follow_location o) (max_redirects o) v.

(** [struct mcurl_handle]; the pointers of the callbacks are addresses. *)
Record mcurl_handle : Type := McurlHandle {
  h_options : mcurl_options_t;
  progress_cb : Z;
  progress_data : Z;
  write_cb : Z;
  write_data : Z;
  read_cb : Z;
  read_data : Z
}.
Definition set_h_options (f : mcurl_options_t -> mcurl_options_t) (h : mcurl_handle) : mcurl_handle :=
  McurlHandle (f (h_options h)) (progress_cb h) (progress_data h) (write_cb h) (write_data h) (read_cb h) (read_data h).

(** A new handle, or NULL. *)
Definition mcurl_init (calloc_ok : bool) : option mcurl_handle :=
  if negb calloc_ok then None else
  Some (McurlHandle (McurlOptions MCURL_GET MCURL_SSL_ANY MCURL_PROXY_NONE None 0 None None true None None None [] None None
                       30 300 true 50 false) 0 0 0 0 0 0).

(** The functions take the handle behind [curl], [None] for NULL, the name of the
    option and its value. *)
Definition mcurl_setopt_long (opt : option (list Z)) (value : Z) : Cmd (with_heap (option mcurl_handle)) Z :=
  let set f := store (fmap (set_h_options f)) ;;; ret MCURL_OK in
  let* s := get in
  match val s, opt with
  | Some _, Some opt =>
      if decide (opt = str "CONNECT_TIMEOUT") then set (set_connect_timeout value)
      else if decide (opt = str "TIMEOUT") then set (set_timeout value)
      else if decide (opt = str "FOLLOW_LOCATION") then set (set_follow_location (negb (value =? 0)))
      else if decide (opt = str "MAX_REDIRECTS") then set (set_max_redirects value)
      else if decide (opt = str "VERIFY_SSL") then set (set_verify_ssl (negb (value =? 0)))
      else if decide (opt = str "VERBOSE") then set (set_verbose (negb (value =? 0)))
      else ret MCURL_ERROR_INIT
  | _, _ => ret MCURL_ERROR_INIT
  end.

(** The string an option names. *)
Definition string_target (opt : list Z) : option (option (list Z) -> mcurl_options_t -> mcurl_options_t) :=
  if decide (opt = str "PROXY") then Some set_proxy_host
  else if decide (opt = str "PROXY_USER") then Some set_proxy_user
  else if decide (opt = str "PROXY_PASS") then Some set_proxy_pass
  else if decide (opt = str "CA_PATH") then Some set_ca_path
  else if decide (opt = str "CLIENT_CERT") then Some set_client_cert
  else if decide (opt = str "CLIENT_KEY") then Some set_client_key
  else if decide (opt = str "USER_AGENT") then Some set_user_agent
  else if decide (opt = str "COOKIE") then Some set_cookie
  else None.
(** [value] is the memory behind the pointer. *)
Definition mcurl_setopt_string (opt value : option (list Z)) : Cmd (with_heap (option mcurl_handle)) Z :=
  let* s := get in
  match val s, opt with
  | Some _, Some opt =>
      match string_target opt with
      | None => ret MCURL_ERROR_INIT
      | Some target =>
          let* t := match value with Some v => strdup v | None => ret None end in
          store (fmap (set_h_options (target t))) ;;;
          ret MCURL_OK
      end
  | _, _ => ret MCURL_ERROR_INIT
  end.

Definition mcurl_setopt_pointer (opt : option (list Z)) (value : Z) : Cmd (with_heap (option mcurl_handle)) Z :=
  let set f := store (fmap f) ;;; ret MCURL_OK in
  let* s := get in
  match val s, opt with
  | Some _, Some opt =>
      if decide (opt = str "PROGRESS_CALLBACK") then
        set (fun h => McurlHandle (h_options h) value (progress_data h) (write_cb h) (write_data h) (read_cb h) (read_data h))
      else if decide (opt = str "PROGRESS_DATA") then
        set (fun h => McurlHandle (h_options h) (progress_cb h) value (write_cb h) (write_data h) (read_cb h) (read_data h))
      else if decide (opt = str "WRITE_CALLBACK") then
        set (fun h => McurlHandle (h_options h) (progress_cb h) (progress_data h) value (write_data h) (read_cb h) (read_data h))
      else if decide (opt = str "WRITE_DATA") then
        set (fun h => McurlHandle (h_options h) (progress_cb h) (progress_data h) (write_cb h) value (read_cb h) (read_data h))
      else if decide (opt = str "READ_CALLBACK") then
        set (fun h => McurlHandle (h_options h) (progress_cb h) (progress_data h) (write_cb h) (write_data h) value (read_data h))
      else if decide (opt = str "READ_DATA") then
        set (fun h => McurlHandle (h_options h) (progress_cb h) (progress_data h) (write_cb h) (write_data h) (read_cb h) value)
      else ret MCURL_ERROR_INIT
  | _, _ => ret MCURL_ERROR_INIT
  end.

(** ** Facts *)
(** The coming allocation, and what it leaves of a copy. *)
Definition next_ok (l : list bool) : bool := match l with [] => true | b :: _ => b end.
Definition copied (l : list bool) (t : list Z) : option (list Z) := if next_ok l then Some t else None.

Section HeapFacts.
Context {X : Type}.
Lemma alloc_spec (x : X) l : alloc (WithHeap x l) = Ret (next_ok l) (WithHeap x (tail l)).
Proof. by destruct l. Qed.
Lemma strdup_spec (x : X) l a p : plain a -> strdup (a ++ 0 :: p) (WithHeap x l) = Ret (copied l a) (WithHeap x (tail l)).
Proof.
  intros Ha. unfold strdup. rewrite (bind_Ret _ _ _ _ _ (c_text_spec a p _ Ha)).
  by rewrite (bind_Ret _ _ _ _ _ (alloc_spec x l)).
Qed.
End HeapFacts.

(** *** URLs *)
Definition scheme (ssl : bool) : list Z := if ssl then str "https://" else str "http://".
Definition default_port (ssl : bool) : Z := if ssl then 443 else 80.
Definition path_of (rest : list Z) : list Z := match rest with [] => str "/" | _ => rest end.
Definition is_path (rest : list Z) : Prop := match rest with [] => True | c :: _ => c = 47 end.

Lemma url_scheme_spec ssl p s :
  url_scheme (scheme ssl ++ p) s = Ret (Some p) (WithHeap (set_use_ssl ssl (val s)) (outcomes s)).
Proof. by destruct ssl. Qed.

Lemma url_path_spec a rest more u l :
  plain a -> plain rest -> 47 ∉ a -> is_path rest ->
  url_path (a ++ rest ++ 0 :: more) (WithHeap u l)
    = Ret (rest ++ 0 :: more) (WithHeap (set_u_path (copied l (path_of rest)) u) (tail l)).
Proof.
  intros Ha Hr Hs Hp. unfold url_path. destruct rest as [|c rest].
  - cbn [app]. rewrite (bind_Ret _ _ _ _ _ (strchr_absent 47 a more _ Ha Hs ltac:(done))).
    rewrite (bind_Ret _ _ _ _ _ (strlen_spec a more _ Ha)).
    assert (Hd : strdup (str "/" ++ [0]) (WithHeap u l) = Ret (copied l (str "/")) (WithHeap u (tail l))) by (by destruct l).
    rewrite (bind_Ret _ _ _ _ _ Hd). rewrite Nat2Z.id, drop_app_length. done.
  - cbn in Hp. subst c. cbn [app]. rewrite (bind_Ret _ _ _ _ _ (strchr_found 47 a (rest ++ 0 :: more) _ Ha Hs)).
    change (47 :: rest ++ 0 :: more) with ((47 :: rest) ++ 0 :: more).
    by rewrite (bind_Ret _ _ _ _ _ (strdup_spec u l (47 :: rest) more Hr)).
Qed.

Lemma url_port_none a u l :
  plain a -> 58 ∉ a ->
  url_port (a ++ [0]) (WithHeap u l) = Ret (a ++ [0]) (WithHeap (set_u_port (default_port (use_ssl u)) u) l).
Proof. intros Ha Hc. unfold url_port. by rewrite (bind_Ret _ _ _ _ _ (strchr_absent 58 a [] _ Ha Hc ltac:(done))). Qed.
Lemma url_port_some h d u l :
  plain h -> 58 ∉ h ->
  url_port (h ++ 58 :: d ++ [0]) (WithHeap u l) = Ret (h ++ [0]) (WithHeap (set_u_port (u16 (atoi (d ++ [0]))) u) l).
Proof.
  intros Ha Hc. unfold url_port. rewrite (bind_Ret _ _ _ _ _ (strchr_found 58 h (d ++ [0]) _ Ha Hc)).
  rewrite (length_app h). rewrite Nat.add_sub, take_app_length. done.
Qed.

(** What is left after the path: the host is short enough or not. *)
Lemma parse_url_eq ssl a rest more u l :
  plain a -> plain rest -> 47 ∉ a -> is_path rest ->
  parse_url (scheme ssl ++ a ++ rest ++ 0 :: more) (WithHeap u l) =
    (if 256 <=? Z.of_nat (length a) then ret MCURL_ERROR_PROTOCOL else
     let* host_str := url_port (a ++ [0]) in
     let* h := strdup host_str in
     store (set_u_host h) ;;;
     ret MCURL_OK) (WithHeap (set_u_path (copied l (path_of rest)) (set_use_ssl ssl u)) (tail l)).
Proof.
  intros Ha Hr Hs Hp. unfold parse_url. rewrite (bind_Ret _ _ _ _ _ (url_scheme_spec ssl _ _)). cbn [val outcomes].
  rewrite (bind_Ret _ _ _ _ _ (url_path_spec a rest more _ l Ha Hr Hs Hp)).
  rewrite (length_app a), Nat.add_sub, take_app_length. done.
Qed.

(** *** Requests *)
Definition print1 (size : Z) (d : list Z) (b : req_buf) : option req_buf :=
  let room := u32 (size - pos b) in
  let w := take (Z.to_nat (room - 1)) d ++ [0] in
  let b' := fun l => ReqBuf l (i32 (pos b + Z.of_nat (length d))) in
  if room =? 0 then Some (b' (bytes b))
  else if (0 <=? pos b) && (pos b + Z.of_nat (length w) <=? size)
  then Some (b' (take (Z.to_nat (pos b)) (bytes b) ++ w ++ drop (Z.to_nat (pos b) + length w) (bytes b)))
  else None.
Fixpoint print_all (size : Z) (ds : list (list Z)) (b : req_buf) : option req_buf :=
  match ds with [] => Some b | d :: ds => b' ← print1 size d b; print_all size ds b' end.
Definition of_option {S} (o : option S) : prog S unit := match o with Some s => Ret tt s | None => Stop Fault end.
(** [c] prints the texts [ds], one after the other. *)
Definition prints (size : Z) (c : Cmd req_buf unit) (ds : list (list Z)) : Prop :=
  forall b, c b = of_option (print_all size ds b).

Section Prints.
Context (size : Z).
Lemma print_all_app ds1 ds2 b : print_all size (ds1 ++ ds2) b = b' ← print_all size ds1 b; print_all size ds2 b'.
Proof. revert b. induction ds1 as [|d ds1 IH]; intros b; [done|]. cbn. destruct (print1 size d b); [apply IH|done]. Qed.
Lemma prints_nil : prints size (ret tt) [].
Proof. done. Qed.
Lemma prints_snprintf d : prints size (snprintf size d) [d].
Proof.
  intros b. unfold snprintf, print_all, print1. erewrite (bind_Ret get) by reflexivity. cbv zeta.
  destruct (_ =? 0); [done|]. unfold store_bytes. by destruct (_ && _).
Qed.
Lemma prints_bind c1 c2 ds1 ds2 : prints size c1 ds1 -> prints size c2 ds2 -> prints size (c1 ;;; c2) (ds1 ++ ds2).
Proof.
  intros H1 H2 b. rewrite print_all_app. specialize (H1 b). destruct (print_all size ds1 b) as [b'|]; cbn in *.
  - rewrite (bind_Ret _ _ _ _ _ H1). apply H2.
  - by apply bind_Stop.
Qed.
Lemma prints_option {A} (o : option A) f : (forall v, prints size (snprintf size (f v)) [f v]) ->
  prints size (match o with Some v => snprintf size (f v) | None => ret tt end) (match o with Some v => [f v] | None => [] end).
Proof. intros H. destruct o; [apply H|apply prints_nil]. Qed.

(** A buffer that holds the text printed so far. *)
Record holds (t : list Z) (b : req_buf) : Prop := {
  holds_size : Z.of_nat (length (bytes b)) = size;
  holds_pos : pos b = Z.of_nat (length t);
  holds_text : take (length t) (bytes b) = t
}.
Context (Hsize : 0 <= size < 2 ^ 31).

Lemma i32_pos z : 0 <= z < 2 ^ 31 -> i32 z = z.
Proof. intros. apply i32_small. lia. Qed.
Lemma u32_under n : 0 <= n <= size -> u32 (size - n) = size - n.
Proof using Hsize. intros. apply u32_small. lia. Qed.

Lemma print1_fits t d b : holds t b -> Z.of_nat (length t + length d) < size ->
  exists b', print1 size d b = Some b' /\ holds (t ++ d) b'.
Proof using Hsize.
  intros [Hl Hp Ht] Hlt. unfold print1. rewrite Hp, u32_under by lia.
  rewrite (proj2 (Z.eqb_neq _ _)) by lia. rewrite take_ge by lia. rewrite length_app. cbn [length].
  rewrite (proj2 (Z.leb_le 0 _)), (proj2 (Z.leb_le _ size)) by lia. cbn [andb]. eexists. split; [reflexivity|].
  rewrite Nat2Z.id, Ht, i32_pos by lia. split; cbn [bytes pos].
  - rewrite !length_app, length_drop. cbn [length]. lia.
  - rewrite length_app. lia.
  - rewrite <- (app_assoc d), (app_assoc t d). by apply take_app_length'.
Qed.
Lemma print_all_fits ds t b : holds t b -> Z.of_nat (length t + length (concat ds)) < size ->
  exists b', print_all size ds b = Some b' /\ holds (t ++ concat ds) b'.
Proof using Hsize.
  revert t b. induction ds as [|d ds IH]; intros t b Hb Hlt; cbn [concat] in *.
  - exists b. split; [done|]. by rewrite app_nil_r.
  - rewrite length_app in Hlt. destruct (print1_fits t d b Hb ltac:(lia)) as (b1 & E & Hb1).
    destruct (IH (t ++ d) b1 Hb1) as (b' & E' & Hb'); [rewrite length_app; lia|].
    exists b'. cbn. rewrite E. split; [exact E'|]. by rewrite app_assoc.
Qed.

(** Whatever fits, [pos] counts the whole texts; past the end a print is a fault. *)
Lemma print_all_pos ds b b' : print_all size ds b = Some b' -> 0 <= pos b -> pos b + Z.of_nat (length (concat ds)) < 2 ^ 31 ->
  pos b' = pos b + Z.of_nat (length (concat ds)).
Proof.
  revert b. induction ds as [|d ds IH]; intros b; cbn [print_all concat].
  - intros [= <-] _ _. cbn. lia.
  - rewrite length_app. destruct (print1 size d b) as [b1|] eqn:E; [|done]. cbn. intros E' H0 Hlt.
    assert (H1 : pos b1 = pos b + Z.of_nat (length d)).
    { unfold print1 in E. repeat case_match; simplify_eq; cbn; rewrite i32_pos; lia. }
    rewrite (IH b1) by (done || lia). lia.
Qed.
Lemma print1_past d b : size < pos b < 2 ^ 31 -> print1 size d b = None.
Proof using Hsize.
  intros Hp. unfold print1. assert (Hr : u32 (size - pos b) = size - pos b + 2 ^ 32).
  { unfold u32, wrap. rewrite <- (Z_mod_plus_full _ 1), Z.mod_small; lia. }
  rewrite Hr, (proj2 (Z.eqb_neq _ _)) by lia. rewrite (proj2 (Z.leb_gt _ size)); [by rewrite andb_false_r|].
  lia.
Qed.
End Prints.

Definition header_of (h : list Z * list Z) : mcurl_header_t := McurlHeader (Some (fst h)) (Some (snd h)).
Definition optional_line (n : list Z) (o : option (list Z)) : list (list Z) :=
  match o with Some v => [header_line n v] | None => [] end.

Section RequestFacts.
Context (print_zu : Z -> list Z) (rq : http_request_t) (options : mcurl_options_t) (hs : list (list Z * list Z)).
Hypothesis Hhs : headers options = header_of <$> hs.
Hypothesis Hbody : match body rq with Some d => body_length rq = Z.of_nat (length d) | None => body_length rq = 0 end.

(** The lines of the request, the empty one aside. *)
Definition request_lines : list (list Z) :=
  request_line rq :: (((fun h => header_line (fst h) (snd h)) <$> hs)
    ++ optional_line (str "User-Agent") (user_agent options) ++ optional_line (str "Cookie") (cookie options)
    ++ match body rq with Some _ => [header_line (str "Content-Length") (print_zu (body_length rq))] | None => [] end).
Definition request_head : list Z := concat request_lines ++ CRLF.
Definition request_text : list Z := request_head ++ default [] (body rq).

Lemma prints_headers size l :
  prints size (for_each (header_of <$> l) (fun h => let* n := deref (name h) in let* v := deref (value h) in snprintf size (header_line n v)))
    ((fun h => header_line (fst h) (snd h)) <$> l).
Proof.
  induction l as [|[n v] l IH]; [apply prints_nil|]. rewrite !fmap_cons. apply (prints_bind size _ _ [header_line n v] _); [|exact IH].
  apply prints_snprintf.
Qed.

Definition put_body (size : Z) : Cmd req_buf unit :=
  match body rq with
  | Some d =>
      let* b := get in
      (if Z.of_nat (length d) <? body_length rq then fail Fault
       else store_bytes size (pos b) (take (Z.to_nat (body_length rq)) d)) ;;;
      modify (fun b => ReqBuf (bytes b) (i32 (pos b + body_length rq)))
  | None => ret tt
  end.

Lemma build_request_prints b :
  build_request print_zu true rq options b =
    match print_all (request_size rq) (request_lines ++ [CRLF]) (ReqBuf (bytes b) 0) with
    | Some b' => (put_body (request_size rq) ;;; let* b := get in ret (Some (pos b))) b'
    | None => Stop Fault
    end.
Proof using Hhs.
  clear Hbody.   unfold build_request, request_lines. cbn [negb]. rewrite Hhs. set (size := request_size rq).
  erewrite (bind_Ret (modify _)) by reflexivity. cbn [app].
  assert (Hc : forall (c : Cmd req_buf unit) ds (k : Cmd req_buf (option Z)) ds' r b0, prints size c ds ->
    (forall b1, k b1 = match print_all size ds' b1 with Some b' => r b' | None => Stop Fault end) ->
    (c ;;; k) b0 = match print_all size (ds ++ ds') b0 with Some b' => r b' | None => Stop Fault end).
  { intros c ds k ds' r b0 H1 H2. specialize (H1 b0). rewrite print_all_app. destruct (print_all size ds b0) as [b1|]; cbn in *.
    - by rewrite (bind_Ret _ _ _ _ _ H1).
    - by apply bind_Stop. }
  apply (Hc _ [request_line rq]); [apply prints_snprintf|intros b1]. rewrite <- !app_assoc.
  apply Hc; [apply prints_headers|intros b2].
  apply Hc; [by apply prints_option; intros; apply prints_snprintf|intros b3].
  apply Hc; [by apply prints_option; intros; apply prints_snprintf|intros b4].
  apply Hc; [destruct (body rq); [apply prints_snprintf|apply prints_nil]|intros b5].
  apply (Hc _ [CRLF] _ []); [apply prints_snprintf|]. done.
Qed.

Lemma request_size_eq : 0 <= body_length rq < 2 ^ 31 - 8192 -> request_size rq = 8192 + body_length rq.
Proof using Hbody. unfold request_size, MAX_HEADER_SIZE. destruct (body rq); intros; [by rewrite u32_small by lia|lia]. Qed.

(** The request fits. *)
Lemma build_request_fits b :
  Z.of_nat (length (bytes b)) = request_size rq -> body_length rq < 2 ^ 30 -> Z.of_nat (length request_head) < 8192 ->
  exists b', build_request print_zu true rq options b = Ret (Some (Z.of_nat (length request_text))) b' /\
    Z.of_nat (length (bytes b')) = request_size rq /\ take (length request_text) (bytes b') = request_text.
Proof using Hhs Hbody.
  intros Hl Hbl Hh. assert (H0 : 0 <= body_length rq) by (destruct (body rq); lia). pose proof (request_size_eq ltac:(lia)) as Hs.
  rewrite build_request_prints. destruct (print_all_fits (request_size rq) ltac:(lia) (request_lines ++ [CRLF]) [] (ReqBuf (bytes b) 0))
    as (b1 & E & [Hl1 Hp1 Ht1]).
  - by split.
  - rewrite concat_app. cbn [concat]. rewrite app_nil_r. fold request_head. cbn [length]. lia.
  - rewrite E. rewrite concat_app in Hp1, Ht1. cbn [concat app] in Hp1, Ht1. rewrite app_nil_r in Hp1, Ht1. fold request_head in Hp1, Ht1.
    unfold put_body, request_text. destruct (body rq) as [d|] eqn:Hd; cbn [default].
    + eexists. split.
      * rewrite (bind_Ret _ _ b1 tt (ReqBuf (request_head ++ d ++ drop (length request_head + length d) (bytes b1))
          (Z.of_nat (length (request_head ++ d))))); [reflexivity|].
        erewrite (bind_Ret get) by reflexivity. rewrite Hbody, Z.ltb_irrefl, Nat2Z.id, take_ge by lia.
        unfold store_bytes. rewrite (proj2 (Z.leb_le 0 _)), (proj2 (Z.leb_le _ (request_size rq))) by lia. cbn [andb].
        erewrite (bind_Ret (modify _)) by reflexivity. unfold modify. cbn [bytes pos]. rewrite Hp1, Nat2Z.id, Ht1, length_app, i32_small by lia. by rewrite Nat2Z.inj_add.
      * cbn [bytes]. split; [rewrite !length_app, length_drop; lia|]. rewrite app_assoc. by apply take_app_length'.
    + rewrite app_nil_r. eexists. split; [erewrite (bind_Ret (ret tt)) by reflexivity; cbn; by rewrite Hp1|]. by split.
Qed.

(** Too many headers. *)
Lemma build_request_overflows b :
  body_length rq < 2 ^ 30 -> 8194 < Z.of_nat (length request_head) < 2 ^ 30 ->
  build_request print_zu true rq options b = Stop Fault.
Proof using Hhs Hbody.
  intros Hbl Hh. assert (H0 : 0 <= body_length rq) by (destruct (body rq); lia). pose proof (request_size_eq ltac:(lia)) as Hs.
  assert (Hn : Z.of_nat (length (concat request_lines)) + 2 = Z.of_nat (length request_head)).
  { unfold request_head. rewrite length_app. cbn [length CRLF]. lia. }
  rewrite build_request_prints, print_all_app. destruct (print_all _ request_lines _) as [b1|] eqn:E; [|done]. cbn [mbind option_bind print_all].
  pose proof (print_all_pos (request_size rq) _ _ _ E) as Hp1. cbn [pos] in Hp1. specialize (Hp1 ltac:(lia) ltac:(lia)).
  destruct (body rq) as [d|] eqn:Hd.
  - destruct (print1 _ CRLF b1) as [b2|] eqn:E2; [|done]. cbn.
    assert (Hp2 : pos b2 = Z.of_nat (length request_head)).
    { rewrite (print_all_pos (request_size rq) [CRLF] b1 b2); cbn [concat length app CRLF]; try lia. cbn. by rewrite E2. }
    apply bind_Stop. unfold put_body. rewrite Hd. erewrite (bind_Ret get) by reflexivity. apply bind_Stop.
    rewrite Hbody, Z.ltb_irrefl, Nat2Z.id, take_ge by lia. unfold store_bytes.
    rewrite (proj2 (Z.leb_gt _ (request_size rq))) by lia. by rewrite andb_false_r.
  - rewrite print1_past; [done|lia|lia].
Qed.
End RequestFacts.

(** *** Responses *)
(** A header as it is sent: any number of spaces after the colon. *)
Record field : Type := Field { f_name : list Z; f_spaces : nat; f_value : list Z }.
Definition field_line (f : field) : list Z := f_name f ++ 58 :: replicate (f_spaces f) 32 ++ f_value f.
Record field_ok (f : field) : Prop := {
  ok_plain : plain (field_line f);
  ok_no_cr : 13 ∉ field_line f;
  ok_name : 58 ∉ f_name f;
  ok_value : head (f_value f) <> Some 32;
  ok_short : Z.of_nat (length (field_line f)) < 1024
}.
Definition parsed (f : field) : mcurl_header_t := McurlHeader (Some (f_name f)) (Some (f_value f)).
Definition field_lines (fs : list field) : list Z := concat ((fun f => field_line f ++ CRLF) <$> fs).
Definition add_headers (fs : list field) (r : mcurl_response_t) : mcurl_response_t :=
  McurlResponse (status_code r) (reverse (parsed <$> fs) ++ r_headers r) (r_body r) (r_body_length r).

Lemma parse_header_spec f r : field_ok f ->
  parse_header (field_line f ++ [0]) (WithHeap r []) = Ret tt (WithHeap (push_header (parsed f) r) []).
Proof.
  intros [Hp _ Hn Hv _]. unfold parse_header, field_line in *. unfold plain in Hp.
  apply not_elem_of_app in Hp as [Hpn Hpv]. apply not_elem_of_cons in Hpv as [_ Hpv]. apply not_elem_of_app in Hpv as [_ Hpv].
  rewrite <- app_assoc. cbn [app]. rewrite (bind_Ret _ _ _ _ _ (strchr_found 58 _ _ _ Hpn Hn)).
  rewrite (bind_Ret _ _ _ _ _ (alloc_spec r [])). cbn [next_ok tail negb].
  rewrite length_app, Nat.add_sub, take_app_length, (bind_Ret _ _ _ _ _ (strdup_spec r [] (f_name f) [] Hpn)).
  cbn [drop tail]. rewrite drop_0, <- (app_assoc (replicate (f_spaces f) 32)), skip_spaces_spec.
  - by rewrite (bind_Ret _ _ _ _ _ (strdup_spec r [] (f_value f) [] Hpv)).
  - destruct (f_value f); [done|exact Hv].
Qed.

Section ResponseFacts.
Context (buffer : list Z) (end_ : Z).
Lemma offset_app a p : offset buffer (a ++ p) + Z.of_nat (length a) = offset buffer p.
Proof. unfold offset. rewrite length_app. lia. Qed.

Lemma header_loop_spec fs : forall fuel r b, Forall field_ok fs ->
  (length fs < fuel)%nat -> offset buffer (field_lines fs ++ CRLF ++ b) + Z.of_nat (length (field_lines fs)) + 2 <= end_ ->
  header_loop buffer end_ fuel (field_lines fs ++ CRLF ++ b) (WithHeap r []) = Ret (Some b) (WithHeap (add_headers fs r) []).
Proof.
  induction fs as [|f fs IH]; intros fuel r b Hok Hf He; (destruct fuel as [|fuel]; [cbn in Hf; lia|]).
  - cbn [field_lines concat fmap list_fmap app] in *. cbn [length] in He. cbn [header_loop].
    rewrite (proj2 (Z.ltb_lt _ _)) by lia. rewrite (bind_Ret _ _ _ (Some (CRLF ++ b)) (WithHeap r [])) by reflexivity.
    rewrite (proj2 (Z.leb_gt _ _)) by lia. rewrite Nat.sub_diag, decide_True by done. cbn [CRLF app drop].
    destruct r. done.
  - apply Forall_cons in Hok as [Hf1 Hok]. unfold field_lines in *. rewrite fmap_cons in *. cbn [concat] in *. rewrite <- !app_assoc in *.
    fold (field_lines fs) in *. cbn [header_loop]. rewrite length_app, length_app in He. change (length CRLF) with 2%nat in He.
    rewrite (proj2 (Z.ltb_lt _ _)) by lia.
    rewrite (bind_Ret _ _ _ _ _ (strstr_crlf _ (field_lines fs ++ CRLF ++ b) _ (ok_plain f Hf1) (ok_no_cr f Hf1))).
    pose proof (offset_app (field_line f) (CRLF ++ field_lines fs ++ CRLF ++ b)) as O1.
    pose proof (offset_app CRLF (field_lines fs ++ CRLF ++ b)) as O2. change (length CRLF) with 2%nat in O2.
    rewrite (proj2 (Z.leb_gt _ _)) by lia. rewrite (length_app (field_line f)), Nat.add_sub.
    rewrite decide_False by (unfold field_line; rewrite length_app; cbn [length]; lia).
    rewrite (proj2 (Z.leb_gt _ _)) by (apply ok_short in Hf1; unfold MAX_LINE_LENGTH; lia).
    rewrite take_app_length, (bind_Ret _ _ _ _ _ (parse_header_spec f r Hf1)).
    change (drop 2 (CRLF ++ ?l)) with l. rewrite (IH fuel _ b Hok); [|cbn in Hf; lia|lia].
    f_equal. f_equal. unfold add_headers. rewrite fmap_cons, reverse_cons, <- app_assoc. by destruct r.
Qed.

Lemma copy_body_spec b more r :
  offset buffer (b ++ more) + Z.of_nat (length b) = end_ -> Z.of_nat (length b) < 2 ^ 31 ->
  copy_body buffer end_ (b ++ more) (WithHeap r []) = Ret tt (WithHeap (match b with [] => r | _ => set_r_body b r end) []).
Proof.
  intros He Hl. unfold copy_body. rewrite u32_small by lia. replace (end_ - offset buffer (b ++ more)) with (Z.of_nat (length b)) by lia.
  destruct b as [|c b]; [done|]. rewrite (proj2 (Z.ltb_lt _ _)) by (cbn [length]; lia).
  rewrite (bind_Ret _ _ _ _ _ (alloc_spec r [])). rewrite (proj2 (Z.leb_le _ _)) by (rewrite length_app; lia). cbn [next_ok andb].
  unfold store, modify. cbn [val outcomes tail]. by rewrite Nat2Z.id, take_app_length.
Qed.
End ResponseFacts.

(** The status line and what follows it. *)
Definition status_line (version code reason : list Z) : list Z := version ++ 32 :: code ++ reason.
Definition response_text (version code reason : list Z) (fs : list field) (b : list Z) : list Z :=
  status_line version code reason ++ CRLF ++ field_lines fs ++ CRLF ++ b.
Definition response_of (code : list Z) (fs : list field) (b : list Z) (r : mcurl_response_t) : mcurl_response_t :=
  let r := add_headers fs (set_status (number code) r) in match b with [] => r | _ => set_r_body b r end.

Lemma parse_response_spec version code reason fs b more r fuel :
  plain version -> 32 ∉ version -> digits code -> code <> [] -> number code <= 2147483647 ->
  plain reason -> 13 ∉ reason -> no_digit reason -> Forall field_ok fs -> (length fs < fuel)%nat ->
  let text := response_text version code reason fs b in
  Z.of_nat (length text) < 2 ^ 31 ->
  parse_response (text ++ more) (Z.of_nat (length text)) fuel (WithHeap r [])
    = Ret MCURL_OK (WithHeap (response_of code fs b r) []).
Proof.
  intros Hv Hsp Hd Hd0 Hd1 Hr Hcr Hnd Hfs Hfuel text Hlen.
  set (tail := field_lines fs ++ CRLF ++ b ++ more).
  assert (Ht : text ++ more = version ++ 32 :: (code ++ reason) ++ CRLF ++ tail).
  { unfold text, response_text, status_line, tail. by rewrite <- !app_assoc; cbn [app]; rewrite <- !app_assoc. }
  pose proof (offset_app (text ++ more) version (32 :: (code ++ reason) ++ CRLF ++ tail)) as O1.
  pose proof (offset_app (text ++ more) [32] ((code ++ reason) ++ CRLF ++ tail)) as O2.
  pose proof (offset_app (text ++ more) (code ++ reason) (CRLF ++ tail)) as O3.
  pose proof (offset_app (text ++ more) CRLF tail) as O4.
  pose proof (offset_app (text ++ more) (field_lines fs) (CRLF ++ b ++ more)) as O5.
  pose proof (offset_app (text ++ more) CRLF (b ++ more)) as O6.
  assert (O0 : offset (text ++ more) (b ++ more) + Z.of_nat (length b) = Z.of_nat (length text)) by (unfold offset; rewrite !length_app; lia).
  assert (O7 : offset (text ++ more) (version ++ 32 :: (code ++ reason) ++ CRLF ++ tail) = 0) by (unfold offset; rewrite Ht; lia).
  fold tail in O5. change (length CRLF) with 2%nat in *. cbn [length app] in O2.
  unfold parse_response. rewrite (bind_Ret (strchr 32 (text ++ more)) _ _ (Some (32 :: (code ++ reason) ++ CRLF ++ tail)) (WithHeap r [])).
  2:{ rewrite Ht. by apply strchr_found. }
  rewrite (proj2 (Z.leb_gt _ _)) by lia. cbn [drop]. rewrite drop_0.
  erewrite (bind_Ret (store _)) by reflexivity. cbn [val outcomes].
  replace (atoi ((code ++ reason) ++ CRLF ++ tail)) with (number code)
    by (rewrite <- app_assoc, atoi_digits; [done..|by destruct reason|done]).
  assert (Hpl : plain (code ++ reason)).
  { unfold plain. apply not_elem_of_app. split; [|done]. intros Hin. unfold digits in Hd. rewrite Forall_forall in Hd. specialize (Hd 0 Hin). lia. }
  assert (Hnc : 13 ∉ code ++ reason).
  { apply not_elem_of_app. split; [|done]. intros Hin. unfold digits in Hd. rewrite Forall_forall in Hd. specialize (Hd 13 Hin). lia. }
  rewrite (bind_Ret _ _ _ _ _ (strstr_crlf (code ++ reason) tail _ Hpl Hnc)).
  rewrite (proj2 (Z.leb_gt _ _)) by lia. change (drop 2 (CRLF ++ tail)) with tail.
  assert (He : offset (text ++ more) tail + Z.of_nat (length (field_lines fs)) + 2 <= Z.of_nat (length text)) by lia.
  rewrite (bind_Ret _ _ _ _ _ (header_loop_spec (text ++ more) _ fs fuel _ (b ++ more) Hfs Hfuel He)).
  assert (Hb : Z.of_nat (length b) < 2 ^ 31) by (clear -Hlen O0 O1 O2 O3 O4 O5 O6 O7; lia).
  rewrite (bind_Ret _ _ _ _ _ (copy_body_spec (text ++ more) _ b more _ O0 Hb)). done.
Qed.

(** ** Properties *)

(** [parse_url] takes a URL apart: for either protocol, a host of less than 256
    characters up to the first slash is split at its first colon into the name and the
    port, which is the protocol's own where there is no colon, and the rest is the path,
    "/" when there is none.  A longer host is refused, after the path has been stored;
    any other protocol is refused with nothing stored.  What there is no memory to copy
    is NULL in a result that says OK. *)
Theorem http_url_parsed (ssl : bool) (a rest more : list Z) (u : url_parts) (l : list bool)
    (Ha : plain a) (Hrest : plain rest) (Hs : 47 ∉ a) (Hp : is_path rest) :
  let url := scheme ssl ++ a ++ rest ++ 0 :: more in
  let p := copied l (path_of rest) in
  (256 <= Z.of_nat (length a) ->
     parse_url url (WithHeap u l) = Ret MCURL_ERROR_PROTOCOL (WithHeap (UrlParts (u_host u) (u_port u) p ssl) (tail l))) /\
  (Z.of_nat (length a) < 256 -> 58 ∉ a ->
     parse_url url (WithHeap u l) =
       Ret MCURL_OK (WithHeap (UrlParts (copied (tail l) a) (default_port ssl) p ssl) (tail (tail l)))) /\
  (forall h d, Z.of_nat (length a) < 256 -> a = h ++ 58 :: d -> 58 ∉ h ->
     parse_url url (WithHeap u l) =
       Ret MCURL_OK (WithHeap (UrlParts (copied (tail l) h) (u16 (atoi (d ++ [0]))) p ssl) (tail (tail l))) /\
     (digits d -> d <> [] -> number d < 65536 -> u16 (atoi (d ++ [0])) = number d)) /\
  (forall t, starts_with (str "http://") t (WithHeap u l) = Ret false (WithHeap u l) ->
     starts_with (str "https://") t (WithHeap u l) = Ret false (WithHeap u l) ->
     parse_url t (WithHeap u l) = Ret MCURL_ERROR_PROTOCOL (WithHeap u l)).
Proof.
  intros url p. unfold url. rewrite (parse_url_eq ssl a rest more u l Ha Hrest Hs Hp). split_and!.
  - intros H. rewrite (proj2 (Z.leb_le _ _)) by done. by destruct u.
  - intros H Hc. rewrite (proj2 (Z.leb_gt _ _)) by done. rewrite (bind_Ret _ _ _ _ _ (url_port_none a _ _ Ha Hc)).
    by rewrite (bind_Ret _ _ _ _ _ (strdup_spec _ _ a [] Ha)).
  - intros h d H -> Hc. rewrite (proj2 (Z.leb_gt _ _)) by done. rewrite <- app_assoc. cbn [app].
    assert (Hh : plain h) by (unfold plain in *; set_solver).
    rewrite (bind_Ret _ _ _ _ _ (url_port_some h d _ _ Hh Hc)), (bind_Ret _ _ _ _ _ (strdup_spec _ _ h [] Hh)).
    split; [done|]. intros Hd Hd0 Hn. rewrite atoi_digits; [|done|done|done|lia].
    apply u16_small. split; [by apply number_nonneg|done].
  - intros t H1 H2. unfold parse_url.
    assert (H : url_scheme t (WithHeap u l) = Ret None (WithHeap u l)); [|by rewrite (bind_Ret _ _ _ _ _ H)].
    unfold url_scheme. by rewrite (bind_Ret _ _ _ _ _ H1), (bind_Ret _ _ _ _ _ H2).
Qed.

(** C27. A request is written as it should be as long as its head has less than 8192
    bytes: with a cookie set through the handle, the buffer starts with the request
    line, the host, the headers in order, the user agent, the cookie, the length of the
    body, the empty line and the body, and the length returned is that of this text;
    nothing is stored outside the buffer.  A head of more than 8194 bytes always makes
    the code write outside the buffer, since a text that [snprintf] cuts is counted
    in full and [size - pos] then wraps around. *)
Theorem http_request_built (print_zu : Z -> list Z) (h : mcurl_handle) (rq : http_request_t) (hs : list (list Z * list Z))
    (v more : list Z) (b : req_buf)
    (Hv : plain v) (Hhs : headers (h_options h) = header_of <$> hs)
    (Hbody : match body rq with Some d => body_length rq = Z.of_nat (length d) | None => body_length rq = 0 end)
    (Hmax : body_length rq < 2 ^ 30) (Hbuf : Z.of_nat (length (bytes b)) = request_size rq) :
  exists h', mcurl_setopt_string (Some (str "COOKIE")) (Some (v ++ 0 :: more)) (WithHeap (Some h) [])
      = Ret MCURL_OK (WithHeap (Some h') []) /\
    let head := request_line rq ++ concat ((fun h => header_line (fst h) (snd h)) <$> hs)
      ++ concat (optional_line (str "User-Agent") (user_agent (h_options h))) ++ header_line (str "Cookie") v
      ++ match body rq with Some _ => header_line (str "Content-Length") (print_zu (body_length rq)) | None => [] end ++ CRLF in
    let text := head ++ default [] (body rq) in
    (Z.of_nat (length head) < 8192 ->
       exists b', build_request print_zu true rq (h_options h') b = Ret (Some (Z.of_nat (length text))) b' /\
         Z.of_nat (length (bytes b')) = request_size rq /\ take (length text) (bytes b') = text) /\
    (8194 < Z.of_nat (length head) < 2 ^ 30 -> build_request print_zu true rq (h_options h') b = Stop Fault).
Proof.
  exists (set_h_options (set_cookie (Some v)) h). split.
  - unfold mcurl_setopt_string. erewrite (bind_Ret get) by reflexivity. cbn [val string_target].
    change (string_target (str "COOKIE")) with (Some set_cookie). cbv iota.
    by rewrite (bind_Ret _ _ _ _ _ (strdup_spec (Some h) [] v more Hv)).
  - intros head text. set (o := set_cookie (Some v) (h_options h)).
    assert (Hh : head = request_head print_zu rq o hs).
    { unfold head, request_head, request_lines, o. cbn [user_agent cookie set_cookie concat optional_line app].
      rewrite !concat_app. cbn [concat]. rewrite <- !app_assoc. do 4 f_equal. destruct (body rq); cbn [concat app]; by rewrite ?app_nil_r. }
    assert (Ho : headers o = header_of <$> hs) by done. unfold text. rewrite Hh. split.
    + intros Hl. by apply build_request_fits.
    + intros Hl. by eapply build_request_overflows.
Qed.

(** C26. A response is read back: from any text of a status line, header lines of
    less than 1024 bytes and a body, whatever the memory holds after it,
    [parse_response] takes the status, the headers with the spaces before their values
    removed, the last one first, and the body with every byte of it, zeros and line
    ends included; it ends and reads nothing but the text.  The body is what is left of
    the buffer: its declared length is not looked at. *)
Theorem http_response_parsed (version code reason : list Z) (fs : list field) (b more : list Z) (r : mcurl_response_t) (fuel : nat)
    (Hv : plain version) (Hsp : 32 ∉ version) (Hd : digits code) (Hd0 : code <> []) (Hd1 : number code <= 2147483647)
    (Hr : plain reason) (Hcr : 13 ∉ reason) (Hnd : no_digit reason) (Hfs : Forall field_ok fs) (Hfuel : (length fs < fuel)%nat)
    (Hlen : Z.of_nat (length (response_text version code reason fs b)) < 2 ^ 31) :
  let text := response_text version code reason fs b in
  parse_response (text ++ more) (Z.of_nat (length text)) fuel (WithHeap r []) =
    Ret MCURL_OK (WithHeap (McurlResponse (number code) (reverse (parsed <$> fs) ++ r_headers r)
      (match b with [] => r_body r | _ => Some b end) (match b with [] => r_body_length r | _ => Z.of_nat (length b) end)) []).
Proof. cbv zeta. rewrite parse_response_spec; try done. unfold response_of. by destruct b. Qed.

(** *** Examples *)
Example http_url_parsed_witness :
  parse_url (str "https://host:8443/a?b" ++ [0]) (WithHeap (UrlParts None 0 None false) []) =
    Ret MCURL_OK (WithHeap (UrlParts (Some (str "host")) 8443 (Some (str "/a?b")) true) []).
Proof.
  destruct (http_url_parsed true (str "host:8443") (str "/a?b") [] (UrlParts None 0 None false) []) as (_ & _ & H & _).
  - by apply not_in_dec.
  - by apply not_in_dec.
  - by apply not_in_dec.
  - reflexivity.
  - destruct (H (str "host") (str "8443")) as [E _]; [vm_compute; reflexivity|reflexivity|by apply not_in_dec|exact E].
Defined.

Definition example_request : http_request_t := HttpRequest MCURL_POST (str "h") (str "/p") (Some (str "hi")) 2.
Definition example_handle : mcurl_handle := McurlHandle (McurlOptions MCURL_GET MCURL_SSL_ANY MCURL_PROXY_NONE None 0 None None true None None None
  [header_of (str "A", str "b")] None None 30 300 true 50 false) 0 0 0 0 0 0.
Example http_request_built_witness :
  exists h' b', mcurl_setopt_string (Some (str "COOKIE")) (Some (str "k=v" ++ [0])) (WithHeap (Some example_handle) []) = Ret MCURL_OK (WithHeap (Some h') []) /\
    build_request (fun _ => str "2") true example_request (h_options h') (ReqBuf (replicate (Z.to_nat 8194) 0) 7) = Ret (Some 69) b' /\
    take 69 (bytes b') = str "POST /p HTTP/1.1" ++ CRLF ++ str "Host: h" ++ CRLF ++ str "A: b" ++ CRLF ++ str "Cookie: k=v" ++ CRLF
      ++ str "Content-Length: 2" ++ CRLF ++ CRLF ++ str "hi".
Proof.
  destruct (http_request_built (fun _ => str "2") example_handle example_request [(str "A", str "b")] (str "k=v") [] (ReqBuf (replicate (Z.to_nat 8194) 0) 7))
    as (h' & E & H & _).
  - by apply not_in_dec.
  - reflexivity.
  - reflexivity.
  - vm_compute. reflexivity.
  - cbn [bytes]. rewrite length_replicate, Z2Nat.id by lia. reflexivity.
  - destruct H as (b' & E' & _ & Ht); [vm_compute; reflexivity|]. exists h', b'. split; [exact E|]. split; [exact E'|exact Ht].
Defined.

Example http_response_parsed_witness :
  parse_response (str "HTTP/1.1 404 Gone" ++ CRLF ++ str "A:  b" ++ CRLF ++ CRLF ++ [0; 13; 10; 7]) 32 2 (WithHeap (McurlResponse 0 [] None 0) []) =
    Ret MCURL_OK (WithHeap (McurlResponse 404 [McurlHeader (Some (str "A")) (Some (str "b"))] (Some [0; 13; 10; 7]) 4) []).
Proof.
  apply (http_response_parsed (str "HTTP/1.1") (str "404") (str " Gone") [Field (str "A") 2 (str "b")] [0; 13; 10; 7] [] (McurlResponse 0 [] None 0) 2).
  1,2,6,7: by apply not_in_dec.
  1: repeat constructor; vm_compute; discriminate.
  1: discriminate.
  1: vm_compute; discriminate.
  1: reflexivity.
  2: cbn; lia.
  2: vm_compute; reflexivity.
  apply Forall_cons; split; [|constructor]. split; [by apply not_in_dec..|vm_compute; discriminate|vm_compute; reflexivity].
Defined.
