(* ===== verification/Handshake.v ===== *)
(** * Handshake

    src/src/handshake.c: the WebSocket handshake.  [strtok] and the header parser cut the
    request into strings in place, and the headers point into it; so the request is a
    buffer and a pointer an offset into it. *)
From Stdlib Require Import String.
From S2P Require Import Prelude Text.

(** ** Data *)
Definition WS_GUID : list Z := str "258EAFA5-E914-47DA-95CA-C5AB0DC85B11".
Definition MAX_HEADERS : nat := 100.

(** [request_buffer], what [strtok] remembers, the texts sent to the client and
    [handshake_completed] of the connection. *)
Record hs_state : Type := HsState {
  h_buf : list Z;
  h_saved : option nat;
  h_sent : list (list Z);
  h_completed : bool
}.
Definition set_h_buf (b : list Z) (s : hs_state) : hs_state := HsState b (h_saved s) (h_sent s) (h_completed s).
Definition set_h_saved (n : option nat) (s : hs_state) : hs_state := HsState (h_buf s) n (h_sent s) (h_completed s).

(** A header: where its name and its value start. *)
Record http_header_t : Type := HttpHeader { name : nat; value : nat }.
(** The request; a word is [None] while nothing has been stored in its array. *)
Record http_request_t : Type := HttpRequest {
  method : option (list Z);
  path : option (list Z);
  version : option (list Z);
  headers : list http_header_t
}.

(** ** The standard library on the buffer *)
Definition is_delim (c : Z) : bool := (c =? 13) || (c =? 10).
Fixpoint span (f : Z -> bool) (p : list Z) : option nat :=
  match p with [] => None | x :: p => if f x then S <$> span f p else Some 0%nat end.
(** [strtok (start, delimiters)]; [None] continues where the last call ended. *)
Definition strtok_by (delim : Z -> bool) (start : option nat) : Cmd hs_state (option nat) :=
  let* s := get in
  match match start with Some _ => start | None => h_saved s end with
  | None => ret None
  | Some from =>
      let* skipped := deref (span delim (drop from (h_buf s))) in
      let i := (from + skipped)%nat in
      let* x := deref (h_buf s !! i) in
      if x =? 0 then modify (set_h_saved None) ;;; ret None else
      let* n := deref (span (fun c => negb (delim c || (c =? 0))) (drop i (h_buf s))) in
      let e := (i + n)%nat in
      let* y := deref (h_buf s !! e) in
      (if y =? 0 then modify (set_h_saved (Some e))
       else modify (set_h_buf (<[e := 0]> (h_buf s))) ;;; modify (set_h_saved (Some (S e)))) ;;;
      ret (Some i)
  end.
Definition strtok : option nat -> Cmd hs_state (option nat) := strtok_by is_delim.
(** A function on the text at an offset; [strchr] gives an offset back. *)
Definition at_ptr {A} (i : nat) (f : list Z -> Cmd hs_state A) : Cmd hs_state A :=
  let* s := get in f (drop i (h_buf s)).
Definition strchr_at (c : Z) (i : nat) : Cmd hs_state (option nat) :=
  let* s := get in
  let* p := strchr c (drop i (h_buf s)) in
  ret ((fun p => (length (h_buf s) - length p)%nat) <$> p).

(** One [%s] of [sscanf]: white space is skipped; the word has to fit into an array of
    [size] bytes with its terminator.  The rest of the text is returned. *)
Fixpoint skip_white (p : list Z) : list Z :=
  match p with c :: p' => if isspace c then skip_white p' else p | [] => [] end.
Fixpoint word (p : list Z) : list Z * list Z :=
  match p with
  | [] => ([], [])
  | c :: p' => if isspace c then ([], p) else let '(w, r) := word p' in (c :: w, r)
  end.
Definition scan_word (size : Z) (p : list Z) : Cmd hs_state (option (list Z) * list Z) :=
  match word (skip_white p) with
  | ([], r) => ret (None, r)
  | (w, r) => if Z.of_nat (length w) <? size then ret (Some w, r) else fail Fault
  end.

(** ** The parser *)
(** [sscanf (line, "%s %s %s", ...)]: it ends at the first word there is not. *)
Definition request_line (line : list Z) : Cmd hs_state http_request_t :=
  let* r := scan_word 16 line in
  match r with
  | (None, _) => ret (HttpRequest None None None [])
  | (m, line) =>
      let* r := scan_word 1024 line in
      match r with
      | (None, _) => ret (HttpRequest m None None [])
      | (p, line) => let* r := scan_word 16 line in ret (HttpRequest m p (fst r) [])
      end
  end.
Definition add_header (h : http_header_t) (r : http_request_t) : http_request_t :=
  HttpRequest (method r) (path r) (version r) (headers r ++ [h]).
Fixpoint headers_loop (fuel : nat) (request : http_request_t) : Cmd hs_state http_request_t :=
  match fuel with
  | O => fail NoFuel
  | S fuel' =>
      let* line := strtok None in
      match line with
      | None => ret request
      | Some line =>
          let* colon := strchr_at 58 line in
          match colon with
          | Some colon =>
              if (length (headers request) <? MAX_HEADERS)%nat then
                modify (fun s => set_h_buf (<[colon := 0]> (h_buf s)) s) ;;;
                headers_loop fuel' (add_header (HttpHeader line (colon + 2)) request)
              else headers_loop fuel' request
          | None => headers_loop fuel' request
          end
      end
  end.
Definition parse_http_request (fuel : nat) : Cmd hs_state (option http_request_t) :=
  let* line := strtok (Some 0%nat) in
  match line with
  | None => ret None
  | Some line =>
      let* text := at_ptr line c_text in
      let* request := request_line text in
      let* request := headers_loop fuel request in
      ret (Some request)
  end.
Fixpoint get_header_value (hs : list http_header_t) (nm : list Z) : Cmd hs_state (option nat) :=
  match hs with
  | [] => ret None
  | h :: hs =>
      let* same := at_ptr (name h) (strcaseeq nm) in
      if same then ret (Some (value h)) else get_header_value hs nm
  end.

(** ** The handshake

    [sha1_base64]: the digest of [SHA1] in base64, as OpenSSL gives it.  [send_result]:
    what [send] answers. *)
Section Handshake.
Context (sha1_base64 : list Z -> list Z) (send_result : list Z -> Z).

(** [concat_key] has 256 bytes and [accept_key] 64. *)
Definition generate_websocket_key (client_key : list Z) : Cmd hs_state (list Z) :=
  let k := sha1_base64 (take 255 (client_key ++ WS_GUID)) in
  if (length k <? 64)%nat then ret k else fail Fault.
Definition response_text (accept_key : list Z) : list Z :=
  str "HTTP/1.1 101 Switching Protocols" ++ CRLF ++ str "Upgrade: websocket" ++ CRLF ++ str "Connection: Upgrade" ++ CRLF
    ++ str "Sec-WebSocket-Accept: " ++ accept_key ++ CRLF ++ CRLF.
Definition send (t : list Z) : Cmd hs_state Z :=
  modify (fun s => HsState (h_buf s) (h_saved s) (h_sent s ++ [t]) (h_completed s)) ;;;
  ret (send_result t).

(** The value of a header, when it is there and passes the test. *)
Definition header_check {A} (r : http_request_t) (nm : list Z) (test : list Z -> Cmd hs_state bool)
    (refuse : Cmd hs_state A) (go : nat -> Cmd hs_state A) : Cmd hs_state A :=
  let* v := get_header_value (headers r) nm in
  match v with
  | None => refuse
  | Some v => let* ok := at_ptr v test in if ok then go v else refuse
  end.
Definition ws_handle_handshake (fuel : nat) : Cmd hs_state Z :=
  let refuse := ret (-1) in
  let* request := parse_http_request fuel in
  match request with
  | None => refuse
  | Some request =>
      let* m := deref (method request) in
      if decide (m <> str "GET") then refuse else
      header_check request (str "Upgrade") (strcaseeq (str "websocket")) refuse (fun _ =>
      header_check request (str "Connection") (fun p => let* q := strstr (str "Upgrade") p in ret (bool_decide (is_Some q))) refuse (fun _ =>
      header_check request (str "Sec-WebSocket-Key") (fun _ => ret true) refuse (fun ws_key =>
      header_check request (str "Sec-WebSocket-Version") (streq (str "13")) refuse (fun _ =>
        let* key := at_ptr ws_key c_text in
        let* accept_key := generate_websocket_key key in
        let response := response_text accept_key in
        let* sent := send response in
        if decide (sent <> Z.of_nat (length response)) then refuse else
        modify (fun s => HsState (h_buf s) (h_saved s) (h_sent s) true) ;;;
        ret 0))))
  end.
End Handshake.

(** ** What is accepted *)
Fixpoint lookup_header (nm : list Z) (L : list (list Z * list Z)) : option (list Z) :=
  match L with
  | [] => None
  | (n, v) :: L => if decide (tolower <$> n = tolower <$> nm) then Some v else lookup_header nm L
  end.
Definition having (o : option (list Z)) (test : list Z -> bool) : option (list Z) :=
  match o with Some v => if test v then Some v else None | None => None end.
(** The key of a request that is accepted. *)
Definition verdict (m : list Z) (L : list (list Z * list Z)) : option (list Z) :=
  if decide (m <> str "GET") then None else
  _ ← having (lookup_header (str "Upgrade") L) (fun v => bool_decide (tolower <$> v = tolower <$> str "websocket"));
  _ ← having (lookup_header (str "Connection") L) (contains (str "Upgrade"));
  key ← lookup_header (str "Sec-WebSocket-Key") L;
  _ ← having (lookup_header (str "Sec-WebSocket-Version") L) (fun v => bool_decide (v = str "13"));
  Some key.

(** ** Facts *)
Definition delims (l : list Z) : Prop := Forall (fun c => is_delim c = true) l.
(** A text that [strtok] gives back as a whole. *)
Definition token (t : list Z) : Prop := t <> [] /\ plain t /\ Forall (fun c => is_delim c = false) t.
Definition text_at (b : list Z) (i : nat) (t : list Z) : Prop := plain t /\ exists l r, b = l ++ t ++ 0 :: r /\ length l = i.

Lemma span_app f t c p : Forall (fun x => f x = true) t -> f c = false -> span f (t ++ c :: p) = Some (length t).
Proof. intros Ht Hc. induction t as [|x t IH]; cbn; [by rewrite Hc|]. apply Forall_cons in Ht as [-> Ht]. by rewrite (IH Ht). Qed.
Lemma insert_at {A} (a : list A) x y b : <[length a := y]> (a ++ x :: b) = a ++ y :: b.
Proof. induction a as [|z a IH]; [done|]. cbn. f_equal. exact IH. Qed.
Lemma text_at_app b r i t : text_at b i t -> text_at (b ++ r) i t.
Proof. intros (Hp & x & y & -> & Hl). split; [done|]. exists x, (y ++ r). by rewrite <- !app_assoc; cbn [app]; rewrite <- ?app_assoc. Qed.
Lemma at_ptr_spec {A} (f : list Z -> Cmd hs_state A) b i t sv st cp (a : A) :
  text_at b i t -> (forall r s, f (t ++ 0 :: r) s = Ret a s) -> at_ptr i f (HsState b sv st cp) = Ret a (HsState b sv st cp).
Proof.
  intros (_ & l & r & -> & <-) Hf. unfold at_ptr. erewrite (bind_Ret get) by reflexivity. cbn [h_buf]. by rewrite drop_app_length.
Qed.

Section Facts.
Implicit Types (d ds b r t : list Z) (es : list (list Z)).

(** A text without delimiters that starts somewhere behind delimiters. *)
Definition token_of (delim : Z -> bool) (t : list Z) : Prop := t <> [] /\ plain t /\ Forall (fun c => delim c = false) t.
Section Strtok.
Context (delim : Z -> bool) (Hdelim0 : delim 0 = false).
Lemma strtok_by_token start b ds t c r sv st cp :
  match start with Some _ => start | None => sv end = Some (length b) ->
  Forall (fun x => delim x = true) ds -> token_of delim t -> delim c = true \/ c = 0 ->
  strtok_by delim start (HsState (b ++ ds ++ t ++ c :: r) sv st cp)
    = Ret (Some (length b + length ds)%nat)
          (HsState ((b ++ ds ++ t ++ [0]) ++ r) (Some (length (b ++ ds ++ t) + if Z.eqb c 0 then 0 else 1)%nat) st cp).
Proof using Hdelim0.
  intros Hstart Hds (Ht0 & Htp & Htd) Hc. unfold strtok_by. erewrite (bind_Ret get) by reflexivity. cbn [h_buf h_saved]. rewrite Hstart.
  destruct t as [|x t]; [done|]. assert (Hx : delim x = false) by (by apply Forall_cons in Htd as [? _]).
  assert (Hx0 : x <> 0) by (unfold plain in Htp; set_solver). cbn [app].
  rewrite drop_app_length, (span_app delim ds x (t ++ c :: r) Hds Hx). erewrite (bind_Ret (deref _)) by reflexivity.
  rewrite (app_assoc b). rewrite <- length_app. rewrite list_lookup_middle by done. erewrite (bind_Ret (deref _)) by reflexivity.
  rewrite (proj2 (Z.eqb_neq _ _)) by done. rewrite drop_app_length. change (x :: t ++ c :: r) with ((x :: t) ++ c :: r).
  rewrite span_app.
  3: by destruct Hc as [->| ->]; rewrite ?Hdelim0.
  2:{ rewrite Forall_forall in *. intros y Hy. rewrite (Htd y Hy). cbn. rewrite (proj2 (Z.eqb_neq _ _)); [done|]. intros ->. by apply Htp. }
  erewrite (bind_Ret (deref _)) by reflexivity. rewrite <- length_app, app_assoc, list_lookup_middle by done.
  erewrite (bind_Ret (deref _)) by reflexivity. destruct (Z.eqb_spec c 0) as [->|Hc0].
  - cbn. unfold bind, set_h_saved. cbn. do 2 f_equal.
    + cbn [app]. rewrite <- !app_assoc. cbn [app]. by rewrite <- !app_assoc.
    + f_equal. cbn [app]. repeat (rewrite length_app; cbn [length]). lia.
  - rewrite insert_at. cbn. unfold bind, set_h_buf, set_h_saved. cbn. f_equal. f_equal.
    + cbn [app]. rewrite <- !app_assoc. cbn [app]. by rewrite <- !app_assoc.
    + f_equal. cbn [app]. repeat (rewrite length_app; cbn [length]). lia.
Qed.
Lemma strtok_by_end start b ds r sv st cp : match start with Some _ => start | None => sv end = Some (length b) ->
  Forall (fun x => delim x = true) ds ->
  strtok_by delim start (HsState (b ++ ds ++ 0 :: r) sv st cp) = Ret None (HsState (b ++ ds ++ 0 :: r) None st cp).
Proof using Hdelim0.
  intros Hstart Hds. unfold strtok_by. erewrite (bind_Ret get) by reflexivity. cbn [h_buf h_saved]. rewrite Hstart.
  rewrite drop_app_length, (span_app delim ds 0 r Hds Hdelim0). erewrite (bind_Ret (deref _)) by reflexivity.
  rewrite (app_assoc b), <- length_app, list_lookup_middle by done. erewrite (bind_Ret (deref _)) by reflexivity. done.
Qed.
End Strtok.

Lemma strtok_line start b ds t c r sv st cp :
  match start with Some _ => start | None => sv end = Some (length b) ->
  delims ds -> token t -> is_delim c = true ->
  strtok start (HsState (b ++ ds ++ t ++ c :: r) sv st cp)
    = Ret (Some (length b + length ds)%nat)
          (HsState ((b ++ ds ++ t ++ [0]) ++ r) (Some (length (b ++ ds ++ t ++ [0]))) st cp).
Proof.
  intros Hstart Hds Ht Hc. unfold strtok. rewrite (strtok_by_token is_delim eq_refl start b ds t c r sv st cp Hstart Hds Ht (or_introl Hc)).
  rewrite (proj2 (Z.eqb_neq c 0)) by (by intros ->). do 3 f_equal. rewrite !length_app. cbn [length]. lia.
Qed.
Lemma strtok_end b ds r st cp :
  delims ds -> exists s', strtok None (HsState (b ++ ds ++ 0 :: r) (Some (length b)) st cp) = Ret None s' /\
    s' = HsState (b ++ ds ++ 0 :: r) None st cp.
Proof. intros Hds. eexists. split; [|reflexivity]. by apply strtok_by_end. Qed.

Lemma strchr_at_found c b t r s0 sv st cp : plain t -> c ∉ t -> s0 = HsState (b ++ t ++ c :: r) sv st cp ->
  strchr_at c (length b) s0 = Ret (Some (length b + length t)%nat) s0.
Proof.
  intros Hp Hc ->. unfold strchr_at. erewrite (bind_Ret get) by reflexivity. cbn [h_buf]. rewrite drop_app_length.
  rewrite (bind_Ret _ _ _ _ _ (strchr_found c t r _ Hp Hc)). unfold ret. f_equal. cbn [fmap option_fmap option_map]. f_equal.
  rewrite !length_app. lia.
Qed.
Lemma strchr_at_absent c b t r s0 sv st cp : plain t -> c ∉ t -> c <> 0 -> s0 = HsState (b ++ t ++ 0 :: r) sv st cp ->
  strchr_at c (length b) s0 = Ret None s0.
Proof.
  intros Hp Hc Hc0 ->. unfold strchr_at. erewrite (bind_Ret get) by reflexivity. cbn [h_buf]. rewrite drop_app_length.
  by rewrite (bind_Ret _ _ _ _ _ (strchr_absent c t r _ Hp Hc Hc0)).
Qed.
End Facts.

(** The buffer keeps its length. *)
Definition keeps {A} (c : Cmd hs_state A) : Prop := forall s a s', c s = Ret a s' -> length (h_buf s') = length (h_buf s).
Lemma keeps_bind {A B} (c : Cmd hs_state A) (f : A -> Cmd hs_state B) : keeps c -> (forall a, keeps (f a)) -> keeps (bind c f).
Proof. intros Hc Hf s b s' H. apply bind_inv_Ret in H as (a & s1 & H1 & H2). rewrite (Hf a _ _ _ H2). eauto. Qed.
Lemma keeps_ret {A} (a : A) : keeps (ret a).
Proof. by intros s b s' [= _ <-]. Qed.
Lemma keeps_fail {A} e : keeps (fail e : Cmd hs_state A).
Proof. by intros s b s'. Qed.
Lemma keeps_get : keeps get.
Proof. by intros s b s' [= _ <-]. Qed.
Lemma keeps_deref {A} (o : option A) : keeps (deref o).
Proof. destruct o; [apply keeps_ret|apply keeps_fail]. Qed.
Lemma keeps_saved n : keeps (modify (set_h_saved n)).
Proof. by intros s b s' [= _ <-]. Qed.
Lemma keeps_c_text p : keeps (c_text p).
Proof.
  induction p as [|x p IH]; cbn [c_text]; [apply keeps_fail|]. destruct (x =? 0); [apply keeps_ret|].
  apply keeps_bind; [exact IH|intros; apply keeps_ret].
Qed.
Lemma keeps_strchr c p : keeps (strchr c p).
Proof. induction p as [|x p IH]; cbn [strchr]; [apply keeps_fail|]. repeat case_match; [apply keeps_ret..|exact IH]. Qed.
Lemma keeps_scan size p : keeps (scan_word size p).
Proof. unfold scan_word. repeat case_match; (apply keeps_ret || apply keeps_fail). Qed.
Create HintDb keeps.
#[local] Hint Resolve keeps_bind keeps_ret keeps_fail keeps_get keeps_deref keeps_saved keeps_c_text keeps_strchr keeps_scan : keeps.

Lemma keeps_strtok start : keeps (strtok start).
Proof.
  intros s a s' H. unfold strtok, strtok_by in H. erewrite (bind_Ret get) in H by reflexivity. destruct (match start with Some _ => _ | None => _ end) as [from|]; [|by injection H as _ <-].
  apply bind_inv_Ret in H as (n & s1 & H1 & H). assert (s1 = s) as -> by (destruct (span _ _); [by injection H1|done]).
  apply bind_inv_Ret in H as (x & s1 & H2 & H). assert (s1 = s) as -> by (destruct (_ !! _); [by injection H2|done]).
  destruct (x =? 0); [by injection H as _ <-|].
  apply bind_inv_Ret in H as (k & s1 & H3 & H). assert (s1 = s) as -> by (destruct (span _ _); [by injection H3|done]).
  apply bind_inv_Ret in H as (y & s1 & H4 & H). assert (s1 = s) as -> by (destruct (_ !! _); [by injection H4|done]).
  destruct (y =? 0); injection H as _ <-; cbn; by rewrite ?length_insert.
Qed.
Lemma keeps_at_ptr {A} i (f : list Z -> Cmd hs_state A) : (forall p, keeps (f p)) -> keeps (at_ptr i f).
Proof. intros H. apply keeps_bind; [apply keeps_get|by intros]. Qed.
Lemma keeps_headers fuel : forall rq, keeps (headers_loop fuel rq).
Proof.
  induction fuel as [|fuel IH]; intros rq; cbn [headers_loop]; [apply keeps_fail|].
  apply keeps_bind; [apply keeps_strtok|intros [line|]; [|apply keeps_ret]].
  apply keeps_bind; [unfold strchr_at; eauto with keeps|intros [colon|]; [|apply IH]].
  case_match; [|apply IH]. apply keeps_bind; [|intros; apply IH]. intros s a s' [= _ <-]. cbn. by rewrite length_insert.
Qed.
Lemma keeps_parse fuel : keeps (parse_http_request fuel).
Proof.
  apply keeps_bind; [apply keeps_strtok|intros [line|]; [|apply keeps_ret]]. apply keeps_bind; [apply keeps_at_ptr, keeps_c_text|intros t].
  apply keeps_bind; [|intros; apply keeps_bind; [apply keeps_headers|intros; apply keeps_ret]].
  unfold request_line. apply keeps_bind; [apply keeps_scan|intros [[] ?]; [|apply keeps_ret]].
  apply keeps_bind; [apply keeps_scan|intros [[] ?]; [|apply keeps_ret]]. apply keeps_bind; [apply keeps_scan|intros; apply keeps_ret].
Qed.

(** *** The header lines *)
(** A line with a colon, the character after it, and the value; or one without. *)
Inductive hline : Type := Header (nm : list Z) (sep : Z) (v : list Z) | Other (t : list Z).
Definition line_text (l : hline) : list Z := match l with Header nm sep v => nm ++ 58 :: sep :: v | Other t => t end.
Definition line_ok (l : hline) : Prop :=
  token (line_text l) /\ match l with Header nm _ _ => 58 ∉ nm | Other t => 58 ∉ t end.
(** A line with the CRs and LFs, any number of them, that end it. *)
Record ended : Type := Ended { e_line : hline; e_first : Z; e_more : list Z }.
Definition ended_ok (e : ended) : Prop := line_ok (e_line e) /\ is_delim (e_first e) = true /\ delims (e_more e).
Definition lines_text (es : list ended) : list Z := concat ((fun e => line_text (e_line e) ++ e_first e :: e_more e) <$> es).
Definition fields (es : list ended) : list (list Z * list Z) :=
  omap (fun e => match e_line e with Header nm _ v => Some (nm, v) | Other _ => None end) es.
Definition points (b : list Z) (h : http_header_t) (f : list Z * list Z) : Prop :=
  text_at b (name h) (fst f) /\ text_at b (value h) (snd f).

Ltac assoc := repeat first [rewrite <- app_assoc | progress cbn [app]].

Lemma points_app b r hs L : Forall2 (points b) hs L -> Forall2 (points (b ++ r)) hs L.
Proof. intros H. eapply Forall2_impl; [exact H|]. intros h f [H1 H2]. split; by apply text_at_app. Qed.

(** Cutting a header line at its colon. *)
Lemma cut_header b nm sep v : plain (nm ++ 58 :: sep :: v) ->
  text_at (b ++ nm ++ 0 :: sep :: v ++ [0]) (length b) nm /\
  text_at (b ++ nm ++ 0 :: sep :: v ++ [0]) (length b + length nm + 2) v.
Proof.
  unfold plain. intros Hp. split; (split; [unfold plain; set_solver|]).
  - by exists b, (sep :: v ++ [0]).
  - exists (b ++ nm ++ [0; sep]), []. split; [by assoc|]. rewrite !length_app. cbn [length]. lia.
Qed.

Lemma header_step b ds nm sep v c r sv st cp : delims ds -> is_delim c = true -> line_ok (Header nm sep v) -> sv = Some (length b) ->
  let s := HsState (b ++ ds ++ line_text (Header nm sep v) ++ c :: r) sv st cp in
  let b1 := (b ++ ds) ++ nm ++ 58 :: sep :: v ++ [0] in
  let b2 := (b ++ ds) ++ nm ++ 0 :: sep :: v ++ [0] in
  let s1 := HsState (b1 ++ r) (Some (length b1)) st cp in
  strtok None s = Ret (Some (length (b ++ ds))) s1 /\
  strchr_at 58 (length (b ++ ds)) s1 = Ret (Some (length (b ++ ds) + length nm)%nat) s1 /\
  <[(length (b ++ ds) + length nm)%nat := 0]> (h_buf s1) = b2 ++ r /\ length b1 = length b2.
Proof.
  intros Hds Hc [Ht Hn] -> s b1 b2 s1. split_and!.
  - unfold s. rewrite (strtok_line None b ds _ c r (Some (length b)) st cp eq_refl Hds Ht Hc), <- length_app.
    unfold s1, b1. cbn [line_text]. f_equal. f_equal; [by assoc|]. do 2 f_equal. by assoc.
  - apply (strchr_at_found 58 (b ++ ds) nm (sep :: v ++ 0 :: r) _ (Some (length b1)) st cp); [|done|].
    + destruct Ht as (_ & Hp & _). unfold plain in *. cbn [line_text] in Hp. set_solver.
    + unfold s1, b1. f_equal. by assoc.
  - cbn [h_buf s1]. unfold b1, b2. rewrite <- length_app.
    replace (((b ++ ds) ++ nm ++ 58 :: sep :: v ++ [0]) ++ r) with (((b ++ ds) ++ nm) ++ 58 :: (sep :: v ++ [0]) ++ r) by (by assoc).
    rewrite insert_at. by assoc.
  - unfold b1, b2. rewrite !length_app. cbn [length]. lia.
Qed.

Lemma other_step b ds t c r sv st cp : delims ds -> is_delim c = true -> line_ok (Other t) -> sv = Some (length b) ->
  let s := HsState (b ++ ds ++ t ++ c :: r) sv st cp in
  let b1 := b ++ ds ++ t ++ [0] in
  let s1 := HsState (b1 ++ r) (Some (length b1)) st cp in
  strtok None s = Ret (Some (length (b ++ ds))) s1 /\ strchr_at 58 (length (b ++ ds)) s1 = Ret None s1.
Proof.
  intros Hds Hc [Ht Hn] -> s b1 s1. split.
  - unfold s. by rewrite (strtok_line None b ds t c r (Some (length b)) st cp eq_refl Hds Ht Hc), <- length_app.
  - apply (strchr_at_absent 58 (b ++ ds) t r _ (Some (length b1)) st cp); [by destruct Ht as (_ & ? & _)|done|done|].
    unfold s1, b1. f_equal. by assoc.
Qed.

Lemma headers_loop_spec es : forall fuel b ds rq L more st cp,
  Forall ended_ok es -> delims ds -> (length es < fuel)%nat -> Forall2 (points b) (headers rq) L -> (length L <= MAX_HEADERS)%nat ->
  exists rq' b', headers_loop fuel rq (HsState (b ++ ds ++ lines_text es ++ 0 :: more) (Some (length b)) st cp)
      = Ret rq' (HsState b' None st cp) /\ (method rq' = method rq /\ path rq' = path rq) /\
    Forall2 (points b') (headers rq') (take MAX_HEADERS (L ++ fields es)).
Proof.
  induction es as [|e es IH]; intros fuel b ds rq L more st cp Hes Hds Hf Hpts Hlen; (destruct fuel as [|fuel]; [cbn in Hf; lia|]).
  - destruct (strtok_end b ds more st cp Hds) as (s' & E & ->). cbn [headers_loop lines_text fmap list_fmap concat app].
    rewrite (bind_Ret _ _ _ _ _ E). eexists _, _. split; [reflexivity|]. split; [done|].
    cbn [fields omap list_omap]. rewrite app_nil_r, take_ge by done. rewrite app_assoc. rewrite <- (app_assoc b). by apply points_app.
  - apply Forall_cons in Hes as [(Hline & Hc & Hmore) Hes]. destruct e as [l c ds']. cbn [e_line e_first e_more] in *.
    assert (Hbuf : b ++ ds ++ lines_text (Ended l c ds' :: es) ++ 0 :: more = b ++ ds ++ line_text l ++ c :: (ds' ++ lines_text es ++ 0 :: more)).
    { unfold lines_text. rewrite fmap_cons. cbn [concat e_line e_first e_more]. by assoc. }
    rewrite Hbuf. cbn [headers_loop length] in *. destruct l as [nm sep v|t].
    + destruct (header_step b ds nm sep v c (ds' ++ lines_text es ++ 0 :: more) _ st cp Hds Hc Hline eq_refl) as (E1 & E2 & E3 & E4).
      rewrite (bind_Ret _ _ _ _ _ E1), (bind_Ret _ _ _ _ _ E2). cbn [fields omap list_omap e_line].
      assert (Hlh : length (headers rq) = length L) by (by eapply Forall2_length).
      destruct (Nat.ltb_spec (length (headers rq)) MAX_HEADERS) as [Hlt|Hge].
      * erewrite (bind_Ret (modify _)) by reflexivity. unfold set_h_buf. cbn [h_saved h_sent h_completed]. rewrite E3, E4.
        destruct Hline as [(_ & Hpl & _) _]. destruct (cut_header (b ++ ds) nm sep v Hpl) as [Hn Hv].
        destruct (IH fuel ((b ++ ds) ++ nm ++ 0 :: sep :: v ++ [0]) ds' (add_header (HttpHeader (length (b ++ ds)) (length (b ++ ds) + length nm + 2)) rq)
          (L ++ [(nm, v)]) more st cp Hes Hmore ltac:(lia)) as (rq' & b' & E & Hm & Hpts').
        { cbn [headers add_header]. apply Forall2_app; [rewrite <- app_assoc; by apply points_app|]. by constructor; [split|]. }
        { rewrite length_app. cbn [length]. lia. }
        exists rq', b'. split; [exact E|]. split; [done|]. by rewrite <- app_assoc in Hpts'.
      * destruct (IH fuel ((b ++ ds) ++ nm ++ 58 :: sep :: v ++ [0]) ds' rq L more st cp Hes Hmore ltac:(lia)) as (rq' & b' & E & Hm & Hpts').
        { rewrite <- app_assoc. by apply points_app. }
        { done. }
        exists rq', b'. split; [exact E|]. split; [done|]. rewrite !take_app_ge in * by lia.
        replace (MAX_HEADERS - length L)%nat with 0%nat in * by lia. by rewrite take_0 in *.
    + destruct (other_step b ds t c (ds' ++ lines_text es ++ 0 :: more) _ st cp Hds Hc Hline eq_refl) as (E1 & E2).
      cbn [line_text] in *. rewrite (bind_Ret _ _ _ _ _ E1), (bind_Ret _ _ _ _ _ E2). cbn [fields omap list_omap e_line].
      destruct (IH fuel (b ++ ds ++ t ++ [0]) ds' rq L more st cp Hes Hmore ltac:(lia)) as (rq' & b' & E & Hm & Hpts'); [by apply points_app|done|].
      exists rq', b'. by split.
Qed.

(** *** The whole request *)
Definition is_word (w : list Z) : Prop := w <> [] /\ Forall (fun c => isspace c = false) w.
Lemma word_app w r : Forall (fun c => isspace c = false) w -> match r with c :: _ => isspace c = true | [] => True end -> word (w ++ r) = (w, r).
Proof.
  intros Hw Hr. induction w as [|c w IH]; cbn; [destruct r as [|c r]; [done|by cbn; rewrite Hr]|].
  apply Forall_cons in Hw as [-> Hw]. by rewrite (IH Hw).
Qed.
Lemma scan_word_spec size w r s : is_word w -> match r with c :: _ => isspace c = true | [] => True end ->
  scan_word size (w ++ r) s = (if Z.of_nat (length w) <? size then ret (Some w, r) else fail Fault) s.
Proof.
  intros [Hw0 Hw] Hr. unfold scan_word. destruct w as [|c w]; [done|].
  assert (Hc : isspace c = false) by (by apply Forall_cons in Hw as [? _]). cbn [app skip_white]. rewrite Hc.
  change (c :: w ++ r) with ((c :: w) ++ r). by rewrite (word_app _ r Hw Hr).
Qed.
Lemma scan_space size w r s : scan_word size (32 :: w ++ r) s = scan_word size (w ++ r) s.
Proof. done. Qed.

(** The words of the request line fit into their arrays. *)
Record words_ok (m p v : list Z) : Prop := {
  words : is_word m /\ is_word p /\ is_word v;
  words_fit : Z.of_nat (length m) < 16 /\ Z.of_nat (length p) < 1024 /\ Z.of_nat (length v) < 16
}.
Lemma request_line_spec m p v s : words_ok m p v ->
  request_line (m ++ 32 :: p ++ 32 :: v) s = Ret (HttpRequest (Some m) (Some p) (Some v) []) s.
Proof.
  intros [(Hm & Hp & Hv) (Lm & Lp & Lv)]. unfold request_line.
  assert (E1 : scan_word 16 (m ++ 32 :: p ++ 32 :: v) s = Ret (Some m, 32 :: p ++ 32 :: v) s).
  { rewrite scan_word_spec by done. by rewrite (proj2 (Z.ltb_lt _ _)). }
  assert (E2 : scan_word 1024 (32 :: p ++ 32 :: v) s = Ret (Some p, 32 :: v) s).
  { rewrite scan_space, scan_word_spec by done. by rewrite (proj2 (Z.ltb_lt _ _)). }
  assert (E3 : scan_word 16 (32 :: v) s = Ret (Some v, []) s).
  { rewrite <- (app_nil_r v) at 1. rewrite scan_space, scan_word_spec by done. by rewrite (proj2 (Z.ltb_lt _ _)). }
  by rewrite (bind_Ret _ _ _ _ _ E1), (bind_Ret _ _ _ _ _ E2), (bind_Ret _ _ _ _ _ E3).
Qed.
Lemma request_line_overflow m r s : is_word m -> 16 <= Z.of_nat (length m) -> request_line (m ++ 32 :: r) s = Stop Fault.
Proof. intros Hm Hl. unfold request_line. apply bind_Stop. rewrite scan_word_spec by done. by rewrite (proj2 (Z.ltb_ge _ _)). Qed.

Lemma get_header_value_spec b hs L nm sv st cp : Forall2 (points b) hs L -> plain nm ->
  exists vp, get_header_value hs nm (HsState b sv st cp) = Ret vp (HsState b sv st cp) /\
    match lookup_header nm L with Some v => exists i, vp = Some i /\ text_at b i v | None => vp = None end.
Proof.
  intros Hpts Hnm. induction Hpts as [|h [n v] hs L [H1 H2] _ (vp & IH & IHv)]; cbn [get_header_value lookup_header].
  - by eexists.
  - cbn [fst snd] in *. rewrite (bind_Ret _ _ _ (bool_decide (tolower <$> n = tolower <$> nm)) (HsState b sv st cp)).
    2:{ eapply at_ptr_spec; [exact H1|]. intros r s. apply strcaseeq_spec; [apply H1|done]. }
    case_bool_decide.
    + rewrite decide_True by done. eexists. split; [reflexivity|]. by eexists.
    + rewrite decide_False by done. by exists vp.
Qed.

Section Verdict.
Context (sha1_base64 : list Z -> list Z) (send_result : list Z -> Z).
Context (b : list Z) (rq : http_request_t) (L : list (list Z * list Z)) (sv : option nat) (st : list (list Z)) (cp : bool).
Context (Hpts : Forall2 (points b) (headers rq) L).


(** A header that is looked up and tested. *)
Lemma header_check_spec nm test T refuse (go : nat -> Cmd hs_state Z) (r : prog hs_state Z) :
  plain nm -> (forall v p s, plain v -> test (v ++ 0 :: p) s = Ret (T v) s) ->
  (having (lookup_header nm L) T = None -> refuse (HsState b sv st cp) = r) ->
  (forall v i, having (lookup_header nm L) T = Some v -> text_at b i v -> go i (HsState b sv st cp) = r) ->
  header_check rq nm test refuse go (HsState b sv st cp) = r.
Proof using Hpts.
  intros Hnm Htest Hno Hyes. unfold header_check. destruct (get_header_value_spec b (headers rq) L nm sv st cp Hpts Hnm) as (vp & E & Hv).
  rewrite (bind_Ret _ _ _ _ _ E). destruct (lookup_header nm L) as [v|]; [|by subst vp; apply Hno]. destruct Hv as (i & -> & Ht).
  rewrite (bind_Ret _ _ _ (T v) (HsState b sv st cp)) by (eapply at_ptr_spec; [exact Ht|intros; apply Htest, Ht]).
  cbn [having] in *. destruct (T v) eqn:HT; [by eapply (Hyes v)|by apply Hno].
Qed.
End Verdict.

Section Request.
Context (m p v : list Z) (c : Z) (ds : list Z) (es : list ended) (more : list Z).
Definition first_line : list Z := m ++ 32 :: p ++ 32 :: v.
Definition request_text : list Z := first_line ++ c :: ds ++ lines_text es ++ 0 :: more.
Context (Hfirst : token first_line) (Hc : is_delim c = true) (Hds : delims ds) (Hes : Forall ended_ok es).

Lemma parse_http_request_spec fuel sv st cp : words_ok m p v -> (length es < fuel)%nat ->
  exists rq b, parse_http_request fuel (HsState request_text sv st cp) = Ret (Some rq) (HsState b None st cp) /\
    (method rq = Some m /\ path rq = Some p) /\ Forall2 (points b) (headers rq) (take MAX_HEADERS (fields es)).
Proof using Hfirst Hc Hds Hes.
  intros Hw Hf. unfold parse_http_request.
  pose proof (strtok_line (Some 0%nat) [] [] first_line c (ds ++ lines_text es ++ 0 :: more) sv st cp eq_refl ltac:(constructor) Hfirst Hc) as E1.
  cbn [app length Nat.add] in E1. unfold request_text. rewrite (bind_Ret _ _ _ _ _ E1).
  set (b1 := first_line ++ [0]). set (s1 := HsState _ _ _ _).
  assert (E2 : at_ptr 0 c_text s1 = Ret first_line s1).
  { eapply at_ptr_spec; [|intros; apply c_text_spec, Hfirst]. split; [apply Hfirst|]. exists [], (ds ++ lines_text es ++ 0 :: more).
    unfold b1. by assoc. }
  rewrite (bind_Ret _ _ _ _ _ E2), (bind_Ret _ _ _ _ _ (request_line_spec m p v s1 Hw)).
  destruct (headers_loop_spec es fuel b1 ds (HttpRequest (Some m) (Some p) (Some v) []) [] more st cp Hes Hds Hf) as (rq & b & E & Hm & Hpts).
  { constructor. } { cbn. lia. }
  destruct Hm. exists rq, b. rewrite (bind_Ret _ _ _ _ _ E). by split_and!.
Qed.
Lemma parse_overflow fuel sv st cp : is_word m -> 16 <= Z.of_nat (length m) ->
  parse_http_request fuel (HsState request_text sv st cp) = Stop Fault.
Proof using Hfirst Hc.
  intros Hw Hl. unfold parse_http_request.
  pose proof (strtok_line (Some 0%nat) [] [] first_line c (ds ++ lines_text es ++ 0 :: more) sv st cp eq_refl ltac:(constructor) Hfirst Hc) as E1.
  cbn [app length Nat.add] in E1. unfold request_text. rewrite (bind_Ret _ _ _ _ _ E1). set (s1 := HsState _ _ _ _).
  assert (E2 : at_ptr 0 c_text s1 = Ret first_line s1).
  { eapply at_ptr_spec; [|intros; apply c_text_spec, Hfirst]. split; [apply Hfirst|]. exists [], (ds ++ lines_text es ++ 0 :: more). by assoc. }
  rewrite (bind_Ret _ _ _ _ _ E2). by apply bind_Stop, request_line_overflow.
Qed.
End Request.

(** The answer to a request with the method [m] and the headers [L], and its effect. *)
Definition answered (sha1_base64 : list Z -> list Z) (send_result : list Z -> Z) (m : list Z) (L : list (list Z * list Z))
    (b : list Z) (st : list (list Z)) (cp : bool) : prog hs_state Z :=
  match verdict m L with
  | None => Ret (-1) (HsState b None st cp)
  | Some key =>
      let t := response_text (sha1_base64 (take 255 (key ++ WS_GUID))) in
      if decide (send_result t = Z.of_nat (length t)) then Ret 0 (HsState b None (st ++ [t]) true)
      else Ret (-1) (HsState b None (st ++ [t]) cp)
  end.

Lemma ws_handle_handshake_spec sha send m p v c ds es more fuel sv st cp :
  (forall d, (length (sha d) < 64)%nat) ->
  token (first_line m p v) -> is_delim c = true -> delims ds -> Forall ended_ok es -> words_ok m p v -> (length es < fuel)%nat ->
  exists b, length b = length (request_text m p v c ds es more) /\
    ws_handle_handshake sha send fuel (HsState (request_text m p v c ds es more) sv st cp)
    = answered sha send m (take MAX_HEADERS (fields es)) b st cp.
Proof.
  intros Hsha H1 Hc H2 H3 Hw Hf. destruct (parse_http_request_spec m p v c ds es more H1 Hc H2 H3 fuel sv st cp Hw Hf) as (rq & b & E & [Hm _] & Hpts).
  exists b. split; [exact (keeps_parse _ _ _ _ E)|]. unfold ws_handle_handshake, answered, verdict. rewrite (bind_Ret _ _ _ _ _ E). rewrite Hm. erewrite (bind_Ret (deref _)) by reflexivity.
  destruct (decide (m <> str "GET")); [done|]. set (L := take MAX_HEADERS (fields es)) in *.
  eapply (header_check_spec b rq L None st cp Hpts); [by apply not_in_dec|intros; by apply strcaseeq_spec, not_in_dec|by intros ->|].
  intros v1 i1 -> _. cbn [mbind option_bind].
  eapply (header_check_spec b rq L None st cp Hpts (str "Connection") _ (contains (str "Upgrade"))); [by apply not_in_dec| |by intros ->|].
  { intros w q s Hw'. destruct (strstr_contains (str "Upgrade") w q s Hw') as (o & Eo & <-); [by apply not_in_dec|done|]. by rewrite (bind_Ret _ _ _ _ _ Eo). }
  intros v2 i2 -> _. cbn [mbind option_bind].
  eapply (header_check_spec b rq L None st cp Hpts (str "Sec-WebSocket-Key") _ (fun _ => true)); [by apply not_in_dec|done| |].
  { by destruct (lookup_header (str "Sec-WebSocket-Key") L). }
  intros key ik Hkey Hk. destruct (lookup_header (str "Sec-WebSocket-Key") L) as [key'|]; [|done]. injection Hkey as ->. cbn [mbind option_bind].
  eapply (header_check_spec b rq L None st cp Hpts (str "Sec-WebSocket-Version") _ (fun v => bool_decide (v = str "13"))); [by apply not_in_dec| |by intros ->|].
  { intros w q s Hw'. by apply streq_spec, not_in_dec. }
  intros v4 i4 -> _. cbn [mbind option_bind].
  rewrite (bind_Ret _ _ _ key (HsState b None st cp)) by (eapply at_ptr_spec; [exact Hk|intros; apply c_text_spec, Hk]).
  unfold generate_websocket_key. set (k := sha _). rewrite (proj2 (Nat.ltb_lt _ _)) by apply Hsha. erewrite (bind_Ret (ret k)) by reflexivity.
  unfold Handshake.send. erewrite (bind_Ret (bind _ _)) by reflexivity. destruct (decide (send (response_text k) = _)).
  - by rewrite decide_False by (intros H; by apply H).
  - by rewrite decide_True.
Qed.

(** ** Properties *)


(** The key counts though it comes after the empty line. *)
Definition example_lines : list ended :=
  [Ended (Header (str "upgrade") 32 (str "WebSocket")) 13 [10]; Ended (Header (str "Connection") 32 (str "keep-alive, Upgrade")) 13 [10];
   Ended (Header (str "Sec-WebSocket-Version") 32 (str "13")) 13 [10; 13; 10]; Ended (Header (str "Sec-WebSocket-Key") 32 (str "k")) 13 [10]].
Lemma example_lines_ok : Forall ended_ok example_lines.
Proof.
  repeat (apply Forall_cons; split); [..|constructor]; (split; [split; [split; [discriminate|split; [by apply not_in_dec|repeat constructor]]|by apply not_in_dec]|split; [done|repeat constructor]]).
Qed.
