(* ===== verification/ClientThread.v ===== *)
(** * ClientThread

    [client_thread] of src/src/server.c as a whole: the handshake of Handshake.v, then the
    message loop of Server.v, on one buffer. *)
From Stdlib Require Import String.
From S2P Require Import Prelude Text WsFrame Server Handshake.

(** The server as the thread sees it, what [strtok] remembers, what has been sent in the
    handshake and the connection's [handshake_completed]. *)
Record thread : Type := Thread {
  t_server : server;
  t_saved : option nat;
  t_sent : list (list Z);
  t_completed : bool
}.
Definition server_part : lens thread server.
Proof.
  refine (Lens t_server (fun s t => Thread s (t_saved t) (t_sent t) (t_completed t)) _ _ _); [done|by intros []|done].
Defined.
Definition hs_part : lens thread hs_state.
Proof.
  refine (Lens (fun t => HsState (buffer (t_server t)) (t_saved t) (t_sent t) (t_completed t))
    (fun h t => Thread (Server (client_manager (t_server t)) (h_buf h) (calls (t_server t))) (h_saved h) (h_sent h) (h_completed h)) _ _ _);
    [by intros []|by intros [[]]|done].
Defined.

Section Thread.
Context (sha1_base64 : list Z -> list Z) (send_result : list Z -> Z).

(** The statements before the label [cleanup] ... *)
Definition serve (fuel : nat) (conn : ws_connection_t) (chunks : list (list Z)) (h : ws_frame_header_t) : Cmd thread unit :=
  match chunks with
  | [] => ret tt
  | chunk :: rest =>
      let* bytes := zoom server_part (recv (BUFFER_SIZE - 1) chunk) in
      if bytes <=? 0 then ret tt else
      zoom server_part (let* s := get in set_buffer (<[Z.to_nat bytes := 0]> (buffer s))) ;;;
      let* r := zoom hs_part (ws_handle_handshake sha1_base64 send_result fuel) in
      if r <? 0 then ret tt else
      zoom server_part (if on_connect conn then call OnConnect else ret tt) ;;;
      zoom server_part (message_loop fuel conn rest h)
  end.
(** ... and those after it. *)
Definition cleanup (self : Z) : Cmd server unit := remove_client self ;;; call CloseSocket ;;; call Free.
Definition client_thread (fuel : nat) (self : Z) (conn : ws_connection_t) (chunks : list (list Z)) (h : ws_frame_header_t) : Cmd thread unit :=
  serve fuel conn chunks h ;;; zoom server_part (cleanup self).
End Thread.

(** ** Facts *)
Section Facts.
Context (sha1_base64 : list Z -> list Z) (send_result : list Z -> Z).

(** The request in the buffer, as it is read and ended. *)
Lemma recv_request req m b ev :
  Z.of_nat (length req) < 65536 -> length b = Z.to_nat 65536 ->
  recv (BUFFER_SIZE - 1) req (Server m b ev) = Ret (Z.of_nat (length req)) (Server m (req ++ drop (length req) b) ev) /\
  <[Z.to_nat (Z.of_nat (length req)) := 0]> (req ++ drop (length req) b) = req ++ 0 :: drop (S (length req)) b.
Proof.
  intros Hl Hb. split.
  - unfold recv. rewrite take_ge by (unfold BUFFER_SIZE; lia). reflexivity.
  - rewrite Nat2Z.id. destruct (drop (length req) b) as [|x r] eqn:E; [apply (f_equal length) in E; rewrite length_drop in E; cbn in E; lia|].
    rewrite insert_at. do 2 f_equal. by rewrite <- Nat.add_1_r, <- drop_drop, E.
Qed.

Lemma cleanup_spec self s : table_ok s ->
  exists s', cleanup self s = Ret tt s' /\ table_ok s' /\ calls s' = calls s ++ [CloseSocket; Free] /\
    if decide (self ∈ active s) then active s ≡ₚ self :: active s' else active s' = active s.
Proof.
  intros Hok. destruct (remove_loop_spec self 1000 0 s Hok) as (s1 & E & H1 & H2 & _ & H3); [lia|destruct Hok; lia|rewrite take_0; apply not_elem_of_nil|].
  eexists. unfold cleanup. rewrite (bind_Ret _ _ _ _ _ E). split; [reflexivity|]. split; [exact H1|]. split.
  - cbn. by rewrite H2, <- app_assoc.
  - case_decide; [exact H3|by subst].
Qed.

Definition accepted (m : list Z) (L : list (list Z * list Z)) : bool :=
  match verdict m L with
  | None => false
  | Some key => let t := response_text (sha1_base64 (take 255 (key ++ WS_GUID))) in bool_decide (send_result t = Z.of_nat (length t))
  end.
Definition responses (m : list Z) (L : list (list Z * list Z)) : list (list Z) :=
  match verdict m L with
  | None => []
  | Some key => [response_text (sha1_base64 (take 255 (key ++ WS_GUID)))]
  end.
(** What is called while the client is served. *)
Definition served (conn : ws_connection_t) (ps : list (list frame * list Z)) : list event :=
  (if on_connect conn then [OnConnect] else []) ++ concat (map (dispatch conn) (concat (map fst ps))).

Lemma answered_eq m L b st : exists cp r, answered sha1_base64 send_result m L b st false = Ret r (HsState b None (st ++ responses m L) cp) /\
  cp = accepted m L /\ r = if accepted m L then 0 else -1.
Proof.
  unfold answered, responses, accepted. destruct (verdict m L) as [key|]; [|eexists _, _; by rewrite app_nil_r].
  cbv zeta. case_bool_decide as Hd; [rewrite decide_True by exact Hd|rewrite decide_False by exact Hd]; by eexists _, _.
Qed.

Context (Hsha : forall d, (length (sha1_base64 d) < 64)%nat).

Lemma serve_spec fuel conn h mgr b ev sv m p v c ds es ps :
  token (first_line m p v) -> is_delim c = true -> delims ds -> Forall ended_ok es -> words_ok m p v ->
  (length es < fuel)%nat -> 65536 < Z.of_nat fuel -> length b = Z.to_nat 65536 -> Forall chunk_ok ps ->
  let req := first_line m p v ++ c :: ds ++ lines_text es in
  let L := take MAX_HEADERS (fields es) in
  Z.of_nat (length req) < 65536 ->
  exists b' sv', serve sha1_base64 send_result fuel conn (req :: map chunk_of ps) h (Thread (Server mgr b ev) sv [] false)
    = Ret tt (Thread (Server mgr b' (ev ++ if accepted m L then served conn ps else [])) sv' (responses m L) (accepted m L)).
Proof using Hsha.
  intros H1 Hc H2 H3 Hw Hes Hfuel Hb Hps req L Hl. cbn [serve]. destruct (recv_request req mgr b ev Hl Hb) as [Er Eb].
  rewrite (bind_Ret _ _ _ _ _ (zoom_Ret server_part _ (Thread (Server mgr b ev) sv [] false) _ _ Er)).
  rewrite (proj2 (Z.leb_gt _ _)) by (unfold req; rewrite length_app; cbn [length]; lia).
  erewrite (bind_Ret (zoom server_part _)) by (apply zoom_Ret; reflexivity). cbn [upd view server_part t_server t_saved t_sent t_completed client_manager buffer calls].
  rewrite Eb. assert (Et : req ++ 0 :: drop (S (length req)) b = request_text m p v c ds es (drop (S (length req)) b)).
  { unfold req, request_text. by assoc. }
  destruct (ws_handle_handshake_spec sha1_base64 send_result m p v c ds es (drop (S (length req)) b) fuel sv [] false Hsha H1 Hc H2 H3 Hw Hes) as (b1 & Hb1 & E).
  destruct (answered_eq m L b1 []) as (cp & r & Ea & -> & ->). fold L in E. rewrite Ea in E. rewrite <- Et in E.
  erewrite (bind_Ret (zoom hs_part _)) by (apply zoom_Ret; exact E).
  cbn [upd hs_part t_server t_saved t_sent t_completed client_manager buffer calls h_buf h_saved h_sent h_completed app].
  destruct (accepted m L); [|exists b1, None; by rewrite app_nil_r]. change (0 <? 0) with false. cbv iota.
  assert (Hb1' : Z.of_nat (length b1) = 65536).
  { rewrite Hb1, <- Et, length_app. cbn [length]. rewrite length_drop. lia. }
  set (ev' := ev ++ (if on_connect conn then [OnConnect] else [])).
  erewrite (bind_Ret (zoom server_part _) _ _ tt (Thread (Server mgr b1 ev') None (responses m L) true)).
  2:{ unfold ev'. destruct (on_connect conn); [reflexivity|by rewrite app_nil_r]. }
  destruct (message_loop_spec fuel conn h mgr Hfuel ps b1 ev' Hps Hb1') as (b2 & Em & _).
  exists b2, None. erewrite zoom_Ret by exact Em. unfold ev', served. cbn [upd server_part]. by rewrite <- app_assoc.
Qed.
End Facts.

(** ** Properties *)


