(* ===== verification/SysArch.v ===== *)
(** * SysArch

    src/src/sys_arch.c: the semaphores, mutexes, mailboxes, threads and the clock that
    lwIP runs on, over the calls of "os.h", which is not in the sources. *)
From S2P Require Import Prelude.

(** ** Data *)
Definition ERR_OK : Z := 0.
Definition ERR_MEM : Z := -1.
Definition SYS_ARCH_TIMEOUT : Z := 4294967295.

Inductive kind : Type := Sem | Mutex | Mbox.
(** [SYS_STATS_INC (kind.err)], [SYS_STATS_INC_USED (kind)] and [SYS_STATS_DEC (kind.used)]. *)
Inductive stat : Type := StatErr (k : kind) | StatUsed (k : kind) | StatDec (k : kind).

(** The calls of "os.h" on the state [D] of the operating system; a handle is [None]
    for NULL.  A call that can wait also says during how many ticks it has waited. *)
Record os_ops (D : Type) : Type := OsOps {
  OS_OK : Z;
  OS_TIMEOUT : Z;
  OS_WAIT_FOREVER : Z;
  os_sem_create : Z -> D -> option Z * D;
  os_sem_delete : option Z -> D -> D;
  os_sem_give : option Z -> D -> D;
  os_sem_take : option Z -> Z -> D -> Z * nat * D;
  os_mutex_create : D -> option Z * D;
  os_mutex_delete : option Z -> D -> D;
  os_mutex_take : option Z -> Z -> D -> Z * nat * D;
  os_mutex_give : option Z -> D -> D;
  os_queue_create : Z -> Z -> D -> option Z * D;
  os_queue_delete : option Z -> D -> D;
  os_queue_send : option Z -> Z -> Z -> D -> Z * nat * D;
  os_queue_receive : option Z -> Z -> D -> Z * option Z * nat * D;
  os_task_create : Z -> Z -> Z -> Z -> Z -> D -> Z * Z * D
}.
Arguments OS_OK {D} o.
Arguments OS_TIMEOUT {D} o.
Arguments OS_WAIT_FOREVER {D} o.
Arguments os_sem_create {D} o.
Arguments os_sem_delete {D} o.
Arguments os_sem_give {D} o.
Arguments os_sem_take {D} o.
Arguments os_mutex_create {D} o.
Arguments os_mutex_delete {D} o.
Arguments os_mutex_take {D} o.
Arguments os_mutex_give {D} o.
Arguments os_queue_create {D} o.
Arguments os_queue_delete {D} o.
Arguments os_queue_send {D} o.
Arguments os_queue_receive {D} o.
Arguments os_task_create {D} o.

Section SysArch.
Context {D : Type} (os : os_ops D).

Record sys : Type := Sys { sys_now_ms : Z; stats : list stat; os_state : D }.

Definition set_now (n : Z) (s : sys) : sys := Sys n (stats s) (os_state s).
Definition set_os (d : D) (s : sys) : sys := Sys (sys_now_ms s) (stats s) d.
Definition stat_call (e : stat) : Cmd sys unit := modify (fun s => Sys (sys_now_ms s) (stats s ++ [e]) (os_state s)).

(** ** The clock *)
Definition sys_init : Cmd sys unit := modify (set_now 0).
Definition sys_now : Cmd sys Z := gets sys_now_ms.
Definition sys_tick_handler : Cmd sys unit := modify (fun s => set_now (u32 (sys_now_ms s + 1)) s).

(** A call of the operating system, and one during which the clock goes on. *)
Definition os_call {A} (f : D -> A * D) : Cmd sys A :=
  fun s => let '(a, d) := f (os_state s) in Ret a (set_os d s).
Definition os_do (f : D -> D) : Cmd sys unit := modify (fun s => set_os (f (os_state s)) s).
Definition os_wait {A} (f : D -> A * nat * D) : Cmd sys A :=
  let* r := os_call (fun d => let '(a, n, d) := f d in ((a, n), d)) in
  for_each (seq 0 (snd r)) (fun _ => sys_tick_handler) ;;;
  ret (fst r).

(** ** Objects *)
Definition new_object (k : kind) (create : D -> option Z * D) : Cmd sys (option Z * Z) :=
  let* h := os_call create in
  match h with
  | None => stat_call (StatErr k) ;;; ret (h, ERR_MEM)
  | Some _ => stat_call (StatUsed k) ;;; ret (h, ERR_OK)
  end.
Definition free_object (k : kind) (delete : D -> D) : Cmd sys unit := os_do delete ;;; stat_call (StatDec k).

(** *** Semaphores and mutexes: the handle stored through the pointer is returned. *)
Definition sys_sem_new (count : Z) : Cmd sys (option Z * Z) := new_object Sem (os_sem_create os count).
Definition sys_sem_free (sem : option Z) : Cmd sys unit := free_object Sem (os_sem_delete os sem).
Definition sys_sem_signal (sem : option Z) : Cmd sys unit := os_do (os_sem_give os sem).
Definition sys_arch_sem_wait (sem : option Z) (timeout : Z) : Cmd sys Z :=
  let* start := sys_now in
  if timeout =? 0 then
    os_wait (os_sem_take os sem (OS_WAIT_FOREVER os)) ;;;
    let* now := sys_now in ret (u32 (now - start))
  else
    let* r := os_wait (os_sem_take os sem timeout) in
    if r =? OS_TIMEOUT os then ret SYS_ARCH_TIMEOUT else
    let* now := sys_now in ret (u32 (now - start)).

Definition sys_mutex_new : Cmd sys (option Z * Z) := new_object Mutex (os_mutex_create os).
Definition sys_mutex_free (mutex : option Z) : Cmd sys unit := free_object Mutex (os_mutex_delete os mutex).
Definition sys_mutex_lock (mutex : option Z) : Cmd sys unit :=
  os_wait (os_mutex_take os mutex (OS_WAIT_FOREVER os)) ;;; ret tt.
Definition sys_mutex_unlock (mutex : option Z) : Cmd sys unit := os_do (os_mutex_give os mutex).

(** *** Mailboxes: a message is a pointer, 0 for NULL.  What a fetch stores through
    [msg] is returned with its result, [None] if nothing is stored. *)
Definition sys_mbox_new (size : Z) : Cmd sys (option Z * Z) := new_object Mbox (os_queue_create os size 4).
Definition sys_mbox_free (mbox : option Z) : Cmd sys unit := free_object Mbox (os_queue_delete os mbox).
Definition sys_mbox_post (mbox : option Z) (msg : Z) : Cmd sys unit :=
  os_wait (os_queue_send os mbox msg (OS_WAIT_FOREVER os)) ;;; ret tt.
Definition sys_mbox_trypost (mbox : option Z) (msg : Z) : Cmd sys Z :=
  let* r := os_wait (os_queue_send os mbox msg 0) in
  if negb (r =? OS_OK os) then stat_call (StatErr Mbox) ;;; ret ERR_MEM else ret ERR_OK.
Definition sys_arch_mbox_fetch (mbox : option Z) (timeout : Z) : Cmd sys (Z * option Z) :=
  let* start := sys_now in
  if timeout =? 0 then
    let* r := os_wait (os_queue_receive os mbox (OS_WAIT_FOREVER os)) in
    let* now := sys_now in ret (u32 (now - start), snd r)
  else
    let* r := os_wait (os_queue_receive os mbox timeout) in
    if fst r =? OS_TIMEOUT os then ret (SYS_ARCH_TIMEOUT, Some 0) else
    let* now := sys_now in ret (u32 (now - start), snd r).
Definition sys_arch_mbox_tryfetch (mbox : option Z) : Cmd sys (Z * option Z) :=
  let* r := os_wait (os_queue_receive os mbox 0) in
  if fst r =? OS_TIMEOUT os then ret (SYS_ARCH_TIMEOUT, Some 0) else ret (0, snd r).

(** *** Threads *)
Definition sys_thread_new (name thread arg stacksize prio : Z) : Cmd sys (option Z) :=
  let* r := os_call (fun d => let '(c, t, d) := os_task_create os name thread arg prio stacksize d in ((c, t), d)) in
  if negb (fst r =? OS_OK os) then ret None else ret (Some (snd r)).
End SysArch.
Arguments sys D : clear implicits.
Arguments Sys {D} sys_now_ms stats os_state.
Arguments sys_now_ms {D} s.
Arguments stats {D} s.
Arguments os_state {D} s.

(** ** What the operating system promises

    Its queues are a map from handles to a capacity and the messages waiting. *)
Class OsQueues {D : Type} (os : os_ops D) (queues : D -> gmap Z (nat * list Z)) : Prop := {
  codes : OS_OK os <> OS_TIMEOUT os;
  send_room d h cap l m t : queues d !! h = Some (cap, l) -> (length l < cap)%nat ->
    exists n d', os_queue_send os (Some h) m t d = (OS_OK os, n, d') /\ queues d' = <[h := (cap, l ++ [m])]> (queues d);
  send_full d h cap l m : queues d !! h = Some (cap, l) -> (cap <= length l)%nat ->
    exists r n d', os_queue_send os (Some h) m 0 d = (r, n, d') /\ r <> OS_OK os /\ queues d' = queues d;
  receive_some d h cap m l t : queues d !! h = Some (cap, m :: l) ->
    exists n d', os_queue_receive os (Some h) t d = (OS_OK os, Some m, n, d') /\ queues d' = <[h := (cap, l)]> (queues d);
  receive_empty d h cap : queues d !! h = Some (cap, []) ->
    exists n d', os_queue_receive os (Some h) 0 d = (OS_TIMEOUT os, None, n, d') /\ queues d' = queues d
}.

(** ** Mailboxes as bounded queues *)
Inductive mbox_op : Type := TryPost (h m : Z) | TryFetch (h : Z).
Definition op_handle (o : mbox_op) : Z := match o with TryPost h _ => h | TryFetch h => h end.
(** The result of a post, or of a fetch with what it stores. *)
Definition outcome : Type := Z * option Z.

(** One operation on the map. *)
Definition spec_op (o : mbox_op) (Q : gmap Z (nat * list Z)) : outcome * gmap Z (nat * list Z) :=
  match o with
  | TryPost h m =>
      match Q !! h with
      | Some (cap, l) => if (length l <? cap)%nat then ((ERR_OK, None), <[h := (cap, l ++ [m])]> Q) else ((ERR_MEM, None), Q)
      | None => ((ERR_MEM, None), Q)
      end
  | TryFetch h =>
      match Q !! h with
      | Some (cap, m :: l) => ((0, Some m), <[h := (cap, l)]> Q)
      | _ => ((SYS_ARCH_TIMEOUT, Some 0), Q)
      end
  end.
Fixpoint spec_run (ops : list mbox_op) (Q : gmap Z (nat * list Z)) : list outcome * gmap Z (nat * list Z) :=
  match ops with
  | [] => ([], Q)
  | o :: ops => let '(r, Q) := spec_op o Q in let '(rs, Q) := spec_run ops Q in (r :: rs, Q)
  end.

Lemma spec_op_dom o Q h : is_Some (Q !! h) -> is_Some (snd (spec_op o Q) !! h).
Proof.
  intros HQ. unfold spec_op. repeat case_match; cbn [snd]; try done; destruct o; simplify_eq/=; by apply lookup_insert_is_Some'; right.
Qed.

Section Facts.
Context {D : Type} (os : os_ops D) (queues : D -> gmap Z (nat * list Z)) `{!OsQueues os queues}.

Definition run_op (o : mbox_op) : Cmd (sys D) outcome :=
  match o with
  | TryPost h m => let* r := sys_mbox_trypost os (Some h) m in ret (r, None)
  | TryFetch h => sys_arch_mbox_tryfetch os (Some h)
  end.
Fixpoint run_ops (ops : list mbox_op) : Cmd (sys D) (list outcome) :=
  match ops with
  | [] => ret []
  | o :: ops => let* r := run_op o in let* rs := run_ops ops in ret (r :: rs)
  end.

Lemma ticks_spec n i (s : sys D) : 0 <= sys_now_ms s < 2 ^ 32 ->
  for_each (seq i n) (fun _ => sys_tick_handler) s = Ret tt (Sys (u32 (sys_now_ms s + Z.of_nat n)) (stats s) (os_state s)).
Proof.
  revert i s. induction n as [|n IH]; intros i s Hs; cbn [seq for_each].
  - rewrite u32_small by lia. rewrite Z.add_0_r. by destruct s.
  - erewrite (bind_Ret sys_tick_handler) by reflexivity. rewrite IH; [|apply u32_range]. cbn [sys_now_ms stats os_state set_now].
    do 2 f_equal. unfold u32, wrap. rewrite Z.add_mod_idemp_l by lia. f_equal. lia.
Qed.
Lemma os_wait_spec {A} (f : D -> A * nat * D) s a n d : 0 <= sys_now_ms s < 2 ^ 32 -> f (os_state s) = (a, n, d) ->
  os_wait f s = Ret a (Sys (u32 (sys_now_ms s + Z.of_nat n)) (stats s) d).
Proof.
  intros Hs Hf. unfold os_wait. rewrite (bind_Ret _ _ s (a, n) (set_os d s)) by (unfold os_call; by rewrite Hf).
  by rewrite (bind_Ret _ _ _ _ _ (ticks_spec n 0 (set_os d s) Hs)).
Qed.
(** The difference of two readings is the time in between, wrap-around included. *)
Lemma elapsed a n : u32 (u32 (a + Z.of_nat n) - a) = u32 (Z.of_nat n).
Proof. unfold u32, wrap. rewrite Zminus_mod_idemp_l. f_equal. lia. Qed.

Lemma run_op_spec o s : 0 <= sys_now_ms s < 2 ^ 32 -> is_Some (queues (os_state s) !! op_handle o) ->
  exists s', run_op o s = Ret (fst (spec_op o (queues (os_state s)))) s' /\
    queues (os_state s') = snd (spec_op o (queues (os_state s))) /\ 0 <= sys_now_ms s' < 2 ^ 32.
Proof using OsQueues0.
  intros Hs [[cap l] Hq]. unfold spec_op. destruct o as [h m|h]; cbn [op_handle run_op] in *; rewrite Hq.
  - unfold sys_mbox_trypost. destruct (Nat.ltb_spec (length l) cap) as [Hl|Hl].
    + destruct (send_room (os_state s) h cap l m 0 Hq Hl) as (n & d' & E & Hd).
      eexists. erewrite (bind_Ret (bind _ _)) by (rewrite (bind_Ret _ _ _ _ _ (os_wait_spec _ s _ _ _ Hs E)), Z.eqb_refl; reflexivity).
      split; [reflexivity|]. split; [exact Hd|apply u32_range].
    + destruct (send_full (os_state s) h cap l m Hq Hl) as (r & n & d' & E & Hr & Hd).
      eexists. erewrite (bind_Ret (bind _ _)) by (rewrite (bind_Ret _ _ _ _ _ (os_wait_spec _ s _ _ _ Hs E)), (proj2 (Z.eqb_neq _ _) Hr); reflexivity).
      split; [reflexivity|]. split; [exact Hd|apply u32_range].
  - unfold sys_arch_mbox_tryfetch. destruct l as [|m l].
    + destruct (receive_empty (os_state s) h cap Hq) as (n & d' & E & Hd). rewrite (bind_Ret _ _ _ _ _ (os_wait_spec _ s _ _ _ Hs E)).
      cbn [fst snd]. rewrite Z.eqb_refl. eexists. split; [reflexivity|]. split; [exact Hd|apply u32_range].
    + destruct (receive_some (os_state s) h cap m l 0 Hq) as (n & d' & E & Hd). rewrite (bind_Ret _ _ _ _ _ (os_wait_spec _ s _ _ _ Hs E)).
      cbn [fst snd]. rewrite (proj2 (Z.eqb_neq _ _)) by apply codes. eexists. split; [reflexivity|]. split; [exact Hd|apply u32_range].
Qed.

Lemma run_ops_spec ops s : 0 <= sys_now_ms s < 2 ^ 32 -> Forall (fun o => is_Some (queues (os_state s) !! op_handle o)) ops ->
  exists s', run_ops ops s = Ret (fst (spec_run ops (queues (os_state s)))) s' /\
    queues (os_state s') = snd (spec_run ops (queues (os_state s))).
Proof using OsQueues0.
  revert s. induction ops as [|o ops IH]; intros s Hs Hops; cbn [run_ops spec_run]; [by exists s|].
  apply Forall_cons in Hops as [Ho Hops]. destruct (run_op_spec o s Hs Ho) as (s1 & E1 & Hq1 & Hs1).
  rewrite (bind_Ret _ _ _ _ _ E1). destruct (spec_op o (queues (os_state s))) as [r Q] eqn:Eo. cbn [fst snd] in *. subst Q.
  destruct (IH s1 Hs1) as (s2 & E2 & Hq2).
  { eapply Forall_impl; [exact Hops|]. cbn. intros o' Ho'. pose proof (spec_op_dom o _ _ Ho') as H. by rewrite Eo in H. }
  rewrite (bind_Ret _ _ _ _ _ E2). destruct (spec_run ops (queues (os_state s1))) as [rs Q]. by exists s2.
Qed.
End Facts.

(** ** Properties *)


(** An operating system whose state is the map itself; a call takes three ticks. *)
Definition map_os : os_ops (gmap Z (nat * list Z)) := {|
  OS_OK := 0; OS_TIMEOUT := 1; OS_WAIT_FOREVER := 4294967295;
  os_sem_create _ d := (None, d); os_sem_delete _ d := d; os_sem_give _ d := d; os_sem_take _ _ d := (0, 3%nat, d);
  os_mutex_create d := (None, d); os_mutex_delete _ d := d; os_mutex_take _ _ d := (0, 3%nat, d); os_mutex_give _ d := d;
  os_queue_create n _ d := let h := fresh (dom d) in (Some h, <[h := (Z.to_nat n, [])]> d);
  os_queue_delete h d := match h with Some h => delete h d | None => d end;
  os_queue_send h m _ d :=
    match h with
    | None => (2, 3%nat, d)
    | Some h => match d !! h with
                | Some (cap, l) => if (length l <? cap)%nat then (0, 3%nat, <[h := (cap, l ++ [m])]> d) else (1, 3%nat, d)
                | None => (2, 3%nat, d)
                end
    end;
  os_queue_receive h _ d :=
    match h with
    | None => (2, None, 3%nat, d)
    | Some h => match d !! h with
                | Some (cap, m :: l) => (0, Some m, 3%nat, <[h := (cap, l)]> d)
                | Some (_, []) => (1, None, 3%nat, d)
                | None => (2, None, 3%nat, d)
                end
    end;
  os_task_create _ _ _ _ _ d := (2, 0, d)
|}.
#[export] Instance map_os_queues : OsQueues map_os (fun d => d).
Proof.
  split.
  - done.
  - intros d h cap l m t Hq Hl. cbn [os_queue_send os_queue_receive map_os]. rewrite Hq, (proj2 (Nat.ltb_lt _ _) Hl). by eexists _, _.
  - intros d h cap l m Hq Hl. cbn [os_queue_send os_queue_receive map_os]. rewrite Hq, (proj2 (Nat.ltb_ge _ _) Hl). by eexists _, _, _.
  - intros d h cap m l t Hq. cbn [os_queue_send os_queue_receive map_os]. rewrite Hq. by eexists _, _.
  - intros d h cap Hq. cbn [os_queue_send os_queue_receive map_os]. rewrite Hq. by eexists _, _.
Qed.
