(* ===== verification/SslServer.v ===== *)
(** * SslServer

    src/src/ssl_server.c over mbedTLS, which is not in the sources: the set-up of the
    server, the session with one client, and the device manager that runs signed
    commands.  What the calls of the library answer is a parameter: a code each, or a
    list of the codes of the coming calls. *)
From S2P Require Import Prelude Ipc Mem Bytes.

(** ** Setting up

    The calls of [ssl_server_init] that can fail, in order, each with the code it gives;
    those made before the first failure, and the code returned.  A failure undoes
    nothing. *)
Inductive setup_call : Type := SeedRng | ParseCert | ParseKey | ConfigDefaults | OwnCert | NetBind.
Fixpoint make_calls (calls : list setup_call) (code : setup_call -> Z) : list setup_call * Z :=
  match calls with
  | [] => ([], 0)
  | c :: calls =>
      if negb (code c =? 0) then ([c], code c) else let '(made, r) := make_calls calls code in (c :: made, r)
  end.
Definition ssl_server_init : (setup_call -> Z) -> list setup_call * Z :=
  make_calls [SeedRng; ParseCert; ParseKey; ConfigDefaults; OwnCert; NetBind].

(** ** A session *)
Inductive event : Type :=
| Received (text : list Z)
| CloseNotify
| NetFree
| SslFree.
(** The codes and data of the coming calls. *)
Record session : Type := Session {
  handshakes : list Z;
  reads : list (Z * list Z);
  writes : list Z;
  buf : list Z;
  events : list event
}.

Section Session.
Context (WANT_READ WANT_WRITE : Z).
Definition want (r : Z) : bool := (r =? WANT_READ) || (r =? WANT_WRITE).

Definition log (e : event) : Cmd session unit :=
  modify (fun s => Session (handshakes s) (reads s) (writes s) (buf s) (events s ++ [e])).
Definition ssl_handshake : Cmd session Z :=
  let* s := get in
  match handshakes s with
  | [] => fail NoFuel
  | r :: l => put (Session l (reads s) (writes s) (buf s) (events s)) ;;; ret r
  end.
(** At most 1024 bytes are stored at [buf]. *)
Definition ssl_read : Cmd session Z :=
  let* s := get in
  match reads s with
  | [] => fail NoFuel
  | (r, d) :: l => put (Session (handshakes s) l (writes s) (splice 0 d (buf s)) (events s)) ;;; ret r
  end.
Definition ssl_write : Cmd session Z :=
  let* s := get in
  match writes s with
  | [] => fail NoFuel
  | r :: l => put (Session (handshakes s) (reads s) l (buf s) (events s)) ;;; ret r
  end.

(** [None] to go on, [Some ret] for [goto exit]. *)
Fixpoint handshake_loop (fuel : nat) : Cmd session (option Z) :=
  match fuel with
  | O => fail NoFuel
  | S fuel' =>
      let* r := ssl_handshake in
      if r =? 0 then ret None else if negb (want r) then ret (Some r) else handshake_loop fuel'
  end.
Fixpoint write_loop (fuel : nat) : Cmd session (option Z) :=
  match fuel with
  | O => fail NoFuel
  | S fuel' =>
      let* r := ssl_write in
      if 0 <? r then ret None else if negb (want r) then ret (Some r) else write_loop fuel'
  end.
Fixpoint exchange_loop (fuel : nat) : Cmd session Z :=
  match fuel with
  | O => fail NoFuel
  | S fuel' =>
      let* r := ssl_read in
      if want r then exchange_loop fuel' else
      if r <=? 0 then ret r else
      let* s := get in
      if 1024 <=? r then fail Fault else
      put (Session (handshakes s) (reads s) (writes s) (splice (Z.to_nat r) [0] (buf s)) (events s)) ;;;
      let* s := get in
      log (Received (take (Z.to_nat r) (buf s))) ;;;
      let* e := write_loop fuel' in
      match e with Some r => ret r | None => exchange_loop fuel' end
  end.
Definition ssl_server_handle_client (fuel : nat) (accept setup : Z) : Cmd session Z :=
  if negb (accept =? 0) then ret accept else
  let* r :=
    if negb (setup =? 0) then ret setup else
    let* e := handshake_loop fuel in
    match e with Some r => ret r | None => exchange_loop fuel end in
  log CloseNotify ;;; log NetFree ;;; log SslFree ;;;
  ret r.
End Session.

(** ** The device manager *)
Definition MSG_TYPE_AUTH_REQUEST : Z := 1.
Definition MSG_TYPE_COMMAND : Z := 4.

Record device_info_t : Type := DeviceInfo {
  device_id : list Z;
  model : list Z;
  firmware_version : list Z;
  status : Z;
  last_update : Z
}.
Definition info_bytes (i : device_info_t) : list Z :=
  device_id i ++ model i ++ firmware_version i ++ le32 (status i) ++ le32 (last_update i).

(** The calls that change the device or leave it; a pointer is the rest of the message
    from there on. *)
Inductive action : Type :=
| StartUpdate (parameters : list Z) (len : Z)
| UpdateConfig (parameters : list Z) (len : Z)
| AuthRequest (data : list Z) (len : Z)
| SendStatus (data signature : list Z).

Record manager : Type := Manager { info : device_info_t; message : list Z; actions : list action }.
Definition set_status (v : Z) (s : manager) : manager :=
  let i := info s in Manager (DeviceInfo (device_id i) (model i) (firmware_version i) v (last_update i)) (message s) (actions s).
Definition set_last_update (v : Z) (s : manager) : manager :=
  let i := info s in Manager (DeviceInfo (device_id i) (model i) (firmware_version i) (status i) v) (message s) (actions s).
Definition set_message (m : list Z) (s : manager) : manager := Manager (info s) m (actions s).
Definition act (a : action) : Cmd manager unit := modify (fun s => Manager (info s) (message s) (actions s ++ [a])).

(** The library, the functions "ssl_server.c" calls and does not define, and the codes it
    does not define. *)
Record device_ops : Type := DeviceOps {
  sha256 : list Z -> list Z;
  pk_verify : list Z -> list Z -> Z;
  pk_sign : list Z -> Z * list Z;
  ssl_write_code : Z;
  verify_firmware_signature : list Z -> Z -> bool;
  update_device_config : list Z -> Z -> bool;
  CMD_GET_STATUS : Z;
  CMD_UPDATE_FIRMWARE : Z;
  CMD_CONFIGURE : Z;
  STATUS_UPDATING : Z;
  STATUS_CONFIGURED : Z;
  STATUS_ERROR : Z
}.

(** The fields of a message of 1096 bytes, and of the command in its data. *)
Definition word_at (i : nat) (m : list Z) : Z := val32 (slice i 4 m).
Definition msg_type (m : list Z) : Z := word_at 0 m.
Definition msg_len (m : list Z) : Z := word_at 4 m.
Definition data (m : list Z) : list Z := drop 8 m.
Definition signature (m : list Z) : list Z := slice 1032 64 m.
Definition cmd_id (m : list Z) : Z := word_at 8 m.
Definition param_len (m : list Z) : Z := word_at 12 m.
Definition parameters (m : list Z) : list Z := drop 16 m.

Section Manager.
Context (ops : device_ops) (WANT_READ WANT_WRITE : Z).

(** [mbedtls_sha256 (m.data, m.msg_len, ...)]: the data that lie in the message. *)
Definition hashed (m : list Z) : list Z := sha256 ops (take (Z.to_nat (msg_len m)) (data m)).

(** The response: the first 88 bytes of its data are set. *)
Definition send_status : Cmd manager Z :=
  let* s := get in
  let d := info_bytes (info s) in
  let '(r, sig) := pk_sign ops (sha256 ops d) in
  if negb (r =? 0) then ret r else
  act (SendStatus d sig) ;;;
  ret (ssl_write_code ops).
Definition handle_device_command (m : list Z) : Cmd manager Z :=
  if cmd_id m =? CMD_GET_STATUS ops then send_status
  else if cmd_id m =? CMD_UPDATE_FIRMWARE ops then
    (if verify_firmware_signature ops (parameters m) (param_len m) then
       act (StartUpdate (parameters m) (param_len m)) ;;; modify (set_status (STATUS_UPDATING ops))
     else modify (set_status (STATUS_ERROR ops))) ;;;
    send_status
  else if cmd_id m =? CMD_CONFIGURE ops then
    act (UpdateConfig (parameters m) (param_len m)) ;;;
    modify (set_status (if update_device_config ops (parameters m) (param_len m) then STATUS_CONFIGURED ops else STATUS_ERROR ops)) ;;;
    send_status
  else ret (-1).

(** One round of the loop after a read of bytes; [now] is what [time] answers. *)
Definition handle_message (now : Z) : Cmd manager unit :=
  let* s := get in
  let m := message s in
  if Z.of_nat (length (data m)) <? msg_len m then fail Fault else
  if negb (pk_verify ops (hashed m) (signature m) =? 0) then ret tt else
  (if msg_type m =? MSG_TYPE_COMMAND then handle_device_command m ;;; ret tt
   else if msg_type m =? MSG_TYPE_AUTH_REQUEST then act (AuthRequest (data m) (msg_len m))
   else ret tt) ;;;
  modify (set_last_update now).
(** The reads to come: the code, the bytes stored and the time. *)
Fixpoint device_manager_loop (inputs : list (Z * list Z * Z)) : Cmd manager unit :=
  match inputs with
  | [] => fail NoFuel
  | (r, d, now) :: inputs =>
      if r <=? 0 then
        if (r =? WANT_READ) || (r =? WANT_WRITE) then device_manager_loop inputs else ret tt
      else
        modify (fun s => set_message (splice 0 d (message s)) s) ;;;
        handle_message now ;;;
        device_manager_loop inputs
  end.
End Manager.

(** [init_device_manager]: [strncpy] fills an array of [n] bytes; the codes are those of
    the key file and of the session. *)
Definition strncpy (n : nat) (t : list Z) : list Z := take n (t ++ replicate n 0).
Definition init_device_manager (id model_ version : list Z) (key session_ : Z) : Z * device_info_t :=
  (if negb (key =? 0) then key else if negb (session_ =? 0) then session_ else 0,
   DeviceInfo (strncpy 32 id) (strncpy 32 model_) (strncpy 16 version) 0 0).

(** ** Facts *)
Section ManagerFacts.
Context (ops : device_ops) (WANT_READ WANT_WRITE : Z).

Definition signed (m : list Z) : Prop := pk_verify ops (hashed ops m) (signature m) = 0.
(** What a message has to be to lead to an action. *)
Definition justifies (a : action) (m : list Z) : Prop :=
  signed m /\
  match a with
  | StartUpdate p n =>
      msg_type m = MSG_TYPE_COMMAND /\ cmd_id m = CMD_UPDATE_FIRMWARE ops /\ p = parameters m /\ n = param_len m /\
      verify_firmware_signature ops p n = true
  | UpdateConfig p n => msg_type m = MSG_TYPE_COMMAND /\ cmd_id m = CMD_CONFIGURE ops /\ p = parameters m /\ n = param_len m
  | AuthRequest d n => msg_type m = MSG_TYPE_AUTH_REQUEST /\ d = data m /\ n = msg_len m
  | SendStatus d sig => msg_type m = MSG_TYPE_COMMAND /\ sig = snd (pk_sign ops (sha256 ops d))
  end.
Definition justified (seen : list (list Z)) (a : action) : Prop := exists m, m ∈ seen /\ justifies a m.
(** The contents of the message buffer after each read. *)
Fixpoint buffers (m : list Z) (inputs : list (Z * list Z * Z)) : list (list Z) :=
  match inputs with
  | [] => []
  | (r, d, _) :: inputs => if r <=? 0 then buffers m inputs else splice 0 d m :: buffers (splice 0 d m) inputs
  end.

(** [c] only adds actions that the message justifies. *)
Definition adds (m : list Z) (c : Cmd manager unit) : Prop :=
  forall s, exists new s', c s = Ret tt s' /\ message s' = message s /\ actions s' = actions s ++ new /\ Forall (fun a => justifies a m) new.
Lemma adds_bind m c1 c2 : adds m c1 -> adds m c2 -> adds m (c1 ;;; c2).
Proof.
  intros H1 H2 s. destruct (H1 s) as (n1 & s1 & E1 & M1 & A1 & F1). destruct (H2 s1) as (n2 & s2 & E2 & M2 & A2 & F2).
  exists (n1 ++ n2), s2. rewrite (bind_Ret _ _ _ _ _ E1). split_and!; [done|congruence|by rewrite A2, A1, app_assoc|by apply Forall_app].
Qed.
Lemma adds_keep m f : (forall s, message (f s) = message s /\ actions (f s) = actions s) -> adds m (modify f).
Proof. intros H s. destruct (H s). exists [], (f s). rewrite app_nil_r. by split_and!. Qed.
Lemma adds_ret m : adds m (ret tt).
Proof. intros s. exists [], s. rewrite app_nil_r. by split_and!. Qed.
Lemma adds_act m a : justifies a m -> adds m (act a).
Proof. intros H s. exists [a]. eexists. split_and!; [reflexivity|done|done|by constructor]. Qed.

Lemma send_status_adds m s : signed m -> msg_type m = MSG_TYPE_COMMAND ->
  exists r new s', send_status ops s = Ret r s' /\ message s' = message s /\ actions s' = actions s ++ new /\ Forall (fun a => justifies a m) new.
Proof.
  intros Hm Ht. unfold send_status. erewrite (bind_Ret get) by reflexivity. cbv zeta.
  destruct (pk_sign ops _) as [r sig] eqn:E. destruct (negb (r =? 0)).
  - exists r, [], s. rewrite app_nil_r. by split_and!.
  - eexists _, [_], _. split_and!; [reflexivity|done|done|]. constructor; [|done]. split; [done|]. by rewrite E.
Qed.
Lemma adds_command m : signed m -> msg_type m = MSG_TYPE_COMMAND -> adds m (handle_device_command ops m ;;; ret tt).
Proof.
  intros Hm Ht s. assert (Hgo : forall c, adds m c -> exists r new s', (c ;;; send_status ops) s = Ret r s' /\ message s' = message s /\
    actions s' = actions s ++ new /\ Forall (fun a => justifies a m) new).
  { intros c Hc. destruct (Hc s) as (n1 & s1 & E1 & M1 & A1 & F1). destruct (send_status_adds m s1 Hm Ht) as (r & n2 & s2 & E2 & M2 & A2 & F2).
    exists r, (n1 ++ n2), s2. rewrite (bind_Ret _ _ _ _ _ E1). split_and!; [done|congruence|by rewrite A2, A1, app_assoc|by apply Forall_app]. }
  assert (H : exists r new s', handle_device_command ops m s = Ret r s' /\ message s' = message s /\
    actions s' = actions s ++ new /\ Forall (fun a => justifies a m) new).
  { unfold handle_device_command. destruct (Z.eqb_spec (cmd_id m) (CMD_GET_STATUS ops)); [by apply send_status_adds|].
    destruct (Z.eqb_spec (cmd_id m) (CMD_UPDATE_FIRMWARE ops)).
    - apply Hgo. destruct (verify_firmware_signature _ _ _) eqn:Hv; [apply adds_bind|]; [by apply adds_act|by apply adds_keep..].
    - destruct (Z.eqb_spec (cmd_id m) (CMD_CONFIGURE ops)).
      + assert (Hc : adds m (act (UpdateConfig (parameters m) (param_len m)) ;;;
          modify (set_status (if update_device_config ops (parameters m) (param_len m) then STATUS_CONFIGURED ops else STATUS_ERROR ops)))).
        { apply adds_bind; [by apply adds_act|by apply adds_keep]. }
        destruct (Hgo _ Hc) as (r & new & s' & E & Hrest). exists r, new, s'. split; [exact E|exact Hrest].
      + exists (-1), [], s. rewrite app_nil_r. by split_and!. }
  destruct H as (r & new & s' & E & H). exists new, s'. by rewrite (bind_Ret _ _ _ _ _ E).
Qed.

Lemma handle_message_spec now s : msg_len (message s) <= Z.of_nat (length (data (message s))) ->
  exists new s', handle_message ops now s = Ret tt s' /\ message s' = message s /\ actions s' = actions s ++ new /\
    Forall (fun a => justifies a (message s)) new /\ (~ signed (message s) -> s' = s).
Proof.
  intros Hl. unfold handle_message. erewrite (bind_Ret get) by reflexivity. cbv zeta. rewrite (proj2 (Z.ltb_ge _ _)) by done.
  destruct (Z.eqb_spec (pk_verify ops (hashed ops (message s)) (signature (message s))) 0) as [Hs|Hs]; cbn [negb].
  - assert (Ha : adds (message s) ((if msg_type (message s) =? MSG_TYPE_COMMAND then handle_device_command ops (message s) ;;; ret tt
      else if msg_type (message s) =? MSG_TYPE_AUTH_REQUEST then act (AuthRequest (data (message s)) (msg_len (message s))) else ret tt) ;;;
      modify (set_last_update now))).
    { apply adds_bind; [|by apply adds_keep]. destruct (Z.eqb_spec (msg_type (message s)) MSG_TYPE_COMMAND); [by apply adds_command|].
      destruct (Z.eqb_spec (msg_type (message s)) MSG_TYPE_AUTH_REQUEST); [by apply adds_act|apply adds_ret]. }
    destruct (Ha s) as (new & s' & E & M & A & F). exists new, s'. split_and!; try done.
  - exists [], s. rewrite app_nil_r. split_and!; done.
Qed.

Lemma loop_spec r0 d0 t0 ins : r0 <= 0 -> want WANT_READ WANT_WRITE r0 = false ->
  forall s, Forall (fun i => fst (fst i) <= 0 -> want WANT_READ WANT_WRITE (fst (fst i)) = true) ins ->
  Forall (fun m => msg_len m <= Z.of_nat (length (data m))) (buffers (message s) ins) ->
  exists new s', device_manager_loop ops WANT_READ WANT_WRITE (ins ++ [(r0, d0, t0)]) s = Ret tt s' /\
    actions s' = actions s ++ new /\ Forall (justified (buffers (message s) ins)) new /\
    (Forall (fun m => ~ signed m) (buffers (message s) ins) -> info s' = info s /\ new = []).
Proof.
  intros Hr0 Hw0. unfold want in *. induction ins as [|[[r d] now] ins IH]; intros s Hin Hlen; cbn [app device_manager_loop buffers] in *.
  - rewrite (proj2 (Z.leb_le _ _) Hr0), Hw0. exists [], s. rewrite app_nil_r. by split_and!.
  - apply Forall_cons in Hin as [Hr Hin]. cbn [fst] in Hr. destruct (Z.leb_spec r 0) as [Hle|Hgt].
    + rewrite (Hr Hle). by apply IH.
    + erewrite (bind_Ret (modify _)) by reflexivity. set (s1 := set_message (splice 0 d (message s)) s).
      apply Forall_cons in Hlen as [Hl Hlen].
      destruct (handle_message_spec now s1 Hl) as (n1 & s2 & E1 & M1 & A1 & F1 & U1). rewrite (bind_Ret _ _ _ _ _ E1).
      cbn [s1 set_message message] in M1. rewrite <- M1 in Hlen.
      destruct (IH s2 Hin Hlen) as (n2 & s3 & E2 & A2 & F2 & U2). rewrite M1 in F2, U2. exists (n1 ++ n2), s3. split; [exact E2|].
      split; [by rewrite A2, A1, app_assoc|]. split.
      * apply Forall_app. split; (eapply Forall_impl; [eassumption|]); intros a Ha.
        -- exists (splice 0 d (message s)). split; [left|exact Ha].
        -- destruct Ha as (m & Hm & Ha). exists m. split; [by right|done].
      * intros Hno. apply Forall_cons in Hno as [Hno1 Hno2]. specialize (U1 Hno1). subst s2. destruct (U2 Hno2) as [Hi ->].
        split; [exact Hi|]. cbn [s1 set_message actions] in A1. apply (f_equal length) in A1. rewrite length_app in A1. by destruct n1; [|cbn in A1; lia].
Qed.
End ManagerFacts.

Section SessionFacts.
Context (WANT_READ WANT_WRITE : Z).
Definition wanted (r : Z) : Prop := want WANT_READ WANT_WRITE r = true.

(** One message of the client and the answer: the calls that have to be repeated, the
    bytes read, and what the write that succeeds gives. *)
Record exchange : Type := Exchange { x_retries : list (Z * list Z); x_data : list Z; x_rewrites : list Z; x_written : Z }.
Definition exchange_ok (x : exchange) : Prop :=
  Forall (fun r => wanted (fst r) /\ snd r = []) (x_retries x) /\ (0 < length (x_data x) < 1024)%nat /\
  want WANT_READ WANT_WRITE (Z.of_nat (length (x_data x))) = false /\
  Forall (fun r => r <= 0 /\ wanted r) (x_rewrites x) /\ 0 < x_written x.
Definition exchange_reads (xs : list exchange) : list (Z * list Z) :=
  concat ((fun x => x_retries x ++ [(Z.of_nat (length (x_data x)), x_data x)]) <$> xs).
Definition exchange_writes (xs : list exchange) : list Z := concat ((fun x => x_rewrites x ++ [x_written x]) <$> xs).
(** The rounds of all loops together. *)
Definition exchange_rounds (xs : list exchange) : nat :=
  sum_list_with (fun x => length (x_retries x) + length (x_rewrites x) + 2)%nat xs.

Lemma handshake_ends hs h fuel s rest : Forall (fun r => r <> 0 /\ wanted r) hs -> (h <> 0 -> want WANT_READ WANT_WRITE h = false) ->
  handshakes s = hs ++ h :: rest -> (length hs < fuel)%nat ->
  handshake_loop WANT_READ WANT_WRITE fuel s = Ret (if h =? 0 then None else Some h) (Session rest (reads s) (writes s) (buf s) (events s)).
Proof.
  intros Hhs Hh. revert fuel s. induction hs as [|r hs IH]; intros fuel s Hs Hf; (destruct fuel as [|fuel]; [cbn in Hf; lia|]); cbn [handshake_loop app] in *.
  - rewrite (bind_Ret ssl_handshake _ s h (Session rest (reads s) (writes s) (buf s) (events s))).
    2:{ unfold ssl_handshake. erewrite (bind_Ret get) by reflexivity. by rewrite Hs. }
    destruct (Z.eqb_spec h 0); [done|]. by rewrite Hh.
  - apply Forall_cons in Hhs as [[Hr0 Hr] Hhs].
    rewrite (bind_Ret ssl_handshake _ s r (Session (hs ++ h :: rest) (reads s) (writes s) (buf s) (events s))).
    2:{ unfold ssl_handshake. erewrite (bind_Ret get) by reflexivity. by rewrite Hs. }
    rewrite (proj2 (Z.eqb_neq _ _)) by done. rewrite Hr. cbn [negb]. rewrite IH; [done|done|done|cbn in Hf; lia].
Qed.
Lemma handshake_retries hs fuel s rest : Forall (fun r => r <> 0 /\ wanted r) hs -> handshakes s = hs ++ 0 :: rest -> (length hs < fuel)%nat ->
  handshake_loop WANT_READ WANT_WRITE fuel s = Ret None (Session rest (reads s) (writes s) (buf s) (events s)).
Proof. intros H1 H2 H3. by apply (handshake_ends hs 0). Qed.
Lemma write_retries ws w fuel s rest : Forall (fun r => r <= 0 /\ wanted r) ws -> 0 < w -> writes s = ws ++ w :: rest -> (length ws < fuel)%nat ->
  write_loop WANT_READ WANT_WRITE fuel s = Ret None (Session (handshakes s) (reads s) rest (buf s) (events s)).
Proof.
  intros Hws Hw. revert fuel s. induction ws as [|r ws IH]; intros fuel s Hs Hf; (destruct fuel as [|fuel]; [cbn in Hf; lia|]); cbn [write_loop app] in *.
  - rewrite (bind_Ret ssl_write _ s w (Session (handshakes s) (reads s) rest (buf s) (events s))).
    2:{ unfold ssl_write. erewrite (bind_Ret get) by reflexivity. by rewrite Hs. }
    by rewrite (proj2 (Z.ltb_lt _ _)).
  - apply Forall_cons in Hws as [[Hr0 Hr] Hws].
    rewrite (bind_Ret ssl_write _ s r (Session (handshakes s) (reads s) (ws ++ w :: rest) (buf s) (events s))).
    2:{ unfold ssl_write. erewrite (bind_Ret get) by reflexivity. by rewrite Hs. }
    rewrite (proj2 (Z.ltb_ge _ _)) by done. rewrite Hr. cbn [negb]. rewrite IH; [done|done|done|cbn in Hf; lia].
Qed.
Lemma read_spec s r d rest : reads s = (r, d) :: rest ->
  ssl_read s = Ret r (Session (handshakes s) rest (writes s) (splice 0 d (buf s)) (events s)).
Proof. intros H. unfold ssl_read. erewrite (bind_Ret get) by reflexivity. by rewrite H. Qed.
Lemma exchange_retries l fuel s rest : Forall (fun r => wanted (fst r) /\ snd r = []) l -> reads s = l ++ rest -> (length l <= fuel)%nat ->
  exchange_loop WANT_READ WANT_WRITE fuel s =
    exchange_loop WANT_READ WANT_WRITE (fuel - length l) (Session (handshakes s) rest (writes s) (buf s) (events s)).
Proof.
  revert fuel s. induction l as [|[r d] l IH]; intros fuel s Hl Hs Hf; cbn [app length] in *.
  - rewrite Nat.sub_0_r. rewrite <- Hs. by destruct s.
  - destruct fuel as [|fuel]; [lia|]. apply Forall_cons in Hl as [[Hr Hd] Hl]. cbn [fst snd] in *. subst d. cbn [exchange_loop].
    rewrite (bind_Ret _ _ _ _ _ (read_spec s r [] _ Hs)), Hr, splice_nil. by rewrite IH; [|done|done|lia].
Qed.

Lemma take_terminated (d r : list Z) : take (length d) (splice (length d) [0] (d ++ r)) = d.
Proof. unfold splice. rewrite take_app_length. apply take_app_length. Qed.
Lemma exchanges_spec last rd rest xs : forall fuel s,
  Forall exchange_ok xs -> last <= 0 -> want WANT_READ WANT_WRITE last = false ->
  reads s = exchange_reads xs ++ (last, rd) :: rest -> writes s = exchange_writes xs -> (exchange_rounds xs < fuel)%nat ->
  exists s', exchange_loop WANT_READ WANT_WRITE fuel s = Ret last s' /\ events s' = events s ++ (Received <$> (x_data <$> xs)).
Proof.
  induction xs as [|x xs IH]; intros fuel s Hxs Hl Hlw Hr Hw Hf; unfold exchange_reads, exchange_writes, exchange_rounds in *; rewrite ?fmap_cons in *; cbn [concat sum_list_with fmap list_fmap app] in *.
  - destruct fuel as [|fuel]; [lia|]. cbn [exchange_loop]. rewrite (bind_Ret _ _ _ _ _ (read_spec s _ _ _ Hr)), Hlw.
    rewrite (proj2 (Z.leb_le _ _) Hl). eexists. split; [reflexivity|]. cbn. by rewrite app_nil_r.
  - apply Forall_cons in Hxs as [(H1 & H2 & H3 & H4 & H5) Hxs]. rewrite <- !app_assoc in Hr. cbn [app] in Hr. rewrite <- app_assoc in Hw. cbn [app] in Hw.
    rewrite (exchange_retries (x_retries x) fuel s _ H1 Hr) by lia. destruct (fuel - length (x_retries x))%nat as [|k] eqn:Ek; [lia|]. cbn [exchange_loop].
    erewrite (bind_Ret ssl_read) by (apply read_spec; reflexivity). rewrite H3.
    rewrite (proj2 (Z.leb_gt _ _)) by lia. erewrite (bind_Ret get) by reflexivity. rewrite (proj2 (Z.leb_gt _ _)) by lia.
    erewrite (bind_Ret (put _)) by reflexivity. erewrite (bind_Ret get) by reflexivity.
    erewrite (bind_Ret (log _)) by reflexivity. cbn [handshakes reads writes buf events].
    erewrite (bind_Ret (write_loop _ _ _)).
    2:{ apply (write_retries (x_rewrites x) (x_written x)); [done|done|exact Hw|lia]. }
    cbn [handshakes reads writes buf events].
    edestruct (IH k) as (s' & E & Hev); [done|done|done|..|rewrite E; exists s'; split; [reflexivity|]]; try done; [lia|].
    rewrite Hev. cbn [events]. rewrite Nat2Z.id. unfold splice at 2. cbn [Nat.add]. rewrite take_0. cbn [app]. by rewrite take_terminated, <- app_assoc.
Qed.
End SessionFacts.

(** ** Properties *)

(** A session ends and answers every message.  Whatever calls of the handshake, of the
    reads and of the writes have to be repeated, the server hands on every message of the
    client of less than 1024 bytes, in order and whole, answers each before it reads the
    next, and at the first other code, or 0, closes the connection, frees both objects
    and returns that code; a failed set-up is returned after the same cleanup, a failed
    accept without it.  A message of 1024 bytes makes it write behind its buffer. *)
Theorem ssl_session_ends (WANT_READ WANT_WRITE : Z) (s : session) (fuel : nat) :
  (forall hs hrest xs last rd rest,
     Forall (fun r => r <> 0 /\ want WANT_READ WANT_WRITE r = true) hs -> Forall (exchange_ok WANT_READ WANT_WRITE) xs ->
     last <= 0 -> want WANT_READ WANT_WRITE last = false ->
     handshakes s = hs ++ 0 :: hrest -> reads s = exchange_reads xs ++ (last, rd) :: rest -> writes s = exchange_writes xs ->
     (length hs < fuel)%nat -> (exchange_rounds xs < fuel)%nat ->
     exists s', ssl_server_handle_client WANT_READ WANT_WRITE fuel 0 0 s = Ret last s' /\
       events s' = events s ++ (Received <$> (x_data <$> xs)) ++ [CloseNotify; NetFree; SslFree]) /\
  (forall setup, setup <> 0 ->
     exists s', ssl_server_handle_client WANT_READ WANT_WRITE fuel 0 setup s = Ret setup s' /\ events s' = events s ++ [CloseNotify; NetFree; SslFree]) /\
  (forall accept setup, accept <> 0 -> ssl_server_handle_client WANT_READ WANT_WRITE fuel accept setup s = Ret accept s) /\
  (forall d hrest rest, handshakes s = 0 :: hrest -> reads s = (1024, d) :: rest -> want WANT_READ WANT_WRITE 1024 = false -> (0 < fuel)%nat ->
     ssl_server_handle_client WANT_READ WANT_WRITE fuel 0 0 s = Stop Fault).
Proof.
  split_and!.
  - intros hs hrest xs last rd rest H1 H2 Hl Hlw Eh Er Ew Hf1 Hf2. unfold ssl_server_handle_client. cbn [negb Z.eqb].
    pose proof (handshake_retries WANT_READ WANT_WRITE hs fuel s hrest H1 Eh Hf1) as E1.
    destruct (exchanges_spec WANT_READ WANT_WRITE last rd rest xs fuel (Session hrest (reads s) (writes s) (buf s) (events s)) H2 Hl Hlw Er Ew Hf2) as (s1 & E2 & Hev).
    rewrite (bind_Ret _ _ s last s1) by (by rewrite (bind_Ret _ _ _ _ _ E1)).
    eexists. split; [reflexivity|]. cbn. rewrite Hev. cbn [events]. by rewrite <- !app_assoc.
  - intros setup Hs. unfold ssl_server_handle_client. rewrite (proj2 (Z.eqb_neq _ _) Hs). cbn [negb Z.eqb].
    eexists. split; [reflexivity|]. cbn. by rewrite <- !app_assoc.
  - intros accept setup Ha. unfold ssl_server_handle_client. by rewrite (proj2 (Z.eqb_neq _ _) Ha).
  - intros d hrest rest Eh Er Hw Hf. unfold ssl_server_handle_client. cbn [negb Z.eqb].
    apply bind_Stop. rewrite (bind_Ret _ _ _ _ _ (handshake_retries WANT_READ WANT_WRITE [] fuel s hrest ltac:(constructor) Eh Hf)).
    destruct fuel as [|fuel]; [lia|]. cbn [exchange_loop].
    erewrite (bind_Ret ssl_read) by (apply read_spec; exact Er). rewrite Hw. reflexivity.
Qed.

(** C15. The device only obeys signed messages.  Whatever is read from the network, every
    firmware update that is started, every change of the configuration, every request
    that is passed on and every status that is sent goes back to one of the contents of
    the message buffer whose signature is good for the part of its data that its length
    names, with the right type and command; a firmware update to one whose firmware is
    signed too.  If no message is signed, nothing at all is done and the device's
    information stays as it is.  The loop ends with the connection.  But a length of more
    than 1088 makes it hash what lies behind the message, before any signature is
    looked at. *)
Theorem device_commands_signed (ops : device_ops) (WANT_READ WANT_WRITE : Z) (s : manager) (ins : list (Z * list Z * Z))
    (last : Z) (d : list Z) (t : Z)
    (Hlast : last <= 0) (Hclose : want WANT_READ WANT_WRITE last = false)
    (Hins : Forall (fun i => fst (fst i) <= 0 -> want WANT_READ WANT_WRITE (fst (fst i)) = true) ins) :
  (Forall (fun m => msg_len m <= Z.of_nat (length (data m))) (buffers (message s) ins) ->
     exists new s', device_manager_loop ops WANT_READ WANT_WRITE (ins ++ [(last, d, t)]) s = Ret tt s' /\
       actions s' = actions s ++ new /\
       Forall (fun a => exists m, m ∈ buffers (message s) ins /\ justifies ops a m) new /\
       (Forall (fun m => pk_verify ops (hashed ops m) (signature m) <> 0) (buffers (message s) ins) -> info s' = info s /\ new = [])) /\
  (forall r w now rest, 0 < r -> length w = 1096%nat -> length (message s) = 1096%nat -> 1088 < msg_len w ->
     device_manager_loop ops WANT_READ WANT_WRITE ((r, w, now) :: rest) s = Stop Fault).
Proof.
  split.
  - intros Hlen. destruct (loop_spec ops WANT_READ WANT_WRITE last d t ins Hlast Hclose s Hins Hlen) as (new & s' & E & A & F & U).
    by exists new, s'.
  - intros r w now rest Hr Hw Hm Hlen. cbn [device_manager_loop]. rewrite (proj2 (Z.leb_gt _ _) Hr). erewrite (bind_Ret (modify _)) by reflexivity.
    apply bind_Stop. unfold handle_message. erewrite (bind_Ret get) by reflexivity. cbn [message set_message].
    rewrite splice_whole by lia. unfold data. rewrite length_drop, Hw. by rewrite (proj2 (Z.ltb_lt _ _)) by lia.
Qed.

(** *** Examples *)
(** A signature is good when it starts with the first byte that is hashed. *)
Definition example_ops : device_ops := {|
  sha256 := fun l => take 1 l;
  pk_verify := fun h sig => if decide (take 1 sig = h) then 0 else -1;
  pk_sign := fun h => (0, h);
  ssl_write_code := 1096;
  verify_firmware_signature := fun p n => bool_decide (head p = Some 9);
  update_device_config := fun _ _ => true;
  CMD_GET_STATUS := 1; CMD_UPDATE_FIRMWARE := 2; CMD_CONFIGURE := 3;
  STATUS_UPDATING := 1; STATUS_CONFIGURED := 2; STATUS_ERROR := 3
|}.
Definition example_message (cmd first sig : Z) : list Z :=
  le32 4 ++ le32 12 ++ le32 cmd ++ le32 1 ++ [first] ++ replicate (Z.to_nat 1015) 0 ++ [sig] ++ replicate 63 0.
Definition example_manager : manager :=
  Manager (DeviceInfo (replicate 32 0) (replicate 32 0) (replicate 16 0) 0 0) (replicate (Z.to_nat 1096) 0) [].
(** A signed update, then one whose signature is wrong. *)
Definition example_inputs : list (Z * list Z * Z) :=
  [(-1, [], 0); (1096, example_message 2 9 2, 5); (1096, example_message 2 9 3, 6)].
Example device_commands_signed_witness :
  exists new s', device_manager_loop example_ops (-1) (-2) (example_inputs ++ [(0, [], 0)]) example_manager = Ret tt s' /\
    actions s' = new /\ Forall (fun a => exists m, m ∈ buffers (message example_manager) example_inputs /\ justifies example_ops a m) new /\
    length new = 2%nat.
Proof.
  destruct (device_commands_signed example_ops (-1) (-2) example_manager example_inputs 0 [] 0) as [H _].
  - lia.
  - reflexivity.
  - repeat constructor; vm_compute; congruence.
  - destruct H as (new & s' & E & A & F & _); [repeat constructor; vm_compute; discriminate|].
    exists new, s'. split; [exact E|]. split; [exact A|]. split; [exact F|].
    assert (E' : exists s2, device_manager_loop example_ops (-1) (-2) (example_inputs ++ [(0, [], 0)]) example_manager = Ret tt s2 /\ length (actions s2) = 2%nat)
      by (eexists; split; [vm_compute; reflexivity|reflexivity]).
    destruct E' as (s2 & E2 & L2). rewrite E2 in E. injection E as <-. cbn [actions example_manager app] in A. by rewrite <- A.
Defined.

Example ssl_session_ends_witness :
  exists s', ssl_server_handle_client (-1) (-2) 10 0 0 (Session [-1; 0] [(2, [104; 105]); (-5, [])] [-2; 30] (replicate 1024 0) []) = Ret (-5) s' /\
    events s' = [Received [104; 105]; CloseNotify; NetFree; SslFree].
Proof.
  destruct (ssl_session_ends (-1) (-2) (Session [-1; 0] [(2, [104; 105]); (-5, [])] [-2; 30] (replicate 1024 0) []) 10) as [H _].
  apply (H [-1] [] [Exchange [] [104; 105] [-2] 30] (-5) [] []).
  - repeat constructor; done.
  - constructor; [|constructor]. split_and!; [constructor|cbn; lia|cbn; lia|reflexivity|repeat constructor; done|cbn; lia].
  - lia.
  - reflexivity.
  - reflexivity.
  - reflexivity.
  - reflexivity.
  - cbn. lia.
  - cbn. lia.
Defined.
