(* ===== verification/Ethernet.v ===== *)
(** * Ethernet

    src/src/ethernetif.c: the frames between lwIP and the Ethernet controller, and the home
    gateway that the file ends with.  A chain of pbufs is the list of their payloads;
    the controller, the pool of pbufs and the devices are parameters. *)
From Stdlib Require Import String.
From S2P Require Import Prelude Ipc Mem Bytes Text.

(** ** Frames *)
Definition ERR_OK : Z := 0.
Definition ERR_MEM : Z := -1.
Definition ERR_IF : Z := -12.

(** What leaves the driver. *)
Inductive action : Type :=
| SendPacket (buffer : list Z) (len : Z)
| Input (chain : list (list Z))
| FreePbuf (chain : list (list Z))
| ReleaseRx
| CountXmit
| CountRecv.
Definition eth : Type := list action.
Definition do_ (a : action) : Cmd eth unit := modify (fun s => s ++ [a]).

(** The loops over the chain: [len] and [offset] have 16 bits. *)
Fixpoint copy_out (p : list (list Z)) (buffer : list Z) (len : Z) : Cmd eth (list Z * Z) :=
  match p with
  | [] => ret (buffer, len)
  | q :: p =>
      if Z.of_nat (length buffer) <? len + Z.of_nat (length q) then fail Fault else
      copy_out p (splice (Z.to_nat len) q buffer) (u16 (len + Z.of_nat (length q)))
  end.
(** [q_lens]: the room in each pbuf of the chain. *)
Fixpoint copy_in (q_lens : list nat) (buffer : list Z) (offset : Z) : Cmd eth (list (list Z)) :=
  match q_lens with
  | [] => ret []
  | n :: q_lens =>
      if Z.of_nat (length buffer) <? offset + Z.of_nat n then fail Fault else
      let* chain := copy_in q_lens buffer (u16 (offset + Z.of_nat n)) in
      ret (slice (Z.to_nat offset) n buffer :: chain)
  end.

(** [tx]: the buffer [eth_get_tx_buffer] gives; [code]: what [eth_send_packet] answers. *)
Definition low_level_output (tx : option (list Z)) (code : Z) (p : list (list Z)) : Cmd eth Z :=
  match tx with
  | None => ret ERR_MEM
  | Some buffer =>
      let* r := copy_out p buffer 0 in
      do_ (SendPacket (fst r) (snd r)) ;;;
      if negb (code =? 0) then ret ERR_IF else do_ CountXmit ;;; ret ERR_OK
  end.
(** [rx]: the buffer and the length [eth_get_rx_buffer] gives; [pbuf_alloc]: the pbufs for
    a length; [code]: what [netif->input] answers. *)
Definition ethernetif_input (rx : option (list Z * Z)) (pbuf_alloc : Z -> option (list nat)) (code : Z) : Cmd eth unit :=
  match rx with
  | None => ret tt
  | Some (buffer, len) =>
      match pbuf_alloc len with
      | None => ret tt
      | Some q_lens =>
          let* chain := copy_in q_lens buffer 0 in
          do_ (Input chain) ;;;
          if negb (code =? 0) then do_ (FreePbuf chain) else ret tt
      end ;;;
      do_ ReleaseRx ;;;
      do_ CountRecv
  end.

(** ** The gateway *)
Record home_status_t : Type := HomeStatus {
  light_status : bool;
  temperature : Z;
  humidity : Z;
  door_locked : bool;
  window_opened : bool;
  air_quality : Z
}.
(** The calls that control the home, and what is published. *)
Inductive control : Type :=
| ControlLight (on : bool)
| ControlDoor (locked : bool)
| ControlWindow (opened : bool)
| Publish (topic message : list Z).
Record gateway : Type := Gateway { home : home_status_t; controls : list control }.
Definition set_light (v : bool) (h : home_status_t) := HomeStatus v (temperature h) (humidity h) (door_locked h) (window_opened h) (air_quality h).
Definition set_door (v : bool) (h : home_status_t) := HomeStatus (light_status h) (temperature h) (humidity h) v (window_opened h) (air_quality h).
Definition set_window (v : bool) (h : home_status_t) := HomeStatus (light_status h) (temperature h) (humidity h) (door_locked h) v (air_quality h).
Definition set_sensors (t hum air : Z) (h : home_status_t) := HomeStatus (light_status h) t hum (door_locked h) (window_opened h) air.
Definition set_home (f : home_status_t -> home_status_t) (g : gateway) := Gateway (f (home g)) (controls g).
Definition control_ (c : control) : Cmd gateway unit := modify (fun g => Gateway (home g) (controls g ++ [c])).

Section Gateway.
(** [print_d]: what [%d] prints. *)
Context (print_d : Z -> list Z).

(** [snprintf] into [n] bytes: the text that is left there. *)
Definition fit (n : nat) (t : list Z) : list Z := take (n - 1) t.
Definition status_text (h : home_status_t) : list Z :=
  [123; 34] ++ str "light" ++ [34] ++ str ": " ++ (if light_status h then str "true" else str "false") ++ [44; 34]
  ++ str "temperature" ++ [34] ++ str ": " ++ print_d (temperature h) ++ [44; 34]
  ++ str "humidity" ++ [34] ++ str ": " ++ print_d (humidity h) ++ [44; 34]
  ++ str "door" ++ [34] ++ str ": " ++ (if door_locked h then str "locked" else str "unlocked") ++ [44; 34]
  ++ str "window" ++ [34] ++ str ": " ++ (if window_opened h then str "opened" else str "closed") ++ [44; 34]
  ++ str "air_quality" ++ [34] ++ str ": " ++ print_d (air_quality h) ++ [125].
Definition create_status_json : Cmd gateway (list Z) := let* g := get in ret (fit 512 (status_text (home g))).

Definition mqtt_handle_message (topic message : list Z) : Cmd gateway unit :=
  (if decide (topic = str "home/light/set") then
     let v := bool_decide (message = str "on") in modify (set_home (set_light v)) ;;; control_ (ControlLight v)
   else if decide (topic = str "home/door/set") then
     let v := bool_decide (message = str "lock") in modify (set_home (set_door v)) ;;; control_ (ControlDoor v)
   else if decide (topic = str "home/window/set") then
     let v := bool_decide (message = str "open") in modify (set_home (set_window v)) ;;; control_ (ControlWindow v)
   else ret tt) ;;;
  let* json := create_status_json in
  control_ (Publish (str "home/status") json).

(** One round of the sensor task, with what the sensors read. *)
Definition sensor_round (t hum air : Z) : Cmd gateway unit :=
  modify (set_home (set_sensors t hum air)) ;;;
  control_ (Publish (str "home/sensor/temp_humid")
    (fit 128 ([123; 34] ++ str "temperature" ++ [34] ++ str ": " ++ print_d t ++ [44; 32; 34] ++ str "humidity" ++ [34] ++ str ": " ++ print_d hum ++ [125]))) ;;;
  control_ (Publish (str "home/sensor/air_quality") (fit 128 ([123; 34] ++ str "value" ++ [34] ++ str ": " ++ print_d air ++ [125]))).
End Gateway.

(** ** Facts *)
Definition total (p : list (list Z)) : Z := Z.of_nat (length (concat p)).

Lemma copy_out_spec p : forall done rest s,
  Z.of_nat (length done) + total p <= Z.of_nat (length (done ++ rest)) -> Z.of_nat (length done) + total p < 65536 ->
  copy_out p (done ++ rest) (Z.of_nat (length done)) s
    = Ret (done ++ concat p ++ drop (length (concat p)) rest, Z.of_nat (length done) + total p) s.
Proof.
  unfold total. induction p as [|q p IH]; intros done rest s Hl Hm; cbn [copy_out concat] in *.
  - rewrite Z.add_0_r, drop_0. done.
  - rewrite (length_app q) in Hl, Hm. rewrite (proj2 (Z.ltb_ge _ _)) by lia. rewrite Nat2Z.id, splice_next by done.
    rewrite u16_small by lia. rewrite <- Nat2Z.inj_add, <- length_app.
    rewrite IH; [|rewrite !length_app, ?length_drop in *; lia|rewrite length_app; lia].
    rewrite !length_app, drop_drop. unfold ret. f_equal. f_equal; [by rewrite <- !app_assoc|lia].
Qed.
Lemma copy_out_overflows p : forall buffer len s,
  0 <= len <= Z.of_nat (length buffer) -> Z.of_nat (length buffer) < 65536 -> Z.of_nat (length buffer) < len + total p ->
  copy_out p buffer len s = Stop Fault.
Proof.
  unfold total. induction p as [|q p IH]; intros buffer len s Hlen Hb Ht; cbn [copy_out concat] in *; [cbn in Ht; lia|].
  rewrite length_app in Ht. destruct (Z.ltb_spec (Z.of_nat (length buffer)) (len + Z.of_nat (length q))); [done|].
  rewrite u16_small by lia. assert (Hs : length (splice (Z.to_nat len) q buffer) = length buffer) by (apply splice_length; lia).
  apply IH; rewrite Hs; lia.
Qed.
Lemma copy_in_spec q_lens : forall buffer off s,
  (off + sum_list q_lens <= length buffer)%nat -> Z.of_nat off + Z.of_nat (sum_list q_lens) < 65536 ->
  exists chain, copy_in q_lens buffer (Z.of_nat off) s = Ret chain s /\ concat chain = slice off (sum_list q_lens) buffer /\ length <$> chain = q_lens.
Proof.
  induction q_lens as [|n l IH]; intros buffer off s Hl Hm; cbn [copy_in] in *.
  - exists []. split_and!; [done| |done]. unfold slice. by rewrite take_0.
  - change (sum_list (n :: l)) with (n + sum_list l)%nat in *. rewrite (proj2 (Z.ltb_ge _ _)) by lia.
    rewrite u16_small by lia. rewrite <- Nat2Z.inj_add. destruct (IH buffer (off + n)%nat s) as (chain & E & Hc & Hn); [lia|lia|].
    rewrite (bind_Ret _ _ _ _ _ E), Nat2Z.id. eexists. split; [reflexivity|]. cbn [concat fmap list_fmap]. split.
    + by rewrite Hc, slice_slice.
    + rewrite Hn. f_equal. unfold slice. rewrite length_take, length_drop. lia.
Qed.

(** ** Properties *)

(** Frames go through whole.  A chain that fits the transmit buffer is sent as one frame
    of its bytes, counted when the controller takes it; a chain that does not fit is
    written behind the buffer.  A received frame is handed to lwIP as a chain with the
    same bytes, however the pool cuts it, and freed when lwIP refuses it; the receive
    buffer is released and the frame counted in every case, once.  So what one
    interface sends another one delivers. *)
Theorem ethernet_frames (p : list (list Z)) (buffer : list Z) (code : Z) (s : eth) :
  Z.of_nat (length buffer) < 65536 ->
  (low_level_output None code p s = Ret ERR_MEM s) /\
  (total p <= Z.of_nat (length buffer) ->
     let frame := concat p ++ drop (length (concat p)) buffer in
     low_level_output (Some buffer) code p s =
       (if code =? 0 then Ret ERR_OK (s ++ [SendPacket frame (total p); CountXmit]) else Ret ERR_IF (s ++ [SendPacket frame (total p)])) /\
     forall q_lens icode alloc, alloc (total p) = Some q_lens -> Z.of_nat (sum_list q_lens) = total p ->
       exists chain, concat chain = concat p /\ length <$> chain = q_lens /\
         ethernetif_input (Some (frame, total p)) alloc icode s =
           Ret tt (s ++ Input chain :: (if icode =? 0 then [] else [FreePbuf chain]) ++ [ReleaseRx; CountRecv])) /\
  (Z.of_nat (length buffer) < total p -> low_level_output (Some buffer) code p s = Stop Fault) /\
  (forall alloc icode len, alloc len = None -> ethernetif_input (Some (buffer, len)) alloc icode s = Ret tt (s ++ [ReleaseRx; CountRecv])).
Proof.
  intros Hb. split_and!.
  - done.
  - intros Ht frame. assert (Hc : copy_out p buffer 0 s = Ret (frame, total p) s).
    { pose proof (copy_out_spec p [] buffer s) as H. cbn [length app] in H. change (Z.of_nat 0) with 0 in H. rewrite H; [done|lia|lia]. }
    split.
    + unfold low_level_output. rewrite (bind_Ret _ _ _ _ _ Hc). erewrite (bind_Ret (do_ _)) by reflexivity.
      destruct (code =? 0); cbn; unfold do_, modify; [by rewrite <- app_assoc|done].
    + intros q_lens icode alloc Ha Hsum. unfold total in *.
      assert (Hlf : length frame = length buffer) by (unfold frame; rewrite length_app, length_drop; lia).
      destruct (copy_in_spec q_lens frame 0 s) as (chain & E & Hch & Hn); [lia|lia|]. exists chain.
      assert (Hcc : concat chain = concat p).
      { rewrite Hch. unfold slice, frame. replace (sum_list q_lens) with (length (concat p)) by lia. by rewrite drop_0, take_app_length. }
      split; [done|]. split; [done|]. unfold ethernetif_input. rewrite Ha.
      rewrite (bind_Ret _ _ s tt (s ++ Input chain :: if icode =? 0 then [] else [FreePbuf chain])).
      * destruct (icode =? 0); cbn; unfold do_, modify; by rewrite <- !app_assoc.
      * rewrite (bind_Ret _ _ _ _ _ E). erewrite (bind_Ret (do_ _)) by reflexivity. destruct (icode =? 0); cbn; unfold do_, modify; [done|by rewrite <- app_assoc].
  - intros Ht. unfold low_level_output. apply bind_Stop. apply copy_out_overflows; lia.
  - intros alloc icode len Ha. unfold ethernetif_input. rewrite Ha. cbn. unfold do_, modify. by rewrite <- app_assoc.
Qed.

(** The value the last message on a topic asks for. *)
Fixpoint last_asked (topic on : list Z) (v : bool) (ms : list (list Z * list Z)) : bool :=
  match ms with
  | [] => v
  | (t, m) :: ms => last_asked topic on (if decide (t = topic) then bool_decide (m = on) else v) ms
  end.
Definition handle_all (print_d : Z -> list Z) (ms : list (list Z * list Z)) : Cmd gateway unit :=
  for_each ms (fun m => mqtt_handle_message print_d (fst m) (snd m)).

Lemma handle_message_home print_d t m g :
  exists g', mqtt_handle_message print_d t m g = Ret tt g' /\
    home g' = HomeStatus (last_asked (str "home/light/set") (str "on") (light_status (home g)) [(t, m)]) (temperature (home g)) (humidity (home g))
      (last_asked (str "home/door/set") (str "lock") (door_locked (home g)) [(t, m)])
      (last_asked (str "home/window/set") (str "open") (window_opened (home g)) [(t, m)]) (air_quality (home g)) /\
    last (controls g') = Some (Publish (str "home/status") (fit 512 (status_text print_d (home g')))).
Proof.
  unfold mqtt_handle_message, last_asked. destruct g as [[l tm hm d w a] cs]. cbn [home light_status temperature humidity door_locked window_opened air_quality].
  destruct (decide (t = str "home/light/set")) as [->|H1]; [|destruct (decide (t = str "home/door/set")) as [->|H2]; [|destruct (decide (t = str "home/window/set")) as [->|H3]]].
  all: eexists; split_and!; [reflexivity|cbn [home controls]; rewrite ?decide_True, ?decide_False by done; reflexivity|cbn [controls home]; apply last_snoc].
Qed.

(** The home follows the last message on each topic: after any sequence of messages the
    light is on exactly when the last one for it said "on", and the door is locked exactly
    when the last one said "lock", so that any other text, also a misspelt one, opens
    it.  Every message is answered by the new status. *)
Theorem gateway_follows print_d ms : forall g,
  exists g', handle_all print_d ms g = Ret tt g' /\
    home g' = HomeStatus (last_asked (str "home/light/set") (str "on") (light_status (home g)) ms) (temperature (home g)) (humidity (home g))
      (last_asked (str "home/door/set") (str "lock") (door_locked (home g)) ms)
      (last_asked (str "home/window/set") (str "open") (window_opened (home g)) ms) (air_quality (home g)) /\
    (ms <> [] -> last (controls g') = Some (Publish (str "home/status") (fit 512 (status_text print_d (home g'))))).
Proof.
  induction ms as [|[t m] ms IH]; intros g; unfold handle_all in *; cbn [for_each fst snd].
  - exists g. split_and!; [done|by destruct g as [[]]|done].
  - destruct (handle_message_home print_d t m g) as (g1 & E1 & Hh1 & Hl1). rewrite (bind_Ret _ _ _ _ _ E1).
    destruct (IH g1) as (g2 & E2 & Hh2 & Hl2). exists g2. split; [exact E2|]. split.
    + rewrite Hh2, Hh1. done.
    + intros _. destruct ms as [|x ms]; [|by apply Hl2]. cbn [for_each] in E2. injection E2 as <-. exact Hl1.
Qed.
