(* ===== verification/Ble.v ===== *)
(** * Ble

    src/src/ble_stack.c, gatt_service.c and ble_netconfig.c: the advertising data, the
    attributes a client reads and writes, and the start of advertising.  The controller and
    what the files call and do not define are parameters. *)
From Stdlib Require Import String.
From S2P Require Import Prelude Ipc Mem Bytes Text.

(** ** Data *)
Definition BLE_NC_OK : Z := 0.
Definition BLE_NC_ERROR_INIT : Z := -1.
Definition BLE_NC_ERROR_PARAM : Z := -2.
Definition BLE_NC_ERROR_STATE : Z := -3.
Definition BLE_NC_SERVICE_UUID : list Z := str "12345678-1234-5678-1234-56789abcdef0".
Definition BLE_NC_CHAR_WIFI_UUID : list Z := str "12345678-1234-5678-1234-56789abcdef1".
Definition BLE_NC_CHAR_STATUS_UUID : list Z := str "12345678-1234-5678-1234-56789abcdef2".
Inductive ble_nc_state_t : Type :=
| BLE_NC_STATE_IDLE | BLE_NC_STATE_ADVERTISING | BLE_NC_STATE_CONNECTED
| BLE_NC_STATE_CONFIGURING | BLE_NC_STATE_CONFIGURED | BLE_NC_STATE_ERROR.
#[export] Instance ble_nc_state_eq : EqDecision ble_nc_state_t.
Proof. solve_decision. Defined.

(** The handle: [adv_data] and the [scan_rsp_data] behind it, 31 bytes each, are one
    piece of memory; [encrypted] of the connection, if there is one; which callbacks
    there are; and what the callbacks and the controller are given. *)
Inductive call : Type :=
| SetAdvertisingData (data : list Z)
| StartAdvertising (interval : Z)
| StateCb (st : ble_nc_state_t)
| ConfigCb (config : list Z).
Record ble_nc : Type := BleNc {
  adv_memory : list Z;
  encrypted : option bool;
  state : ble_nc_state_t;
  notify_enabled : bool;
  device_name : list Z;
  adv_interval : Z;
  config_cb : bool;
  state_cb : bool;
  calls : list call
}.
Definition set_adv (m : list Z) (h : ble_nc) : ble_nc :=
  BleNc m (encrypted h) (state h) (notify_enabled h) (device_name h) (adv_interval h) (config_cb h) (state_cb h) (calls h).
Definition set_state (st : ble_nc_state_t) (h : ble_nc) : ble_nc :=
  BleNc (adv_memory h) (encrypted h) st (notify_enabled h) (device_name h) (adv_interval h) (config_cb h) (state_cb h) (calls h).
Definition set_notify (v : bool) (h : ble_nc) : ble_nc :=
  BleNc (adv_memory h) (encrypted h) (state h) v (device_name h) (adv_interval h) (config_cb h) (state_cb h) (calls h).
Definition do_call (c : call) : Cmd ble_nc unit := modify (fun h =>
  BleNc (adv_memory h) (encrypted h) (state h) (notify_enabled h) (device_name h) (adv_interval h) (config_cb h) (state_cb h) (calls h ++ [c])).

(** ** Advertising *)
Definition write_adv (pos : nat) (d : list Z) : Cmd ble_nc unit :=
  let* h := get in
  if (pos + length d <=? length (adv_memory h))%nat then put (set_adv (splice pos d (adv_memory h)) h) else fail Fault.
(** [sent], [status]: what [hci_send_req] answers and stores. *)
Definition hci_result (sent status : Z) : Z :=
  if sent <? 0 then BLE_NC_ERROR_INIT else if negb (status =? 0) then BLE_NC_ERROR_INIT else BLE_NC_OK.
Definition set_advertising_data (sent status : Z) : Cmd ble_nc Z :=
  write_adv 0 [2; 1; 6] ;;;
  write_adv 3 [17; 7] ;;;
  write_adv 5 (take 16 BLE_NC_SERVICE_UUID) ;;;
  let* h := get in
  let name_len := length (device_name h) in
  (if (0 <? name_len)%nat then
     write_adv 21 [u8 (Z.of_nat name_len + 1); 9] ;;; write_adv 23 (device_name h)
   else ret tt) ;;;
  let* h := get in
  do_call (SetAdvertisingData (take 31 (adv_memory h))) ;;;
  ret (hci_result sent status).
(** The parameters, then the switch; each is a request. *)
Definition start_advertising (sent1 sent2 status2 : Z) : Cmd ble_nc Z :=
  let* h := get in
  if sent1 <? 0 then ret BLE_NC_ERROR_INIT else
  do_call (StartAdvertising (adv_interval h)) ;;;
  ret (hci_result sent2 status2).
(** The arguments are the answers to the three requests; the status of the second is not
    looked at. *)
Definition ble_nc_start_advertising (handle : bool) (sent status sent1 sent2 status2 : Z) : Cmd ble_nc Z :=
  if negb handle then ret BLE_NC_ERROR_PARAM else
  let* h := get in
  if decide (state h <> BLE_NC_STATE_IDLE) then ret BLE_NC_ERROR_STATE else
  let* r := set_advertising_data sent status in
  if negb (r =? BLE_NC_OK) then ret r else
  let* r := start_advertising sent1 sent2 status2 in
  if negb (r =? BLE_NC_OK) then ret r else
  modify (set_state BLE_NC_STATE_ADVERTISING) ;;;
  let* h := get in
  (if state_cb h then do_call (StateCb (state h)) else ret tt) ;;;
  ret BLE_NC_OK.

(** ** Attributes *)
Definition PERM_READ : Z := 1.
Definition PERM_WRITE : Z := 2.
Definition PERM_READ_ENCRYPTED : Z := 4.
Definition PERM_WRITE_ENCRYPTED : Z := 8.
Definition PERM_NOTIFY : Z := 64.
Definition permits (p bit : Z) : bool := negb (Z.land p bit =? 0).

Record gatt_attr_t : Type := GattAttr {
  handle : Z;
  type_ : Z;
  value : option (list Z);
  value_len : Z;
  permissions : Z
}.

Section Gatt.
(** The codes of the Bluetooth headers, the addresses of the two UUID texts as 16-bit
    types, and [parse_wifi_config], which is defined nowhere. *)
Context (ATT_ERROR_READ_NOT_PERMITTED ATT_ERROR_WRITE_NOT_PERMITTED ATT_ERROR_INSUFFICIENT_ENCRYPTION
  ATT_ERROR_INVALID_ATTRIBUTE_VALUE_LENGTH : Z)
  (GATT_UUID_PRIMARY_SERVICE GATT_UUID_CHARACTERISTIC GATT_UUID_CLIENT_CHAR_CONFIG wifi_type status_type : Z)
  (parse_wifi_config : list Z -> option (list Z)).

(** No handle is given in the initialiser: all are 0. *)
Definition service_attrs : list gatt_attr_t := [
  GattAttr 0 GATT_UUID_PRIMARY_SERVICE (Some BLE_NC_SERVICE_UUID) 16 PERM_READ;
  GattAttr 0 GATT_UUID_CHARACTERISTIC (Some BLE_NC_CHAR_WIFI_UUID) 16 PERM_READ;
  GattAttr 0 wifi_type None 0 PERM_WRITE_ENCRYPTED;
  GattAttr 0 GATT_UUID_CHARACTERISTIC (Some BLE_NC_CHAR_STATUS_UUID) 16 PERM_READ;
  GattAttr 0 status_type None 0 (Z.lor PERM_READ PERM_NOTIFY);
  GattAttr 0 GATT_UUID_CLIENT_CHAR_CONFIG None 2 (Z.lor PERM_READ PERM_WRITE)].

(** The handlers, over any table of attributes. *)
Fixpoint find_attr (attrs : list gatt_attr_t) (attr_handle : Z) : option gatt_attr_t :=
  match attrs with
  | [] => None
  | a :: attrs => if handle a =? attr_handle then Some a else find_attr attrs attr_handle
  end.
(** The encryption an attribute asks for; without a connection the look is a fault. *)
Definition needs_encryption (a : gatt_attr_t) (bit : Z) : Cmd ble_nc bool :=
  if permits (permissions a) bit then
    let* h := get in
    let* e := deref (encrypted h) in
    ret (negb e)
  else ret false.
Definition handle_read_request (attrs : list gatt_attr_t) (attr_handle : Z) : Cmd ble_nc (Z * option (list Z)) :=
  match find_attr attrs attr_handle with
  | None => ret (ATT_ERROR_READ_NOT_PERMITTED, None)
  | Some a =>
      if negb (permits (permissions a) PERM_READ) then ret (ATT_ERROR_READ_NOT_PERMITTED, None) else
      let* refused := needs_encryption a PERM_READ_ENCRYPTED in
      if refused then ret (ATT_ERROR_INSUFFICIENT_ENCRYPTION, None) else
      let* v := if value_len a =? 0 then ret [] else deref (value a) in
      ret (0, Some (take (Z.to_nat (value_len a)) v))
  end.
Definition write_wifi (v : list Z) : Cmd ble_nc Z :=
  match parse_wifi_config v with
  | None => ret ATT_ERROR_INVALID_ATTRIBUTE_VALUE_LENGTH
  | Some config =>
      let* h := get in
      (if config_cb h then do_call (ConfigCb config) else ret tt) ;;;
      modify (set_state BLE_NC_STATE_CONFIGURING) ;;;
      (if state_cb h then do_call (StateCb BLE_NC_STATE_CONFIGURING) else ret tt) ;;;
      ret 0
  end.
Definition write_client_config (v : list Z) : Cmd ble_nc Z :=
  match v with
  | [a; b] => modify (set_notify (negb (Z.land (Z.lor (Z.shiftl b 8) a) 1 =? 0))) ;;; ret 0
  | _ => ret ATT_ERROR_INVALID_ATTRIBUTE_VALUE_LENGTH
  end.
Definition handle_write_request (attrs : list gatt_attr_t) (attr_handle : Z) (v : list Z) : Cmd ble_nc Z :=
  match find_attr attrs attr_handle with
  | None => ret ATT_ERROR_WRITE_NOT_PERMITTED
  | Some a =>
      if negb (permits (permissions a) PERM_WRITE) then ret ATT_ERROR_WRITE_NOT_PERMITTED else
      let* refused := needs_encryption a PERM_WRITE_ENCRYPTED in
      if refused then ret ATT_ERROR_INSUFFICIENT_ENCRYPTION else
      if type_ a =? wifi_type then write_wifi v
      else if type_ a =? GATT_UUID_CLIENT_CHAR_CONFIG then write_client_config v
      else ret 0
  end.
End Gatt.

(** ** Facts *)
(** The structures of advertising data, as the Bluetooth specification has them: a
    length, a type and the data, up to a length of 0. *)
Fixpoint ad_structures (fuel : nat) (l : list Z) : option (list (Z * list Z)) :=
  match fuel, l with
  | _, [] => Some []
  | O, _ => None
  | S fuel, n :: l =>
      if n =? 0 then Some [] else
      match l with
      | t :: l =>
          if (length l <? Z.to_nat n - 1)%nat then None
          else rest ← ad_structures fuel (drop (Z.to_nat n - 1) l); Some ((t, take (Z.to_nat n - 1) l) :: rest)
      | [] => None
      end
  end.

(** The handle as [ble_nc_init] leaves it, with a device name. *)
Definition new_handle (name : list Z) (interval : Z) (ccb scb : bool) : ble_nc :=
  BleNc (replicate 62 0) None BLE_NC_STATE_IDLE false name interval ccb scb [].
Definition adv_prefix (n : Z) : list Z := [2; 1; 6; 17; 7] ++ take 16 BLE_NC_SERVICE_UUID ++ [n; 9].

Lemma write_adv_Ret pos d h : (pos + length d <= length (adv_memory h))%nat ->
  write_adv pos d h = Ret tt (set_adv (splice pos d (adv_memory h)) h).
Proof. intros Hl. unfold write_adv. erewrite (bind_Ret get) by reflexivity. by rewrite (proj2 (Nat.leb_le _ _) Hl). Qed.

(** The memory once the name is in, and what is handed to the controller. *)
Lemma set_advertising_data_spec name interval ccb scb sent status : name <> [] ->
  set_advertising_data sent status (new_handle name interval ccb scb) =
    if decide (length name <= 39)%nat then
      let m := adv_prefix (u8 (Z.of_nat (length name) + 1)) ++ name ++ replicate (39 - length name) 0 in
      Ret (hci_result sent status) (BleNc m None BLE_NC_STATE_IDLE false name interval ccb scb [SetAdvertisingData (take 31 m)])
    else Stop Fault.
Proof.
  intros Hn. unfold set_advertising_data. rewrite (bind_Ret _ _ _ _ _ (write_adv_Ret 0 [2; 1; 6] (new_handle name interval ccb scb) ltac:(cbn; lia))).
  erewrite (bind_Ret (write_adv 3 _)) by (apply write_adv_Ret; cbn; lia).
  erewrite (bind_Ret (write_adv 5 _)) by (apply write_adv_Ret; cbn; lia).
  erewrite (bind_Ret get) by reflexivity. cbn [device_name new_handle set_adv].
  rewrite (proj2 (Nat.ltb_lt _ _)) by (destruct name; [done|cbn; lia]).
  set (h := set_adv _ _).
  assert (Hm : splice 21 [u8 (Z.of_nat (length name) + 1); 9] (adv_memory h) = adv_prefix (u8 (Z.of_nat (length name) + 1)) ++ replicate 39 0) by reflexivity.
  assert (E : write_adv 21 [u8 (Z.of_nat (length name) + 1); 9] h = Ret tt (set_adv (adv_prefix (u8 (Z.of_nat (length name) + 1)) ++ replicate 39 0) h)).
  { rewrite write_adv_Ret, Hm; [done|cbn; lia]. }
  set (p := adv_prefix (u8 (Z.of_nat (length name) + 1))) in *.
  assert (Hp : length p = 23%nat) by reflexivity. case_decide as Hl.
  - assert (E2 : write_adv 23 name (set_adv (p ++ replicate 39 0) h) = Ret tt (set_adv (p ++ name ++ replicate (39 - length name) 0) h)).
    { rewrite write_adv_Ret by (cbn [adv_memory set_adv]; rewrite length_app, length_replicate; lia). cbn [adv_memory set_adv].
      rewrite splice_next by done. rewrite <- app_assoc, drop_replicate. done. }
    rewrite (bind_Ret _ _ h tt (set_adv (p ++ name ++ replicate (39 - length name) 0) h)) by (by rewrite (bind_Ret _ _ _ _ _ E)).
    reflexivity.
  - rewrite (bind_Stop _ _ h Fault); [done|]. rewrite (bind_Ret _ _ _ _ _ E). unfold write_adv. erewrite (bind_Ret get) by reflexivity.
    cbn [adv_memory set_adv]. rewrite (proj2 (Nat.leb_gt _ _)); [done|]. rewrite length_app, length_replicate. lia.
Qed.

(** ** Properties *)

(** The advertising data are well formed exactly while the name is short.  For a name
    of at most 8 characters, the 31 bytes given to the controller are, by the
    specification's reading, the flags, the service and the whole name; a longer one
    is cut in the middle of its structure, so that they cannot be read, and runs
    on into the scan response; one of more than 39 characters leaves the handle. *)
Theorem ble_advertising (name : list Z) (interval : Z) (ccb scb : bool) (sent status : Z) (Hn : name <> []) :
  ((length name <= 8)%nat ->
     exists h d, set_advertising_data sent status (new_handle name interval ccb scb) = Ret (hci_result sent status) h /\
       calls h = [SetAdvertisingData d] /\ length d = 31%nat /\
       ad_structures 31 d = Some [(1, [6]); (7, take 16 BLE_NC_SERVICE_UUID); (9, name)] /\ drop 31 (adv_memory h) = replicate 31 0) /\
  ((8 < length name <= 39)%nat ->
     exists h d, set_advertising_data sent status (new_handle name interval ccb scb) = Ret (hci_result sent status) h /\
       calls h = [SetAdvertisingData d] /\ ad_structures 31 d = None /\ slice 23 (length name) (adv_memory h) = name) /\
  ((39 < length name)%nat -> set_advertising_data sent status (new_handle name interval ccb scb) = Stop Fault).
Proof.
  rewrite (set_advertising_data_spec name interval ccb scb sent status Hn). split_and!.
  - intros Hl. rewrite decide_True by lia. eexists _, _. split_and!; [reflexivity|reflexivity|..].
    all: do 9 (destruct name as [|? name]; [first [done|reflexivity]|]); cbn in Hl; lia.
  - intros Hl. rewrite decide_True by lia. eexists _, _. split_and!; [reflexivity|reflexivity|..].
    + set (k := u8 _). assert (Hk : k = Z.of_nat (length name) + 1) by (apply u8_small; lia).
      assert (Hd : take 31 (adv_prefix k ++ name ++ replicate (39 - length name) 0) = adv_prefix k ++ take 8 name).
      { rewrite take_app_ge by (cbn; lia). change (31 - length (adv_prefix k))%nat with 8%nat. by rewrite take_app_le by lia. }
      rewrite Hd. change (ad_structures 31 (adv_prefix k ++ take 8 name)) with
        (rest ← (rest ← ad_structures 29 (k :: 9 :: take 8 name); Some ((7, take 16 BLE_NC_SERVICE_UUID) :: rest)); Some ((1, [6]) :: rest)).
      cbn [ad_structures]. rewrite (proj2 (Z.eqb_neq k 0)) by lia.
      rewrite (proj2 (Nat.ltb_lt (length (take 8 name)) (Z.to_nat k - 1))); [done|]. rewrite length_take. lia.
    + cbn [adv_memory]. unfold slice. set (p := adv_prefix _). change 23%nat with (length p). by rewrite drop_app_length, take_app_length.
  - intros Hl. by rewrite decide_False by lia.
Qed.

Section GattFacts.
Context (rnp wnp enc len prim chr ccc wifi st : Z) (parse : list Z -> option (list Z)).

(** Access is checked before anything happens.  Over any table of attributes, reading
    changes nothing; a write to an attribute that is not there, may not be written or
    wants an encrypted connection that is not, is refused and changes nothing.  Over
    the table of the code, whose handles are all 0, every handle but 0 is refused, and
    handle 0 reads as the first 16 characters of the service's UUID and cannot be
    written: the WiFi configuration is out of reach. *)
Theorem gatt_access (h : ble_nc) :
  (forall attrs a r h', handle_read_request rnp enc attrs a h = Ret r h' -> h' = h) /\
  (forall attrs a v, match find_attr attrs a with
     | None => True
     | Some x => permits (permissions x) PERM_WRITE = false \/
                 (permits (permissions x) PERM_WRITE_ENCRYPTED = true /\ encrypted h = Some false)
     end -> exists r, handle_write_request wnp enc len ccc wifi parse attrs a v h = Ret r h /\ (r = wnp \/ r = enc)) /\
  (forall a v, handle_write_request wnp enc len ccc wifi parse (service_attrs prim chr ccc wifi st) a v h = Ret wnp h) /\
  (forall a, handle_read_request rnp enc (service_attrs prim chr ccc wifi st) a h =
     Ret (if a =? 0 then (0, Some (str "12345678-1234-56")) else (rnp, None)) h).
Proof.
  split_and!.
  - intros attrs a r h' E. unfold handle_read_request in E. destruct (find_attr attrs a) as [x|]; [|by injection E].
    destruct (negb _); [by injection E|]. apply bind_inv_Ret in E as (b & h1 & E1 & E).
    assert (h1 = h) as ->.
    { unfold needs_encryption in E1. destruct (permits _ _); [|by injection E1]. erewrite (bind_Ret get) in E1 by reflexivity.
      apply bind_inv_Ret in E1 as (e & h2 & E2 & E1). destruct (encrypted h); [|done]. injection E2 as <- <-. by injection E1. }
    destruct b; [by injection E|]. apply bind_inv_Ret in E as (v & h1 & E1' & E).
    assert (h1 = h) as -> by (destruct (value_len x =? 0); [by injection E1'|destruct (value x); [by injection E1'|done]]). by injection E.
  - intros attrs a v Ha. unfold handle_write_request. destruct (find_attr attrs a) as [x|]; [|exists wnp; split; [done|by left]].
    destruct Ha as [Hp|[Hp He]].
    + rewrite Hp. exists wnp. split; [done|by left].
    + destruct (permits (permissions x) PERM_WRITE); [|exists wnp; split; [done|by left]]. cbn [negb]. exists enc. split; [|by right].
      unfold needs_encryption. rewrite Hp. by rewrite (bind_Ret _ _ h true h) by (erewrite (bind_Ret get) by reflexivity; by rewrite He).
  - intros a v. unfold handle_write_request, service_attrs. cbn [find_attr handle]. by destruct (0 =? a).
  - intros a. unfold handle_read_request, service_attrs. cbn [find_attr handle]. rewrite Z.eqb_sym. by destruct (a =? 0).
Qed.
End GattFacts.
