(* ===== verification/HttpServer.v ===== *)
(** * HttpServer

    src/examples/http_server.c: a server over the event polling of src/src/epoll.c.  Each
    connection has a context that collects what arrives; a complete request is parsed as
    in src/src/handshake.c (the same statements, so the functions of Handshake.v), answered
    and closed.  The server meets epoll through the interface [Poller], which Epoll.v
    implements. *)
From Stdlib Require Import String.
From S2P Require Import Prelude RbTree RbSearch Epoll Ipc Storage Text Handshake.

(** ** Data *)
Definition BUFFER_SIZE : nat := Z.to_nat 4096.
Definition EPOLLIN : Z := 1.
Definition EPOLLET : Z := 2147483648.

Record client_context_t : Type := ClientContext { c_fd : Z; c_buffer : list Z; buffer_pos : nat }.
Definition set_c_buffer (b : list Z) (c : client_context_t) : client_context_t := ClientContext (c_fd c) b (buffer_pos c).
Definition set_buffer_pos (n : nat) (c : client_context_t) : client_context_t := ClientContext (c_fd c) (c_buffer c) n.

(** What the server asks of the system besides polling. *)
Inductive call : Type := SetNonblocking (fd : Z) | Write (fd : Z) (text : list Z) | Close (fd : Z).
(** What [read] finds: an error, or the bytes that have arrived, none at the end. *)
Inductive read_result : Type := ReadFails | Arrived (bytes : list Z).

(** The calls of "epoll.h". *)
Record poll_ops (P : Type) : Type := PollOps {
  poll_create : Z -> Cmd P Z;
  poll_ctl : Z -> Z -> Z -> option epoll_event -> Cmd P Z;
  poll_close : Z -> Cmd P unit
}.
Arguments PollOps {P} poll_create poll_ctl poll_close.
Arguments poll_create {P} p.
Arguments poll_ctl {P} p.
Arguments poll_close {P} p.

(** The poller, the contexts by their address, what [strtok] remembers, and the calls
    made so far. *)
Record server (P : Type) : Type := Server {
  poller : P;
  contexts : gmap Z client_context_t;
  saved : option nat;
  trace : list call
}.
Arguments Server {P} poller contexts saved trace.
Arguments poller {P} s.
Arguments contexts {P} s.
Arguments saved {P} s.
Arguments trace {P} s.
Definition poll_part {P} : lens (server P) P.
Proof.
  refine (Lens poller (fun p s => Server p (contexts s) (saved s) (trace s)) _ _ _); [done|by intros []|done].
Defined.

(** ** The answer to a request *)
(** [snprintf] of the response; the numbers are printed in decimal. *)
Definition response (code : Z) (status body : list Z) : list Z :=
  str "HTTP/1.1 " ++ Storage.digits 20 code ++ [32] ++ status ++ CRLF ++ str "Content-Type: text/html" ++ CRLF ++
  str "Content-Length: " ++ Storage.digits 20 (Z.of_nat (length body)) ++ CRLF ++ str "Connection: close" ++ CRLF ++ CRLF ++ body.
(** The array keeps what fits with a terminator, and [write] is told the full length. *)
Definition send_response (code : Z) (status body : list Z) : Cmd hs_state unit :=
  let t := response code status body in
  if (length t <=? BUFFER_SIZE)%nat then
    modify (fun s => HsState (h_buf s) (h_saved s) (h_sent s ++ [take (length t) (take (BUFFER_SIZE - 1) t ++ [0])]) (h_completed s))
  else fail Fault.

Definition welcome : list Z :=
  str "<html><head><title>Welcome</title></head><body><h1>Welcome to High Performance HTTP Server</h1>" ++
  str "<p>This server is powered by custom epoll implementation.</p></body></html>".
(** An array of the zeroed request into which [sscanf] has stored nothing is empty. *)
Definition or_empty (w : option (list Z)) : list Z := match w with Some w => w | None => [] end.
(** [strtok] gives no empty line, so [*line] holds for every line of the loop. *)
Definition handle_request (fuel : nat) : Cmd hs_state unit :=
  let* request := parse_http_request fuel in
  match request with
  | None => send_response 400 (str "Bad Request") (str "Invalid request line")
  | Some request =>
      if decide (or_empty (method request) = str "GET") then
        if decide (or_empty (path request) = str "/") then send_response 200 (str "OK") welcome
        else send_response 404 (str "Not Found") (str "Page not found")
      else send_response 405 (str "Method Not Allowed") (str "Method not supported")
  end.

(** ** Connections

    [junk]: the upper half of [ev.data], which the code does not set. *)
Section Server.
Context {P : Type} (ops : poll_ops P) (fuel : nat) (junk : Z).

Definition sys (c : call) : Cmd (server P) unit := modify (fun s => Server (poller s) (contexts s) (saved s) (trace s ++ [c])).
Definition context_of (a : Z) : Cmd (server P) client_context_t := let* s := get in deref (contexts s !! a).
Definition put_context (a : Z) (c : client_context_t) : Cmd (server P) unit :=
  modify (fun s => Server (poller s) (<[a := c]> (contexts s)) (saved s) (trace s)).
Definition free_context (a : Z) : Cmd (server P) unit :=
  modify (fun s => Server (poller s) (delete a (contexts s)) (saved s) (trace s)).
(** [handle_request] on the buffer of a context; the responses go to its descriptor. *)
Definition on_request (a : Z) (c : Cmd hs_state unit) : Cmd (server P) unit := fun s =>
  match contexts s !! a with
  | None => Stop Fault
  | Some ctx =>
      match c (HsState (c_buffer ctx) (saved s) [] false) with
      | Ret _ h => Ret tt (Server (poller s) (<[a := set_c_buffer (h_buf h) ctx]> (contexts s)) (h_saved h) (trace s ++ (Write (c_fd ctx) <$> h_sent h)))
      | Yield _ _ => Stop Fault
      | Stop e => Stop e
      end
  end.

Definition client_event (a : Z) : epoll_event := EpollEvent (Z.lor EPOLLIN EPOLLET) (a + 2 ^ 32 * junk).
Definition server_event (server_fd : Z) : epoll_event := EpollEvent EPOLLIN (u32 server_fd + 2 ^ 32 * junk).

(** [client_fd]: what [accept] answers; [ctx]: what [calloc] answers. *)
Definition accept_connection (epfd client_fd ctx : Z) : Cmd (server P) unit :=
  if client_fd <? 0 then ret tt else
  sys (SetNonblocking client_fd) ;;;
  (if ctx =? 0 then fail Fault else put_context ctx (ClientContext client_fd (replicate BUFFER_SIZE 0) 0)) ;;;
  let* r := zoom poll_part (poll_ctl ops epfd EPOLL_CTL_ADD client_fd (Some (client_event ctx))) in
  if r <? 0 then sys (Close client_fd) ;;; free_context ctx else ret tt.

(** The statements behind the label [cleanup]. *)
Definition cleanup (epfd a : Z) : Cmd (server P) unit :=
  let* c := context_of a in
  let* _ := zoom poll_part (poll_ctl ops epfd EPOLL_CTL_DEL (c_fd c) None) in
  sys (Close (c_fd c)) ;;;
  free_context a.

Definition read (a : Z) (r : read_result) : Cmd (server P) Z :=
  let* c := context_of a in
  match r with
  | ReadFails => ret (-1)
  | Arrived bytes =>
      let d := take (BUFFER_SIZE - buffer_pos c - 1) bytes in
      put_context a (set_c_buffer (splice (buffer_pos c) d (c_buffer c)) c) ;;;
      ret (Z.of_nat (length d))
  end.
Definition handle_client (epfd a events : Z) (r : read_result) : Cmd (server P) unit :=
  if Z.testbit events 0 then
    let* n := read a r in
    if n <=? 0 then cleanup epfd a else
    let* c := context_of a in
    let pos := (buffer_pos c + Z.to_nat n)%nat in
    put_context a (ClientContext (c_fd c) (<[pos := 0]> (c_buffer c)) pos) ;;;
    let* c := context_of a in
    let* found := strstr (CRLF ++ CRLF) (c_buffer c) in
    match found with
    | Some _ => on_request a (handle_request fuel) ;;; cleanup epfd a
    | None => ret tt
    end
  else cleanup epfd a.

(** ** The event loop *)
(** An event and what the system answers while it is served. *)
Record incoming : Type := Incoming { event_in : epoll_event; accepted : Z; new_ctx : Z; input : read_result }.
Definition serve_event (epfd server_fd : Z) (e : incoming) : Cmd (server P) unit :=
  if i32 (data (event_in e)) =? server_fd then accept_connection epfd (accepted e) (new_ctx e)
  else handle_client epfd (u32 (data (event_in e))) (events (event_in e)) (input e).
(** The rounds of the loop: what each [epoll_wait] gives, [None] when it fails.  The result
    tells whether the loop has ended. *)
Fixpoint event_loop (epfd server_fd : Z) (rounds : list (option (list incoming))) : Cmd (server P) bool :=
  match rounds with
  | [] => ret false
  | None :: _ => ret true
  | Some l :: rounds => for_each l (serve_event epfd server_fd) ;;; event_loop epfd server_fd rounds
  end.
(** [None]: the server still runs. *)
Definition main (server_fd bind_result listen_result : Z) (rounds : list (option (list incoming))) : Cmd (server P) (option Z) :=
  if server_fd <? 0 then ret (Some 1) else
  if bind_result <? 0 then ret (Some 1) else
  if listen_result <? 0 then ret (Some 1) else
  let* epfd := zoom poll_part (poll_create ops 1) in
  if epfd <? 0 then ret (Some 1) else
  let* r := zoom poll_part (poll_ctl ops epfd EPOLL_CTL_ADD server_fd (Some (server_event server_fd))) in
  if r <? 0 then ret (Some 1) else
  let* ended := event_loop epfd server_fd rounds in
  if ended then sys (Close server_fd) ;;; zoom poll_part (poll_close ops epfd) ;;; ret (Some 0) else ret None.
End Server.

(** ** What the server relies on

    [ready p]: [p] is in order.  [interests p epfd M]: instance [epfd] watches the
    descriptors of [M]. *)
Class Poller {P} (ops : poll_ops P) (ready : P -> Prop) (interests : P -> Z -> gmap Z epoll_event -> Prop) : Prop := {
  poll_new p size : ready p -> exists r p', poll_create ops size p = Ret r p' /\ (0 <= r -> interests p' r ∅);
  poll_add p epfd M f v : interests p epfd M -> M !! f = None ->
    exists r p', poll_ctl ops epfd EPOLL_CTL_ADD f (Some v) p = Ret r p' /\
      if r <? 0 then interests p' epfd M else interests p' epfd (<[f := v]> M);
  poll_del p epfd M f v : interests p epfd M -> M !! f = Some v ->
    exists p', poll_ctl ops epfd EPOLL_CTL_DEL f None p = Ret 0 p' /\ interests p' epfd (delete f M)
}.

(** ** The state of the server

    Every context is that of one registered descriptor, its text fits its buffer, and
    nothing else but the listening socket is registered. *)
Record context_ok (server_fd a : Z) (c : client_context_t) : Prop := {
  ok_buffer : length (c_buffer c) = BUFFER_SIZE;
  ok_pos : (buffer_pos c < BUFFER_SIZE)%nat;
  ok_fd : c_fd c <> server_fd;
  ok_address : 0 < a < 2 ^ 32 /\ i32 a <> server_fd
}.
Record served {P} (interests : P -> Z -> gmap Z epoll_event -> Prop) (junk epfd server_fd : Z) (s : server P)
    (M : gmap Z epoll_event) : Prop := {
  sv_interests : interests (poller s) epfd M;
  sv_watched f v : M !! f = Some v <-> (f = server_fd /\ v = server_event junk server_fd) \/
    (exists a c, contexts s !! a = Some c /\ c_fd c = f /\ v = client_event junk a);
  sv_contexts a c : contexts s !! a = Some c -> context_ok server_fd a c;
  sv_distinct a b c d : contexts s !! a = Some c -> contexts s !! b = Some d -> c_fd c = c_fd d -> a = b
}.
(** A new descriptor and new memory are not in use. *)
Definition system_ok {P} (server_fd : Z) (e : incoming) (s : server P) : Prop :=
  (0 <= accepted e -> accepted e <> server_fd /\ forall a c, contexts s !! a = Some c -> c_fd c <> accepted e) /\
  0 < new_ctx e < 2 ^ 32 /\ i32 (new_ctx e) <> server_fd /\ contexts s !! new_ctx e = None.

Lemma response_sizes :
  forall c s b, In (c, s, b) [(400, str "Bad Request", str "Invalid request line"); (200, str "OK", welcome);
    (404, str "Not Found", str "Page not found"); (405, str "Method Not Allowed", str "Method not supported")] ->
  (length (response c s b) < BUFFER_SIZE)%nat.
Proof.
  intros c s b H. apply Nat.ltb_lt. repeat (destruct H as [H|H]; [injection H as <- <- <-; vm_compute; reflexivity|]). destruct H.
Qed.
Lemma send_response_spec c s b h : (length (response c s b) < BUFFER_SIZE)%nat ->
  send_response c s b h = Ret tt (HsState (h_buf h) (h_saved h) (h_sent h ++ [response c s b]) (h_completed h)).
Proof.
  intros H. unfold send_response. cbv zeta. rewrite (proj2 (Nat.leb_le _ _)) by lia. unfold modify. do 4 f_equal.
  rewrite (take_ge (response c s b)) by lia. apply take_app_length.
Qed.
(** Which response a request line gets. *)
Definition answer (m p : list Z) : list Z :=
  if decide (m = str "GET") then
    if decide (p = str "/") then response 200 (str "OK") welcome else response 404 (str "Not Found") (str "Page not found")
  else response 405 (str "Method Not Allowed") (str "Method not supported").

#[local] Opaque BUFFER_SIZE response.
Lemma keeps_send c s b : keeps (send_response c s b).
Proof. intros h [] h' H. unfold send_response in H. destruct (Nat.leb _ _); [by injection H as <-|done]. Qed.
Lemma keeps_handle fuel : keeps (handle_request fuel).
Proof.
  apply keeps_bind; [apply keeps_parse|intros [r|]; [|apply keeps_send]]. repeat case_match; apply keeps_send.
Qed.

(** The answer to a well-formed request. *)
Lemma handle_request_spec fuel m p v c ds es more sv :
  token (first_line m p v) -> is_delim c = true -> delims ds -> Forall ended_ok es -> words_ok m p v -> (length es < fuel)%nat ->
  exists b, handle_request fuel (HsState (request_text m p v c ds es more) sv [] false) = Ret tt (HsState b None [answer m p] false).
Proof.
  intros H1 Hc H2 H3 Hw Hf. unfold handle_request.
  destruct (parse_http_request_spec m p v c ds es more H1 Hc H2 H3 fuel sv [] false Hw Hf) as (rq & b & E & Hm & _).
  rewrite (bind_Ret _ _ _ _ _ E).
  destruct Hm as [-> ->]. exists b. unfold answer. cbn [or_empty].
  repeat case_match; apply send_response_spec, response_sizes; cbn; tauto.
Qed.

Lemma strstr_total {T} n l (s : T) : 0 ∈ l -> exists q, strstr n l s = Ret q s.
Proof.
  induction l as [|x l IH]; intros H; [by apply not_elem_of_nil in H|]. cbn [strstr]. destruct (decide _); [by eexists|].
  destruct (Z.eqb_spec x 0) as [->|Hx]; [by eexists|]. apply IH. apply elem_of_cons in H as [H|H]; [by symmetry in H|done].
Qed.

Section Served.
Context {P : Type} (ops : poll_ops P) (ready : P -> Prop) (interests : P -> Z -> gmap Z epoll_event -> Prop).
Context `{Hpoll : !Poller ops ready interests}.
Context (fuel : nat) (junk epfd server_fd : Z).
Implicit Types (s : server P) (M : gmap Z epoll_event) (c : client_context_t).
Abbreviation served := (served interests junk epfd server_fd).

Lemma context_of_spec s a c : contexts s !! a = Some c -> context_of a s = Ret c s.
Proof. intros H. unfold context_of. erewrite (bind_Ret get) by reflexivity. by rewrite H. Qed.

(** A context changes, its descriptor apart. *)
Lemma served_put s M a c c' sv tr : served s M -> contexts s !! a = Some c -> context_ok server_fd a c' -> c_fd c' = c_fd c ->
  served (Server (poller s) (<[a := c']> (contexts s)) sv tr) M.
Proof.
  intros [Hi Hw Hc Hd] Ha Hok Hfd.
  assert (Hfds : forall b d, <[a := c']> (contexts s) !! b = Some d -> exists d', contexts s !! b = Some d' /\ c_fd d' = c_fd d).
  { intros b d [[<- <-]|[Hne H]]%lookup_insert_Some; [by exists c|by exists d]. }
  split; cbn [poller contexts]; [done| | |].
  - intros f v. rewrite Hw. split; (intros [?|(b & d & Hb & <- & ->)]; [by left|right; exists b]).
    + destruct (decide (b = a)) as [->|Hne]; [|by exists d; rewrite lookup_insert_ne].
      exists c'. rewrite lookup_insert_eq. assert (d = c) as -> by congruence. by split_and!.
    + destruct (Hfds b d Hb) as (d' & ? & ?). by exists d'.
  - intros b d [[<- <-]|[Hne H]]%lookup_insert_Some; [done|by apply Hc].
  - intros b1 b2 d1 d2 H1 H2 E. destruct (Hfds _ _ H1) as (? & ? & ?), (Hfds _ _ H2) as (? & ? & ?). eapply Hd; [done..|congruence].
Qed.

(** [cleanup] takes the connection out of the poller, closes it and frees its context. *)
Lemma cleanup_served s M a c : served s M -> contexts s !! a = Some c ->
  exists p', cleanup ops epfd a s = Ret tt (Server p' (delete a (contexts s)) (saved s) (trace s ++ [Close (c_fd c)])) /\
    served (Server p' (delete a (contexts s)) (saved s) (trace s ++ [Close (c_fd c)])) (delete (c_fd c) M).
Proof using Hpoll.
  intros [Hi Hw Hc Hd] Ha.
  assert (HM : M !! c_fd c = Some (client_event junk a)) by (apply Hw; right; eauto).
  destruct (poll_del (poller s) epfd M _ _ Hi HM) as (p' & E & Hi'). exists p'. split.
  - unfold cleanup. rewrite (bind_Ret _ _ _ _ _ (context_of_spec s a c Ha)), (bind_Ret _ _ _ _ _ (zoom_Ret poll_part _ s 0 p' E)). done.
  - split; cbn [poller contexts]; [done| | |].
    + intros f v. rewrite lookup_delete_Some, Hw. split.
      * intros [Hf [?|(b & d & Hb & <- & ->)]]; [by left|right]. exists b, d. split; [|done]. apply lookup_delete_Some. split; [|done].
        intros ->. congruence.
      * intros [[-> ->]|(b & d & [Hne Hb]%lookup_delete_Some & <- & ->)].
        -- split; [|by left]. exact (ok_fd _ _ _ (Hc a c Ha)).
        -- split; [|right; eauto]. intros E'. by apply Hne, (Hd a b c d).
    + intros b d [_ Hb]%lookup_delete_Some. by apply Hc.
    + intros b1 b2 d1 d2 [_ H1]%lookup_delete_Some [_ H2]%lookup_delete_Some. by apply Hd.
Qed.

Lemma context_ok_buffer a c b : context_ok server_fd a c -> length b = length (c_buffer c) -> context_ok server_fd a (set_c_buffer b c).
Proof. intros [Hb Hp Hf Ha] Hl. split; [by rewrite <- Hb|done..]. Qed.
(** What [read] and the two lines after it leave in the context. *)
Definition received (d : list Z) (c : client_context_t) : client_context_t :=
  let pos := (buffer_pos c + length d)%nat in ClientContext (c_fd c) (<[pos := 0]> (splice (buffer_pos c) d (c_buffer c))) pos.
Lemma received_ok a c d : context_ok server_fd a c -> (buffer_pos c + length d < BUFFER_SIZE)%nat ->
  context_ok server_fd a (received d c) /\ context_ok server_fd a (set_c_buffer (splice (buffer_pos c) d (c_buffer c)) c) /\
  0 ∈ c_buffer (received d c).
Proof.
  intros [Hb Hp Hf Ha] Hl. assert (Hs : length (splice (buffer_pos c) d (c_buffer c)) = BUFFER_SIZE) by (rewrite splice_length; lia).
  split_and!; [split|split|]; cbn [received c_fd c_buffer buffer_pos set_c_buffer]; try done; try by rewrite ?length_insert.
  apply list_elem_of_lookup_2 with (i := (buffer_pos c + length d)%nat). apply list_lookup_insert_eq. lia.
Qed.

(** [handle_client] after [read], when something has come. *)
Definition examine (a : Z) : Cmd (server P) unit :=
  let* c := context_of a in
  let* found := strstr (CRLF ++ CRLF) (c_buffer c) in
  match found with Some _ => on_request a (handle_request fuel) ;;; cleanup ops epfd a | None => ret tt end.
Lemma handle_client_receives s a c events bytes : contexts s !! a = Some c -> Z.testbit events 0 = true ->
  let d := take (BUFFER_SIZE - buffer_pos c - 1) bytes in d <> [] ->
  handle_client ops fuel epfd a events (Arrived bytes) s
  = examine a (Server (poller s) (<[a := received d c]> (contexts s)) (saved s) (trace s)).
Proof.
  intros Ha He d Hd. unfold handle_client, examine. rewrite He.
  assert (E1 : read a (Arrived bytes) s = Ret (Z.of_nat (length d))
    (Server (poller s) (<[a := set_c_buffer (splice (buffer_pos c) d (c_buffer c)) c]> (contexts s)) (saved s) (trace s))).
  { unfold read. by rewrite (bind_Ret _ _ _ _ _ (context_of_spec s a c Ha)). }
  rewrite (bind_Ret _ _ _ _ _ E1). assert (0 < length d)%nat by (destruct d; [done|cbn; lia]).
  rewrite (proj2 (Z.leb_gt _ _)) by lia. rewrite (bind_Ret _ _ _ _ _ (context_of_spec _ a _ (lookup_insert_eq _ _ _))).
  erewrite (bind_Ret (put_context _ _)) by reflexivity. cbn [contexts poller saved trace]. rewrite insert_insert_eq.
  unfold received. cbn [set_c_buffer c_buffer buffer_pos c_fd]. by rewrite Nat2Z.id.
Qed.
Definition nothing_new (c : client_context_t) (events : Z) (r : read_result) : bool :=
  negb (Z.testbit events 0) ||
  match r with ReadFails => true | Arrived bytes => bool_decide (take (BUFFER_SIZE - buffer_pos c - 1) bytes = []) end.
Lemma handle_client_ends s a c events r : contexts s !! a = Some c -> nothing_new c events r = true ->
  exists b, handle_client ops fuel epfd a events r s
    = cleanup ops epfd a (Server (poller s) (<[a := set_c_buffer b c]> (contexts s)) (saved s) (trace s)) /\ b = c_buffer c.
Proof.
  intros Ha Hr. exists (c_buffer c). split; [|done].
  assert (Hs : Server (poller s) (<[a := set_c_buffer (c_buffer c) c]> (contexts s)) (saved s) (trace s) = s).
  { rewrite insert_id; [by destruct s|]. rewrite Ha. by destruct c. }
  unfold handle_client, nothing_new in *. destruct (Z.testbit events 0); [|by rewrite Hs]. destruct r as [|bytes].
  - rewrite (bind_Ret _ _ s (-1) s); [by rewrite Hs|]. unfold read. by rewrite (bind_Ret _ _ _ _ _ (context_of_spec s a c Ha)).
  - erewrite (bind_Ret (read a _) _ s).
    2:{ unfold read. rewrite (bind_Ret _ _ _ _ _ (context_of_spec s a c Ha)). cbv zeta. cbn in Hr. apply bool_decide_eq_true in Hr. rewrite Hr. reflexivity. }
    cbn [length Z.of_nat Z.leb Z.compare]. unfold splice. cbn [app length]. by rewrite Nat.add_0_r, take_drop.
Qed.

(** Serving a client keeps the state in order and touches no other context; it stops only
    where the parser does. *)
Definition stops_in_request (c : Cmd (server P) unit) s : Prop :=
  (forall s', c s <> Ret tt s') /\ exists h, forall h', handle_request fuel h <> Ret tt h'.
Lemma handle_client_served s M a c events r : served s M -> contexts s !! a = Some c ->
  (exists s' M', handle_client ops fuel epfd a events r s = Ret tt s' /\ served s' M' /\
     forall b, b <> a -> contexts s' !! b = contexts s !! b) \/
  stops_in_request (handle_client ops fuel epfd a events r) s.
Proof using Hpoll.
  intros HS Ha. pose proof (sv_contexts _ _ _ _ _ _ HS a c Ha) as Hc.
  destruct (nothing_new c events r) eqn:Hr.
  - left. destruct (handle_client_ends s a c events r Ha Hr) as (b & E & ->).
    assert (Hok : context_ok server_fd a (set_c_buffer (c_buffer c) c)) by (by destruct c, Hc).
    destruct (cleanup_served _ M a _ (served_put s M a c _ (saved s) (trace s) HS Ha Hok eq_refl) (lookup_insert_eq _ _ _)) as (p' & E2 & H2).
    rewrite E2 in E. eexists _, _. split_and!; [exact E|exact H2|]. intros b Hb. cbn [contexts]. by rewrite lookup_delete_ne, lookup_insert_ne.
  - unfold nothing_new in Hr. destruct (Z.testbit events 0) eqn:He; [|done]. destruct r as [|bytes]; [done|].
    cbn in Hr. apply bool_decide_eq_false in Hr.
    set (d := take (BUFFER_SIZE - buffer_pos c - 1) bytes) in *.
    assert (Hd : (buffer_pos c + length d < BUFFER_SIZE)%nat).
    { unfold d. rewrite length_take. pose proof (ok_pos _ _ _ Hc). lia. }
    unfold stops_in_request. rewrite (handle_client_receives s a c events bytes Ha He) by exact Hr.
    fold d. destruct (received_ok a c d Hc Hd) as (Hok & _ & H0).
    set (s1 := Server _ _ _ _). pose proof (served_put s M a c (received d c) (saved s) (trace s) HS Ha Hok eq_refl : served s1 M) as HS1.
    assert (Ha1 : contexts s1 !! a = Some (received d c)) by (by apply lookup_insert_eq).
    unfold examine. rewrite (bind_Ret _ _ _ _ _ (context_of_spec s1 a _ Ha1)).
    destruct (strstr_total (CRLF ++ CRLF) _ s1 H0) as (q & Eq). rewrite (bind_Ret _ _ _ _ _ Eq).
    assert (Hoth : forall b, b <> a -> contexts s1 !! b = contexts s !! b) by (intros b Hb; by apply lookup_insert_ne).
    destruct q as [q|]; [|left; by exists s1, M].
    destruct (handle_request fuel (HsState (c_buffer (received d c)) (saved s1) [] false)) as [[] h| |] eqn:Eh;
      [left|right; (split; [|exists (HsState (c_buffer (received d c)) (saved s1) [] false); by rewrite Eh]);
       intros s'; unfold bind, on_request; by rewrite Ha1, Eh..].
    pose proof (context_ok_buffer a _ (h_buf h) Hok (keeps_handle fuel _ _ _ Eh)) as Hok2.
    erewrite (bind_Ret (on_request a _)) by (unfold on_request; rewrite Ha1, Eh; reflexivity).
    pose proof (served_put s1 M a _ _ (h_saved h) (trace s1 ++ (Write (c_fd (received d c)) <$> h_sent h)) HS1 Ha1 Hok2 eq_refl) as HS2.
    destruct (cleanup_served _ M a _ HS2 (lookup_insert_eq _ _ _)) as (p' & E2 & H2).
    eexists _, _. split_and!; [exact E2|exact H2|]. intros b Hb. cbn [contexts]. rewrite lookup_delete_ne, lookup_insert_ne by done. by apply Hoth.
Qed.

(** A new connection is registered with a context, or closed. *)
Lemma accept_served s M e : served s M -> system_ok server_fd e s ->
  exists s' M', accept_connection ops junk epfd (accepted e) (new_ctx e) s = Ret tt s' /\ served s' M' /\
    forall b c, contexts s !! b = Some c -> contexts s' !! b = Some c.
Proof using Hpoll.
  intros HS (Hfd & Ha & Hi & Hnew). unfold accept_connection. destruct (Z.ltb_spec (accepted e) 0) as [|Hge]; [by exists s, M|].
  destruct (Hfd Hge) as [Hne Hfree]. set (fd := accepted e) in *. set (a := new_ctx e) in *.
  set (c := ClientContext fd (replicate BUFFER_SIZE 0) 0).
  assert (Hok : context_ok server_fd a c).
  { split; cbn [c_buffer buffer_pos c_fd c]; [by rewrite length_replicate|apply Nat.ltb_lt; by vm_compute|done|done]. }
  pose proof HS as [HI Hw Hc Hd]. assert (HM : M !! fd = None).
  { apply eq_None_not_Some. intros [v [[? _]|(b & d & Hb & Hf & _)]%Hw]; [done|]. by apply (Hfree b d). }
  destruct (poll_add (poller s) epfd M fd (client_event junk a) HI HM) as (r & p' & E & HI').
  erewrite (bind_Ret (sys _)) by reflexivity. rewrite (proj2 (Z.eqb_neq a 0)) by lia. erewrite (bind_Ret (put_context _ _)) by reflexivity.
  cbn [poller contexts saved trace]. set (s1 := Server _ _ _ _).
  rewrite (bind_Ret _ _ _ _ _ (zoom_Ret poll_part _ s1 r p' E)). destruct (r <? 0).
  - eexists _, M. split_and!; [reflexivity| |].
    + cbn [poller contexts saved trace upd poll_part s1]. rewrite delete_insert_id by done. by split.
    + intros b d Hb. cbn [contexts upd poll_part s1]. by rewrite delete_insert_id.
  - eexists _, _. split_and!; [reflexivity| |].
    2:{ intros b d Hb. cbn. rewrite lookup_insert_ne; [done|]. intros ->. congruence. }
    split; cbn [poller contexts saved trace upd poll_part s1]; [exact HI'| | |].
    + intros f v. rewrite lookup_insert_Some, Hw. split.
      * intros [[<- <-]|[Hf [?|(b & d & Hb & <- & ->)]]]; [right; exists a, c; by rewrite lookup_insert_eq|by left|right].
        exists b, d. rewrite lookup_insert_ne; [done|]. intros ->. congruence.
      * intros [[-> ->]|(b & d & [[<- <-]|[Hb Hd']]%lookup_insert_Some & <- & ->)].
        -- right. split; [by intros ->|by left].
        -- by left.
        -- right. split; [intros E'; by apply (Hfree b d)|right; eauto].
    + intros b d [[<- <-]|[_ Hb]]%lookup_insert_Some; [done|by apply Hc].
    + intros b1 b2 d1 d2 [[<- <-]|[H1 H1']]%lookup_insert_Some [[<- <-]|[H2 H2']]%lookup_insert_Some Hf; [done| | |by eapply Hd].
      * by destruct (Hfree b2 d2).
      * by destruct (Hfree b1 d1).
Qed.

(** ** Rounds of events *)
(** The event is of the listening socket or of a context that exists. *)
Definition live s (d : Z) : Prop :=
  d = data (server_event junk server_fd) \/ exists a c, contexts s !! a = Some c /\ d = data (client_event junk a).
Definition of_event (e : incoming) : Z := data (event_in e).
Context (Hsfd : 0 <= server_fd < 2 ^ 31).
Lemma server_data : i32 (data (server_event junk server_fd)) = server_fd.
Proof using Hsfd.
  cbn [data server_event]. unfold i32, u32, wrap. rewrite (Z.mod_small server_fd) by lia.
  replace (server_fd + 2 ^ 32 * junk + 2 ^ 31) with (server_fd + 2 ^ 31 + junk * 2 ^ 32) by lia. rewrite Z.mod_add, Z.mod_small; lia.
Qed.
Lemma client_data a : 0 < a < 2 ^ 32 -> u32 (data (client_event junk a)) = a /\ i32 (data (client_event junk a)) = i32 a.
Proof.
  intros Ha. cbn [data client_event]. unfold i32, u32, wrap. split.
  - rewrite Z.mul_comm, Z.mod_add, Z.mod_small; lia.
  - replace (a + 2 ^ 32 * junk + 2 ^ 31) with (a + 2 ^ 31 + junk * 2 ^ 32) by lia. by rewrite Z.mod_add.
Qed.

Lemma serve_event_served s M e : served s M -> system_ok server_fd e s -> live s (of_event e) ->
  (exists s' M', serve_event ops fuel junk epfd server_fd e s = Ret tt s' /\ served s' M' /\
     forall d, d <> of_event e -> live s d -> live s' d) \/
  stops_in_request (serve_event ops fuel junk epfd server_fd e) s.
Proof using Hpoll Hsfd.
  intros HS Hsys Hl. unfold serve_event. fold (of_event e). destruct (Z.eqb_spec (i32 (of_event e)) server_fd) as [Heq|Hne].
  - left. destruct (accept_served s M e HS Hsys) as (s' & M' & E & HS' & Hk). exists s', M'. split_and!; [done|done|].
    intros d _ [?|(a & c & Hc & ?)]; [by left|right; eauto].
  - destruct Hl as [Hs|(a & c & Hc & Hd)]; [by rewrite Hs, server_data in Hne|].
    destruct (ok_address _ _ _ (sv_contexts _ _ _ _ _ _ HS a c Hc)) as [Ha _].
    rewrite Hd, (proj1 (client_data a Ha)).
    destruct (handle_client_served s M a c (events (event_in e)) (input e) HS Hc) as [(s' & M' & E & HS' & Hk)|]; [left|by right].
    exists s', M'. split_and!; [done|done|]. intros d Hd' [?|(b & c' & Hb & ->)]; [by left|right]. exists b, c'.
    rewrite Hk; [done|]. by intros ->.
Qed.

(** Serving the events of one round in order, with a system that answers as it should. *)
Inductive round : server P -> list incoming -> server P -> Prop :=
| round_end s : round s [] s
| round_next s e l s1 s2 : system_ok server_fd e s -> serve_event ops fuel junk epfd server_fd e s = Ret tt s1 ->
    round s1 l s2 -> round s (e :: l) s2.
Lemma round_served s l s' : round s l s' -> forall M D, served s M -> Forall (live s) ((of_event <$> l) ++ D) ->
  NoDup ((of_event <$> l) ++ D) -> exists M', served s' M' /\ Forall (live s') D.
Proof using Hpoll Hsfd.
  induction 1 as [s|s e l s1 s2 Hsys E _ IH]; intros M D HS Hl Hnd; [by exists M|].
  rewrite fmap_cons in Hl, Hnd. apply Forall_cons in Hl as [Hle Hl]. apply NoDup_cons in Hnd as [Hn Hnd].
  destruct (serve_event_served s M e HS Hsys Hle) as [(s' & M' & E' & HS' & Hk)|[Hst _]]; [|by destruct (Hst s1)].
  assert (s' = s1) as -> by congruence. apply (IH M' D HS'); [|done]. rewrite Forall_forall in *. intros d Hd.
  apply Hk; [by intros ->|by apply Hl].
Qed.

Lemma served_start p : interests p epfd {[server_fd := server_event junk server_fd]} ->
  served (Server p ∅ None []) {[server_fd := server_event junk server_fd]}.
Proof.
  intros HI. split; cbn [poller contexts]; [done| | |].
  - intros f v. rewrite lookup_singleton_Some. split; [intros [<- <-]; by left|]. intros [[-> ->]|(a & c & Hc & _)]; [done|]. by rewrite lookup_empty in Hc.
  - intros a c Hc. by rewrite lookup_empty in Hc.
  - intros a b c d Hc. by rewrite lookup_empty in Hc.
Qed.

(** ** One request in pieces *)
Definition end_of_headers : list Z := CRLF ++ CRLF.
(** The text that a context has collected. *)
Definition collected (t : list Z) (c : client_context_t) : Prop :=
  buffer_pos c = length t /\ take (length t) (c_buffer c) = t /\ length (c_buffer c) = BUFFER_SIZE.
Lemma received_collects t d c : collected t c -> (length t + length d < BUFFER_SIZE)%nat ->
  exists rest, c_buffer (received d c) = (t ++ d) ++ 0 :: rest /\ collected (t ++ d) (received d c).
Proof.
  intros (Hp & Ht & Hl) Hs. unfold received. cbv zeta. cbn [c_buffer]. rewrite Hp. unfold splice. rewrite Ht.
  destruct (drop (length t + length d) (c_buffer c)) as [|x rest] eqn:Ed.
  { apply (f_equal length) in Ed. rewrite length_drop in Ed. cbn in Ed. lia. }
  exists rest. assert (E : <[(length t + length d)%nat := 0]> (t ++ d ++ x :: rest) = (t ++ d) ++ 0 :: rest).
  { rewrite app_assoc, <- length_app. apply insert_at. }
  split; [exact E|]. unfold collected. cbn [buffer_pos c_buffer]. rewrite E, length_app. split_and!; [done| |].
  - rewrite <- length_app. apply take_app_length.
  - rewrite <- E, length_insert. apply (f_equal length) in Ed. rewrite length_drop in Ed. rewrite !length_app. cbn [length] in *. lia.
Qed.
Lemma contains_prefix n t d : contains n (t ++ d) = false -> contains n t = false.
Proof.
  intros H. apply not_true_iff_false. intros (l1 & l2 & ->)%contains_spec. apply not_true_iff_false in H. apply H, contains_spec.
  exists l1, (l2 ++ d). by rewrite <- !app_assoc.
Qed.

(** A piece comes in: the text grows, and is examined. *)
Lemma piece_comes s a c t d : contexts s !! a = Some c -> collected t c -> d <> [] -> (length t + length d < BUFFER_SIZE)%nat ->
  plain (t ++ d) ->
  let s1 := Server (poller s) (<[a := received d c]> (contexts s)) (saved s) (trace s) in
  handle_client ops fuel epfd a 1 (Arrived d) s =
    if contains end_of_headers (t ++ d) then (on_request a (handle_request fuel) ;;; cleanup ops epfd a) s1 else Ret tt s1.
Proof.
  intros Ha Hc Hd Hs Hpl s1. assert (Hw : take (BUFFER_SIZE - buffer_pos c - 1) d = d) by (apply take_ge; destruct Hc as [-> _]; lia).
  rewrite (handle_client_receives s a c 1 d Ha eq_refl) by (by rewrite Hw). rewrite Hw. fold s1.
  assert (Ha1 : contexts s1 !! a = Some (received d c)) by apply lookup_insert_eq.
  unfold examine. rewrite (bind_Ret _ _ _ _ _ (context_of_spec s1 a _ Ha1)).
  destruct (received_collects t d c Hc Hs) as (rest & -> & _).
  destruct (strstr_contains end_of_headers (t ++ d) rest s1 Hpl) as (q & Eq & <-); [by apply not_in_dec|done|].
  unfold end_of_headers in Eq. rewrite (bind_Ret _ _ _ _ _ Eq). by destruct q.
Qed.

(** Pieces without the empty line only wait. *)
Lemma pieces_wait ds : forall s M a c t, served s M -> contexts s !! a = Some c -> collected t c -> Forall (.≠ []) ds ->
  (length (t ++ concat ds) < BUFFER_SIZE)%nat -> plain (t ++ concat ds) -> contains end_of_headers (t ++ concat ds) = false ->
  exists c', for_each ds (fun d => handle_client ops fuel epfd a 1 (Arrived d)) s
      = Ret tt (Server (poller s) (<[a := c']> (contexts s)) (saved s) (trace s)) /\
    served (Server (poller s) (<[a := c']> (contexts s)) (saved s) (trace s)) M /\ collected (t ++ concat ds) c' /\ c_fd c' = c_fd c.
Proof.
  clear Hpoll Hsfd. induction ds as [|d ds IH]; intros s M a c t HS Ha Hc Hne Hl Hpl Hno.
  - exists c. cbn [concat for_each]. rewrite app_nil_r, insert_id by done. by destruct s.
  - apply Forall_cons in Hne as [Hd Hne]. cbn [concat for_each] in *. rewrite app_assoc in *.
    assert (Hs : (length t + length d < BUFFER_SIZE)%nat) by (rewrite !length_app in Hl; lia).
    assert (Hpl1 : plain (t ++ d)) by (unfold plain in *; set_solver).
    pose proof (piece_comes s a c t d Ha Hc Hd Hs Hpl1) as E. cbv zeta in E. rewrite (contains_prefix _ _ _ Hno) in E.
    rewrite (bind_Ret _ _ _ _ _ E). destruct (received_collects t d c Hc Hs) as (rest & _ & Hc1).
    pose proof (sv_contexts _ _ _ _ _ _ HS a c Ha) as Hcok.
    destruct (received_ok a c d Hcok) as (Hok & _). { destruct Hc as [-> _]. exact Hs. }
    pose proof (served_put s M a c (received d c) (saved s) (trace s) HS Ha Hok eq_refl) as HS1.
    destruct (IH _ M a _ _ HS1 (lookup_insert_eq _ _ _) Hc1 Hne Hl Hpl Hno) as (c' & E' & HS' & Hc' & Hf).
    exists c'. cbn [poller contexts saved trace] in *. rewrite insert_insert_eq in *. by split_and!.
Qed.
End Served.

Lemma for_each_snoc {S A} (f : A -> Cmd S unit) l x s s1 s2 :
  for_each l f s = Ret tt s1 -> f x s1 = Ret tt s2 -> for_each (l ++ [x]) f s = Ret tt s2.
Proof.
  revert s. induction l as [|y l IH]; intros s H1 H2; cbn [for_each app] in *.
  - injection H1 as <-. by rewrite (bind_Ret _ _ _ _ _ H2).
  - apply bind_inv_Ret in H1 as ([] & s0 & E & H1). rewrite (bind_Ret _ _ _ _ _ E). by apply IH.
Qed.

(** ** Properties *)


(** C22. A request is answered once, however it arrives.  Its text is cut into pieces
    anywhere; as long as the empty line that ends the headers is not complete nothing is
    sent and the connection stays as it was, and when it is, the only thing sent is the
    answer that the method and the path of the first line ask for (the page for GET /, 404
    for another path, 405 for another method); then the connection is closed, its context
    freed and its descriptor taken out of the poller.  A buffer filled without an empty
    line closes the connection with no answer. *)
Theorem http_request_answered {P} (ops : poll_ops P) (ready : P -> Prop) (interests : P -> Z -> gmap Z epoll_event -> Prop)
    (Hpoll : Poller ops ready interests) (fuel : nat) (junk epfd server_fd : Z) (s : server P) (M : gmap Z epoll_event) (a : Z)
    (c : client_context_t) (HS : served interests junk epfd server_fd s M) (Ha : contexts s !! a = Some c) :
  let serve := fun d => handle_client ops fuel epfd a 1 (Arrived d) in
  (forall ds d m p v x xs es, buffer_pos c = 0%nat -> Forall (.≠ []) ds -> d <> [] ->
     concat ds ++ d ++ [0] = request_text m p v x xs es [] ->
     token (first_line m p v) -> is_delim x = true -> delims xs -> Forall ended_ok es -> words_ok m p v ->
     (length es < fuel)%nat -> plain (concat ds ++ d) -> (length (concat ds ++ d) < BUFFER_SIZE)%nat ->
     contains end_of_headers (concat ds) = false -> contains end_of_headers (concat ds ++ d) = true ->
     (exists s1, for_each ds serve s = Ret tt s1 /\ trace s1 = trace s /\ served interests junk epfd server_fd s1 M) /\
     (exists s2, for_each (ds ++ [d]) serve s = Ret tt s2 /\ trace s2 = trace s ++ [Write (c_fd c) (answer m p); Close (c_fd c)] /\
        contexts s2 = delete a (contexts s) /\ served interests junk epfd server_fd s2 (delete (c_fd c) M))) /\
  (forall d, buffer_pos c = (BUFFER_SIZE - 1)%nat ->
     exists s2, serve d s = Ret tt s2 /\ trace s2 = trace s ++ [Close (c_fd c)] /\
        contexts s2 = delete a (contexts s) /\ served interests junk epfd server_fd s2 (delete (c_fd c) M)).
Proof.
  intros serve. assert (Hlen : forall c', context_ok server_fd a c' -> length (c_buffer c') = BUFFER_SIZE) by (by intros ? []).
  pose proof (sv_contexts _ _ _ _ _ _ HS a c Ha) as Hok. split.
  - intros ds d m p v x xs es Hpos Hne Hd Htext H1 Hx H2 H3 Hw Hf Hpl Hl Hno Hyes.
    assert (Hc0 : collected [] c) by (split_and!; [done|apply take_0|by apply Hlen]).
    assert (Hpl1 : plain (concat ds)) by (unfold plain in *; set_solver). rewrite length_app in Hl.
    destruct (pieces_wait ops interests fuel junk epfd server_fd ds s M a c [] HS Ha Hc0 Hne ltac:(cbn [app]; lia) Hpl1 Hno)
      as (c1 & E1 & HS1 & Hc1 & Hfd1). cbn [app] in Hc1. split; [by eexists|].
    set (s1 := Server _ _ _ _) in *. assert (Ha1 : contexts s1 !! a = Some c1) by apply lookup_insert_eq.
    pose proof (piece_comes ops fuel epfd s1 a c1 (concat ds) d Ha1 Hc1 Hd Hl Hpl) as E2. cbv zeta in E2. rewrite Hyes in E2.
    pose proof (sv_contexts _ _ _ _ _ _ HS1 a c1 Ha1) as Hok1.
    destruct (received_ok server_fd a c1 d Hok1) as (Hok2 & _). { destruct Hc1 as [-> _]. exact Hl. }
    pose proof (served_put interests junk epfd server_fd s1 M a c1 (received d c1) (saved s1) (trace s1) HS1 Ha1 Hok2 eq_refl) as HS2.
    destruct (received_collects (concat ds) d c1 Hc1 Hl) as (rest & Hb & _).
    set (s2 := Server (poller s1) _ _ _) in *. assert (Ha2 : contexts s2 !! a = Some (received d c1)) by apply lookup_insert_eq.
    destruct (handle_request_spec fuel m p v x xs es rest (saved s1) H1 Hx H2 H3 Hw Hf) as (b & Eh).
    assert (Ht : (concat ds ++ d) ++ 0 :: rest = request_text m p v x xs es rest).
    { change (0 :: rest) with ([0] ++ rest). rewrite app_assoc, <- (app_assoc (concat ds)), Htext. unfold request_text. by assoc. }
    rewrite <- Ht, <- Hb in Eh. pose proof (keeps_handle fuel _ _ _ Eh) as Hk. cbn [h_buf] in Hk.
    pose proof (context_ok_buffer server_fd a _ b Hok2 Hk) as Hok3.
    pose proof (served_put interests junk epfd server_fd s2 M a _ _ None (trace s2 ++ [Write (c_fd (received d c1)) (answer m p)]) HS2 Ha2 Hok3 eq_refl) as HS3.
    destruct (cleanup_served ops ready interests junk epfd server_fd _ M a _ HS3 (lookup_insert_eq _ _ _)) as (p' & E3 & HS4).
    cbn [poller contexts saved trace set_c_buffer c_fd received] in *. rewrite Hfd1 in *. refine (ex_intro _ _ (conj _ (conj _ (conj _ HS4)))).
    + eapply for_each_snoc; [exact E1|]. unfold serve. rewrite E2. erewrite bind_Ret; [exact E3|].
      unfold on_request. rewrite Ha2. cbn [saved s2]. rewrite Eh. cbn. by rewrite Hfd1.
    + cbn [trace s2 s1]. by rewrite <- app_assoc.
    + cbn [contexts s2 s1]. by rewrite !delete_insert_eq.
  - intros d Hpos. assert (Hn : nothing_new c 1 (Arrived d) = true).
    { unfold nothing_new. cbn. apply bool_decide_eq_true. pose proof (ok_pos _ _ _ Hok).
      replace (BUFFER_SIZE - buffer_pos c - 1)%nat with 0%nat by lia. apply take_0. }
    destruct (handle_client_ends ops fuel epfd s a c 1 _ Ha Hn) as (b & E & ->). unfold serve. rewrite E.
    assert (Hcc : set_c_buffer (c_buffer c) c = c) by (by destruct c). rewrite Hcc, insert_id by done.
    destruct (cleanup_served ops ready interests junk epfd server_fd s M a c HS Ha) as (p' & E2 & HS2).
    eexists. split_and!; [rewrite <- E2; by destruct s|done|done|exact HS2].
Qed.

(** ** The interface as epoll.c implements it

    [has_memory] and [item]: what the two calls of [calloc] find. *)
Definition nodes_of (s : epoll) (epfd : Z) : gmap Z epitem_t :=
  match instances s !! Z.to_nat epfd with Some (Some ep) => rb_nodes (rbr ep) | _ => ∅ end.
Definition epoll_poll (lib : rb_lib) (has_memory : epoll -> bool) (item : epoll -> Z -> Z) : poll_ops epoll := {|
  poll_create := fun size s => epoll_create (has_memory s) size s;
  poll_ctl := fun epfd op f ev s => epoll_ctl lib (size (nodes_of s epfd)) (item s epfd) epfd op f ev s;
  poll_close := fun epfd s => epoll_close lib (size (nodes_of s epfd)) epfd s |}.
Definition epoll_ready (s : epoll) : Prop := (length (instances s) <= MAX_EPOLL_INSTANCES)%nat.
Definition epoll_interests (s : epoll) (epfd : Z) (M : gmap Z epoll_event) : Prop :=
  bad_epfd epfd s = false /\ exists ep, instances s !! Z.to_nat epfd = Some (Some ep) /\ interest (rbr ep) M.

Lemma find_available_spec l : forall i, 0 <= i ->
  find_available i l = -1 \/ exists n, find_available i l = i + Z.of_nat n /\ l !! n = Some None.
Proof.
  induction l as [|[ep|] l IH]; intros i Hi; [by left| |right; exists 0%nat; split; [cbn; lia|done]].
  destruct (IH (i + 1)) as [H|(n & H & Hn)]; [lia|by left|right; exists (S n)]. cbn [find_available]. split; [lia|done].
Qed.
Lemma not_bad s epfd ep : bad_epfd epfd s = false -> instances s !! Z.to_nat epfd = Some (Some ep) ->
  forall e x, bad_epfd epfd (EpollState (<[Z.to_nat epfd := Some x]> (instances s)) e) = false.
Proof.
  unfold bad_epfd. intros Hb Hep e x. rewrite Hep in Hb. cbn [instances]. rewrite list_lookup_insert_eq; [exact Hb|].
  by apply lookup_lt_Some in Hep.
Qed.
Lemma epoll_ctl_step lib fuel item op f ev s epfd ep r t' :
  bad_epfd epfd s = false -> instances s !! Z.to_nat epfd = Some (Some ep) -> ctl_switch lib fuel item op f ev (rbr ep) = Ret r t' ->
  exists s', epoll_ctl lib fuel item epfd op f ev s = Ret (if r =? 0 then 0 else -1) s' /\
    forall M, interest t' M -> epoll_interests s' epfd M.
Proof.
  intros Hb Hep E1. set (s1 := put_instance (Z.to_nat epfd) (Some (upd rbr_part t' ep)) s).
  assert (E2 : in_instance (Z.to_nat epfd) (zoom rbr_part (ctl_switch lib fuel item op f ev)) s = Ret r s1).
  { unfold in_instance. rewrite Hep. by rewrite (zoom_Ret rbr_part _ ep _ _ E1). }
  exists (if r =? 0 then s1 else EpollState (instances s1) r). split.
  - unfold epoll_ctl. erewrite (bind_Ret get) by reflexivity. rewrite Hb, (bind_Ret _ _ _ _ _ E2). by destruct (r =? 0).
  - intros M HM. assert (Hlt : (Z.to_nat epfd < length (instances s))%nat) by (by apply lookup_lt_Some in Hep).
    destruct (r =? 0); (split; [by apply (not_bad s epfd ep)|]); eexists; (split; [by apply list_lookup_insert_eq|exact HM]).
Qed.

#[export] Instance epoll_poller lib has_memory item : RbLibLaws lib ->
  (forall s epfd, item s epfd = 0 \/ nodes_of s epfd !! item s epfd = None /\ aligned (item s epfd)) ->
  Poller (epoll_poll lib has_memory item) epoll_ready epoll_interests.
Proof.
  intros Hlib Hitem. split; cbn [epoll_poll poll_create poll_ctl].
  - intros s n Hready. unfold epoll_create. destruct (n <=? 0); [by eexists _, _|]. erewrite (bind_Ret find_available_fd) by reflexivity.
    destruct (find_available_spec (instances s) 0 ltac:(lia)) as [->|(i & -> & Hi)]; [by eexists _, _|].
    rewrite (proj2 (Z.ltb_ge _ _)) by lia. destruct (has_memory s); [|by eexists _, _]. eexists _, _. split; [reflexivity|]. intros _.
    pose proof (lookup_lt_Some _ _ _ Hi) as Hlt. unfold epoll_ready in Hready.
    unfold epoll_interests, bad_epfd. cbn [negb put_instance instances]. rewrite Z.add_0_l, Nat2Z.id, list_lookup_insert_eq by done.
    split; [|eexists; split; [reflexivity|apply interest_empty]].
    rewrite (proj2 (Z.ltb_ge _ _)), (proj2 (Z.leb_gt _ _)) by lia. done.
  - intros s epfd M f v (Hb & ep & Hep & HI) Hf. assert (Hn : nodes_of s epfd = rb_nodes (rbr ep)) by (unfold nodes_of; by rewrite Hep).
    destruct (decide (item s epfd = 0)) as [H0|H0].
    + assert (E1 : ctl_switch lib (size (nodes_of s epfd)) (item s epfd) EPOLL_CTL_ADD f (Some v) (rbr ep) = Ret ENOMEM (rbr ep)).
      { unfold ctl_switch. pose proof HI as (t & m & H & _ & Ho & _ & HM). rewrite Hn.
        destruct (find_epitem_spec (size (rb_nodes (rbr ep))) _ t m M f H Ho HM) as [(x & p & _ & _ & _ & _ & _ & Hx)|(E & _)].
        { pose proof (shape_length item_payload _ t m H). lia. } { congruence. }
        rewrite (bind_Ret _ _ _ _ _ E), H0. done. }
      destruct (epoll_ctl_step _ _ _ _ _ _ s epfd ep _ _ Hb Hep E1) as (s' & E & Hs'). eexists _, s'. split; [exact E|]. by apply Hs'.
    + destruct (Hitem s epfd) as [?|[Hfresh Hal]]; [done|].
      destruct (ctl_switch_spec lib (size (nodes_of s epfd)) (item s epfd) EPOLL_CTL_ADD f v (rbr ep) M HI) as (t' & E1 & HI');
        [by rewrite Hn|by rewrite <- Hn|done|done|].
      destruct (epoll_ctl_step _ _ _ _ _ _ s epfd ep _ _ Hb Hep E1) as (s' & E & Hs'). eexists _, s'. split; [exact E|].
      unfold ctl_spec, is_registered in *. rewrite Hf in *. by apply Hs'.
  - intros s epfd M f v (Hb & ep & Hep & HI) Hf. pose proof HI as (t & m & H & Hrb & Ho & Hinj & HM).
    assert (Hn : nodes_of s epfd = rb_nodes (rbr ep)) by (unfold nodes_of; by rewrite Hep).
    destruct (find_epitem_spec (size (rb_nodes (rbr ep))) _ t m M f H Ho HM) as [(x & p & E0 & Hx & Hx0 & Hp & Hfd & _)|(_ & HMf)].
    { pose proof (shape_length item_payload _ t m H). lia. }
    2:{ congruence. }
    destruct (ctl_del_spec lib _ t m M f x p H Hrb Ho Hinj HM Hx Hp Hfd) as (t' & E2 & HI').
    assert (E1 : ctl_switch lib (size (nodes_of s epfd)) (item s epfd) EPOLL_CTL_DEL f None (rbr ep) = Ret 0 t').
    { unfold ctl_switch. rewrite Hn, (bind_Ret _ _ _ _ _ E0), (proj2 (Z.eqb_neq x 0)) by done. exact E2. }
    destruct (epoll_ctl_step _ _ _ _ _ _ s epfd ep _ _ Hb Hep E1) as (s' & E & Hs'). exists s'. split; [exact E|]. by apply Hs'.
Qed.

(** ** Witnesses *)
Definition next_item (s : epoll) (epfd : Z) : Z :=
  let a := 64 + 4 * Z.of_nat (size (nodes_of s epfd)) in
  if decide (nodes_of s epfd !! a = None /\ a < 4294967296) then a else 0.
Lemma next_item_ok s epfd : next_item s epfd = 0 \/ nodes_of s epfd !! next_item s epfd = None /\ aligned (next_item s epfd).
Proof.
  unfold next_item. cbv zeta. case_decide as Hd; [right|by left]. destruct Hd as [H1 H2]. split; [done|]. split; [lia|].
  replace (64 + 4 * Z.of_nat (size (nodes_of s epfd))) with ((16 + Z.of_nat (size (nodes_of s epfd))) * 4) by lia. by apply Z_mod_mult.
Qed.
Definition real_poll : poll_ops epoll := epoll_poll relink_lib (fun _ => true) next_item.
Definition no_instance : epoll := EpollState [None; None] 0.

(** The server over epoll.c starts and takes a connection. *)
Definition first_connection : incoming := Incoming (server_event 0 3) 5 64 ReadFails.

(** A poller that is a finite map, with one connection; its request comes in three pieces. *)
Definition map_poll : poll_ops (gmap Z epoll_event) := {|
  poll_create := fun _ _ => Ret 0 ∅;
  poll_ctl := fun _ op f ev M =>
    match ev with Some v => Ret 0 (<[f := v]> M) | None => Ret 0 (delete f M) end;
  poll_close := fun _ => ret tt |}.
#[export] Instance map_poller : Poller map_poll (fun _ => True) (fun p _ M => p = M).
Proof. split; [intros p n _; by exists 0, ∅|intros p e M f v -> _; by exists 0, (<[f := v]> M)|intros p e M f v -> _; by exists (delete f M)]. Qed.
Definition one_client : server (gmap Z epoll_event) :=
  Server {[3 := server_event 0 3; 5 := client_event 0 64]} {[64 := ClientContext 5 (replicate BUFFER_SIZE 0) 0]} None [].
Lemma one_client_served : served (fun p _ M => p = M) 0 0 3 one_client {[3 := server_event 0 3; 5 := client_event 0 64]}.
Proof.
  split; cbn [poller contexts one_client]; [done| | |].
  - intros f v. rewrite lookup_insert_Some, lookup_singleton_Some. split.
    + intros [[<- <-]|[_ [<- <-]]]; [by left|right]. eexists _, _. by rewrite lookup_singleton_Some.
    + intros [[-> ->]|(a & c & [<- <-]%lookup_singleton_Some & <- & ->)]; [by left|]. right. cbn [c_fd]. split; [lia|done].
  - intros a c [<- <-]%lookup_singleton_Some. split; cbn [c_buffer buffer_pos c_fd]; [by rewrite length_replicate|apply Nat.ltb_lt; by vm_compute|discriminate|].
    split; [lia|discriminate].
  - by intros a b c d [<- <-]%lookup_singleton_Some [<- <-]%lookup_singleton_Some.
Qed.
Lemma http_request_answered_witness :
  exists s2, for_each [str "GET / HTTP/1.1" ++ [13]; [10] ++ str "Host: x" ++ CRLF ++ [13]; [10]]
      (fun d => handle_client map_poll 3 0 64 1 (Arrived d)) one_client = Ret tt s2 /\
    trace s2 = [Write 5 (response 200 (str "OK") welcome); Close 5] /\ contexts s2 = ∅.
Proof.
  destruct (http_request_answered map_poll _ _ map_poller 3 0 0 3 one_client _ 64 (ClientContext 5 (replicate BUFFER_SIZE 0) 0) one_client_served) as [H _].
  - by apply lookup_singleton_Some.
  - destruct (H [str "GET / HTTP/1.1" ++ [13]; [10] ++ str "Host: x" ++ CRLF ++ [13]] [10] (str "GET") (str "/") (str "HTTP/1.1") 13 [10]
      [Ended (Header (str "Host") 32 (str "x")) 13 [10; 13; 10]]) as [_ (s2 & E & Ht & Hc & _)].
    + reflexivity.
    + repeat constructor; discriminate.
    + discriminate.
    + reflexivity.
    + split; [discriminate|split; [by apply not_in_dec|repeat constructor]].
    + reflexivity.
    + repeat constructor.
    + apply Forall_cons; split; [|constructor]. split; [split; [split; [discriminate|split; [by apply not_in_dec|repeat constructor]]|by apply not_in_dec]|split; [done|repeat constructor]].
    + split; [split_and!; (split; [discriminate|repeat constructor])|vm_compute; by split_and!].
    + cbn. lia.
    + by apply not_in_dec.
    + apply Nat.ltb_lt. by vm_compute.
    + by vm_compute.
    + by vm_compute.
    + exists s2. split; [exact E|]. split; [exact Ht|]. rewrite Hc. apply map_eq. intros b. cbn [contexts one_client]. by rewrite delete_singleton_eq.
Defined.
