(* ===== verification/Config.v ===== *)
(** * Config

    src/examples/config_manager.c: a configuration kept in a JSON file.  The functions of
    "cjson.h" on value trees that it calls ([cJSON_Parse], [cJSON_Print],
    [cJSON_GetObjectItem] and the builders) have no definition in the sources; they are the
    operations [cjson_ops] on a heap of items, with the documented behaviour in the class
    [Cjson]. *)
From Stdlib Require Import String.
From S2P Require Import Prelude Text.

(** ** Data *)
(** Arrays of characters have their declared sizes: [hostname] and [host] 64, [log_level] 16,
    files 256, the other texts of the database 32. *)
Record system_t : Type := System { hostname : list Z; s_port : Z; log_level : list Z; log_file : list Z }.
Record database_t : Type := Database {
  d_host : list Z; d_port : Z; username : list Z; password : list Z; database : list Z; max_connections : Z }.
Record cache_t : Type := Cache { c_host : list Z; c_port : Z; timeout : Z; max_memory : Z }.
Record security_t : Type := Security { ssl_enabled : bool; cert_file : list Z; key_file : list Z; ca_file : list Z }.
Record config_t : Type := Config { system : system_t; db : database_t; cache : cache_t; security : security_t }.
Definition zeros (n : nat) : list Z := replicate n 0.
(** [calloc]. *)
Definition zero_config : config_t :=
  Config (System (zeros 64) 0 (zeros 16) (zeros 256)) (Database (zeros 64) 0 (zeros 32) (zeros 32) (zeros 32) 0)
    (Cache (zeros 64) 0 0 0) (Security false (zeros 256) (zeros 256) (zeros 256)).

(** The functions of "cjson.h"; an item is an address, 0 is NULL. *)
Record cjson_ops (H : Type) : Type := CjsonOps {
  cJSON_Parse : list Z -> Cmd H Z;
  cJSON_Print : Z -> Cmd H (option (list Z));
  cJSON_Delete : Z -> Cmd H unit;
  cJSON_CreateObject : Cmd H Z;
  cJSON_AddItemToObject : Z -> list Z -> Z -> Cmd H unit;
  cJSON_AddStringToObject : Z -> list Z -> list Z -> Cmd H unit;
  cJSON_AddNumberToObject : Z -> list Z -> Z -> Cmd H unit;
  cJSON_AddBoolToObject : Z -> list Z -> bool -> Cmd H unit;
  cJSON_GetObjectItem : Z -> list Z -> Cmd H Z;
  valuestring : Z -> Cmd H (option (list Z));
  valueint : Z -> Cmd H Z
}.
Arguments cJSON_Parse {H} c.
Arguments cJSON_Print {H} c.
Arguments cJSON_Delete {H} c.
Arguments cJSON_CreateObject {H} c.
Arguments cJSON_AddItemToObject {H} c.
Arguments cJSON_AddStringToObject {H} c.
Arguments cJSON_AddNumberToObject {H} c.
Arguments cJSON_AddBoolToObject {H} c.
Arguments cJSON_GetObjectItem {H} c.
Arguments valuestring {H} c.
Arguments valueint {H} c.

(** The items and the file; [None]: there is no file to read. *)
Record state (H : Type) : Type := State { items : H; file : option (list Z) }.
Arguments State {H} items file.
Arguments items {H} s.
Arguments file {H} s.
Definition items_part {H} : lens (state H) H.
Proof. refine (Lens items (fun h s => State h (file s)) _ _ _); [done|by intros []|done]. Defined.

(** [strncpy (dst, src, sizeof(dst) - 1)], as the standard has it. *)
Definition strncpy (dst src : list Z) : list Z :=
  let n := (length dst - 1)%nat in
  let t := take n src in t ++ zeros (n - length t) ++ drop n dst.
(** The value of a C string in an array. *)
Fixpoint text_of (a : list Z) : list Z :=
  match a with [] => [] | x :: a => if x =? 0 then [] else x :: text_of a end.

(** ** Operations *)
Section Operations.
Context {H : Type} (ops : cjson_ops H).

Definition get_item (o : Z) (n : list Z) : Cmd H Z := cJSON_GetObjectItem ops o n.
(** [if (item && item->valuestring) strncpy (...)]. *)
Definition copy_string (item : Z) (dst : list Z) : Cmd H (list Z) :=
  if item =? 0 then ret dst else
  let* v := valuestring ops item in
  match v with Some s => ret (strncpy dst s) | None => ret dst end.
(** [if (item) x = item->valueint]. *)
Definition copy_int (item : Z) (x : Z) : Cmd H Z :=
  if item =? 0 then ret x else valueint ops item.

Definition load_system (json : Z) (s : system_t) : Cmd H system_t :=
  let* o := get_item json (str "system") in
  if o =? 0 then ret s else
  let* h := get_item o (str "hostname") in
  let* p := get_item o (str "port") in
  let* ll := get_item o (str "log_level") in
  let* lf := get_item o (str "log_file") in
  let* hostname' := copy_string h (hostname s) in
  let* port' := copy_int p (s_port s) in
  let* log_level' := copy_string ll (log_level s) in
  let* log_file' := copy_string lf (log_file s) in
  ret (System hostname' port' log_level' log_file').
Definition load_database (json : Z) (d : database_t) : Cmd H database_t :=
  let* o := get_item json (str "database") in
  if o =? 0 then ret d else
  let* h := get_item o (str "host") in
  let* p := get_item o (str "port") in
  let* u := get_item o (str "username") in
  let* pw := get_item o (str "password") in
  let* n := get_item o (str "database") in
  let* m := get_item o (str "max_connections") in
  let* host' := copy_string h (d_host d) in
  let* port' := copy_int p (d_port d) in
  let* username' := copy_string u (username d) in
  let* password' := copy_string pw (password d) in
  let* database' := copy_string n (database d) in
  let* max' := copy_int m (max_connections d) in
  ret (Database host' port' username' password' database' max').
(** [max_memory] is a size_t. *)
Definition load_cache (json : Z) (c : cache_t) : Cmd H cache_t :=
  let* o := get_item json (str "cache") in
  if o =? 0 then ret c else
  let* h := get_item o (str "host") in
  let* p := get_item o (str "port") in
  let* t := get_item o (str "timeout") in
  let* m := get_item o (str "max_memory") in
  let* host' := copy_string h (c_host c) in
  let* port' := copy_int p (c_port c) in
  let* timeout' := copy_int t (timeout c) in
  let* memory' := copy_int m (max_memory c) in
  ret (Cache host' port' timeout' (u32 memory')).
Definition load_security (json : Z) (s : security_t) : Cmd H security_t :=
  let* o := get_item json (str "security") in
  if o =? 0 then ret s else
  let* e := get_item o (str "ssl_enabled") in
  let* c := get_item o (str "cert_file") in
  let* k := get_item o (str "key_file") in
  let* a := get_item o (str "ca_file") in
  let* v := copy_int e (if ssl_enabled s then 1 else 0) in
  let* cert' := copy_string c (cert_file s) in
  let* key' := copy_string k (key_file s) in
  let* ca' := copy_string a (ca_file s) in
  ret (Security (negb (v =? 0)) cert' key' ca').

(** [malloc_ok], [calloc_ok]: whether the allocations succeed.  [fread] stores the file,
    which ends in a terminator then; the parser sees a C string. *)
Definition load_config (malloc_ok calloc_ok : bool) : Cmd (state H) (option config_t) :=
  let* s := get in
  match file s with
  | None => ret None
  | Some content =>
      if negb malloc_ok then ret None else
      let* data := c_text (content ++ [0]) in
      let* json := zoom items_part (cJSON_Parse ops data) in
      if json =? 0 then ret None else
      if negb calloc_ok then zoom items_part (cJSON_Delete ops json) ;;; ret None else
      let* sy := zoom items_part (load_system json (system zero_config)) in
      let* d := zoom items_part (load_database json (db zero_config)) in
      let* c := zoom items_part (load_cache json (cache zero_config)) in
      let* se := zoom items_part (load_security json (security zero_config)) in
      zoom items_part (cJSON_Delete ops json) ;;;
      ret (Some (Config sy d c se))
  end.

(** A value that is added under a name: the text of an array, a number, a truth value. *)
Inductive field : Type := Text (a : list Z) | Number (n : Z) | Bool (b : bool).
Definition add_field (o : Z) (f : list Z * field) : Cmd H unit :=
  match snd f with
  | Text a => let* t := c_text a in cJSON_AddStringToObject ops o (fst f) t
  | Number n => cJSON_AddNumberToObject ops o (fst f) n
  | Bool b => cJSON_AddBoolToObject ops o (fst f) b
  end.
Definition system_fields (s : system_t) : list (list Z * field) :=
  [(str "hostname", Text (hostname s)); (str "port", Number (s_port s)); (str "log_level", Text (log_level s));
   (str "log_file", Text (log_file s))].
Definition database_fields (d : database_t) : list (list Z * field) :=
  [(str "host", Text (d_host d)); (str "port", Number (d_port d)); (str "username", Text (username d));
   (str "password", Text (password d)); (str "database", Text (database d)); (str "max_connections", Number (max_connections d))].
Definition cache_fields (c : cache_t) : list (list Z * field) :=
  [(str "host", Text (c_host c)); (str "port", Number (c_port c)); (str "timeout", Number (timeout c));
   (str "max_memory", Number (max_memory c))].
Definition security_fields (s : security_t) : list (list Z * field) :=
  [(str "ssl_enabled", Bool (ssl_enabled s)); (str "cert_file", Text (cert_file s)); (str "key_file", Text (key_file s));
   (str "ca_file", Text (ca_file s))].
(** The object of a section is added to the root first and filled then. *)
Definition add_section (json : Z) (n : list Z) (fs : list (list Z * field)) : Cmd H unit :=
  let* o := cJSON_CreateObject ops in
  cJSON_AddItemToObject ops json n o ;;;
  for_each fs (add_field o).
Definition add_sections (json : Z) (config : config_t) : Cmd H unit :=
  add_section json (str "system") (system_fields (system config)) ;;;
  add_section json (str "database") (database_fields (db config)) ;;;
  add_section json (str "cache") (cache_fields (cache config)) ;;;
  add_section json (str "security") (security_fields (security config)).
(** [fopen_ok]: the file can be opened for writing. *)
Definition save_config (fopen_ok : bool) (config : config_t) : Cmd (state H) Z :=
  let* json := zoom items_part (cJSON_CreateObject ops) in
  if json =? 0 then ret (-1) else
  zoom items_part (add_sections json config) ;;;
  let* text := zoom items_part (cJSON_Print ops json) in
  zoom items_part (cJSON_Delete ops json) ;;;
  match text with
  | None => ret (-1)
  | Some t =>
      if negb fopen_ok then ret (-1) else
      modify (fun s => State (items s) (Some (t ++ [10]))) ;;;
      ret 0
  end.

(** The changes that [main] makes. *)
Definition update (c : config_t) : config_t :=
  Config (System (strncpy (hostname (system c)) (str "new-host")) (s_port (system c)) (log_level (system c)) (log_file (system c)))
    (Database (d_host (db c)) (d_port (db c)) (username (db c)) (password (db c)) (database (db c)) 100)
    (Cache (c_host (cache c)) (c_port (cache c)) 5000 (max_memory (cache c))) (security c).
(** What it prints is left out. *)
Definition main (argc : Z) (malloc_ok calloc_ok fopen_ok : bool) : Cmd (state H) Z :=
  if negb (argc =? 2) then ret 1 else
  let* config := load_config malloc_ok calloc_ok in
  match config with
  | None => ret 1
  | Some config =>
      let* r := save_config fopen_ok (update config) in
      if negb (r =? 0) then ret 1 else ret 0
  end.
End Operations.

(** ** What the functions of "cjson.h" promise

    With enough memory.  [view h p]: the item at [p]; an object lists the names and the
    addresses of its fields.  A name is looked up without regard to case. *)
Inductive leaf : Type := LString (s : list Z) | LNumber (n : Z) | LBool (b : bool).
Inductive item : Type := Leaf (l : leaf) | Object (fs : list (list Z * Z)).
Fixpoint find_name {A} (n : list Z) (fs : list (list Z * A)) : option A :=
  match fs with
  | [] => None
  | (m, x) :: fs => if decide (tolower <$> m = tolower <$> n) then Some x else find_name n fs
  end.
Definition or_null (o : option Z) : Z := match o with Some p => p | None => 0 end.

(** An object of values, and an object of such objects. *)
Definition values := list (list Z * leaf).
Definition document := list (list Z * values).
Section Interface.
Context {H : Type} (view : H -> Z -> option item) (h : H).
Definition fields_at (ps : list (list Z * Z)) (vs : values) : Prop :=
  Forall2 (fun q f => fst q = fst f /\ snd q <> 0 /\ view h (snd q) = Some (Leaf (snd f))) ps vs.
Definition values_at (p : Z) (vs : values) : Prop :=
  p <> 0 /\ exists ps, view h p = Some (Object ps) /\ fields_at ps vs.
Definition document_at (p : Z) (d : document) : Prop :=
  p <> 0 /\ exists ps, view h p = Some (Object ps) /\
    Forall2 (fun q s => fst q = fst s /\ values_at (snd q) (snd s)) ps d.
End Interface.
(** The item of [o] gets the field, and everything else stays. *)
Definition appended {H} (view : H -> Z -> option item) (h h' : H) (o : Z) (n : list Z) (q : Z) (fs : list (list Z * Z)) : Prop :=
  view h' o = Some (Object (fs ++ [(n, q)])) /\ forall r, r <> o -> r <> q -> view h' r = view h r.

(** [render d]: the text of a document. *)
Class Cjson {H : Type} (ops : cjson_ops H) (view : H -> Z -> option item) (render : document -> list Z) : Prop := {
  create_law h : exists p h', cJSON_CreateObject ops h = Ret p h' /\ p <> 0 /\ view h p = None /\
    view h' p = Some (Object []) /\ forall r, r <> p -> view h' r = view h r;
  add_item_law h o n q fs x : view h o = Some (Object fs) -> view h q = Some x -> q <> o ->
    exists h', cJSON_AddItemToObject ops o n q h = Ret tt h' /\ appended view h h' o n q fs /\ view h' q = Some x;
  add_string_law h o n s fs : view h o = Some (Object fs) ->
    exists q h', cJSON_AddStringToObject ops o n s h = Ret tt h' /\ q <> 0 /\ view h q = None /\ appended view h h' o n q fs /\
      view h' q = Some (Leaf (LString s));
  add_number_law h o n z fs : view h o = Some (Object fs) ->
    exists q h', cJSON_AddNumberToObject ops o n z h = Ret tt h' /\ q <> 0 /\ view h q = None /\ appended view h h' o n q fs /\
      view h' q = Some (Leaf (LNumber z));
  add_bool_law h o n b fs : view h o = Some (Object fs) ->
    exists q h', cJSON_AddBoolToObject ops o n b h = Ret tt h' /\ q <> 0 /\ view h q = None /\ appended view h h' o n q fs /\
      view h' q = Some (Leaf (LBool b));
  get_item_law h o n fs : view h o = Some (Object fs) -> cJSON_GetObjectItem ops o n h = Ret (or_null (find_name n fs)) h;
  string_law h p l : view h p = Some (Leaf l) ->
    valuestring ops p h = Ret (match l with LString s => Some s | _ => None end) h;
  int_law h p l : view h p = Some (Leaf l) ->
    match l with
    | LNumber n => -2147483648 <= n <= 2147483647 -> valueint ops p h = Ret n h
    | LBool b => valueint ops p h = Ret (if b then 1 else 0) h
    | LString _ => True
    end;
  print_law h p d : document_at view h p d -> exists h', cJSON_Print ops p h = Ret (Some (render d)) h';
  parse_law h d : exists p h', cJSON_Parse ops (render d ++ [10]) h = Ret p h' /\ document_at view h' p d;
  render_plain d : plain (render d);
  delete_law h p : exists h', cJSON_Delete ops p h = Ret tt h'
}.

(** ** Facts *)
Definition leaf_of (f : field) : leaf :=
  match f with Text a => LString (text_of a) | Number n => LNumber n | Bool b => LBool b end.
Definition leaf_values (fs : list (list Z * field)) : values := (fun f => (fst f, leaf_of (snd f))) <$> fs.
(** An array of [n] characters holds a C string. *)
Definition holds_text (n : nat) (a : list Z) : Prop := length a = n /\ 0 ∈ a.
Definition int_ok (n : Z) : Prop := -2147483648 <= n <= 2147483647.
Record config_ok (c : config_t) : Prop := {
  ok_system : holds_text 64 (hostname (system c)) /\ int_ok (s_port (system c)) /\ holds_text 16 (log_level (system c)) /\
    holds_text 256 (log_file (system c));
  ok_database : holds_text 64 (d_host (db c)) /\ int_ok (d_port (db c)) /\ holds_text 32 (username (db c)) /\
    holds_text 32 (password (db c)) /\ holds_text 32 (database (db c)) /\ int_ok (max_connections (db c));
  ok_cache : holds_text 64 (c_host (cache c)) /\ int_ok (c_port (cache c)) /\ int_ok (timeout (cache c)) /\
    0 <= max_memory (cache c) <= 2147483647;
  ok_security : holds_text 256 (cert_file (security c)) /\ holds_text 256 (key_file (security c)) /\ holds_text 256 (ca_file (security c))
}.
(** The same texts, with zeros behind them. *)
Definition clean (a : list Z) : list Z := text_of a ++ zeros (length a - length (text_of a)).
Definition canonical (c : config_t) : config_t :=
  Config (System (clean (hostname (system c))) (s_port (system c)) (clean (log_level (system c))) (clean (log_file (system c))))
    (Database (clean (d_host (db c))) (d_port (db c)) (clean (username (db c))) (clean (password (db c))) (clean (database (db c)))
      (max_connections (db c)))
    (Cache (clean (c_host (cache c))) (c_port (cache c)) (timeout (cache c)) (max_memory (cache c)))
    (Security (ssl_enabled (security c)) (clean (cert_file (security c))) (clean (key_file (security c))) (clean (ca_file (security c)))).

Lemma c_text_array {S} a (s : S) : 0 ∈ a -> c_text a s = Ret (text_of a) s.
Proof.
  induction a as [|x a IH]; intros Hz; [by apply not_elem_of_nil in Hz|]. cbn [c_text text_of]. destruct (Z.eqb_spec x 0) as [->|Hx]; [done|].
  apply elem_of_cons in Hz as [Hz|Hz]; [by subst x|]. by rewrite (bind_Ret _ _ _ _ _ (IH Hz)).
Qed.
Lemma text_of_length a : 0 ∈ a -> (length (text_of a) < length a)%nat.
Proof.
  induction a as [|x a IH]; intros Hz; [by apply not_elem_of_nil in Hz|]. cbn [text_of length]. destruct (Z.eqb_spec x 0) as [->|Hx]; [cbn; lia|].
  apply elem_of_cons in Hz as [Hz|Hz]; [by subst x|]. apply IH in Hz. cbn [length]. lia.
Qed.
(** Copying the text of an array into a zeroed one of the same size. *)
Lemma strncpy_text n a : holds_text n a -> strncpy (zeros n) (text_of a) = clean a.
Proof.
  intros [Hl Hz]. pose proof (text_of_length a Hz) as Ht. unfold strncpy, clean, zeros. cbv zeta. rewrite length_replicate.
  rewrite (take_ge (text_of a)) by lia. f_equal. rewrite drop_replicate, <- replicate_add. f_equal. lia.
Qed.
Lemma strncpy_holds n a src : holds_text n a -> (0 < n)%nat -> (forall i, (n - 1 <= i)%nat -> (i < n)%nat -> a !! i = Some 0) -> holds_text n (strncpy a src).
Proof.
  intros [Hl _] Hn Hlast. unfold strncpy. cbv zeta. rewrite Hl. split.
  - rewrite !length_app, length_take, length_drop. unfold zeros. rewrite length_replicate. lia.
  - apply elem_of_app. right. apply elem_of_app. right. apply list_elem_of_lookup. exists 0%nat. rewrite lookup_drop. apply Hlast; lia.
Qed.

Section Facts.
Context {H : Type} (ops : cjson_ops H) (view : H -> Z -> option item) (render : document -> list Z).
Context {Hcj : Cjson ops view render}.
Implicit Types (h : H) (fs : list (list Z * field)).

(** Items that were there before stay, [o] apart. *)
Definition kept (o : Z) h h' : Prop := forall r x, r <> o -> view h r = Some x -> view h' r = Some x.
Definition leaves h (ps : list (list Z * Z)) fs : Prop :=
  Forall2 (fun p f => fst p = fst f /\ snd p <> 0 /\ view h (snd p) = Some (Leaf (leaf_of (snd f)))) ps fs.
Definition section_at h (p : Z) fs : Prop := p <> 0 /\ exists ps, view h p = Some (Object ps) /\ leaves h ps fs.

Lemma kept_trans o h1 h2 h3 : kept o h1 h2 -> kept o h2 h3 -> kept o h1 h3.
Proof. intros H1 H2 r x Hr Hx. by apply H2, H1. Qed.
Lemma leaves_kept o h h' ps fs ops' : view h o = Some (Object ops') -> kept o h h' -> leaves h ps fs -> leaves h' ps fs.
Proof.
  intros Ho Hk Hl. eapply Forall2_impl; [exact Hl|]. intros p f (? & ? & Hv). split_and!; [done|done|]. apply Hk; [|done].
  intros E. rewrite E, Ho in Hv. done.
Qed.

Definition field_ok (f : field) : Prop := match f with Text a => 0 ∈ a | _ => True end.
Lemma add_field_spec h o n f ps : view h o = Some (Object ps) -> field_ok f ->
  exists q h', add_field ops o (n, f) h = Ret tt h' /\ q <> 0 /\ view h' o = Some (Object (ps ++ [(n, q)])) /\
    view h' q = Some (Leaf (leaf_of f)) /\ kept o h h'.
Proof using Hcj.
  intros Ho Hf. assert (Hkept : forall q h', view h q = None -> appended view h h' o n q ps -> kept o h h').
  { intros q h' Hq [_ Ha] r x Hr Hx. rewrite Ha; [done|done|]. by intros ->; congruence. }
  unfold add_field. cbn [fst snd]. destruct f as [a|z|b].
  - rewrite (bind_Ret _ _ _ _ _ (c_text_array a h Hf)). destruct (add_string_law h o n (text_of a) ps Ho) as (q & h' & E & ? & Hq & Ha & Hv).
    exists q, h'. split_and!; [done|done|apply Ha|done|by eapply Hkept].
  - destruct (add_number_law h o n z ps Ho) as (q & h' & E & ? & Hq & Ha & Hv). exists q, h'. split_and!; [done|done|apply Ha|done|by eapply Hkept].
  - destruct (add_bool_law h o n b ps Ho) as (q & h' & E & ? & Hq & Ha & Hv). exists q, h'. split_and!; [done|done|apply Ha|done|by eapply Hkept].
Qed.
Lemma add_fields_spec fs : forall h o ps fs0, view h o = Some (Object ps) -> leaves h ps fs0 -> Forall (fun f => field_ok (snd f)) fs ->
  exists h' ps', for_each fs (add_field ops o) h = Ret tt h' /\ view h' o = Some (Object ps') /\ leaves h' ps' (fs0 ++ fs) /\ kept o h h'.
Proof using Hcj.
  induction fs as [|[n f] fs IH]; intros h o ps fs0 Ho Hl Hf.
  - exists h, ps. rewrite app_nil_r. split_and!; [done..|by intros r x].
  - apply Forall_cons in Hf as [Hf1 Hf]. destruct (add_field_spec h o n f ps Ho Hf1) as (q & h1 & E & Hq0 & Ho1 & Hq & Hk).
    destruct (IH h1 o (ps ++ [(n, q)]) (fs0 ++ [(n, f)]) Ho1) as (h' & ps' & E' & Ho' & Hl' & Hk'); [|done|].
    { apply Forall2_app; [by apply (leaves_kept o h h1 ps fs0 ps)|]. by constructor. }
    exists h', ps'. cbn [for_each]. rewrite (bind_Ret _ _ _ _ _ E). rewrite <- app_assoc in Hl'. split_and!; [done..|by eapply kept_trans].
Qed.

(** A section is added to the root, and the sections before it stay. *)
Lemma add_section_spec h json n fs ps : view h json = Some (Object ps) -> json <> 0 -> Forall (fun f => field_ok (snd f)) fs ->
  exists h' o, add_section ops json n fs h = Ret tt h' /\ view h' json = Some (Object (ps ++ [(n, o)])) /\ o <> json /\ section_at h' o fs /\
    kept json h h'.
Proof using Hcj.
  intros Hj Hj0 Hf. unfold add_section. destruct (create_law h) as (o & h1 & E1 & Ho0 & Hn & Ho & Hk1). rewrite (bind_Ret _ _ _ _ _ E1).
  assert (Hoj : o <> json) by (intros ->; congruence).
  assert (Hj1 : view h1 json = Some (Object ps)) by (by rewrite Hk1).
  destruct (add_item_law h1 json n o ps _ Hj1 Ho Hoj) as (h2 & E2 & [Hj2 Hk2] & Ho2). rewrite (bind_Ret _ _ _ _ _ E2).
  destruct (add_fields_spec fs h2 o [] [] Ho2 ltac:(constructor) Hf) as (h3 & ps' & E3 & Ho3 & Hl & Hk3). exists h3, o. split_and!; [done| |done| |].
  - by apply Hk3.
  - split; [done|]. by exists ps'.
  - intros r x Hr Hx. assert (r <> o) by (intros ->; congruence). apply Hk3; [done|]. rewrite Hk2, Hk1; done.
Qed.
Lemma section_kept h h' json ps p fs : view h json = Some (Object ps) -> kept json h h' -> p <> json -> section_at h p fs -> section_at h' p fs.
Proof.
  intros Hj Hk Hp (? & qs & Hv & Hl). split; [done|]. exists qs. split; [by apply Hk|].
  eapply Forall2_impl; [exact Hl|]. intros x f (? & ? & Hx). split_and!; [done|done|]. apply Hk; [|done]. intros E. rewrite E in Hx. rewrite Hj in Hx.
  done.
Qed.

(** The root with its sections. *)
Definition sections := list (list Z * list (list Z * field)).
Definition root_at h (json : Z) (L : sections) : Prop :=
  json <> 0 /\ exists ps, view h json = Some (Object ps) /\
    Forall2 (fun p s => fst p = fst s /\ snd p <> json /\ section_at h (snd p) (snd s)) ps L.
Lemma root_section h json L n fs : root_at h json L -> Forall (fun f => field_ok (snd f)) fs ->
  exists h', add_section ops json n fs h = Ret tt h' /\ root_at h' json (L ++ [(n, fs)]).
Proof using Hcj.
  intros (Hj0 & ps & Hj & Hps) Hf. destruct (add_section_spec h json n fs ps Hj Hj0 Hf) as (h' & o & E & Hj' & Ho & Hs & Hk).
  exists h'. split; [exact E|]. split; [done|]. exists (ps ++ [(n, o)]). split; [done|]. apply Forall2_app; [|by constructor].
  eapply Forall2_impl; [exact Hps|]. intros p s (? & ? & Hp). split_and!; [done|done|]. by apply (section_kept h h' json ps).
Qed.

Definition doc_of (L : sections) : document := (fun s => (fst s, leaf_values (snd s))) <$> L.
Lemma section_values h p fs : section_at h p fs <-> values_at view h p (leaf_values fs).
Proof. unfold section_at, values_at, fields_at, leaf_values, leaves. by setoid_rewrite Forall2_fmap_r. Qed.
Lemma root_document h json L : root_at h json L -> document_at view h json (doc_of L).
Proof.
  intros (Hj0 & ps & Hj & Hps). split; [done|]. exists ps. split; [done|]. unfold doc_of. apply Forall2_fmap_r.
  eapply Forall2_impl; [exact Hps|]. intros q s (? & _ & Hs). split; [done|]. by apply section_values.
Qed.
Lemma document_root h json L : document_at view h json (doc_of L) ->
  json <> 0 /\ exists ps, view h json = Some (Object ps) /\ Forall2 (fun p s => fst p = fst s /\ section_at h (snd p) (snd s)) ps L.
Proof.
  intros (Hj0 & ps & Hj & Hps). split; [done|]. exists ps. split; [done|]. apply Forall2_fmap_r in Hps.
  eapply Forall2_impl; [exact Hps|]. intros q s [? Hs]. split; [done|]. by apply section_values.
Qed.

(** *** Reading *)
Lemma find_name_forall2 {A B} (R : A -> B -> Prop) n ps L (b : B) :
  Forall2 (fun p s => fst p = fst s /\ R (snd p) (snd s)) ps L -> find_name n L = Some b ->
  exists a, find_name n ps = Some a /\ R a b.
Proof.
  induction 1 as [|[m a] [m' b'] ps L [Hm Hr] _ IH]; [done|]. cbn in *. subst m'. destruct (decide _); [intros [= <-]; eauto|exact IH].
Qed.
Lemma get_section h json L n fs : document_at view h json (doc_of L) -> find_name n L = Some fs ->
  exists o, get_item ops json n h = Ret o h /\ section_at h o fs.
Proof using Hcj.
  intros (_ & ps & Hj & Hps)%document_root Hf. destruct (find_name_forall2 (fun p s => section_at h p s) n ps L fs Hps Hf) as (o & Ho & Hs).
  exists o. split; [|done]. unfold get_item. by rewrite (get_item_law h json n ps Hj), Ho.
Qed.
Lemma get_field h o fs n f : section_at h o fs -> find_name n fs = Some f ->
  exists q, get_item ops o n h = Ret q h /\ q <> 0 /\ view h q = Some (Leaf (leaf_of f)).
Proof using Hcj.
  intros (_ & ps & Hv & Hl) Hf.
  destruct (find_name_forall2 (fun q f => q <> 0 /\ view h q = Some (Leaf (leaf_of f))) n ps fs f Hl Hf) as (q & Hq & Hq0 & Hqv).
  exists q. split_and!; [|done|done]. unfold get_item. by rewrite (get_item_law h o n ps Hv), Hq.
Qed.
Lemma copy_string_spec h q n a : q <> 0 -> view h q = Some (Leaf (leaf_of (Text a))) -> holds_text n a ->
  copy_string ops q (zeros n) h = Ret (clean a) h.
Proof using Hcj.
  intros Hq Hv Ha. unfold copy_string. rewrite (proj2 (Z.eqb_neq _ _)) by done. rewrite (bind_Ret _ _ _ _ _ (string_law h q _ Hv)).
  by rewrite (strncpy_text n a Ha).
Qed.
Lemma copy_int_spec h q z x : q <> 0 -> view h q = Some (Leaf (leaf_of (Number z))) -> int_ok z -> copy_int ops q x h = Ret z h.
Proof using Hcj. intros Hq Hv Hz. unfold copy_int. rewrite (proj2 (Z.eqb_neq _ _)) by done. exact (int_law h q _ Hv Hz). Qed.
Lemma copy_bool_spec h q b x : q <> 0 -> view h q = Some (Leaf (leaf_of (Bool b))) -> copy_int ops q x h = Ret (if b then 1 else 0) h.
Proof using Hcj. intros Hq Hv. unfold copy_int. rewrite (proj2 (Z.eqb_neq _ _)) by done. exact (int_law h q _ Hv). Qed.

Definition config_sections (c : config_t) : sections :=
  [(str "system", system_fields (system c)); (str "database", database_fields (db c)); (str "cache", cache_fields (cache c));
   (str "security", security_fields (security c))].

Ltac get_next Hs := match goal with |- context [bind (get_item ops ?o ?n)] =>
  destruct (get_field _ o _ n _ Hs eq_refl) as (? & ?E & ? & ?); rewrite (bind_Ret _ _ _ _ _ ltac:(eassumption)); clear E end.
Ltac copy_next := first
  [ erewrite bind_Ret by (eapply copy_string_spec; [eassumption|eassumption|assumption])
  | erewrite bind_Ret by (eapply copy_bool_spec; eassumption)
  | erewrite bind_Ret by (eapply copy_int_spec; [eassumption|eassumption|assumption]) ].
Ltac open_section Hh := match goal with |- context [bind (get_item ops _ ?n)] =>
  destruct (get_section _ _ _ n _ Hh eq_refl) as (? & E & Hs); rewrite (bind_Ret _ _ _ _ _ E); clear E;
  rewrite (proj2 (Z.eqb_neq _ _)) by apply Hs end.

Lemma load_system_spec h json c : document_at view h json (doc_of (config_sections c)) -> config_ok c ->
  load_system ops json (system zero_config) h = Ret (system (canonical c)) h.
Proof using Hcj.
  intros Hh [(? & ? & ? & ?) _ _ _]. unfold load_system. open_section Hh. do 4 get_next Hs. cbn [system zero_config hostname log_level log_file].
  do 4 copy_next. done.
Qed.
Lemma load_database_spec h json c : document_at view h json (doc_of (config_sections c)) -> config_ok c ->
  load_database ops json (db zero_config) h = Ret (db (canonical c)) h.
Proof using Hcj.
  intros Hh [_ (? & ? & ? & ? & ? & ?) _ _]. unfold load_database. open_section Hh. do 6 get_next Hs.
  cbn [db zero_config d_host username password database]. do 6 copy_next. done.
Qed.
Lemma load_cache_spec h json c : document_at view h json (doc_of (config_sections c)) -> config_ok c ->
  load_cache ops json (cache zero_config) h = Ret (cache (canonical c)) h.
Proof using Hcj.
  intros Hh [_ _ (? & ? & ? & Hm) _]. assert (int_ok (max_memory (cache c))) by (unfold int_ok; lia). unfold load_cache. open_section Hh. do 4 get_next Hs.
  cbn [cache zero_config c_host]. do 4 copy_next. unfold ret. f_equal. cbn [canonical cache]. f_equal.
  unfold u32, wrap. apply Z.mod_small. lia.
Qed.
Lemma load_security_spec h json c : document_at view h json (doc_of (config_sections c)) -> config_ok c ->
  load_security ops json (security zero_config) h = Ret (security (canonical c)) h.
Proof using Hcj.
  intros Hh [_ _ _ (? & ? & ?)]. unfold load_security. open_section Hh. do 4 get_next Hs.
  cbn [security zero_config cert_file key_file ca_file]. do 4 copy_next. unfold ret. f_equal. cbn [canonical security]. f_equal.
  by destruct (ssl_enabled (security c)).
Qed.

(** A file with the text of a configuration. *)
Definition file_of (c : config_t) : list Z := render (doc_of (config_sections c)) ++ [10].
Lemma load_config_spec c h : config_ok c ->
  exists h', load_config ops true true (State h (Some (file_of c))) = Ret (Some (canonical c)) (State h' (Some (file_of c))).
Proof using Hcj.
  intros Hc. unfold load_config. erewrite (bind_Ret get) by reflexivity. cbn [file negb].
  assert (Hpl : plain (file_of c)).
  { unfold plain, file_of. intros [Hr|Hr]%elem_of_app; [by apply (render_plain (doc_of (config_sections c)))|]. apply list_elem_of_singleton in Hr. done. }
  rewrite (bind_Ret _ _ _ _ _ (c_text_spec (file_of c) [] _ Hpl)).
  destruct (parse_law h (doc_of (config_sections c))) as (json & h1 & E1 & Hh). set (s := State h _).
  rewrite (bind_Ret _ _ _ _ _ (zoom_Ret items_part _ s json h1 E1)). rewrite (proj2 (Z.eqb_neq json 0)) by (by apply document_root in Hh as [? _]).
  cbn [upd items_part file s]. set (s1 := State h1 _).
  rewrite (bind_Ret _ _ _ _ _ (zoom_Ret items_part _ s1 _ h1 (load_system_spec h1 json c Hh Hc))). cbn [upd items_part file s1].
  rewrite (bind_Ret _ _ _ _ _ (zoom_Ret items_part _ s1 _ h1 (load_database_spec h1 json c Hh Hc))). cbn [upd items_part file s1].
  rewrite (bind_Ret _ _ _ _ _ (zoom_Ret items_part _ s1 _ h1 (load_cache_spec h1 json c Hh Hc))). cbn [upd items_part file s1].
  rewrite (bind_Ret _ _ _ _ _ (zoom_Ret items_part _ s1 _ h1 (load_security_spec h1 json c Hh Hc))). cbn [upd items_part file s1].
  destruct (delete_law h1 json) as (h2 & E2). rewrite (bind_Ret _ _ _ _ _ (zoom_Ret items_part _ s1 _ h2 E2)). eexists. reflexivity.
Qed.

(** *** Writing *)
Lemma fields_ok c : config_ok c -> Forall (fun s => Forall (fun f => field_ok (snd f)) (snd s)) (config_sections c).
Proof.
  intros [((_ & ?) & _ & (_ & ?) & (_ & ?)) ((_ & ?) & _ & (_ & ?) & (_ & ?) & (_ & ?) & _) ((_ & ?) & _) ((_ & ?) & (_ & ?) & (_ & ?))].
  repeat constructor; done.
Qed.
Lemma add_sections_spec h json c : view h json = Some (Object []) -> json <> 0 -> config_ok c ->
  exists h', add_sections ops json c h = Ret tt h' /\ document_at view h' json (doc_of (config_sections c)).
Proof using Hcj.
  intros Hj Hj0 Hc. pose proof (fields_ok c Hc) as Hf. unfold config_sections in Hf. rewrite !Forall_cons in Hf.
  destruct Hf as (F1 & F2 & F3 & F4 & _). cbn [snd] in *. unfold add_sections.
  destruct (root_section h json [] (str "system") _ ltac:(by split; [|exists []; split; [|constructor]]) F1) as (h1 & E1 & D1).
  destruct (root_section h1 json _ (str "database") _ D1 F2) as (h2 & E2 & D2).
  destruct (root_section h2 json _ (str "cache") _ D2 F3) as (h3 & E3 & D3).
  destruct (root_section h3 json _ (str "security") _ D3 F4) as (h4 & E4 & D4).
  exists h4. rewrite (bind_Ret _ _ _ _ _ E1), (bind_Ret _ _ _ _ _ E2), (bind_Ret _ _ _ _ _ E3). split; [exact E4|]. by apply root_document.
Qed.
Lemma save_config_any fopen_ok c h f : config_ok c -> exists h', save_config ops fopen_ok c (State h f)
  = if fopen_ok then Ret 0 (State h' (Some (file_of c))) else Ret (-1) (State h' f).
Proof using Hcj.
  intros Hc. unfold save_config. destruct (create_law h) as (json & h1 & E1 & Hj0 & _ & Hj & _). set (s := State h f).
  rewrite (bind_Ret _ _ _ _ _ (zoom_Ret items_part _ s json h1 E1)). rewrite (proj2 (Z.eqb_neq json 0)) by done. set (s1 := upd items_part h1 s).
  destruct (add_sections_spec h1 json c Hj Hj0 Hc) as (h2 & E2 & Hh). rewrite (bind_Ret _ _ _ _ _ (zoom_Ret items_part _ s1 _ h2 E2)).
  set (s2 := upd items_part h2 s1). destruct (print_law h2 json _ Hh) as (h3 & E3). rewrite (bind_Ret _ _ _ _ _ (zoom_Ret items_part _ s2 _ h3 E3)).
  set (s3 := upd items_part h3 s2). destruct (delete_law h3 json) as (h4 & E4). rewrite (bind_Ret _ _ _ _ _ (zoom_Ret items_part _ s3 _ h4 E4)).
  exists h4. by destruct fopen_ok.
Qed.
Lemma save_config_spec c h f : config_ok c -> exists h', save_config ops true c (State h f) = Ret 0 (State h' (Some (file_of c))).
Proof using Hcj. apply (save_config_any true). Qed.
End Facts.

Lemma clean_ok n a : holds_text n a -> holds_text n (clean a) /\ clean a !! (n - 1)%nat = Some 0.
Proof.
  intros [Hl Hz]. pose proof (text_of_length a Hz) as Ht. unfold clean, zeros, holds_text.
  assert (Hlast : (text_of a ++ replicate (length a - length (text_of a)) 0) !! (n - 1)%nat = Some 0).
  { rewrite lookup_app_r by lia. apply lookup_replicate. split; [done|]. lia. }
  split_and!; [rewrite length_app, length_replicate; lia| |exact Hlast]. by eapply list_elem_of_lookup_2.
Qed.
Lemma canonical_ok c : config_ok c -> config_ok (canonical c) /\ hostname (system (canonical c)) !! 63%nat = Some 0.
Proof.
  intros [(H1 & ? & ? & ?) (? & ? & ? & ? & ? & ?) (? & ? & ? & ?) (? & ? & ?)]. split; [|exact (proj2 (clean_ok 64 _ H1))].
  split; cbn [canonical system db cache security hostname s_port log_level log_file d_host d_port username password database max_connections
    c_host c_port timeout max_memory cert_file key_file ca_file]; split_and!; try assumption; try lia; by apply clean_ok.
Qed.
(** Every array ends in a terminator that [strncpy] leaves. *)
Lemma update_ok c : config_ok c -> hostname (system c) !! 63%nat = Some 0 -> config_ok (update c).
Proof.
  intros [(H1 & ? & ? & ?) (? & ? & ? & ? & ? & ?) (? & ? & ? & ?) (? & ? & ?)] Hlast. unfold int_ok in *. split; cbn; unfold int_ok; split_and!; try done; try lia.
  apply strncpy_holds; [done|lia|]. intros i ? ?. by assert (i = 63%nat) as -> by lia.
Qed.

(** ** Properties *)


(** ** Operations that keep the promise

    A heap that is a finite map; the text of a document is its number. *)
#[export] Instance leaf_eq_dec : EqDecision leaf.
Proof. solve_decision. Defined.
Definition leaf_sum (l : leaf) : list Z + (Z + bool) :=
  match l with LString s => inl s | LNumber n => inr (inl n) | LBool b => inr (inr b) end.
Definition sum_leaf (x : list Z + (Z + bool)) : leaf :=
  match x with inl s => LString s | inr (inl n) => LNumber n | inr (inr b) => LBool b end.
#[export] Instance leaf_countable : Countable leaf.
Proof. apply (inj_countable' leaf_sum sum_leaf). by intros []. Defined.

Abbreviation item_map := (gmap Z item).
Definition new_item (h : item_map) : Z := fresh (A := Z) (C := gset Z) ({[0]} ∪ dom h).
Definition add_new (h : item_map) (o : Z) (n : list Z) (l : leaf) : prog item_map unit :=
  match h !! o with
  | Some (Object fs) => Ret tt (<[o := Object (fs ++ [(n, new_item h)])]> (<[new_item h := Leaf l]> h))
  | _ => Ret tt h
  end.
Definition read_values (h : item_map) (p : Z) : values :=
  match h !! p with
  | Some (Object ps) => (fun q => (fst q, match h !! snd q with Some (Leaf l) => l | _ => LBool false end)) <$> ps
  | _ => []
  end.
Definition read_document (h : item_map) (p : Z) : document :=
  match h !! p with Some (Object ps) => (fun q => (fst q, read_values h (snd q))) <$> ps | _ => [] end.
Fixpoint alloc_values (vs : values) (h : item_map) : list (list Z * Z) * item_map :=
  match vs with
  | [] => ([], h)
  | (n, l) :: vs => let '(ps, h') := alloc_values vs (<[new_item h := Leaf l]> h) in ((n, new_item h) :: ps, h')
  end.
Fixpoint alloc_sections (d : document) (h : item_map) : list (list Z * Z) * item_map :=
  match d with
  | [] => ([], h)
  | (n, vs) :: d =>
      let '(ps, h1) := alloc_values vs h in
      let '(qs, h2) := alloc_sections d (<[new_item h1 := Object ps]> h1) in ((n, new_item h1) :: qs, h2)
  end.
Definition alloc_document (d : document) (h : item_map) : prog item_map Z :=
  let '(ps, h1) := alloc_sections d h in Ret (new_item h1) (<[new_item h1 := Object ps]> h1).
Definition number_text (d : document) : list Z := [Zpos (encode d)].
Definition map_json : cjson_ops item_map := {|
  cJSON_Parse := fun t h => match t with Zpos p :: _ => match decode p with Some d => alloc_document d h | None => Ret 0 h end | _ => Ret 0 h end;
  cJSON_Print := fun p h => Ret (Some (number_text (read_document h p))) h;
  cJSON_Delete := fun _ => ret tt;
  cJSON_CreateObject := fun h => Ret (new_item h) (<[new_item h := Object []]> h);
  cJSON_AddItemToObject := fun o n q h =>
    match h !! o with Some (Object fs) => Ret tt (<[o := Object (fs ++ [(n, q)])]> h) | _ => Ret tt h end;
  cJSON_AddStringToObject := fun o n s h => add_new h o n (LString s);
  cJSON_AddNumberToObject := fun o n z h => add_new h o n (LNumber z);
  cJSON_AddBoolToObject := fun o n b h => add_new h o n (LBool b);
  cJSON_GetObjectItem := fun o n h => match h !! o with Some (Object fs) => Ret (or_null (find_name n fs)) h | _ => Ret 0 h end;
  valuestring := fun p h => match h !! p with Some (Leaf (LString s)) => Ret (Some s) h | _ => Ret None h end;
  valueint := fun p h => match h !! p with Some (Leaf (LNumber z)) => Ret z h | Some (Leaf (LBool b)) => Ret (if b then 1 else 0) h | _ => Ret 0 h end |}.
Definition map_view (h : item_map) (p : Z) : option item := h !! p.

Lemma new_item_spec h : new_item h <> 0 /\ h !! new_item h = None.
Proof.
  assert (Hf : new_item h ∉ ({[0]} ∪ dom h : gset Z)) by (unfold new_item; apply is_fresh).
  split; [set_solver|]. apply not_elem_of_dom. set_solver.
Qed.
Lemma insert_new_item h x : h ⊆ <[new_item h := x]> h.
Proof. apply insert_subseteq, new_item_spec. Qed.
Lemma values_mono (h h' : item_map) ps vs : h ⊆ h' -> fields_at map_view h ps vs -> fields_at map_view h' ps vs.
Proof. intros Hs Hl. eapply Forall2_impl; [exact Hl|]. intros q f (? & ? & Hv). split_and!; [done|done|]. exact (lookup_weaken _ _ _ _ Hv Hs). Qed.
Lemma alloc_values_spec vs : forall h ps h', alloc_values vs h = (ps, h') -> h ⊆ h' /\ fields_at map_view h' ps vs.
Proof.
  induction vs as [|[n l] vs IH]; intros h ps h' E; cbn in E; [injection E as <- <-; split; [done|constructor]|].
  destruct (alloc_values vs _) as [qs h1] eqn:E1. injection E as <- <-. destruct (IH _ _ _ E1) as [Hs Hl].
  split; [by etrans; [apply insert_new_item|]|]. constructor; [|done]. cbn [fst snd]. split_and!; [done|apply new_item_spec|].
  eapply lookup_weaken; [|exact Hs]. apply lookup_insert_eq.
Qed.
Lemma alloc_sections_spec d : forall h ps h', alloc_sections d h = (ps, h') -> h ⊆ h' /\
  Forall2 (fun q s => fst q = fst s /\ values_at map_view h' (snd q) (snd s)) ps d.
Proof.
  induction d as [|[n vs] d IH]; intros h ps h' E; cbn in E; [injection E as <- <-; split; [done|constructor]|].
  destruct (alloc_values vs h) as [ls h1] eqn:E1. destruct (alloc_sections d _) as [qs h2] eqn:E2. injection E as <- <-.
  destruct (alloc_values_spec _ _ _ _ E1) as [Hs1 Hl]. destruct (IH _ _ _ E2) as [Hs2 Hq].
  assert (Hs : h1 ⊆ h2) by (by etrans; [apply insert_new_item|]). split; [by etrans|]. constructor; [|done]. cbn [fst snd].
  split; [done|]. split; [apply new_item_spec|]. exists ls. split; [|by eapply values_mono]. eapply lookup_weaken; [|exact Hs2]. apply lookup_insert_eq.
Qed.

Lemma read_values_at h p vs : values_at map_view h p vs -> read_values h p = vs.
Proof.
  intros (_ & ps & Hp & Hl). unfold read_values, map_view in *. rewrite Hp. clear Hp.
  induction Hl as [|[m q] [n l] ps vs (Hn & _ & Hq) _ IH]; [done|]. rewrite fmap_cons. cbn [fst snd] in *. by rewrite Hq, IH, Hn.
Qed.
Lemma add_new_law h o n l fs : map_view h o = Some (Object fs) ->
  exists q h', add_new h o n l = Ret tt h' /\ q <> 0 /\ map_view h q = None /\ appended map_view h h' o n q fs /\ map_view h' q = Some (Leaf l).
Proof.
  unfold map_view, add_new, appended. intros Ho. destruct (new_item_spec h) as [H0 Hn]. rewrite Ho. eexists (new_item h), _.
  assert (new_item h <> o) by (intros E; congruence).
  split; [done|]. split; [done|]. split; [done|]. split; [split; [apply lookup_insert_eq|]|].
  - intros r Hr Hq. by rewrite !lookup_insert_ne.
  - by rewrite lookup_insert_ne, lookup_insert_eq.
Qed.
#[export] Instance map_cjson : Cjson map_json map_view number_text.
Proof.
  split; cbn [map_json cJSON_Parse cJSON_Print cJSON_Delete cJSON_CreateObject cJSON_AddItemToObject cJSON_AddStringToObject
    cJSON_AddNumberToObject cJSON_AddBoolToObject cJSON_GetObjectItem valuestring valueint].
  - intros h. destruct (new_item_spec h) as [H0 Hn]. eexists _, _. split_and!; [done|done|done|apply lookup_insert_eq|].
    intros r Hr. by apply lookup_insert_ne.
  - unfold map_view. intros h o n q fs x Ho Hq Hne. rewrite Ho. eexists. split; [done|]. unfold appended, map_view.
    split; [split; [apply lookup_insert_eq|intros r Hr _; by apply lookup_insert_ne]|by rewrite lookup_insert_ne].
  - intros. by apply add_new_law.
  - intros. by apply add_new_law.
  - intros. by apply add_new_law.
  - unfold map_view. intros h o n fs ->. done.
  - unfold map_view. intros h p l ->. by destruct l.
  - unfold map_view. intros h p l ->. by destruct l.
  - intros h p d (_ & ps & Hp & Hl). exists h. do 2 f_equal. f_equal. unfold read_document, map_view in *. rewrite Hp. clear Hp.
    induction Hl as [|[m q] [n vs] ps d (Hn & Hq) _ IH]; [done|]. rewrite fmap_cons. cbn [fst snd] in *.
    by rewrite (read_values_at h q vs Hq), IH, Hn.
  - intros h d. cbn [number_text app]. rewrite decode_encode. unfold alloc_document. destruct (alloc_sections d h) as [ps h1] eqn:E1.
    destruct (alloc_sections_spec _ _ _ _ E1) as [_ Hl]. eexists _, _. split; [done|]. split; [apply new_item_spec|].
    exists ps. split; [apply lookup_insert_eq|]. eapply Forall2_impl; [exact Hl|]. intros q s (? & ? & qs & Hq & Hvs). split; [done|].
    split; [done|]. exists qs. split; [by eapply lookup_weaken; [|apply insert_new_item]|]. by eapply values_mono; [apply insert_new_item|].
  - intros d. unfold plain, number_text. intros Hd%list_elem_of_singleton. done.
  - intros h p. by eexists.
Qed.

(** The configuration that [calloc] gives, with a name and a limit. *)
Definition some_config : config_t :=
  Config (System (str "box" ++ zeros 61) 80 (zeros 16) (zeros 256)) (db zero_config) (Cache (zeros 64) 0 0 1048576) (security zero_config).
Lemma zeros_text n : (0 < n)%nat -> holds_text n (zeros n).
Proof. intros Hn. unfold zeros. split; [by rewrite length_replicate|]. apply elem_of_replicate. split; [done|lia]. Qed.
