(* ===== verification/MqttNet.v ===== *)
(** * MqttNet

    src/src/mqtt_network.c: the connection to a broker, plain or over TLS.  Sockets and
    OpenSSL are the system's: what they answer is an argument, and what is asked of them is
    kept as a list of calls, which shows what has been taken and given back. *)
From S2P Require Import Prelude.

(** ** Data *)
Definition MQTT_OK : Z := 0.
Definition MQTT_ERR_NO_CONN : Z := -4.
Definition MQTT_ERR_CONN_LOST : Z := -7.
Definition MQTT_ERR_TLS : Z := -8.
Definition MQTT_ERR_UNKNOWN : Z := -13.
Definition MQTT_ERR_TIMEOUT : Z := -14.

(** A pointer to a TLS object is its number, 0 is NULL. *)
Record network_t : Type := Network { socket : Z; ssl : Z; ssl_ctx : Z; use_ssl : bool }.
Definition set_socket (v : Z) (n : network_t) : network_t := Network v (ssl n) (ssl_ctx n) (use_ssl n).
Definition set_ssl (v : Z) (n : network_t) : network_t := Network (socket n) v (ssl_ctx n) (use_ssl n).
Definition set_ssl_ctx (v : Z) (n : network_t) : network_t := Network (socket n) (ssl n) v (use_ssl n).
Definition set_use_ssl (v : bool) (n : network_t) : network_t := Network (socket n) (ssl n) (ssl_ctx n) v.

Inductive call : Type :=
| Opened (fd : Z) | Closed (fd : Z) | CtxMade (c : Z) | CtxFreed (c : Z) | SslMade (s : Z) | SslShut (s : Z) | SslFreed (s : Z)
| NetFreed.
(** The context and the calls made. *)
Record state : Type := State { net : network_t; calls : list call }.
Definition on_net (f : network_t -> network_t) : Cmd state unit := modify (fun s => State (f (net s)) (calls s)).
Definition sys (c : call) : Cmd state unit := modify (fun s => State (net s) (calls s ++ [c])).

(** The fields of [mqtt_config_t] that matter here: which files are named. *)
Record mqtt_config_t : Type := MqttConfig { cfg_use_ssl : bool; ca_cert : bool; client_cert : bool; client_key : bool }.
(** What [socket] and [connect] answer for an address. *)
Record address : Type := Address { socket_result : Z; connect_result : Z }.
(** What OpenSSL answers. *)
Record tls_answers : Type := TlsAnswers {
  a_ctx_new : Z; a_load_ca : bool; a_use_cert : bool; a_use_key : bool; a_check_key : bool; a_ssl_new : Z; a_ssl_connect : Z }.

(** ** Operations *)
(** [network_new]: [calloc]. *)
Definition network_new (calloc_ok : bool) : option network_t :=
  if calloc_ok then Some (Network 0 0 0 false) else None.

Definition network_destroy : Cmd state unit :=
  let* s := get in
  let n := net s in
  (if negb (ssl n =? 0) then sys (SslShut (ssl n)) ;;; sys (SslFreed (ssl n)) else ret tt) ;;;
  (if negb (ssl_ctx n =? 0) then sys (CtxFreed (ssl_ctx n)) else ret tt) ;;;
  (if 0 <=? socket n then sys (Closed (socket n)) else ret tt) ;;;
  sys NetFreed.

(** The loop over the addresses; [result] is [ret]. *)
Fixpoint try_addresses (l : list address) (result : Z) : Cmd state Z :=
  match l with
  | [] => ret result
  | a :: l =>
      on_net (set_socket (socket_result a)) ;;;
      if socket_result a <? 0 then try_addresses l MQTT_ERR_NO_CONN else
      sys (Opened (socket_result a)) ;;;
      if connect_result a =? 0 then ret MQTT_OK else
      sys (Closed (socket_result a)) ;;;
      on_net (set_socket (-1)) ;;;
      try_addresses l result
  end.
(** The part under [config->use_ssl]. *)
Definition setup_tls (config : mqtt_config_t) (t : tls_answers) : Cmd state Z :=
  on_net (set_use_ssl true) ;;;
  on_net (set_ssl_ctx (a_ctx_new t)) ;;;
  if a_ctx_new t =? 0 then ret MQTT_ERR_TLS else
  sys (CtxMade (a_ctx_new t)) ;;;
  if ca_cert config && negb (a_load_ca t) then ret MQTT_ERR_TLS else
  if client_cert config && client_key config && (negb (a_use_cert t) || negb (a_use_key t) || negb (a_check_key t)) then ret MQTT_ERR_TLS else
  on_net (set_ssl (a_ssl_new t)) ;;;
  if a_ssl_new t =? 0 then ret MQTT_ERR_TLS else
  sys (SslMade (a_ssl_new t)) ;;;
  if negb (a_ssl_connect t =? 1) then ret MQTT_ERR_TLS else ret MQTT_OK.
(** [addresses]: what [getaddrinfo] answers, [None] for an error. *)
Definition network_connect (addresses : option (list address)) (config : mqtt_config_t) (t : tls_answers) : Cmd state Z :=
  match addresses with
  | None => ret MQTT_ERR_NO_CONN
  | Some l =>
      let* r := try_addresses l MQTT_ERR_NO_CONN in
      if negb (r =? MQTT_OK) then ret r else
      if cfg_use_ssl config then setup_tls config t else ret MQTT_OK
  end.

(** [network_read] and [network_write] in one: [select_result], and what the transfer
    answers, over TLS or not. *)
Definition transfer (select_result ssl_result plain_result : Z) : Cmd state Z :=
  if select_result <? 0 then ret MQTT_ERR_UNKNOWN else
  if select_result =? 0 then ret MQTT_ERR_TIMEOUT else
  let* s := get in
  let rc := if use_ssl (net s) then ssl_result else plain_result in
  if rc <? 0 then ret MQTT_ERR_CONN_LOST else ret rc.
Definition network_read (select_result ssl_read recv : Z) : Cmd state Z := transfer select_result ssl_read recv.
Definition network_write (select_result ssl_write send : Z) : Cmd state Z := transfer select_result ssl_write send.

(** ** What a connection holds *)
(** Taken and not given back, of sockets, contexts and connections of TLS. *)
Fixpoint give_back (x : Z) (l : list Z) : list Z :=
  match l with [] => [] | y :: l => if y =? x then l else y :: give_back x l end.
Record held : Type := Held { sockets : list Z; ctxs : list Z; ssls : list Z; strays : list Z }.
(** [strays]: descriptors closed that were not open here. *)
Definition after (c : call) (h : held) : held :=
  match c with
  | Opened fd => Held (sockets h ++ [fd]) (ctxs h) (ssls h) (strays h)
  | Closed fd => if decide (fd ∈ sockets h) then Held (give_back fd (sockets h)) (ctxs h) (ssls h) (strays h)
                 else Held (sockets h) (ctxs h) (ssls h) (strays h ++ [fd])
  | CtxMade c => Held (sockets h) (ctxs h ++ [c]) (ssls h) (strays h)
  | CtxFreed c => Held (sockets h) (give_back c (ctxs h)) (ssls h) (strays h)
  | SslMade s => Held (sockets h) (ctxs h) (ssls h ++ [s]) (strays h)
  | SslFreed s => Held (sockets h) (ctxs h) (give_back s (ssls h)) (strays h)
  | SslShut _ | NetFreed => h
  end.
Definition holding (l : list call) : held := foldl (fun h c => after c h) (Held [] [] [] []) l.
Definition nothing : held := Held [] [] [] [].

(** The addresses that lead to a connection, and the TLS answers that complete it. *)
Definition reachable (a : address) : bool := (0 <=? socket_result a) && (connect_result a =? 0).
Definition tls_ok (config : mqtt_config_t) (t : tls_answers) : bool :=
  negb (a_ctx_new t =? 0) && negb (ca_cert config && negb (a_load_ca t)) &&
  negb (client_cert config && client_key config && (negb (a_use_cert t) || negb (a_use_key t) || negb (a_check_key t))) &&
  negb (a_ssl_new t =? 0) && (a_ssl_connect t =? 1).
Definition connect_spec (addresses : option (list address)) (config : mqtt_config_t) (t : tls_answers) : Z :=
  match addresses with
  | None => MQTT_ERR_NO_CONN
  | Some l =>
      if existsb reachable l then if cfg_use_ssl config && negb (tls_ok config t) then MQTT_ERR_TLS else MQTT_OK
      else MQTT_ERR_NO_CONN
  end.

Definition no_address (addresses : option (list address)) : bool :=
  match addresses with None | Some [] => true | Some _ => false end.

(** ** Facts *)
Lemma holding_snoc l c : holding (l ++ [c]) = after c (holding l).
Proof. unfold holding. by rewrite foldl_app. Qed.
Lemma open_close fd : after (Closed fd) (after (Opened fd) nothing) = nothing.
Proof. cbn. rewrite decide_True by (by left). by rewrite Z.eqb_refl. Qed.

Lemma try_addresses_spec l : forall n cs, holding cs = nothing ->
  exists n' cs', try_addresses l MQTT_ERR_NO_CONN (State n cs) = Ret (if existsb reachable l then MQTT_OK else MQTT_ERR_NO_CONN) (State n' cs') /\
    ssl n' = ssl n /\ ssl_ctx n' = ssl_ctx n /\ use_ssl n' = use_ssl n /\
    if existsb reachable l then 0 <= socket n' /\ holding cs' = Held [socket n'] [] [] []
    else holding cs' = nothing /\ (if decide (l = []) then n' = n else socket n' < 0).
Proof.
  induction l as [|a l IH]; intros n cs Hcs; cbn [try_addresses existsb]; [by exists n, cs|].
  erewrite (bind_Ret (on_net _)) by reflexivity. cbn [net calls]. unfold reachable at 1 3. destruct (Z.ltb_spec (socket_result a) 0) as [Hlt|Hge].
  - rewrite (proj2 (Z.leb_gt _ _)) by done. cbn [andb orb].
    destruct (IH (set_socket (socket_result a) n) cs Hcs) as (n' & cs' & E & ? & ? & ? & H). exists n', cs'. split_and!; [done..|].
    destruct (existsb reachable l); [done|]. destruct H as [Ha Hb]. split; [done|]. rewrite decide_False by done. destruct (decide (l = [])); [by subst n'|done].
  - rewrite (proj2 (Z.leb_le _ _)) by done. cbn [andb orb]. erewrite (bind_Ret (sys _)) by reflexivity. cbn [net calls].
    destruct (Z.eqb_spec (connect_result a) 0) as [Hc|Hc]; cbn [orb].
    + eexists _, _. split_and!; [reflexivity|done..|]. cbn [socket set_socket]. rewrite holding_snoc, Hcs. done.
    + erewrite (bind_Ret (sys _)) by reflexivity. erewrite (bind_Ret (on_net _)) by reflexivity. cbn [net calls].
      assert (Hcs' : holding ((cs ++ [Opened (socket_result a)]) ++ [Closed (socket_result a)]) = nothing).
      { rewrite !holding_snoc, Hcs. apply open_close. }
      destruct (IH (set_socket (-1) (set_socket (socket_result a) n)) _ Hcs') as (n' & cs' & E & ? & ? & ? & H). exists n', cs'. split_and!; [done..|].
      destruct (existsb reachable l); [done|]. destruct H as [Ha Hb]. split; [done|]. rewrite decide_False by done. destruct (decide (l = [])); [by subst n'|done].
Qed.

(** What the context owns is what is held. *)
Definition some_ptr (p : Z) : list Z := if p =? 0 then [] else [p].
Definition owns (n : network_t) (h : held) : Prop := h = Held [socket n] (some_ptr (ssl_ctx n)) (some_ptr (ssl n)) [].
Lemma setup_tls_spec config t n cs : ssl n = 0 -> ssl_ctx n = 0 -> owns n (holding cs) ->
  exists n' cs', setup_tls config t (State n cs) = Ret (if tls_ok config t then MQTT_OK else MQTT_ERR_TLS) (State n' cs') /\
    owns n' (holding cs') /\ socket n' = socket n /\ use_ssl n' = true.
Proof.
  unfold owns. intros Hs Hc Ho. unfold setup_tls, tls_ok. erewrite (bind_Ret (on_net _)) by reflexivity. erewrite (bind_Ret (on_net _)) by reflexivity.
  cbn [net calls]. rewrite Hs, Hc in Ho. destruct (Z.eqb_spec (a_ctx_new t) 0) as [E0|E0]; cbn [negb andb].
  { eexists _, _. split; [reflexivity|]. cbn. by rewrite E0, Hs. }
  erewrite (bind_Ret (sys _)) by reflexivity. cbn [net calls].
  assert (Hctx : holding (cs ++ [CtxMade (a_ctx_new t)]) = Held [socket n] (some_ptr (a_ctx_new t)) [] []).
  { rewrite holding_snoc, Ho. cbn. unfold some_ptr. by rewrite (proj2 (Z.eqb_neq _ _) E0). }
  destruct (ca_cert config && negb (a_load_ca t)); cbn [negb andb].
  { eexists _, _. split; [reflexivity|]. cbn. by rewrite Hctx, Hs. }
  destruct (client_cert config && client_key config && _); cbn [negb andb].
  { eexists _, _. split; [reflexivity|]. cbn. by rewrite Hctx, Hs. }
  erewrite (bind_Ret (on_net _)) by reflexivity. cbn [net calls]. destruct (Z.eqb_spec (a_ssl_new t) 0) as [E1|E1]; cbn [negb andb].
  { eexists _, _. split; [reflexivity|]. cbn. by rewrite Hctx, E1. }
  erewrite (bind_Ret (sys _)) by reflexivity. cbn [net calls].
  assert (Hssl : holding ((cs ++ [CtxMade (a_ctx_new t)]) ++ [SslMade (a_ssl_new t)])
    = Held [socket n] (some_ptr (a_ctx_new t)) (some_ptr (a_ssl_new t)) []).
  { rewrite holding_snoc, Hctx. cbn. unfold some_ptr. by rewrite (proj2 (Z.eqb_neq _ _) E1). }
  destruct (a_ssl_connect t =? 1); cbn [negb]; (eexists _, _; split; [reflexivity|]; cbn [net calls set_ssl set_ssl_ctx set_use_ssl socket ssl ssl_ctx use_ssl]; by rewrite Hssl).
Qed.

(** [network_destroy] gives everything back. *)
Lemma destroy_spec n cs : (holding cs = nothing /\ socket n < 0 /\ ssl n = 0 /\ ssl_ctx n = 0) \/ (owns n (holding cs) /\ 0 <= socket n) ->
  exists cs', network_destroy (State n cs) = Ret tt (State n cs') /\ holding cs' = nothing /\ last cs' = Some NetFreed.
Proof.
  intros H. unfold network_destroy. erewrite (bind_Ret get) by reflexivity. cbn [net].
  set (ssl_calls := if ssl n =? 0 then [] else [SslShut (ssl n); SslFreed (ssl n)]).
  set (ctx_calls := if ssl_ctx n =? 0 then [] else [CtxFreed (ssl_ctx n)]).
  set (fd_calls := if 0 <=? socket n then [Closed (socket n)] else []).
  exists ((((cs ++ ssl_calls) ++ ctx_calls) ++ fd_calls) ++ [NetFreed]). split_and!.
  - rewrite (bind_Ret _ _ _ tt (State n (cs ++ ssl_calls))).
    2:{ unfold ssl_calls. destruct (ssl n =? 0); cbn; [by rewrite app_nil_r|]. unfold bind, sys, modify. cbn. by rewrite <- app_assoc. }
    rewrite (bind_Ret _ _ _ tt (State n ((cs ++ ssl_calls) ++ ctx_calls))).
    2:{ unfold ctx_calls. destruct (ssl_ctx n =? 0); cbn; [by rewrite app_nil_r|done]. }
    rewrite (bind_Ret _ _ _ tt (State n (((cs ++ ssl_calls) ++ ctx_calls) ++ fd_calls))); [done|].
    unfold fd_calls. destruct (0 <=? socket n); [done|]. by rewrite app_nil_r.
  - rewrite holding_snoc. cbn [after]. unfold holding. rewrite !foldl_app. fold (holding cs). destruct H as [(Hh & Hs & H1 & H2)|[Ho Hs]].
    + unfold ssl_calls, ctx_calls, fd_calls. rewrite H1, H2, (proj2 (Z.leb_gt _ _)) by done. exact Hh.
    + rewrite Ho. unfold ssl_calls, ctx_calls, fd_calls, some_ptr. rewrite (proj2 (Z.leb_le _ _)) by done.
      destruct (ssl n =? 0), (ssl_ctx n =? 0); cbn; rewrite ?Z.eqb_refl; cbn; rewrite decide_True by (by left); by rewrite ?Z.eqb_refl.
  - apply last_snoc.
Qed.

(** ** Properties *)


