(* ===== verification/Fat.v ===== *)
(** * Fat

    src/src/ff.c: mounting, opening and closing files of a FAT volume, and src/src/diskio.c: the
    drives below it.  What ff.c calls and the sources do not define (the volume and directory
    functions, [f_sync]) are the operations [fat_ops]; the drivers of the drives are
    [driver]s.  The constants of the directory entry and FF_VOLUMES are not defined either. *)
From S2P Require Import Prelude.

(** ** Results and modes *)
Definition FR_OK : Z := 0.
Definition FR_NO_FILE : Z := 4.
Definition FR_EXIST : Z := 8.
Definition FR_INVALID_OBJECT : Z := 9.
Definition FR_INVALID_DRIVE : Z := 11.
Definition FA_CREATE_NEW : Z := 4.
Definition FA_CREATE_ALWAYS : Z := 8.
Definition FA_OPEN_ALWAYS : Z := 16.
Definition AM_DIR : Z := 16.
(** [x & mask]. *)
Definition has (x mask : Z) : bool := negb (Z.land x mask =? 0).

(** ** Data *)
(** The entry that [dj.dir] points to, and the name that is looked for. *)
Record DIR : Type := Dir { fn : list Z; dir : list Z }.
Record FIL : Type := Fil { o_fs : option Z; sclust : Z; fsize : Z; fptr : Z; flag : Z; err : Z; sect : Z }.
Record FATFS : Type := Fatfs { fs_type : Z; fs_id : Z }.

(** The functions that ff.c calls, on a disk [D]; the volume that [find_volume] gives is a
    number. *)
Record fat_ops (D : Type) : Type := FatOps {
  mount_volume : list Z -> Z -> Cmd D Z;
  unmount_volume : Z -> Cmd D Z;
  find_volume : list Z -> Z -> Cmd D (Z * list Z * Z);
  follow_path : list Z -> Cmd D (Z * DIR);
  dir_register : DIR -> Cmd D (Z * DIR);
  dir_update : FIL -> Cmd D Z;
  f_sync : FIL -> Cmd D Z
}.
Arguments mount_volume {D} f.
Arguments unmount_volume {D} f.
Arguments find_volume {D} f.
Arguments follow_path {D} f.
Arguments dir_register {D} f.
Arguments dir_update {D} f.
Arguments f_sync {D} f.

(** The disk, the file object, the volumes whose [wflag] is set, the file system object
    and [FsID]. *)
Record fat (D : Type) : Type := Fat { disk : D; fil : FIL; wflags : gset Z; fatfs : FATFS; FsID : Z }.
Arguments Fat {D} disk fil wflags fatfs FsID.
Arguments disk {D} f.
Arguments fil {D} f.
Arguments wflags {D} f.
Arguments fatfs {D} f.
Arguments FsID {D} f.
Definition disk_part {D} : lens (fat D) D.
Proof. refine (Lens disk (fun d s => Fat d (fil s) (wflags s) (fatfs s) (FsID s)) _ _ _); [done|by intros []|done]. Defined.

Section Operations.
Context {D : Type} (ops : fat_ops D) (FF_VOLUMES DIR_Attr DIR_FileSize FA_MODIFIED : Z).
(** [ld_clust] on an entry, [ld_dword] on the bytes from an offset. *)
Context (ld_clust ld_dword : list Z -> Z).

Definition set_fil (f : FIL) : Cmd (fat D) unit := modify (fun s => Fat (disk s) f (wflags s) (fatfs s) (FsID s)).
Definition set_fatfs (f : FATFS) : Cmd (fat D) unit := modify (fun s => Fat (disk s) (fil s) (wflags s) f (FsID s)).
Definition set_wflag (v : Z) : Cmd (fat D) unit := modify (fun s => Fat (disk s) (fil s) ({[v]} ∪ wflags s) (fatfs s) (FsID s)).
(** [fs->id = ++FsID]. *)
Definition new_id : Cmd (fat D) unit :=
  modify (fun s => let i := u16 (FsID s + 1) in Fat (disk s) (fil s) (wflags s) (Fatfs (fs_type (fatfs s)) i) i).

(** [fs_ok]: [fs] is not NULL.  [path] is a C string. *)
Definition f_mount (fs_ok : bool) (path : list Z) (opt : Z) : Cmd (fat D) Z :=
  let* c := deref (head path) in
  let vol := u8 (c - 48) in
  if FF_VOLUMES <=? vol then ret FR_INVALID_DRIVE else
  if fs_ok then
    let* s := get in
    set_fatfs (Fatfs 0 (fs_id (fatfs s))) ;;;
    let* res := zoom disk_part (mount_volume ops path opt) in
    (if res =? FR_OK then new_id else ret tt) ;;;
    ret res
  else zoom disk_part (unmount_volume ops vol).

(** [dir_register (&dj)]. *)
Definition register (dj : DIR) : Cmd (fat D) (Z * DIR) := zoom disk_part (dir_register ops dj).
(** The part for [mode & (FA_CREATE_ALWAYS | FA_OPEN_ALWAYS | FA_CREATE_NEW)]: [res], the
    entry and the mode that it leaves. *)
Definition create (fs mode res : Z) (dj : DIR) : Cmd (fat D) (Z * DIR * Z) :=
  let* r := (if negb (res =? FR_OK) then
               let* r := (if res =? FR_NO_FILE then register dj else ret (res, dj)) in
               ret (r, Z.lor mode FA_CREATE_ALWAYS)
             else ret ((if has mode FA_CREATE_NEW then FR_EXIST else res), dj, mode)) in
  let '(res, dj, mode) := r in
  if (res =? FR_OK) && has mode FA_CREATE_ALWAYS then
    set_wflag fs ;;;
    let* r := register dj in
    ret (r, mode)
  else ret (res, dj, mode).
Definition f_open (fp_ok : bool) (path : list Z) (mode : Z) : Cmd (fat D) Z :=
  if negb fp_ok then ret FR_INVALID_OBJECT else
  let* v := zoom disk_part (find_volume ops path mode) in
  let '(res, path, fs) := v in
  if negb (res =? FR_OK) then ret res else
  let* r := zoom disk_part (follow_path ops path) in
  let* r := (if has mode (Z.lor FA_CREATE_ALWAYS (Z.lor FA_OPEN_ALWAYS FA_CREATE_NEW)) then create fs mode (fst r) (snd r)
             else ret (r, mode)) in
  let '(res, dj, mode) := r in
  if res =? FR_OK then
    let* attr := deref (dir dj !! Z.to_nat DIR_Attr) in
    if has attr AM_DIR then ret FR_NO_FILE else
    set_fil (Fil (Some fs) (ld_clust (dir dj)) (ld_dword (drop (Z.to_nat DIR_FileSize) (dir dj))) 0 mode 0 0) ;;;
    ret res
  else ret res.
Definition f_close (fp_ok : bool) : Cmd (fat D) Z :=
  if negb fp_ok then ret FR_INVALID_OBJECT else
  let* s := get in
  match o_fs (fil s) with
  | None => ret FR_INVALID_OBJECT
  | Some _ =>
      let* res := zoom disk_part (f_sync ops (fil s)) in
      if res =? FR_OK then
        let* res := (if has (flag (fil s)) FA_MODIFIED then zoom disk_part (dir_update ops (fil s)) else ret res) in
        let* s := get in
        let f := fil s in
        set_fil (Fil None (sclust f) (fsize f) (fptr f) (flag f) (err f) (sect f)) ;;;
        ret res
      else ret res
  end.
End Operations.

(** ** The drives

    diskio.c: the operations go to the driver of the drive. *)
Definition STA_NOINIT : Z := 1.
Definition DEV_RAM : Z := 0.
Definition DEV_MMC : Z := 1.
Definition DEV_USB : Z := 2.
Record driver (W : Type) : Type := Driver {
  d_initialize : Cmd W Z;
  d_status : Cmd W Z;
  d_read : Z -> Z -> Cmd W (Z * list Z);
  d_write : list Z -> Z -> Z -> Cmd W Z;
  d_ioctl : Z -> Cmd W Z
}.
Arguments d_initialize {W} d.
Arguments d_status {W} d.
Arguments d_read {W} d.
Arguments d_write {W} d.
Arguments d_ioctl {W} d.

Section Disk.
Context {W : Type} (RAM MMC USB : driver W) (RES_PARERR : Z).
Definition disk_initialize (pdrv : Z) : Cmd W Z :=
  if pdrv =? DEV_RAM then d_initialize RAM else if pdrv =? DEV_MMC then d_initialize MMC
  else if pdrv =? DEV_USB then d_initialize USB else ret STA_NOINIT.
Definition disk_status (pdrv : Z) : Cmd W Z :=
  if pdrv =? DEV_RAM then d_status RAM else if pdrv =? DEV_MMC then d_status MMC
  else if pdrv =? DEV_USB then d_status USB else ret STA_NOINIT.
(** The result and what is put into the buffer. *)
Definition disk_read (pdrv sector count : Z) : Cmd W (Z * list Z) :=
  if pdrv =? DEV_RAM then d_read RAM sector count else if pdrv =? DEV_MMC then d_read MMC sector count
  else if pdrv =? DEV_USB then d_read USB sector count else ret (RES_PARERR, []).
Definition disk_write (pdrv : Z) (buff : list Z) (sector count : Z) : Cmd W Z :=
  if pdrv =? DEV_RAM then d_write RAM buff sector count else if pdrv =? DEV_MMC then d_write MMC buff sector count
  else if pdrv =? DEV_USB then d_write USB buff sector count else ret RES_PARERR.
Definition disk_ioctl (pdrv cmd : Z) : Cmd W Z :=
  if pdrv =? DEV_RAM then d_ioctl RAM cmd else if pdrv =? DEV_MMC then d_ioctl MMC cmd
  else if pdrv =? DEV_USB then d_ioctl USB cmd else ret RES_PARERR.
End Disk.

(** ** What the directory functions promise

    [entries d]: the names in the directory, one for each entry. *)
Class FatDirectory {D : Type} (ops : fat_ops D) (entries : D -> list (list Z)) (DIR_Attr : Z) : Prop := {
  find_law path mode d : exists r p v d', find_volume ops path mode d = Ret (r, p, v) d' /\ entries d' = entries d;
  follow_law path d : exists r dj d', follow_path ops path d = Ret (r, dj) d' /\ entries d' = entries d /\ fn dj = path /\
    is_Some (dir dj !! Z.to_nat DIR_Attr) /\ (r = FR_OK -> path ∈ entries d) /\ (r = FR_NO_FILE -> path ∉ entries d);
  register_law dj d : exists r dj' d', dir_register ops dj d = Ret (r, dj') d' /\ fn dj' = fn dj /\
    is_Some (dir dj' !! Z.to_nat DIR_Attr) /\ entries d' = entries d ++ (if r =? FR_OK then [fn dj] else [])
}.

(** ** Facts *)
Lemma has_lor m b : 0 < b -> has (Z.lor m b) b = true.
Proof.
  intros Hb. unfold has. apply negb_true_iff, Z.eqb_neq. rewrite Z.land_lor_distr_l, Z.land_diag. intros [_ H]%Z.lor_eq_0_iff. lia.
Qed.
Definition creating (mode : Z) : bool := has mode (Z.lor FA_CREATE_ALWAYS (Z.lor FA_OPEN_ALWAYS FA_CREATE_NEW)).
(** How many entries a successful [f_open] adds. *)
Definition added (mode : Z) (exists_ : bool) : nat :=
  if creating mode then if exists_ then if has mode FA_CREATE_ALWAYS then 1 else 0 else 2 else 0.

Section Facts.
Context {D : Type} (ops : fat_ops D) (entries : D -> list (list Z)) (DIR_Attr : Z) {Hdir : FatDirectory ops entries DIR_Attr}.
Implicit Types (s : fat D) (dj : DIR).

Lemma register_spec dj s : is_Some (dir dj !! Z.to_nat DIR_Attr) ->
  exists r dj' s', register ops dj s = Ret (r, dj') s' /\ fn dj' = fn dj /\ is_Some (dir dj' !! Z.to_nat DIR_Attr) /\
    entries (disk s') = entries (disk s) ++ (if r =? FR_OK then [fn dj] else []) /\ fil s' = fil s.
Proof using Hdir.
  intros _. destruct (register_law dj (disk s)) as (r & dj' & d' & E & Hf & Ha & He). exists r, dj', (upd disk_part d' s).
  split_and!; [exact (zoom_Ret disk_part _ s _ _ E)|done..].
Qed.

(** What [create] adds: a name that is there already is added once more only with
    FA_CREATE_ALWAYS; a new one twice. *)
Lemma create_spec fs mode res dj s : is_Some (dir dj !! Z.to_nat DIR_Attr) ->
  exists r dj' mode' s' k, create ops fs mode res dj s = Ret (r, dj', mode') s' /\ is_Some (dir dj' !! Z.to_nat DIR_Attr) /\
    entries (disk s') = entries (disk s) ++ replicate k (fn dj) /\ fil s' = fil s /\ (k <= 2)%nat /\
    (res = FR_OK -> if has mode FA_CREATE_NEW then r = FR_EXIST /\ k = 0%nat else mode' = mode /\ (k <= 1)%nat) /\
    (r = FR_OK -> (res = FR_OK /\ k = if has mode FA_CREATE_ALWAYS then 1%nat else 0%nat) \/ (res = FR_NO_FILE /\ k = 2%nat)).
Proof using Hdir.
  intros Ha. unfold create. destruct (Z.eqb_spec res FR_OK) as [->|Hres]; cbn [negb].
  - erewrite (bind_Ret (ret _)) by reflexivity. destruct (has mode FA_CREATE_NEW).
    + exists FR_EXIST, dj, mode, s, 0%nat. cbn [replicate]. rewrite app_nil_r. split_and!; [done|done|done|done|lia|done|discriminate].
    + cbn [Z.eqb FR_OK andb]. destruct (has mode FA_CREATE_ALWAYS).
      * erewrite (bind_Ret (set_wflag _)) by reflexivity. set (s1 := Fat _ _ _ _ _).
        destruct (register_spec dj s1 Ha) as (r & dj' & s' & E & Hf & Ha' & He & Hfil). rewrite (bind_Ret _ _ _ _ _ E).
        exists r, dj', mode, s', (if r =? FR_OK then 1%nat else 0%nat). split_and!; [done|done| |done| | |].
        -- rewrite He. by destruct (r =? FR_OK).
        -- destruct (r =? FR_OK); lia.
        -- intros _. split; [done|]. destruct (r =? FR_OK); lia.
        -- intros ->. left. by rewrite Z.eqb_refl.
      * exists FR_OK, dj, mode, s, 0%nat. cbn [replicate]. rewrite app_nil_r. split_and!; [done|done|done|done|lia|intros _; split; [done|lia]|by left].
  - destruct (Z.eqb_spec res FR_NO_FILE) as [->|Hno].
    + destruct (register_spec dj s Ha) as (r & dj1 & s1 & E1 & Hf1 & Ha1 & He1 & Hfil1).
      erewrite bind_Ret by (rewrite (bind_Ret _ _ _ _ _ E1); reflexivity). cbv beta iota. destruct (Z.eqb_spec r FR_OK) as [->|Hr].
      * rewrite has_lor by done. cbn [andb Z.eqb FR_OK]. erewrite (bind_Ret (set_wflag _)) by reflexivity. set (s2 := Fat _ _ _ _ _).
        destruct (register_spec dj1 s2 Ha1) as (r & dj' & s' & E & Hf & Ha' & He & Hfil). rewrite (bind_Ret _ _ _ _ _ E).
        eexists r, dj', _, s', (if r =? FR_OK then 2%nat else 1%nat). split_and!; [reflexivity|done| |by rewrite Hfil| |by intros|].
        -- rewrite He. cbn [disk s2]. rewrite He1, Hf1, <- app_assoc. by destruct (r =? FR_OK).
        -- destruct (r =? FR_OK); lia.
        -- intros ->. right. by rewrite Z.eqb_refl.
      * cbn [andb]. exists r, dj1, (Z.lor mode FA_CREATE_ALWAYS), s1, 0%nat. split_and!; [done|done| |done|lia|by intros|done].
        by rewrite He1.
    + erewrite bind_Ret by (erewrite (bind_Ret (ret _)) by reflexivity; reflexivity). cbv beta iota. rewrite (proj2 (Z.eqb_neq _ _) Hres). cbn [andb].
      exists res, dj, (Z.lor mode FA_CREATE_ALWAYS), s, 0%nat. cbn [replicate]. rewrite app_nil_r. split_and!; [done|done|done|done|lia|done|done].
Qed.
End Facts.

Lemma f_close_once {D} (ops : fat_ops D) m (s s2 : fat D) : f_close ops m true s = Ret FR_OK s2 -> f_close ops m true s2 = Ret FR_INVALID_OBJECT s2.
Proof.
  intros H. unfold f_close in H. cbn [negb] in H. erewrite (bind_Ret get) in H by reflexivity. destruct (o_fs (fil s)); [|discriminate].
  apply bind_inv_Ret in H as (r & s1 & _ & H). destruct (Z.eqb_spec r FR_OK); [|by injection H].
  apply bind_inv_Ret in H as (r2 & s3 & _ & H). erewrite (bind_Ret get) in H by reflexivity. apply bind_inv_Ret in H as ([] & s4 & H4 & H).
  injection H4 as <-. by injection H as _ <-.
Qed.

Lemma f_mount_refused {D} (ops : fat_ops D) FF_VOLUMES fs_ok c rest opt (s : fat D) :
  0 < FF_VOLUMES <= 10 -> 0 <= c < 256 -> c < 48 \/ 48 + FF_VOLUMES <= c ->
  f_mount ops FF_VOLUMES fs_ok (c :: rest) opt s = Ret FR_INVALID_DRIVE s.
Proof.
  intros Hv Hc Hout. unfold f_mount. erewrite (bind_Ret (deref _)) by reflexivity.
  assert (FF_VOLUMES <= u8 (c - 48)) as Hu.
  { unfold u8, wrap. destruct Hout; [|rewrite Z.mod_small; lia]. rewrite <- (Z.mod_add (c - 48) 1) by lia. rewrite Z.mod_small; lia. }
  by rewrite (proj2 (Z.leb_le _ _) Hu).
Qed.

(** What [f_open] may answer from the state [s] on: [k] entries of the name [p] are added. *)
Definition open_result {D} (ops : fat_ops D) (entries : D -> list (list Z)) (FA_MODIFIED mode : Z) (s : fat D) (q : prog (fat D) Z) : Prop :=
  exists r s' k p, q = Ret r s' /\ entries (disk s') = entries (disk s) ++ replicate k p /\ (k <= 2)%nat /\
    (r = FR_OK -> k = added mode (bool_decide (p ∈ entries (disk s))) /\ o_fs (fil s') <> None /\ fptr (fil s') = 0 /\
       (creating mode = false -> p ∈ entries (disk s)) /\
       (has mode FA_CREATE_NEW = true -> p ∉ entries (disk s)) /\
       forall s2, f_close ops FA_MODIFIED true s' = Ret FR_OK s2 -> f_close ops FA_MODIFIED true s2 = Ret FR_INVALID_OBJECT s2) /\
    (r <> FR_OK -> fil s' = fil s).

Lemma has_creating mode : has mode FA_CREATE_NEW = true -> creating mode = true.
Proof.
  intros Hm. unfold creating, has in *. apply negb_true_iff, Z.eqb_neq. apply negb_true_iff, Z.eqb_neq in Hm. intros H0. apply Hm.
  rewrite !Z.land_lor_distr_r in H0. apply Z.lor_eq_0_iff in H0 as [_ H0]. by apply Z.lor_eq_0_iff in H0 as [_ H0].
Qed.

Section Open.
Context {D : Type} (ops : fat_ops D) (entries : D -> list (list Z)) (DIR_Attr DIR_FileSize FA_MODIFIED : Z) (ld_clust ld_dword : list Z -> Z).
Context {Hdir : FatDirectory ops entries DIR_Attr} (mode : Z) (s : fat D).
Abbreviation result := (open_result ops entries FA_MODIFIED mode s).

Lemma open_fails r s' k p : entries (disk s') = entries (disk s) ++ replicate k p -> (k <= 2)%nat -> fil s' = fil s -> r <> FR_OK -> result (Ret r s').
Proof. intros He Hk Hf Hr. exists r, s', k, p. by split_and!. Qed.
(** The last part of [f_open]. *)
Lemma open_finish v r dj mode' s' k p : is_Some (dir dj !! Z.to_nat DIR_Attr) -> entries (disk s') = entries (disk s) ++ replicate k p ->
  fil s' = fil s -> (k <= 2)%nat ->
  (r = FR_OK -> k = added mode (bool_decide (p ∈ entries (disk s))) /\ (creating mode = false -> p ∈ entries (disk s)) /\
     (has mode FA_CREATE_NEW = true -> p ∉ entries (disk s))) ->
  result ((if r =? FR_OK then
      let* attr := deref (dir dj !! Z.to_nat DIR_Attr) in
      if has attr AM_DIR then ret FR_NO_FILE else
      set_fil (Fil (Some v) (ld_clust (dir dj)) (ld_dword (drop (Z.to_nat DIR_FileSize) (dir dj))) 0 mode' 0 0) ;;; ret r
    else ret r) s').
Proof.
  intros [attr Hat] Hes Hf Hk HOK. destruct (Z.eqb_spec r FR_OK) as [->|Hr]; [|by eapply open_fails].
  rewrite Hat. erewrite (bind_Ret (deref _)) by reflexivity. destruct (has attr AM_DIR); [by eapply open_fails|].
  destruct (HOK eq_refl) as (Hk1 & Hk2 & Hk3). eexists FR_OK, _, k, p. split; [reflexivity|].
  split_and!; [done|done| |done]. intros _. split_and!; [done|discriminate|done|done|done|]. intros s4. apply f_close_once.
Qed.
Lemma f_open_spec path : result (f_open ops DIR_Attr DIR_FileSize ld_clust ld_dword true path mode s).
Proof using Hdir.
  destruct (find_law path mode (disk s)) as (r0 & p & v & d1 & E1 & He1). unfold f_open. cbn [negb].
  rewrite (bind_Ret _ _ _ _ _ (zoom_Ret disk_part _ s _ _ E1)). cbv beta iota. set (s1 := upd disk_part d1 s).
  destruct (Z.eqb_spec r0 FR_OK) as [->|Hr0]; cbn [negb].
  2:{ apply (open_fails r0 s1 0%nat p); [cbn [replicate]; by rewrite app_nil_r|lia|done|done]. }
  destruct (follow_law p d1) as (r1 & dj & d2 & E2 & He2 & Hfn & Ha & Hin & Hout).
  rewrite (bind_Ret _ _ _ _ _ (zoom_Ret disk_part _ s1 _ _ E2)). set (s2 := upd disk_part d2 s1). cbn [fst snd].
  assert (He : entries (disk s2) = entries (disk s)) by (cbn; congruence). rewrite He1 in Hin, Hout. fold (creating mode).
  destruct (creating mode) eqn:Hm.
  - destruct (create_spec ops entries DIR_Attr v mode r1 dj s2 Ha) as (r & dj' & mode' & s3 & k & E3 & Ha' & He3 & Hf3 & Hk & Hex & HOK).
    rewrite (bind_Ret _ _ _ _ _ E3). apply (open_finish v r dj' mode' s3 k p Ha'); [by rewrite He3, He, Hfn|done|done|]. intros ->.
    unfold added. rewrite Hm. destruct (HOK eq_refl) as [[-> ->]|[-> ->]].
    + rewrite bool_decide_eq_true_2 by auto. split_and!; [done|done|]. intros Hn. rewrite Hn in Hex. by destruct (Hex eq_refl).
    + rewrite bool_decide_eq_false_2 by auto. split_and!; [done|done|auto].
  - erewrite (bind_Ret (ret _)) by reflexivity. apply (open_finish v r1 dj mode s2 0%nat p Ha); [cbn [replicate]; by rewrite app_nil_r|done|lia|].
    intros ->. unfold added. rewrite Hm. split_and!; [done|auto|]. intros Hn. by rewrite (has_creating mode Hn) in Hm.
Qed.
End Open.

(** ** Properties *)

(** Opening and closing.  [f_open] adds entries for the name only in the modes that
    create, and leaves every other entry: a name that exists gets a second entry with
    FA_CREATE_ALWAYS, and a new name two entries, in each of the creating modes.  Without
    them a name that is not there is not opened, and FA_CREATE_NEW refuses a name that is.
    When it succeeds the file object is at position 0 of a volume, and [f_close] succeeds
    on it once at most; when it fails the file object is as it was.  [f_mount] refuses the
    drive numbers from FF_VOLUMES on, and every path that does not start with a digit. *)
Theorem fat_open_entries {D : Type} (ops : fat_ops D) (entries : D -> list (list Z)) (FF_VOLUMES DIR_Attr DIR_FileSize FA_MODIFIED : Z)
    (ld_clust ld_dword : list Z -> Z) (Hdir : FatDirectory ops entries DIR_Attr) (s : fat D) (path : list Z) (mode : Z)
    (Hv : 0 < FF_VOLUMES <= 10) :
  (exists r s' k p, f_open ops DIR_Attr DIR_FileSize ld_clust ld_dword true path mode s = Ret r s' /\
     entries (disk s') = entries (disk s) ++ replicate k p /\ (k <= 2)%nat /\
     (r = FR_OK -> k = added mode (bool_decide (p ∈ entries (disk s))) /\ o_fs (fil s') <> None /\ fptr (fil s') = 0 /\
        (creating mode = false -> p ∈ entries (disk s)) /\
        (has mode FA_CREATE_NEW = true -> p ∉ entries (disk s)) /\
        forall s2, f_close ops FA_MODIFIED true s' = Ret FR_OK s2 -> f_close ops FA_MODIFIED true s2 = Ret FR_INVALID_OBJECT s2) /\
     (r <> FR_OK -> fil s' = fil s)) /\
  (forall fs_ok c rest opt, 0 <= c < 256 -> c < 48 \/ 48 + FF_VOLUMES <= c ->
     f_mount ops FF_VOLUMES fs_ok (c :: rest) opt s = Ret FR_INVALID_DRIVE s).
Proof.
  split; [apply f_open_spec, Hdir|]. intros fs_ok c rest opt Hc Hout. by apply f_mount_refused.
Qed.

(** ** A directory that is a list of names *)
Definition no_attributes (n : list Z) : DIR := Dir n (replicate 32 0).
Definition list_fat : fat_ops (list (list Z)) := {|
  mount_volume := fun _ _ => ret FR_OK;
  unmount_volume := fun _ => ret FR_OK;
  find_volume := fun p _ => ret (FR_OK, p, 0);
  follow_path := fun p d => Ret (if bool_decide (p ∈ d) then FR_OK else FR_NO_FILE, no_attributes p) d;
  dir_register := fun dj d => Ret (FR_OK, no_attributes (fn dj)) (d ++ [fn dj]);
  dir_update := fun _ => ret FR_OK;
  f_sync := fun _ => ret FR_OK |}.
#[export] Instance list_fat_directory : FatDirectory list_fat id 11.
Proof.
  split; unfold id.
  - intros p m d. by exists FR_OK, p, 0, d.
  - intros p d. eexists _, _, d. split_and!; [reflexivity|done|done|by eexists| |]; case_bool_decide; done.
  - intros dj d. eexists FR_OK, _, _. split_and!; [reflexivity|done|by eexists|done].
Qed.
Definition closed_file : FIL := Fil None 0 0 0 0 0 0.
(** A new name opened with FA_OPEN_ALWAYS is entered twice. *)
Lemma fat_open_entries_witness :
  exists s', f_open list_fat 11 28 (fun _ => 0) (fun _ => 0) true [97] FA_OPEN_ALWAYS (Fat [] closed_file ∅ (Fatfs 0 0) 0) = Ret FR_OK s' /\
    disk s' = [[97]; [97]].
Proof.
  destruct (fat_open_entries list_fat id 1 11 28 0 (fun _ => 0) (fun _ => 0) list_fat_directory (Fat [] closed_file ∅ (Fatfs 0 0) 0) [97] FA_OPEN_ALWAYS)
    as [(r & s' & k & p & E & He & _ & HOK & _) _]; [lia|].
  exists s'. vm_compute in E. injection E as <- <-. by split.
Defined.
