(* ===== verification/FileManager.v ===== *)
(** * FileManager

    src/examples/file_manager.c: a command line over the FAT volume of Fat.v.  A line is cut
    into words by [strtok], as in Handshake.v, and the first word chooses the command.  The
    commands themselves, except for the help, are declared and not defined. *)
From Stdlib Require Import String.
From S2P Require Import Prelude Text Handshake Fat.

(** ** Data *)
Definition MAX_PATH_LEN : nat := 256.
Definition MAX_COMMAND_LEN : nat := 32.
Definition MAX_ARGS : nat := 4.
(** The texts in the arrays; [arg_count] is the number of arguments. *)
Record command_t : Type := Command { command : list Z; args : list (list Z) }.
Inductive action : Type :=
| Help | Ls (path : list Z) | Cd (path : list Z) | Mkdir (path : list Z) | Rm (path : list Z) | Cp (src dst : list Z)
| Mv (src dst : list Z) | Cat (path : list Z) | WriteFile (path content : list Z) | Usage (cmd : list Z) | Exit | Unknown.

(** ** The words of a line *)
Definition is_blank (c : Z) : bool := c =? 32.
(** [strncpy (dst, src, n)] into a zeroed array of more than [n] bytes, as a text. *)
Definition cut (n : nat) (t : list Z) : list Z := take n t.

(** The loop over the arguments, which runs at most [MAX_ARGS] times and once more. *)
Fixpoint args_loop (fuel : nat) (cmd : command_t) : Cmd hs_state command_t :=
  match fuel with
  | O => fail NoFuel
  | S fuel' =>
      let* token := strtok_by is_blank None in
      match token with
      | None => ret cmd
      | Some token =>
          if (length (args cmd) <? MAX_ARGS)%nat then
            let* t := at_ptr token c_text in
            args_loop fuel' (Command (command cmd) (args cmd ++ [cut (MAX_PATH_LEN - 1) t]))
          else ret cmd
      end
  end.
(** [junk]: the last byte of [input_copy], which nothing initialises. *)
Definition parse_command (junk : Z) (input : list Z) : Cmd hs_state command_t :=
  let* t := c_text input in
  let copy := take (MAX_PATH_LEN - 1) t in
  modify (set_h_buf (copy ++ replicate (MAX_PATH_LEN - 1 - length copy) 0 ++ [junk])) ;;;
  let* token := strtok_by is_blank (Some 0%nat) in
  match token with
  | None => ret (Command [] [])
  | Some token =>
      let* t := at_ptr token c_text in
      args_loop (S MAX_ARGS) (Command (cut (MAX_COMMAND_LEN - 1) t) [])
  end.

(** ** The commands *)
Definition arg (i : nat) (cmd : command_t) : list Z := nth i (args cmd) [].
Definition is_command (n : string) (cmd : command_t) : bool := bool_decide (command cmd = str n).
Definition process_command (cmd : command_t) : action :=
  let count := length (args cmd) in
  if is_command "help" cmd then Help
  else if is_command "ls" cmd then Ls (if (0 <? count)%nat then arg 0 cmd else str ".")
  else if is_command "cd" cmd then if (0 <? count)%nat then Cd (arg 0 cmd) else Usage (str "cd")
  else if is_command "mkdir" cmd then if (0 <? count)%nat then Mkdir (arg 0 cmd) else Usage (str "mkdir")
  else if is_command "rm" cmd then if (0 <? count)%nat then Rm (arg 0 cmd) else Usage (str "rm")
  else if is_command "cp" cmd then if (1 <? count)%nat then Cp (arg 0 cmd) (arg 1 cmd) else Usage (str "cp")
  else if is_command "mv" cmd then if (1 <? count)%nat then Mv (arg 0 cmd) (arg 1 cmd) else Usage (str "mv")
  else if is_command "cat" cmd then if (0 <? count)%nat then Cat (arg 0 cmd) else Usage (str "cat")
  else if is_command "write" cmd then if (1 <? count)%nat then WriteFile (arg 0 cmd) (arg 1 cmd) else Usage (str "write")
  else if is_command "exit" cmd then Exit
  else Unknown.

(** ** The program *)
Record fm (D : Type) : Type := Fm { fm_fat : fat D; fm_text : hs_state; performed : list action }.
Arguments Fm {D} fm_fat fm_text performed.
Arguments fm_fat {D} f.
Arguments fm_text {D} f.
Arguments performed {D} f.
Definition fat_part {D} : lens (fm D) (fat D).
Proof. refine (Lens fm_fat (fun x s => Fm x (fm_text s) (performed s)) _ _ _); [done|by intros []|done]. Defined.
Definition text_part {D} : lens (fm D) hs_state.
Proof. refine (Lens fm_text (fun x s => Fm (fm_fat s) x (performed s)) _ _ _); [done|by intros []|done]. Defined.

Section Program.
Context {D : Type} (ops : fat_ops D) (FF_VOLUMES junk : Z).
(** [input[strcspn (input, "\n")] = 0]. *)
Fixpoint to_newline (l : list Z) : list Z :=
  match l with [] => [] | c :: l => if c =? 10 then [] else c :: to_newline l end.
(** [lines]: what [fgets] stores, until the end of the input.  The result: whether the loop
    ended there; otherwise the process has exited with status 0. *)
Fixpoint command_loop (lines : list (list Z)) : Cmd (fm D) bool :=
  match lines with
  | [] => ret true
  | line :: lines =>
      let input := to_newline line in
      if (length input =? 0)%nat then command_loop lines else
      let* cmd := zoom text_part (parse_command junk (input ++ [0])) in
      let a := process_command cmd in
      modify (fun s => Fm (fm_fat s) (fm_text s) (performed s ++ [a])) ;;;
      match a with Exit => ret false | _ => command_loop lines end
  end.
Definition main (lines : list (list Z)) : Cmd (fm D) Z :=
  let* res := zoom fat_part (f_mount ops FF_VOLUMES true [0] 1) in
  if negb (res =? FR_OK) then ret 1 else
  let* ended := command_loop lines in
  if ended then zoom fat_part (f_mount ops FF_VOLUMES false [0] 0) ;;; ret 0 else ret 0.
End Program.

(** ** Facts *)
(** Words, each behind a number of blanks, and blanks at the end. *)
Definition line (l : list (nat * list Z)) (k : nat) : list Z :=
  concat ((fun g => replicate (fst g) 32 ++ snd g) <$> l) ++ replicate k 32.
Definition is_arg (w : list Z) : Prop := token_of is_blank w.
Definition spaced (l : list (nat * list Z)) : Prop :=
  Forall (fun g => is_arg (snd g)) l /\ Forall (fun g => (1 <= fst g)%nat) (tail l).
Lemma line_cons n w l k : line ((n, w) :: l) k = replicate n 32 ++ w ++ line l k.
Proof. unfold line. rewrite fmap_cons. cbn [concat fst snd]. by rewrite <- !app_assoc. Qed.
Lemma blanks n : Forall (fun x => is_blank x = true) (replicate n 32).
Proof. by apply Forall_replicate. Qed.

(** One word is taken off a line. *)
Lemma next_word start b n w l k zs sv st cp : match start with Some _ => start | None => sv end = Some (length b) ->
  spaced ((n, w) :: l) ->
  exists b1 l1 k1 zs1, let buf := b1 ++ line l1 k1 ++ 0 :: zs1 in
    strtok_by is_blank start (HsState (b ++ line ((n, w) :: l) k ++ 0 :: zs) sv st cp)
      = Ret (Some (length b + n)%nat) (HsState buf (Some (length b1)) st cp) /\
    text_at buf (length b + n) w /\ spaced l1 /\ snd <$> l1 = snd <$> l.
Proof.
  intros Hst [Hw Hg]. apply Forall_cons in Hw as [Hw0 Hw]. cbn [tail] in Hg. cbn [snd] in Hw0. rewrite line_cons.
  assert (Htext : forall r, text_at ((b ++ replicate n 32 ++ w ++ [0]) ++ r) (length b + n) w).
  { intros r. split; [apply Hw0|]. exists (b ++ replicate n 32), r. rewrite length_app, length_replicate. split; [by rewrite <- !app_assoc|done]. }
  set (b0 := b ++ replicate n 32 ++ w).
  assert (Hstep : forall c r, is_blank c = true \/ c = 0 ->
    strtok_by is_blank start (HsState (b ++ replicate n 32 ++ w ++ c :: r) sv st cp)
    = Ret (Some (length b + n)%nat) (HsState ((b ++ replicate n 32 ++ w ++ [0]) ++ r)
        (Some (length b0 + if Z.eqb c 0 then 0 else 1)%nat) st cp)).
  { intros c r Hc. rewrite (strtok_by_token is_blank eq_refl start b _ w c r sv st cp Hst (blanks n) Hw0 Hc). by rewrite length_replicate. }
  set (b1 := b ++ replicate n 32 ++ w ++ [0]) in *.
  assert (Hb1 : length b1 = (length b0 + 1)%nat) by (unfold b1, b0; rewrite !length_app; cbn; lia).
  destruct l as [|[n1 w1] l].
  - destruct k as [|k].
    + exists b0, [], 0%nat, zs. unfold line. cbn [fmap list_fmap concat app replicate]. assoc. rewrite (Hstep 0 zs) by (by right).
      cbn [Z.eqb]. rewrite Nat.add_0_r. assert (Hb : b1 ++ zs = b0 ++ 0 :: zs) by (unfold b1, b0; by assoc). rewrite Hb.
      split_and!; [done| |done|done]. rewrite <- Hb. apply Htext.
    + exists b1, [], k, zs. unfold line. cbn [fmap list_fmap concat app replicate]. assoc.
      rewrite (Hstep 32 _) by (by left). cbn [Z.eqb]. rewrite Hb1. split_and!; [done|apply Htext|done|done].
  - apply Forall_cons in Hg as [Hn1 Hg]. cbn [fst] in Hn1. destruct n1 as [|n1]; [lia|]. rewrite line_cons. cbn [replicate app].
    exists b1, ((n1, w1) :: l), k, zs. assoc. rewrite (Hstep 32 _) by (by left). cbn [Z.eqb].
    rewrite line_cons. assoc. rewrite Hb1. split_and!; [done|apply Htext| |done]. apply Forall_cons in Hw as [? Hw]. split; [by constructor|done].
Qed.

Lemma no_word start b k zs sv st cp : match start with Some _ => start | None => sv end = Some (length b) ->
  strtok_by is_blank start (HsState (b ++ line [] k ++ 0 :: zs) sv st cp) = Ret None (HsState (b ++ line [] k ++ 0 :: zs) None st cp).
Proof. intros Hst. unfold line. cbn [fmap list_fmap concat app]. apply (strtok_by_end is_blank eq_refl); [done|apply blanks]. Qed.

Lemma args_loop_spec l : forall fuel b k zs cmd st cp, spaced l -> (length (args cmd) <= MAX_ARGS)%nat ->
  (MAX_ARGS - length (args cmd) < fuel)%nat ->
  exists s', args_loop fuel cmd (HsState (b ++ line l k ++ 0 :: zs) (Some (length b)) st cp)
    = Ret (Command (command cmd) (take MAX_ARGS (args cmd ++ (cut (MAX_PATH_LEN - 1) <$> (snd <$> l))))) s'.
Proof.
  assert (Hgen : forall m l, (length l <= m)%nat -> forall fuel b k zs cmd st cp, spaced l -> (length (args cmd) <= MAX_ARGS)%nat ->
    (MAX_ARGS - length (args cmd) < fuel)%nat -> exists s', args_loop fuel cmd (HsState (b ++ line l k ++ 0 :: zs) (Some (length b)) st cp)
    = Ret (Command (command cmd) (take MAX_ARGS (args cmd ++ (cut (MAX_PATH_LEN - 1) <$> (snd <$> l))))) s'); [|by eapply Hgen].
  clear l. induction m as [|m IH]; intros l Hm fuel b k zs cmd st cp Hl Ha Hf; (destruct fuel as [|fuel]; [lia|]); cbn [args_loop].
  - destruct l as [|g l]; [|cbn in Hm; lia]. rewrite (bind_Ret _ _ _ _ _ (no_word None b k zs (Some (length b)) st cp eq_refl)).
    eexists. cbn [fmap list_fmap]. rewrite app_nil_r, take_ge by done. by destruct cmd.
  - destruct l as [|[n w] l].
    + rewrite (bind_Ret _ _ _ _ _ (no_word None b k zs (Some (length b)) st cp eq_refl)).
      eexists. cbn [fmap list_fmap]. rewrite app_nil_r, take_ge by done. by destruct cmd.
    + destruct (next_word None b n w l k zs (Some (length b)) st cp eq_refl Hl) as (b1 & l1 & k1 & zs1 & E & Ht & Hl1 & Hw).
      rewrite (bind_Ret _ _ _ _ _ E). destruct (Nat.ltb_spec (length (args cmd)) MAX_ARGS) as [Hlt|Hge].
      * rewrite (bind_Ret _ _ _ _ _ (at_ptr_spec c_text _ _ w _ st cp w Ht (fun r s => c_text_spec w r s (proj1 Ht)))).
        assert (length l1 <= m)%nat. { apply (f_equal length) in Hw. rewrite !length_fmap in Hw. cbn in Hm. lia. }
        destruct (IH l1 ltac:(done) fuel b1 k1 zs1 (Command (command cmd) (args cmd ++ [cut (MAX_PATH_LEN - 1) w])) st cp Hl1) as (s' & E').
        { cbn [args]. rewrite length_app. cbn [length]. lia. } { cbn [args]. rewrite length_app. cbn [length]. lia. }
        exists s'. rewrite E'. cbn [command args]. rewrite Hw. cbn [fmap list_fmap snd]. by rewrite <- app_assoc.
      * eexists. rewrite take_app_le, take_ge by lia. by destruct cmd.
Qed.

(** The texts that a line of words gives. *)
Definition words_command (ws : list (list Z)) : command_t :=
  match ws with
  | [] => Command [] []
  | w :: ws => Command (cut (MAX_COMMAND_LEN - 1) w) (take MAX_ARGS (cut (MAX_PATH_LEN - 1) <$> ws))
  end.
Lemma plain_line l k : spaced l -> plain (line l k).
Proof.
  unfold spaced, line, plain. intros [Hl _] [Hin|Hin]%elem_of_app.
  - induction l as [|[n w] l IH]; [by apply not_elem_of_nil in Hin|]. rewrite fmap_cons in Hin. cbn [concat fst snd] in Hin.
    apply Forall_cons in Hl as [(_ & Hw & _) Hl]. apply elem_of_app in Hin as [[Hin|Hin]%elem_of_app|Hin]; [|by apply Hw|by apply IH].
    by apply elem_of_replicate in Hin as [? _].
  - by apply elem_of_replicate in Hin as [? _].
Qed.
Lemma parse_command_spec l k junk rest s : spaced l -> (length (line l k) < MAX_PATH_LEN - 1)%nat ->
  exists s', parse_command junk (line l k ++ 0 :: rest) s = Ret (words_command (snd <$> l)) s'.
Proof.
  intros Hl Hlen. unfold parse_command. rewrite (bind_Ret _ _ _ _ _ (c_text_spec (line l k) rest s (plain_line l k Hl))). cbv zeta.
  rewrite (take_ge (line l k)) by lia. set (z := (MAX_PATH_LEN - 1 - length (line l k))%nat).
  assert (Hz : exists zs, replicate z 0 ++ [junk] = 0 :: zs) by (destruct z as [|z'] eqn:Ez; [unfold z in Ez; lia|by eexists]).
  destruct Hz as [zs Hz]. rewrite Hz. erewrite (bind_Ret (modify _)) by reflexivity. unfold set_h_buf.
  destruct l as [|[n w] l].
  - pose proof (no_word (Some 0%nat) [] k zs (h_saved s) (h_sent s) (h_completed s) eq_refl) as E. cbn [app] in E.
    rewrite (bind_Ret _ _ _ _ _ E). by eexists.
  - destruct (next_word (Some 0%nat) [] n w l k zs (h_saved s) (h_sent s) (h_completed s) eq_refl Hl) as (b1 & l1 & k1 & zs1 & E & Ht & Hl1 & Hw).
    cbn [app length Nat.add] in E, Ht. rewrite (bind_Ret _ _ _ _ _ E).
    rewrite (bind_Ret _ _ _ _ _ (at_ptr_spec c_text _ _ w _ _ _ w Ht (fun r s => c_text_spec w r s (proj1 Ht)))).
    destruct (args_loop_spec l1 (S MAX_ARGS) b1 k1 zs1 (Command (cut (MAX_COMMAND_LEN - 1) w) []) (h_sent s) (h_completed s) Hl1) as (s' & E');
      [cbn; lia|cbn [args length]; lia|].
    exists s'. rewrite E'. cbn [command args app words_command fmap list_fmap snd]. by rewrite Hw.
Qed.

(** ** What a command line asks for

    The commands of the help text: the name, how many arguments it needs, what it does. *)
Definition commands : list (list Z * nat * (list (list Z) -> action)) :=
  [(str "help", 0%nat, fun _ => Help); (str "ls", 0%nat, fun a => Ls (nth 0 a (str "."))); (str "cd", 1%nat, fun a => Cd (nth 0 a []));
   (str "mkdir", 1%nat, fun a => Mkdir (nth 0 a [])); (str "rm", 1%nat, fun a => Rm (nth 0 a [])); (str "cp", 2%nat, fun a => Cp (nth 0 a []) (nth 1 a []));
   (str "mv", 2%nat, fun a => Mv (nth 0 a []) (nth 1 a [])); (str "cat", 1%nat, fun a => Cat (nth 0 a []));
   (str "write", 2%nat, fun a => WriteFile (nth 0 a []) (nth 1 a [])); (str "exit", 0%nat, fun _ => Exit)].
Fixpoint look_up (w : list Z) (a : list (list Z)) (t : list (list Z * nat * (list (list Z) -> action))) : action :=
  match t with
  | [] => Unknown
  | (n, k, f) :: t => if decide (w = n) then if (k <=? length a)%nat then f a else Usage n else look_up w a t
  end.
(** What the words ask for: arguments are cut to the size of the arrays, commands need not
    be, since no longer word is a command. *)
Definition asked (ws : list (list Z)) : action :=
  match ws with
  | [] => Unknown
  | w :: ws => look_up w (take MAX_ARGS (cut (MAX_PATH_LEN - 1) <$> ws)) commands
  end.
Lemma is_command_cut n w a : (length (str n) < MAX_COMMAND_LEN - 1)%nat ->
  is_command n (Command (cut (MAX_COMMAND_LEN - 1) w) a) = bool_decide (w = str n).
Proof.
  intros Hn. unfold is_command, cut. cbn [command]. apply bool_decide_ext. split; [|by intros ->; apply take_ge; lia].
  intros H. destruct (decide (length w <= MAX_COMMAND_LEN - 1)%nat) as [Hl|Hl]; [by rewrite take_ge in H|].
  apply (f_equal length) in H. rewrite length_take in H. lia.
Qed.
Lemma process_asked ws : process_command (words_command ws) = asked ws.
Proof.
  destruct ws as [|w ws]; [done|]. unfold process_command, words_command, asked, commands. cbn [look_up].
  rewrite !is_command_cut by (apply Nat.ltb_lt; reflexivity). set (a := take MAX_ARGS _). unfold arg. cbn [args].
  clearbody a.
  repeat (match goal with |- context [decide (w = ?y)] => destruct (decide (w = y)) end;
    [rewrite bool_decide_eq_true_2 by done; by destruct a as [|? [|? ?]]|rewrite bool_decide_eq_false_2 by done]).
  done.
Qed.

Lemma start_refused {D} (ops : fat_ops D) FF_VOLUMES junk lines (s : fm D) : 0 < FF_VOLUMES <= 10 -> main ops FF_VOLUMES junk lines s = Ret 1 s.
Proof.
  intros Hv. unfold main. erewrite bind_Ret; [|apply (zoom_Ret fat_part), (f_mount_refused ops FF_VOLUMES true 0 [] 1 (fm_fat s) Hv); lia].
  by destruct s.
Qed.

(** ** Properties *)

(** The command line.  A line of words, separated by one blank or more and with blanks
    anywhere around them, does what its words ask for by the table of commands: the
    first word chooses, the next four are the arguments, cut to 255 characters; a word that
    is longer than a command's array is no command.  The line is bounded by the buffer of
    256 bytes.  The program as a whole never comes to this: it mounts the path without a
    drive number, which [f_mount] refuses, so that it ends with status 1 before it reads a
    line, on any disk. *)
Theorem file_manager_commands {D : Type} (ops : fat_ops D) (FF_VOLUMES junk : Z) (Hv : 0 < FF_VOLUMES <= 10) :
  (forall l k rest s, spaced l -> (length (line l k) < MAX_PATH_LEN - 1)%nat ->
     exists cmd s', parse_command junk (line l k ++ 0 :: rest) s = Ret cmd s' /\ process_command cmd = asked (snd <$> l)) /\
  (forall lines (s : fm D), main ops FF_VOLUMES junk lines s = Ret 1 s).
Proof.
  split.
  - intros l k rest s Hl Hlen. destruct (parse_command_spec l k junk rest s Hl Hlen) as (s' & E). exists (words_command (snd <$> l)), s'.
    split; [exact E|]. apply process_asked.
  - intros lines s. by apply start_refused.
Qed.

(** "  cp a  b" copies. *)
Lemma file_manager_commands_witness :
  exists cmd s', parse_command 7 (str "  cp a  b" ++ [0]) (HsState [] None [] false) = Ret cmd s' /\ process_command cmd = Cp (str "a") (str "b").
Proof.
  destruct (file_manager_commands list_fat 1 7) as [H _]; [lia|].
  destruct (H [(2%nat, str "cp"); (1%nat, str "a"); (2%nat, str "b")] 0%nat [] (HsState [] None [] false)) as (cmd & s' & E & Hp).
  - split; [|repeat constructor]. repeat (apply Forall_cons; split); [..|constructor]; (split; [discriminate|split; [by apply not_in_dec|repeat constructor]]).
  - apply Nat.ltb_lt. reflexivity.
  - exists cmd, s'. split; [exact E|exact Hp].
Defined.
