(* ===== verification/Transport.v ===== *)
(** * Transport

    src/src/network.c: the connections of the HTTP client of Http.v, plain or over TLS.
    Sockets and OpenSSL are the system's.  What they answer while a connection is set up is
    an argument, and what is asked of them is kept as a list of calls.  What carries the
    bytes afterwards is the class [Channel]; the functions that transfer are proved against
    its laws. *)
From Stdlib Require Import String.
From S2P Require Import Prelude Ipc Bytes Text Http.

(** ** Data *)
Definition MCURL_ERROR_CONNECT : Z := -3.
Definition MCURL_ERROR_TIMEOUT : Z := -4.
Definition MCURL_ERROR_SSL : Z := -6.
Definition AF_INET : Z := 2.

Record sockaddr_in : Type := SockaddrIn { sin_family : Z; sin_port : Z; sin_addr : list Z }.
(** A pointer to a TLS object is its number, 0 is NULL. *)
Record network_conn_t : Type := NetworkConn {
  socket : Z;
  ssl : Z;
  ssl_ctx : Z;
  is_ssl : bool;
  addr : sockaddr_in;
  host : option (list Z);
  port : Z
}.
Definition htons (v : Z) : Z := byte_swap 2 v.

(** *** The calls that set a connection up *)
Inductive object : Type := ConnObject | HostCopy | Descriptor (fd : Z) | TlsContext (c : Z) | TlsConnection (s : Z).
#[export] Instance object_eq_dec : EqDecision object.
Proof. solve_decision. Defined.
Inductive call : Type :=
| Taken (o : object)
| Released (o : object)
| SetNonblock (fd : Z)
| VerifyPeer (c : Z)
| LoadVerifyLocations (c : Z) (file : list Z)
| UseCertificate (c : Z) (file : list Z)
| UsePrivateKey (c : Z) (file : list Z)
| SetFd (s fd : Z).
(** [mcalls] makes several calls whose results are not looked at. *)
Definition mcalls (l : list call) : Cmd (list call) unit := modify (fun s => s ++ l).

(** What the system answers: whether there is memory for the object and for the copy of the
    name, the address of the name, and the numbers of the new objects. *)
Record answers : Type := Answers {
  calloc_ok : bool;
  strdup_ok : bool;
  gethostbyname : list Z -> option (list Z);
  socket_result : Z;
  ctx_new : Z;
  ssl_new : Z
}.

(** ** Setting up *)
Definition tls_files (c : Z) (o : mcurl_options_t) : list call :=
  (if verify_ssl o then VerifyPeer c :: from_option (fun f => [LoadVerifyLocations c f]) [] (ca_path o) else []) ++
  match client_cert o, client_key o with
  | Some cert, Some key => [UseCertificate c cert; UsePrivateKey c key]
  | _, _ => []
  end.
Definition create_connection (a : answers) (host_ : list Z) (port_ : Z) (use_ssl : bool) (options : mcurl_options_t) :
    Cmd (list call) (option network_conn_t) :=
  if negb (calloc_ok a) then ret None else
  mcalls [Taken ConnObject] ;;;
  mcalls (if strdup_ok a then [Taken HostCopy] else []) ;;;
  let host_copy := if strdup_ok a then Some host_ else None in
  match gethostbyname a host_ with
  | None => mcalls [Released HostCopy; Released ConnObject] ;;; ret None
  | Some ip =>
      if 4 <? Z.of_nat (length ip) then fail Fault else
      let addr_ := SockaddrIn AF_INET (htons port_) (splice 0 ip [0; 0; 0; 0]) in
      let fd := socket_result a in
      if fd <? 0 then mcalls [Released HostCopy; Released ConnObject] ;;; ret None else
      mcalls [Taken (Descriptor fd)] ;;;
      mcalls [SetNonblock fd] ;;;
      if negb use_ssl then ret (Some (NetworkConn fd 0 0 false addr_ host_copy port_)) else
      let c := ctx_new a in
      if c =? 0 then mcalls [Released (Descriptor fd); Released HostCopy; Released ConnObject] ;;; ret None else
      mcalls [Taken (TlsContext c)] ;;;
      mcalls (tls_files c options) ;;;
      if ssl_new a =? 0 then fail Fault else
      mcalls [Taken (TlsConnection (ssl_new a)); SetFd (ssl_new a) fd] ;;;
      ret (Some (NetworkConn fd (ssl_new a) c true addr_ host_copy port_))
  end.

(** [connected]: what [connect] answers and whether [errno] is EINPROGRESS; then what
    [select] answers within [connect_timeout] seconds, SO_ERROR, and [SSL_connect]. *)
Definition connect_to_server (conn : network_conn_t) (connected : Z * bool) (select_ : Z -> Z) (so_error tls_connect : Z)
    (connect_timeout : Z) : Z :=
  if (fst connected <? 0) && negb (snd connected) then MCURL_ERROR_CONNECT else
  if select_ connect_timeout <=? 0 then MCURL_ERROR_TIMEOUT else
  if negb (so_error =? 0) then MCURL_ERROR_CONNECT else
  if is_ssl conn then if negb (tls_connect =? 1) then MCURL_ERROR_SSL else MCURL_OK
  else MCURL_OK.

(** ** What carries bytes

    [chan_write] offers bytes and answers how many are taken, [chan_read] asks for so many
    bytes at most.  [handed] is all that the peer has been handed so far, [coming] what it
    has sent and nobody has read yet. *)
Class Channel (T : Type) : Type := {
  chan_write : list Z -> T -> Z * T;
  chan_read : Z -> T -> Z * list Z * T;
  handed : T -> list Z;
  coming : T -> list Z;
  chan_write_spec : forall d t r t', chan_write d t = (r, t') ->
    coming t' = coming t /\ r <= Z.of_nat (length d) /\ handed t' = handed t ++ take (Z.to_nat r) d;
  chan_read_spec : forall n t r d t', 0 <= n -> chan_read n t = (r, d, t') ->
    handed t' = handed t /\ coming t = d ++ coming t' /\ length d = Z.to_nat r /\ r <= n
}.

Section Transfer.
Context {T P : Type} `{Channel T} `{Channel P}.
(** The connection, and its two ways to the peer. *)
Record link : Type := Link { conn : network_conn_t; tls : T; plain_ : P }.

Definition write_some (d : list Z) : Cmd link Z :=
  let* s := get in
  if is_ssl (conn s) then
    let '(r, t) := chan_write d (tls s) in put (Link (conn s) t (plain_ s)) ;;; ret r
  else
    let '(r, p) := chan_write d (plain_ s) in put (Link (conn s) (tls s) p) ;;; ret r.
Definition read_some (n : Z) : Cmd link (Z * list Z) :=
  let* s := get in
  if is_ssl (conn s) then
    let '(r, d, t) := chan_read n (tls s) in put (Link (conn s) t (plain_ s)) ;;; ret (r, d)
  else
    let '(r, d, p) := chan_read n (plain_ s) in put (Link (conn s) (tls s) p) ;;; ret (r, d).

(** The loop of [send_data]; [sent] is the variable of the source. *)
Fixpoint send_loop (fuel : nat) (data : list Z) (length_ sent : Z) : Cmd link Z :=
  match fuel with
  | O => fail NoFuel
  | S fuel' =>
      if negb (sent <? length_) then ret MCURL_OK else
      let* r := write_some (slice (Z.to_nat sent) (Z.to_nat (length_ - sent)) data) in
      if r <=? 0 then ret MCURL_ERROR_CONNECT else
      send_loop fuel' data length_ (u32 (sent + r))
  end.
Definition send_data (fuel : nat) (data : list Z) (length_ : Z) : Cmd link Z := send_loop fuel data length_ 0.

(** The code, and when it is MCURL_OK what is stored at [received] and in the buffer. *)
Definition recv_data (size : Z) : Cmd link (Z * option (Z * list Z)) :=
  let* '(r, d) := read_some size in
  if r <? 0 then ret (MCURL_ERROR_CONNECT, None) else ret (MCURL_OK, Some (r, d)).
End Transfer.

(** ** Facts *)
(** What has been taken and not released, in order. *)
Definition step_held (h : list object) (c : call) : list object :=
  match c with
  | Taken o => h ++ [o]
  | Released o => filter (fun o' => o' <> o) h
  | _ => h
  end.
Definition held (l : list call) : list object := foldl step_held [] l.

(** When there is a connection, and what it holds. *)
Definition available (a : answers) (host_ : list Z) (use_ssl : bool) : bool :=
  calloc_ok a && bool_decide (is_Some (gethostbyname a host_)) && (0 <=? socket_result a) &&
  negb (use_ssl && (ctx_new a =? 0)).
Definition holdings (a : answers) (use_ssl : bool) : list object :=
  ConnObject :: (if strdup_ok a then [HostCopy] else []) ++
  Descriptor (socket_result a) :: (if use_ssl then [TlsContext (ctx_new a); TlsConnection (ssl_new a)] else []).

Lemma held_app l1 l2 : held (l1 ++ l2) = foldl step_held (held l1) l2.
Proof. unfold held. by rewrite foldl_app. Qed.
Lemma tls_files_held c o h : foldl step_held h (tls_files c o) = h.
Proof. unfold tls_files. by destruct (verify_ssl o), (ca_path o), (client_cert o), (client_key o). Qed.
Lemma tls_files_verify c o : VerifyPeer c ∈ tls_files c o <-> verify_ssl o = true.
Proof.
  unfold tls_files. destruct (verify_ssl o); [split; [done|intros _; by left]|].
  destruct (client_cert o), (client_key o); cbn [app]; split; intros H; try done; rewrite ?elem_of_cons, elem_of_nil in H; naive_solver.
Qed.

Definition conn_of (a : answers) (host_ : list Z) (port_ : Z) (use_ssl : bool) (ip : list Z) : network_conn_t :=
  NetworkConn (socket_result a) (if use_ssl then ssl_new a else 0) (if use_ssl then ctx_new a else 0) use_ssl
    (SockaddrIn AF_INET (htons port_) ip) (if strdup_ok a then Some host_ else None) port_.

Section CreateFacts.
Context (a : answers) (host_ : list Z) (port_ : Z) (use_ssl : bool) (o : mcurl_options_t).
Context (Hip : forall ip, gethostbyname a host_ = Some ip -> length ip = 4%nat).
Context (Hssl : use_ssl = true -> ssl_new a <> 0).

Lemma create_unavailable : available a host_ use_ssl = false ->
  exists l, create_connection a host_ port_ use_ssl o [] = Ret None l /\ held l = [].
Proof using Hip.
  clear Hssl. unfold available, create_connection. destruct (calloc_ok a); cbn [negb andb]; [|by eexists].
  destruct (gethostbyname a host_) as [ip|] eqn:Eip; [rewrite bool_decide_true by eauto|].
  2:{ intros _. destruct (strdup_ok a); by eexists. }
  cbn [andb]. rewrite (Hip ip eq_refl). destruct (Z.ltb_spec (socket_result a) 0) as [Hs|Hs].
  { intros _. destruct (strdup_ok a); by eexists. }
  rewrite (proj2 (Z.leb_le _ _)) by done. cbn [andb]. rewrite negb_false_iff. intros [-> Hc]%andb_true_iff. rewrite Hc.
  destruct (strdup_ok a); (eexists; split; [reflexivity|]); cbn; by repeat (case_decide; cbn; simplify_eq).
Qed.

Lemma create_available : available a host_ use_ssl = true ->
  exists ip l, gethostbyname a host_ = Some ip /\ create_connection a host_ port_ use_ssl o [] = Ret (Some (conn_of a host_ port_ use_ssl ip)) l /\
    held l = holdings a use_ssl /\ SetNonblock (socket_result a) ∈ l /\
    (VerifyPeer (ctx_new a) ∈ l <-> use_ssl && verify_ssl o = true).
Proof using Hip Hssl.
  unfold available, create_connection. destruct (calloc_ok a); cbn [negb andb]; [|done].
  destruct (gethostbyname a host_) as [ip|] eqn:Eip; [rewrite bool_decide_true by eauto|by rewrite bool_decide_false by (intros [? ?]; done)].
  cbn [andb]. pose proof (Hip ip eq_refl) as Hlen. rewrite Hlen. change (4 <? Z.of_nat 4) with false. intros [Hs Hc]%andb_true_iff. apply Z.leb_le in Hs. rewrite (proj2 (Z.ltb_ge (socket_result a) 0) Hs).
  assert (splice 0 ip [0; 0; 0; 0] = ip) as -> by (by apply splice_whole).
  set (start := [Taken ConnObject] ++ (if strdup_ok a then [Taken HostCopy] else []) ++ [Taken (Descriptor (socket_result a)); SetNonblock (socket_result a)]).
  exists ip. destruct use_ssl.
  - cbn [andb negb] in *. apply negb_true_iff in Hc. rewrite Hc, (proj2 (Z.eqb_neq _ _)) by auto.
    exists (start ++ Taken (TlsContext (ctx_new a)) :: tls_files (ctx_new a) o ++ [Taken (TlsConnection (ssl_new a)); SetFd (ssl_new a) (socket_result a)]).
    split_and!; [done|..].
    + unfold start, mcalls, conn_of. destruct (strdup_ok a); cbn; unfold bind, modify; cbn; by rewrite <- ?app_assoc.
    + rewrite held_app. cbn [foldl]. rewrite foldl_app, tls_files_held. unfold start, holdings. by destruct (strdup_ok a).
    + apply elem_of_app. left. unfold start. destruct (strdup_ok a); set_solver.
    + rewrite <- tls_files_verify with (c := ctx_new a). unfold start. destruct (strdup_ok a); set_solver.
  - cbn [andb negb]. exists start. split_and!; [done|..].
    + unfold start, conn_of. by destruct (strdup_ok a).
    + unfold start, holdings. by destruct (strdup_ok a).
    + unfold start. destruct (strdup_ok a); set_solver.
    + unfold start. destruct (strdup_ok a); set_solver.
Qed.
End CreateFacts.

Section TransferFacts.
Context {T P : Type} `{Channel T} `{Channel P}.
Implicit Types (s : @link T P) (c : network_conn_t).

(** [s2] is [s] with [d] handed to the peer by the way of the connection; the other way is
    untouched. *)
Definition hands (d : list Z) (s s2 : @link T P) : Prop :=
  conn s2 = conn s /\
  if is_ssl (conn s) then handed (tls s2) = handed (tls s) ++ d /\ coming (tls s2) = coming (tls s) /\ plain_ s2 = plain_ s
  else handed (plain_ s2) = handed (plain_ s) ++ d /\ coming (plain_ s2) = coming (plain_ s) /\ tls s2 = tls s.
Lemma hands_nil s : hands [] s s.
Proof. unfold hands. rewrite !app_nil_r. by destruct (is_ssl _). Qed.
Lemma hands_app d1 d2 s1 s2 s3 : hands d1 s1 s2 -> hands d2 s2 s3 -> hands (d1 ++ d2) s1 s3.
Proof.
  unfold hands. intros [E1 H1] [E2 H2]. rewrite E1 in H2. split; [congruence|]. rewrite !app_assoc.
  destruct (is_ssl (conn s1)); destruct H1 as (A1 & B1 & C1), H2 as (A2 & B2 & C2); split_and!; congruence.
Qed.

Lemma write_some_spec d s :
  exists r s2, write_some d s = Ret r s2 /\ r <= Z.of_nat (length d) /\ hands (take (Z.to_nat r) d) s s2.
Proof.
  unfold write_some, hands. erewrite (bind_Ret get) by reflexivity. destruct (is_ssl (conn s)) eqn:Es.
  - destruct (chan_write d (tls s)) as [r t] eqn:E. destruct (chan_write_spec _ _ _ _ E) as (A & B & C).
    eexists r, _. split_and!; [reflexivity|done|done|done|done|done].
  - destruct (chan_write d (plain_ s)) as [r t] eqn:E. destruct (chan_write_spec _ _ _ _ E) as (A & B & C).
    eexists r, _. split_and!; [reflexivity|done|done|done|done|done].
Qed.

Lemma send_loop_spec data : Z.of_nat (length data) < 2 ^ 31 -> forall fuel k s, (k <= length data)%nat -> (length data - k < fuel)%nat ->
  exists r n s2, send_loop fuel data (Z.of_nat (length data)) (Z.of_nat k) s = Ret r s2 /\ (k + n <= length data)%nat /\
    hands (slice k n data) s s2 /\ r = if decide (k + n = length data)%nat then MCURL_OK else MCURL_ERROR_CONNECT.
Proof.
  intros Hd. induction fuel as [|fuel IH]; intros k s Hk Hf; [lia|]. cbn [send_loop]. destruct (Z.ltb_spec (Z.of_nat k) (Z.of_nat (length data))) as [Hlt|Hge]; cbn [negb].
  - rewrite Nat2Z.id. replace (Z.to_nat (Z.of_nat (length data) - Z.of_nat k)) with (length data - k)%nat by lia.
    set (rest := slice k (length data - k) data).
    destruct (write_some_spec rest s) as (r & s1 & E & Hr & Hh). rewrite (bind_Ret _ _ _ _ _ E).
    assert (Hrl : length rest = (length data - k)%nat) by (apply slice_length; lia).
    destruct (Z.leb_spec r 0) as [Hr0|Hr0].
    + exists MCURL_ERROR_CONNECT, 0%nat, s1. rewrite Nat.add_0_r, decide_False by lia. split_and!; [done|done|..|done].
      replace (Z.to_nat r) with 0%nat in Hh by lia. exact Hh.
    + rewrite u32_small by lia. replace (Z.of_nat k + r) with (Z.of_nat (k + Z.to_nat r)) by lia.
      destruct (IH (k + Z.to_nat r)%nat s1) as (r2 & n & s2 & E2 & Hn & Hh2 & Hr2); [lia|lia|].
      exists r2, (Z.to_nat r + n)%nat, s2. rewrite Nat.add_assoc. split_and!; [done|done| |done].
      rewrite <- slice_slice. eapply hands_app; [|exact Hh2]. replace (slice k (Z.to_nat r) data) with (take (Z.to_nat r) rest); [exact Hh|].
      unfold rest, slice. rewrite take_take. f_equal. lia.
  - assert (k = length data) as -> by lia. exists MCURL_OK, 0%nat, s. rewrite Nat.add_0_r, decide_True by done.
    split_and!; [done|done|apply hands_nil|done].
Qed.

(** [s2] is [s] after [d] has been read by the way of the connection. *)
Definition takes (d : list Z) (s s2 : @link T P) : Prop :=
  conn s2 = conn s /\
  if is_ssl (conn s) then coming (tls s) = d ++ coming (tls s2) /\ handed (tls s2) = handed (tls s) /\ plain_ s2 = plain_ s
  else coming (plain_ s) = d ++ coming (plain_ s2) /\ handed (plain_ s2) = handed (plain_ s) /\ tls s2 = tls s.
Lemma recv_data_spec size s : 0 <= size ->
  exists r d s2, takes d s s2 /\ (length d <= Z.to_nat size)%nat /\ (r < 0 -> d = []) /\
    recv_data size s = Ret (if r <? 0 then (MCURL_ERROR_CONNECT, None) else (MCURL_OK, Some (Z.of_nat (length d), d))) s2.
Proof.
  intros Hs. unfold recv_data, read_some, takes. destruct (is_ssl (conn s)) eqn:Es.
  - destruct (chan_read size (tls s)) as [[r d] t] eqn:E. destruct (chan_read_spec _ _ _ _ _ Hs E) as (A & B & C & D).
    exists r, d, (Link (conn s) t (plain_ s)). split_and!; [done..|lia|intros; apply length_zero_iff_nil; lia|].
    unfold bind. cbn. rewrite Es, E. cbn. destruct (Z.ltb_spec r 0); [done|]. by rewrite C, Z2Nat.id by done.
  - destruct (chan_read size (plain_ s)) as [[r d] t] eqn:E. destruct (chan_read_spec _ _ _ _ _ Hs E) as (A & B & C & D).
    exists r, d, (Link (conn s) (tls s) t). split_and!; [done..|lia|intros; apply length_zero_iff_nil; lia|].
    unfold bind. cbn. rewrite Es, E. cbn. destruct (Z.ltb_spec r 0); [done|]. by rewrite C, Z2Nat.id by done.
Qed.
End TransferFacts.

(** *** A channel
    A peer that takes as many bytes at a time as the coming answers say, and what it has
    taken and sent. *)
Record wire : Type := Wire { limits : list Z; taken : list Z; to_read : list Z }.
#[export] Program Instance wire_channel : Channel wire := {|
  chan_write d w :=
    let r := Z.min (Z.of_nat (length d)) (default (-1) (head (limits w))) in
    (r, Wire (tail (limits w)) (taken w ++ take (Z.to_nat r) d) (to_read w));
  chan_read n w :=
    let d := take (Z.to_nat n) (to_read w) in
    (Z.of_nat (length d), d, Wire (limits w) (taken w) (drop (Z.to_nat n) (to_read w)));
  handed := taken;
  coming := to_read
|}.
Next Obligation. intros d t r t' E. injection E as <- <-. split_and!; [done|lia|done]. Qed.
Next Obligation.
  intros n t r d t' Hn E. injection E as <- <- <-. cbn. split_and!; [done|by rewrite take_drop|by rewrite Nat2Z.id|].
  rewrite length_take. lia.
Qed.

(** ** Properties *)


(** Three bytes over TLS, taken one and then two at a time; the answer is read. *)
Definition example_answers : answers := Answers true true (fun _ => Some [127; 0; 0; 1]) 5 100 101.
Definition example_options : mcurl_options_t :=
  McurlOptions MCURL_GET MCURL_SSL_ANY MCURL_PROXY_NONE None 0 None None true None None None [] None None 30 300 true 50 false.
