(* ===== verification/SecureClient.v ===== *)
(** * SecureClient

    src/src/secure_comm.c: a client that sets up TLS, asks for authentication with a signed
    message, checks the signed answer and sends data.  The session is the one of SslServer;
    what mbedTLS answers is a parameter, and so is what the stack held where the messages
    are built. *)
From Stdlib Require Import String.
From S2P Require Import Prelude Ipc Mem Bytes Text SslServer.

(** ** Data *)
Definition MSG_TYPE_AUTH_RESPONSE : Z := 2.
Definition MSG_TYPE_DATA : Z := 3.

(** The calls that set the session up, the messages written, and the calls behind the label
    [exit]. *)
Inductive setup_step : Type := ParseCa | SeedDrbg | Defaults | RequireVerification | NetConnect | SetUpSsl.
Inductive secure_event : Type :=
| Setup (c : setup_step)
| Sent (m : list Z)
| Notified | NetFreed | SslFreed | ConfigFreed | CrtFreed | EntropyFreed | DrbgFreed.
Record client : Type := Client { sess : session; trace : list secure_event }.
Definition sess_part : lens client session.
Proof. refine (Lens sess (fun t s => Client t (trace s)) _ _ _); [done|by intros []|done]. Defined.

(** What the library answers: the codes of the setup, the hash, and the signature functions
    with the keys of the two sides. *)
Record client_ops : Type := ClientOps {
  setup_code : setup_step -> Z;
  c_sha256 : list Z -> list Z;
  c_pk_sign : list Z -> Z * list Z;
  c_pk_verify : list Z -> list Z -> Z
}.

Section Client.
Context (ops : client_ops) (WANT_READ WANT_WRITE : Z).

Definition record (e : secure_event) : Cmd client unit := modify (fun s => Client (sess s) (trace s ++ [e])).
(** A call of the setup: [bad] tells the codes that end it. *)
Definition setup_then (c : setup_step) (bad : Z -> bool) (k : Cmd client Z) : Cmd client Z :=
  record (Setup c) ;;;
  if bad (setup_code ops c) then ret (setup_code ops c) else k.
Definition negative (r : Z) : bool := r <? 0.
Definition nonzero (r : Z) : bool := negb (r =? 0).

(** A message of 1096 bytes over what the stack held: the two words, the data that are
    copied, and the signature of the first [len] bytes of all the data; when signing fails
    nothing is stored. *)
Definition build_message (type_ len : Z) (text stack : list Z) : list Z :=
  let m := splice 8 text (splice 0 (le32 type_ ++ le32 len) stack) in
  let '(r, sig) := c_pk_sign ops (c_sha256 ops (take (Z.to_nat len) (data m))) in
  if r =? 0 then splice 1032 sig m else m.
Definition data_text : list Z := str "Secure message from client".
Definition auth_request (stack : list Z) : list Z := build_message MSG_TYPE_AUTH_REQUEST 1024 (str "AUTH_TOKEN") stack.
(** [sprintf] gives the length and stores a terminator too. *)
Definition data_message (stack : list Z) : list Z :=
  build_message MSG_TYPE_DATA (Z.of_nat (length data_text)) (data_text ++ [0]) stack.

Definition write_message (m : list Z) : Cmd client Z := record (Sent m) ;;; zoom sess_part ssl_write.

(** After the handshake: [req_stack] and [data_stack] are the stack below the two messages;
    the response is read over the contents of [buf]. *)
Definition converse (req_stack data_stack : list Z) : Cmd client Z :=
  let* r := write_message (auth_request req_stack) in
  if r <? 0 then ret r else
  let* r := zoom sess_part ssl_read in
  if r <? 0 then ret r else
  let* s := get in
  let resp := buf (sess s) in
  if negb (msg_type resp =? MSG_TYPE_AUTH_RESPONSE) then ret r else
  if Z.of_nat (length (data resp)) <? msg_len resp then fail Fault else
  let v := c_pk_verify ops (c_sha256 ops (take (Z.to_nat (msg_len resp)) (data resp))) (signature resp) in
  if negb (v =? 0) then ret v else
  write_message (data_message data_stack).
Definition exit_calls : list secure_event := [Notified; NetFreed; SslFreed; ConfigFreed; CrtFreed; EntropyFreed; DrbgFreed].
Definition secure_client_example (fuel : nat) (req_stack data_stack : list Z) : Cmd client Z :=
  let* r :=
    setup_then ParseCa negative (setup_then SeedDrbg nonzero (setup_then Defaults nonzero (
    record (Setup RequireVerification) ;;;
    setup_then NetConnect nonzero (setup_then SetUpSsl nonzero (
    let* e := zoom sess_part (handshake_loop WANT_READ WANT_WRITE fuel) in
    match e with
    | Some r => ret r
    | None => converse req_stack data_stack
    end))))) in
  for_each exit_calls record ;;;
  ret r.
End Client.

(** ** The reference: how far a client comes, and what it returns *)
Section Reference.
Context (ops : client_ops).
(** The setup: the calls made and the code of the one that fails. *)
Fixpoint setup_run (l : list (setup_step * (Z -> bool))) : list setup_step * option Z :=
  match l with
  | [] => ([], None)
  | (c, bad) :: l =>
      if bad (setup_code ops c) then ([c], Some (setup_code ops c)) else
      let '(made, r) := setup_run l in (c :: made, r)
  end.
Definition never (r : Z) : bool := false.
Definition setup_list : list (setup_step * (Z -> bool)) :=
  [(ParseCa, negative); (SeedDrbg, nonzero); (Defaults, nonzero); (RequireVerification, never); (NetConnect, nonzero); (SetUpSsl, nonzero)].

(** A response to be trusted: the right type, signed by the server. *)
Definition verify_response (resp : list Z) : Z :=
  c_pk_verify ops (c_sha256 ops (take (Z.to_nat (msg_len resp)) (data resp))) (signature resp).
Definition trusted (resp : list Z) : bool := (msg_type resp =? MSG_TYPE_AUTH_RESPONSE) && (verify_response resp =? 0).

(** The messages after a handshake that ended with [h], and the code; [w1] and [w2] are what
    the writes answer, [r] the read, [resp] the response. *)
Definition client_result (h w1 r w2 : Z) (resp req_stack data_stack : list Z) : list (list Z) * Z :=
  if negb (h =? 0) then ([], h) else
  if w1 <? 0 then ([auth_request ops req_stack], w1) else
  if r <? 0 then ([auth_request ops req_stack], r) else
  if negb (msg_type resp =? MSG_TYPE_AUTH_RESPONSE) then ([auth_request ops req_stack], r) else
  if negb (verify_response resp =? 0) then ([auth_request ops req_stack], verify_response resp) else
  ([auth_request ops req_stack; data_message ops data_stack], w2).
End Reference.

(** ** Facts *)
Section Facts.
Context (ops : client_ops) (WANT_READ WANT_WRITE : Z).

Lemma setup_then_spec c bad k s :
  setup_then ops c bad k s =
    if bad (setup_code ops c) then Ret (setup_code ops c) (Client (sess s) (trace s ++ [Setup c])) else k (Client (sess s) (trace s ++ [Setup c])).
Proof. unfold setup_then. erewrite (bind_Ret (record _)) by reflexivity. by destruct (bad _). Qed.

(** The whole setup as a fold over its list. *)
Definition setup_chain (l : list (setup_step * (Z -> bool))) (k : Cmd client Z) : Cmd client Z :=
  foldr (fun '(c, bad) k => setup_then ops c bad k) k l.
Lemma setup_chain_spec l k s :
  setup_chain l k s =
    match setup_run ops l with
    | (made, Some r) => Ret r (Client (sess s) (trace s ++ (Setup <$> made)))
    | (made, None) => k (Client (sess s) (trace s ++ (Setup <$> made)))
    end.
Proof.
  revert s. induction l as [|[c bad] l IH]; intros s; cbn [setup_chain foldr setup_run].
  - rewrite app_nil_r. by destruct s.
  - rewrite setup_then_spec. destruct (bad (setup_code ops c)); [done|]. change (foldr _ k l) with (setup_chain l k). rewrite IH. cbn [sess trace].
    destruct (setup_run ops l) as [made [r|]]; by rewrite fmap_cons, <- app_assoc.
Qed.
Lemma setup_chain_eq k :
  setup_then ops ParseCa negative (setup_then ops SeedDrbg nonzero (setup_then ops Defaults nonzero (
    record (Setup RequireVerification) ;;; setup_then ops NetConnect nonzero (setup_then ops SetUpSsl nonzero k)))) = setup_chain setup_list k.
Proof. reflexivity. Qed.

Lemma exit_spec (r : Z) s : (for_each exit_calls record ;;; ret r) s = Ret r (Client (sess s) (trace s ++ exit_calls)).
Proof. unfold exit_calls, record, modify, bind. cbn. by rewrite <- !app_assoc. Qed.

Lemma write_message_spec m s w rest : writes (sess s) = w :: rest ->
  write_message m s = Ret w (Client (Session (handshakes (sess s)) (reads (sess s)) rest (buf (sess s)) (events (sess s))) (trace s ++ [Sent m])).
Proof.
  intros H. unfold write_message. erewrite (bind_Ret (record _)) by reflexivity. erewrite zoom_Ret; [reflexivity|].
  unfold ssl_write. erewrite (bind_Ret get) by reflexivity. cbn [view sess_part sess]. by rewrite H.
Qed.

Definition response_buffer (d : list Z) (s : client) : list Z := splice 0 d (buf (sess s)).
Lemma converse_spec req_stack data_stack w1 w2 wrest r d rrest s :
  writes (sess s) = w1 :: w2 :: wrest -> reads (sess s) = (r, d) :: rrest ->
  (0 <= w1 -> 0 <= r -> msg_type (response_buffer d s) = MSG_TYPE_AUTH_RESPONSE -> msg_len (response_buffer d s) <= Z.of_nat (length (data (response_buffer d s)))) ->
  exists s', converse ops req_stack data_stack s = Ret (snd (client_result ops 0 w1 r w2 (response_buffer d s) req_stack data_stack)) s' /\
    trace s' = trace s ++ (Sent <$> fst (client_result ops 0 w1 r w2 (response_buffer d s) req_stack data_stack)).
Proof.
  intros Hw Hr Hl. unfold converse, client_result. rewrite (bind_Ret _ _ _ _ _ (write_message_spec _ _ _ _ Hw)). cbn [negb Z.eqb].
  destruct (Z.ltb_spec w1 0); [by eexists|].
  set (s1 := Client _ _). erewrite (bind_Ret (zoom sess_part ssl_read)) by (apply zoom_Ret, read_spec; exact Hr).
  destruct (Z.ltb_spec r 0); [by eexists|]. erewrite (bind_Ret get) by reflexivity. cbn [upd sess_part sess buf view s1].
  fold (response_buffer d s). destruct (Z.eqb_spec (msg_type (response_buffer d s)) MSG_TYPE_AUTH_RESPONSE) as [Ht|Ht]; cbn [negb]; [|by eexists].
  rewrite (proj2 (Z.ltb_ge _ _)) by auto. fold (verify_response ops (response_buffer d s)).
  destruct (negb (verify_response ops (response_buffer d s) =? 0)); [by eexists|]. cbn [fst snd].
  erewrite write_message_spec by reflexivity. eexists. split; [reflexivity|]. cbn. by rewrite <- app_assoc.
Qed.

Lemma client_spec hs h hrest w1 w2 wrest r d rrest req_stack data_stack fuel s :
  Forall (fun x => x <> 0 /\ wanted WANT_READ WANT_WRITE x) hs -> (h <> 0 -> want WANT_READ WANT_WRITE h = false) ->
  handshakes (sess s) = hs ++ h :: hrest -> (length hs < fuel)%nat ->
  writes (sess s) = w1 :: w2 :: wrest -> reads (sess s) = (r, d) :: rrest ->
  (0 <= w1 -> 0 <= r -> msg_type (response_buffer d s) = MSG_TYPE_AUTH_RESPONSE -> msg_len (response_buffer d s) <= Z.of_nat (length (data (response_buffer d s)))) ->
  let '(made, failed) := setup_run ops setup_list in
  let '(messages, code) := match failed with
    | Some c => ([], c)
    | None => client_result ops h w1 r w2 (response_buffer d s) req_stack data_stack
    end in
  exists s', secure_client_example ops WANT_READ WANT_WRITE fuel req_stack data_stack s = Ret code s' /\
    trace s' = trace s ++ (Setup <$> made) ++ (Sent <$> messages) ++ exit_calls.
Proof.
  intros Hhs Hh Ehs Hf Hw Hr Hl. unfold secure_client_example. rewrite setup_chain_eq.
  pose proof (setup_chain_spec setup_list (let* e := zoom sess_part (handshake_loop WANT_READ WANT_WRITE fuel) in
    match e with Some r => ret r | None => converse ops req_stack data_stack end) s) as Hc.
  destruct (setup_run ops setup_list) as [made [c|]].
  { rewrite (bind_Ret _ _ _ _ _ Hc), exit_spec. eexists. split; [reflexivity|]. cbn. by rewrite <- app_assoc. }
  set (s1 := Client (sess s) (trace s ++ (Setup <$> made))) in *.
  erewrite (bind_Ret (zoom _ _)) in Hc by (apply zoom_Ret, (handshake_ends WANT_READ WANT_WRITE hs h fuel _ hrest); done).
  unfold client_result. destruct (Z.eqb_spec h 0) as [->|Hh0]; cbn [negb].
  - cbn [upd sess_part view s1 sess trace] in Hc. set (s2 := Client _ _) in Hc.
    destruct (converse_spec req_stack data_stack w1 w2 wrest r d rrest s2 Hw Hr Hl) as (s3 & E & Ht).
    rewrite E in Hc. change (response_buffer d s2) with (response_buffer d s) in *.
    fold (client_result ops 0 w1 r w2 (response_buffer d s) req_stack data_stack).
    rewrite (bind_Ret _ _ _ _ _ Hc), exit_spec.
    unfold client_result in *. cbn [Z.eqb negb] in *.
    destruct (if w1 <? 0 then _ else _) as [messages code]. cbn [fst snd] in *.
    eexists. split; [reflexivity|]. cbn [trace]. rewrite Ht. cbn [s2 trace]. by rewrite <- !app_assoc.
  - rewrite (bind_Ret _ _ _ _ _ Hc), exit_spec. eexists. split; [reflexivity|]. cbn. by rewrite <- app_assoc.
Qed.
End Facts.

(** What a message leaves of the stack: everything between the data copied and the
    signature. *)
Lemma build_message_stack ops type_ len text stack k : length stack = 1096%nat -> (length text <= k <= 1024)%nat ->
  (forall h, length (snd (c_pk_sign ops h)) = 64%nat) ->
  slice (8 + k) (1024 - k) (build_message ops type_ len text stack) = slice (8 + k) (1024 - k) stack.
Proof.
  intros Hs Hk Hsig. apply list_eq. intros i. rewrite !slice_lookup. case_decide as Hi; [|done]. unfold build_message.
  set (m0 := splice 0 (le32 type_ ++ le32 len) stack).
  assert (L0 : length m0 = 1096%nat) by (unfold m0; rewrite splice_length; [done|cbn; lia]).
  assert (L1 : length (splice 8 text m0) = 1096%nat) by (rewrite splice_length; lia).
  assert (E : splice 8 text m0 !! (8 + k + i)%nat = stack !! (8 + k + i)%nat).
  { rewrite splice_lookup by lia. rewrite decide_False by lia. unfold m0. rewrite splice_lookup by (cbn; lia). by rewrite decide_False by (cbn; lia). }
  pose proof (Hsig (c_sha256 ops (take (Z.to_nat len) (data (splice 8 text m0))))) as Hlen.
  destruct (c_pk_sign ops _) as [r sig]. cbn [snd] in Hlen. destruct (r =? 0); [|done].
  rewrite splice_lookup by lia. by rewrite decide_False by lia.
Qed.

(** What is left when the outcome of a run is known. *)
Ltac settle :=
  split_and!; try done; try (by eexists); cbn; intros; destruct_and?; try lia; first [done | naive_solver lia].

(** ** Properties *)

(** C19. The client trusts nobody before the check.  However often the handshake has to be
    repeated and whatever the calls answer, the client makes the calls of the setup in
    order up to the first that fails, the verification of the server being required before
    the connection is made; it writes nothing before the handshake is complete; the data
    are written exactly when the request was written and the response read, has the type
    of an answer and is signed by the server for the data that its length names; and every
    path ends with the same seven calls that close and free everything, once.  But a
    response of another type makes it return the number of bytes read, which is no error;
    the request carries 1014 bytes of whatever the stack held; and a response with a length
    of more than 1088 is hashed beyond its end before its signature is looked at. *)
Theorem secure_client_trusts (ops : client_ops) (WANT_READ WANT_WRITE h w1 w2 r : Z) (hs hrest wrest d req_stack data_stack : list Z)
    (rrest : list (Z * list Z)) (fuel : nat) (s : client)
    (Hhs : Forall (fun x => x <> 0 /\ want WANT_READ WANT_WRITE x = true) hs)
    (Hh : h <> 0 -> want WANT_READ WANT_WRITE h = false)
    (Ehs : handshakes (sess s) = hs ++ h :: hrest) (Hf : (length hs < fuel)%nat)
    (Ew : writes (sess s) = w1 :: w2 :: wrest) (Er : reads (sess s) = (r, d) :: rrest) :
  let resp := splice 0 d (buf (sess s)) in
  let '(made, failed) := setup_run ops setup_list in
  (msg_len resp <= Z.of_nat (length (data resp)) ->
     exists code messages s', secure_client_example ops WANT_READ WANT_WRITE fuel req_stack data_stack s = Ret code s' /\
       trace s' = trace s ++ (Setup <$> made) ++ (Sent <$> messages) ++ exit_calls /\
       made `prefix_of` [ParseCa; SeedDrbg; Defaults; RequireVerification; NetConnect; SetUpSsl] /\
       messages `prefix_of` [auth_request ops req_stack; data_message ops data_stack] /\
       (messages <> [] <-> failed = None /\ h = 0) /\
       (length messages = 2%nat <-> failed = None /\ h = 0 /\ 0 <= w1 /\ 0 <= r /\ trusted ops resp = true) /\
       (failed = None -> h = 0 -> 0 <= w1 -> 0 <= r -> msg_type resp <> MSG_TYPE_AUTH_RESPONSE -> code = r)) /\
  (length req_stack = 1096%nat -> (forall x, length (snd (c_pk_sign ops x)) = 64%nat) ->
     slice 18 1014 (auth_request ops req_stack) = slice 18 1014 req_stack) /\
  (failed = None -> h = 0 -> 0 <= w1 -> 0 <= r -> msg_type resp = MSG_TYPE_AUTH_RESPONSE -> Z.of_nat (length (data resp)) < msg_len resp ->
     secure_client_example ops WANT_READ WANT_WRITE fuel req_stack data_stack s = Stop Fault).
Proof.
  intros resp. destruct (setup_run ops setup_list) as [made failed] eqn:Erun. split_and!.
  - intros Hl. pose proof (client_spec ops WANT_READ WANT_WRITE hs h hrest w1 w2 wrest r d rrest req_stack data_stack fuel s Hhs Hh Ehs Hf Ew Er (fun _ _ _ => Hl)) as Hc.
    rewrite Erun in Hc. change (response_buffer d s) with resp in Hc.
    assert (Hmade : made `prefix_of` [ParseCa; SeedDrbg; Defaults; RequireVerification; NetConnect; SetUpSsl]).
    { revert Erun. cbn. repeat (destruct (negative _) || destruct (nonzero _)); intros [= <- <-]; by eexists. }
    destruct failed as [c|].
    { destruct Hc as (s' & E & Ht). exists c, [], s'. settle. }
    unfold client_result, trusted in *. fold (verify_response ops resp) in *.
    destruct (Z.eqb_spec h 0) as [->|Hh0]; cbn [negb] in Hc.
    2:{ destruct Hc as (s' & E & Ht). exists h, [], s'. settle. }
    destruct (Z.ltb_spec w1 0) as [Hw|Hw].
    { destruct Hc as (s' & E & Ht). eexists _, [_], s'. settle. }
    destruct (Z.ltb_spec r 0) as [Hr|Hr].
    { destruct Hc as (s' & E & Ht). eexists _, [_], s'. settle. }
    destruct (Z.eqb_spec (msg_type resp) MSG_TYPE_AUTH_RESPONSE) as [Hty|Hty]; cbn [negb] in Hc.
    2:{ destruct Hc as (s' & E & Ht). eexists _, [_], s'. settle. }
    destruct (Z.eqb_spec (verify_response ops resp) 0) as [Hv|Hv]; cbn [negb] in Hc.
    2:{ destruct Hc as (s' & E & Ht). eexists _, [_], s'. settle. }
    destruct Hc as (s' & E & Ht). eexists _, [_; _], s'. settle.
  - intros Hs Hsig. by apply (build_message_stack ops MSG_TYPE_AUTH_REQUEST 1024 (str "AUTH_TOKEN") req_stack 10); [|cbn; lia|].
  - intros -> -> Hw Hr Hty Hl. unfold secure_client_example. rewrite setup_chain_eq. apply bind_Stop.
    rewrite setup_chain_spec, Erun.
    erewrite (bind_Ret (zoom _ _)) by (apply zoom_Ret, (handshake_ends WANT_READ WANT_WRITE hs 0 fuel _ hrest); done).
    cbn [Z.eqb upd sess_part sess view trace]. unfold converse.
    erewrite (bind_Ret (write_message _)) by (apply write_message_spec; exact Ew). rewrite (proj2 (Z.ltb_ge _ _)) by done.
    erewrite (bind_Ret (zoom _ ssl_read)) by (apply zoom_Ret, read_spec; exact Er). rewrite (proj2 (Z.ltb_ge _ _)) by done.
    erewrite (bind_Ret get) by reflexivity. cbn [upd sess_part sess buf view]. fold resp. rewrite Hty. cbn [Z.eqb negb MSG_TYPE_AUTH_RESPONSE Pos.eqb].
    by rewrite (proj2 (Z.ltb_lt _ _)).
Qed.

(** A response whose signature starts with the first byte of its data. *)
Definition toy_client_ops : client_ops := {|
  setup_code := fun _ => 0;
  c_sha256 := fun l => take 1 l;
  c_pk_sign := fun h => (0, take 64 (h ++ replicate 64 0));
  c_pk_verify := fun h sig => if decide (take 1 sig = h) then 0 else -1
|}.
Definition toy_response (sig : Z) : list Z := le32 2 ++ le32 1 ++ [9] ++ replicate (Z.to_nat 1023) 0 ++ [sig] ++ replicate 63 0.
Definition toy_client (sig : Z) : client :=
  Client (Session [-1; 0] [(1096, toy_response sig)] [1096; 1096] (replicate (Z.to_nat 1096) 5) []) [].
Lemma secure_client_trusts_witness :
  (exists s', secure_client_example toy_client_ops (-1) (-2) 5 (replicate (Z.to_nat 1096) 5) (replicate (Z.to_nat 1096) 5) (toy_client 9) = Ret 1096 s' /\
     exists messages, length messages = 2%nat /\
     trace s' = (Setup <$> [ParseCa; SeedDrbg; Defaults; RequireVerification; NetConnect; SetUpSsl]) ++ (Sent <$> messages) ++ exit_calls).
Proof.
  pose proof (secure_client_trusts toy_client_ops (-1) (-2) 0 1096 1096 1096 [-1] [] [] (toy_response 9)
    (replicate (Z.to_nat 1096) 5) (replicate (Z.to_nat 1096) 5) [] 5 (toy_client 9)) as H.
  destruct H as [H _]; [by repeat constructor|done|reflexivity|cbn; lia|reflexivity|reflexivity|].
  destruct H as (code & messages & s' & E & Ht & _ & _ & _ & Hm & _); [vm_compute; discriminate|].
  exists s'. assert (Hc : exists s2, secure_client_example toy_client_ops (-1) (-2) 5 (replicate (Z.to_nat 1096) 5) (replicate (Z.to_nat 1096) 5) (toy_client 9) = Ret 1096 s2)
    by (eexists; vm_compute; reflexivity).
  destruct Hc as [s2 E2]. rewrite E2 in E. injection E as <- <-. split; [exact E2|].
  exists messages. split; [apply Hm; by vm_compute|exact Ht].
Defined.
