(* ===== verification/Platform.v ===== *)
(** * Platform

    src/src/platform_alt.c: the hooks under mbedTLS.  Memory, time and the random number
    generator of the hardware are the system's and are parameters. *)
From S2P Require Import Prelude Ipc Mem Bytes.

(** ** Memory and time *)
(** The pointers the library calls through. *)
Record hooks (F : Type) : Type := Hooks { mbedtls_calloc : F; mbedtls_free : F }.
Arguments Hooks {F} mbedtls_calloc mbedtls_free.
Definition mbedtls_platform_set_calloc_free {F} (calloc_func free_func : F) : Cmd (hooks F) Z :=
  put (Hooks calloc_func free_func) ;;; ret 0.

(** [os_malloc] answers a block of so many bytes, or NULL; the result is the block. *)
Definition platform_calloc (os_malloc : Z -> option (list Z)) (n size : Z) : option (list Z) :=
  let total := u32 (n * size) in
  match os_malloc total with
  | None => None
  | Some block => Some (splice 0 (replicate (Z.to_nat total) 0) block)
  end.

(** [timer]: what the pointer points to, [None] for NULL; the result and what is there then. *)
Definition mbedtls_time (os_get_time : Z) (timer : option Z) : Z * option Z :=
  (os_get_time, match timer with Some _ => Some os_get_time | None => None end).

(** ** Entropy *)
(** [memcpy] into the output buffer. *)
Definition store_at (at_ : Z) (d : list Z) : Cmd (list Z) unit :=
  let* out := get in
  if Z.of_nat (length out) <? at_ + Z.of_nat (length d) then fail Fault else put (splice (Z.to_nat at_) d out).
(** [words]: what [hw_get_random] answers from here on. *)
Fixpoint poll_loop (words : list Z) (len available : Z) : Cmd (list Z) unit :=
  if negb (available <? len) then ret tt else
  match words with
  | [] => fail NoFuel
  | random :: words =>
      let chunk := if len - available <? 4 then len - available else 4 in
      store_at available (take (Z.to_nat chunk) (le32 random)) ;;;
      poll_loop words len (available + chunk)
  end.
(** The code and what is stored at [olen]. *)
Definition mbedtls_hardware_poll (words : list Z) (len : Z) : Cmd (list Z) (Z * Z) :=
  poll_loop words len 0 ;;; ret (0, len).

(** ** Facts *)
Lemma length_words l : length (concat (le32 <$> l)) = (4 * length l)%nat.
Proof. induction l as [|w l IH]; [done|]. rewrite fmap_cons. cbn [concat]. rewrite length_app, IH. cbn. lia. Qed.

Lemma poll_loop_spec words : forall len k out, (k <= len <= length out)%nat -> (len <= k + 4 * length words)%nat ->
  poll_loop words (Z.of_nat len) (Z.of_nat k) out = Ret tt (splice k (take (len - k) (concat (le32 <$> words))) out).
Proof.
  induction words as [|w words IH]; intros len k out Hk Hw; cbn [poll_loop length] in *.
  - assert (k = len) as -> by lia. rewrite (proj2 (Z.ltb_ge _ _)) by lia. by rewrite Nat.sub_diag, take_0, splice_nil.
  - destruct (Z.ltb_spec (Z.of_nat k) (Z.of_nat len)) as [Hlt|Hge]; cbn [negb].
    2:{ assert (k = len) as -> by lia. by rewrite Nat.sub_diag, take_0, splice_nil. }
    set (chunk := Nat.min (len - k) 4).
    assert ((if Z.of_nat len - Z.of_nat k <? 4 then Z.of_nat len - Z.of_nat k else 4) = Z.of_nat chunk) as ->
      by (destruct (Z.ltb_spec (Z.of_nat len - Z.of_nat k) 4); lia).
    rewrite Nat2Z.id. assert (Hc : length (take chunk (le32 w)) = chunk) by (rewrite length_take; cbn; lia).
    rewrite (bind_Ret _ _ _ tt (splice k (take chunk (le32 w)) out)).
    2:{ unfold store_at. erewrite (bind_Ret get) by reflexivity. rewrite Hc, (proj2 (Z.ltb_ge _ _)), Nat2Z.id by lia. done. }
    rewrite <- Nat2Z.inj_add. rewrite IH by (rewrite ?splice_length; lia). f_equal.
    rewrite fmap_cons. cbn [concat]. replace (len - k)%nat with (chunk + (len - (k + chunk)))%nat by lia.
    destruct (decide (chunk = 4%nat)) as [E|E].
    + rewrite E in Hc |- *. change (take 4 (le32 w)) with (le32 w) in *. rewrite <- Hc at 1. rewrite splice_splice.
      2:{ rewrite length_take, length_words. cbn. lia. }
      done.
    + assert (len - (k + chunk) = 0)%nat as -> by lia. rewrite take_0, splice_nil, Nat.add_0_r.
      f_equal. rewrite take_app_le; [done|cbn; lia].
Qed.

(** ** Theorems *)
(** The poll ends after one random number for four bytes and fills exactly the bytes asked
    for: with the bytes of the numbers in order, the last cut to what is left; nothing
    beyond is touched. *)
Theorem hardware_poll_fills (words out : list Z) (len : nat) :
  (len <= length out)%nat -> (len <= 4 * length words)%nat ->
  mbedtls_hardware_poll words (Z.of_nat len) out = Ret (0, Z.of_nat len) (take len (concat (le32 <$> words)) ++ drop len out).
Proof.
  intros H1 H2. unfold mbedtls_hardware_poll. erewrite (bind_Ret (poll_loop _ _ _)) by (apply (poll_loop_spec words len 0); lia).
  unfold ret, splice. rewrite Nat.sub_0_r, take_0, length_take, length_words. cbn [app Nat.add]. by rewrite Nat.min_l by lia.
Qed.

(** [platform_calloc] clears the block it gets; but the product of the two numbers is cut to
    32 bits, so that it answers a request of 4 GB and more with a block that is too
    short. *)
Theorem platform_calloc_short (os_malloc : Z -> option (list Z)) (n size : Z) (b : list Z) :
  (forall k b, os_malloc k = Some b -> length b = Z.to_nat k) -> 0 <= n -> 0 <= size ->
  platform_calloc os_malloc n size = Some b ->
  b = replicate (length b) 0 /\ (Z.of_nat (length b) = n * size <-> n * size < 2 ^ 32).
Proof.
  unfold platform_calloc. intros Hm Hn Hs. pose proof (u32_range (n * size)) as Hr. set (total := u32 (n * size)) in *.
  destruct (os_malloc total) as [block|] eqn:E; [|done]. specialize (Hm _ _ E). intros [= <-].
  rewrite splice_whole by (by rewrite length_replicate). rewrite length_replicate. split; [done|].
  rewrite Z2Nat.id by lia. split; intros H; [lia|]. apply u32_small. nia.
Qed.
