(* ===== verification/Startup.v ===== *)
(** * Startup

    src/src/system_init.c, main.c, uart.c, led.c and timer.c: the board, whose registers are
    reached through the MMU of Mmu.v, the console on it, and the start of the system over
    the interrupt controller of Interrupt.v, the tasks of Task.v and the scheduler of
    Sched.v. *)
From Stdlib Require Import String.
From S2P Require Import Prelude Ipc Text Task WaitQueue RbTree RbSearch Fair Mlfq RtSched Sched Mmu Interrupt.

(** ** The board *)
Definition UART_BASE : Z := 268472320.
Definition UART_DR : Z := UART_BASE.
Definition UART_FR : Z := UART_BASE + 24.
Definition UART_IBRD : Z := UART_BASE + 36.
Definition UART_FBRD : Z := UART_BASE + 40.
Definition UART_LCRH : Z := UART_BASE + 44.
Definition UART_CR : Z := UART_BASE + 48.
Definition LED_CTRL : Z := 268500992.

(** [plain_regs]: the registers that keep what is written.  The serial line: what the flag
    register answers from here on, the bytes sent and those received and not read. *)
Record board : Type := Board {
  b_mmu : mmu;
  b_gic : gic;
  b_sched : sched;
  plain_regs : Z -> Z;
  flags : list Z;
  sent : list Z;
  received : list Z
}.
Definition mmu_part : lens board mmu.
Proof.
  refine (Lens b_mmu (fun m b => Board m (b_gic b) (b_sched b) (plain_regs b) (flags b) (sent b) (received b)) _ _ _); [done|by intros []|done].
Defined.
Definition gic_part : lens board gic.
Proof.
  refine (Lens b_gic (fun g b => Board (b_mmu b) g (b_sched b) (plain_regs b) (flags b) (sent b) (received b)) _ _ _); [done|by intros []|done].
Defined.
Definition sched_part : lens board sched.
Proof.
  refine (Lens b_sched (fun s b => Board (b_mmu b) (b_gic b) s (plain_regs b) (flags b) (sent b) (received b)) _ _ _); [done|by intros []|done].
Defined.

Section Board.
(** The address of the register that clears the timer's interrupt, which no file defines. *)
Context (TIMER_INTCLR : Z).

(** The physical address of an access: the address itself while the MMU is off; then what the
    processor holds, or the walk of the table. *)
Definition physical (m : mmu) (va : Z) : option Z :=
  if Z.testbit (sctlr m) 0 then
    match match tlb m (Z.shiftr va 20) with Some e => translate e va | None => walk m va end with
    | Some (pa, _, _) => Some pa
    | None => None
    end
  else Some va.
Definition is_plain (pa : Z) : bool :=
  bool_decide (pa ∈ [UART_IBRD; UART_FBRD; UART_LCRH; UART_CR; LED_CTRL; TIMER_INTCLR]).

Definition write_reg (va v : Z) : Cmd board unit :=
  let* b := get in
  let* pa := deref (physical (b_mmu b) va) in
  if pa =? UART_DR then put (Board (b_mmu b) (b_gic b) (b_sched b) (plain_regs b) (flags b) (sent b ++ [u8 v]) (received b))
  else if is_plain pa then
    put (Board (b_mmu b) (b_gic b) (b_sched b) (fun a => if a =? pa then u32 v else plain_regs b a) (flags b) (sent b) (received b))
  else fail Fault.
(** Reading the data register takes the next byte received; with none it gives what is left
    there, a byte of no meaning. *)
Definition read_reg (va : Z) : Cmd board Z :=
  let* b := get in
  let* pa := deref (physical (b_mmu b) va) in
  if pa =? UART_FR then
    match flags b with
    | [] => fail NoFuel
    | f :: l => put (Board (b_mmu b) (b_gic b) (b_sched b) (plain_regs b) l (sent b) (received b)) ;;; ret f
    end
  else if pa =? UART_DR then
    put (Board (b_mmu b) (b_gic b) (b_sched b) (plain_regs b) (flags b) (sent b) (drop 1 (received b))) ;;; ret (default 0 (list.head (received b)))
  else if is_plain pa then ret (plain_regs b pa)
  else fail Fault.

(** ** The console and the LED *)
Definition uart_init : Cmd board unit :=
  write_reg UART_CR 0 ;;;
  write_reg UART_IBRD 13 ;;;
  write_reg UART_FBRD 1 ;;;
  write_reg UART_LCRH 96 ;;;
  write_reg UART_CR 769.
(** [while (UART_FR & (1 << bit));]: each round reads the register once. *)
Fixpoint wait_clear (fuel : nat) (bit : Z) : Cmd board unit :=
  match fuel with
  | O => fail NoFuel
  | S fuel' =>
      let* f := read_reg UART_FR in
      if Z.testbit f bit then wait_clear fuel' bit else ret tt
  end.
Definition uart_putc (fuel : nat) (c : Z) : Cmd board unit :=
  wait_clear fuel 5 ;;; write_reg UART_DR c.
Definition uart_getc (fuel : nat) : Cmd board Z :=
  wait_clear fuel 4 ;;;
  let* v := read_reg UART_DR in
  ret (u8 v).
(** [s]: the bytes from the pointer on. *)
Fixpoint uart_puts (fuel : nat) (s : list Z) : Cmd board unit :=
  match s with
  | [] => fail Fault
  | c :: s => if c =? 0 then ret tt else uart_putc fuel c ;;; uart_puts fuel s
  end.

Definition led_init : Cmd board unit :=
  let* v := read_reg LED_CTRL in write_reg LED_CTRL (Z.land v (Z.lnot 1)).
Definition led_on : Cmd board unit :=
  let* v := read_reg LED_CTRL in write_reg LED_CTRL (Z.lor v 1).
Definition led_off : Cmd board unit :=
  let* v := read_reg LED_CTRL in write_reg LED_CTRL (Z.land v (Z.lnot 1)).

(** ** The start of the system

    What is called and defined nowhere, and the numbers the sources do not fix: the addresses
    of the entries and what [malloc] answers for the four stacks. *)
Context (BASE_QUANTUM : Z) (scheduler_fair_init : Cmd fair unit) (scheduler_rt_next : Cmd rts ptr) (timer_init : Cmd board unit).
Context (fuel : nat) (task_exit_addr idle_entry : Z) (entry stk : nat -> Z).

(** [system_ticks] is the clock of the scheduler. *)
Definition timer_irq_handler : Cmd board unit :=
  write_reg TIMER_INTCLR 1 ;;;
  zoom sched_part (modify (fun s => Sched (scheduler_state s) (current_policy s) (stats s) (s_kern s) (s_queues s) (s_params s)
    (s_boost s) (s_rt s) (s_tree s) (u32 (s_ticks s + 1)))) ;;;
  zoom sched_part (scheduler_tick fuel).

Definition line (s : string) : list Z := str s ++ CRLF ++ [0].
Definition puts (s : string) : Cmd board unit := uart_puts fuel (line s).
(** The example tasks: a line and a pause, [n] times of the endless loop. *)
Fixpoint task_loop (n : nat) (s : string) (ms : Z) : Cmd board unit :=
  match n with
  | O => fail NoFuel
  | S n' => puts s ;;; zoom sched_part (zoom tasks_part (task_sleep ms)) ;;; task_loop n' s ms
  end.
Definition task1 (n : nat) : Cmd board unit := task_loop n "Task 1 running..." 1000.
Definition task2 (n : nat) : Cmd board unit := task_loop n "Task 2 running..." 1500.
Definition task3 (n : nat) : Cmd board unit := task_loop n "Task 3 running..." 2000.

(** [system_init] up to the tasks. *)
Definition start_devices : Cmd board unit :=
  uart_init ;;;
  puts "System initializing..." ;;;
  zoom mmu_part mmu_init ;;;
  zoom mmu_part mmu_enable ;;;
  puts "MMU initialized" ;;;
  zoom gic_part interrupt_init ;;;
  puts "Interrupt system initialized" ;;;
  timer_init ;;;
  puts "Timer initialized".
Definition start_tasks : Cmd board unit :=
  zoom sched_part (zoom tasks_part (task_init task_exit_addr idle_entry (stk 0%nat))) ;;;
  puts "Task system initialized" ;;;
  zoom sched_part (scheduler_init BASE_QUANTUM scheduler_fair_init) ;;;
  zoom sched_part (scheduler_set_policy SCHEDULER_POLICY_PRIORITY) ;;;
  puts "Scheduler initialized" ;;;
  let create i nm prio := zoom sched_part (zoom tasks_part (task_create task_exit_addr (stk i) (str nm) (entry i) prio DEFAULT_STACK_SIZE)) in
  let* t1 := create 1%nat "task1"%string TASK_PRIORITY_NORMAL in
  let* t2 := create 2%nat "task2"%string TASK_PRIORITY_HIGH in
  let* t3 := create 3%nat "task3"%string TASK_PRIORITY_LOW in
  (match t1, t2, t3 with
   | Some _, Some _, Some _ => ret tt
   | _, _, _ => puts "Failed to create tasks!" ;;; fail Hang
   end) ;;;
  puts "Tasks created" ;;;
  puts "System initialization complete!" ;;;
  zoom sched_part (scheduler_start scheduler_rt_next fuel).
Definition system_init : Cmd board unit := start_devices ;;; start_tasks.
Definition main : Cmd board unit := system_init ;;; fail Hang.
End Board.

(** ** Facts *)
(** Every register of the board is reached at its own address. *)
Definition reaches (m : mmu) : Prop := forall va, 0 <= va < 1073741824 -> physical m va = Some va.
Lemma reaches_off m : Z.testbit (sctlr m) 0 = false -> reaches m.
Proof. intros H va _. unfold physical. by rewrite H. Qed.

Section Facts.
Context (TIMER_INTCLR : Z).
Implicit Types (b : board).

Definition set_plain (va v : Z) b : board :=
  Board (b_mmu b) (b_gic b) (b_sched b) (fun a => if a =? va then u32 v else plain_regs b a) (flags b) (sent b) (received b).
Definition set_line (fl out : list Z) b : board :=
  Board (b_mmu b) (b_gic b) (b_sched b) (plain_regs b) fl out (received b).
Lemma write_plain va v b : reaches (b_mmu b) -> 0 <= va < 1073741824 -> is_plain TIMER_INTCLR va = true -> va <> UART_DR ->
  write_reg TIMER_INTCLR va v b = Ret tt (set_plain va v b).
Proof.
  intros Hr Hva Hp Hne. unfold write_reg. erewrite (bind_Ret get) by reflexivity. rewrite (Hr va Hva).
  unfold deref. erewrite (bind_Ret (ret va)) by reflexivity. by rewrite (proj2 (Z.eqb_neq _ _) Hne), Hp.
Qed.
Lemma write_data c b : reaches (b_mmu b) -> write_reg TIMER_INTCLR UART_DR c b = Ret tt (set_line (flags b) (sent b ++ [u8 c]) b).
Proof. intros Hr. unfold write_reg. erewrite (bind_Ret get) by reflexivity. by rewrite (Hr UART_DR) by (unfold UART_DR, UART_BASE; lia). Qed.
Lemma read_flag f l b : reaches (b_mmu b) -> flags b = f :: l -> read_reg TIMER_INTCLR UART_FR b = Ret f (set_line l (sent b) b).
Proof.
  intros Hr Hf. unfold read_reg. erewrite (bind_Ret get) by reflexivity. rewrite (Hr UART_FR) by (unfold UART_FR, UART_BASE; lia).
  unfold deref. erewrite (bind_Ret (ret UART_FR)) by reflexivity. by rewrite Z.eqb_refl, Hf.
Qed.

Lemma is_plain_uart va : va ∈ [UART_IBRD; UART_FBRD; UART_LCRH; UART_CR; LED_CTRL] -> is_plain TIMER_INTCLR va = true.
Proof. intros H. apply bool_decide_eq_true. set_solver. Qed.
Lemma uart_init_spec b : reaches (b_mmu b) ->
  uart_init TIMER_INTCLR b =
    Ret tt (set_plain UART_CR 769 (set_plain UART_LCRH 96 (set_plain UART_FBRD 1 (set_plain UART_IBRD 13 (set_plain UART_CR 0 b))))).
Proof.
  intros Hr. unfold uart_init.
  do 4 (erewrite bind_Ret by (apply write_plain; [done|done|apply is_plain_uart; set_solver|done])).
  apply write_plain; [done|done|apply is_plain_uart; set_solver|done].
Qed.

(** What the flag register answers before each byte: so often busy, then ready. *)
Definition script (l : list (list Z * Z)) : list Z := concat ((fun r => r.1 ++ [r.2]) <$> l).
Definition ready (bit : Z) (fuel : nat) (r : list Z * Z) : Prop :=
  Forall (fun f => Z.testbit f bit = true) r.1 /\ Z.testbit r.2 bit = false /\ (length r.1 < fuel)%nat.
Lemma wait_clear_spec bit busy f rest : forall fuel b, reaches (b_mmu b) -> ready bit fuel (busy, f) -> flags b = busy ++ f :: rest ->
  wait_clear TIMER_INTCLR fuel bit b = Ret tt (set_line rest (sent b) b).
Proof.
  induction busy as [|g busy IH]; intros fuel b Hr (Hb & Hf & Hl) Hs; (destruct fuel as [|fuel]; [cbn in Hl; lia|]); cbn [wait_clear app fst snd] in *.
  - by rewrite (bind_Ret _ _ _ _ _ (read_flag f rest b Hr Hs)), Hf.
  - apply Forall_cons in Hb as [Hg Hb]. rewrite (bind_Ret _ _ _ _ _ (read_flag g (busy ++ f :: rest) b Hr Hs)), Hg.
    rewrite IH; [done|exact Hr|split_and!; [done|done|cbn in *; lia]|done].
Qed.
Lemma puts_spec t : forall fuel answers rest b, reaches (b_mmu b) -> plain t -> Forall (ready 5 fuel) answers -> (length t <= length answers)%nat ->
  flags b = script answers ++ rest ->
  uart_puts TIMER_INTCLR fuel (t ++ [0]) b = Ret tt (set_line (script (drop (length t) answers) ++ rest) (sent b ++ (u8 <$> t)) b).
Proof.
  induction t as [|c t IH]; intros fuel answers rest b Hr Ht Ha Hl Hf; cbn [uart_puts app].
  - change (drop (length []) answers) with answers. cbn [fmap list_fmap Z.eqb]. rewrite <- Hf, app_nil_r. by destruct b.
  - apply not_elem_of_cons in Ht as [Hc Ht]. rewrite (proj2 (Z.eqb_neq _ _)) by done.
    destruct answers as [|[busy f] answers]; [cbn in Hl; lia|]. apply Forall_cons in Ha as [Hr1 Ha].
    unfold script in Hf. rewrite fmap_cons in Hf. cbn [concat fst snd] in Hf. rewrite <- !app_assoc in Hf. cbn [app] in Hf.
    rewrite (bind_Ret (uart_putc TIMER_INTCLR fuel c) _ b tt (set_line (script answers ++ rest) (sent b ++ [u8 c]) b)).
    2:{ unfold uart_putc. rewrite (bind_Ret _ _ _ _ _ (wait_clear_spec 5 busy f _ fuel b Hr Hr1 Hf)). by rewrite write_data. }
    rewrite IH with (answers := answers) (rest := rest); [|exact Hr|done|done|cbn in Hl; lia|done].
    cbn [length drop set_line sent]. by rewrite fmap_cons, <- app_assoc.
Qed.
End Facts.

(** After [mmu_init] with no translation held, and [mmu_enable]. *)
Lemma mmu_on s s' : mmu_init s = Ret tt s' -> tlb s' = (fun _ => None) -> (forall va, 0 <= va < 4294967296 -> walk s' va = flat va) ->
  forall va, 0 <= va < 4294967296 -> physical (set_sctlr (Z.lor (sctlr s') 1) s') va = if decide (va < 2147483648) then Some va else None.
Proof.
  intros _ Ht Hw va Hva. unfold physical. cbn [sctlr set_sctlr tlb]. rewrite Z.lor_spec, orb_comm. change (Z.testbit 1 0) with true. cbn [orb].
  rewrite Ht. change (walk (set_sctlr (Z.lor (sctlr s') 1) s') va) with (walk s' va). rewrite Hw by done. unfold flat. repeat case_decide; done || lia.
Qed.

Definition text_of (s : string) : list Z := str s ++ CRLF.
Definition boot_lines : list string :=
  ["System initializing..."; "MMU initialized"; "Interrupt system initialized"; "Timer initialized"]%string.
Definition boot_text : list Z := concat (text_of <$> boot_lines).

Section Boot.
Context (TIMER_INTCLR : Z) (fuel : nat) (timer_init : Cmd board unit).

Lemma puts_line s answers rest b : reaches (b_mmu b) -> plain (text_of s) -> u8 <$> text_of s = text_of s ->
  Forall (ready 5 fuel) answers -> (length (text_of s) <= length answers)%nat -> flags b = script answers ++ rest ->
  puts TIMER_INTCLR fuel s b = Ret tt (set_line (script (drop (length (text_of s)) answers) ++ rest) (sent b ++ text_of s) b).
Proof.
  intros Hr Hp Hu Ha Hl Hf. unfold puts, line. rewrite app_assoc. fold (text_of s).
  by rewrite (puts_spec TIMER_INTCLR (text_of s) fuel answers rest b Hr Hp Ha Hl Hf), Hu.
Qed.

Lemma boot_line s : s ∈ boot_lines -> plain (text_of s) /\ u8 <$> text_of s = text_of s.
Proof.
  unfold boot_lines. rewrite !elem_of_cons, elem_of_nil.
  intros [->|[->|[->|[->|[]]]]]; (split; [unfold plain; apply (bool_decide_unpack _); by vm_compute|reflexivity]).
Qed.

(** The setup of the controller: its registers are switched on and no handler is left. *)
Definition gic_ready (g g' : gic) : Prop := forall i, 0 <= i < MAX_INTERRUPTS -> interrupt_handlers g' i = None.
Lemma interrupt_init_spec g : exists g', interrupt_init g = Ret tt g' /\ gic_ready g g'.
Proof.
  eexists. split; [reflexivity|]. intros i Hi. cbn. rewrite (proj2 (Z.leb_le _ _)), (proj2 (Z.ltb_lt _ _)); [done|unfold MAX_INTERRUPTS in *; lia|lia].
Qed.

Context (Htimer : forall b, exists g,
  timer_init b = Ret tt (Board (b_mmu b) g (b_sched b) (plain_regs b) (flags b) (sent b) (received b)) /\
  interrupt_handlers g = interrupt_handlers (b_gic b)).
Ltac a_line := apply boot_line; unfold boot_lines; first [by left|right; first [by left|right; first [by left|right; by left]]].
Ltac say s answers rest b Hr Ha L :=
  rewrite (bind_Ret _ _ _ _ _ (puts_line s answers rest b Hr ltac:(a_line) ltac:(a_line) Ha ltac:(rewrite L; cbn; lia) eq_refl)).

Lemma start_devices_spec b answers rest : Z.testbit (sctlr (b_mmu b)) 0 = false ->
  Forall (ready 5 fuel) answers -> length answers = length boot_text -> flags b = script answers ++ rest ->
  exists b', start_devices TIMER_INTCLR timer_init fuel b = Ret tt b' /\ sent b' = sent b ++ boot_text /\ flags b' = rest /\
    received b' = received b /\ b_sched b' = b_sched b /\
    (forall va, 0 <= va < 4294967296 -> physical (b_mmu b') va = if decide (va < 2147483648) then Some va else None) /\
    gic_ready (b_gic b) (b_gic b') /\
    plain_regs b' UART_CR = 769 /\ plain_regs b' UART_LCRH = 96 /\ plain_regs b' UART_IBRD = 13 /\ plain_regs b' UART_FBRD = 1.
Proof using Htimer.
  intros Hoff Ha Hlen Hf. assert (Hlen' : length answers = 90%nat) by (by rewrite Hlen).
  unfold start_devices. rewrite (bind_Ret _ _ _ _ _ (uart_init_spec TIMER_INTCLR b (reaches_off _ Hoff))).
  set (b1 := set_plain UART_CR 769 _). assert (Hr1 : reaches (b_mmu b1)) by (by apply reaches_off).
  set (l2 := drop (length (text_of "System initializing...")) answers). set (l3 := drop (length (text_of "MMU initialized")) l2).
  set (l4 := drop (length (text_of "Interrupt system initialized")) l3).
  assert (H2 : Forall (ready 5 fuel) l2 /\ length l2 = 66%nat) by (split; [by apply Forall_drop|unfold l2; rewrite length_drop, Hlen'; reflexivity]).
  assert (H3 : Forall (ready 5 fuel) l3 /\ length l3 = 49%nat) by (split; [apply Forall_drop, H2|unfold l3; rewrite length_drop, (proj2 H2); reflexivity]).
  assert (H4 : Forall (ready 5 fuel) l4 /\ length l4 = 19%nat) by (split; [apply Forall_drop, H3|unfold l4; rewrite length_drop, (proj2 H3); reflexivity]).
  destruct H2 as [Ha2 L2], H3 as [Ha3 L3], H4 as [Ha4 L4].
  rewrite (bind_Ret _ _ _ _ _ (puts_line "System initializing..." answers rest b1 Hr1 ltac:(a_line) ltac:(a_line) Ha ltac:(rewrite Hlen'; cbn; lia) Hf)). fold l2. set (b2 := set_line _ _ b1).
  destruct (mmu_init_spec (b_mmu b2)) as (m & Em & Ht & Hs & Hw).
  erewrite (bind_Ret (zoom mmu_part mmu_init)) by (apply zoom_Ret; exact Em).
  erewrite (bind_Ret (zoom mmu_part mmu_enable)) by (apply zoom_Ret; reflexivity). cbn [view mmu_part upd b_mmu b_gic b_sched plain_regs flags sent received].
  pose proof (mmu_on _ _ Em Ht Hw) as Hon. set (b3 := Board _ _ _ _ _ _ _).
  assert (Hr3 : reaches (b_mmu b3)) by (intros va Hva; cbn [b3 b_mmu]; rewrite Hon by lia; by rewrite decide_True by lia).
  say "MMU initialized"%string l2 rest b3 Hr3 Ha2 L2. fold l3. set (b4 := set_line _ _ b3).
  destruct (interrupt_init_spec (b_gic b4)) as (g & Eg & Hg).
  erewrite (bind_Ret (zoom gic_part interrupt_init)) by (apply zoom_Ret; exact Eg). set (b5 := upd gic_part g b4).
  say "Interrupt system initialized"%string l3 rest b5 Hr3 Ha3 L3. fold l4. set (b6 := set_line _ _ b5).
  destruct (Htimer b6) as (g' & Et & Hg'). rewrite (bind_Ret _ _ _ _ _ Et). set (b7 := Board _ g' _ _ _ _ _).
  eexists. split.
  { exact (puts_line "Timer initialized" l4 rest b7 Hr3 ltac:(a_line) ltac:(a_line) Ha4 ltac:(rewrite L4; cbn; lia) eq_refl). }
  cbn [sent flags received b_sched b_mmu b_gic plain_regs set_line b7].
  split_and!; [| |reflexivity|reflexivity|exact Hon| |reflexivity..].
  - cbn [sent b6 b5 b4 b3 b2 b1 set_line set_plain upd gic_part]. unfold boot_text, boot_lines. rewrite !fmap_cons. cbn [concat fmap list_fmap].
    by rewrite <- !app_assoc, app_nil_r.
  - rewrite (nil_length_inv (drop _ l4)); [done|]. by rewrite length_drop, L4.
  - intros i Hi. rewrite Hg'. by apply Hg.
Qed.
End Boot.

(** The timer's interrupt: the device is told, the clock goes on by one, the scheduler ticks. *)
Lemma timer_tick_spec TIMER_INTCLR fuel b s' : reaches (b_mmu b) -> 0 <= TIMER_INTCLR < 1073741824 -> TIMER_INTCLR <> UART_DR ->
  scheduler_tick fuel (Sched (scheduler_state (b_sched b)) (current_policy (b_sched b)) (stats (b_sched b)) (s_kern (b_sched b))
    (s_queues (b_sched b)) (s_params (b_sched b)) (s_boost (b_sched b)) (s_rt (b_sched b)) (s_tree (b_sched b)) (u32 (s_ticks (b_sched b) + 1)))
    = Ret tt s' ->
  timer_irq_handler TIMER_INTCLR fuel b = Ret tt (upd sched_part s' (set_plain TIMER_INTCLR 1 b)).
Proof.
  intros Hr Ht Hne Hs. unfold timer_irq_handler.
  erewrite bind_Ret by (apply write_plain; [done|done|apply bool_decide_eq_true; set_solver|done]).
  erewrite (bind_Ret (zoom _ _)) by (apply zoom_Ret; reflexivity). erewrite zoom_Ret by exact Hs. reflexivity.
Qed.

(** ** Properties *)


(** A board after reset, whose serial line is busy once before each byte. *)
Definition reset_board : board :=
  Board reset_state (Gic (fun _ => 0) [] (fun _ => Some 7)) (mlfq_sched mlfq_ready) (fun _ => 0) (script (replicate 90 ([32], 0))) [] [].
