(* ===== verification/NetworkApp.v ===== *)
(** * NetworkApp

    src/src/network_app.c: the web server thread, the MQTT client thread and the start of the
    network, over lwIP, which is not in the sources: what its calls answer is an argument, and
    what is asked of it is kept in order. *)
From Stdlib Require Import String.
From S2P Require Import Prelude Ipc Bytes Text.

(** ** The web server *)
Definition HTTP_SERVER_PORT : Z := 80.
Definition MAX_HTTP_CLIENT : Z := 5.
Definition HTTP_BUFFER_SIZE : nat := Z.to_nat 2048.
Definition http_html_header : list Z :=
  str "HTTP/1.1 200 OK" ++ CRLF ++ str "Content-type: text/html" ++ CRLF ++ str "Connection: close" ++ CRLF ++ CRLF.
Definition http_html_body : list Z :=
  str "<!DOCTYPE html><html><body>" ++ str "<h1>Welcome to lwIP Web Server</h1>" ++
  str "<p>This is a simple web server using lwIP stack.</p>" ++ str "</body></html>".

Inductive socket_call : Type :=
| Opened (fd : Z) | Bound (fd port : Z) | Listening (fd backlog : Z) | Shown (t : list Z) | Sent (fd : Z) (t : list Z) | Closed (fd : Z).
Record web : Type := Web { recv_buffer : list Z; web_calls : list socket_call }.
Definition call (c : socket_call) : Cmd web unit := modify (fun s => Web (recv_buffer s) (web_calls s ++ [c])).
(** What [accept] answers for the next client, and what it sends before the first [recv]
    returns: [None] for an error, nothing when it closes at once. *)
Record visitor : Type := Visitor { accepted : Z; request : option (list Z) }.

(** [recv] stores at most one byte less than the buffer holds. *)
Definition sock_recv (r : option (list Z)) : Cmd web Z :=
  match r with
  | None => ret (-1)
  | Some d =>
      let d := take (HTTP_BUFFER_SIZE - 1) d in
      modify (fun s => Web (splice 0 d (recv_buffer s)) (web_calls s)) ;;;
      ret (Z.of_nat (length d))
  end.
Definition store_byte (i v : Z) : Cmd web unit :=
  let* s := get in
  if (0 <=? i) && (i <? Z.of_nat (length (recv_buffer s))) then put (Web (<[Z.to_nat i := v]> (recv_buffer s)) (web_calls s)) else fail Fault.
(** One round of the loop. *)
Definition serve_visitor (v : visitor) : Cmd web unit :=
  let client_sock := accepted v in
  if client_sock <? 0 then ret tt else
  call (Opened client_sock) ;;;
  let* recv_len := sock_recv (request v) in
  (if 0 <? recv_len then
     store_byte recv_len 0 ;;;
     let* s := get in
     let* t := c_text (recv_buffer s) in
     call (Shown t) ;;;
     call (Sent client_sock http_html_header) ;;;
     call (Sent client_sock http_html_body)
   else ret tt) ;;;
  call (Closed client_sock).
(** [buffer]: what [mem_malloc] answers.  After the last of the visitors [accept] waits. *)
Definition http_server_thread (server_sock bind_result listen_result : Z) (buffer : option (list Z)) (visitors : list visitor) : Cmd web unit :=
  if server_sock <? 0 then ret tt else
  call (Opened server_sock) ;;;
  if bind_result <? 0 then call (Closed server_sock) else
  call (Bound server_sock HTTP_SERVER_PORT) ;;;
  if listen_result <? 0 then call (Closed server_sock) else
  call (Listening server_sock MAX_HTTP_CLIENT) ;;;
  match buffer with
  | None => call (Closed server_sock)
  | Some m => modify (fun s => Web m (web_calls s)) ;;; for_each visitors serve_visitor
  end.

(** ** The MQTT client *)
Definition MQTT_BROKER_PORT : Z := 1883.
Definition MQTT_CLIENT_ID : list Z := str "lwip_mqtt_client".
Definition MQTT_USERNAME : list Z := str "user".
Definition MQTT_PASSWORD : list Z := str "password".
Inductive conn_call : Type :=
| NewConn | Connected (port : Z) | Hello (id user password : list Z) | Subscribed (topic : list Z) (qos : Z)
| Received | Handled (m : list Z) | BufDeleted | ClosedConn | DeletedConn | Slept (ms : Z).
(** What a turn of the outer loop meets: no memory, a connection refused, or the messages
    received before an error. *)
Inductive turn : Type := NoConn | Refused | Served (messages : list (list Z)).
Definition told (c : conn_call) : Cmd (list conn_call) unit := modify (fun s => s ++ [c]).
Definition handle_one (m : list Z) : Cmd (list conn_call) unit := told Received ;;; told (Handled m) ;;; told BufDeleted.
Definition mqtt_turn (t : turn) : Cmd (list conn_call) unit :=
  match t with
  | NoConn => ret tt
  | Refused => told NewConn ;;; told DeletedConn ;;; told (Slept 5000)
  | Served ms =>
      told NewConn ;;;
      told (Connected MQTT_BROKER_PORT) ;;;
      told (Hello MQTT_CLIENT_ID MQTT_USERNAME MQTT_PASSWORD) ;;;
      told (Subscribed (str "sensor/temperature") 0) ;;;
      told (Subscribed (str "sensor/humidity") 0) ;;;
      for_each ms handle_one ;;;
      told ClosedConn ;;;
      told DeletedConn ;;;
      told (Slept 5000)
  end.
(** The loop without end, as far as the turns go. *)
Definition mqtt_client_thread (turns : list turn) : Cmd (list conn_call) unit := for_each turns mqtt_turn.

(** ** The start of the network *)
Definition IP4_ADDR (a b c d : Z) : Z := val32 [u8 a; u8 b; u8 c; u8 d].
Inductive init_call : Type :=
| LwipInit | NetifAdd (ipaddr netmask gw : Z) | NetifDefault (netif : Z) | NetifUp (netif : Z) | DhcpStart (netif : Z) | ThreadNew (name : list Z).
(** [netif]: what [netif_add] answers. *)
Definition network_init (netif : Z) : list init_call :=
  [LwipInit; NetifAdd (IP4_ADDR 192 168 1 100) (IP4_ADDR 255 255 255 0) (IP4_ADDR 192 168 1 1);
   NetifDefault netif; NetifUp netif; DhcpStart netif; ThreadNew (str "http_server"); ThreadNew (str "mqtt_client")].

(** ** Facts *)
(** Up to the first zero. *)
Fixpoint until_zero (l : list Z) : list Z := match l with [] => [] | c :: l => if c =? 0 then [] else c :: until_zero l end.
(** What a visitor sees and leaves, from its own request alone. *)
Definition answered (v : visitor) : list socket_call :=
  if accepted v <? 0 then [] else
  Opened (accepted v) ::
  match request v with
  | Some (c :: d) =>
      [Shown (until_zero (take (HTTP_BUFFER_SIZE - 1) (c :: d))); Sent (accepted v) http_html_header; Sent (accepted v) http_html_body]
  | _ => []
  end ++ [Closed (accepted v)].

Lemma c_text_until (l p : list Z) (s : web) : c_text (l ++ 0 :: p) s = Ret (until_zero l) s.
Proof.
  induction l as [|c l IH]; [done|]. cbn [app c_text until_zero]. destruct (c =? 0); [done|]. by rewrite (bind_Ret _ _ _ _ _ IH).
Qed.
Lemma insert_splice (d b : list Z) : (length d < length b)%nat -> <[length d := 0]> (splice 0 d b) = d ++ 0 :: drop (S (length d)) b.
Proof.
  intros H. unfold splice. rewrite take_0. cbn [app Nat.add]. rewrite insert_app_r_alt by lia. rewrite Nat.sub_diag.
  destruct (drop (length d) b) as [|x rest] eqn:E; [apply (f_equal length) in E; rewrite length_drop in E; cbn in E; lia|].
  cbn. do 2 f_equal. change rest with (drop 1 (x :: rest)). by rewrite <- E, drop_drop, Nat.add_1_r.
Qed.
#[local] Opaque http_html_header http_html_body.
Lemma serve_visitor_spec v s : length (recv_buffer s) = HTTP_BUFFER_SIZE ->
  exists b, serve_visitor v s = Ret tt (Web b (web_calls s ++ answered v)) /\ length b = HTTP_BUFFER_SIZE.
Proof.
  intros Hb. unfold serve_visitor, answered. destruct (accepted v <? 0). { exists (recv_buffer s). rewrite app_nil_r. by destruct s. }
  erewrite (bind_Ret (call _)) by reflexivity. set (n := (HTTP_BUFFER_SIZE - 1)%nat).
  destruct (request v) as [d|].
  2:{ exists (recv_buffer s). split; [|done]. unfold bind, call, modify, sock_recv, ret. cbn. by rewrite <- ?app_assoc. }
  assert (Hl : (length (take n d) < HTTP_BUFFER_SIZE)%nat) by (rewrite length_take; unfold n, HTTP_BUFFER_SIZE; lia).
  rewrite (bind_Ret (sock_recv _) _ _ (Z.of_nat (length (take n d))) (Web (splice 0 (take n d) (recv_buffer s)) (web_calls s ++ [Opened (accepted v)]))) by reflexivity.
  destruct d as [|c d].
  { rewrite take_nil in *. exists (recv_buffer s). split; [|done]. rewrite splice_nil. change (0 <? Z.of_nat (length [])) with false. unfold bind, call, modify, ret. cbn. by rewrite <- ?app_assoc. }
  assert (0 < length (take n (c :: d)))%nat as Hpos by (rewrite length_take; unfold n, HTTP_BUFFER_SIZE; cbn [length]; lia).
  rewrite (proj2 (Z.ltb_lt _ _)) by lia. set (t := take n (c :: d)) in *.
  exists (t ++ 0 :: drop (S (length t)) (recv_buffer s)). split.
  2:{ rewrite length_app. cbn [length]. rewrite length_drop. lia. }
  erewrite (bind_Ret (_ ;;; _)); [|erewrite (bind_Ret (store_byte _ _) _ _ tt (Web (t ++ 0 :: drop (S (length t)) (recv_buffer s)) (web_calls s ++ [Opened (accepted v)])))].
  3:{ unfold store_byte. erewrite (bind_Ret get) by reflexivity. cbn [recv_buffer]. rewrite splice_length by (cbn; lia).
      rewrite (proj2 (Z.leb_le _ _)), (proj2 (Z.ltb_lt _ _)) by lia. cbn [andb web_calls]. rewrite Nat2Z.id, insert_splice by lia. reflexivity. }
  2:{ erewrite (bind_Ret get) by reflexivity. cbn [recv_buffer]. erewrite (bind_Ret (c_text _)) by apply c_text_until. reflexivity. }
  unfold call, modify. cbn [recv_buffer web_calls]. by rewrite <- !app_assoc.
Qed.
Lemma serve_visitors_spec vs : forall s, length (recv_buffer s) = HTTP_BUFFER_SIZE ->
  exists b, for_each vs serve_visitor s = Ret tt (Web b (web_calls s ++ concat (answered <$> vs))).
Proof.
  induction vs as [|v vs IH]; intros s Hb; cbn [for_each].
  - exists (recv_buffer s). cbn. rewrite app_nil_r. by destruct s.
  - destruct (serve_visitor_spec v s Hb) as (b & E & Hb'). rewrite (bind_Ret _ _ _ _ _ E).
    destruct (IH (Web b (web_calls s ++ answered v)) Hb') as [b2 E2]. exists b2. rewrite E2. cbn [web_calls]. rewrite fmap_cons. cbn [concat]. by rewrite <- app_assoc.
Qed.

(** The connection and the buffer of the client thread, as a machine that accepts exactly the
    orders that neither leak nor use what has been given back. *)
Inductive conn_state : Type := Idle | Made | Talking | Holding | Closing.
Definition conn_step (s : conn_state) (c : conn_call) : option conn_state :=
  match s, c with
  | Idle, NewConn => Some Made
  | Idle, Slept _ => Some Idle
  | Made, DeletedConn => Some Idle
  | Made, Connected _ => Some Talking
  | Talking, (Hello _ _ _ | Subscribed _ _) => Some Talking
  | Talking, Received => Some Holding
  | Holding, Handled _ => Some Holding
  | Holding, BufDeleted => Some Talking
  | Talking, ClosedConn => Some Closing
  | Closing, DeletedConn => Some Idle
  | _, _ => None
  end.
Definition conn_run (l : list conn_call) (s : conn_state) : option conn_state := foldl (fun o c => s ← o; conn_step s c) (Some s) l.
Definition handled (l : list conn_call) : list (list Z) := omap (fun c => match c with Handled m => Some m | _ => None end) l.

Lemma conn_run_app l1 l2 s : conn_run (l1 ++ l2) s = s' ← conn_run l1 s; conn_run l2 s'.
Proof.
  unfold conn_run. rewrite foldl_app. destruct (foldl _ (Some s) l1); [done|]. cbn. induction l2; [done|]. cbn. done.
Qed.
Definition turn_calls (t : turn) : list conn_call :=
  match t with
  | NoConn => []
  | Refused => [NewConn; DeletedConn; Slept 5000]
  | Served ms =>
      [NewConn; Connected MQTT_BROKER_PORT; Hello MQTT_CLIENT_ID MQTT_USERNAME MQTT_PASSWORD;
       Subscribed (str "sensor/temperature") 0; Subscribed (str "sensor/humidity") 0] ++
      concat ((fun m => [Received; Handled m; BufDeleted]) <$> ms) ++ [ClosedConn; DeletedConn; Slept 5000]
  end.
Definition turn_messages (t : turn) : list (list Z) := match t with Served ms => ms | _ => [] end.

Lemma handle_all ms (s : list conn_call) :
  for_each ms handle_one s = Ret tt (s ++ concat ((fun m => [Received; Handled m; BufDeleted]) <$> ms)).
Proof.
  revert s. induction ms as [|m ms IH]; intros s; cbn [for_each]; [by rewrite app_nil_r|].
  rewrite (bind_Ret _ _ _ tt (s ++ [Received; Handled m; BufDeleted])).
  - rewrite IH, fmap_cons. cbn [concat]. by rewrite <- app_assoc.
  - unfold handle_one, told, bind, modify. cbn. by rewrite <- !app_assoc.
Qed.
Lemma mqtt_turn_spec t s : mqtt_turn t s = Ret tt (s ++ turn_calls t).
Proof.
  destruct t as [| |ms]; cbn [mqtt_turn turn_calls].
  - by rewrite app_nil_r.
  - unfold told, bind, modify. cbn. by rewrite <- !app_assoc.
  - do 5 (erewrite (bind_Ret (told _)) by reflexivity). erewrite (bind_Ret (for_each _ _)) by apply handle_all.
    unfold told, bind, modify. cbn. by rewrite <- !app_assoc.
Qed.
Lemma messages_run ms : conn_run (concat ((fun m => [Received; Handled m; BufDeleted]) <$> ms)) Talking = Some Talking /\
  handled (concat ((fun m => [Received; Handled m; BufDeleted]) <$> ms)) = ms.
Proof.
  induction ms as [|m ms [IH1 IH2]]; [done|]. rewrite fmap_cons. cbn [concat].
  split; [rewrite conn_run_app; exact IH1|unfold handled in *; cbn; by rewrite IH2].
Qed.
Lemma turn_run t : conn_run (turn_calls t) Idle = Some Idle /\ handled (turn_calls t) = turn_messages t.
Proof.
  destruct t as [| |ms]; [done|done|]. destruct (messages_run ms) as [H1 H2]. cbn [turn_calls turn_messages]. split.
  - rewrite conn_run_app. change (conn_run [_; _; _; _; _] Idle) with (Some Talking). cbn [mbind option_bind]. rewrite conn_run_app, H1. reflexivity.
  - unfold handled in *. rewrite !omap_app, H2. cbn. by rewrite app_nil_r.
Qed.

(** ** Theorems *)

(** The web server.  When a step of the setup fails nothing stays open.  Otherwise every
    visitor that is accepted is answered by itself: the page is sent exactly when it sent
    something, its connection is closed before the next is accepted, and what is shown of
    its request is its own text, never what an earlier one left in the shared buffer, which
    is never overrun. *)
Theorem web_server_answers (server_sock bind_result listen_result : Z) (buffer : option (list Z)) (vs : list visitor) (m0 : list Z) :
  (forall m, buffer = Some m -> length m = HTTP_BUFFER_SIZE) ->
  exists b, http_server_thread server_sock bind_result listen_result buffer vs (Web m0 []) = Ret tt (Web b (
    if server_sock <? 0 then [] else
    if bind_result <? 0 then [Opened server_sock; Closed server_sock] else
    if listen_result <? 0 then [Opened server_sock; Bound server_sock 80; Closed server_sock] else
    [Opened server_sock; Bound server_sock 80; Listening server_sock 5] ++
    match buffer with None => [Closed server_sock] | Some _ => concat (answered <$> vs) end)).
Proof.
  intros Hm. unfold http_server_thread. destruct (server_sock <? 0); [by eexists|].
  erewrite (bind_Ret (call _)) by reflexivity. destruct (bind_result <? 0); [by eexists|].
  erewrite (bind_Ret (call _)) by reflexivity. destruct (listen_result <? 0); [by eexists|].
  erewrite (bind_Ret (call _)) by reflexivity. destruct buffer as [m|]; [|by eexists].
  erewrite (bind_Ret (modify _)) by reflexivity.
  match goal with |- context [for_each vs serve_visitor ?s] => destruct (serve_visitors_spec vs s (Hm m eq_refl)) as [b E] end.
  exists b. rewrite E. reflexivity.
Qed.

(** The MQTT client.  Whatever the turns of its loop meet, a connection that was made is
    deleted before the next is made and only then, a buffer received is deleted exactly
    once before the next is received, and the messages of all turns are handled in order. *)
Theorem mqtt_client_thread_clean (turns : list turn) :
  exists l, mqtt_client_thread turns [] = Ret tt l /\ conn_run l Idle = Some Idle /\ handled l = concat (turn_messages <$> turns).
Proof.
  assert (H : forall l0, conn_run l0 Idle = Some Idle ->
    exists l, mqtt_client_thread turns l0 = Ret tt l /\ conn_run l Idle = Some Idle /\ handled l = handled l0 ++ concat (turn_messages <$> turns)).
  2:{ exact (H [] eq_refl). }
  unfold mqtt_client_thread. induction turns as [|t ts IH]; intros l0 H0; cbn [for_each]; [exists l0; by rewrite app_nil_r|].
  rewrite (bind_Ret _ _ _ _ _ (mqtt_turn_spec t l0)). destruct (turn_run t) as [R1 R2].
  destruct (IH (l0 ++ turn_calls t)) as (l & E & Hr & Hh); [rewrite conn_run_app, H0; exact R1|].
  exists l. split_and!; [done|done|]. rewrite Hh, fmap_cons. cbn [concat]. unfold handled in *. by rewrite omap_app, R2, <- app_assoc.
Qed.
