(* ===== verification/Speech.v ===== *)
(** * Speech

    src/src/vad.c, audio.c and recognition.c: the detection of speech, the processing of
    audio and the objects of the recogniser.  Floating point is the class [Float]: one type
    of numbers with its operations, of which nothing is assumed; float and double are not
    told apart. *)
From S2P Require Import Prelude Ipc Bytes.

Class Float (F : Type) : Type := {
  f_of : Z -> F;
  f_add : F -> F -> F;
  f_sub : F -> F -> F;
  f_mul : F -> F -> F;
  f_div : F -> F -> F;
  f_lt : F -> F -> bool;
  f_size : F -> Z;
  f_pi : F;
  f_cos : F -> F;
  f_log10 : F -> F;
  f_pow : F -> F -> F;
  f_sqrt : F -> F;
  f_abs : F -> F
}.

(** ** Detection of speech *)
Section Vad.
Context {F : Type} `{Float F}.

Record a2sa_vad_config_t : Type := VadConfig { c_energy_threshold : F; c_min_duration : F; c_max_silence : F }.
(** [buffer_size] is a [size_t]. *)
Record vad_state_t : Type := VadState {
  energy_threshold : F;
  min_duration : F;
  max_silence : F;
  is_speech : bool;
  speech_duration : F;
  silence_duration : F;
  energy_buffer : list F;
  buffer_size : Z;
  buffer_pos : Z
}.
(** [memory]: what [malloc] answers for the buffer, with what it happens to hold. *)
Definition create_vad_state (calloc_ok : bool) (memory : option (list F)) (config : a2sa_vad_config_t) (size : Z) : option vad_state_t :=
  if negb calloc_ok then None else
  match memory with
  | None => None
  | Some m => Some (VadState (c_energy_threshold config) (c_min_duration config) (c_max_silence config) false (f_of 0) (f_of 0) m size 0)
  end.
Definition f_sum (l : list F) : F := foldl f_add (f_of 0) l.
Definition compute_frame_energy (frame : list F) : F :=
  f_div (f_sum ((fun x => f_mul x x) <$> frame)) (f_of (Z.of_nat (length frame))).

(** The first statements: the ring of energies. *)
Definition push_energy (energy : F) : Cmd vad_state_t unit :=
  let* s := get in
  if (buffer_pos s <? 0) || (Z.of_nat (length (energy_buffer s)) <=? buffer_pos s) then fail Fault else
  if buffer_size s =? 0 then fail Fault else
  put (VadState (energy_threshold s) (min_duration s) (max_silence s) (is_speech s) (speech_duration s) (silence_duration s)
    (<[Z.to_nat (buffer_pos s) := energy]> (energy_buffer s)) (buffer_size s) ((buffer_pos s + 1) mod buffer_size s)).
(** The rest: the average, the durations and the change of state. *)
Definition judge (frame_duration : F) : Cmd vad_state_t bool :=
  let* s := get in
  if Z.of_nat (length (energy_buffer s)) <? buffer_size s then fail Fault else
  let avg := f_div (f_sum (take (Z.to_nat (buffer_size s)) (energy_buffer s))) (f_of (buffer_size s)) in
  let is_active := f_lt (energy_threshold s) avg in
  let speech := if is_active then f_add (speech_duration s) frame_duration else speech_duration s in
  let silence := if is_active then f_of 0 else f_add (silence_duration s) frame_duration in
  let '(sp, speech, silence) :=
    if is_speech s then if f_lt (max_silence s) silence then (false, f_of 0, silence) else (true, speech, silence)
    else if is_active && f_lt (min_duration s) speech then (true, speech, f_of 0) else (false, speech, silence) in
  put (VadState (energy_threshold s) (min_duration s) (max_silence s) sp speech silence (energy_buffer s) (buffer_size s) (buffer_pos s)) ;;;
  ret sp.
Definition update_vad_state (energy frame_duration : F) : Cmd vad_state_t bool :=
  push_energy energy ;;; judge frame_duration.

(** ** Facts *)
Record vad_ok (s : vad_state_t) : Prop := {
  vad_length : Z.of_nat (length (energy_buffer s)) = buffer_size s;
  vad_pos : 0 <= buffer_pos s < buffer_size s
}.
(** The energies from the oldest to the newest. *)
Definition energies (s : vad_state_t) : list F :=
  drop (Z.to_nat (buffer_pos s)) (energy_buffer s) ++ take (Z.to_nat (buffer_pos s)) (energy_buffer s).
(** The average of the buffer as it is laid out. *)
Definition active (s : vad_state_t) : bool :=
  f_lt (energy_threshold s) (f_div (f_sum (energy_buffer s)) (f_of (buffer_size s))).

Lemma push_ring (b : list F) (p : nat) (e : F) : (p < length b)%nat ->
  let b' := <[p := e]> b in let q := if decide (S p = length b) then 0%nat else S p in
  drop q b' ++ take q b' = drop 1 (drop p b ++ take p b) ++ [e].
Proof.
  intros Hp b' q. destruct (lookup_lt_is_Some_2 b p Hp) as [x Hx]. pose proof (take_drop_middle b p x Hx) as E.
  assert (Hl : length (take p b) = p) by (rewrite length_take; lia).
  assert (Hb' : b' = take p b ++ e :: drop (S p) b).
  { unfold b'. rewrite insert_take_drop by done. done. }
  assert (Hd : drop p b = x :: drop (S p) b) by (by apply drop_S).
  rewrite Hd, Hb'. cbn [app drop]. rewrite drop_0. unfold q. case_decide as Hq.
  - rewrite drop_0, take_0, app_nil_r. rewrite (drop_ge b) by lia. done.
  - rewrite <- app_assoc. set (r := drop (S p) b) in *. replace (S p) with (length (take p b) + 1)%nat by lia.
    rewrite drop_app_add, take_app_add. cbn. by rewrite drop_0.
Qed.
Lemma push_energy_spec e s : vad_ok s ->
  exists s', push_energy e s = Ret tt s' /\ vad_ok s' /\ energies s' = drop 1 (energies s) ++ [e] /\
    energy_threshold s' = energy_threshold s /\ min_duration s' = min_duration s /\ max_silence s' = max_silence s /\
    is_speech s' = is_speech s /\ speech_duration s' = speech_duration s /\ silence_duration s' = silence_duration s /\
    buffer_size s' = buffer_size s.
Proof.
  intros [Hl [Hp Hp2]]. unfold push_energy. erewrite (bind_Ret get) by reflexivity.
  rewrite (proj2 (Z.ltb_ge _ _)), (proj2 (Z.leb_gt _ _)) by lia. cbn [orb]. rewrite (proj2 (Z.eqb_neq _ _)) by lia.
  eexists. split; [reflexivity|]. cbn. split_and!; try done.
  - constructor; cbn; [by rewrite length_insert|]. apply Z.mod_pos_bound. lia.
  - unfold energies. cbn. rewrite <- (push_ring (energy_buffer s) (Z.to_nat (buffer_pos s)) e) by lia.
    assert (Z.to_nat ((buffer_pos s + 1) mod buffer_size s) = if decide (S (Z.to_nat (buffer_pos s)) = length (energy_buffer s)) then 0%nat else S (Z.to_nat (buffer_pos s))) as ->.
    { case_decide.
      - replace (buffer_pos s + 1) with (buffer_size s) by lia. rewrite Z.mod_same by lia. done.
      - rewrite Z.mod_small by lia. lia. }
    done.
Qed.

(** What a frame does to the decision. *)
Definition decision (s : vad_state_t) (act : bool) (d : F) : bool * F * F :=
  let speech := if act then f_add (speech_duration s) d else speech_duration s in
  let silence := if act then f_of 0 else f_add (silence_duration s) d in
  if is_speech s then if f_lt (max_silence s) silence then (false, f_of 0, silence) else (true, speech, silence)
  else if act && f_lt (min_duration s) speech then (true, speech, f_of 0) else (false, speech, silence).
Lemma update_vad_spec e d s : vad_ok s ->
  exists s' s1, push_energy e s = Ret tt s1 /\ update_vad_state e d s = Ret (is_speech s') s' /\ vad_ok s' /\
    energies s' = drop 1 (energies s) ++ [e] /\ energy_buffer s' = energy_buffer s1 /\
    (is_speech s', speech_duration s', silence_duration s') = decision s (active s1) d /\
    buffer_size s' = buffer_size s /\ energy_threshold s' = energy_threshold s.
Proof.
  intros Hok. destruct (push_energy_spec e s Hok) as (s1 & E & Hok1 & He & E1 & E2 & E3 & E4 & E5 & E6 & E7).
  unfold update_vad_state. rewrite (bind_Ret _ _ _ _ _ E). unfold judge. erewrite (bind_Ret get) by reflexivity.
  destruct Hok1 as [Hl Hp]. rewrite (proj2 (Z.ltb_ge _ _)) by lia. rewrite take_ge by lia. cbv zeta.
  fold (active s1). rewrite E2, E3, E4, E5, E6. change (if is_speech s then _ else _) with (decision s (active s1) d) at 1.
  destruct (decision s (active s1) d) as [[sp speech] silence] eqn:Ed.
  exists (VadState (energy_threshold s1) (min_duration s) (max_silence s) sp speech silence (energy_buffer s1) (buffer_size s1) (buffer_pos s1)), s1. split; [done|]. split; [reflexivity|].
  cbn. by split_and!.
Qed.
End Vad.
Arguments a2sa_vad_config_t F : clear implicits.
Arguments vad_state_t F : clear implicits.

(** ** Audio *)
Section Audio.
Context {F : Type} `{Float F}.

(** The Hanning window. *)
Definition hanning (window_size : Z) : list F :=
  (fun i => f_mul (f_div (f_of 1) (f_of 2))
     (f_sub (f_of 1) (f_cos (f_div (f_mul (f_mul (f_of 2) f_pi) (f_of (Z.of_nat i))) (f_of (u32 (window_size - 1)))))))
  <$> seq 0 (Z.to_nat window_size).
Record audio_processor_t : Type := AudioProcessor { window : list F; window_size : Z; fft_buffer : list F }.

(** [resample_audio]: the input as [count] numbers behind its pointer ([input_size] bytes are
    what its caller has); the output is a block of bytes.  A number of four bytes is stored
    at index [i] only inside the block. *)
Definition resampled (input : list F) (input_size : Z) (ratio : F) (i : nat) : option F :=
  let pos := f_div (f_of (Z.of_nat i)) ratio in
  let idx := f_size pos in
  let frac := f_sub pos (f_of idx) in
  x ← input !! Z.to_nat idx;
  if idx + 1 <? input_size then
    y ← input !! Z.to_nat (idx + 1);
    Some (f_add (f_mul x (f_sub (f_of 1) frac)) (f_mul y frac))
  else Some x.
(** [bytes]: the size of the block; the result is what has been stored. *)
Fixpoint resample_loop (input : list F) (input_size : Z) (ratio : F) (bytes : Z) (l : list nat) : Cmd (list F) unit :=
  match l with
  | [] => ret tt
  | i :: l =>
      match resampled input input_size ratio i with
      | None => fail Fault
      | Some v =>
          if bytes <? 4 * Z.of_nat i + 4 then fail Fault else
          modify (fun out => out ++ [v]) ;;; resample_loop input input_size ratio bytes l
      end
  end.
(** The code, and the size stored at [output_size] when there is memory. *)
Definition resample_audio (malloc_ok : bool) (input : list F) (input_size input_rate output_rate : Z) : Cmd (list F) (Z * option Z) :=
  if input_rate =? output_rate then
    if negb malloc_ok then ret (-1, None) else put input ;;; ret (0, Some input_size)
  else
    let ratio := f_div (f_of output_rate) (f_of input_rate) in
    let out_samples := f_size (f_mul (f_of input_size) ratio) in
    if negb malloc_ok then ret (-1, None) else
    resample_loop input input_size ratio out_samples (seq 0 (Z.to_nat out_samples)) ;;;
    ret (0, Some (u32 (out_samples * 4))).

(** [compute_spectrum]: the transform itself is not in the source. *)
Definition windowed (w input : list F) : list F := concat (zip_with (fun x y => [f_mul x y; f_of 0]) input w).
Definition magnitude (re im : F) : F := f_sqrt (f_add (f_mul re re) (f_mul im im)).
Definition amplitude (buf : list F) (i : nat) : option F :=
  re ← buf !! (2 * i)%nat; im ← buf !! (2 * i + 1)%nat; Some (magnitude re im).
Definition compute_spectrum (input : list F) (size : Z) : Cmd audio_processor_t (Z * list F) :=
  let* p := get in
  if negb (size =? window_size p) then ret (-1, []) else
  if Z.of_nat (length input) <? size then fail Fault else
  let fft := windowed (window p) (take (Z.to_nat size) input) in
  put (AudioProcessor (window p) (window_size p) (splice 0 fft (fft_buffer p))) ;;;
  let* p := get in
  let* output := deref (mapM (amplitude (fft_buffer p)) (seq 0 (Z.to_nat (size / 2 + 1)))) in
  ret (0, output).

(** The filters of the Mel bands, laid out in one array, band by band. *)
Definition mel_of (freq : F) : F := f_mul (f_of 2595) (f_log10 (f_add (f_of 1) (f_div freq (f_of 700)))).
Definition mel_response (size sample_rate : Z) (min_freq max_freq mel_center mel_step : F) (j : nat) : F :=
  let freq := f_div (f_of (u32 (Z.of_nat j * sample_rate))) (f_mul (f_of 2) (f_of size)) in
  if negb (f_lt freq min_freq) && negb (f_lt max_freq freq) then
    let diff := f_abs (f_sub (mel_of freq) mel_center) in
    if negb (f_lt mel_step diff) then f_sub (f_of 1) (f_div diff mel_step) else f_of 0
  else f_of 0.
Definition mel_step (bands : Z) (min_freq max_freq : F) : F := f_div (f_sub (mel_of max_freq) (mel_of min_freq)) (f_of (bands + 1)).
Definition mel_center (bands : Z) (min_freq max_freq : F) (i : nat) : F :=
  f_add (mel_of min_freq) (f_mul (f_of (Z.of_nat i + 1)) (mel_step bands min_freq max_freq)).
Definition mel_row (bands size sample_rate : Z) (min_freq max_freq : F) (i : nat) : list F :=
  mel_response size sample_rate min_freq max_freq (mel_center bands min_freq max_freq i) (mel_step bands min_freq max_freq)
    <$> seq 0 (Z.to_nat size).
Definition mel_filters (bands size sample_rate : Z) (min_freq max_freq : F) : list F :=
  concat (mel_row bands size sample_rate min_freq max_freq <$> seq 0 (Z.to_nat bands)).
Definition weighted (spectrum : list F) (filters : list F) : F := foldl f_add (f_of 0) (zip_with f_mul spectrum filters).
(** [None]: the spectrum has fewer than [size] numbers. *)
Definition compute_mel_spectrum (malloc_ok : bool) (spectrum : list F) (size bands : Z) (min_freq max_freq : F) (sample_rate : Z) : option (Z * list F) :=
  if negb malloc_ok then Some (-1, []) else
  if Z.of_nat (length spectrum) <? size then None else
  let filters := mel_filters bands size sample_rate min_freq max_freq in
  Some (0, (fun i => weighted (take (Z.to_nat size) spectrum) (slice (i * Z.to_nat size) (Z.to_nat size) filters)) <$> seq 0 (Z.to_nat bands)).

(** *** Facts *)
Lemma slice_concat (rows : list (list F)) n i row : Forall (fun r => length r = n) rows -> rows !! i = Some row ->
  slice (i * n) n (concat rows) = row.
Proof.
  revert i. induction rows as [|r rows IH]; intros i Hf Hi; [done|]. apply Forall_cons in Hf as [Hr Hf]. destruct i as [|i]; cbn in Hi.
  - injection Hi as ->. unfold slice. cbn [Nat.mul concat]. rewrite drop_0, <- Hr. apply take_app_length.
  - cbn [concat]. unfold slice. replace (S i * n)%nat with (length r + i * n)%nat by lia. rewrite drop_app_add. by apply IH.
Qed.

Lemma resample_overflows input input_size ratio bytes l k (out : list F) :
  (forall i, i ∈ l -> (i < k)%nat) -> bytes < 4 * Z.of_nat k + 4 ->
  resample_loop input input_size ratio bytes (l ++ [k]) out = Stop Fault.
Proof.
  intros Hl Hb. revert out. induction l as [|i l IH]; intros out; cbn [app resample_loop].
  - destruct (resampled _ _ _ k); [|done]. by rewrite (proj2 (Z.ltb_lt _ _)).
  - destruct (resampled _ _ _ i); [|done]. destruct (bytes <? 4 * Z.of_nat i + 4); [done|].
    erewrite (bind_Ret (modify _)) by reflexivity. apply IH. intros j Hj. apply Hl. by right.
Qed.
Lemma resample_app input input_size ratio bytes l1 l2 (out : list F) :
  resample_loop input input_size ratio bytes l1 out = Stop Fault -> resample_loop input input_size ratio bytes (l1 ++ l2) out = Stop Fault.
Proof.
  revert out. induction l1 as [|i l1 IH]; intros out E; [done|]. cbn [app resample_loop] in *.
  destruct (resampled _ _ _ i); [|done]. destruct (bytes <? 4 * Z.of_nat i + 4); [done|].
  erewrite (bind_Ret (modify _)) by reflexivity. erewrite (bind_Ret (modify _)) in E by reflexivity. by apply IH.
Qed.
Lemma resample_stops input input_size ratio (n : nat) (out : list F) : (0 < n)%nat ->
  resample_loop input input_size ratio (Z.of_nat n) (seq 0 n) out = Stop Fault.
Proof.
  intros Hn. set (k := (n / 4)%nat). assert (Hk : (k < n)%nat) by (apply Nat.div_lt; lia).
  assert (seq 0 n = (seq 0 k ++ [k]) ++ seq (S k) (n - S k)) as ->.
  { replace n with (k + 1 + (n - S k))%nat at 1 by lia. rewrite !seq_app. cbn. by rewrite Nat.add_1_r. }
  apply resample_app, resample_overflows; [intros i Hi; apply elem_of_seq in Hi; lia|].
  pose proof (Nat.div_mod n 4 ltac:(lia)). pose proof (Nat.mod_upper_bound n 4 ltac:(lia)). unfold k. lia.
Qed.
End Audio.

(** ** Objects

    What has been allocated and not freed, and the outcomes of the coming allocations; when
    they are used up there is memory. *)
Inductive object : Type :=
| Processor | Window | FftBuffer
| Recognizer | AcousticModel | LanguageModel | AcousticLanguage | LanguageLanguage | Features
| Decoder | Probs | Vocabulary.
#[export] Instance object_eq_dec : EqDecision object.
Proof. solve_decision. Defined.
Record objects : Type := Objects { outcomes : list bool; live : list object }.
Definition allocate (o : object) : Cmd objects bool :=
  let* s := get in
  match outcomes s with
  | [] => put (Objects [] (live s ++ [o])) ;;; ret true
  | b :: l => put (Objects l (if b then live s ++ [o] else live s)) ;;; ret b
  end.
(** Freeing what is not there is an invalid access. *)
Definition free_obj (o : object) : Cmd objects unit :=
  let* s := get in
  if decide (o ∈ live s) then put (Objects (outcomes s) (filter (fun o' => o' <> o) (live s))) else fail Fault.
(** [free] of a pointer that may be NULL. *)
Definition free_obj_if (b : bool) (o : object) : Cmd objects unit := if b then free_obj o else ret tt.

(** [create_audio_processor]: whether there is one. *)
Definition create_audio_processor : Cmd objects bool :=
  let* proc := allocate Processor in
  if negb proc then ret false else
  let* w := allocate Window in
  if negb w then free_obj Processor ;;; ret false else
  let* f := allocate FftBuffer in
  if negb f then free_obj Window ;;; free_obj Processor ;;; ret false else
  ret true.
Definition destroy_audio_processor (proc : bool) : Cmd objects unit :=
  if proc then free_obj Window ;;; free_obj FftBuffer ;;; free_obj Processor else ret tt.

(** A recogniser: which of the two copies of the language are there; [model_data] is never
    set. *)
Record recognizer_t : Type := RecognizerOf { acoustic_language : bool; language_language : bool }.
Definition create_recognizer : Cmd objects (option recognizer_t) :=
  let* rec := allocate Recognizer in
  if negb rec then ret None else
  let* am := allocate AcousticModel in
  if negb am then free_obj Recognizer ;;; ret None else
  let* lm := allocate LanguageModel in
  if negb lm then free_obj AcousticModel ;;; free_obj Recognizer ;;; ret None else
  let* al := allocate AcousticLanguage in
  let* ll := allocate LanguageLanguage in
  let* f := allocate Features in
  if negb f then free_obj LanguageModel ;;; free_obj AcousticModel ;;; free_obj Recognizer ;;; ret None else
  ret (Some (RecognizerOf al ll)).
Definition destroy_recognizer (r : option recognizer_t) : Cmd objects unit :=
  match r with
  | None => ret tt
  | Some r =>
      free_obj_if (acoustic_language r) AcousticLanguage ;;; free_obj AcousticModel ;;;
      free_obj_if (language_language r) LanguageLanguage ;;; free_obj LanguageModel ;;;
      free_obj Features ;;; free_obj Recognizer
  end.

(** A decoder: the words of the vocabulary, [None] for a pointer that has never been set. *)
Record decoder_t : Type := DecoderOf { vocab_size : Z; vocabulary : list (option object); max_paths : Z }.
Definition create_decoder (size : Z) : Cmd objects (option decoder_t) :=
  let* dec := allocate Decoder in
  if negb dec then ret None else
  let* p := allocate Probs in
  if negb p then free_obj Decoder ;;; ret None else
  let* v := allocate Vocabulary in
  if negb v then free_obj Probs ;;; free_obj Decoder ;;; ret None else
  ret (Some (DecoderOf size (replicate (Z.to_nat size) None) 100)).
Definition destroy_decoder (d : option decoder_t) : Cmd objects unit :=
  match d with
  | None => ret tt
  | Some d =>
      free_obj Probs ;;;
      for_each (vocabulary d) (fun w => match w with None => fail Fault | Some o => free_obj o end) ;;;
      free_obj Vocabulary ;;; free_obj Decoder
  end.
(** [decode_features]: the probabilities; the text and the confidence are not stored. *)
Definition decode_features {F} `{Float F} (d : decoder_t) : Cmd (list F) Z :=
  put (replicate (Z.to_nat (vocab_size d)) (f_of 0)) ;;; ret 0.

(** ** Theorems *)

(** The window of energies.  With a buffer of its size and a position inside, every frame is
    processed, the buffer holds the last energies in order, whatever [malloc] left in it
    being gone after as many frames as it is long; and the decision changes only as the
    durations say: speech ends when the silence has become longer than [max_silence], and
    begins with an active frame when the speech is longer than [min_duration]. *)
Theorem vad_window {F} `{Float F} (frames : list (F * F)) (s : vad_state_t F) :
  vad_ok s ->
  exists s', for_each frames (fun f => update_vad_state (fst f) (snd f) ;;; ret tt) s = Ret tt s' /\ vad_ok s' /\
    energies s' = drop (length frames) (energies s ++ (fst <$> frames)) /\
    (Z.of_nat (length frames) >= buffer_size s -> energies s' = drop (length frames - Z.to_nat (buffer_size s)) (fst <$> frames)).
Proof.
  intros Hok. assert (Hl : forall s : vad_state_t F, vad_ok s -> Z.of_nat (length (energies s)) = buffer_size s).
  { intros x [Hx1 Hx2]. unfold energies. rewrite length_app, length_drop, length_take. lia. }
  assert (Hmain : exists s', for_each frames (fun f => update_vad_state (fst f) (snd f) ;;; ret tt) s = Ret tt s' /\ vad_ok s' /\
    energies s' = drop (length frames) (energies s ++ (fst <$> frames))).
  { revert s Hok. induction frames as [|[e d] frames IH]; intros s Hok; cbn [for_each].
    - exists s. rewrite drop_0, app_nil_r. done.
    - destruct (update_vad_spec e d s Hok) as (s2 & _ & _ & E & Hok2 & He & _). cbn [fst snd].
      rewrite (bind_Ret _ _ _ tt s2) by (by rewrite (bind_Ret _ _ _ _ _ E)).
      destruct (IH s2 Hok2) as (s3 & E3 & Hok3 & He3). exists s3. split_and!; [done|done|]. rewrite He3, He.
      pose proof (Hl s Hok) as Hn. destruct Hok as [_ Hp]. destruct (energies s) as [|x es]; [cbn in Hn; lia|].
      cbn. by rewrite <- app_assoc. }
  destruct Hmain as (s' & E & Hok' & He). exists s'. split_and!; [done|done|done|].
  intros Hge. rewrite He, drop_app_ge; [f_equal|]; pose proof (Hl s Hok); lia.
Qed.

(** Resampling between different rates never gives a result: the block is measured in
    numbers and allocated in bytes, so that the loop writes behind it; only when there is
    nothing to write does it come back. *)
Theorem resample_writes_behind {F} `{Float F} (input out : list F) (input_size input_rate output_rate : Z) :
  input_rate <> output_rate ->
  0 < f_size (f_mul (f_of input_size) (f_div (f_of output_rate) (f_of input_rate))) ->
  resample_audio true input input_size input_rate output_rate out = Stop Fault.
Proof.
  intros Hne Hpos. unfold resample_audio. rewrite (proj2 (Z.eqb_neq _ _) Hne). cbv zeta. cbn [negb].
  set (n := f_size _) in *. apply bind_Stop. rewrite <- (Z2Nat.id n) at 1 by lia. apply resample_stops. lia.
Qed.

(** The Mel spectrum is the product of the matrix of the filters with the spectrum: the flat
    array is read back band by band as it was written. *)
Theorem mel_spectrum_product {F} `{Float F} (spectrum : list F) (size bands sample_rate : Z) (min_freq max_freq : F) :
  Z.of_nat (length spectrum) = size ->
  compute_mel_spectrum true spectrum size bands min_freq max_freq sample_rate =
    Some (0, (fun i => weighted spectrum (mel_row bands size sample_rate min_freq max_freq i)) <$> seq 0 (Z.to_nat bands)).
Proof.
  intros Hl. unfold compute_mel_spectrum. cbn [negb]. rewrite (proj2 (Z.ltb_ge _ _)) by lia. do 2 f_equal.
  apply list_fmap_ext. intros k i Hi. rewrite take_ge by lia. f_equal. unfold mel_filters.
  apply slice_concat.
  - apply Forall_fmap, Forall_forall. intros j _. cbn. unfold mel_row. by rewrite length_fmap, length_seq.
  - apply lookup_seq in Hi as [-> Hi]. rewrite list_lookup_fmap, lookup_seq_lt by done. done.
Qed.

(** Objects.  Whatever allocations fail, an audio processor is made completely or leaves
    nothing, and destroying it frees everything; so is a recogniser, except that when the
    features cannot be allocated the copies of the language stay behind.  A decoder with a
    vocabulary cannot be destroyed: its words were never set. *)
Theorem speech_objects (l : list bool) :
  (exists b s, create_audio_processor (Objects l []) = Ret b s /\ (b = false -> live s = []) /\
     exists s', destroy_audio_processor b s = Ret tt s' /\ live s' = []) /\
  (exists r s, create_recognizer (Objects l []) = Ret r s /\
     (r = None -> live s = [] \/ exists al ll l', l = true :: true :: true :: al :: ll :: false :: l' /\
        live s = (if al then [AcousticLanguage] else []) ++ (if ll then [LanguageLanguage] else [])) /\
     exists s', destroy_recognizer r s = Ret tt s' /\ (r <> None -> live s' = [])) /\
  (forall size, exists d s, create_decoder size (Objects l []) = Ret d s /\ (d = None -> live s = []) /\
     (d <> None -> 0 < size -> destroy_decoder d s = Stop Fault)).
Proof.
  split_and!.
  - destruct l as [|[] [|[] [|[] l]]]; eexists _, _; (split; [vm_compute; reflexivity|]); (split; [done|]); eexists; (split; [vm_compute; reflexivity|done]).
  - destruct l as [|[] [|[] [|[] [|al [|ll [|[] l]]]]]]; try destruct al; try destruct ll;
      (eexists _, _; split; [vm_compute; reflexivity|]; split; [|eexists; split; [vm_compute; reflexivity|done]]);
      intros Hn; try done; first [by left|right; eexists _, _, _; split; [reflexivity|done]].
  - intros size. destruct l as [|[] [|[] [|[] l]]]; eexists _, _; (split; [reflexivity|]); (split; [done|]); intros Hd Hs; try done;
      cbn; (destruct (Z.to_nat size) as [|n] eqn:En; [lia|reflexivity]).
Qed.

(** *** An example, with whole numbers for the floating-point ones *)
#[export] Instance whole_numbers : Float Z := {|
  f_of := id; f_add := Z.add; f_sub := Z.sub; f_mul := Z.mul; f_div := Z.div; f_lt := Z.ltb; f_size := id; f_pi := 3;
  f_cos := id; f_log10 := Z.log2; f_pow := Z.pow; f_sqrt := Z.sqrt; f_abs := Z.abs
|}.
(** The time of speech is not set back by silence: single frames of noise far apart add up
    to more than [min_duration], and the third is taken for speech. *)
Definition burst : list (Z * Z) := (9, 1) :: replicate 50 (0, 1).
Example bursts_are_speech :
  match create_vad_state true (Some [0]) (VadConfig 1 2 10) 1 with
  | None => False
  | Some s =>
      exists s', for_each (burst ++ burst ++ [(9, 1)]) (fun f => update_vad_state (fst f) (snd f) ;;; ret tt) s = Ret tt s' /\
        is_speech s' = true /\ speech_duration s' = 3
  end.
Proof. eexists. split; [vm_compute; reflexivity|done]. Qed.
