(* ===== verification/Download.v ===== *)
(** * Download

    src/examples/download_manager.c: a table of at most ten downloads, each with a thread of
    its own over the HTTP client of src/include/mcurl.h, whose [mcurl_perform] no file
    defines.  The threads and the calls of the user interleave: a run is a list of events,
    each the part of a function between two points where others may run. *)
From S2P Require Import Prelude.

Definition MAX_DOWNLOADS : nat := 10.
(** The error texts: [other] is what [mcurl_perform] leaves. *)
Inductive error_text : Type := NoError | NoCurl | NoFile | Other.
(** Where a download's thread is: before [mcurl_init], before [fopen], in [mcurl_perform], or
    ended. *)
Inductive phase : Type := Starting | Opening | Performing | Ended.
Record download_item_t : Type := DownloadItem {
  url : list Z;
  filename : list Z;
  size : Z;
  downloaded : Z;
  completed : bool;
  failed : bool;
  error : error_text;
  thread : phase;
  stored : list Z;
  closed : bool
}.
(** [stored]: the bytes [fwrite] has taken.  The slots in use are the first [download_count]
    of the table: the list. *)
Abbreviation manager := (list download_item_t).
Definition create_manager (calloc_ok : bool) : option manager := if calloc_ok then Some [] else None.

Definition new_item (u f : list Z) : download_item_t := DownloadItem u f 0 0 false false NoError Starting [] false.
Definition set_thread (p : phase) (x : download_item_t) : download_item_t :=
  DownloadItem (url x) (filename x) (size x) (downloaded x) (completed x) (failed x) (error x) p (stored x) (closed x).
Definition fail_with (e : error_text) (x : download_item_t) : download_item_t :=
  DownloadItem (url x) (filename x) (size x) (downloaded x) (completed x) true e Ended (stored x) (closed x).
Definition set_size (n : Z) (x : download_item_t) : download_item_t :=
  DownloadItem (url x) (filename x) n (downloaded x) (completed x) (failed x) (error x) (thread x) (stored x) (closed x).

(** [add_download], the lock held throughout; [create_ok]: [pthread_create]. *)
Definition add_download (u f : list Z) (create_ok : bool) (m : manager) : Z * manager :=
  if (MAX_DOWNLOADS <=? length m)%nat then (-1, m) else
  if negb create_ok then (-1, m) else (0, m ++ [new_item u f]).
(** [write_callback]: [taken] of the bytes are written; the answer, and the item. *)
Definition write_callback (ptr : list Z) (taken : nat) (x : download_item_t) : Z * download_item_t :=
  let got := take taken ptr in
  let x' n := DownloadItem (url x) (filename x) (size x) n (completed x) (failed x) (error x) (thread x) (stored x ++ got) (closed x) in
  if (length got =? length ptr)%nat then (Z.of_nat (length ptr), x' (u32 (downloaded x + Z.of_nat (length ptr)))) else (0, x' (downloaded x)).
Definition progress_callback (dltotal : Z) (x : download_item_t) : Z * download_item_t := (0, set_size (u32 dltotal) x).

(** ** The steps of [download_thread] *)
Definition start_thread (curl_ok : bool) (x : download_item_t) : download_item_t :=
  if curl_ok then set_thread Opening x else fail_with NoCurl x.
Definition open_file (file_ok : bool) (x : download_item_t) : download_item_t :=
  if file_ok then set_thread Performing x else fail_with NoFile x.
(** [ret = MCURL_OK]: what [mcurl_perform] answered; then the file is closed. *)
Definition finish (ok : bool) (x : download_item_t) : download_item_t :=
  if ok then DownloadItem (url x) (filename x) (size x) (downloaded x) true (failed x) (error x) Ended (stored x) true
  else DownloadItem (url x) (filename x) (size x) (downloaded x) (completed x) true Other Ended (stored x) true.

Inductive event : Type :=
| Add (u f : list Z) (create_ok : bool)
| Start (i : nat) (curl_ok : bool)
| Open (i : nat) (file_ok : bool)
| Chunk (i : nat) (ptr : list Z) (taken : nat)
| Progress (i : nat) (dltotal : Z)
| Finish (i : nat) (ok : bool).
(** A thread only takes a step from where it is. *)
Definition at_phase (p : phase) (i : nat) (f : download_item_t -> download_item_t) (m : manager) : option manager :=
  x ← m !! i;
  match p, thread x with
  | Starting, Starting | Opening, Opening | Performing, Performing => Some (<[i := f x]> m)
  | _, _ => None
  end.
Definition step (e : event) (m : manager) : option manager :=
  match e with
  | Add u f ok => Some (snd (add_download u f ok m))
  | Start i ok => at_phase Starting i (start_thread ok) m
  | Open i ok => at_phase Opening i (open_file ok) m
  | Chunk i ptr n => at_phase Performing i (fun x => snd (write_callback ptr n x)) m
  | Progress i t => at_phase Performing i (fun x => snd (progress_callback t x)) m
  | Finish i ok => at_phase Performing i (finish ok) m
  end.
Inductive reachable : manager -> Prop :=
| reach_start : reachable []
| reach_step m e m' : reachable m -> step e m = Some m' -> reachable m'.

(** What [show_progress] shows of an item. *)
Inductive status : Type := Failed (e : error_text) | Completed | InProgress (done : Z) (total : option Z).
Definition show_item (x : download_item_t) : status :=
  if failed x then Failed (error x) else if completed x then Completed
  else InProgress (downloaded x) (if 0 <? size x then Some (size x) else None).
Definition show_progress (m : manager) : list (list Z * list Z * status) := (fun x => (filename x, url x, show_item x)) <$> m.

(** ** Facts *)
(** An item is over exactly when it is completed or failed, and never both; a file that was
    opened is closed at the end; and unless a write fell short the count is that of the
    bytes stored. *)
Record item_ok (x : download_item_t) : Prop := {
  over : thread x = Ended <-> completed x = true \/ failed x = true;
  not_both : completed x && failed x = false;
  opened_closed : closed x = true <-> thread x = Ended /\ (completed x = true \/ error x = Other);
  idle_empty : thread x = Starting \/ thread x = Opening -> stored x = [] /\ downloaded x = 0;
  counted : 0 <= downloaded x < 4294967296 /\ (Z.of_nat (length (stored x)) < 4294967296 -> downloaded x <= Z.of_nat (length (stored x)))
}.
Lemma new_item_ok u f : item_ok (new_item u f).
Proof. constructor; cbn; [naive_solver|done|naive_solver|done|lia]. Qed.
Lemma step_item_ok e m m' : step e m = Some m' -> Forall item_ok m -> Forall item_ok m'.
Proof.
  assert (Hat : forall p i f, at_phase p i f m = Some m' -> Forall item_ok m ->
    (forall x, thread x = p -> p <> Ended -> item_ok x -> item_ok (f x)) -> Forall item_ok m').
  { intros p i f Hs Hm Hf. unfold at_phase in Hs. destruct (m !! i) as [x|] eqn:Hx; [|done]. cbn in Hs.
    assert (item_ok x) as Hxo by (by eapply Forall_lookup_1).
    destruct p, (thread x) eqn:Ht; simplify_eq; (apply Forall_insert; [done|by apply Hf]). }
  destruct e as [u f ok|i ok|i ok|i ptr n|i t|i ok]; cbn [step]; intros Hs Hm.
  - injection Hs as <-. unfold add_download. destruct (_ <=? _)%nat; [done|]. destruct ok; [|done].
    apply Forall_app. split; [done|]. by constructor; [apply new_item_ok|].
  - eapply Hat; [done|done|]. intros x Ht _ [H1 H2 H3 H4 H5]. unfold start_thread. destruct (H4 (or_introl Ht)). rewrite Ht in *.
    destruct ok; constructor; cbn; try exact H5; destruct (completed x), (failed x), (closed x); intuition (try done; try congruence).
  - eapply Hat; [done|done|]. intros x Ht _ [H1 H2 H3 H4 H5]. unfold open_file. destruct (H4 (or_intror Ht)). rewrite Ht in *.
    destruct ok; constructor; cbn; try exact H5; destruct (completed x), (failed x), (closed x); intuition (try done; try congruence).
  - eapply Hat; [done|done|]. intros x Ht _ [H1 H2 H3 H4 H5]. unfold write_callback. rewrite Ht in *.
    pose proof (u32_range (downloaded x + Z.of_nat (length ptr))).
    assert (Hle : 0 <= downloaded x + Z.of_nat (length ptr) -> u32 (downloaded x + Z.of_nat (length ptr)) <= downloaded x + Z.of_nat (length ptr))
      by (intros; unfold u32, wrap; apply Z.mod_le; lia).
    destruct (Nat.eqb_spec (length (take n ptr)) (length ptr)) as [E|E]; constructor; cbn; rewrite ?Ht, ?length_app; try done; try (intros [?|?]; done); lia.
  - eapply Hat; [done|done|]. intros x Ht _ [H1 H2 H3 H4 H5]. rewrite Ht in *. constructor; cbn; rewrite ?Ht; done.
  - eapply Hat; [done|done|]. intros x Ht _ [H1 H2 H3 H4 H5]. unfold finish. rewrite Ht in *.
    destruct ok; constructor; cbn; try exact H5; destruct (completed x), (failed x), (closed x); intuition (try done; try congruence).
Qed.

(** Of two tables, that the second has all downloads of the first, and those that were over
    unchanged. *)
Definition goes_on (m m' : manager) : Prop :=
  (length m <= length m')%nat /\
  forall i x, m !! i = Some x -> exists x', m' !! i = Some x' /\ url x' = url x /\ filename x' = filename x /\
    stored x `prefix_of` stored x' /\ (thread x = Ended -> x' = x).
Lemma step_goes_on e m m' : step e m = Some m' -> goes_on m m' /\ ((length m <= MAX_DOWNLOADS)%nat -> (length m' <= MAX_DOWNLOADS)%nat).
Proof.
  assert (Hself : forall i x, m !! i = Some x -> exists x', m !! i = Some x' /\ url x' = url x /\ filename x' = filename x /\ stored x `prefix_of` stored x' /\ (thread x = Ended -> x' = x))
    by (intros i x Hx; exists x; by split_and!).
  assert (Hat : forall p i f, at_phase p i f m = Some m' ->
    (forall x, url (f x) = url x /\ filename (f x) = filename x /\ stored x `prefix_of` stored (f x)) -> goes_on m m' /\ length m' = length m).
  { intros p i f Hs Hf. unfold at_phase in Hs. destruct (m !! i) as [x|] eqn:Hx; [|done]. cbn in Hs.
    assert (m' = <[i := f x]> m /\ thread x <> Ended) as [-> Ht] by (destruct p, (thread x); by simplify_eq).
    rewrite length_insert. split; [|done]. split; [by rewrite length_insert|]. intros j y Hy. destruct (decide (j = i)) as [->|Hne].
    - rewrite Hx in Hy. injection Hy as <-. exists (f x). destruct (Hf x) as (? & ? & ?). split_and!; try done.
      apply list_lookup_insert_eq. by eapply lookup_lt_Some.
    - rewrite list_lookup_insert_ne by done. by apply Hself. }
  destruct e as [u f ok|i ok|i ok|i ptr n|i t|i ok]; cbn [step]; intros Hs.
  2-6: edestruct Hat as [H1 H2]; [exact Hs| |split; [exact H1|by rewrite H2]].
  - injection Hs as <-. unfold add_download. destruct (Nat.leb_spec MAX_DOWNLOADS (length m)); [by split; [split|]|]. destruct ok; [|by split; [split|]].
    cbn [negb snd]. split; [|rewrite length_app; cbn; lia]. split; [rewrite length_app; lia|].
    intros i x Hx. destruct (Hself i x Hx) as (x' & ? & ?). exists x'. split; [|done]. by apply lookup_app_l_Some.
  - intros x. by destruct ok.
  - intros x. by destruct ok.
  - intros x. unfold write_callback. destruct (_ =? _)%nat; cbn; split_and!; try done; by apply prefix_app_r.
  - intros x. done.
  - intros x. by destruct ok.
Qed.

(** ** Theorems *)
(** Downloads under any interleaving.  However the threads and the calls of the user
    interleave, there are at most ten downloads; each is over exactly when it is completed
    or failed, never both, its file closed when one was opened; and a step never loses a
    download, takes back bytes that were stored, or changes one that is over. *)
Theorem downloads_safe (m : manager) : reachable m ->
  (length m <= MAX_DOWNLOADS)%nat /\ Forall item_ok m /\
  forall e m', step e m = Some m' -> goes_on m m'.
Proof.
  intros Hr. split_and!.
  - induction Hr as [|m e m' Hr IH Hs]; [cbn; unfold MAX_DOWNLOADS; lia|]. by apply (proj2 (step_goes_on e m m' Hs)).
  - induction Hr as [|m e m' Hr IH Hs]; [constructor|]. by eapply step_item_ok.
  - intros e m' Hs. by apply (step_goes_on e m m' Hs).
Qed.
